(* ===== verification/_CoqProject ===== *)
-Q . S2P
Prelude.v
IoAddr.v
MsgAddr.v
CString.v
StunHeader.v
StunAttr.v
StunFields.v
StunFieldsFacts.v
Crc.v
Fingerprint.v
Integrity.v
IntegrityFacts.v
Buckets.v
LmMap.v
AddrMap.v
StringMap.v
KHash.v
KHashFacts.v
KHashTable.v
KHashRehash.v
KHashOps.v
UrMap.v
IoTimer.v
Permission.v
PermMem.v
PermLink.v
PermFacts.v
Session.v
SessionFacts.v
RelayFacts.v
RelayBind.v
RelaySystem.v
RelayEnd.v
AttrWalk.v
Handlers.v
HandlerFacts.v
RelayData.v
DataFacts.v
ClientServer.v
RelayGaps.v
Auth.v
AuthFacts.v
AuthClient.v
RelaySession.v
RelaySessionFacts.v
Allocate.v
AllocateFacts.v
AllocateDone.v
AllocateMain.v
OpusPacket.v
OpusPacketFacts.v
OpusExt.v
OpusExtWalk.v
OpusExtWrite.v
OpusExtGen.v
Repacketizer.v
RepackOut.v
RepackCat.v
RepackPad.v
Oauth.v
Password.v
TurnPorts.v
TurnIpPorts.v
EntCode.v
EntEnc.v
EntDec.v
Laplace.v
EntEncFacts.v
EntDecFacts.v
EntCoder.v
EntDone.v
RangeCoder.v
CoarseEnergy.v
CoarseFacts.v
Cwrs.v
CwrsFacts.v
PulseVectors.v
CwrsSmall.v
CwrsSmallFacts.v
