(* ===== verification/Prelude.v ===== *)
(** * A verification library for the STUN/TURN core of VoxLink

    VoxLink is a voice chat: a TypeScript server and client which rely on two
    bodies of C code kept in the repository, the coturn STUN/TURN server and
    the Opus codec.  This library verifies the part of coturn on which every
    packet and every credential of a media session depends: the message codec
    of [coturn-master/src/client], the tables of
    [coturn-master/src/server/ns_turn_maps.c], the allocation of relay
    ports, and the permissions, channels and data paths of a relay session;
    and of Opus the entropy coder, [opus-main/celt/ent*.c], through which every
    bit of an audio frame passes, with its clients for the band energies and
    the pulse vectors, and the packets that frames travel in,
    [opus-main/src/opus.c], [extensions.c] and [repacketizer.c].  Paths of
    coturn below are relative to its [src] directory, those of Opus to
    [opus-main].

    ** The system and its parts

    A relay session reads a stream or a datagram, cuts it into STUN messages
    and channel frames ([stun_get_message_len_str]), parses the header and the
    attributes ([stun_attr_get_first_str] and its companions), checks the
    FINGERPRINT and the MESSAGE-INTEGRITY ([stun_check_message_integrity_str]),
    where the key comes from the user's password, from an encrypted password
    or from an oAuth token, translates the addresses, builds an answer with
    the functions [stun_init_*], [stun_set_*] and [stun_attr_add_*], and looks
    its permissions, channels and users up in the maps of [ns_turn_maps.c].
    The library follows these layers; each file requires only those below it.

    - [Prelude]: C memory and integers (bytes as [list Z], [slice]/[splice],
      loads and stores [ld32]/[st32], byte swapping, wrap-around), tactics and
      the lemmas on them.
    - [IoAddr]: [client/ns_turn_ioaddr.c], socket addresses as records; their
      equality, hash, ranges, classification, and the table that
      translates private addresses to public ones.
    - [MsgAddr]: [client/ns_turn_msg_addr.c], the (XOR-)MAPPED-ADDRESS codec.
    - [CString]: the functions of the C library the code calls on strings.
    - [StunHeader]: the headers of [client/ns_turn_msg.c], message types,
      classification, initialisation of requests and answers, channel frames,
      the framing of streams, the HTTP recogniser.
    - [StunAttr]: attribute search and append of [client/ns_turn_msg.c], with
      the typed readers that only use these.
    - [StunFields], [StunFieldsFacts]: lifetimes, error codes, bandwidth,
      padding, Allocate, ChannelBind, Binding and Refresh messages, challenges.
    - [Crc], [Fingerprint]: the CRC-32 table and routine, FINGERPRINT.
    - [Integrity], [IntegrityFacts]: key production, MESSAGE-INTEGRITY, long
      and short term credentials, signing and checking.
    - [Oauth]: conversion of oAuth keys, token encoding and decoding.
    - [Password]: encrypted (salted) passwords and their verification.
    - [Buckets]: what the maps have in common, an entry list that represents a
      finite map and the simulation of operation sequences.
    - [LmMap], [AddrMap], [StringMap]: the local numeric map, the map keyed by
      addresses and the map keyed by strings of [server/ns_turn_maps.c].
    - [KHash]: the open-addressing table of [server/ns_turn_khash.h];
      [KHashFacts]: its cells as slots and its probe, [KHashTable]: the
      invariant, [KHashRehash]: the rehash in place, [KHashOps]: every
      operation on the slots; [UrMap]: the map [ur_map] above it.
    - [TurnPorts], [TurnIpPorts]: [apps/relay/turn_ports.c], the pool of relay
      ports as a queue, and the pools per relay address and transport.

    A relay session holds two tables that point at each other, and a timer for
    each entry.  Requests and expiring timers change them, packets read them.

    - [IoTimer]: the timers of [apps/relay/ns_ioalib_engine_impl.c].
    - [Permission]: the tables of permissions and channels of
      [server/ns_turn_allocation.c]; [PermMem]: reads and writes of their
      cells; [PermLink]: the invariant that ties owners, channel maps and
      timers together; [PermFacts]: every operation on the tables keeps it.
    - [Session]: peer filter, lifetimes, timeouts and channel binding of
      [server/ns_turn_server.c]; [SessionFacts]: what they do to the tables.
    - [RelayFacts]: the abstract relay, a finite map of hosts to permissions
      and one of channel numbers to peers; there and in [RelayBind]: each
      request and timeout is a step of it; [RelaySystem]: runs;
      [RelayEnd]: the end of an allocation.
    - [AttrWalk]: the loops over the attributes of a request.
    - [Handlers]: ChannelBind, CreatePermission and Send on the received bytes,
      messages on channels, data from peers, and how input is told apart;
      [HandlerFacts], [RelayData], [DataFacts], [ClientServer]: what they do;
      [RelayGaps]: where they fall short.
    - [Auth]: nonces, challenges and the stages of [check_stun_auth];
      [AuthFacts]: each outcome of the check, on any bytes; [AuthClient]: a
      challenge answered by the client's library.
    - [RelaySession]: the relay sockets of an allocation, with their timers and
      the reserved sockets; [RelaySessionFacts]: the invariant that every open
      relay has its socket and every timer its relay, and that each
      operation keeps it.
    - [Allocate]: the session as the handlers see it and
      [handle_turn_allocate]; [AllocateFacts]: reading its attributes and
      writing its response; [AllocateDone]: opening the relay sockets;
      [AllocateMain]: the handler as a whole.

    An Opus frame is one buffer that the range coder fills from the front and
    raw bits fill from the back; encoder and decoder take decisions from the
    number of bits used so far ([ec_tell]).

    - [EntCode], [EntEnc], [EntDec]: [celt/entcode.c], [entenc.c], [entdec.c].
    - [Laplace]: [celt/laplace.c] and the cells its two searches share.
    - [EntEncFacts]: the number the encoder writes, and what each operation
      does to its interval; [EntDecFacts]: the same for the decoder.
    - [EntCoder]: the relation [emits] between an encoder step and the decoder
      step that reads it; [EntDone]: sequences of symbols and the end of the
      stream; [RangeCoder]: the contract of the coder.
    - [CoarseEnergy], [CoarseFacts]: the coding of the band energies of
      [celt/quant_bands.c], a client that chooses its code from [ec_tell].
    - [Cwrs], [CwrsFacts]: the numbering of pulse vectors of [celt/cwrs.c] with
      its table; [PulseVectors]: the codebook, and vectors through the range
      coder; [CwrsSmall], [CwrsSmallFacts]: the build that computes the table
      row by row, and the bits that a codebook takes.

    An Opus packet is a byte that says the configuration and the coding of the
    number of frames, the lengths of the frames as far as they are needed, the
    frames, and padding, which may hold extensions of single frames.

    - [OpusPacket]: what a packet says of itself and [opus_packet_parse_impl];
      [OpusPacketFacts]: packets as data, and the parser.
    - [OpusExt]: the iterator over extensions of [src/extensions.c];
      [OpusExtWalk]: its invariant, and walks through all extensions.
    - [OpusExtWrite]: the generator of extensions, on a buffer or counting only,
      in a monad of results that keeps the buffer where an error leaves it;
      [OpusExtGen]: its steps write the same bytes wherever there is room.
    - [Repacketizer]: [src/repacketizer.c]; pointers to frames are places in the
      buffer that is written or in another one, so that work in place is what
      the code does.  [RepackOut]: the bytes that are written; [RepackCat]:
      what is collected; [RepackPad]: the contracts of its callers.

    Definitions keep the C names.  A message buffer is a [list Z] of the size
    the caller gave it and functions that write through a pointer return the
    new buffer; a C [return false] is [Some (false, _)] or [Some None], and an
    access outside the buffer, or any other undefined behaviour, is the outer
    [None].  A theorem that concludes [= Some ...] is therefore also a theorem
    of memory safety, and of termination.  Integers are [Z]; [u8] to [u64]
    wrap at each place where C converts or computes modulo; loads and stores
    are little-endian, as on the hosts the server is built for, so that
    [nswap16] (the code's [ntohs]) is the exchange of two bytes.  Random
    numbers, time and the results of [malloc] are arguments.

    ** What the theorems show

    - Codec: the attribute search is safe on every buffer and finds the first
      attribute of the abstract attribute list, and appending refines
      appending to that list ([stun_attr_lookup_correct],
      [stun_attr_add_refines]); addresses, headers, channel frames, error
      responses, ChannelBind and Allocate messages are read back as they were
      written; a stream is cut exactly after its first message.
    - Credentials: on any bytes the integrity check accepts exactly the HMAC of
      the message up to its first MESSAGE-INTEGRITY
      ([stun_check_integrity_exact]), restores the buffer and accepts what
      the same library signed, with short or long term credentials, with or
      without FINGERPRINT; the CRC finds every corruption inside four
      consecutive bytes, and so does FINGERPRINT as long as the corruption does
      not hide it ([stun_fingerprint_detects]); the table-driven CRC is the
      bit-serial one; oAuth tokens are decoded to what was encoded and only tokens made
      under the key are accepted; encrypted passwords are accepted exactly
      when the salted digests agree.
    - Tables: sequences of operations on the maps answer as a finite map, the
      address map up to the equality of addresses, and every value is
      destroyed once; sequences of operations on a pool of relay ports are steps
      of a queue of free ports, and the pools of different addresses do not
      touch each other.
    - Numbers: lifetimes are bounded, translated addresses translate back,
      equal addresses hash equally and the range test is sound.
    - Hash table: the probe of a key visits every cell, the rehash in place
      keeps the pairs, and every operation returns whatever the allocations
      answer ([khash_operations_return]); [ur_map] answers as a finite map
      ([ur_map_refines_gmap]).
    - Relay: any run of requests and timeouts is a run of the abstract relay
      ([relay_refines]), channels have permissions that lead back to them
      ([relay_channels_permitted]), everything in use has its timer and every
      timer something in use ([relay_timers_exact]), and nothing is left at the
      end ([clear_leaves_nothing]).  ChannelBind requests of any
      bytes are refused without effect or do what the relay does
      ([channel_bind_request_safe], [channel_bind_understood]); CreatePermission
      checks all peers before it changes anything, and then keeps what
      it could do even if it fails ([create_permission_checked_first]); data
      goes only to permitted peers and comes only from them, on the channel
      that is bound to them if there is one ([send_only_permitted],
      [peer_heard_iff_permitted], [channel_data_both_ways]).
    - Session: Allocate of any bytes is answered, and the answer says what was
      done ([allocate_answered]): no relay is open after an error, and after a
      success a relay is open and a timer ends it at the lifetime the client
      was told.  What opens sockets is an argument with the contract
      [answer_ok].  A challenge can be answered by who knows the password
      ([challenge_answered]).
    - Opus: whatever is encoded within the budget of the buffer is decoded
      ([range_coder_roundtrip], [range_encoder_budget]), both sides count the
      same bits after every symbol ([range_coder_lockstep]), the fast
      fractional count is the one it replaces, and the band energies are read
      as they were coded wherever the bits run out.  Pulse vectors are numbered
      without gaps ([pulse_codebook]), read as they were coded
      ([pulse_vectors_roundtrip]), the same in both builds
      ([small_footprint_same]), and the bits reserved for them are enough
      ([required_bits_enough]).
    - Packets: the parser accepts exactly the packets of the format
      ([opus_packet_parse_exact]); the functions that walk through the
      extensions of any bytes end and agree ([extensions_walked],
      [extensions_by_frame]); the generator of extensions writes what it
      counts, in any buffer with room for it, and never fails an assertion
      ([extensions_generated]); packets that are put together come out in any
      ranges with their frames, in the shortest form
      ([repacketizer_roundtrip]); padding reaches the length that was asked for
      and keeps the frames ([opus_packet_pad_exact]); unpadding in place, also
      of several streams, keeps the frames and stays inside the buffer
      whatever the bytes are ([opus_packet_unpad_exact],
      [opus_multistream_packet_unpad_exact]).
    - Defects the code has are stated as theorems too: the 16-bit wrap of the
      frame length, the incomplete IPv6 range test, the inverted test of
      short-term signing by user name, the nonce overflow of the token
      decoder, the duplicate entries of the local map, the bandwidth that
      loses its high bits, the value that [ur_map_put] writes past its array
      when there is no memory, the port freed while it is held, the band
      energy that is coded with the last bit, the channel that ends with a
      renewed permission, the permissions of addresses that do not decode, the
      relayed address that is not told after an earlier failure; as examples,
      the extension returned from behind [frame_max], the padding that is not
      extensions and cannot be padded, the slot that was counted before there
      was memory for it, the fingerprint that a corruption hides, and the
      range of frames that loses an extension or fails because of one.

    ** Bounds, fuel and assumptions

    The probes of the hash table repeat after twice the number of buckets,
    which is their fuel, and a chain of kicks is at most as long as the
    number of old live cells.  The constant 0.77 of the table is the integer
    rounding [upper_of], which agrees with the double arithmetic on every
    power of two from 4 to 2^31; theorems about insertions assume fewer than
    2^30 keys.  Loops over a message recurse on [attr_fuel len], the length of the
    message: each attribute takes at least four bytes, and the theorems show
    that the search ends by itself before the fuel does.  The port search
    recurses on the distance between the ends of its ring.  The range coder
    is normalised in at most three rounds, finished in at most two, and its
    raw window has four bytes; that these bounds are enough is part of the
    theorems that the functions return.  The searches of the Laplace coder
    recurse on the value and on the point they look for.  The searches of the
    pulse vectors recurse on the number of pulses and of dimensions; the
    theorems hold for the dimensions and pulses whose numbers the table of
    the standard modes has ([codable]), and, for the small build, whose
    numbers fit 32 bits.  A walk through extensions has [walk_fuel], the sum of
    what a measure on the iterator can reach, and the theorems show that it
    ends before.  Loops over frames, lengths of padding and streams recurse on
    their number or on the bytes that are left.  Loops over strings and tables
    recurse on the list.  HMAC and the digests of OpenSSL are the
    class [CryptoOps] with the lengths they return as [CryptoLaws]; AES-GCM is
    [GcmOps] with [GcmLaws] (what decrypts is what was encrypted); SHA-256 in [Password] is a variable of a section.
    Each class has an executable instance, on which the witnesses run.

    ** What is not modelled, and why

    Not modelled are the text conversion of addresses (it is [inet_pton],
    [getaddrinfo] and [inet_ntop]), the random source, the mutex of the string
    map (callers serialise), logging, and the parts of coturn that are only
    input and output: listeners, libevent glue, database drivers, the command
    line and the test clients.  Of the request handlers Refresh, the TCP
    connections of RFC 6062 and mobility are left out, which hand sockets and
    sessions between threads of the engine; so is the relation map of RTCP
    sockets, whose entries own engine sockets.  The signal arithmetic of Opus
    is not modelled; where a coder depends on it, it is an argument.  The
    tables of custom modes are built by code that the standard builds leave
    out.  The bit counters of the range coder are [int] in C and unbounded
    here.  The theorems about writing whole packets are for frames
    without extensions; that the parser reads back what the generator of
    extensions writes is shown by examples only. *)

From stdpp Require Export prelude list numbers.
From Stdlib Require Export ZArith Lia.
From Stdlib Require Import Zbitwise.

#[global] Open Scope Z_scope.

(** ** Arithmetic automation *)

(** [zlia] is [lia] after division and modulo are turned into equations. *)
Ltac zlia := Z.to_euclidean_division_equations; lia.

(** [mred] reduces the option monad and nothing else. *)
Ltac mred := cbn [mbind option_bind fmap option_fmap option_map].

(** ** Machine words

    An unsigned C integer of [w] bits is a [Z] in [0, 2^w); [wrap w] is the
    conversion to that type.  A signed overflow is undefined behaviour, which
    [int_chk] reports. *)

Definition wrap (w x : Z) : Z := x mod 2 ^ w.
Abbreviation u8 := (wrap 8).
Abbreviation u16 := (wrap 16).
Abbreviation u32 := (wrap 32).
Abbreviation u64 := (wrap 64).

Definition int_chk (x : Z) : option Z :=
  if decide (- 2 ^ 31 <= x < 2 ^ 31) then Some x else None.

(** ** Byte lists and their integer values *)

Abbreviation zlen l := (Z.of_nat (length l)).

Definition is_byte (x : Z) : Prop := 0 <= x < 256.
Abbreviation is_bytes := (Forall is_byte).

#[export] Instance is_byte_dec x : Decision (is_byte x).
Proof. unfold is_byte. apply _. Defined.

(** The [n] bytes of [v], least significant first, and the value of such a list. *)
Fixpoint le_bytes (n : nat) (v : Z) : list Z :=
  match n with
  | O => []
  | S n => v mod 256 :: le_bytes n (v / 256)
  end.

Fixpoint le_val (l : list Z) : Z :=
  match l with
  | [] => 0
  | b :: l => b + 256 * le_val l
  end.

Definition be_bytes (n : nat) (v : Z) : list Z := reverse (le_bytes n v).
Definition be_val (l : list Z) : Z := le_val (reverse l).

(** [ntohs], [ntohl] and [ioa_ntoh64] on a little-endian host: the bytes of the
    argument, converted to the width, are put in the opposite order. *)
Definition nswap (n : nat) (v : Z) : Z := le_val (reverse (le_bytes n v)).
Abbreviation nswap16 := (nswap 2).
Abbreviation nswap32 := (nswap 4).
Abbreviation nswap64 := (nswap 8).

(** ** Memory

    An array of bytes is a [list Z].  [slice b o n] is the [n] bytes at offset
    [o], [splice b o s] overwrites the bytes at [o] with [s]; both are [None],
    which stands for undefined behaviour, when the region leaves the array. *)

Definition slice (b : list Z) (o n : Z) : option (list Z) :=
  if decide (0 <= o /\ 0 <= n /\ o + n <= zlen b)
  then Some (take (Z.to_nat n) (drop (Z.to_nat o) b)) else None.

Definition splice (b : list Z) (o : Z) (s : list Z) : option (list Z) :=
  if decide (0 <= o /\ o + zlen s <= zlen b)
  then Some (take (Z.to_nat o) b ++ s ++ drop (Z.to_nat (o + zlen s)) b) else None.

Definition ld (n : nat) (b : list Z) (o : Z) : option Z := le_val <$> slice b o (Z.of_nat n).
Definition st (n : nat) (b : list Z) (o v : Z) : option (list Z) := splice b o (le_bytes n v).
Abbreviation ld8 := (ld 1).
Abbreviation ld16 := (ld 2).
Abbreviation ld32 := (ld 4).
Abbreviation ld64 := (ld 8).
Abbreviation st8 := (st 1).
Abbreviation st16 := (st 2).
Abbreviation st32 := (st 4).
Abbreviation st64 := (st 8).

(** ** Laws *)

Lemma wrap_range w x : 0 <= w -> 0 <= wrap w x < 2 ^ w.
Proof. intros. apply Z.mod_pos_bound. lia. Qed.

Lemma int_chk_ok x : - 2 ^ 31 <= x < 2 ^ 31 -> int_chk x = Some x.
Proof. intros. unfold int_chk. by rewrite decide_True by lia. Qed.

Lemma wrap_small w x : 0 <= x < 2 ^ w -> wrap w x = x.
Proof. apply Z.mod_small. Qed.

Lemma length_le_bytes n v : length (le_bytes n v) = n.
Proof. revert v; induction n; intros; simpl; auto. Qed.

Lemma length_be_bytes n v : length (be_bytes n v) = n.
Proof. unfold be_bytes. by rewrite length_reverse, length_le_bytes. Qed.

Lemma le_bytes_bytes n v : is_bytes (le_bytes n v).
Proof.
  revert v; induction n; intros; simpl; constructor; auto.
  unfold is_byte. pose proof (Z.mod_pos_bound v 256). lia.
Qed.

Lemma be_bytes_bytes n v : is_bytes (be_bytes n v).
Proof. apply Forall_reverse, le_bytes_bytes. Qed.

Lemma le_bytes_1 b : is_byte b -> le_bytes 1 b = [b].
Proof. intros Hb. unfold is_byte in Hb. cbn. by rewrite Z.mod_small by lia. Qed.

Lemma le_val_le_bytes n v : le_val (le_bytes n v) = v mod 2 ^ (8 * Z.of_nat n).
Proof.
  revert v; induction n; intros v.
  - by rewrite Z.mod_1_r.
  - cbn [le_bytes le_val]. rewrite IHn.
    replace (8 * Z.of_nat (S n)) with (8 + 8 * Z.of_nat n) by lia.
    rewrite Z.pow_add_r by lia. change (2 ^ 8) with 256.
    rewrite Z.rem_mul_r by lia. done.
Qed.

Lemma le_val_range l : is_bytes l -> 0 <= le_val l < 2 ^ (8 * zlen l).
Proof.
  induction 1 as [|b l Hb _ IH]; cbn [le_val length]; [lia|].
  replace (8 * Z.of_nat (S (length l))) with (8 + 8 * zlen l) by lia.
  rewrite Z.pow_add_r by lia. change (2 ^ 8) with 256. unfold is_byte in Hb. nia.
Qed.

Lemma le_bytes_le_val l : is_bytes l -> le_bytes (length l) (le_val l) = l.
Proof.
  induction 1 as [|b l Hb _ IH]; cbn [le_val length le_bytes]; [done|].
  unfold is_byte in Hb.
  replace ((b + 256 * le_val l) mod 256) with b by zlia.
  replace ((b + 256 * le_val l) / 256) with (le_val l) by zlia.
  by rewrite IH.
Qed.

Lemma be_val_be_bytes n v : be_val (be_bytes n v) = v mod 2 ^ (8 * Z.of_nat n).
Proof. unfold be_val, be_bytes. rewrite reverse_involutive. apply le_val_le_bytes. Qed.

Lemma be_bytes_be_val l : is_bytes l -> be_bytes (length l) (be_val l) = l.
Proof.
  intros H. unfold be_val, be_bytes.
  rewrite <- (length_reverse l), le_bytes_le_val by by apply Forall_reverse.
  apply reverse_involutive.
Qed.

Lemma be_val_range l : is_bytes l -> 0 <= be_val l < 2 ^ (8 * zlen l).
Proof.
  intros H. unfold be_val. rewrite <- (length_reverse l).
  by apply le_val_range, Forall_reverse.
Qed.

Lemma nswap_le_val l : is_bytes l -> nswap (length l) (le_val l) = be_val l.
Proof. intros H. unfold nswap. by rewrite le_bytes_le_val. Qed.

Lemma le_bytes_nswap n v : le_bytes n (nswap n v) = be_bytes n v.
Proof.
  unfold nswap, be_bytes.
  rewrite <- (le_bytes_le_val (reverse (le_bytes n v))) at 2
    by apply Forall_reverse, le_bytes_bytes.
  by rewrite length_reverse, length_le_bytes.
Qed.

Lemma nswap_range n v : 0 <= nswap n v < 2 ^ (8 * Z.of_nat n).
Proof.
  pose proof (le_val_range (reverse (le_bytes n v))) as H.
  rewrite length_reverse, length_le_bytes in H.
  apply H, Forall_reverse, le_bytes_bytes.
Qed.

Lemma nswap_involutive n v : 0 <= v < 2 ^ (8 * Z.of_nat n) -> nswap n (nswap n v) = v.
Proof.
  intros H. unfold nswap at 1. rewrite le_bytes_nswap. unfold be_bytes.
  rewrite reverse_involutive, le_val_le_bytes. by apply Z.mod_small.
Qed.

Lemma be_val_app l1 l2 : be_val (l1 ++ l2) = be_val l1 * 2 ^ (8 * zlen l2) + be_val l2.
Proof.
  unfold be_val. rewrite reverse_app. rewrite <- (length_reverse l2).
  generalize (reverse l1) as a, (reverse l2) as b; clear. intros a b.
  induction b as [|x b IH]; cbn [app le_val length]; [lia|]. rewrite IH.
  replace (8 * Z.of_nat (S (length b))) with (8 + 8 * zlen b) by lia.
  rewrite Z.pow_add_r by lia. lia.
Qed.

Lemma be_val_single x : be_val [x] = x.
Proof. unfold be_val. simpl. lia. Qed.

(** *** Slices of an explicit decomposition of the array *)

Lemma slice_app pre mid post o n :
  o = zlen pre -> n = zlen mid -> slice (pre ++ mid ++ post) o n = Some mid.
Proof.
  intros -> ->. unfold slice. rewrite decide_True by (rewrite !length_app; lia).
  rewrite !Nat2Z.id, drop_app_length, take_app_length. done.
Qed.

Lemma slice_app_end pre mid o n :
  o = zlen pre -> n = zlen mid -> slice (pre ++ mid) o n = Some mid.
Proof. intros. rewrite <- (app_nil_r mid) at 1. by apply slice_app. Qed.

Lemma splice_app pre mid post o s :
  o = zlen pre -> length s = length mid ->
  splice (pre ++ mid ++ post) o s = Some (pre ++ s ++ post).
Proof.
  intros -> Hs. unfold splice. rewrite decide_True by (rewrite !length_app; lia).
  rewrite Nat2Z.id, take_app_length.
  replace (Z.to_nat (zlen pre + zlen s)) with (length (pre ++ mid)) by (rewrite length_app; lia).
  by rewrite (assoc_L (++) pre mid post), drop_app_length.
Qed.

(** Filling an array from the left. *)
Lemma splice_next pre old o s :
  o = zlen pre -> (length s <= length old)%nat ->
  splice (pre ++ old) o s = Some ((pre ++ s) ++ drop (length s) old).
Proof.
  intros -> Hs. rewrite <- (take_drop (length s) old) at 1.
  rewrite splice_app by (rewrite ?length_take; lia). by rewrite (assoc_L (++)).
Qed.

Lemma slice_prefix mid post n : n = zlen mid -> slice (mid ++ post) 0 n = Some mid.
Proof. by apply (slice_app []). Qed.

Lemma splice_prefix old s :
  (length s <= length old)%nat -> splice old 0 s = Some (s ++ drop (length s) old).
Proof. by apply (splice_next []). Qed.

Lemma slice_Some b o n s :
  slice b o n = Some s <->
  0 <= o /\ 0 <= n /\ o + n <= zlen b /\ s = take (Z.to_nat n) (drop (Z.to_nat o) b).
Proof. unfold slice. case_decide; [|naive_solver]. split; [intros [= <-]|]; naive_solver. Qed.

Lemma slice_val b o n :
  0 <= o -> 0 <= n -> o + n <= zlen b ->
  slice b o n = Some (take (Z.to_nat n) (drop (Z.to_nat o) b)).
Proof. intros. unfold slice. by rewrite decide_True by lia. Qed.

Lemma slice_split b o n s :
  slice b o n = Some s ->
  exists pre post, b = pre ++ s ++ post /\ o = zlen pre /\ n = zlen s.
Proof.
  intros (?&?&?&->)%slice_Some.
  exists (take (Z.to_nat o) b), (drop (Z.to_nat n) (drop (Z.to_nat o) b)).
  rewrite !take_drop, !length_take, length_drop. split_and!; [done|lia|lia].
Qed.

Lemma slice_is_Some b o n :
  0 <= o -> 0 <= n -> o + n <= zlen b -> exists s, slice b o n = Some s /\ zlen s = n.
Proof.
  intros. unfold slice. rewrite decide_True by lia. eexists; split; [done|].
  rewrite length_take, length_drop. lia.
Qed.

Lemma slice_sub b o n s o' n' :
  slice b o n = Some s -> 0 <= o' -> o' + n' <= n -> slice b (o + o') n' = slice s o' n'.
Proof.
  intros (pre & post & -> & -> & ->)%slice_split Ho Hn. unfold slice.
  rewrite !length_app. case_decide as H1; case_decide as H2; try (exfalso; lia); [|done].
  f_equal. replace (Z.to_nat (zlen pre + o')) with (length pre + Z.to_nat o')%nat by lia.
  rewrite <- drop_drop, drop_app_length, drop_app_le by lia. rewrite take_app_le; [done|].
  rewrite length_drop. lia.
Qed.

Lemma ld_sub n b o k s o' :
  slice b o k = Some s -> 0 <= o' -> o' + Z.of_nat n <= k -> ld n b (o + o') = ld n s o'.
Proof. intros. unfold ld. by rewrite (slice_sub b o k s) by done. Qed.

Lemma slice_length b o n s : slice b o n = Some s -> zlen s = n.
Proof. intros (pre & post & _ & _ & ->)%slice_split. done. Qed.

Lemma slice_bytes b o n s : is_bytes b -> slice b o n = Some s -> is_bytes s.
Proof. intros Hb (_&_&_&->)%slice_Some. by apply Forall_take, Forall_drop. Qed.

Lemma splice_length b o s b' : splice b o s = Some b' -> length b' = length b.
Proof.
  unfold splice. case_decide; [|done]. intros [= <-].
  rewrite !length_app, length_take, length_drop. lia.
Qed.

Lemma splice_bytes b o s b' :
  is_bytes b -> is_bytes s -> splice b o s = Some b' -> is_bytes b'.
Proof.
  unfold splice. case_decide; [|done]. intros Hb Hs [= <-].
  by apply Forall_app_2; [apply Forall_take|apply Forall_app_2; [|apply Forall_drop]].
Qed.

Lemma splice_is_Some b o s :
  0 <= o -> o + zlen s <= zlen b -> exists b', splice b o s = Some b'.
Proof. intros. unfold splice. rewrite decide_True by lia. eauto. Qed.

Lemma splice_val b o s :
  0 <= o -> o + zlen s <= zlen b ->
  splice b o s = Some (take (Z.to_nat o) b ++ s ++ drop (Z.to_nat (o + zlen s)) b).
Proof. intros. unfold splice. by rewrite decide_True by lia. Qed.

Lemma splice_split b o s b' :
  splice b o s = Some b' ->
  exists pre mid post, b = pre ++ mid ++ post /\ b' = pre ++ s ++ post /\
    o = zlen pre /\ length mid = length s.
Proof.
  unfold splice. case_decide as Hd; [|done]. intros [= <-].
  exists (take (Z.to_nat o) b), (take (length s) (drop (Z.to_nat o) b)),
    (drop (Z.to_nat (o + zlen s)) b).
  replace (Z.to_nat (o + zlen s)) with (Z.to_nat o + length s)%nat by lia.
  rewrite <- drop_drop, !take_drop, !length_take, length_drop. split_and!; [done..|lia|lia].
Qed.

Lemma slice_splice_eq b o s b' : splice b o s = Some b' -> slice b' o (zlen s) = Some s.
Proof. intros (pre&mid&post&->&->&->&?)%splice_split. by apply slice_app. Qed.

Lemma slice_splice_ne b o s b' o' n :
  splice b o s = Some b' -> o' + n <= o \/ o + zlen s <= o' ->
  slice b' o' n = slice b o' n.
Proof.
  intros (pre&mid&post&->&->&->&Hl)%splice_split Hd. unfold slice.
  rewrite !length_app, Hl. case_decide as H1; [|done]. f_equal.
  destruct Hd as [Hd|Hd].
  - rewrite !firstn_skipn_comm. f_equal.
    rewrite !take_app_le by lia. done.
  - rewrite !(assoc_L (++) pre).
    rewrite !drop_app_ge by (rewrite length_app; lia).
    rewrite !length_app, Hl. done.
Qed.

Lemma ld_app n pre mid post o :
  o = zlen pre -> length mid = n -> ld n (pre ++ mid ++ post) o = Some (le_val mid).
Proof. intros. unfold ld. by rewrite slice_app by lia. Qed.

Lemma ld_is_Some n b o :
  is_bytes b -> 0 <= o -> o + Z.of_nat n <= zlen b ->
  exists v, ld n b o = Some v /\ 0 <= v < 2 ^ (8 * Z.of_nat n).
Proof.
  intros Hb Ho Hn. destruct (slice_is_Some b o (Z.of_nat n)) as (s & Hs & Hl); [lia..|].
  exists (le_val s). unfold ld. rewrite Hs. split; [done|].
  rewrite <- Hl. apply le_val_range. by eapply slice_bytes.
Qed.

Lemma st_is_Some n b o v :
  0 <= o -> o + Z.of_nat n <= zlen b -> exists b', st n b o v = Some b' /\ length b' = length b.
Proof.
  intros. destruct (splice_is_Some b o (le_bytes n v)) as (b' & Hb');
    [lia|rewrite length_le_bytes; lia|]. eauto using splice_length.
Qed.

(** Two adjacent regions make one. *)
Lemma slice_concat b o n1 n2 s1 s2 :
  slice b o n1 = Some s1 -> slice b (o + n1) n2 = Some s2 -> slice b o (n1 + n2) = Some (s1 ++ s2).
Proof.
  intros (?&?&?&->)%slice_Some (?&?&?&->)%slice_Some. rewrite slice_val by lia. f_equal.
  rewrite !Z2Nat.inj_add by lia. rewrite <- drop_drop. symmetry. apply take_take_drop.
Qed.

Lemma slice_at_0 b n s : slice b 0 n = Some s -> exists tr, b = s ++ tr.
Proof. intros (_&_&_&->)%slice_Some. rewrite drop_0. eexists. by rewrite take_drop. Qed.

Lemma slice_take b k o n :
  o + n <= Z.of_nat k -> Z.of_nat k <= zlen b -> slice (take k b) o n = slice b o n.
Proof.
  intros. unfold slice. rewrite length_take. 
  destruct (decide (0 <= o /\ 0 <= n)) as [[? ?]|]; [|rewrite !decide_False by lia; done].
  rewrite !decide_True by lia. rewrite skipn_firstn_comm, take_take. by rewrite Nat.min_l by lia.
Qed.

Lemma ld_take n b k o :
  o + Z.of_nat n <= Z.of_nat k -> Z.of_nat k <= zlen b -> ld n (take k b) o = ld n b o.
Proof. intros. unfold ld. by rewrite slice_take. Qed.

Lemma Forall_elem {A} (P : A -> Prop) l x : Forall P l -> x ∈ l -> P x.
Proof. intros H Hx. by apply (proj1 (List.Forall_forall _ _) H), list_elem_of_In. Qed.

Lemma take_drop_at {A} k n (l : list A) : take n (drop k l) ++ drop (k + n) l = drop k l.
Proof. by rewrite <- drop_drop, take_drop. Qed.

(** Lemmas that settle lengths and byte ranges are found by [eauto with bytes]. *)
Create HintDb bytes.
Create Rewrite HintDb lens.
#[export] Hint Resolve le_bytes_bytes be_bytes_bytes slice_bytes splice_bytes : bytes.
#[export] Hint Resolve Forall_app_2 Forall_take Forall_drop Forall_nil_2 Forall_cons_2 : bytes.
#[export] Hint Resolve Forall_reverse : bytes.
#[export] Hint Rewrite @length_app @length_take @length_drop length_le_bytes length_be_bytes
  @length_replicate @length_reverse Nat2Z.inj_add Nat2Z.id @length_nil @length_cons : lens.

(** [solve_bytes] proves that an explicit list holds bytes. *)
Ltac solve_bytes :=
  first [apply le_bytes_bytes | apply be_bytes_bytes | assumption
        | repeat first [apply Forall_nil_2 | apply Forall_cons_2];
          unfold is_byte in *; repeat case_decide; first [lia | split; done]].

(** [len_lia] closes arithmetic goals about lengths of concatenations. *)
Ltac len_lia := autorewrite with lens; cbn [Z.of_nat]; lia.

(** ** Bitwise operations *)

Lemma lxor_range n a b :
  0 <= n -> 0 <= a < 2 ^ n -> 0 <= b < 2 ^ n -> 0 <= Z.lxor a b < 2 ^ n.
Proof.
  intros Hn [Ha1 Ha2] [Hb1 Hb2].
  assert (0 <= Z.lxor a b) as H0 by (apply Z.lxor_nonneg; lia). split; [done|].
  rewrite <- (Z.mod_small a (2 ^ n)), <- (Z.mod_small b (2 ^ n)) by lia.
  rewrite <- !Z.land_ones by lia.
  rewrite (Z.bits_inj' (Z.lxor _ _) (Z.land (Z.lxor a b) (Z.ones n))).
  - rewrite Z.land_ones by lia. apply Z.mod_pos_bound. lia.
  - intros i Hi. rewrite Z.lxor_spec, !Z.land_spec, Z.lxor_spec.
    by destruct (Z.testbit a i), (Z.testbit b i), (Z.testbit (Z.ones n) i).
Qed.

Lemma lxor_cancel_r a b : Z.lxor (Z.lxor a b) b = a.
Proof. by rewrite Z.lxor_assoc, Z.lxor_nilpotent, Z.lxor_0_r. Qed.

(** Bytewise exclusive or of two regions. *)
Definition xor_bytes (a b : list Z) : list Z := zip_with Z.lxor a b.

Lemma xor_bytes_bytes a b : is_bytes a -> is_bytes b -> is_bytes (xor_bytes a b).
Proof.
  intros Ha; revert b; induction Ha as [|x a Hx _ IH]; intros b Hb; [constructor|].
  destruct Hb as [|y b Hy Hb]; constructor; [|by apply IH].
  by apply (lxor_range 8).
Qed.

Lemma length_xor_bytes a b : length (xor_bytes a b) = (length a `min` length b)%nat.
Proof. apply length_zip_with. Qed.

Lemma xor_bytes_cancel a b : (length a <= length b)%nat -> xor_bytes (xor_bytes a b) b = a.
Proof.
  revert b; induction a as [|x a IH]; intros [|y b] H; cbn in *; try done; [lia|].
  rewrite lxor_cancel_r. f_equal. apply IH. lia.
Qed.

Lemma xor_bytes_app_r l m1 m2 :
  xor_bytes l (m1 ++ m2)
  = xor_bytes (take (length m1) l) m1 ++ xor_bytes (drop (length m1) l) m2.
Proof. apply zip_with_app_r. Qed.

Lemma xor_bytes_app_l l1 l2 m :
  xor_bytes (l1 ++ l2) m
  = xor_bytes l1 (take (length l1) m) ++ xor_bytes l2 (drop (length l1) m).
Proof. apply zip_with_app_l. Qed.

Lemma xor_bytes_0_r l n : (length l <= n)%nat -> xor_bytes l (replicate n 0) = l.
Proof.
  revert n; induction l as [|x l IH]; intros [|n] H; cbn in *; try done; [lia|].
  rewrite Z.lxor_0_r. f_equal. apply IH. lia.
Qed.

#[export] Hint Resolve xor_bytes_bytes : bytes.
#[export] Hint Rewrite length_xor_bytes : lens.

(** ** Network-order fields *)

Lemma st_nswap n b o v : st n b o (nswap n v) = splice b o (be_bytes n v).
Proof. unfold st. by rewrite le_bytes_nswap. Qed.

Lemma ld_be n b o v :
  slice b o (Z.of_nat n) = Some (be_bytes n v) -> ld n b o = Some (nswap n v).
Proof. unfold ld. by intros ->. Qed.

Lemma be_bytes_small_inv n v w :
  0 <= v < 2 ^ (8 * Z.of_nat n) -> 0 <= w < 2 ^ (8 * Z.of_nat n) ->
  be_bytes n v = be_bytes n w -> v = w.
Proof.
  intros Hv Hw H. apply (f_equal be_val) in H. rewrite !be_val_be_bytes in H.
  rewrite !Z.mod_small in H by done. done.
Qed.

Lemma be_bytes_mod n v : be_bytes n (v mod 2 ^ (8 * Z.of_nat n)) = be_bytes n v.
Proof.
  unfold be_bytes. f_equal. revert v; induction n as [|n IH]; intros v; [done|].
  cbn [le_bytes]. replace (8 * Z.of_nat (S n)) with (8 + 8 * Z.of_nat n) by lia.
  rewrite Z.pow_add_r by lia. change (2 ^ 8) with 256.
  pose proof (Z.pow_pos_nonneg 2 (8 * Z.of_nat n)).
  rewrite Z.rem_mul_r by lia. f_equal.
  - rewrite (Z.mul_comm 256), Z.mod_add by lia. by rewrite Zmod_mod.
  - rewrite <- (IH (v / 256)). f_equal.
    rewrite (Z.mul_comm 256), Z.div_add by lia. rewrite (Z.div_small (v mod 256)); [lia|].
    apply Z.mod_pos_bound. lia.
Qed.

(** ** Exhaustive checks over a range *)

Definition checkZ (n : Z) (P : Z -> bool) : bool := forallb P (seqZ 0 n).

Lemma checkZ_spec n P x : checkZ n P = true -> 0 <= x < n -> P x = true.
Proof.
  unfold checkZ. rewrite forallb_forall. intros H Hx. apply H.
  apply list_elem_of_In, elem_of_seqZ. lia.
Qed.
