(* ===== verification/IoAddr.v ===== *)
(** * Socket addresses: [client/ns_turn_ioaddr.c]

    The address union, its comparison, hashing, range and classification
    functions, and the table that maps public to private addresses. *)

From S2P Require Import Prelude.

Definition AF_INET : Z := 2.
Definition AF_INET6 : Z := 10.

(** ** The union [ioa_addr]

    [sockaddr_in] and [sockaddr_in6] share their first eight bytes, so the union
    is one record: the 32 bits at offset 4 are [s4.sin_addr.s_addr] for one
    member and [s6.sin6_flowinfo] for the other.  Multi-byte members hold the
    value the little-endian host loads, hence ports are in network order and go
    through [nswap16].  A possibly-null pointer is an [option]. *)
Record ioa_addr := mk_ioa_addr {
  sa_family : Z;
  sin_port : Z;
  s_addr : Z;
  sin6_addr : list Z;
  sin6_scope_id : Z
}.

Definition wf_addr (a : ioa_addr) : Prop :=
  0 <= sa_family a < 2 ^ 16 /\ 0 <= sin_port a < 2 ^ 16 /\ 0 <= s_addr a < 2 ^ 32 /\
  length (sin6_addr a) = 16%nat /\ is_bytes (sin6_addr a) /\ 0 <= sin6_scope_id a < 2 ^ 32.

#[export] Instance ioa_addr_eq_dec : EqDecision ioa_addr.
Proof. solve_decision. Defined.

(** [sizeof(struct sockaddr_in)] and [sizeof(struct sockaddr_in6)]. *)
Definition get_ioa_addr_len (a : ioa_addr) : Z :=
  if decide (sa_family a = AF_INET) then 16
  else if decide (sa_family a = AF_INET6) then 28 else 0.

Definition addr_set_any : ioa_addr := mk_ioa_addr 0 0 0 (replicate 16 0) 0.

Definition all_zero (l : list Z) : bool := forallb (Z.eqb 0) l.

Definition addr_any (addr : option ioa_addr) : bool :=
  match addr with
  | None => true
  | Some a =>
    if decide (sa_family a = AF_INET) then (s_addr a =? 0) && (sin_port a =? 0)
    else if decide (sa_family a = AF_INET6) then
      if negb (sin_port a =? 0) then false else all_zero (sin6_addr a)
    else true
  end.

Definition addr_any_no_port (addr : option ioa_addr) : bool :=
  match addr with
  | None => true
  | Some a =>
    if decide (sa_family a = AF_INET) then s_addr a =? 0
    else if decide (sa_family a = AF_INET6) then all_zero (sin6_addr a)
    else true
  end.

(** ** Hashing *)

Definition hash_int32 (a : Z) : Z :=
  let a := Z.lxor a (Z.shiftr a 4) in
  let a := u32 (Z.lxor a 0xdeadbeef + u32 (Z.shiftl a 5)) in
  Z.lxor a (Z.shiftr a 11).

Definition hash_int64 (a : Z) : Z :=
  let a := Z.lxor a (Z.shiftr a 4) in
  let a := u64 (Z.lxor a 0xdeadbeefdeadbeef + u64 (Z.shiftl a 5)) in
  Z.lxor a (Z.shiftr a 11).

(** [memcpy(&a, &sin6_addr, sizeof(a))] for [uint64_t a[2]]. *)
Definition addr_words (a : ioa_addr) : Z * Z :=
  (le_val (take 8 (sin6_addr a)), le_val (drop 8 (sin6_addr a))).

Definition addr_hash (addr : option ioa_addr) : Z :=
  match addr with
  | None => 0
  | Some a =>
    if decide (sa_family a = AF_INET) then hash_int32 (u32 (s_addr a + sin_port a))
    else let '(a0, a1) := addr_words a in
      u32 (u64 (u64 (Z.shiftl (hash_int64 a0) 3) + hash_int64 (u64 (a1 + sin_port a))))
  end.

Definition addr_hash_no_port (addr : option ioa_addr) : Z :=
  match addr with
  | None => 0
  | Some a =>
    if decide (sa_family a = AF_INET) then hash_int32 (s_addr a)
    else let '(a0, a1) := addr_words a in
      u32 (u64 (u64 (Z.shiftl (hash_int64 a0) 3) + hash_int64 a1))
  end.

(** ** Copies and comparison *)

(** [memcpy] of the whole union; a null argument leaves the destination. *)
Definition addr_cpy (dst : ioa_addr) (src : option ioa_addr) : ioa_addr := default dst src.

Definition addr_eq (a1 a2 : option ioa_addr) : bool :=
  match a1, a2 with
  | None, None => true
  | None, Some _ | Some _, None => false
  | Some a1, Some a2 =>
    if decide (sa_family a1 = sa_family a2) then
      if decide (sa_family a1 = AF_INET /\ sin_port a1 = sin_port a2) then
        bool_decide (s_addr a1 = s_addr a2)
      else if decide (sa_family a1 = AF_INET6 /\ sin_port a1 = sin_port a2) then
        bool_decide (sin6_addr a1 = sin6_addr a2)
      else false
    else false
  end.

Definition addr_eq_no_port (a1 a2 : option ioa_addr) : bool :=
  match a1, a2 with
  | None, None => true
  | None, Some _ | Some _, None => false
  | Some a1, Some a2 =>
    if decide (sa_family a1 = sa_family a2) then
      if decide (sa_family a1 = AF_INET) then bool_decide (s_addr a1 = s_addr a2)
      else if decide (sa_family a1 = AF_INET6) then
        bool_decide (sin6_addr a1 = sin6_addr a2)
      else false
    else false
  end.

(** ** Ports *)

(** [nswap16] takes the low 16 bits of its [int] argument. *)
Definition addr_set_port (a : ioa_addr) (port : Z) : ioa_addr :=
  if decide (sa_family a = AF_INET \/ sa_family a = AF_INET6) then
    mk_ioa_addr (sa_family a) (nswap16 port) (s_addr a) (sin6_addr a) (sin6_scope_id a)
  else a.

Definition addr_get_port (addr : option ioa_addr) : Z :=
  match addr with
  | None => 0
  | Some a =>
    if decide (sa_family a = AF_INET) then nswap16 (sin_port a)
    else if decide (sa_family a = AF_INET6) then nswap16 (sin_port a)
    else 0
  end.

(** ** Ranges *)

Record ioa_addr_range := mk_range { range_min : ioa_addr; range_max : ioa_addr }.

Definition ioa_addr_range_set (addr_min addr_max : option ioa_addr) : ioa_addr_range :=
  mk_range (default addr_set_any addr_min) (default addr_set_any addr_max).

(** The loop over the 16 bytes of two IPv6 addresses: it stops with 0 at the
    first byte of the first address that exceeds the other's. *)
Fixpoint bytes_less_eq (l1 l2 : list Z) : bool :=
  match l1, l2 with
  | b1 :: l1, b2 :: l2 => if decide (b1 > b2) then false else bytes_less_eq l1 l2
  | _, _ => true
  end.

Definition addr_less_eq (a1 a2 : option ioa_addr) : bool :=
  match a1, a2 with
  | None, _ => true
  | Some _, None => false
  | Some a1, Some a2 =>
    if decide (sa_family a1 <> sa_family a2) then bool_decide (sa_family a1 < sa_family a2)
    else if decide (sa_family a1 = AF_INET) then
      bool_decide (nswap32 (s_addr a1) <= nswap32 (s_addr a2))
    else if decide (sa_family a1 = AF_INET6) then bytes_less_eq (sin6_addr a1) (sin6_addr a2)
    else true
  end.

Definition ioa_addr_in_range (range : option ioa_addr_range) (addr : option ioa_addr) : bool :=
  match range, addr with
  | Some r, Some a =>
    if addr_any (Some (range_min r)) || addr_less_eq (Some (range_min r)) (Some a) then
      if addr_any (Some (range_max r)) then true
      else addr_less_eq (Some a) (Some (range_max r))
    else false
  | _, _ => false
  end.

(** ** Classification *)

Definition u_at (l : list Z) (i : nat) : Z := nth i l 0.

Definition ioa_addr_is_multicast (addr : option ioa_addr) : bool :=
  match addr with
  | None => false
  | Some a =>
    if decide (sa_family a = AF_INET) then bool_decide (u_at (le_bytes 4 (s_addr a)) 0 > 223)
    else if decide (sa_family a = AF_INET6) then bool_decide (u_at (sin6_addr a) 0 = 255)
    else false
  end.

Definition ioa_addr_is_loopback (addr : option ioa_addr) : bool :=
  match addr with
  | None => false
  | Some a =>
    if decide (sa_family a = AF_INET) then bool_decide (u_at (le_bytes 4 (s_addr a)) 0 = 127)
    else if decide (sa_family a = AF_INET6) then
      if decide (u_at (sin6_addr a) 15 = 1) then all_zero (take 15 (sin6_addr a)) else false
    else false
  end.

Definition ioa_addr_is_zero (addr : option ioa_addr) : bool :=
  match addr with
  | None => false
  | Some a =>
    if decide (sa_family a = AF_INET) then bool_decide (u_at (le_bytes 4 (s_addr a)) 0 = 0)
    else if decide (sa_family a = AF_INET6) then all_zero (sin6_addr a)
    else false
  end.

(** ** The public/private table

    [public_addrs[i]] and [private_addrs[i]] as a list of pairs; [mcount] is its
    length. *)
Abbreviation mapping := (list (ioa_addr * ioa_addr)).

Definition ioa_addr_add_mapping (m : mapping) (apub apriv : ioa_addr) : mapping :=
  m ++ [(apub, apriv)].

Fixpoint map_addr_from_public_to_private (m : mapping) (public_addr : ioa_addr) : ioa_addr :=
  match m with
  | [] => public_addr
  | (pub, priv) :: m =>
    if addr_eq_no_port (Some public_addr) (Some pub)
    then addr_set_port priv (addr_get_port (Some public_addr))
    else map_addr_from_public_to_private m public_addr
  end.

Fixpoint map_addr_from_private_to_public (m : mapping) (private_addr : ioa_addr) : ioa_addr :=
  match m with
  | [] => private_addr
  | (pub, priv) :: m =>
    if addr_eq_no_port (Some private_addr) (Some priv)
    then addr_set_port pub (addr_get_port (Some private_addr))
    else map_addr_from_private_to_public m private_addr
  end.

(** ** Comparison is compatible with hashing *)

Lemma addr_eq_spec a b :
  addr_eq (Some a) (Some b) = true <->
  sa_family a = sa_family b /\ sin_port a = sin_port b /\
  (sa_family a = AF_INET /\ s_addr a = s_addr b \/
   sa_family a = AF_INET6 /\ sin6_addr a = sin6_addr b).
Proof.
  unfold addr_eq, AF_INET, AF_INET6.
  repeat case_decide; rewrite ?bool_decide_eq_true; intuition (try discriminate; try lia).
Qed.

Lemma addr_eq_no_port_spec a b :
  addr_eq_no_port (Some a) (Some b) = true <->
  sa_family a = sa_family b /\
  (sa_family a = AF_INET /\ s_addr a = s_addr b \/
   sa_family a = AF_INET6 /\ sin6_addr a = sin6_addr b).
Proof.
  unfold addr_eq_no_port, AF_INET, AF_INET6.
  repeat case_decide; rewrite ?bool_decide_eq_true; intuition (try discriminate; try lia).
Qed.

(** Addresses of one of the two families the code handles. *)
Definition inet_addr (a : ioa_addr) : Prop := sa_family a = AF_INET \/ sa_family a = AF_INET6.

#[export] Instance inet_addr_dec a : Decision (inet_addr a).
Proof. unfold inet_addr. apply _. Defined.

(** [addr_eqv] is the relation [addr_eq] decides; it is coarser than equality:
    it ignores the scope id, and the members of the other family. *)
Definition addr_eqv (a b : ioa_addr) : Prop := addr_eq (Some a) (Some b) = true.
Definition addr_eqv_no_port (a b : ioa_addr) : Prop := addr_eq_no_port (Some a) (Some b) = true.

#[export] Instance addr_eqv_dec a b : Decision (addr_eqv a b).
Proof. unfold addr_eqv. apply _. Defined.

#[export] Instance addr_eqv_per : RelationClasses.PER addr_eqv.
Proof.
  split.
  - intros a b. unfold addr_eqv. rewrite !addr_eq_spec.
    intros (E1 & E2 & [[E3 E4]|[E3 E4]]); rewrite E1 in E3; auto 6.
  - intros a b c. unfold addr_eqv. rewrite !addr_eq_spec.
    intros (-> & -> & [[E3 ->]|[E3 ->]]); tauto || (rewrite E3; intuition discriminate).
Qed.

#[export] Instance addr_eqv_no_port_per : RelationClasses.PER addr_eqv_no_port.
Proof.
  split.
  - intros a b. unfold addr_eqv_no_port. rewrite !addr_eq_no_port_spec.
    intros (E1 & [[E3 E4]|[E3 E4]]); rewrite E1 in E3; auto 6.
  - intros a b c. unfold addr_eqv_no_port. rewrite !addr_eq_no_port_spec.
    intros (-> & [[E3 ->]|[E3 ->]]); tauto || (rewrite E3; intuition discriminate).
Qed.

Lemma addr_eqv_refl a : inet_addr a -> addr_eqv a a.
Proof. unfold addr_eqv, inet_addr. rewrite addr_eq_spec. intuition. Qed.

Lemma addr_eqv_no_port_refl a : inet_addr a -> addr_eqv_no_port a a.
Proof. unfold addr_eqv_no_port, inet_addr. rewrite addr_eq_no_port_spec. intuition. Qed.

Lemma addr_eqv_weaken a b : addr_eqv a b -> addr_eqv_no_port a b.
Proof. unfold addr_eqv, addr_eqv_no_port. rewrite addr_eq_spec, addr_eq_no_port_spec. tauto. Qed.

Create HintDb addr.
#[export] Hint Resolve addr_eqv_refl addr_eqv_no_port_refl addr_eqv_weaken : addr.

#[export] Instance addr_hash_proper : Proper (addr_eqv ==> eq) (fun a => addr_hash (Some a)).
Proof.
  intros a b. unfold addr_eqv. rewrite addr_eq_spec. intros (Hf & Hp & H).
  unfold addr_hash, addr_words. rewrite <- Hf, <- Hp.
  destruct H as [[-> ->]|[-> ->]]; [by rewrite !decide_True by done|].
  by rewrite !decide_False by done.
Qed.

#[export] Instance addr_hash_no_port_proper :
  Proper (addr_eqv_no_port ==> eq) (fun a => addr_hash_no_port (Some a)).
Proof.
  intros a b. unfold addr_eqv_no_port. rewrite addr_eq_no_port_spec. intros (Hf & H).
  unfold addr_hash_no_port, addr_words. rewrite <- Hf.
  destruct H as [[-> ->]|[-> ->]]; [by rewrite !decide_True by done|].
  by rewrite !decide_False by done.
Qed.

Lemma u32_range x : 0 <= u32 x < 2 ^ 32.
Proof. by apply wrap_range. Qed.

(** ** Ports *)

Lemma addr_get_set_port a port :
  inet_addr a -> addr_get_port (Some (addr_set_port a port)) = port mod 2 ^ 16.
Proof.
  intros H. unfold addr_set_port. rewrite decide_True by done.
  unfold addr_get_port. cbn [sa_family sin_port].
  assert (nswap16 (nswap16 port) = port mod 2 ^ 16) as ->.
  { unfold nswap at 1. rewrite le_bytes_nswap. unfold be_bytes.
    by rewrite reverse_involutive, le_val_le_bytes. }
  destruct H as [-> | ->]; [by rewrite decide_True|].
  by rewrite decide_False, decide_True by done.
Qed.

Lemma addr_set_port_no_port a port :
  inet_addr a -> addr_eqv_no_port (addr_set_port a port) a.
Proof.
  intros H. unfold addr_eqv_no_port, addr_set_port. rewrite decide_True by done.
  rewrite addr_eq_no_port_spec. cbn. destruct H; intuition.
Qed.

Lemma addr_set_get_port a b :
  wf_addr b -> inet_addr b -> addr_eqv_no_port a b ->
  addr_eqv (addr_set_port a (addr_get_port (Some b))) b.
Proof.
  intros Hwf Hb. unfold addr_eqv, addr_eqv_no_port.
  rewrite addr_eq_no_port_spec, addr_eq_spec. intros (Hf & H).
  assert (inet_addr a) as Ha by (unfold inet_addr in *; by rewrite Hf).
  unfold addr_set_port. rewrite decide_True by done. cbn. split_and!; [done| |done].
  unfold addr_get_port. destruct Hwf as (_ & Hp & _).
  assert (nswap16 (nswap16 (sin_port b)) = sin_port b) as E by by apply nswap_involutive.
  destruct Hb as [-> | ->]; [by rewrite decide_True|].
  by rewrite decide_False, decide_True by done.
Qed.

(** ** The address map *)

(** The public halves and the private halves name distinct hosts. *)
Definition mapping_ok (m : mapping) : Prop :=
  Forall (fun p => inet_addr p.1 /\ inet_addr p.2) m /\
  (forall i j p q, m !! i = Some p -> m !! j = Some q ->
     (addr_eqv_no_port p.1 q.1 \/ addr_eqv_no_port p.2 q.2) -> i = j).

Lemma map_private_to_public_cases m a :
  (exists i p, m !! i = Some p /\ addr_eqv_no_port a p.2 /\
     map_addr_from_private_to_public m a = addr_set_port p.1 (addr_get_port (Some a))) \/
  (map_addr_from_private_to_public m a = a /\
   forall i p, m !! i = Some p -> ~ addr_eqv_no_port a p.2).
Proof.
  induction m as [|[pub priv] m IH]; cbn [map_addr_from_private_to_public].
  { right. split; [done|]. intros i p. by rewrite lookup_nil. }
  destruct (addr_eq_no_port (Some a) (Some priv)) eqn:E.
  - left. by exists O, (pub, priv).
  - destruct IH as [(i & p & Hi & He & Hm) | [Hm Hn]].
    + left. by exists (S i), p.
    + right. split; [done|]. intros [|i] p Hp; [|by eapply Hn].
      injection Hp as <-. unfold addr_eqv_no_port. cbn [snd]. congruence.
Qed.

Lemma map_public_to_private_hit m a i p :
  mapping_ok m -> m !! i = Some p -> addr_eqv_no_port a p.1 ->
  map_addr_from_public_to_private m a = addr_set_port p.2 (addr_get_port (Some a)).
Proof.
  intros [_ Hok] Hi Ha. revert i Hok Hi.
  induction m as [|[pub priv] m IH]; intros i Hok Hi; [by rewrite lookup_nil in Hi|].
  cbn [map_addr_from_public_to_private].
  destruct (addr_eq_no_port (Some a) (Some pub)) eqn:E.
  - assert (i = O) as ->; [|by injection Hi as <-].
    eapply Hok; [done|done|]. left. cbn. transitivity a; [by symmetry|done].
  - destruct i as [|i]; [injection Hi as <-; unfold addr_eqv_no_port in Ha; cbn [fst] in Ha; congruence|].
    apply (IH i); [|done]. intros i' j' q r Hq Hr Hqr.
    assert (S i' = S j') as [= ->]; [|done]. by eapply Hok.
Qed.

Lemma map_public_to_private_miss m a :
  (forall i p, m !! i = Some p -> ~ addr_eqv_no_port a p.1) ->
  map_addr_from_public_to_private m a = a.
Proof.
  induction m as [|[pub priv] m IH]; intros Hn; [done|]. cbn [map_addr_from_public_to_private].
  destruct (addr_eq_no_port (Some a) (Some pub)) eqn:E.
  - exfalso. by apply (Hn O (pub, priv)).
  - apply IH. intros i p Hi. by apply (Hn (S i)).
Qed.

Lemma map_addr_roundtrip_aux m a :
  mapping_ok m -> wf_addr a -> inet_addr a ->
  (forall i p, m !! i = Some p -> ~ addr_eqv_no_port a p.1) ->
  addr_eqv (map_addr_from_public_to_private m (map_addr_from_private_to_public m a)) a.
Proof.
  intros Hok Hwf Ha Hn.
  destruct (map_private_to_public_cases m a) as [(i & p & Hi & He & ->) | [-> _]].
  - destruct (proj1 (Forall_lookup _ _) (proj1 Hok) i p Hi) as [Hpub Hpriv].
    rewrite (map_public_to_private_hit m _ i p) by auto using addr_set_port_no_port.
    rewrite addr_get_set_port by done.
    rewrite Z.mod_small.
    + apply addr_set_get_port; [done..|]. by symmetry.
    + unfold addr_get_port. repeat case_decide; [apply (nswap_range 2)..|lia].
  - rewrite map_public_to_private_miss by done. by apply addr_eqv_refl.
Qed.

(** Translating a private address to its public one and back gives the
    original address and port, for every table whose entries name distinct hosts
    and every address that is not itself one of the public addresses. *)
Theorem map_addr_roundtrip m a :
  mapping_ok m -> wf_addr a -> inet_addr a ->
  (forall i p, m !! i = Some p -> ~ addr_eqv_no_port a p.1) ->
  addr_eqv (map_addr_from_public_to_private m (map_addr_from_private_to_public m a)) a.
Proof. apply map_addr_roundtrip_aux. Qed.

(** ** Ranges *)

(** The address as the number its network-order bytes denote. *)
Definition addr_num (a : ioa_addr) : Z :=
  if decide (sa_family a = AF_INET) then be_val (le_bytes 4 (s_addr a)) else be_val (sin6_addr a).

Lemma be_val_cons x l : be_val (x :: l) = x * 2 ^ (8 * zlen l) + be_val l.
Proof. change (x :: l) with ([x] ++ l). by rewrite be_val_app, be_val_single. Qed.

(** The bytewise test is sound for the numeric order. *)
Lemma bytes_less_eq_sound l1 l2 :
  length l1 = length l2 -> bytes_less_eq l1 l2 = true -> be_val l1 <= be_val l2.
Proof.
  revert l2; induction l1 as [|x l1 IH]; intros [|y l2]; cbn [length bytes_less_eq];
    [done..|]. intros Hl H. case_decide; [done|]. rewrite !be_val_cons.
  assert (length l1 = length l2) as Hl' by lia. rewrite Hl'.
  pose proof (IH l2 Hl' H). pose proof (Z.pow_pos_nonneg 2 (8 * zlen l2)). nia.
Qed.

Lemma nswap32_be v : nswap32 v = be_val (le_bytes 4 v).
Proof. reflexivity. Qed.

Lemma addr_less_eq_sound a b :
  wf_addr a -> wf_addr b -> sa_family a = sa_family b -> inet_addr a ->
  addr_less_eq (Some a) (Some b) = true -> addr_num a <= addr_num b.
Proof.
  intros (_&_&_&La&_) (_&_&_&Lb&_) Hf Ha. unfold addr_less_eq, addr_num.
  rewrite <- Hf. rewrite decide_False by tauto. destruct Ha as [-> | ->].
  - rewrite !decide_True by done. rewrite bool_decide_eq_true. done.
  - rewrite !decide_False, decide_True by done. intros. apply bytes_less_eq_sound; [lia|done].
Qed.

(** An address the range test accepts lies, as a number, between the two
    bounds of its range, when the bounds are set and of the address's family. *)
Theorem ioa_addr_in_range_sound r a :
  wf_addr a -> wf_addr (range_min r) -> wf_addr (range_max r) -> inet_addr a ->
  sa_family (range_min r) = sa_family a -> sa_family (range_max r) = sa_family a ->
  addr_any (Some (range_min r)) = false -> addr_any (Some (range_max r)) = false ->
  ioa_addr_in_range (Some r) (Some a) = true ->
  addr_num (range_min r) <= addr_num a <= addr_num (range_max r).
Proof.
  intros Ha Hmin Hmax Hi Fmin Fmax. unfold ioa_addr_in_range. intros -> ->. cbn [orb].
  destruct (addr_less_eq (Some (range_min r)) (Some a)) eqn:E; [|done]. intros Hle.
  split; apply addr_less_eq_sound; try done; unfold inet_addr in *; by rewrite ?Fmin.
Qed.

(** For IPv4 the test is also complete. *)
Lemma ioa_addr_in_range_complete4 r a :
  sa_family a = AF_INET -> sa_family (range_min r) = AF_INET -> sa_family (range_max r) = AF_INET ->
  addr_num (range_min r) <= addr_num a <= addr_num (range_max r) ->
  ioa_addr_in_range (Some r) (Some a) = true.
Proof.
  intros Ea Emin Emax. unfold ioa_addr_in_range, addr_less_eq, addr_num.
  rewrite Ea, Emin, Emax. rewrite !decide_True by done. rewrite !decide_False by tauto.
  rewrite <- !nswap32_be. intros [H1 H2].
  rewrite (bool_decide_eq_true_2 _ H1), orb_true_r, (bool_decide_eq_true_2 _ H2).
  by destruct (addr_any _).
Qed.

Definition v4 (a b c d port : Z) : ioa_addr :=
  mk_ioa_addr AF_INET (nswap16 port) (le_val [a; b; c; d]) (replicate 16 0) 0.
Definition v6 (l : list Z) (port : Z) : ioa_addr := mk_ioa_addr AF_INET6 (nswap16 port) 0 l 0.

(** For IPv6 the test is not complete: 2001:db8::1:0 lies between 2001:db8::ffff
    and 2001:db8::2:0 in address order, and [ioa_addr_in_range] rejects it, because
    [addr_less_eq] compares the two addresses byte by byte without stopping at the
    first byte that differs. *)
Theorem ioa_addr_in_range_v6_incomplete :
  let pre := [0x20; 1; 0xd; 0xb8; 0; 0; 0; 0; 0; 0; 0; 0] in
  let r := mk_range (v6 (pre ++ [0; 0; 0xff; 0xff]) 0) (v6 (pre ++ [0; 2; 0; 0]) 0) in
  let a := v6 (pre ++ [0; 1; 0; 0]) 0 in
  addr_num (range_min r) < addr_num a < addr_num (range_max r) /\
  ioa_addr_in_range (Some r) (Some a) = false /\
  addr_less_eq (Some (range_min r)) (Some a) = false /\
  addr_less_eq (Some a) (Some (range_min r)) = false.
Proof. vm_compute. done. Qed.

Lemma ioa_addr_in_range_sound_witness :
  addr_num (v4 10 0 0 0 0) <= addr_num (v4 10 1 2 3 99) <= addr_num (v4 10 255 255 255 0).
Proof.
  apply (ioa_addr_in_range_sound (mk_range (v4 10 0 0 0 0) (v4 10 255 255 255 0)) (v4 10 1 2 3 99));
    (by left) || (vm_compute; split_and?; try done; by repeat constructor).
Defined.

Lemma map_addr_roundtrip_witness :
  let m := ioa_addr_add_mapping
             (ioa_addr_add_mapping [] (v4 1 2 3 4 0) (v4 10 0 0 1 0)) (v4 1 2 3 5 0) (v4 10 0 0 2 0) in
  map_addr_from_private_to_public m (v4 10 0 0 2 3478) = v4 1 2 3 5 3478 /\
  addr_eqv (map_addr_from_public_to_private m (map_addr_from_private_to_public m (v4 10 0 0 2 3478)))
    (v4 10 0 0 2 3478).
Proof.
  intros m. split; [reflexivity|]. apply map_addr_roundtrip.
  - split; [repeat constructor|]. intros [|[|i]] [|[|j]] p q Hp Hq [H|H];
      try done; injection Hp as <-; injection Hq as <-; vm_compute in H; discriminate.
  - vm_compute; split_and?; try done; by repeat constructor.
  - by left.
  - intros [|[|i]] p Hp; [..|done]; injection Hp as <-; vm_compute; discriminate.
Defined.

(** Addresses that compare equal, with or without the port, have equal hashes
    under the matching hash function, so every bucket search that hashes first and
    compares next finds every equal key. *)
Theorem addr_hash_respects_eq a b :
  (addr_eq (Some a) (Some b) = true -> addr_hash (Some a) = addr_hash (Some b)) /\
  (addr_eq_no_port (Some a) (Some b) = true ->
     addr_hash_no_port (Some a) = addr_hash_no_port (Some b)).
Proof. split; intros H; [by apply addr_hash_proper|by apply addr_hash_no_port_proper]. Qed.

Lemma addr_hash_respects_eq_witness :
  addr_hash (Some (mk_ioa_addr AF_INET 53 7 [] 1)) = addr_hash (Some (mk_ioa_addr AF_INET 53 7 [9] 2)).
Proof.
  apply (addr_hash_respects_eq (mk_ioa_addr AF_INET 53 7 [] 1) (mk_ioa_addr AF_INET 53 7 [9] 2)).
  reflexivity.
Defined.
