(* ===== verification/MsgAddr.v ===== *)
(** * Address attributes on the wire: [client/ns_turn_msg_addr.c] *)

From S2P Require Import Prelude IoAddr.

(** A pointer into a byte array is the array and an offset; a possibly-null one
    is an [option].  The result is the returned [int], the array [cfield] points
    to after the call and the value of [*clen] ([None] where it is not set). *)
Definition stun_addr_encode (ca : option ioa_addr) (cfield : option (list Z)) (xor_ed : bool)
    (mc : Z) (tsx_id : option (list Z)) : option (Z * list Z * option Z) :=
  match cfield, ca, tsx_id with
  | Some cfield, Some ca, Some tsx_id =>
    if decide (sa_family ca = AF_INET \/ sa_family ca = 0) then
      c1 ← st8 cfield 0 0;
      c2 ← st8 c1 1 1;
      if xor_ed then
        c3 ← st16 c2 2 (Z.lxor (sin_port ca) (nswap16 (Z.shiftr mc 16)));
        c4 ← st32 c3 4 (Z.lxor (s_addr ca) (nswap32 mc));
        Some (0, c4, Some 8)
      else
        c3 ← st16 c2 2 (sin_port ca);
        c4 ← st32 c3 4 (s_addr ca);
        Some (0, c4, Some 8)
    else if decide (sa_family ca = AF_INET6) then
      c1 ← st8 cfield 0 0;
      c2 ← st8 c1 1 2;
      if xor_ed then
        c3 ← st16 c2 2 (Z.lxor (sin_port ca) (nswap16 (Z.shiftr mc 16)));
        tid ← slice tsx_id 0 12;
        src0 ← slice (sin6_addr ca) 0 4;
        src1 ← slice (sin6_addr ca) 4 12;
        c4 ← splice c3 4 (xor_bytes src0 (le_bytes 4 (nswap32 mc)));
        c5 ← splice c4 8 (xor_bytes src1 tid);
        Some (0, c5, Some 20)
      else
        c3 ← st16 c2 2 (sin_port ca);
        src ← slice (sin6_addr ca) 0 16;
        c4 ← splice c3 4 src;
        Some (0, c4, Some 20)
    else Some (-1, cfield, None)
  | _, _, _ => Some (-1, default [] cfield, None)
  end.

(** The result is the returned [int] and the address [ca] points to after the
    call: the family is stored before the length is checked. *)
Definition stun_addr_decode (ca : ioa_addr) (cfield : list Z) (off len : Z) (xor_ed : bool)
    (mc : Z) (tsx_id : list Z) : option (Z * ioa_addr) :=
  if decide (len = 0 \/ len < 8) then Some (-1, ca) else
  b0 ← ld8 cfield off;
  if decide (b0 <> 0) then Some (-1, ca) else
  b1 ← ld8 cfield (off + 1);
  if decide (b1 = 1) then
    let ca := mk_ioa_addr AF_INET (sin_port ca) (s_addr ca) (sin6_addr ca) (sin6_scope_id ca) in
    if decide (len <> 8) then Some (-1, ca) else
    port ← ld16 cfield (off + 2);
    addr ← ld32 cfield (off + 4);
    let '(port, addr) :=
      if xor_ed then (Z.lxor port (nswap16 (Z.shiftr mc 16)), Z.lxor addr (nswap32 mc))
      else (port, addr) in
    Some (0, mk_ioa_addr AF_INET port addr (sin6_addr ca) (sin6_scope_id ca))
  else if decide (b1 = 2) then
    let ca := mk_ioa_addr AF_INET6 (sin_port ca) (s_addr ca) (sin6_addr ca) (sin6_scope_id ca) in
    if decide (len <> 20) then Some (-1, ca) else
    port ← ld16 cfield (off + 2);
    addr ← slice cfield (off + 4) 16;
    if xor_ed then
      tid ← slice tsx_id 0 12;
      src0 ← slice cfield (off + 4) 4;
      src1 ← slice cfield (off + 8) 12;
      Some (0, mk_ioa_addr AF_INET6 (Z.lxor port (nswap16 (Z.shiftr mc 16))) (s_addr ca)
                 (xor_bytes src0 (le_bytes 4 (nswap32 mc)) ++ xor_bytes src1 tid) (sin6_scope_id ca))
    else Some (0, mk_ioa_addr AF_INET6 port (s_addr ca) addr (sin6_scope_id ca))
  else Some (-1, ca).

(** ** The wire form of an address *)

(** The exclusive-or masks of the port and of the 16 address bytes. *)
Definition port_mask (xor_ed : bool) (mc : Z) : Z :=
  if xor_ed then nswap16 (Z.shiftr mc 16) else 0.
Definition addr_mask4 (xor_ed : bool) (mc : Z) : Z := if xor_ed then nswap32 mc else 0.
Definition addr_mask6 (xor_ed : bool) (mc : Z) (tid : list Z) : list Z :=
  if xor_ed then le_bytes 4 (nswap32 mc) ++ take 12 tid else replicate 16 0.

Definition wire_addr (a : ioa_addr) (xor_ed : bool) (mc : Z) (tid : list Z) : list Z :=
  if decide (sa_family a = AF_INET6) then
    [0; 2] ++ le_bytes 2 (Z.lxor (sin_port a) (port_mask xor_ed mc))
    ++ xor_bytes (sin6_addr a) (addr_mask6 xor_ed mc tid)
  else
    [0; 1] ++ le_bytes 2 (Z.lxor (sin_port a) (port_mask xor_ed mc))
    ++ le_bytes 4 (Z.lxor (s_addr a) (addr_mask4 xor_ed mc)).

Lemma length_wire_addr a xor_ed mc tid :
  wf_addr a -> (12 <= length tid)%nat ->
  length (wire_addr a xor_ed mc tid) = if decide (sa_family a = AF_INET6) then 20%nat else 8%nat.
Proof.
  intros (_&_&_&Hl&_) Ht. unfold wire_addr, addr_mask6.
  destruct xor_ed; case_decide; autorewrite with lens; rewrite ?Hl; lia.
Qed.

(** The empty address is written as one of IPv4. *)
Definition encodable (a : ioa_addr) : Prop := sa_family a = 0 \/ inet_addr a.

Lemma stun_addr_encode_wire a cf xor_ed mc tid :
  wf_addr a -> encodable a -> (20 <= length cf)%nat -> (12 <= length tid)%nat ->
  let w := wire_addr a xor_ed mc tid in
  stun_addr_encode (Some a) (Some cf) xor_ed mc (Some tid)
    = Some (0, w ++ drop (length w) cf, Some (zlen w)).
Proof.
  intros (_&_&_&Hl&_) Ha Hcf Ht. unfold stun_addr_encode, wire_addr.
  change cf with ([] ++ cf). unfold st.
  assert (sa_family a = AF_INET \/ sa_family a = 0 \/ sa_family a = AF_INET6) as [E|[E|E]] by (destruct Ha as [?|[?|?]]; auto); rewrite E.
  1,2: rewrite decide_True by auto; (rewrite (decide_False (P := AF_INET = AF_INET6)) by done) || rewrite (decide_False (P := 0 = AF_INET6)) by done;
    destruct xor_ed; cbn [mbind option_bind port_mask addr_mask4];
    repeat (rewrite splice_next by (autorewrite with lens; rewrite ?Hl; lia); cbn [mbind option_bind]);
    rewrite !drop_drop, ?Z.lxor_0_r; autorewrite with lens; reflexivity.
  rewrite decide_False by (by intros [?|?]). rewrite !decide_True by done.
  destruct xor_ed; cbn [mbind option_bind port_mask addr_mask6].
  all: repeat (rewrite splice_next by (autorewrite with lens; rewrite ?Hl; lia);
                 cbn [mbind option_bind]).
  + rewrite !slice_val by len_lia. mred.
      rewrite xor_bytes_app_r, length_le_bytes.
      rewrite (take_ge (drop _ (sin6_addr a))) by (autorewrite with lens; rewrite Hl; simpl; lia).
      repeat (rewrite splice_next by (autorewrite with lens; rewrite ?Hl; lia);
              cbn [mbind option_bind]).
      rewrite !drop_drop. autorewrite with lens. rewrite Hl.
      replace (16 - 4)%nat with 12%nat by lia. rewrite !Nat.min_l by lia.
      by rewrite <- !(assoc_L (++)).
  + rewrite slice_val by lia. mred.
      rewrite take_ge by (rewrite length_drop; lia). rewrite xor_bytes_0_r, Z.lxor_0_r by lia.
      rewrite splice_next by (autorewrite with lens; rewrite ?Hl; lia). mred.
      rewrite !drop_drop. autorewrite with lens. rewrite Hl. by rewrite <- !(assoc_L (++)).
Qed.

(** The address decoding stores: only the members of the decoded family and the
    port are written. *)
Definition decoded_addr (a ca : ioa_addr) : ioa_addr :=
  if decide (sa_family a = AF_INET6)
  then mk_ioa_addr AF_INET6 (sin_port a) (s_addr ca) (sin6_addr a) (sin6_scope_id ca)
  else mk_ioa_addr AF_INET (sin_port a) (s_addr a) (sin6_addr ca) (sin6_scope_id ca).

Lemma decoded_addr_eqv a ca : inet_addr a -> addr_eqv (decoded_addr a ca) a.
Proof.
  intros Ha. unfold addr_eqv, decoded_addr. rewrite addr_eq_spec.
  case_decide as H; [|destruct Ha as [Ha|Ha]; [|done]]; cbn; auto 6.
Qed.

Lemma port_mask_range xor_ed mc : 0 <= port_mask xor_ed mc < 2 ^ 16.
Proof. destruct xor_ed; [apply (nswap_range 2)|done]. Qed.

Lemma addr_mask4_range xor_ed mc : 0 <= addr_mask4 xor_ed mc < 2 ^ 32.
Proof. destruct xor_ed; [apply (nswap_range 4)|done]. Qed.

Lemma le_val_le_bytes_small n v : 0 <= v < 2 ^ (8 * Z.of_nat n) -> le_val (le_bytes n v) = v.
Proof. intros. rewrite le_val_le_bytes. by apply Z.mod_small. Qed.

Lemma stun_addr_decode_wire a ca b off xor_ed mc tid :
  wf_addr a -> inet_addr a -> (12 <= length tid)%nat ->
  slice b off (zlen (wire_addr a xor_ed mc tid)) = Some (wire_addr a xor_ed mc tid) ->
  stun_addr_decode ca b off (zlen (wire_addr a xor_ed mc tid)) xor_ed mc tid
    = Some (0, decoded_addr a ca).
Proof.
  intros Hwf Ha Ht. pose proof (length_wire_addr a xor_ed mc tid Hwf Ht) as Hlen.
  destruct Hwf as (_&Hp&Hs&Hl&Hb&_). revert Hlen. unfold wire_addr, stun_addr_decode, decoded_addr.
  pose proof (port_mask_range xor_ed mc). pose proof (addr_mask4_range xor_ed mc).
  assert (le_val (le_bytes 2 (Z.lxor (sin_port a) (port_mask xor_ed mc)))
          = Z.lxor (sin_port a) (port_mask xor_ed mc)) as Ep
    by (apply le_val_le_bytes_small, (lxor_range 16); done).
  assert (le_val (le_bytes 4 (Z.lxor (s_addr a) (addr_mask4 xor_ed mc)))
          = Z.lxor (s_addr a) (addr_mask4 xor_ed mc)) as Es
    by (apply le_val_le_bytes_small, (lxor_range 32); done).
  case_decide as H6; intros Hlen; rewrite Hlen; intros Hsl; rewrite decide_False by lia.
  - set (m := Z.lxor (sin_port a) _) in *. set (x := xor_bytes _ _) in *.
    assert (ld8 b off = Some 0) as ->.
    { rewrite <- (Z.add_0_r off), (ld_sub _ _ _ _ _ _ Hsl) by lia. by apply (ld_app 1 [] [0]). }
    assert (ld8 b (off + 1) = Some 2) as ->.
    { rewrite (ld_sub _ _ _ _ _ _ Hsl) by lia. by apply (ld_app 1 [0] [2]). }
    assert (ld16 b (off + 2) = Some m) as ->.
    { rewrite (ld_sub _ _ _ _ _ _ Hsl) by lia.
      etrans; [by apply (ld_app 2 [0; 2] (le_bytes 2 m))|by rewrite Ep]. }
    assert (slice b (off + 4) 16 = Some x) as Hx.
    { rewrite (slice_sub _ _ _ _ _ _ Hsl) by lia. apply (slice_app_end ([0; 2] ++ le_bytes 2 m) x);
        [done|]. revert Hlen. autorewrite with lens. lia. }
    assert (length x = 16%nat) as Hxl by (apply slice_length in Hx; lia).
    assert (slice b (off + 4) 4 = Some (take 4 x)) as Hx0.
    { rewrite <- (Z.add_0_r (off + 4)), (slice_sub _ _ _ _ _ _ Hx) by lia. by rewrite slice_val by lia. }
    assert (slice b (off + 8) 12 = Some (drop 4 x)) as Hx1.
    { replace (off + 8) with (off + 4 + 4) by lia. rewrite (slice_sub _ _ _ _ _ _ Hx) by lia.
      rewrite slice_val by lia. f_equal. apply take_ge. rewrite length_drop. lia. }
    rewrite Hx, Hx0, Hx1, (slice_val tid) by lia. cbn. destruct xor_ed.
    + unfold m. cbn [port_mask]. rewrite lxor_cancel_r. do 3 f_equal.
      rewrite <- xor_bytes_cancel with (b := addr_mask6 true mc tid);
        [|unfold addr_mask6; autorewrite with lens; lia].
      fold x. cbn [addr_mask6]. by rewrite xor_bytes_app_r, length_le_bytes.
    + unfold m, x. cbn [port_mask addr_mask6]. by rewrite Z.lxor_0_r, xor_bytes_0_r by lia.
  - set (m := Z.lxor (sin_port a) _) in *. set (n := Z.lxor (s_addr a) _) in *.
    assert (ld8 b off = Some 0) as ->.
    { rewrite <- (Z.add_0_r off), (ld_sub _ _ _ _ _ _ Hsl) by lia. by apply (ld_app 1 [] [0]). }
    assert (ld8 b (off + 1) = Some 1) as ->.
    { rewrite (ld_sub _ _ _ _ _ _ Hsl) by lia. by apply (ld_app 1 [0] [1]). }
    assert (ld16 b (off + 2) = Some m) as ->.
    { rewrite (ld_sub _ _ _ _ _ _ Hsl) by lia.
      etrans; [by apply (ld_app 2 [0; 1] (le_bytes 2 m))|by rewrite Ep]. }
    assert (ld32 b (off + 4) = Some n) as ->.
    { rewrite (ld_sub _ _ _ _ _ _ Hsl) by lia.
      etrans; [by apply (ld_app 4 ([0; 1] ++ le_bytes 2 m) (le_bytes 4 n) [])|by rewrite Es]. }
    cbn. unfold m, n. destruct xor_ed; cbn [port_mask addr_mask4].
    + by rewrite !lxor_cancel_r.
    + by rewrite !Z.lxor_0_r.
Qed.

(** C29 Decoding the bytes that encoding wrote, with the same mode, magic cookie and
    transaction id, succeeds and gives an equal address, whatever the decoded
    address held before. *)
Theorem stun_addr_roundtrip a ca cf xor_ed mc tid :
  wf_addr a -> inet_addr a -> (20 <= length cf)%nat -> (12 <= length tid)%nat ->
  exists cf' clen ca',
    stun_addr_encode (Some a) (Some cf) xor_ed mc (Some tid) = Some (0, cf', Some clen) /\
    stun_addr_decode ca cf' 0 clen xor_ed mc tid = Some (0, ca') /\ addr_eqv ca' a.
Proof.
  intros Hwf Ha Hcf Ht. eexists _, _, _. split; [by apply stun_addr_encode_wire; [|right|..]|].
  split; [|by apply (decoded_addr_eqv a ca)].
  apply stun_addr_decode_wire; [done..|]. by apply (slice_app []).
Qed.

Lemma stun_addr_roundtrip_witness :
  let tid := [1; 2; 3; 4; 5; 6; 7; 8; 9; 10; 11; 12] in
  let a := v6 [0x20; 1; 0xd; 0xb8; 0; 0; 0; 0; 0; 0; 0; 0; 0; 0; 0; 0x42] 3478 in
  exists cf' clen ca',
    stun_addr_encode (Some a) (Some (replicate 64 0)) true 0x2112A442 (Some tid)
      = Some (0, cf', Some clen) /\
    stun_addr_decode addr_set_any cf' 0 clen true 0x2112A442 tid = Some (0, ca') /\ addr_eqv ca' a.
Proof.
  intros tid a. apply stun_addr_roundtrip; [|by right|vm_compute; lia..].
  vm_compute; split_and?; try done; by repeat constructor.
Defined.
