(* ===== verification/CString.v ===== *)
(** * The C string functions the sources call

    A C string is the part of an array before its first zero byte.  Each function
    is [None] when it would read past the end of the array it is given. *)

From Stdlib Require Export Ascii String.
From S2P Require Export Prelude.

(** The bytes of a string literal, without and with its terminator. *)
Fixpoint str_bytes (s : string) : list Z :=
  match s with
  | EmptyString => []
  | String c s => Z.of_N (N_of_ascii c) :: str_bytes s
  end.
Definition cstr (s : string) : list Z := str_bytes s ++ [0].

(** The content of the string at the start of the array. *)
Fixpoint cstring (s : list Z) : option (list Z) :=
  match s with
  | [] => None
  | c :: s => if decide (c = 0) then Some [] else cons c <$> cstring s
  end.

Definition strlen (s : list Z) : option Z := (fun l => zlen l) <$> cstring s.

(** The [n] bytes [strncpy] writes. *)
Fixpoint strncpy (n : nat) (s : list Z) : option (list Z) :=
  match n with
  | O => Some []
  | S n' =>
    match s with
    | [] => None
    | c :: s => if decide (c = 0) then Some (replicate n 0) else cons c <$> strncpy n' s
    end
  end.

(** [0 == strcmp(a, b)] *)
Fixpoint strcmp_eq (a b : list Z) : option bool :=
  match a, b with
  | x :: a, y :: b =>
    if decide (x = y) then if decide (x = 0) then Some true else strcmp_eq a b else Some false
  | _, _ => None
  end.

(** [strstr(s, needle) == s]: both arguments must be strings. *)
Definition strstr_at_start (s : list Z) (needle : string) : option bool :=
  c ← cstring s;
  Some (bool_decide (take (length (str_bytes needle)) c = str_bytes needle)).

Definition tolower (c : Z) : Z := if decide (65 <= c <= 90) then c + 32 else c.
Definition isspace (c : Z) : bool := bool_decide (c = 32 \/ 9 <= c <= 13).
Definition isdigit (c : Z) : bool := bool_decide (48 <= c <= 57).

(** [strtoul(s, NULL, 10)]: white space, an optional sign, decimal digits; the
    value saturates at [ULONG_MAX] and a minus sign negates it modulo 2^64. *)
Fixpoint skip_space (s : list Z) : option (list Z) :=
  match s with
  | [] => None
  | c :: s' => if isspace c then skip_space s' else Some s
  end.

Fixpoint digits10 (acc : Z) (s : list Z) : option Z :=
  match s with
  | [] => None
  | c :: s => if isdigit c then digits10 (acc * 10 + (c - 48)) s else Some acc
  end.

Definition ULONG_MAX : Z := 2 ^ 64 - 1.

Definition strtoul10 (s : list Z) : option Z :=
  s ← skip_space s;
  match s with
  | [] => None
  | c :: s' =>
    if decide (c = 45) then
      v ← digits10 0 s'; Some (if decide (v > ULONG_MAX) then ULONG_MAX else u64 (- v))
    else
      v ← digits10 0 (if decide (c = 43) then s' else s);
      Some (if decide (v > ULONG_MAX) then ULONG_MAX else v)
  end.

(** [strtoul(s, NULL, 16)]: the same, with an optional 0x before the digits. *)
Definition hex_value (c : Z) : option Z :=
  if decide (48 <= c <= 57) then Some (c - 48)
  else if decide (97 <= c <= 102) then Some (c - 97 + 10)
  else if decide (65 <= c <= 70) then Some (c - 65 + 10) else None.

Fixpoint digits16 (acc : Z) (s : list Z) : option Z :=
  match s with
  | [] => None
  | c :: s => match hex_value c with Some d => digits16 (acc * 16 + d) s | None => Some acc end
  end.

Definition skip_0x (s : list Z) : list Z :=
  match s with
  | 48 :: x :: d :: s' =>
    if decide ((x = 120 \/ x = 88) /\ is_Some (hex_value d)) then d :: s' else s
  | _ => s
  end.

Definition strtoul16 (s : list Z) : option Z :=
  s ← skip_space s;
  match s with
  | [] => None
  | c :: s' =>
    let neg := bool_decide (c = 45) in
    v ← digits16 0 (skip_0x (if decide (c = 45 \/ c = 43) then s' else s));
    Some (if decide (v > ULONG_MAX) then ULONG_MAX else if neg then u64 (- v) else v)
  end.

(** ** Laws *)

Lemma cstring_app l s : Forall (fun c => c <> 0) l -> cstring (l ++ 0 :: s) = Some l.
Proof. induction 1 as [|c l Hc _ IH]; simpl; [done|]. by rewrite decide_False, IH. Qed.

Lemma strlen_app l s : Forall (fun c => c <> 0) l -> strlen (l ++ 0 :: s) = Some (zlen l).
Proof. intros. unfold strlen. by rewrite cstring_app. Qed.

Lemma cstring_Some s l :
  cstring s = Some l -> exists s', s = l ++ 0 :: s' /\ Forall (fun c => c <> 0) l.
Proof.
  revert l; induction s as [|c s IH]; intros l; simpl; [done|].
  case_decide as Hc; [intros [= <-]; subst; by exists s|].
  destruct (cstring s) as [l'|]; [|done]. intros [= <-].
  destruct (IH l' eq_refl) as (s' & -> & ?). exists s'. split; [done|by constructor].
Qed.

Lemma strncpy_app n l s :
  Forall (fun c => c <> 0) l ->
  strncpy n (l ++ 0 :: s) = Some (take n (l ++ replicate (n - length l) 0)).
Proof.
  intros Hl; revert n; induction Hl as [|c l Hc _ IH]; intros [|n]; simpl; try done.
  - f_equal. by rewrite take_ge by (rewrite length_replicate; lia).
  - rewrite decide_False by done. by rewrite IH.
Qed.

Lemma strcmp_eq_spec a b la lb :
  cstring a = Some la -> cstring b = Some lb -> strcmp_eq a b = Some (bool_decide (la = lb)).
Proof.
  revert b la lb; induction a as [|x a IH]; intros [|y b] la lb; simpl; try done.
  destruct (cstring a) as [ca|] eqn:Ea, (cstring b) as [cb|] eqn:Eb; simpl;
    repeat case_decide; subst; intros Ha Hb; simplify_eq; try done.
  all: try (rewrite (IH _ _ _ eq_refl Eb); f_equal; apply bool_decide_ext; naive_solver).
  all: by rewrite ?bool_decide_true, ?bool_decide_false by congruence.
Qed.

Lemma str_bytes_bytes s : is_bytes (str_bytes s).
Proof.
  induction s as [|c s IH]; simpl; constructor; [|done].
  unfold is_byte. pose proof (N_ascii_bounded c). lia.
Qed.
#[export] Hint Resolve str_bytes_bytes : bytes.
