(* ===== verification/StunHeader.v ===== *)
(** * STUN message headers, channel frames and stream framing:
    first half of [client/ns_turn_msg.c]

    Message types and methods, the header tests, the initialisers, channel
    messages, and [stun_get_message_len_str], which cuts a byte stream into STUN
    messages, HTTP requests and channel frames.  A buffer argument is an array that
    exists, so the null tests on [buf] are not modelled. *)

From S2P Require Import Prelude CString.

Definition STUN_HEADER_LENGTH : Z := 20.
Definition STUN_MAGIC_COOKIE : Z := 0x2112A442.
Definition MAX_STUN_MESSAGE_SIZE : Z := 65507.

Definition STUN_METHOD_BINDING : Z := 1.
Definition STUN_METHOD_ALLOCATE : Z := 3.
Definition STUN_METHOD_REFRESH : Z := 4.
Definition STUN_METHOD_SEND : Z := 6.
Definition STUN_METHOD_DATA : Z := 7.
Definition STUN_METHOD_CREATE_PERMISSION : Z := 8.
Definition STUN_METHOD_CHANNEL_BIND : Z := 9.
Definition STUN_METHOD_CONNECT : Z := 10.
Definition STUN_METHOD_CONNECTION_BIND : Z := 11.
Definition STUN_METHOD_CONNECTION_ATTEMPT : Z := 12.

Definition STUN_VALID_CHANNEL (chn : Z) : bool := bool_decide (0x4000 <= chn <= 0x7FFF).

(** ** Message types *)

Definition IS_STUN_REQUEST (t : Z) : bool := Z.land t 0x0110 =? 0x0000.
Definition IS_STUN_INDICATION (t : Z) : bool := Z.land t 0x0110 =? 0x0010.
Definition IS_STUN_SUCCESS_RESP (t : Z) : bool := Z.land t 0x0110 =? 0x0100.
Definition IS_STUN_ERR_RESP (t : Z) : bool := Z.land t 0x0110 =? 0x0110.

Definition GET_STUN_REQUEST (t : Z) : Z := Z.land t 0xFEEF.
Definition GET_STUN_INDICATION (t : Z) : Z := Z.lor (Z.land t 0xFEEF) 0x0010.
Definition GET_STUN_SUCCESS_RESP (t : Z) : Z := Z.lor (Z.land t 0xFEEF) 0x0100.
Definition GET_STUN_ERR_RESP (t : Z) : Z := Z.lor t 0x0110.

Definition stun_make_type (method : Z) : Z :=
  let method := Z.land method 0x0FFF in
  u16 (Z.lor (Z.lor (Z.lor (Z.land method 0x000F) (Z.shiftl (Z.land method 0x0070) 1))
                (Z.shiftl (Z.land method 0x0380) 2)) (Z.shiftl (Z.land method 0x0C00) 2)).

Definition stun_make_request (method : Z) : Z := GET_STUN_REQUEST (stun_make_type method).
Definition stun_make_indication (method : Z) : Z := GET_STUN_INDICATION (stun_make_type method).
Definition stun_make_success_response (method : Z) : Z := GET_STUN_SUCCESS_RESP (stun_make_type method).
Definition stun_make_error_response (method : Z) : Z := GET_STUN_ERR_RESP (stun_make_type method).

(** The method bits of a type. *)
Definition type_method (tt : Z) : Z :=
  Z.lor (Z.lor (Z.lor (Z.land tt 0x000F) (Z.shiftr (Z.land tt 0x00E0) 1))
           (Z.shiftr (Z.land tt 0x0E00) 2)) (Z.shiftr (Z.land tt 0x3000) 2).

Definition stun_get_method_str (buf : list Z) (len : Z) : option Z :=
  if decide (len < 2) then Some (u16 (-1)) else
  tt ← ld16 buf 0;
  Some (type_method (nswap16 tt)).

Definition stun_get_msg_type_str (buf : list Z) (len : Z) : option Z :=
  if decide (len < 2) then Some (u16 (-1)) else
  tt ← ld16 buf 0;
  Some (Z.land (nswap16 tt) 0x3FFF).

Definition stun_method_str (method : Z) : Z * string :=
  if decide (method = STUN_METHOD_BINDING) then (0, "BINDING"%string)
  else if decide (method = STUN_METHOD_ALLOCATE) then (0, "ALLOCATE"%string)
  else if decide (method = STUN_METHOD_REFRESH) then (0, "REFRESH"%string)
  else if decide (method = STUN_METHOD_SEND) then (0, "SEND"%string)
  else if decide (method = STUN_METHOD_DATA) then (0, "DATA"%string)
  else if decide (method = STUN_METHOD_CREATE_PERMISSION) then (0, "CREATE_PERMISSION"%string)
  else if decide (method = STUN_METHOD_CHANNEL_BIND) then (0, "CHANNEL_BIND"%string)
  else if decide (method = STUN_METHOD_CONNECT) then (0, "CONNECT"%string)
  else if decide (method = STUN_METHOD_CONNECTION_BIND) then (0, "CONNECTION_BIND"%string)
  else if decide (method = STUN_METHOD_CONNECTION_ATTEMPT) then (0, "CONNECTION_ATTEMPT"%string)
  else (-1, "UNKNOWN"%string).

(** ** The length field *)

Definition stun_get_command_message_len_str (buf : list Z) (len : Z) : option Z :=
  if decide (len < STUN_HEADER_LENGTH) then Some (-1) else
  v ← ld16 buf 2;
  let bufLen := nswap16 v + STUN_HEADER_LENGTH in
  if decide (bufLen > len) then Some (-1) else Some bufLen.

Definition stun_set_command_message_len_str (buf : list Z) (len : Z) : option (bool * list Z) :=
  if decide (len < STUN_HEADER_LENGTH) then Some (false, buf) else
  buf ← st16 buf 2 (nswap16 (u16 (len - STUN_HEADER_LENGTH)));
  Some (true, buf).

(** ** Tests on a received packet *)

Definition is_channel_msg_str (buf : list Z) (blen : Z) : option bool :=
  if decide (blen >= 4) then chn ← ld16 buf 0; Some (STUN_VALID_CHANNEL (nswap16 chn))
  else Some false.

(** The tests [stun_is_command_message_str] and [old_stun_is_command_message_str]
    share: the cookie, when the rest of the header is that of a whole message. *)
Definition command_message_cookie (buf : list Z) (blen : Z) (cookie_ok : Z -> bool)
    : option (option Z) :=
  if decide (blen >= STUN_HEADER_LENGTH) then
    t ← ld16 buf 0;
    if STUN_VALID_CHANNEL (nswap16 t) then Some None else
    b0 ← ld8 buf 0;
    if decide (Z.land b0 0xC0 = 0) then
      cookie ← ld32 buf 4;
      if cookie_ok (nswap32 cookie) then
        v ← ld16 buf 2;
        let len := nswap16 v in
        if decide (Z.land len 3 = 0) then
          if decide (len + STUN_HEADER_LENGTH = blen) then Some (Some (nswap32 cookie))
          else Some None
        else Some None
      else Some None
    else Some None
  else Some None.

Definition stun_is_command_message_str (buf : list Z) (blen : Z) : option bool :=
  r ← command_message_cookie buf blen (fun c => bool_decide (c = STUN_MAGIC_COOKIE));
  Some (bool_decide (is_Some r)).

(** The result carries the value stored in [*cookie] on success. *)
Definition old_stun_is_command_message_str (buf : list Z) (blen : Z) : option (option Z) :=
  command_message_cookie buf blen (fun c => negb (bool_decide (c = STUN_MAGIC_COOKIE))).

Definition msg_type_test (P : Z -> bool) (buf : list Z) (len : Z) : option bool :=
  c ← is_channel_msg_str buf len;
  if (c : bool) then Some false else
  t ← stun_get_msg_type_str buf len;
  Some (P t).

Definition stun_is_request_str : list Z -> Z -> option bool := msg_type_test IS_STUN_REQUEST.
Definition stun_is_success_response_str : list Z -> Z -> option bool :=
  msg_type_test IS_STUN_SUCCESS_RESP.
Definition stun_is_indication_str : list Z -> Z -> option bool := msg_type_test IS_STUN_INDICATION.
Definition stun_is_response_str : list Z -> Z -> option bool :=
  msg_type_test (fun t => if IS_STUN_SUCCESS_RESP t then true else IS_STUN_ERR_RESP t).

Definition stun_is_binding_request_str (buf : list Z) (len offset : Z) : option bool :=
  if decide (offset < len) then
    let buf := drop (Z.to_nat offset) buf in
    let len := len - offset in
    c ← stun_is_command_message_str buf len;
    if (c : bool) then
      r ← stun_is_request_str buf len;
      if (r : bool) then
        m ← stun_get_method_str buf len;
        Some (bool_decide (m = STUN_METHOD_BINDING))
      else Some false
    else Some false
  else Some false.

Definition stun_is_binding_response_str (buf : list Z) (len : Z) : option bool :=
  c ← stun_is_command_message_str buf len;
  if (c : bool) then
    m ← stun_get_method_str buf len;
    if decide (m = STUN_METHOD_BINDING) then stun_is_response_str buf len else Some false
  else Some false.

(** ** Initialisers *)

(** [stun_tid_generate_in_message_str] with a null [id]: [tid] is the random
    transaction id drawn. *)
Definition stun_tid_message_cpy (buf tid : list Z) : option (list Z) :=
  t ← slice tid 0 12; splice buf 8 t.

Definition stun_tid_from_message_str (buf : list Z) : option (list Z) := slice buf 8 12.

Definition stun_tid_equals (id1 id2 : list Z) : bool := bool_decide (id1 = id2).

Definition stun_init_buffer_str (buf : list Z) : option (list Z * Z) :=
  buf ← splice buf 0 (replicate 20 0); Some (buf, STUN_HEADER_LENGTH).

Definition old_stun_init_command_str (message_type : Z) (buf : list Z) (cookie : Z)
    (rnd : list Z) : option (list Z * Z) :=
  '(buf, len) ← stun_init_buffer_str buf;
  let message_type := Z.land message_type 0x3FFF in
  buf ← st16 buf 0 (nswap16 message_type);
  buf ← st16 buf 2 0;
  buf ← st32 buf 4 (nswap32 cookie);
  buf ← stun_tid_message_cpy buf rnd;
  Some (buf, len).

Definition stun_init_command_str (message_type : Z) (buf : list Z) (rnd : list Z)
    : option (list Z * Z) :=
  old_stun_init_command_str message_type buf STUN_MAGIC_COOKIE rnd.

Definition stun_init_request_str (method : Z) (buf rnd : list Z) : option (list Z * Z) :=
  stun_init_command_str (stun_make_request method) buf rnd.

Definition stun_init_indication_str (method : Z) (buf rnd : list Z) : option (list Z * Z) :=
  stun_init_command_str (stun_make_indication method) buf rnd.

(** The transaction id argument may be null. *)
Definition set_tid (buf : list Z) (id : option (list Z)) : option (list Z) :=
  match id with Some id => stun_tid_message_cpy buf id | None => Some buf end.

Definition stun_init_success_response_str (method : Z) (buf : list Z) (id : option (list Z))
    (rnd : list Z) : option (list Z * Z) :=
  '(buf, len) ← stun_init_command_str (stun_make_success_response method) buf rnd;
  buf ← set_tid buf id;
  Some (buf, len).

Definition old_stun_init_success_response_str (method : Z) (buf : list Z) (id : option (list Z))
    (cookie : Z) (rnd : list Z) : option (list Z * Z) :=
  '(buf, len) ← old_stun_init_command_str (stun_make_success_response method) buf cookie rnd;
  buf ← set_tid buf id;
  Some (buf, len).

(** ** Channel messages *)

(** The returned flag, the buffer and [*len]. *)
Definition stun_init_channel_message_str (chnumber : Z) (buf : list Z) (len length : Z)
    (do_padding : bool) : option (bool * list Z * Z) :=
  let rlen := u16 length in
  if decide (length < 0 \/ MAX_STUN_MESSAGE_SIZE < 4 + length) then Some (false, buf, len) else
  buf ← st16 buf 0 (nswap16 chnumber);
  buf ← st16 buf 2 (nswap16 (u16 length));
  let rlen := if do_padding && negb (Z.land rlen 3 =? 0)
              then u16 (Z.shiftl (Z.shiftr rlen 2 + 1) 2) else rlen in
  Some (true, buf, 4 + rlen).

(** The returned flag, [*blen] and the channel number stored on success. *)
Definition stun_is_channel_message_str (buf : list Z) (blen : Z) (mandatory_padding : bool)
    : option (bool * Z * option Z) :=
  if decide (blen < 4) then Some (false, blen, None) else
  c ← ld16 buf 0;
  let chn := nswap16 c in
  if negb (STUN_VALID_CHANNEL chn) then Some (false, blen, None) else
  let blen := if decide (blen > 65535) then 65535 else blen in
  let datalen_actual := u16 (blen - 4) in
  h ← ld16 buf 2;
  let datalen_header := nswap16 h in
  if decide (datalen_header > datalen_actual) then Some (false, blen, None) else
  let rejected :=
    if decide (datalen_header <> datalen_actual) then
      if negb (Z.land datalen_actual 3 =? 0) then
        if mandatory_padding then true
        else if decide (datalen_header = 0) then true
        else bool_decide (u16 (datalen_actual - datalen_header) > 3)
      else false
    else false in
  if (rejected : bool) then Some (false, blen, None)
  else Some (true, datalen_header + 4, Some chn).

(** ** HTTP requests on the same port *)

(** [full] starts at the compared position; the loop ends at the terminator of
    the needle or at the first difference. *)
Fixpoint sheadof (head full : list Z) (ignore_case : bool) : option bool :=
  match head with
  | [] => Some true
  | h :: head =>
    match full with
    | [] => None
    | f :: full =>
      if decide (h = f) then sheadof head full ignore_case
      else if ignore_case && bool_decide (tolower h = tolower f) then sheadof head full ignore_case
      else Some false
    end
  end.

(** The offset of the first of [n] positions at which the needle starts. *)
Fixpoint findstr_loop (n : nat) (i : Z) (hay needle : list Z) (ignore_case : bool)
    : option (option Z) :=
  match n with
  | O => Some None
  | S n =>
    b ← sheadof needle hay ignore_case;
    if (b : bool) then Some (Some i)
    else match hay with [] => None | _ :: hay => findstr_loop n (i + 1) hay needle ignore_case end
  end.

Definition findstr (hay : list Z) (slen : Z) (needle : string) (ignore_case : bool)
    : option (option Z) :=
  if decide (slen = 0) then Some None else
  let nlen := zlen (str_bytes needle) in
  if decide (nlen <= slen) then
    findstr_loop (Z.to_nat (slen - nlen + 1)) 0 hay (str_bytes needle) ignore_case
  else Some None.

Definition CRLFCRLF : string :=
  String (ascii_of_nat 13) (String (ascii_of_nat 10)
    (String (ascii_of_nat 13) (String (ascii_of_nat 10) EmptyString))).

Definition is_http (s : list Z) (blen : Z) : option Z :=
  if decide (blen >= 12) then
    m1 ← strstr_at_start s "GET ";
    m2 ← (if (m1 : bool) then Some true else strstr_at_start s "POST ");
    m3 ← (if (m2 : bool) then Some true else strstr_at_start s "DELETE ");
    m4 ← (if (m3 : bool) then Some true else strstr_at_start s "PUT ");
    if (m4 : bool) then
      r ← findstr (drop 4 s) (blen - 4) " HTTP/" false;
      match r with
      | None => Some 0
      | Some p =>
        let diff_blen := 4 + p + 6 in
        if decide (diff_blen + 4 <= blen) then
          r ← findstr (drop (Z.to_nat diff_blen) s) (blen - diff_blen) CRLFCRLF false;
          match r with
          | None => Some 0
          | Some q =>
            let sp := diff_blen + q in
            ret_len ← int_chk (sp + 4);
            cl ← findstr s sp "content-length: " true;
            match cl with
            | None => Some ret_len
            | Some cl =>
              clen ← strtoul10 (drop (Z.to_nat (cl + zlen (str_bytes "content-length: "))) s);
              if decide (clen > 0 /\ clen < 0x0FFFFFFF) then int_chk (ret_len + clen)
              else Some ret_len
            end
          end
        else Some 0
      end
    else Some 0
  else Some 0.

(** The first block of [stun_get_message_len_str]: the 16-bit length of a STUN
    message at the start of the stream. *)
Definition stun_framed_len (buf : list Z) (blen : Z) : option (option Z) :=
  if decide (blen >= STUN_HEADER_LENGTH) then
    t ← ld16 buf 0;
    if STUN_VALID_CHANNEL (nswap16 t) then Some None else
    b0 ← ld8 buf 0;
    if decide (Z.land b0 0xC0 = 0) then
      cookie ← ld32 buf 4;
      if decide (nswap32 cookie = STUN_MAGIC_COOKIE) then
        v ← ld16 buf 2;
        let len := nswap16 v in
        if decide (Z.land len 3 = 0) then
          let len := u16 (len + STUN_HEADER_LENGTH) in
          if decide (len <= blen) then Some (Some len) else Some None
        else Some None
      else Some None
    else Some None
  else Some None.

(** The returned [int] and the value stored in [*app_len], if any. *)
Definition stun_get_message_len_str (buf : list Z) (blen : Z) (padding : bool)
    : option (Z * option Z) :=
  if decide (blen = 0) then Some (-1, None) else
  stun ← stun_framed_len buf blen;
  match stun with
  | Some len => Some (len, Some len)
  | None =>
    http_len ← is_http buf blen;
    if decide (http_len > 0 /\ http_len <= blen) then Some (http_len, Some http_len) else
    if decide (blen >= 4) then
      c ← ld16 buf 0;
      if STUN_VALID_CHANNEL (nswap16 c) then
        v ← ld16 buf 2;
        let bret := u16 (4 + nswap16 v) in
        let app_len := bret in
        let bret := if padding && negb (Z.land bret 3 =? 0)
                    then u16 (Z.shiftl (Z.shiftr bret 2 + 1) 2) else bret in
        if decide (bret <= blen) then Some (bret, Some app_len) else Some (-1, Some app_len)
      else Some (-1, None)
    else Some (-1, None)
  end.

(** ** Types and methods *)

Definition type_ok (m : Z) : bool :=
  let chk t c := (type_method t =? m) && (Z.land t 0x0110 =? c) && (Z.land t 0x3FFF =? t) in
  chk (stun_make_request m) 0 && chk (stun_make_indication m) 0x10 &&
  chk (stun_make_success_response m) 0x100 && chk (stun_make_error_response m) 0x110.

Lemma type_ok_all m : 0 <= m < 4096 -> type_ok m = true.
Proof. apply checkZ_spec. vm_compute. done. Qed.

(** The four message classes and their type constructors. *)
Inductive stun_class := Request | Indication | Success | Error.

#[export] Instance stun_class_eq_dec : EqDecision stun_class.
Proof. solve_decision. Defined.

Definition class_bits (c : stun_class) : Z :=
  match c with Request => 0 | Indication => 0x10 | Success => 0x100 | Error => 0x110 end.

Definition make_class (c : stun_class) : Z -> Z :=
  match c with
  | Request => stun_make_request | Indication => stun_make_indication
  | Success => stun_make_success_response | Error => stun_make_error_response
  end.

Lemma make_class_spec c m :
  0 <= m < 4096 ->
  type_method (make_class c m) = m /\ Z.land (make_class c m) 0x0110 = class_bits c /\
  Z.land (make_class c m) 0x3FFF = make_class c m /\ 0 <= make_class c m < 2 ^ 14.
Proof.
  intros Hm. pose proof (type_ok_all m Hm) as H. unfold type_ok in H.
  rewrite !andb_true_iff, !Z.eqb_eq in H.
  assert (Z.land (make_class c m) 0x3FFF = make_class c m) as E by (destruct c; cbn; tauto).
  split_and!; try (destruct c; cbn in *; tauto).
  - rewrite <- E. apply Z.land_nonneg. lia.
  - rewrite <- E. change 0x3FFF with (Z.ones 14). rewrite Z.land_ones by lia.
    apply Z.mod_pos_bound. lia.
Qed.

(** ** The header as a list *)

Definition hdr (ty n cookie : Z) (tid : list Z) : list Z :=
  be_bytes 2 ty ++ be_bytes 2 n ++ be_bytes 4 cookie ++ tid.

Lemma length_hdr ty n c tid : length (hdr ty n c tid) = (8 + length tid)%nat.
Proof. unfold hdr. autorewrite with lens. lia. Qed.
#[export] Hint Rewrite length_hdr : lens.

Section header_fields.
  Context (ty n c : Z) (tid rest : list Z).

Lemma hdr_type : 0 <= ty < 2 ^ 16 ->
    ld16 (hdr ty n c tid ++ rest) 0 = Some (nswap16 ty) /\ nswap16 (nswap16 ty) = ty.
  Proof.
    intros H. split; [|by apply nswap_involutive]. apply ld_be. unfold hdr.
    rewrite <- !(assoc_L (++)). by apply (slice_app []).
  Qed.

Lemma hdr_len : 0 <= n < 2 ^ 16 ->
    ld16 (hdr ty n c tid ++ rest) 2 = Some (nswap16 n) /\ nswap16 (nswap16 n) = n.
  Proof.
    intros H. split; [|by apply nswap_involutive]. apply ld_be. unfold hdr.
    rewrite <- !(assoc_L (++)). by apply slice_app.
  Qed.

Lemma hdr_cookie : 0 <= c < 2 ^ 32 ->
    ld32 (hdr ty n c tid ++ rest) 4 = Some (nswap32 c) /\ nswap32 (nswap32 c) = c.
  Proof.
    intros H. split; [|by apply nswap_involutive]. apply ld_be. unfold hdr.
    rewrite <- !(assoc_L (++)). rewrite (assoc_L (++) (be_bytes 2 ty)). by apply slice_app.
  Qed.

Lemma hdr_tid : length tid = 12%nat -> slice (hdr ty n c tid ++ rest) 8 12 = Some tid.
  Proof.
    intros H. unfold hdr. rewrite !(assoc_L (++)). rewrite <- (assoc_L (++)).
    apply slice_app; len_lia.
  Qed.

  (** The first byte of a type below 2^14 has its two top bits clear. *)
Lemma hdr_byte0 : 0 <= ty < 2 ^ 14 ->
    ld8 (hdr ty n c tid ++ rest) 0 = Some (ty / 256) /\ Z.land (ty / 256) 0xC0 = 0.
  Proof.
    intros H. split.
    - replace (ty / 256) with (le_val [ty / 256 mod 256]).
      + by apply (ld_app 1 [] [ty / 256 mod 256]).
      + cbn. rewrite Z.add_0_r. apply Z.mod_small. zlia.
    - assert (0 <= ty / 256 < 64) as Hd by zlia.
      apply Z.eqb_eq. apply (checkZ_spec 64 (fun x => Z.land x 0xC0 =? 0)); [done|lia].
  Qed.
End header_fields.

Lemma valid_channel_false t : 0 <= t < 2 ^ 14 -> STUN_VALID_CHANNEL t = false.
Proof. intros. apply bool_decide_eq_false. lia. Qed.

Lemma set_tid_hdr ty n c tid0 rest tid :
  length tid0 = 12%nat -> length tid = 12%nat ->
  stun_tid_message_cpy (hdr ty n c tid0 ++ rest) tid = Some (hdr ty n c tid ++ rest).
Proof.
  intros H0 H. unfold stun_tid_message_cpy.
  rewrite slice_val by lia. mred. rewrite drop_0, take_ge by lia.
  unfold hdr. rewrite !(assoc_L (++)). rewrite <- (assoc_L (++) _ tid0), <- (assoc_L (++) _ tid).
  apply splice_app; len_lia.
Qed.

(** Storing into one field of a header. *)
Lemma hdr_set_type ty n c tid rest ty' :
  splice (hdr ty n c tid ++ rest) 0 (be_bytes 2 ty') = Some (hdr ty' n c tid ++ rest).
Proof.
  unfold hdr. rewrite <- !(assoc_L (++)). apply (splice_app []); len_lia.
Qed.

Lemma hdr_set_len ty n c tid rest n' :
  splice (hdr ty n c tid ++ rest) 2 (be_bytes 2 n') = Some (hdr ty n' c tid ++ rest).
Proof. unfold hdr. rewrite <- !(assoc_L (++)). apply splice_app; len_lia. Qed.

Lemma hdr_set_cookie ty n c tid rest c' :
  splice (hdr ty n c tid ++ rest) 4 (be_bytes 4 c') = Some (hdr ty n c' tid ++ rest).
Proof.
  unfold hdr. rewrite <- !(assoc_L (++)). rewrite !(assoc_L (++) (be_bytes 2 ty)).
  apply splice_app; len_lia.
Qed.

Lemma old_stun_init_command_hdr t buf cookie rnd :
  (20 <= length buf)%nat -> length rnd = 12%nat ->
  old_stun_init_command_str t buf cookie rnd
    = Some (hdr (Z.land t 0x3FFF) 0 cookie rnd ++ drop 20 buf, 20).
Proof.
  intros Hb Hr. unfold old_stun_init_command_str, stun_init_buffer_str.
  rewrite (splice_next [] buf) by (autorewrite with lens; lia). cbn [mbind option_bind app].
  rewrite length_replicate. generalize (drop 20 buf) as rest. intros rest. rewrite st_nswap.
  change (replicate 20 0) with (hdr 0 0 0 (replicate 12 0)).
  rewrite hdr_set_type. mred.
  change (st16 ?b 2 0) with (splice b 2 (be_bytes 2 0)). rewrite hdr_set_len. mred.
  rewrite st_nswap, hdr_set_cookie. mred.
  by rewrite set_tid_hdr by (rewrite ?length_replicate; lia).
Qed.

(** [stun_init_*_str] for the four classes: the header of an empty message. *)
Lemma stun_init_command_hdr c m buf rnd :
  (20 <= length buf)%nat -> length rnd = 12%nat -> 0 <= m < 4096 ->
  stun_init_command_str (make_class c m) buf rnd
    = Some (hdr (make_class c m) 0 STUN_MAGIC_COOKIE rnd ++ drop 20 buf, 20).
Proof.
  intros. unfold stun_init_command_str. rewrite old_stun_init_command_hdr by done.
  by destruct (make_class_spec c m) as (_&_&->&_).
Qed.

(** ** Reading a message that starts with a given header *)

Section received.
  Context (c : stun_class) (m n : Z) (tid rest : list Z) (blen : Z).
  Context (Hm : 0 <= m < 4096) (Hn : 0 <= n < 2 ^ 16) (Hblen : blen >= 20).

  Abbreviation msg := (hdr (make_class c m) n STUN_MAGIC_COOKIE tid ++ rest).

Lemma make_class_range : 0 <= make_class c m < 2 ^ 14.
  Proof. by destruct (make_class_spec c m) as (_&_&_&?). Qed.

Lemma hdr_get_method : stun_get_method_str msg blen = Some m.
  Proof.
    pose proof make_class_range. unfold stun_get_method_str. rewrite decide_False by lia.
    destruct (hdr_type (make_class c m) n STUN_MAGIC_COOKIE tid rest) as [-> E]; [lia|].
    mred. rewrite E. by destruct (make_class_spec c m) as (->&_).
  Qed.

Lemma hdr_is_channel : is_channel_msg_str msg blen = Some false.
  Proof.
    pose proof make_class_range. unfold is_channel_msg_str. rewrite decide_True by lia.
    destruct (hdr_type (make_class c m) n STUN_MAGIC_COOKIE tid rest) as [-> E]; [lia|].
    mred. by rewrite E, valid_channel_false by lia.
  Qed.

Lemma hdr_get_type : stun_get_msg_type_str msg blen = Some (make_class c m).
  Proof.
    pose proof make_class_range. unfold stun_get_msg_type_str. rewrite decide_False by lia.
    destruct (hdr_type (make_class c m) n STUN_MAGIC_COOKIE tid rest) as [-> E]; [lia|].
    mred. rewrite E. by destruct (make_class_spec c m) as (_&_&->&_).
  Qed.

Lemma hdr_type_test P : msg_type_test P msg blen = Some (P (make_class c m)).
  Proof. unfold msg_type_test. by rewrite hdr_is_channel; cbn [mbind option_bind]; rewrite hdr_get_type. Qed.

Lemma hdr_is_request :
    stun_is_request_str msg blen = Some (bool_decide (c = Request)) /\
    stun_is_indication_str msg blen = Some (bool_decide (c = Indication)) /\
    stun_is_success_response_str msg blen = Some (bool_decide (c = Success)) /\
    stun_is_response_str msg blen = Some (bool_decide (c = Success \/ c = Error)).
  Proof.
    unfold stun_is_request_str, stun_is_indication_str, stun_is_success_response_str,
      stun_is_response_str. rewrite !hdr_type_test.
    unfold IS_STUN_REQUEST, IS_STUN_INDICATION, IS_STUN_SUCCESS_RESP, IS_STUN_ERR_RESP.
    destruct (make_class_spec c m) as (_&->&_); [done|]. destruct c; done.
  Qed.

Lemma hdr_command_len : n + 20 <= blen -> stun_get_command_message_len_str msg blen = Some (n + 20).
  Proof.
    intros. unfold stun_get_command_message_len_str. rewrite decide_False by (unfold STUN_HEADER_LENGTH; lia).
    destruct (hdr_len (make_class c m) n STUN_MAGIC_COOKIE tid rest) as [-> E]; [lia|].
    mred. rewrite E. by rewrite decide_False by (unfold STUN_HEADER_LENGTH; lia).
  Qed.

Lemma hdr_is_command :
    n mod 4 = 0 -> n + 20 = blen -> stun_is_command_message_str msg blen = Some true.
  Proof.
    intros Hn4 He. pose proof make_class_range.
    unfold stun_is_command_message_str, command_message_cookie.
    rewrite decide_True by (unfold STUN_HEADER_LENGTH; lia).
    destruct (hdr_type (make_class c m) n STUN_MAGIC_COOKIE tid rest) as [-> E]; [lia|].
    mred. rewrite E, valid_channel_false by lia.
    destruct (hdr_byte0 (make_class c m) n STUN_MAGIC_COOKIE tid rest) as [-> E0]; [lia|].
    mred. rewrite decide_True by done.
    destruct (hdr_cookie (make_class c m) n STUN_MAGIC_COOKIE tid rest) as [-> E1]; [done|].
    mred. rewrite E1, bool_decide_true by done.
    destruct (hdr_len (make_class c m) n STUN_MAGIC_COOKIE tid rest) as [-> E2]; [lia|].
    mred. rewrite E2. change 3 with (Z.ones 2). rewrite Z.land_ones by lia.
    rewrite decide_True by done. by rewrite decide_True by (unfold STUN_HEADER_LENGTH; lia).
  Qed.
End received.

(** A message initialised for a class and a 12-bit method, in a buffer of at
    least the header size, is recognised as a STUN command, belongs to exactly that
    class, and gives back the method and the transaction id. *)
Theorem stun_init_read_back c m buf rnd :
  0 <= m < 4096 -> (20 <= length buf)%nat -> length rnd = 12%nat ->
  exists buf', stun_init_command_str (make_class c m) buf rnd = Some (buf', 20) /\
    stun_is_command_message_str buf' 20 = Some true /\
    stun_get_method_str buf' 20 = Some m /\
    stun_is_request_str buf' 20 = Some (bool_decide (c = Request)) /\
    stun_is_indication_str buf' 20 = Some (bool_decide (c = Indication)) /\
    stun_is_success_response_str buf' 20 = Some (bool_decide (c = Success)) /\
    stun_is_response_str buf' 20 = Some (bool_decide (c = Success \/ c = Error)) /\
    stun_tid_from_message_str buf' = Some rnd.
Proof.
  intros Hm Hb Hr. eexists. split; [by apply stun_init_command_hdr|].
  split; [by apply hdr_is_command|]. split; [by apply hdr_get_method|].
  destruct (hdr_is_request c m 0 rnd (drop 20 buf) 20) as (?&?&?&?); [done..|].
  split_and!; try done. by apply hdr_tid.
Qed.

Lemma stun_init_read_back_witness :
  exists buf', stun_init_command_str (make_class Request STUN_METHOD_ALLOCATE) (replicate 1500 7)
                 [1; 2; 3; 4; 5; 6; 7; 8; 9; 10; 11; 12] = Some (buf', 20) /\
    stun_is_command_message_str buf' 20 = Some true /\
    stun_get_method_str buf' 20 = Some STUN_METHOD_ALLOCATE.
Proof.
  destruct (stun_init_read_back Request STUN_METHOD_ALLOCATE (replicate 1500 7)
              [1; 2; 3; 4; 5; 6; 7; 8; 9; 10; 11; 12]) as (b & H1 & H2 & H3 & _);
    [done|vm_compute; lia|done|]. by exists b.
Defined.

(** ** Channel messages *)

Lemma land3_mod x : Z.land x 3 = x mod 4.
Proof. change 3 with (Z.ones 2). by rewrite Z.land_ones by lia. Qed.

Lemma pad4_shift x : Z.shiftl (Z.shiftr x 2 + 1) 2 = (x / 4 + 1) * 4.
Proof. by rewrite Z.shiftl_mul_pow2, Z.shiftr_div_pow2 by lia. Qed.

Lemma u16_small x : 0 <= x < 65536 -> u16 x = x.
Proof. apply (wrap_small 16). Qed.

Lemma frame_fields chn n rest :
  0 <= chn < 2 ^ 16 -> 0 <= n < 2 ^ 16 ->
  ld16 ((be_bytes 2 chn ++ be_bytes 2 n) ++ rest) 0 = Some (nswap16 chn) /\
  ld16 ((be_bytes 2 chn ++ be_bytes 2 n) ++ rest) 2 = Some (nswap16 n) /\
  nswap16 (nswap16 chn) = chn /\ nswap16 (nswap16 n) = n.
Proof.
  intros. rewrite <- (assoc_L (++)). split_and!; try by apply nswap_involutive.
  - apply ld_be. by apply (slice_app []).
  - apply ld_be. by apply slice_app.
Qed.

Lemma channel_frame chn buf len0 n do_padding mandatory_padding :
  STUN_VALID_CHANNEL chn = true -> 0 <= n <= MAX_STUN_MESSAGE_SIZE - 4 -> (4 <= length buf)%nat ->
  exists buf' blen,
    stun_init_channel_message_str chn buf len0 n do_padding = Some (true, buf', blen) /\
    drop 4 buf' = drop 4 buf /\ 4 + n <= blen <= 4 + n + 3 /\
    (do_padding = true -> blen mod 4 = 0) /\ (do_padding = false -> blen = 4 + n) /\
    stun_is_channel_message_str buf' blen mandatory_padding = Some (true, 4 + n, Some chn) /\ length buf' = length buf.
Proof.
  unfold MAX_STUN_MESSAGE_SIZE. intros Hv Hn Hb. pose proof Hv as Hv'. apply bool_decide_eq_true in Hv'.
  unfold stun_init_channel_message_str. rewrite decide_False by (unfold MAX_STUN_MESSAGE_SIZE; lia).
  rewrite !st_nswap, u16_small by lia. change buf with ([] ++ buf) at 1.
  rewrite splice_next by (len_lia). mred. rewrite st_nswap.
  rewrite splice_next by (len_lia). cbn [mbind option_bind app].
  rewrite drop_drop, !length_be_bytes. change (2 + 2)%nat with 4%nat. set (rlen := if _ && _ then _ else _).
  assert (n <= rlen <= n + 3 /\ (do_padding = true -> rlen mod 4 = 0) /\
          (do_padding = false -> rlen = n) /\ (rlen <> n -> rlen mod 4 = 0)) as (Hr & Hp & Hnp & Hne).
  { unfold rlen. rewrite land3_mod, pad4_shift. destruct do_padding; cbn [andb]; [|split_and!; lia].
    destruct (n mod 4 =? 0) eqn:E; cbn [negb]; [split_and!; lia|].
    rewrite u16_small by zlia. split_and!; zlia. }
  clearbody rlen. eexists _, _. split; [done|].
  split; [by rewrite drop_app_ge, length_app, !length_be_bytes by (rewrite length_app, !length_be_bytes; lia)|].
  split; [lia|]. split; [intros; zlia|]. split; [intros; rewrite Hnp by done; lia|].
  split; [|rewrite !length_app, !length_be_bytes, length_drop; lia].
  unfold stun_is_channel_message_str. rewrite decide_False by lia.
  destruct (frame_fields chn n (drop 4 buf)) as (-> & -> & E1 & E2); [lia..|].
  mred. rewrite E1, Hv, E2. cbn [negb].
  rewrite (decide_False (P := 4 + rlen > 65535)) by lia.
  rewrite !u16_small by lia. replace (4 + rlen - 4) with rlen by lia.
  rewrite decide_False by lia. rewrite land3_mod. case_decide as Hd.
  - rewrite Hne by done. cbn. do 3 f_equal. lia.
  - do 3 f_equal. lia.
Qed.

(** A channel message written for a valid channel number and a payload of at
    most [MAX_STUN_MESSAGE_SIZE - 4] bytes is read back with that number and that
    payload length, in every padding mode of the writer and of the reader; the
    frame is at most three bytes longer than the data and padded to a multiple of
    four on request. *)
Theorem stun_channel_message_roundtrip chn buf len0 n do_padding mandatory_padding :
  STUN_VALID_CHANNEL chn = true -> 0 <= n <= MAX_STUN_MESSAGE_SIZE - 4 -> (4 <= length buf)%nat ->
  exists buf' blen,
    stun_init_channel_message_str chn buf len0 n do_padding = Some (true, buf', blen) /\
    drop 4 buf' = drop 4 buf /\ 4 + n <= blen <= 4 + n + 3 /\
    (do_padding = true -> blen mod 4 = 0) /\ (do_padding = false -> blen = 4 + n) /\
    stun_is_channel_message_str buf' blen mandatory_padding = Some (true, 4 + n, Some chn).
Proof.
  intros Hv Hn Hb. destruct (channel_frame chn buf len0 n do_padding mandatory_padding Hv Hn Hb) as (buf' & blen & H).
  exists buf', blen. tauto.
Qed.

Lemma stun_channel_message_roundtrip_witness :
  exists buf' blen,
    stun_init_channel_message_str 0x4001 (replicate 16 0) 0 5 true = Some (true, buf', blen) /\
    stun_is_channel_message_str buf' blen true = Some (true, 9, Some 0x4001).
Proof.
  destruct (stun_channel_message_roundtrip 0x4001 (replicate 16 0) 0 5 true true)
    as (b & l & H1 & _ & _ & _ & _ & H2); [done|done|vm_compute; lia|]. by exists b, l.
Defined.

(** ** Framing a byte stream *)

Lemma get_message_len_stun c m n tid rest blen padding :
  0 <= m < 4096 -> 0 <= n < 2 ^ 16 -> n mod 4 = 0 -> 20 <= blen -> u16 (n + 20) <= blen ->
  stun_get_message_len_str (hdr (make_class c m) n STUN_MAGIC_COOKIE tid ++ rest) blen padding
    = Some (u16 (n + 20), Some (u16 (n + 20))).
Proof.
  intros Hm Hn Hn4 Hb Hle. pose proof (make_class_range c m Hm).
  unfold stun_get_message_len_str, stun_framed_len. rewrite decide_False by lia.
  rewrite (decide_True (P := blen >= STUN_HEADER_LENGTH)) by (unfold STUN_HEADER_LENGTH; lia).
  destruct (hdr_type (make_class c m) n STUN_MAGIC_COOKIE tid rest) as [-> E]; [lia|].
  mred. rewrite E, valid_channel_false by lia.
  destruct (hdr_byte0 (make_class c m) n STUN_MAGIC_COOKIE tid rest) as [-> E0]; [lia|].
  mred. rewrite (decide_True (P := Z.land (make_class c m / 256) 0xC0 = 0)) by done.
  destruct (hdr_cookie (make_class c m) n STUN_MAGIC_COOKIE tid rest) as [-> E1]; [done|].
  mred. rewrite E1, (decide_True (P := STUN_MAGIC_COOKIE = STUN_MAGIC_COOKIE)) by done.
  destruct (hdr_len (make_class c m) n STUN_MAGIC_COOKIE tid rest) as [-> E2]; [lia|].
  mred. rewrite E2, land3_mod, (decide_True (P := n mod 4 = 0)) by done.
  unfold STUN_HEADER_LENGTH. by rewrite (decide_True (P := u16 (n + 20) <= blen)) by lia.
Qed.

(** C30 A stream that begins with a whole STUN message of less than 2^16 bytes is cut
    after exactly that message, whatever follows; a stream that begins with a whole
    channel frame of less than 2^16 bytes, and is not an HTTP request, is cut after
    the frame and its padding, and the payload length excludes the padding. *)
Theorem stun_get_message_len_frames :
  (forall c m n tid rest blen padding,
     0 <= m < 4096 -> 0 <= n -> n mod 4 = 0 -> n + 20 < 2 ^ 16 -> n + 20 <= blen ->
     stun_get_message_len_str (hdr (make_class c m) n STUN_MAGIC_COOKIE tid ++ rest) blen padding
       = Some (n + 20, Some (n + 20))) /\
  (forall chn n rest blen (padding : bool),
     let buf := (be_bytes 2 chn ++ be_bytes 2 n) ++ rest in
     let total := if padding then (4 + n + 3) / 4 * 4 else 4 + n in
     STUN_VALID_CHANNEL chn = true -> 0 <= n -> total < 2 ^ 16 -> total <= blen ->
     is_http buf blen = Some 0 ->
     stun_get_message_len_str buf blen padding = Some (total, Some (4 + n))).
Proof.
  split.
  - intros c m n tid rest blen padding Hm Hn Hn4 Hlt Hle.
    assert (u16 (n + 20) = n + 20) as E by (apply u16_small; lia).
    by rewrite get_message_len_stun, E by (rewrite ?E; lia).
  - intros chn n rest blen padding buf total Hv Hn Htot Hle Hh.
    assert (4 + n <= total /\ total <= 4 + n + 3) as Ht by (unfold total; destruct padding; zlia).
    pose proof Hv as Hv'. apply bool_decide_eq_true in Hv'.
    destruct (frame_fields chn n rest) as (F1 & F2 & E1 & E2); [lia..|]. fold buf in F1, F2.
    unfold stun_get_message_len_str. rewrite decide_False by lia.
    assert (stun_framed_len buf blen = Some None) as ->.
    { unfold stun_framed_len. case_decide; [|done]. rewrite F1. mred. by rewrite E1, Hv. }
    mred. rewrite Hh. mred.
    rewrite decide_False by lia. rewrite decide_True by lia. rewrite F1, F2.
    mred. rewrite E1, Hv, E2, u16_small by lia. rewrite land3_mod, pad4_shift.
    assert ((if padding && negb ((4 + n) mod 4 =? 0) then u16 (((4 + n) / 4 + 1) * 4) else 4 + n)
            = total) as ->.
    { unfold total in *. destruct padding; cbn [andb]; [|done].
      destruct ((4 + n) mod 4 =? 0) eqn:E; cbn [negb]; [zlia|].
      rewrite u16_small by zlia. zlia. }
    by rewrite decide_True by lia.
Qed.

Lemma stun_get_message_len_frames_witness :
  stun_get_message_len_str
    (hdr (make_class Request 1) 4 STUN_MAGIC_COOKIE (replicate 12 9) ++ [1; 2; 3; 4; 5; 6]) 26 true
  = Some (24, Some 24) /\
  stun_get_message_len_str ((be_bytes 2 0x4001 ++ be_bytes 2 3) ++ [65; 66; 67; 0; 7]) 9 true
  = Some (8, Some 7).
Proof.
  split.
  - apply (proj1 stun_get_message_len_frames Request 1 4); lia || done.
  - apply (proj2 stun_get_message_len_frames 0x4001 3 [65; 66; 67; 0; 7] 9 true); (done || reflexivity).
Defined.

(** The 16-bit length computed for a STUN message wraps: a header that announces
    65516 or more payload bytes is reported as a whole message of [n - 65516] bytes,
    fewer than the header alone, as soon as 20 bytes have arrived. *)
Theorem stun_get_message_len_wraps c m n tid rest blen padding :
  0 <= m < 4096 -> 65516 <= n < 2 ^ 16 -> n mod 4 = 0 -> 20 <= blen ->
  stun_get_message_len_str (hdr (make_class c m) n STUN_MAGIC_COOKIE tid ++ rest) blen padding
    = Some (n - 65516, Some (n - 65516)) /\ n - 65516 < STUN_HEADER_LENGTH.
Proof.
  intros Hm Hn Hn4 Hb. assert (u16 (n + 20) = n - 65516) as E.
  { unfold wrap. change (2 ^ 16) with 65536 in *. zlia. }
  rewrite get_message_len_stun, E by (try done; try rewrite E; lia).
  split; [done|]. unfold STUN_HEADER_LENGTH. lia.
Qed.

Lemma stun_get_message_len_wraps_witness :
  stun_get_message_len_str
    (hdr (make_class Indication STUN_METHOD_SEND) 65520 STUN_MAGIC_COOKIE (replicate 12 9) ++ []) 20 true
  = Some (4, Some 4).
Proof. apply (stun_get_message_len_wraps Indication STUN_METHOD_SEND 65520); (done || lia). Defined.
