(* ===== verification/StunAttr.v ===== *)
(** * STUN attributes: the attribute half of [client/ns_turn_msg.c]

    The attribute iterator, the typed readers and the appender, and the abstract
    view they implement: a message body is a list of attributes. *)

From S2P Require Import Prelude IoAddr MsgAddr CString StunHeader.

Definition STUN_ATTRIBUTE_MAPPED_ADDRESS : Z := 0x0001.
Definition OLD_STUN_ATTRIBUTE_RESPONSE_ADDRESS : Z := 0x0002.
Definition STUN_ATTRIBUTE_CHANGE_REQUEST : Z := 0x0003.
Definition OLD_STUN_ATTRIBUTE_SOURCE_ADDRESS : Z := 0x0004.
Definition OLD_STUN_ATTRIBUTE_CHANGED_ADDRESS : Z := 0x0005.
Definition STUN_ATTRIBUTE_USERNAME : Z := 0x0006.
Definition STUN_ATTRIBUTE_MESSAGE_INTEGRITY : Z := 0x0008.
Definition STUN_ATTRIBUTE_ERROR_CODE : Z := 0x0009.
Definition OLD_STUN_ATTRIBUTE_REFLECTED_FROM : Z := 0x000B.
Definition STUN_ATTRIBUTE_CHANNEL_NUMBER : Z := 0x000C.
Definition STUN_ATTRIBUTE_LIFETIME : Z := 0x000D.
Definition STUN_ATTRIBUTE_XOR_PEER_ADDRESS : Z := 0x0012.
Definition STUN_ATTRIBUTE_REALM : Z := 0x0014.
Definition STUN_ATTRIBUTE_NONCE : Z := 0x0015.
Definition STUN_ATTRIBUTE_XOR_RELAYED_ADDRESS : Z := 0x0016.
Definition STUN_ATTRIBUTE_REQUESTED_ADDRESS_FAMILY : Z := 0x0017.
Definition STUN_ATTRIBUTE_EVEN_PORT : Z := 0x0018.
Definition STUN_ATTRIBUTE_REQUESTED_TRANSPORT : Z := 0x0019.
Definition STUN_ATTRIBUTE_XOR_MAPPED_ADDRESS : Z := 0x0020.
Definition STUN_ATTRIBUTE_RESERVATION_TOKEN : Z := 0x0022.
Definition STUN_ATTRIBUTE_PADDING : Z := 0x0026.
Definition STUN_ATTRIBUTE_RESPONSE_PORT : Z := 0x0027.
Definition STUN_ATTRIBUTE_ADDITIONAL_ADDRESS_FAMILY : Z := 0x8000.
Definition STUN_ATTRIBUTE_ADDRESS_ERROR_CODE : Z := 0x8001.
Definition STUN_ATTRIBUTE_NEW_BANDWIDTH : Z := 0x8010.
Definition STUN_ATTRIBUTE_ALTERNATE_SERVER : Z := 0x8023.
Definition STUN_ATTRIBUTE_FINGERPRINT : Z := 0x8028.
Definition STUN_ATTRIBUTE_RESPONSE_ORIGIN : Z := 0x802B.
Definition STUN_ATTRIBUTE_OTHER_ADDRESS : Z := 0x802C.
Definition STUN_ATTRIBUTE_THIRD_PARTY_AUTHORIZATION : Z := 0x802E.
Definition STUN_ATTRIBUTE_MOBILITY_TICKET : Z := 0x8030.

(** ** Reading one attribute

    A [stun_attr_ref] is the offset of the attribute in the buffer; the null
    reference is [None].  The outer [option] is undefined behaviour. *)

Definition stun_attr_get_type (buf : list Z) (attr : option Z) : option Z :=
  match attr with
  | Some a => v ← ld16 buf a; Some (nswap16 v)
  | None => Some (-1)
  end.

Definition stun_attr_get_len (buf : list Z) (attr : option Z) : option Z :=
  match attr with
  | Some a => v ← ld16 buf (a + 2); Some (nswap16 v)
  | None => Some (-1)
  end.

Definition stun_attr_get_value (buf : list Z) (attr : option Z) : option (option Z) :=
  match attr with
  | Some a =>
    v ← ld16 buf (a + 2);
    if decide (nswap16 v < 1) then Some None else Some (Some (a + 4))
  | None => Some None
  end.

(** ** The iterator *)

(** The length rounded up to the boundary; the remainder is that of the low 16
    bits. *)
Definition round4 (attrlen : Z) : Z :=
  let rem4 := Z.land (u16 attrlen) 3 in
  if negb (rem4 =? 0) then attrlen + 4 - rem4 else attrlen.

Definition stun_attr_check_valid (buf : list Z) (attr remaining : Z) : option (option Z) :=
  if decide (remaining >= 4) then
    attrlen ← stun_attr_get_len buf (Some attr);
    if decide (round4 attrlen <= remaining - 4) then Some (Some attr) else Some None
  else Some None.

Definition stun_attr_get_first_str (buf : list Z) (len : Z) : option (option Z) :=
  bufLen ← stun_get_command_message_len_str buf len;
  if decide (bufLen > STUN_HEADER_LENGTH) then
    stun_attr_check_valid buf STUN_HEADER_LENGTH (bufLen - STUN_HEADER_LENGTH)
  else Some None.

Definition stun_attr_get_next_str (buf : list Z) (len : Z) (prev : option Z)
    : option (option Z) :=
  match prev with
  | None => stun_attr_get_first_str buf len
  | Some prev =>
    end_ ← stun_get_command_message_len_str buf len;
    attrlen ← stun_attr_get_len buf (Some prev);
    let attrlen := round4 attrlen in
    if decide (attrlen < end_ - prev - 4) then
      let attr_end := prev + 4 + attrlen in
      stun_attr_check_valid buf attr_end (end_ - attr_end)
    else Some None
  end.

(** The loop [while (attr) { ...; attr = stun_attr_get_next_str(buf, len, attr); }]
    with a body that returns a result or falls through. *)
Fixpoint attr_loop {A} (fuel : nat) (buf : list Z) (len : Z) (body : Z -> option (option A))
    (attr : option Z) : option (option A) :=
  match attr with
  | None => Some None
  | Some a =>
    match fuel with
    | O => None
    | S fuel =>
      r ← body a;
      match r with
      | Some x => Some (Some x)
      | None =>
        next ← stun_attr_get_next_str buf len (Some a);
        attr_loop fuel buf len body next
      end
    end
  end.

(** Every attribute takes at least four bytes of the message. *)
Definition attr_fuel (len : Z) : nat := Z.to_nat len.

Definition stun_attr_get_first_by_type_str (buf : list Z) (len attr_type : Z)
    : option (option Z) :=
  attr ← stun_attr_get_first_str buf len;
  attr_loop (attr_fuel len) buf len (fun a =>
    t ← stun_attr_get_type buf (Some a);
    Some (if decide (t = attr_type) then Some a else None)) attr.

(** ** Appending an attribute *)

(** [avalue] may be null.  The returned flag, the buffer and [*len]. *)
Definition stun_attr_add_str (buf : list Z) (len attr : Z) (avalue : option (list Z)) (alen : Z)
    : option (bool * list Z * Z) :=
  let alen := if decide (alen < 0) then 0 else alen in
  let '(avalue, alen) := match avalue with Some v => (v, alen) | None => ([0], 0) end in
  clen ← stun_get_command_message_len_str buf len;
  newlen ← int_chk (clen + 4 + alen);
  let newlenrem4 := Z.land newlen 3 in
  let paddinglen := if negb (newlenrem4 =? 0) then 4 - newlenrem4 else 0 in
  newlen ← int_chk (newlen + paddinglen);
  if decide (newlen >= MAX_STUN_MESSAGE_SIZE) then Some (false, buf, len) else
  '(_, buf) ← stun_set_command_message_len_str buf newlen;
  buf ← st16 buf clen (nswap16 attr);
  buf ← st16 buf (clen + 2) (nswap16 alen);
  v ← (if decide (alen > 0) then slice avalue 0 alen else Some []);
  buf ← splice buf (clen + 4) v;
  buf ← splice buf (clen + 4 + alen) (replicate (Z.to_nat paddinglen) 0);
  Some (true, buf, newlen).

(** ** The abstract view: a body is a list of attributes *)

Record sattr := SAttr { at_type : Z; at_val : list Z; at_pad : list Z }.

Definition wf_attr (a : sattr) : Prop :=
  0 <= at_type a < 2 ^ 16 /\ zlen (at_val a) < 2 ^ 16 /\ is_bytes (at_val a) /\
  zlen (at_pad a) = - zlen (at_val a) mod 4 /\ is_bytes (at_pad a).

Definition enc_attr (a : sattr) : list Z :=
  be_bytes 2 (at_type a) ++ be_bytes 2 (zlen (at_val a)) ++ at_val a ++ at_pad a.

Fixpoint enc_attrs (l : list sattr) : list Z :=
  match l with [] => [] | a :: l => enc_attr a ++ enc_attrs l end.

(** The bytes after the last attribute the iterator accepts. *)
Definition bad_tail (g : list Z) : Prop :=
  zlen g < 4 \/ exists n, ld16 g 2 = Some n /\ round4 (nswap16 n) > zlen g - 4.

(** [framed buf len l g]: the message in the first [len] bytes of [buf] has the
    attributes [l], followed by [g], which does not start with an attribute. *)
Definition framed (buf : list Z) (len : Z) (l : list sattr) (g : list Z) : Prop :=
  exists h rest, buf = h ++ enc_attrs l ++ g ++ rest /\ length h = 20%nat /\
    (exists n, ld16 buf 2 = Some n /\ nswap16 n = zlen (enc_attrs l ++ g)) /\
    Forall wf_attr l /\ bad_tail g /\ 20 + zlen (enc_attrs l ++ g) <= len.

(** The offset of each attribute. *)
Fixpoint attr_offs (o : Z) (l : list sattr) : list (Z * sattr) :=
  match l with
  | [] => []
  | a :: l => (o, a) :: attr_offs (o + zlen (enc_attr a)) l
  end.

(** ** One attribute in place *)

Lemma round4_spec n : 0 <= n < 2 ^ 16 -> round4 n = n + (- n) mod 4.
Proof.
  intros H. unfold round4. rewrite u16_small, land3_mod by lia.
  destruct (n mod 4 =? 0) eqn:E; cbn [negb]; zlia.
Qed.

Lemma length_enc_attr a : wf_attr a -> zlen (enc_attr a) = 4 + round4 (zlen (at_val a)).
Proof.
  intros (_&Hl&_&Hp&_). rewrite round4_spec by lia. unfold enc_attr.
  rewrite !length_app, !length_be_bytes. lia.
Qed.

Lemma enc_attr_ge4 a : wf_attr a -> 4 <= zlen (enc_attr a) /\ zlen (enc_attr a) mod 4 = 0.
Proof.
  intros H. rewrite length_enc_attr by done. destruct H as (_&Hl&_).
  rewrite round4_spec by lia. split; zlia.
Qed.

Lemma enc_attrs_app l1 l2 : enc_attrs (l1 ++ l2) = enc_attrs l1 ++ enc_attrs l2.
Proof. induction l1 as [|a l1 IH]; simpl; [done|]. by rewrite IH, (assoc_L (++)). Qed.

Lemma enc_attrs_mod4 l : Forall wf_attr l -> zlen (enc_attrs l) mod 4 = 0.
Proof.
  induction 1 as [|a l Ha _ IH]; [done|]. cbn [enc_attrs]. rewrite length_app, Nat2Z.inj_add.
  destruct (enc_attr_ge4 a Ha). zlia.
Qed.

Lemma length_enc_attrs_ge l : Forall wf_attr l -> 4 * zlen l <= zlen (enc_attrs l).
Proof.
  induction 1 as [|a l Ha _ IH]; [done|]. cbn [enc_attrs length]. rewrite length_app.
  destruct (enc_attr_ge4 a Ha). lia.
Qed.

Section one_attr.
  Context (p s : list Z) (a : sattr) (o : Z) (Ha : wf_attr a) (Ho : o = zlen p).
  Abbreviation buf := (p ++ enc_attr a ++ s).

Lemma attr_type_at : stun_attr_get_type buf (Some o) = Some (at_type a).
  Proof.
    unfold stun_attr_get_type. rewrite (ld_be 2 _ _ (at_type a)).
    - mred. f_equal. apply nswap_involutive. apply Ha.
    - unfold enc_attr. rewrite <- !(assoc_L (++)). apply slice_app; [lia|by rewrite length_be_bytes].
  Qed.

Lemma attr_len_ld : ld16 buf (o + 2) = Some (nswap16 (zlen (at_val a))) /\
    nswap16 (nswap16 (zlen (at_val a))) = zlen (at_val a).
  Proof.
    split; [|apply nswap_involutive; destruct Ha; lia]. apply ld_be.
    unfold enc_attr. rewrite <- !(assoc_L (++)). rewrite (assoc_L (++) p). apply slice_app; len_lia.
  Qed.

Lemma attr_len_at : stun_attr_get_len buf (Some o) = Some (zlen (at_val a)).
  Proof. unfold stun_attr_get_len. destruct attr_len_ld as [-> E]. mred. by rewrite E. Qed.

Lemma attr_value_at :
    stun_attr_get_value buf (Some o)
      = Some (if decide (zlen (at_val a) < 1) then None else Some (o + 4)).
  Proof.
    unfold stun_attr_get_value. destruct attr_len_ld as [-> E]. mred. rewrite E.
    by case_decide.
  Qed.

Lemma attr_value_slice : slice buf (o + 4) (zlen (at_val a)) = Some (at_val a).
  Proof.
    unfold enc_attr. rewrite <- !(assoc_L (++)).
    rewrite (assoc_L (++) p), (assoc_L (++) (p ++ _)). apply slice_app; len_lia.
  Qed.

Lemma attr_check_valid_at r :
    zlen (enc_attr a) <= r -> stun_attr_check_valid buf o r = Some (Some o).
  Proof.
    intros Hr. rewrite length_enc_attr in Hr by done.
    assert (0 <= round4 (zlen (at_val a))) by (destruct Ha as (_&?&_); rewrite round4_spec; zlia).
    unfold stun_attr_check_valid. rewrite decide_True by lia. rewrite attr_len_at.
    mred. by rewrite decide_True by lia.
  Qed.
End one_attr.

(** What follows the last attribute is not one. *)
Lemma bad_tail_check p g s o :
  bad_tail g -> o = zlen p ->
  stun_attr_check_valid (p ++ g ++ s) o (zlen g) = Some None.
Proof.
  intros Hg Ho. unfold stun_attr_check_valid. case_decide as H4; [|done].
  destruct Hg as [Hg|(n & Hn & Hr)]; [lia|]. unfold stun_attr_get_len.
  rewrite (ld_sub 2 (p ++ g ++ s) o (zlen g) g) by (try lia; by apply slice_app).
  rewrite Hn. mred. by rewrite decide_False by lia.
Qed.

(** ** Every body is a list of attributes and a tail *)

Lemma parse_one g :
  is_bytes g -> 4 <= zlen g ->
  exists n, ld16 g 2 = Some n /\ 0 <= nswap16 n < 2 ^ 16 /\
    (round4 (nswap16 n) <= zlen g - 4 ->
     exists a g', g = enc_attr a ++ g' /\ wf_attr a).
Proof.
  intros Hb Hl.
  destruct (slice_is_Some g 0 2) as (t & Ht & Hlt); [lia..|].
  destruct (slice_is_Some g 2 2) as (m & Hm & Hlm); [lia..|].
  pose proof (slice_bytes _ _ _ _ Hb Ht) as Htb. pose proof (slice_bytes _ _ _ _ Hb Hm) as Hmb.
  exists (le_val m). unfold ld. change (Z.of_nat 2) with 2. rewrite Hm.
  assert (nswap16 (le_val m) = be_val m) as En
    by (assert (length m = 2%nat) as <- by lia; by apply nswap_le_val).
  pose proof (be_val_range m Hmb) as Hr. rewrite Hlm in Hr. change (2 ^ (8 * 2)) with (2 ^ 16) in Hr.
  rewrite En. split; [done|]. split; [done|]. intros Hle. rewrite round4_spec in Hle by done.
  set (n := be_val m) in *.
  exists (SAttr (be_val t) (take (Z.to_nat n) (drop 4 g))
            (take (Z.to_nat ((- n) mod 4)) (drop (4 + Z.to_nat n) g))),
    (drop (4 + Z.to_nat n + Z.to_nat ((- n) mod 4)) g).
  assert (0 <= (- n) mod 4 < 4) as Hmod by (apply Z.mod_pos_bound; lia).
  assert (zlen (take (Z.to_nat n) (drop 4 g)) = n) as Hv
    by (rewrite length_take, length_drop; lia).
  split.
  - unfold enc_attr. cbn [at_type at_val at_pad]. rewrite Hv.
    replace (be_bytes 2 (be_val t)) with t
      by (assert (length t = 2%nat) as <- by lia; by rewrite be_bytes_be_val).
    replace (be_bytes 2 n) with m
      by (assert (length m = 2%nat) as <- by lia; unfold n; by rewrite be_bytes_be_val).
    apply slice_Some in Ht as (_&_&_&->). apply slice_Some in Hm as (_&_&_&->).
    change (Z.to_nat 2) with 2%nat. change (Z.to_nat 0) with 0%nat.
    by rewrite <- !(assoc_L (++)), !take_drop_at, drop_0.
  - pose proof (be_val_range t Htb) as Hr'. rewrite Hlt in Hr'.
    change (2 ^ (8 * 2)) with (2 ^ 16) in Hr'.
    split_and!; cbn [at_type at_val at_pad]; [lia|lia|lia|by apply Forall_take, Forall_drop| |by apply Forall_take, Forall_drop].
    rewrite Hv, length_take, length_drop. lia.
Qed.

(** The decomposition, by induction on the number of bytes. *)
Lemma body_split b :
  is_bytes b -> exists l g, b = enc_attrs l ++ g /\ Forall wf_attr l /\ bad_tail g.
Proof.
  induction b as [b IH] using (induction_ltof1 _ (@length Z)). intros Hb.
  destruct (decide (zlen b < 4)) as [H4|H4]; [by exists [], b; repeat split; [constructor|left]|].
  destruct (parse_one b Hb) as (n & Hn & _ & Hp); [lia|].
  destruct (decide (round4 (nswap16 n) <= zlen b - 4)) as [Hr|Hr].
  - destruct (Hp Hr) as (a & g' & -> & Ha). apply Forall_app in Hb as [_ Hb].
    destruct (IH g') as (l & g & -> & Hl & Hg); [|done|].
    { unfold ltof. rewrite length_app. destruct (enc_attr_ge4 a Ha). lia. }
    exists (a :: l), g. split_and!; [by cbn [enc_attrs]; rewrite <- (assoc_L (++))|by constructor|done].
  - exists [], b. repeat split; [constructor|]. right. exists n. split; [done|lia].
Qed.

(** ** The iterator visits exactly the attributes *)

Lemma framed_command_len buf len l g :
  framed buf len l g ->
  stun_get_command_message_len_str buf len = Some (20 + zlen (enc_attrs l ++ g)).
Proof.
  intros (h & rest & _ & _ & (n & Hn & E) & _ & _ & Hle).
  unfold stun_get_command_message_len_str, STUN_HEADER_LENGTH.
  rewrite decide_False by lia. rewrite Hn. mred. rewrite E, decide_False by lia. f_equal. lia.
Qed.

(** The reference to the attribute at the head of [l]. *)
Definition head_ref (o : Z) (l : list sattr) : option Z :=
  match l with [] => None | _ => Some o end.

Lemma framed_first buf len l g :
  framed buf len l g -> stun_attr_get_first_str buf len = Some (head_ref 20 l).
Proof.
  intros Hf. pose proof (framed_command_len _ _ _ _ Hf) as Hc.
  destruct Hf as (h & rest & -> & Hh & _ & Hl & Hg & _).
  unfold stun_attr_get_first_str. rewrite Hc. mred. unfold STUN_HEADER_LENGTH.
  destruct l as [|a l]; cbn [enc_attrs head_ref app].
  - case_decide; [|done]. replace (20 + zlen g - 20) with (zlen g) by lia.
    apply bad_tail_check; [done|lia].
  - inversion_clear Hl as [|?? Ha Hl']. destruct (enc_attr_ge4 a Ha).
    rewrite decide_True by len_lia. rewrite <- !(assoc_L (++)).
    apply attr_check_valid_at; [done|lia|len_lia].
Qed.

Lemma framed_next buf len l1 a l2 g :
  framed buf len (l1 ++ a :: l2) g ->
  stun_attr_get_next_str buf len (Some (20 + zlen (enc_attrs l1)))
    = Some (head_ref (20 + zlen (enc_attrs (l1 ++ [a]))) l2).
Proof.
  intros Hf. pose proof (framed_command_len _ _ _ _ Hf) as Hc.
  destruct Hf as (h & rest & Hbuf & Hh & _ & Hl & Hg & _).
  apply Forall_app in Hl as [_ Hl]. inversion_clear Hl as [|?? Ha Hl2].
  unfold stun_attr_get_next_str. rewrite Hc. mred.
  assert (Hlen : stun_attr_get_len buf (Some (20 + zlen (enc_attrs l1))) = Some (zlen (at_val a))).
  { subst buf. rewrite enc_attrs_app. cbn [enc_attrs]. rewrite <- !(assoc_L (++)).
    rewrite (assoc_L (++) h). apply attr_len_at; [done|len_lia]. }
  rewrite Hlen. mred. pose proof (length_enc_attr a Ha) as La.
  rewrite !enc_attrs_app. cbn [enc_attrs]. rewrite app_nil_r.
  set (e := 20 + zlen _).
  set (o := 20 + zlen (enc_attrs l1)).
  assert (e = o + 4 + round4 (zlen (at_val a)) + zlen (enc_attrs l2) + zlen g) as -> by (unfold e, o; len_lia).
  replace (20 + zlen (enc_attrs l1 ++ enc_attr a)) with (o + 4 + round4 (zlen (at_val a)))
    by (unfold o; len_lia).
  set (o' := o + 4 + round4 _).
  assert (Hbuf2 : buf = (h ++ enc_attrs (l1 ++ [a])) ++ enc_attrs l2 ++ g ++ rest).
  { subst buf. rewrite !enc_attrs_app. cbn [enc_attrs]. by rewrite app_nil_r, <- !(assoc_L (++)). }
  assert (Ho' : o' = zlen (h ++ enc_attrs (l1 ++ [a])))
    by (rewrite enc_attrs_app; cbn [enc_attrs]; unfold o', o; len_lia).
  rewrite Hbuf2. destruct l2 as [|b l3]; cbn [head_ref enc_attrs app length].
  - case_decide; [|done]. replace (o' + Z.of_nat 0 + zlen g - o') with (zlen g) by lia.
    by apply bad_tail_check.
  - inversion_clear Hl2 as [|?? Hb _]. destruct (enc_attr_ge4 b Hb).
    rewrite decide_True by len_lia. rewrite <- (assoc_L (++) (enc_attr b)).
    apply attr_check_valid_at; [done|done|len_lia].
Qed.

(** The specification of the loop: the first result in message order. *)
Fixpoint search {A} (body : Z -> option (option A)) (l : list (Z * sattr)) : option (option A) :=
  match l with
  | [] => Some None
  | (o, _) :: l =>
    r ← body o;
    match r with Some x => Some (Some x) | None => search body l end
  end.

Lemma attr_loop_search {A} (body : Z -> option (option A)) buf len l1 l2 g fuel :
  framed buf len (l1 ++ l2) g -> (length l2 <= fuel)%nat ->
  attr_loop fuel buf len body (head_ref (20 + zlen (enc_attrs l1)) l2)
    = search body (attr_offs (20 + zlen (enc_attrs l1)) l2).
Proof.
  revert l1 fuel; induction l2 as [|a l2 IH]; intros l1 fuel Hf Hfuel;
    destruct fuel as [|fuel]; cbn [length] in Hfuel; try lia; [done..|].
  cbn [head_ref attr_loop attr_offs search]. destruct (body _) as [[x|]|]; mred; [done| |done].
  rewrite (framed_next _ _ _ _ _ _ Hf). mred.
  assert (20 + zlen (enc_attrs l1) + zlen (enc_attr a) = 20 + zlen (enc_attrs (l1 ++ [a]))) as ->.
  { rewrite enc_attrs_app. cbn [enc_attrs]. len_lia. }
  apply IH; [|lia]. by rewrite <- (assoc_L (++)).
Qed.

Lemma attr_search_framed {A} (body : Z -> option (option A)) buf len l g :
  framed buf len l g ->
  (attr ← stun_attr_get_first_str buf len; attr_loop (attr_fuel len) buf len body attr)
    = search body (attr_offs 20 l).
Proof.
  intros Hf. rewrite (framed_first _ _ _ _ Hf). mred.
  pose proof (attr_loop_search body buf len [] l g (attr_fuel len)) as H. cbn in H.
  apply H; [done|]. destruct Hf as (h & rest & _ & _ & _ & Hl & _ & Hle).
  pose proof (length_enc_attrs_ge l Hl). unfold attr_fuel. rewrite length_app in Hle. lia.
Qed.

(** Any received buffer is framed, or the length test rejects it. *)
Lemma framed_any buf len :
  is_bytes buf -> 0 <= len <= zlen buf ->
  stun_get_command_message_len_str buf len = Some (-1) \/ exists l g, framed buf len l g.
Proof.
  intros Hb Hlen. unfold stun_get_command_message_len_str, STUN_HEADER_LENGTH.
  case_decide as H20; [by left|].
  destruct (slice_is_Some buf 2 2) as (m & Hm & Hlm); [lia..|].
  pose proof (slice_bytes _ _ _ _ Hb Hm) as Hmb.
  assert (Hn : ld16 buf 2 = Some (le_val m)) by (unfold ld; change (Z.of_nat 2) with 2; by rewrite Hm).
  assert (En : nswap16 (le_val m) = be_val m)
    by (assert (length m = 2%nat) as <- by lia; by apply nswap_le_val).
  rewrite Hn. mred. case_decide as Hgt; [by left|]. right.
  pose proof (be_val_range m Hmb) as Hr. rewrite <- En in Hr.
  set (k := Z.to_nat (nswap16 (le_val m))).
  destruct (body_split (take k (drop 20 buf))) as (l & g & Hlg & Hl & Hg);
    [by apply Forall_take, Forall_drop|].
  exists l, g. exists (take 20 buf), (drop (20 + k) buf).
  assert (zlen (enc_attrs l ++ g) = nswap16 (le_val m))
    by (rewrite <- Hlg, length_take, length_drop; lia).
  split_and!; try done; [|rewrite length_take; lia|by eexists|lia].
  rewrite (assoc_L (++) (enc_attrs l)), <- Hlg, take_drop_at. by rewrite take_drop.
Qed.

(** ** Look-up by type *)

Fixpoint find_type (t : Z) (l : list (Z * sattr)) : option (Z * sattr) :=
  match l with
  | [] => None
  | (o, a) :: l => if decide (at_type a = t) then Some (o, a) else find_type t l
  end.

Lemma attr_offs_elem o0 l o a :
  (o, a) ∈ attr_offs o0 l <-> exists l1 l2, l = l1 ++ a :: l2 /\ o = o0 + zlen (enc_attrs l1).
Proof.
  revert o0; induction l as [|b l IH]; intros o0; cbn [attr_offs].
  - split; [by intros ?%not_elem_of_nil|]. by intros ([|??] & ? & ? & _).
  - rewrite elem_of_cons, IH. split.
    + intros [[= -> ->]|(l1 & l2 & -> & ->)]; [exists [], l|exists (b :: l1), l2];
        (split; [done|]); cbn [enc_attrs]; len_lia.
    + intros ([|c l1] & l2 & [= -> ->] & ->); [left; f_equal; cbn; lia|right].
      exists l1, l2. split; [done|]. cbn [enc_attrs]. len_lia.
Qed.

Lemma find_type_elem t l o a : find_type t l = Some (o, a) -> (o, a) ∈ l /\ at_type a = t.
Proof.
  induction l as [|[o' a'] l IH]; simpl; [done|]. case_decide.
  - intros [= -> ->]. split; [by left|done].
  - intros H'. destruct (IH H'). split; [by right|done].
Qed.

(** Reading the attribute at an offset of a framed message. *)
Lemma framed_read buf len l g o a :
  framed buf len l g -> (o, a) ∈ attr_offs 20 l ->
  stun_attr_get_type buf (Some o) = Some (at_type a) /\
  stun_attr_get_len buf (Some o) = Some (zlen (at_val a)) /\
  stun_attr_get_value buf (Some o)
    = Some (if decide (zlen (at_val a) < 1) then None else Some (o + 4)) /\
  slice buf (o + 4) (zlen (at_val a)) = Some (at_val a) /\ wf_attr a.
Proof.
  intros (h & rest & -> & Hh & _ & Hl & _) (l1 & l2 & -> & ->)%attr_offs_elem.
  apply Forall_app in Hl as [_ Hl]. inversion_clear Hl as [|?? Ha _].
  rewrite enc_attrs_app. cbn [enc_attrs]. rewrite <- !(assoc_L (++)), (assoc_L (++) h).
  assert (20 + zlen (enc_attrs l1) = zlen (h ++ enc_attrs l1)) as Ho by len_lia.
  split_and!; [by apply attr_type_at|by apply attr_len_at|by apply attr_value_at
              |by apply attr_value_slice|done].
Qed.

Lemma search_type buf t (l : list (Z * sattr)) :
  (forall o a, (o, a) ∈ l -> stun_attr_get_type buf (Some o) = Some (at_type a)) ->
  search (fun a => t' ← stun_attr_get_type buf (Some a); Some (if decide (t' = t) then Some a else None)) l
    = Some (fst <$> find_type t l).
Proof.
  induction l as [|[o a] l IH]; intros H; cbn [search find_type]; [done|].
  rewrite (H o a) by (by left). mred. case_decide; [done|].
  apply IH. intros o' a' ?. apply H. by right.
Qed.

Lemma get_first_by_type_framed buf len l g t :
  framed buf len l g ->
  stun_attr_get_first_by_type_str buf len t = Some (fst <$> find_type t (attr_offs 20 l)).
Proof.
  intros Hf. unfold stun_attr_get_first_by_type_str.
  rewrite (attr_search_framed _ _ _ _ _ Hf). apply search_type. intros o a Ho.
  by destruct (framed_read _ _ _ _ _ _ Hf Ho).
Qed.

(** C27 On every buffer, however malformed, the search for an attribute type stays
    inside the buffer, terminates, and returns the first attribute of that type among
    the attributes the message body decomposes into, with the value bytes it
    delimits; it returns the null reference when there is none, and when the header
    announces more bytes than were received. *)
Theorem stun_attr_lookup_correct buf len t :
  is_bytes buf -> 0 <= len <= zlen buf ->
  (stun_get_command_message_len_str buf len = Some (-1) /\
   stun_attr_get_first_by_type_str buf len t = Some None) \/
  exists l g, framed buf len l g /\
    match find_type t (attr_offs 20 l) with
    | None => stun_attr_get_first_by_type_str buf len t = Some None
    | Some (o, a) =>
      stun_attr_get_first_by_type_str buf len t = Some (Some o) /\ at_type a = t /\
      20 <= o /\ o + 4 + zlen (at_val a) <= len /\
      stun_attr_get_len buf (Some o) = Some (zlen (at_val a)) /\
      slice buf (o + 4) (zlen (at_val a)) = Some (at_val a)
    end.
Proof.
  intros Hb Hlen. destruct (framed_any buf len Hb Hlen) as [H|(l & g & Hf)].
  - left. split; [done|]. unfold stun_attr_get_first_by_type_str, stun_attr_get_first_str.
    rewrite H. mred. rewrite decide_False by (unfold STUN_HEADER_LENGTH; lia). by destruct (attr_fuel len).
  - right. exists l, g. split; [done|]. rewrite (get_first_by_type_framed _ _ _ _ t Hf).
    destruct (find_type t (attr_offs 20 l)) as [[o a]|] eqn:E; [|done].
    apply find_type_elem in E as [Ho Ht].
    destruct (framed_read _ _ _ _ _ _ Hf Ho) as (_&Hl&_&Hs&Ha). split_and!; try done.
    + apply attr_offs_elem in Ho as (l1 & l2 & _ & ->). lia.
    + apply attr_offs_elem in Ho as (l1 & l2 & -> & ->).
      destruct Hf as (_&_&_&_&_&_&_&Hle). revert Hle. rewrite enc_attrs_app. cbn [enc_attrs].
      unfold enc_attr. intros Hle. autorewrite with lens in Hle. lia.
Qed.

Lemma stun_attr_lookup_correct_witness :
  let buf := hdr 1 8 STUN_MAGIC_COOKIE (replicate 12 0) ++ [0; 13; 0; 3; 9; 8; 7; 0; 99] in
  is_bytes buf /\ stun_attr_get_first_by_type_str buf 28 13 = Some (Some 20) /\
  ((stun_get_command_message_len_str buf 28 = Some (-1) /\
    stun_attr_get_first_by_type_str buf 28 13 = Some None) \/
   exists l g, framed buf 28 l g).
Proof.
  intros buf. assert (is_bytes buf) as Hb by (by apply (bool_decide_unpack _); vm_compute).
  split; [done|]. split; [reflexivity|].
  destruct (stun_attr_lookup_correct buf 28 13) as [?|(l & g & Hf & _)];
    [done|by vm_compute|by left|right; eauto].
Defined.

(** ** Messages under construction *)

Definition msg (ty ck : Z) (tid : list Z) (l : list sattr) : list Z :=
  hdr ty (zlen (enc_attrs l)) ck tid ++ enc_attrs l.
Definition msg_len (l : list sattr) : Z := 20 + zlen (enc_attrs l).

(** [buf] starts with a message of type [ty] whose attributes are [l]. *)
Definition is_msg (buf : list Z) (len ty ck : Z) (tid : list Z) (l : list sattr) : Prop :=
  Forall wf_attr l /\ length tid = 12%nat /\ len = msg_len l /\ zlen (enc_attrs l) < 2 ^ 16 /\
  exists rest, buf = msg ty ck tid l ++ rest.

Lemma is_msg_framed buf len ty ck tid l : is_msg buf len ty ck tid l -> framed buf len l [].
Proof.
  intros (Hl & Ht & -> & Hn & rest & ->). exists (hdr ty (zlen (enc_attrs l)) ck tid), rest.
  unfold msg, msg_len. rewrite app_nil_r. split_and!; [by rewrite <- (assoc_L (++))|len_lia| |done| |lia].
  - destruct (hdr_len ty (zlen (enc_attrs l)) ck tid (enc_attrs l ++ rest)) as [H E]; [lia|].
    exists (nswap16 (zlen (enc_attrs l))). by rewrite <- (assoc_L (++)).
  - left. done.
Qed.

Lemma is_msg_command_len buf len ty ck tid l :
  is_msg buf len ty ck tid l -> stun_get_command_message_len_str buf len = Some len.
Proof.
  intros H. rewrite (framed_command_len _ _ _ _ (is_msg_framed _ _ _ _ _ _ H)).
  rewrite app_nil_r. by destruct H as (_&_&->&_).
Qed.

(** The attribute [stun_attr_add_str] appends for a value [v]. *)
Definition new_attr (t : Z) (v : list Z) : sattr :=
  SAttr (t mod 2 ^ 16) v (replicate (Z.to_nat (- zlen v mod 4)) 0).

Lemma new_attr_wf t v : is_bytes v -> zlen v < 2 ^ 16 -> wf_attr (new_attr t v).
Proof.
  intros Hv Hl. unfold wf_attr, new_attr; cbn [at_type at_val at_pad]. split_and!; try done.
  - by apply Z.mod_pos_bound.
  - by apply Z.mod_pos_bound.
  - rewrite length_replicate. pose proof (Z.mod_pos_bound (- zlen v) 4). lia.
  - by apply Forall_replicate.
Qed.

Lemma new_attr_enc t v :
  enc_attr (new_attr t v)
    = be_bytes 2 t ++ be_bytes 2 (zlen v) ++ v ++ replicate (Z.to_nat (- zlen v mod 4)) 0.
Proof.
  unfold enc_attr, new_attr; cbn [at_type at_val at_pad].
  by rewrite (be_bytes_mod 2).
Qed.

Lemma is_msg_len_mod4 buf len ty ck tid l : is_msg buf len ty ck tid l -> len mod 4 = 0 /\ 20 <= len.
Proof.
  intros (Hl & _ & -> & _). unfold msg_len. pose proof (enc_attrs_mod4 l Hl). split; zlia.
Qed.

Lemma msg_len_snoc l t v :
  is_bytes v -> zlen v < 2 ^ 16 ->
  msg_len (l ++ [new_attr t v]) = msg_len l + 4 + round4 (zlen v).
Proof.
  intros Hv Hl. unfold msg_len. rewrite enc_attrs_app. cbn [enc_attrs].
  rewrite app_nil_r, length_app, Nat2Z.inj_add, length_enc_attr by by apply new_attr_wf.
  cbn [at_val new_attr]. lia.
Qed.

Lemma stun_attr_add_ok buf len ty ck tid l t v alen :
  is_msg buf len ty ck tid l -> is_bytes v -> 0 <= alen <= zlen v ->
  let new := new_attr t (take (Z.to_nat alen) v) in
  msg_len (l ++ [new]) < MAX_STUN_MESSAGE_SIZE -> msg_len (l ++ [new]) <= zlen buf ->
  exists buf', stun_attr_add_str buf len t (Some v) alen
      = Some (true, buf', msg_len (l ++ [new])) /\
    is_msg buf' (msg_len (l ++ [new])) ty ck tid (l ++ [new]) /\ length buf' = length buf.
Proof.
  intros Hm Hv Halen new Hmax Hcap. pose proof (is_msg_command_len _ _ _ _ _ _ Hm) as Hc.
  destruct (is_msg_len_mod4 _ _ _ _ _ _ Hm) as [Hlen4 Hlen20].
  set (v' := take (Z.to_nat alen) v) in *.
  assert (zlen v' = alen) as Hv' by (unfold v'; rewrite length_take; lia).
  assert (is_bytes v') as Hbv' by by apply Forall_take.
  destruct Hm as (Hl & Ht & Hlen & Hn & rest & ->).
  assert (alen < 2 ^ 16) as Hal.
  { unfold msg_len, MAX_STUN_MESSAGE_SIZE in Hmax. rewrite enc_attrs_app in Hmax. cbn [enc_attrs] in Hmax.
    unfold new in Hmax. rewrite new_attr_enc in Hmax. autorewrite with lens in Hmax. lia. }
  rewrite <- Hv' in Hal. pose proof (msg_len_snoc l t v' Hbv' Hal) as Hnl. fold new in Hnl.
  rewrite <- Hlen, round4_spec, Hv' in Hnl by lia. set (nl := msg_len (l ++ [new])) in *.
  set (pad := - alen mod 4) in *. assert (0 <= pad < 4) by (apply Z.mod_pos_bound; lia).
  unfold MAX_STUN_MESSAGE_SIZE in Hmax.
  unfold stun_attr_add_str. rewrite decide_False by lia. rewrite Hc. mred.
  rewrite int_chk_ok by lia. mred. rewrite land3_mod.
  assert ((if negb ((len + 4 + alen) mod 4 =? 0) then 4 - (len + 4 + alen) mod 4 else 0) = pad) as ->.
  { unfold pad. destruct ((len + 4 + alen) mod 4 =? 0) eqn:E; cbn [negb]; zlia. }
  replace (len + 4 + alen + pad) with nl by lia.
  rewrite int_chk_ok by lia. mred.
  rewrite (decide_False (P := nl >= MAX_STUN_MESSAGE_SIZE)) by (unfold MAX_STUN_MESSAGE_SIZE; lia).
  unfold stun_set_command_message_len_str.
  rewrite (decide_False (P := nl < STUN_HEADER_LENGTH)) by (unfold STUN_HEADER_LENGTH; lia).
  rewrite st_nswap. unfold msg at 1. rewrite <- (assoc_L (++)), hdr_set_len. mred.
  unfold STUN_HEADER_LENGTH. rewrite !st_nswap, u16_small by lia.
  unfold msg, msg_len in Hcap, Hlen. fold (msg_len (l ++ [new])) in Hcap. fold nl in Hcap.
  autorewrite with lens in Hcap. rewrite (assoc_L (++)).
  rewrite splice_next by len_lia. mred. rewrite st_nswap, splice_next by len_lia. mred.
  assert ((if decide (alen > 0) then slice v 0 alen else Some []) = Some v') as ->.
  { case_decide; [by rewrite slice_val by lia|]. unfold v'. by replace alen with 0 by lia. }
  mred. rewrite splice_next by len_lia. mred. rewrite splice_next by len_lia. mred.
  eexists. split; [done|]. rewrite !drop_drop.
  assert (zlen (enc_attrs (l ++ [new])) = nl - 20) as El by (unfold nl, msg_len; lia).
  split; [|unfold msg; autorewrite with lens; lia].
  split_and!; [apply Forall_app_2; [done|constructor; [by apply new_attr_wf|done]]|done|done|lia|].
  exists (drop (length (be_bytes 2 t) + (length (be_bytes 2 alen) +
    (length v' + length (replicate (Z.to_nat pad) 0)))) rest).
  unfold msg. rewrite El, enc_attrs_app. cbn [enc_attrs]. rewrite app_nil_r.
  unfold new. rewrite new_attr_enc, Hv'. by rewrite <- !(assoc_L (++)).
Qed.

(** The message is left alone when the limit would be reached. *)
Lemma stun_attr_add_full buf len ty ck tid l t v alen :
  is_msg buf len ty ck tid l -> is_bytes v -> 0 <= alen <= zlen v -> zlen v < 2 ^ 16 ->
  msg_len (l ++ [new_attr t (take (Z.to_nat alen) v)]) >= MAX_STUN_MESSAGE_SIZE ->
  stun_attr_add_str buf len t (Some v) alen = Some (false, buf, len).
Proof.
  intros Hm Hv Halen Hvl. pose proof (is_msg_command_len _ _ _ _ _ _ Hm) as Hc.
  destruct (is_msg_len_mod4 _ _ _ _ _ _ Hm) as [Hlen4 Hlen20].
  destruct Hm as (Hl & Ht & Hlen & Hn & rest & ->).
  rewrite msg_len_snoc by (rewrite ?length_take; auto using Forall_take; lia).
  rewrite length_take, round4_spec by lia.
  replace (Z.of_nat (Z.to_nat alen `min` length v)) with alen by lia.
  unfold MAX_STUN_MESSAGE_SIZE. rewrite <- Hlen. intros Hge. unfold msg_len in Hlen.
  unfold stun_attr_add_str. rewrite decide_False by lia. rewrite Hc. mred.
  rewrite int_chk_ok by lia. mred. rewrite land3_mod.
  assert ((if negb ((len + 4 + alen) mod 4 =? 0) then 4 - (len + 4 + alen) mod 4 else 0) = - alen mod 4) as ->.
  { destruct ((len + 4 + alen) mod 4 =? 0) eqn:E; cbn [negb]; zlia. }
  rewrite int_chk_ok by (pose proof (Z.mod_pos_bound (- alen) 4); lia). mred.
  by rewrite decide_True by (unfold MAX_STUN_MESSAGE_SIZE; lia).
Qed.

Lemma is_msg_lookup buf len ty ck tid l t :
  is_msg buf len ty ck tid l ->
  stun_attr_get_first_by_type_str buf len t = Some (fst <$> find_type t (attr_offs 20 l)).
Proof. intros H. by apply (get_first_by_type_framed _ _ _ []), (is_msg_framed _ _ ty ck tid). Qed.

(** C28 Appending an attribute to a message refines appending to its list of
    attributes: when the grown message is below [MAX_STUN_MESSAGE_SIZE] the call
    succeeds, the new message has the old attributes followed by the new one (zero
    padded), the same type, cookie and transaction id, and every later look-up sees
    that list; otherwise the call fails and changes nothing. *)
Theorem stun_attr_add_refines buf len ty ck tid l t v alen :
  is_msg buf len ty ck tid l -> is_bytes v -> 0 <= alen <= zlen v -> zlen v < 2 ^ 16 ->
  MAX_STUN_MESSAGE_SIZE <= zlen buf ->
  let new := new_attr t (take (Z.to_nat alen) v) in
  (msg_len (l ++ [new]) < MAX_STUN_MESSAGE_SIZE /\
   exists buf', stun_attr_add_str buf len t (Some v) alen = Some (true, buf', msg_len (l ++ [new])) /\
     is_msg buf' (msg_len (l ++ [new])) ty ck tid (l ++ [new]) /\
     forall t', stun_attr_get_first_by_type_str buf' (msg_len (l ++ [new])) t'
                = Some (fst <$> find_type t' (attr_offs 20 (l ++ [new])))) \/
  (msg_len (l ++ [new]) >= MAX_STUN_MESSAGE_SIZE /\
   stun_attr_add_str buf len t (Some v) alen = Some (false, buf, len)).
Proof.
  intros Hm Hv Ha Hvl Hcap new. destruct (Z_lt_dec (msg_len (l ++ [new])) MAX_STUN_MESSAGE_SIZE) as [Hlt|Hge].
  - left. split; [done|].
    destruct (stun_attr_add_ok _ _ _ _ _ _ t v alen Hm Hv Ha Hlt) as (buf' & H1 & H2 & _);
      [fold new; lia|].
    exists buf'. split_and!; [done|done|]. intros t'. by apply (is_msg_lookup _ _ ty ck tid).
  - right. split; [lia|]. by eapply stun_attr_add_full.
Qed.

(** The message that a fresh buffer is initialised to. *)
Lemma init_is_msg c m buf rnd :
  (20 <= length buf)%nat -> length rnd = 12%nat -> 0 <= m < 4096 ->
  exists buf', stun_init_command_str (make_class c m) buf rnd = Some (buf', 20) /\
    is_msg buf' 20 (make_class c m) STUN_MAGIC_COOKIE rnd [] /\ length buf' = length buf.
Proof.
  intros Hb Hr Hm. eexists. split; [by apply stun_init_command_hdr|].
  split; [|autorewrite with lens; lia].
  split_and!; [constructor|done|done|done|]. exists (drop 20 buf). unfold msg. cbn [enc_attrs].
  by rewrite app_nil_r.
Qed.

Lemma stun_attr_add_refines_witness :
  let buf := msg 1 STUN_MAGIC_COOKIE (replicate 12 3) [] ++ replicate 65487 0 in
  let new := new_attr 6 [97; 98; 99] in
  (msg_len [new] < MAX_STUN_MESSAGE_SIZE /\
   exists buf', stun_attr_add_str buf 20 6 (Some [97; 98; 99]) 3 = Some (true, buf', msg_len [new]) /\
     is_msg buf' (msg_len [new]) 1 STUN_MAGIC_COOKIE (replicate 12 3) [new] /\
     forall t', stun_attr_get_first_by_type_str buf' (msg_len [new]) t'
                = Some (fst <$> find_type t' (attr_offs 20 [new]))) \/
  (msg_len [new] >= MAX_STUN_MESSAGE_SIZE /\
   stun_attr_add_str buf 20 6 (Some [97; 98; 99]) 3 = Some (false, buf, 20)).
Proof.
  intros buf new.
  apply (stun_attr_add_refines buf 20 1 STUN_MAGIC_COOKIE (replicate 12 3) [] 6 [97; 98; 99] 3).
  - split_and!; [constructor|done|done|done|by eexists].
  - by repeat constructor.
  - done.
  - done.
  - unfold buf. rewrite length_app, length_replicate. vm_compute. done.
Defined.
