(* ===== verification/StunFields.v ===== *)
(** * Typed attributes and complete messages:
    the builders and readers of [client/ns_turn_msg.c]

    Typed readers and appenders, error responses, and the requests and responses of
    the Allocate, ChannelBind and Binding methods.  A random transaction id or
    channel number is an argument ([rnd]). *)

From S2P Require Import Prelude IoAddr MsgAddr CString StunHeader StunAttr.

Definition STUN_DEFAULT_ALLOCATE_LIFETIME : Z := 600.
Definition STUN_MIN_ALLOCATE_LIFETIME : Z := 600.
Definition FAMILY_VALUE_IPV4 : Z := 1.
Definition FAMILY_VALUE_IPV6 : Z := 2.
Definition FAMILY_VALUE_DEFAULT : Z := 0.
Definition FAMILY_VALUE_INVALID : Z := -1.

(** ** Typed readers *)

Definition stun_get_requested_address_family (buf : list Z) (attr : option Z) : option Z :=
  match attr with
  | Some a =>
    v ← ld16 buf (a + 2);
    if decide (nswap16 v <> 4) then Some FAMILY_VALUE_INVALID else
    val ← ld8 buf (a + 4);
    if decide (val = FAMILY_VALUE_IPV4 \/ val = FAMILY_VALUE_IPV6) then Some val
    else Some FAMILY_VALUE_INVALID
  | None => Some FAMILY_VALUE_DEFAULT
  end.

Definition stun_attr_get_channel_number (buf : list Z) (attr : option Z) : option Z :=
  match attr with
  | None => Some 0
  | Some _ =>
    value ← stun_attr_get_value buf attr;
    match value with
    | None => Some 0
    | Some value =>
      len ← stun_attr_get_len buf attr;
      if decide (len >= 2) then
        c ← ld16 buf value;
        let cn := nswap16 c in
        Some (if STUN_VALID_CHANNEL cn then cn else 0)
      else Some 0
    end
  end.

(** [bps << 7] is computed in [uint32_t] before it is widened. *)
Definition stun_attr_get_bandwidth (buf : list Z) (attr : option Z) : option Z :=
  match attr with
  | None => Some 0
  | Some _ =>
    value ← stun_attr_get_value buf attr;
    match value with
    | None => Some 0
    | Some value =>
      len ← stun_attr_get_len buf attr;
      if decide (len >= 4) then bps ← ld32 buf value; Some (u32 (Z.shiftl (nswap32 bps) 7))
      else Some 0
    end
  end.

Definition stun_attr_get_reservation_token_value (buf : list Z) (attr : option Z) : option Z :=
  match attr with
  | None => Some 0
  | Some _ =>
    value ← stun_attr_get_value buf attr;
    match value with
    | None => Some 0
    | Some value =>
      len ← stun_attr_get_len buf attr;
      if decide (len = 8) then token ← ld64 buf value; Some (nswap64 token) else Some 0
    end
  end.

Definition addr_attr_types : list Z :=
  [STUN_ATTRIBUTE_XOR_MAPPED_ADDRESS; STUN_ATTRIBUTE_XOR_PEER_ADDRESS;
   STUN_ATTRIBUTE_XOR_RELAYED_ADDRESS; STUN_ATTRIBUTE_MAPPED_ADDRESS;
   STUN_ATTRIBUTE_ALTERNATE_SERVER; OLD_STUN_ATTRIBUTE_RESPONSE_ADDRESS;
   OLD_STUN_ATTRIBUTE_SOURCE_ADDRESS; OLD_STUN_ATTRIBUTE_CHANGED_ADDRESS;
   OLD_STUN_ATTRIBUTE_REFLECTED_FROM; STUN_ATTRIBUTE_RESPONSE_ORIGIN;
   STUN_ATTRIBUTE_OTHER_ADDRESS].

Definition stun_attr_is_addr (buf : list Z) (attr : option Z) : option bool :=
  match attr with
  | None => Some false
  | Some _ => t ← stun_attr_get_type buf attr; Some (bool_decide (t ∈ addr_attr_types))
  end.

Definition stun_attr_get_even_port (buf : list Z) (attr : option Z) : option Z :=
  match attr with
  | None => Some 0
  | Some _ =>
    value ← stun_attr_get_value buf attr;
    match value with
    | None => Some 0
    | Some value => b ← ld8 buf value; Some (if decide (b > 0x7F) then 1 else 0)
    end
  end.

(** The two flags, when they are stored. *)
Definition stun_attr_get_change_request_str (buf : list Z) (attr : option Z)
    : option (option (bool * bool)) :=
  len ← stun_attr_get_len buf attr;
  if decide (len = 4) then
    value ← stun_attr_get_value buf attr;
    match value with
    | None => Some None
    | Some value =>
      b ← ld8 buf (value + 3);
      Some (Some (negb (Z.land b 4 =? 0), negb (Z.land b 2 =? 0)))
    end
  else Some None.

Definition stun_attr_get_response_port_str (buf : list Z) (attr : option Z) : option Z :=
  len ← stun_attr_get_len buf attr;
  if decide (len >= 2) then
    value ← stun_attr_get_value buf attr;
    match value with
    | None => Some (-1)
    | Some value => v ← ld16 buf value; Some (nswap16 v)
    end
  else Some (-1).

Definition stun_attr_get_padding_len_str (buf : list Z) (attr : option Z) : option Z :=
  len ← stun_attr_get_len buf attr;
  Some (if decide (len < 0) then -1 else u16 len).

(** ** Typed appenders *)

(** [if (!stun_attr_add_str(...)) return false; k] *)
Definition add_then (r : option (bool * list Z * Z))
    (k : list Z -> Z -> option (bool * list Z * Z)) : option (bool * list Z * Z) :=
  '(ok, buf, len) ← r;
  if (ok : bool) then k buf len else Some (false, buf, len).

Definition is_xor_type (attr_type : Z) : bool :=
  bool_decide (attr_type = STUN_ATTRIBUTE_XOR_MAPPED_ADDRESS \/
    attr_type = STUN_ATTRIBUTE_XOR_PEER_ADDRESS \/ attr_type = STUN_ATTRIBUTE_XOR_RELAYED_ADDRESS).

(** The contents of the local array [cfield] before the call do not matter; they
    are zeros here. *)
Definition stun_attr_add_addr_str (m : mapping) (buf : list Z) (len attr_type : Z) (ca : ioa_addr)
    : option (bool * list Z * Z) :=
  tid ← stun_tid_from_message_str buf;
  let public_addr := map_addr_from_private_to_public m ca in
  '(r, cfield, clen) ← stun_addr_encode (Some public_addr) (Some (replicate 64 0))
                         (is_xor_type attr_type) STUN_MAGIC_COOKIE (Some tid);
  if decide (r < 0) then Some (false, buf, len) else
  stun_attr_add_str buf len attr_type (Some cfield) (default 0 clen).

(** The returned flag and the address [ca] points to. *)
Definition stun_attr_get_addr_str (m : mapping) (buf : list Z) (attr : option Z)
    (default_addr : option ioa_addr) : option (bool * ioa_addr) :=
  tid ← stun_tid_from_message_str buf;
  attr_type ← stun_attr_get_type buf attr;
  if decide (attr_type < 0) then Some (false, addr_set_any) else
  cfield ← stun_attr_get_value buf attr;
  match cfield with
  | None => Some (false, addr_set_any)
  | Some cfield =>
    alen ← stun_attr_get_len buf attr;
    '(r, public_addr) ← stun_addr_decode addr_set_any buf cfield alen (is_xor_type attr_type)
                          STUN_MAGIC_COOKIE tid;
    if decide (r < 0) then Some (false, addr_set_any) else
    let ca := map_addr_from_public_to_private m public_addr in
    match default_addr with
    | Some d =>
      if addr_any_no_port (Some ca) && negb (addr_any_no_port (Some d)) then
        Some (true, addr_set_port d (addr_get_port (Some ca)))
      else Some (true, ca)
    | None => Some (true, ca)
    end
  end.

Definition stun_attr_get_first_addr_str (m : mapping) (buf : list Z) (len attr_type : Z)
    (default_addr : option ioa_addr) : option (option ioa_addr) :=
  attr ← stun_attr_get_first_str buf len;
  attr_loop (attr_fuel len) buf len (fun a =>
    b ← stun_attr_is_addr buf (Some a);
    t ← stun_attr_get_type buf (Some a);
    if (b : bool) && bool_decide (attr_type = t) then
      '(ok, ca) ← stun_attr_get_addr_str m buf (Some a) default_addr;
      Some (if (ok : bool) then Some ca else None)
    else Some None) attr.

Definition stun_attr_add_channel_number_str (buf : list Z) (len chnumber : Z) :=
  stun_attr_add_str buf len STUN_ATTRIBUTE_CHANNEL_NUMBER
    (Some (le_bytes 2 (nswap16 chnumber) ++ [0; 0])) 4.

Definition stun_attr_add_bandwidth_str (buf : list Z) (len bps0 : Z) :=
  let bps := u32 (Z.shiftr bps0 7) in
  stun_attr_add_str buf len STUN_ATTRIBUTE_NEW_BANDWIDTH (Some (le_bytes 4 (nswap32 bps))) 4.

Definition stun_attr_get_first_channel_number_str (buf : list Z) (len : Z) : option Z :=
  attr ← stun_attr_get_first_str buf len;
  r ← attr_loop (attr_fuel len) buf len (fun a =>
    t ← stun_attr_get_type buf (Some a);
    if decide (t = STUN_ATTRIBUTE_CHANNEL_NUMBER) then
      ret ← stun_attr_get_channel_number buf (Some a);
      Some (if STUN_VALID_CHANNEL ret then Some ret else None)
    else Some None) attr;
  Some (default 0 r).

Definition stun_attr_add_change_request_str (buf : list Z) (len : Z) (change_ip change_port : bool) :=
  let b := if change_ip then if change_port then 6 else 4 else if change_port then 2 else 0 in
  stun_attr_add_str buf len STUN_ATTRIBUTE_CHANGE_REQUEST (Some [0; 0; 0; b]) 4.

Definition stun_attr_add_response_port_str (buf : list Z) (len port : Z) :=
  stun_attr_add_str buf len STUN_ATTRIBUTE_RESPONSE_PORT
    (Some (le_bytes 2 (nswap16 port) ++ [0; 0])) 4.

(** Only the first [padding_len] bytes of the local array are initialised, and only
    they are read. *)
Definition stun_attr_add_padding_str (buf : list Z) (len padding_len : Z) :=
  stun_attr_add_str buf len STUN_ATTRIBUTE_PADDING
    (Some (replicate (Z.to_nat padding_len) 0)) padding_len.

(** ** Error codes *)

Definition get_default_reason (error_code : Z) : string :=
  (if decide (error_code = 300) then "Try Alternate"
   else if decide (error_code = 400) then "Bad Request"
   else if decide (error_code = 401) then "Unauthorized"
   else if decide (error_code = 403) then "Forbidden"
   else if decide (error_code = 404) then "Not Found"
   else if decide (error_code = 420) then "Unknown Attribute"
   else if decide (error_code = 437) then "Allocation Mismatch"
   else if decide (error_code = 438) then "Stale Nonce"
   else if decide (error_code = 440) then "Address Family not Supported"
   else if decide (error_code = 441) then "Wrong Credentials"
   else if decide (error_code = 442) then "Unsupported Transport Protocol"
   else if decide (error_code = 443) then "Peer Address Family Mismatch"
   else if decide (error_code = 446) then "Connection Already Exists"
   else if decide (error_code = 447) then "Connection Timeout or Failure"
   else if decide (error_code = 486) then "Allocation Quota Reached"
   else if decide (error_code = 487) then "Role Conflict"
   else if decide (error_code = 500) then "Server Error"
   else if decide (error_code = 508) then "Insufficient Capacity"
   else "Unknown error")%string.

(** The array [avalue\[513\]] and [alen]: two leading bytes, the code, the reason cut
    to the array and terminated, and the manual padding of the length. *)
Definition error_avalue (b0 error_code : Z) (reason : list Z) : option (list Z * Z) :=
  s ← strncpy 509 reason;
  let avalue := [b0; 0; u8 (error_code `quot` 100); u8 (error_code `rem` 100)] ++ <[508%nat := 0]> s in
  sl ← strlen (drop 4 avalue);
  let alen := 4 + sl in
  let rem := alen mod 4 in
  Some (avalue, if negb (rem =? 0) then alen + (4 - rem) else alen).

(** [reason] may be null; the result of the append is ignored. *)
Definition stun_init_error_response_common_str (buf : list Z) (len error_code : Z)
    (reason id : option (list Z)) : option (list Z * Z) :=
  reason ← match reason with
           | None => Some (cstr (get_default_reason error_code))
           | Some r =>
             unknown ← strcmp_eq r (cstr "Unknown error");
             Some (if (unknown : bool) then cstr (get_default_reason error_code) else r)
           end;
  '(avalue, alen) ← error_avalue 0 error_code reason;
  '(_, buf, len) ← stun_attr_add_str buf len STUN_ATTRIBUTE_ERROR_CODE (Some avalue) alen;
  buf ← set_tid buf id;
  Some (buf, len).

Definition old_stun_init_error_response_str (method : Z) (buf : list Z) (error_code : Z)
    (reason id : option (list Z)) (cookie : Z) (rnd : list Z) : option (list Z * Z) :=
  '(buf, len) ← old_stun_init_command_str (stun_make_error_response method) buf cookie rnd;
  stun_init_error_response_common_str buf len error_code reason id.

Definition stun_init_error_response_str (method : Z) (buf : list Z) (error_code : Z)
    (reason id : option (list Z)) (rnd : list Z) : option (list Z * Z) :=
  '(buf, len) ← stun_init_command_str (stun_make_error_response method) buf rnd;
  stun_init_error_response_common_str buf len error_code reason id.

Definition stun_attr_add_address_error_code (buf : list Z) (len requested_address_family error_code : Z)
    : option (bool * list Z * Z) :=
  '(avalue, alen) ← error_avalue (u8 requested_address_family) error_code
                      (cstr (get_default_reason error_code));
  stun_attr_add_str buf len STUN_ATTRIBUTE_ADDRESS_ERROR_CODE (Some avalue) alen.

(** [err_code] is the pointer to the caller's variable, with its value;
    [err_msg_size] is 0 when no message is wanted.  The flag, the variable and the
    message bytes stored, without their terminator. *)
Definition stun_is_error_response_str (buf : list Z) (len : Z) (err_code : option Z)
    (err_msg_size : Z) : option (bool * option Z * option (list Z)) :=
  c ← is_channel_msg_str buf len;
  if (c : bool) then Some (false, err_code, None) else
  t ← stun_get_msg_type_str buf len;
  if IS_STUN_ERR_RESP t then
    match err_code with
    | None => Some (true, err_code, None)
    | Some _ =>
      sar ← stun_attr_get_first_by_type_str buf len STUN_ATTRIBUTE_ERROR_CODE;
      match sar with
      | None => Some (true, err_code, None)
      | Some _ =>
        alen ← stun_attr_get_len buf sar;
        if decide (alen >= 4) then
          value ← stun_attr_get_value buf sar;
          match value with
          | None => None
          | Some val =>
            b2 ← ld8 buf (val + 2);
            b3 ← ld8 buf (val + 3);
            let err_code := Some (b2 * 100 + b3) in
            if decide (err_msg_size > 0) then
              if decide (alen > 4) then
                let msg_len := Z.min (alen - 4) (err_msg_size - 1) in
                s ← slice buf (val + 4) msg_len;
                Some (true, err_code, Some s)
              else Some (true, err_code, Some [])
            else Some (true, err_code, None)
          end
        else Some (true, err_code, None)
      end
    end
  else Some (false, err_code, None).

Definition STUN_MAX_REALM_SIZE : Z := 127.
Definition STUN_MAX_NONCE_SIZE : Z := 127.
Definition STUN_MAX_SERVER_NAME_SIZE : Z := 1025.

(** The bytes of an attribute's value, cut to [max]; [None] when it has no value. *)
Definition attr_value_cut (buf : list Z) (sar : option Z) (max : Z) : option (option (list Z)) :=
  match sar with
  | None => Some None
  | Some _ =>
    value ← stun_attr_get_value buf sar;
    match value with
    | None => Some None
    | Some value =>
      vlen ← stun_attr_get_len buf sar;
      s ← slice buf value (Z.min vlen max);
      Some (Some s)
    end
  end.

(** The result carries, on success, the realm, the nonce, the server name and the
    oauth flag. *)
Definition stun_is_challenge_response_str (buf : list Z) (len err_code0 err_msg_size : Z)
    : option (bool * option Z * option (list Z * list Z * option (list Z) * bool)) :=
  '(ret, err_code, _) ← stun_is_error_response_str buf len (Some err_code0) err_msg_size;
  if (ret : bool) && bool_decide (err_code = Some 401 \/ err_code = Some 438) then
    sar ← stun_attr_get_first_by_type_str buf len STUN_ATTRIBUTE_REALM;
    realm ← attr_value_cut buf sar STUN_MAX_REALM_SIZE;
    match realm with
    | None => Some (false, err_code, None)
    | Some realm =>
      sar ← stun_attr_get_first_by_type_str buf len STUN_ATTRIBUTE_THIRD_PARTY_AUTHORIZATION;
      server_name ← attr_value_cut buf sar STUN_MAX_SERVER_NAME_SIZE;
      sar ← stun_attr_get_first_by_type_str buf len STUN_ATTRIBUTE_NONCE;
      nonce ← attr_value_cut buf sar STUN_MAX_NONCE_SIZE;
      match nonce with
      | None => Some (false, err_code, None)
      | Some nonce =>
        Some (true, err_code, Some (realm, nonce, server_name, bool_decide (is_Some server_name)))
      end
    end
  else Some (false, err_code, None).

(** ** Allocate *)

Definition stun_adjust_allocate_lifetime (lifetime max_allowed_lifetime max_lifetime : Z) : Z :=
  let lifetime :=
    if decide (lifetime = 0) then STUN_DEFAULT_ALLOCATE_LIFETIME
    else if decide (lifetime < STUN_MIN_ALLOCATE_LIFETIME) then STUN_MIN_ALLOCATE_LIFETIME
    else if decide (lifetime > max_allowed_lifetime) then max_allowed_lifetime
    else lifetime in
  if decide (max_lifetime <> 0 /\ max_lifetime < lifetime) then max_lifetime else lifetime.

Definition stun_set_allocate_request_str (buf : list Z) (lifetime : Z) (af4 af6 : bool)
    (transport : Z) (mobile : bool) (rt : option (list Z)) (ep : Z) (rnd : list Z)
    : option (bool * list Z * Z) :=
  '(buf, len) ← stun_init_request_str STUN_METHOD_ALLOCATE buf rnd;
  add_then (stun_attr_add_str buf len STUN_ATTRIBUTE_REQUESTED_TRANSPORT
              (Some [transport; 0; 0; 0]) 4) (fun buf len =>
  let lifetime := if decide (lifetime < 1) then STUN_DEFAULT_ALLOCATE_LIFETIME else lifetime in
  add_then (stun_attr_add_str buf len STUN_ATTRIBUTE_LIFETIME
              (Some (le_bytes 4 (nswap32 lifetime))) 4) (fun buf len =>
  add_then (if mobile then stun_attr_add_str buf len STUN_ATTRIBUTE_MOBILITY_TICKET (Some [0]) 0
            else Some (true, buf, len)) (fun buf len =>
  add_then (if bool_decide (ep > -1) then
              stun_attr_add_str buf len STUN_ATTRIBUTE_EVEN_PORT
                (Some [if decide (ep = 0) then 0x00 else 0x80]) 1
            else Some (true, buf, len)) (fun buf len =>
  match rt with
  | Some rt =>
    '(_, buf, len) ← stun_attr_add_str buf len STUN_ATTRIBUTE_RESERVATION_TOKEN (Some rt) 8;
    Some (true, buf, len)
  | None =>
    add_then (if af4 && negb af6 then
                stun_attr_add_str buf len STUN_ATTRIBUTE_REQUESTED_ADDRESS_FAMILY
                  (Some [FAMILY_VALUE_IPV4; 0; 0; 0]) 4
              else Some (true, buf, len)) (fun buf len =>
    add_then (if af6 && negb af4 then
                stun_attr_add_str buf len STUN_ATTRIBUTE_REQUESTED_ADDRESS_FAMILY
                  (Some [FAMILY_VALUE_IPV6; 0; 0; 0]) 4
              else Some (true, buf, len)) (fun buf len =>
    add_then (if af4 && af6 then
                stun_attr_add_str buf len STUN_ATTRIBUTE_ADDITIONAL_ADDRESS_FAMILY
                  (Some [FAMILY_VALUE_IPV6; 0; 0; 0]) 4
              else Some (true, buf, len)) (fun buf len => Some (true, buf, len))))
  end)))).

(** An optional address attribute. *)
Definition add_opt_addr (m : mapping) (buf : list Z) (len t : Z) (a : option ioa_addr) :=
  match a with
  | Some a => stun_attr_add_addr_str m buf len t a
  | None => Some (true, buf, len)
  end.

(** [mobile_id] is a string, possibly null. *)
Definition stun_set_allocate_response_str (m : mapping) (buf : list Z) (tid : option (list Z))
    (relayed_addr1 relayed_addr2 reflexive_addr : option ioa_addr) (lifetime max_lifetime error_code : Z)
    (reason : option (list Z)) (reservation_token : Z) (mobile_id : option (list Z)) (rnd : list Z)
    : option (bool * list Z * Z) :=
  if decide (error_code = 0) then
    '(buf, len) ← stun_init_success_response_str STUN_METHOD_ALLOCATE buf tid rnd;
    add_then (add_opt_addr m buf len STUN_ATTRIBUTE_XOR_RELAYED_ADDRESS relayed_addr1) (fun buf len =>
    add_then (add_opt_addr m buf len STUN_ATTRIBUTE_XOR_RELAYED_ADDRESS relayed_addr2) (fun buf len =>
    add_then (add_opt_addr m buf len STUN_ATTRIBUTE_XOR_MAPPED_ADDRESS reflexive_addr) (fun buf len =>
    '(buf, len) ← (if decide (reservation_token <> 0) then
                     '(_, buf, len) ← stun_attr_add_str buf len STUN_ATTRIBUTE_RESERVATION_TOKEN
                                       (Some (le_bytes 8 (nswap64 reservation_token))) 8;
                     Some (buf, len)
                   else Some (buf, len));
    let lifetime :=
      if decide (lifetime < 1) then STUN_DEFAULT_ALLOCATE_LIFETIME
      else if decide (lifetime > max_lifetime) then max_lifetime else lifetime in
    add_then (stun_attr_add_str buf len STUN_ATTRIBUTE_LIFETIME
                (Some (le_bytes 4 (nswap32 lifetime))) 4) (fun buf len =>
    match mobile_id with
    | Some mid =>
      n ← strlen mid;
      if decide (n = 0) then Some (true, buf, len) else
      add_then (stun_attr_add_str buf len STUN_ATTRIBUTE_MOBILITY_TICKET (Some mid) n)
        (fun buf len => Some (true, buf, len))
    | None => Some (true, buf, len)
    end))))
  else
    '(buf, len) ← stun_init_error_response_str STUN_METHOD_ALLOCATE buf (u16 error_code) reason tid rnd;
    Some (true, buf, len).

(** ** Channel bind *)

(** The returned channel number, 0 on failure; [rnd_chn] is the 32-bit random draw. *)
Definition stun_set_channel_bind_request_str (m : mapping) (buf : list Z)
    (peer_addr : option ioa_addr) (channel_number rnd_chn : Z) (rnd : list Z)
    : option (Z * list Z * Z) :=
  let channel_number :=
    if STUN_VALID_CHANNEL channel_number then channel_number
    else 0x4000 + u16 (u32 rnd_chn mod (0x7FFF - 0x4000 + 1)) in
  '(buf, len) ← stun_init_request_str STUN_METHOD_CHANNEL_BIND buf rnd;
  '(ok, buf, len) ← stun_attr_add_channel_number_str buf len channel_number;
  if negb ok then Some (0, buf, len) else
  '(ok, buf, len) ← stun_attr_add_addr_str m buf len STUN_ATTRIBUTE_XOR_PEER_ADDRESS
                      (default addr_set_any peer_addr);
  if negb ok then Some (0, buf, len) else
  Some (channel_number, buf, len).

Definition stun_set_channel_bind_response_str (buf : list Z) (tid : option (list Z))
    (error_code : Z) (reason : option (list Z)) (rnd : list Z) : option (list Z * Z) :=
  if decide (error_code = 0) then
    stun_init_success_response_str STUN_METHOD_CHANNEL_BIND buf tid rnd
  else stun_init_error_response_str STUN_METHOD_CHANNEL_BIND buf (u16 error_code) reason tid rnd.

(** ** Binding *)

Definition stun_set_binding_request_str (buf rnd : list Z) : option (list Z * Z) :=
  stun_init_request_str STUN_METHOD_BINDING buf rnd.

Definition stun_set_binding_response_str (m : mapping) (buf : list Z) (tid : option (list Z))
    (reflexive_addr : option ioa_addr) (error_code : Z) (reason : option (list Z)) (cookie : Z)
    (old_stun stun_backward_compatibility : bool) (rnd : list Z) : option (bool * list Z * Z) :=
  if decide (error_code = 0) then
    '(buf, len) ← (if negb old_stun then stun_init_success_response_str STUN_METHOD_BINDING buf tid rnd
                   else old_stun_init_success_response_str STUN_METHOD_BINDING buf tid cookie rnd);
    add_then (if negb old_stun then add_opt_addr m buf len STUN_ATTRIBUTE_XOR_MAPPED_ADDRESS reflexive_addr
              else Some (true, buf, len)) (fun buf len =>
    match reflexive_addr with
    | Some a =>
      if stun_backward_compatibility then
        add_then (stun_attr_add_addr_str m buf len STUN_ATTRIBUTE_MAPPED_ADDRESS a)
          (fun buf len => Some (true, buf, len))
      else Some (true, buf, len)
    | None => Some (true, buf, len)
    end)
  else if negb old_stun then
    '(buf, len) ← stun_init_error_response_str STUN_METHOD_BINDING buf (u16 error_code) reason tid rnd;
    Some (true, buf, len)
  else
    '(buf, len) ← old_stun_init_error_response_str STUN_METHOD_BINDING buf (u16 error_code) reason tid cookie rnd;
    Some (true, buf, len).
