(* ===== verification/StunFieldsFacts.v ===== *)
(** * Theorems on typed attributes and complete messages *)

From S2P Require Import Prelude IoAddr MsgAddr CString StunHeader StunAttr StunFields.

(** ** A message under construction in a buffer of full size *)

Definition built (buf : list Z) (len ty ck : Z) (tid : list Z) (l : list sattr) : Prop :=
  is_msg buf len ty ck tid l /\ MAX_STUN_MESSAGE_SIZE <= zlen buf.

Lemma msg_len_add l t v :
  is_bytes v -> zlen v < 2 ^ 16 -> msg_len l + 4 <= msg_len (l ++ [new_attr t v]) <= msg_len l + zlen v + 7.
Proof.
  intros Hv Hl. rewrite msg_len_snoc, round4_spec by (done || lia).
  pose proof (Z.mod_pos_bound (- zlen v) 4). lia.
Qed.

Lemma built_add buf len ty ck tid l t v alen :
  built buf len ty ck tid l -> is_bytes v -> 0 <= alen <= zlen v ->
  msg_len l + alen + 7 < MAX_STUN_MESSAGE_SIZE ->
  let new := new_attr t (take (Z.to_nat alen) v) in
  exists buf', stun_attr_add_str buf len t (Some v) alen = Some (true, buf', msg_len (l ++ [new])) /\
    built buf' (msg_len (l ++ [new])) ty ck tid (l ++ [new]).
Proof.
  intros [Hm Hcap] Hv Ha Hroom new.
  assert (zlen (take (Z.to_nat alen) v) = alen) as Hl by (rewrite length_take; lia).
  assert (20 <= msg_len l) as H20 by (unfold msg_len; lia).
  pose proof (msg_len_add l t (take (Z.to_nat alen) v)) as Hb. fold new in Hb. rewrite Hl in Hb.
  unfold MAX_STUN_MESSAGE_SIZE in *.
  destruct Hb as [_ Hb]; [by apply Forall_take|lia|].
  destruct (stun_attr_add_ok _ _ _ _ _ _ t v alen Hm Hv Ha) as (buf' & H1 & H2 & H3);
    fold new; unfold MAX_STUN_MESSAGE_SIZE; [lia..|].
  exists buf'. split; [done|]. split; [done|]. by rewrite H3.
Qed.

(** The common case: the whole value is appended. *)
Lemma built_add_all buf len ty ck tid l t v alen :
  built buf len ty ck tid l -> is_bytes v -> alen = zlen v ->
  msg_len l + alen + 7 < MAX_STUN_MESSAGE_SIZE ->
  exists buf', stun_attr_add_str buf len t (Some v) alen
      = Some (true, buf', msg_len (l ++ [new_attr t v])) /\
    built buf' (msg_len (l ++ [new_attr t v])) ty ck tid (l ++ [new_attr t v]).
Proof.
  intros Hb Hv -> Hroom. pose proof (built_add _ _ _ _ _ _ t v (zlen v) Hb Hv) as H.
  cbn zeta in H. rewrite take_ge in H by lia. apply H; [lia|done].
Qed.

Lemma built_init c m buf rnd :
  MAX_STUN_MESSAGE_SIZE <= zlen buf -> length rnd = 12%nat -> 0 <= m < 4096 ->
  exists buf', stun_init_command_str (make_class c m) buf rnd = Some (buf', 20) /\
    built buf' 20 (make_class c m) STUN_MAGIC_COOKIE rnd [].
Proof.
  intros Hb Hr Hm. unfold MAX_STUN_MESSAGE_SIZE in Hb.
  destruct (init_is_msg c m buf rnd) as (buf' & H1 & H2 & H3); [lia|done..|].
  exists buf'. split; [done|]. split; [done|]. unfold MAX_STUN_MESSAGE_SIZE. by rewrite H3.
Qed.

Lemma is_msg_tid buf len ty ck tid l :
  is_msg buf len ty ck tid l -> stun_tid_from_message_str buf = Some tid.
Proof.
  intros (_ & Ht & _ & _ & rest & ->). unfold stun_tid_from_message_str, msg.
  rewrite <- (assoc_L (++)). by apply hdr_tid.
Qed.

(** Replacing the transaction id. *)
Lemma built_set_tid buf len ty ck tid l tid' :
  built buf len ty ck tid l -> length tid' = 12%nat ->
  exists buf', set_tid buf (Some tid') = Some buf' /\ built buf' len ty ck tid' l.
Proof.
  intros [(Hl & Ht & Hlen & Hn & rest & ->) Hcap] Ht'. unfold set_tid, msg.
  rewrite <- (assoc_L (++)), set_tid_hdr by done. eexists. split; [done|]. split.
  - split_and!; try done. exists rest. unfold msg. by rewrite <- (assoc_L (++)).
  - revert Hcap. unfold msg. autorewrite with lens. lia.
Qed.

(** ** Searching a message *)

Lemma attr_offs_app o l1 l2 :
  attr_offs o (l1 ++ l2) = attr_offs o l1 ++ attr_offs (o + zlen (enc_attrs l1)) l2.
Proof.
  revert o; induction l1 as [|a l1 IH]; intros o; cbn [app attr_offs enc_attrs].
  - by replace (o + zlen []) with o by (cbn; lia).
  - rewrite IH. do 3 f_equal. len_lia.
Qed.

Lemma search_skip {A} (body : Z -> option (option A)) l1 l2 :
  (forall o a, (o, a) ∈ l1 -> body o = Some None) -> search body (l1 ++ l2) = search body l2.
Proof.
  induction l1 as [|[o a] l1 IH]; intros H; cbn [app search]; [done|].
  rewrite (H o a) by (by left). mred. apply IH. intros o' a' ?. apply (H o' a'). by right.
Qed.

Lemma attr_offs_type o0 l o a : (o, a) ∈ attr_offs o0 l -> a ∈ l.
Proof. intros (l1 & l2 & -> & _)%attr_offs_elem. set_solver. Qed.

(** The first attribute of its type can be read back. *)
Lemma is_msg_read_at buf len ty ck tid l1 a l2 :
  is_msg buf len ty ck tid (l1 ++ a :: l2) -> Forall (fun b => at_type b <> at_type a) l1 ->
  let o := msg_len l1 in
  stun_attr_get_first_by_type_str buf len (at_type a) = Some (Some o) /\
  stun_attr_get_len buf (Some o) = Some (zlen (at_val a)) /\
  stun_attr_get_value buf (Some o)
    = Some (if decide (zlen (at_val a) < 1) then None else Some (o + 4)) /\
  slice buf (o + 4) (zlen (at_val a)) = Some (at_val a).
Proof.
  intros Hm Hl1. unfold msg_len. cbn zeta.
  assert ((20 + zlen (enc_attrs l1), a) ∈ attr_offs 20 (l1 ++ a :: l2)) as Hin
    by (apply attr_offs_elem; eauto).
  destruct (framed_read _ _ _ _ _ _ (is_msg_framed _ _ _ _ _ _ Hm) Hin) as (_&?&?&?&_).
  split_and!; try done. rewrite (is_msg_lookup _ _ _ _ _ _ _ Hm). f_equal.
  clear -Hl1. generalize 20. induction Hl1 as [|b l1 Hb _ IH]; intros o; cbn [app attr_offs find_type].
  - rewrite decide_True by done. mred. f_equal. cbn. lia.
  - rewrite decide_False by done. rewrite IH. cbn [enc_attrs]. f_equal. len_lia.
Qed.

Lemma is_msg_read_first buf len ty ck tid l1 a l2 :
  is_msg buf len ty ck tid (l1 ++ a :: l2) -> Forall (fun b => at_type b <> at_type a) l1 ->
  exists o, stun_attr_get_first_by_type_str buf len (at_type a) = Some (Some o) /\
    stun_attr_get_len buf (Some o) = Some (zlen (at_val a)) /\
    stun_attr_get_value buf (Some o)
      = Some (if decide (zlen (at_val a) < 1) then None else Some (o + 4)) /\
    slice buf (o + 4) (zlen (at_val a)) = Some (at_val a).
Proof. intros Hm Hl1. eexists. by eapply is_msg_read_at. Qed.

Lemma find_type_none t o l : Forall (fun b => at_type b <> t) l -> find_type t (attr_offs o l) = None.
Proof.
  intros H; revert o; induction H as [|a l Ha _ IH]; intros o; cbn [attr_offs find_type]; [done|].
  by rewrite decide_False.
Qed.

Lemma split_first_type t l :
  ~ Forall (fun b => at_type b <> t) l ->
  exists l1 v pad l2, l = l1 ++ SAttr t v pad :: l2 /\ Forall (fun b => at_type b <> t) l1.
Proof.
  induction l as [|[t' v p] l IH]; intros H; [by destruct H|].
  destruct (decide (t' = t)) as [->|Hne]; [by exists [], v, p, l|].
  destruct IH as (l1 & v' & p' & l2 & -> & Hl1).
  - intros Hl. apply H. by constructor.
  - exists (SAttr t' v p :: l1), v', p', l2. split; [done|]. by constructor.
Qed.

(** ** The bytes before an attribute *)

(** A message whose body is [l], under a header that announces [n] bytes. *)
Definition msg_prefix (n ty ck : Z) (tid : list Z) (l : list sattr) : list Z :=
  hdr ty n ck tid ++ enc_attrs l.

Lemma length_msg_prefix n ty ck tid l : length tid = 12%nat -> zlen (msg_prefix n ty ck tid l) = msg_len l.
Proof. intros Ht. unfold msg_prefix, msg_len. autorewrite with lens. lia. Qed.

Lemma is_msg_prefix buf len ty ck tid l l2 :
  is_msg buf len ty ck tid (l ++ l2) ->
  slice buf 0 (msg_len l) = Some (msg_prefix (len - 20) ty ck tid l).
Proof.
  intros (_ & Ht & -> & _ & rest & ->). unfold msg. rewrite enc_attrs_app.
  replace (msg_len (l ++ l2) - 20) with (zlen (enc_attrs l ++ enc_attrs l2))
    by (unfold msg_len; rewrite enc_attrs_app; lia).
  rewrite (assoc_L (++) (hdr _ _ _ _)), <- (assoc_L (++) _ (enc_attrs l2)).
  apply (slice_app []); [done|]. symmetry. by apply length_msg_prefix.
Qed.

(** Overwriting the value of the last attribute. *)
Lemma built_set_last buf len ty ck tid l t v v' :
  built buf len ty ck tid (l ++ [new_attr t v]) -> is_bytes v' -> length v' = length v ->
  zlen v mod 4 = 0 -> zlen v < 2 ^ 16 ->
  exists buf', splice buf (len - zlen v) v' = Some buf' /\
    built buf' len ty ck tid (l ++ [new_attr t v']).
Proof.
  intros [(Hl & Ht & -> & Hn & rest & ->) Hcap] Hv' Hlen Hv4 Hv16.
  assert (forall w, length w = length v -> enc_attrs (l ++ [new_attr t w])
      = enc_attrs l ++ (be_bytes 2 t ++ be_bytes 2 (zlen v)) ++ w) as Henc.
  { intros w Hw. rewrite enc_attrs_app. cbn [enc_attrs]. rewrite app_nil_r, new_attr_enc, Hw.
    replace (- zlen v mod 4) with 0 by zlia. by rewrite app_nil_r, <- (assoc_L (++)). }
  assert (zlen (enc_attrs (l ++ [new_attr t v'])) = zlen (enc_attrs (l ++ [new_attr t v]))) as Hel
    by (rewrite !Henc by done; len_lia).
  exists (msg ty ck tid (l ++ [new_attr t v']) ++ rest). split.
  - unfold msg, msg_len. rewrite Hel, !Henc by done.
    rewrite !(assoc_L (++)), <- !(assoc_L (++) _ _ rest). apply splice_app; [|done].
    autorewrite with lens. lia.
  - split.
    + split_and!; [|done|unfold msg_len; lia|lia|by exists rest].
      apply Forall_app in Hl as [Hl _]. apply Forall_app_2; [done|]. constructor; [|done].
      apply new_attr_wf; [done|lia].
    + revert Hcap. unfold msg. autorewrite with lens. lia.
Qed.

(** ** Addresses *)

(** Translation respects address equality, for tables of Internet addresses. *)
Lemma map_public_to_private_proper m a b :
  Forall (fun p => inet_addr p.2) m -> addr_eqv a b ->
  addr_eqv (map_addr_from_public_to_private m a) (map_addr_from_public_to_private m b).
Proof.
  intros Hm Hab. pose proof (addr_eqv_weaken _ _ Hab) as Hn.
  induction Hm as [|[pub priv] m Hp _ IH]; [done|]. cbn [map_addr_from_public_to_private].
  assert (addr_eq_no_port (Some a) (Some pub) = addr_eq_no_port (Some b) (Some pub)) as ->.
  { apply eq_true_iff_eq. split; intros H.
    - change (addr_eqv_no_port b pub). transitivity a; [by symmetry|done].
    - change (addr_eqv_no_port a pub). by transitivity b. }
  destruct (addr_eq_no_port (Some b) (Some pub)) eqn:E; [|done].
  unfold addr_eqv in Hab. apply addr_eq_spec in Hab as (Ef & Ep & _).
  assert (addr_get_port (Some a) = addr_get_port (Some b)) as ->.
  { unfold addr_get_port. by rewrite Ef, Ep. }
  apply addr_eqv_refl. unfold inet_addr, addr_set_port in *. cbn in Hp. by rewrite decide_True.
Qed.

Lemma map_private_to_public_inet m a :
  mapping_ok m -> inet_addr a -> inet_addr (map_addr_from_private_to_public m a).
Proof.
  intros Hok Ha. destruct (map_private_to_public_cases m a) as [(i & p & Hi & _ & ->)|[-> _]]; [|done].
  destruct (proj1 (Forall_lookup _ _) (proj1 Hok) i p Hi) as [Hp _].
  unfold inet_addr, addr_set_port in *. by rewrite decide_True.
Qed.

Lemma map_private_to_public_wf m a :
  Forall (fun p => wf_addr p.1) m -> wf_addr a -> wf_addr (map_addr_from_private_to_public m a).
Proof.
  intros Hm Ha. destruct (map_private_to_public_cases m a) as [(i & p & Hi & _ & ->)|[-> _]]; [|done].
  pose proof (proj1 (Forall_lookup _ _) Hm i p Hi) as Hp. cbn in Hp.
  unfold addr_set_port. case_decide; [|done]. destruct Hp as (H1&_&H3&H4&H5&H6).
  exact (conj H1 (conj (nswap_range 2 _) (conj H3 (conj H4 (conj H5 H6))))).
Qed.

Lemma wire_addr_bytes a xor_ed mc tid :
  wf_addr a -> is_bytes tid -> is_bytes (wire_addr a xor_ed mc tid).
Proof.
  intros (_&_&_&_&Hb&_) Ht. unfold wire_addr, addr_mask6.
  case_decide; repeat apply Forall_app_2; try apply le_bytes_bytes; try (by repeat constructor).
  apply xor_bytes_bytes; [done|]. destruct xor_ed; [|by apply Forall_replicate].
  apply Forall_app_2; [apply le_bytes_bytes|by apply Forall_take].
Qed.

(** The attribute [stun_attr_add_addr_str] appends. *)
Definition addr_attr (t : Z) (tid : list Z) (pub : ioa_addr) : sattr :=
  new_attr t (wire_addr pub (is_xor_type t) STUN_MAGIC_COOKIE tid).

Lemma length_wire_le20 a x mc tid :
  wf_addr a -> (12 <= length tid)%nat -> 8 <= zlen (wire_addr a x mc tid) <= 20.
Proof. intros. rewrite length_wire_addr by done. case_decide; lia. Qed.

Lemma built_add_addr m buf len ty ck tid l t ca :
  built buf len ty ck tid l -> is_bytes tid ->
  wf_addr (map_addr_from_private_to_public m ca) ->
  encodable (map_addr_from_private_to_public m ca) ->
  msg_len l + 27 < MAX_STUN_MESSAGE_SIZE ->
  let new := addr_attr t tid (map_addr_from_private_to_public m ca) in
  exists buf', stun_attr_add_addr_str m buf len t ca = Some (true, buf', msg_len (l ++ [new])) /\
    built buf' (msg_len (l ++ [new])) ty ck tid (l ++ [new]).
Proof.
  intros Hb Htid Hwf Hin Hroom new. set (pub := map_addr_from_private_to_public m ca) in *.
  assert (length tid = 12%nat) as Ht by (by destruct Hb as [(_&?&_) _]).
  unfold stun_attr_add_addr_str. rewrite (is_msg_tid _ _ _ _ _ _ (proj1 Hb)). mred. fold pub.
  rewrite stun_addr_encode_wire by (try done; rewrite ?length_replicate; lia). mred.
  set (w := wire_addr _ _ _ _). rewrite decide_False by lia.
  pose proof (length_wire_le20 pub (is_xor_type t) STUN_MAGIC_COOKIE tid Hwf) as Hl. fold w in Hl.
  assert (is_bytes w) as Hw by (by apply wire_addr_bytes).
  pose proof (built_add _ _ _ _ _ _ t (w ++ drop (length w) (replicate 64 0)) (zlen w) Hb) as H.
  cbn zeta in H. rewrite Nat2Z.id, take_app_length in H. apply H; [|len_lia|lia].
  apply Forall_app_2; [done|]. apply Forall_drop, Forall_replicate. done.
Qed.

(** An address attribute, read in place. *)
Lemma get_addr_at m buf len ty ck tid l o t pub :
  is_msg buf len ty ck tid l -> (o, addr_attr t tid pub) ∈ attr_offs 20 l -> t ∈ addr_attr_types -> wf_addr pub -> inet_addr pub ->
  stun_attr_get_addr_str m buf (Some o) None
    = Some (true, map_addr_from_public_to_private m (decoded_addr pub addr_set_any)).
Proof.
  intros Hm Hel Ht Hwf Hin. assert (length tid = 12%nat) as Htid by (by destruct Hm as (_&?&_)).
  assert (0 <= t < 2 ^ 16) as Htr
    by (unfold addr_attr_types in Ht; rewrite !elem_of_cons, elem_of_nil in Ht;
        repeat destruct Ht as [->|Ht]; done).
  assert (at_type (addr_attr t tid pub) = t) as Eat by (cbn; by apply Z.mod_small).
  destruct (framed_read _ _ _ _ _ _ (is_msg_framed _ _ _ _ _ _ Hm) Hel) as (Rt & Rl & Rv & Rs & _).
  unfold stun_attr_get_addr_str. rewrite (is_msg_tid _ _ _ _ _ _ Hm), Rt, Eat. mred.
  rewrite decide_False by lia. rewrite Rv. mred. cbn [addr_attr at_val new_attr] in *.
  pose proof (length_wire_le20 pub (is_xor_type t) STUN_MAGIC_COOKIE tid Hwf).
  rewrite decide_False by lia. rewrite Rl. mred.
  by rewrite stun_addr_decode_wire by (done || lia).
Qed.

Lemma get_first_addr_read m buf len ty ck tid l1 l2 t pub :
  is_msg buf len ty ck tid (l1 ++ addr_attr t tid pub :: l2) ->
  t ∈ addr_attr_types -> Forall (fun b => at_type b <> t) l1 -> wf_addr pub -> inet_addr pub ->
  stun_attr_get_first_addr_str m buf len t None
    = Some (Some (map_addr_from_public_to_private m (decoded_addr pub addr_set_any))).
Proof.
  intros Hm Ht Hl1 Hwf Hin. pose proof (is_msg_framed _ _ _ _ _ _ Hm) as Hf.
  assert (length tid = 12%nat) as Htid by (by destruct Hm as (_&?&_)).
  assert (0 <= t < 2 ^ 16) as Htr
    by (unfold addr_attr_types in Ht; rewrite !elem_of_cons, elem_of_nil in Ht;
        repeat destruct Ht as [->|Ht]; done).
  assert (at_type (addr_attr t tid pub) = t) as Eat by (cbn; by apply Z.mod_small).
  unfold stun_attr_get_first_addr_str. rewrite (attr_search_framed _ _ _ _ _ Hf).
  rewrite attr_offs_app, search_skip.
  - cbn [attr_offs search]. set (o := 20 + zlen (enc_attrs l1)).
    assert ((o, addr_attr t tid pub) ∈ attr_offs 20 (l1 ++ addr_attr t tid pub :: l2)) as Hel
      by (apply attr_offs_elem; eauto).
    destruct (framed_read _ _ _ _ _ _ Hf Hel) as (Rt & Rl & Rv & Rs & _).
    unfold stun_attr_is_addr. rewrite Rt, Eat. mred. rewrite !bool_decide_true by done. cbn [andb].
    by rewrite (get_addr_at m _ _ _ _ _ _ _ _ _ Hm Hel) by done.
  - intros o a Hoa. pose proof (attr_offs_type _ _ _ _ Hoa) as Ha.
    assert ((o, a) ∈ attr_offs 20 (l1 ++ addr_attr t tid pub :: l2)) as Hel
      by (rewrite attr_offs_app; set_solver).
    destruct (framed_read _ _ _ _ _ _ Hf Hel) as (Rt & _).
    unfold stun_attr_is_addr. rewrite Rt. mred.
    rewrite (bool_decide_false (t = at_type a)).
    + by rewrite andb_false_r.
    + intros Heq. by apply (proj1 (List.Forall_forall _ _) Hl1 a); [apply list_elem_of_In|].
Qed.

(** Through the public/private table the address that was appended comes back. *)
Lemma first_addr_eqv m buf len ty ck tid l1 l2 t ca :
  is_msg buf len ty ck tid (l1 ++ addr_attr t tid (map_addr_from_private_to_public m ca) :: l2) ->
  t ∈ addr_attr_types -> Forall (fun b => at_type b <> t) l1 ->
  mapping_ok m -> Forall (fun p => wf_addr p.1) m -> wf_addr ca -> inet_addr ca ->
  (forall i p, m !! i = Some p -> ~ addr_eqv_no_port ca p.1) ->
  exists ca', stun_attr_get_first_addr_str m buf len t None = Some (Some ca') /\ addr_eqv ca' ca.
Proof.
  intros Hmsg Ht Hl Hok Hwfm Hwf Hin Hnp. set (pub := map_addr_from_private_to_public m ca) in *.
  assert (wf_addr pub) as Hpw by (by apply map_private_to_public_wf).
  assert (inet_addr pub) as Hpi by (by apply map_private_to_public_inet).
  eexists. split; [by eapply get_first_addr_read; [apply Hmsg|..]|].
  transitivity (map_addr_from_public_to_private m pub); [|by apply map_addr_roundtrip_aux].
  apply map_public_to_private_proper; [|by apply decoded_addr_eqv].
  destruct Hok as [Hok _]. eapply Forall_impl; [|exact Hok]. by intros p [_ ?].
Qed.

(** Appending an address attribute to a message that has none of that type and
    reading the first one back gives an equal address, through the exclusive-or
    encoding and through any consistent public/private address table. *)
Theorem stun_addr_attr_roundtrip m buf len ty ck tid l t ca :
  built buf len ty ck tid l -> is_bytes tid -> msg_len l + 27 < MAX_STUN_MESSAGE_SIZE ->
  t ∈ addr_attr_types -> Forall (fun b => at_type b <> t) l ->
  mapping_ok m -> Forall (fun p => wf_addr p.1) m -> wf_addr ca -> inet_addr ca ->
  (forall i p, m !! i = Some p -> ~ addr_eqv_no_port ca p.1) ->
  exists buf' len' ca', stun_attr_add_addr_str m buf len t ca = Some (true, buf', len') /\
    stun_attr_get_first_addr_str m buf' len' t None = Some (Some ca') /\ addr_eqv ca' ca.
Proof.
  intros Hb Htid Hroom Ht Hl Hok Hwfm Hwf Hin Hnp.
  set (pub := map_addr_from_private_to_public m ca).
  assert (wf_addr pub) as Hpw by (by apply map_private_to_public_wf).
  assert (inet_addr pub) as Hpi by (by apply map_private_to_public_inet).
  destruct (built_add_addr m _ _ _ _ _ _ t ca Hb Htid Hpw (or_intror Hpi) Hroom) as (buf' & Hadd & Hb').
  destruct (first_addr_eqv m buf' _ ty ck tid l [] t ca (proj1 Hb') Ht Hl Hok Hwfm Hwf Hin Hnp) as (ca' & H).
  by exists buf', (msg_len (l ++ [addr_attr t tid pub])), ca'.
Qed.

Lemma stun_addr_attr_roundtrip_witness :
  let m := [(v4 203 0 113 10 0, v4 10 0 0 5 0)] in
  let a := v4 10 0 0 5 49152 in
  exists buf b1 len1 a',
    stun_attr_add_addr_str m buf 20 STUN_ATTRIBUTE_XOR_MAPPED_ADDRESS a = Some (true, b1, len1) /\
    stun_attr_get_first_addr_str m b1 len1 STUN_ATTRIBUTE_XOR_MAPPED_ADDRESS None = Some (Some a') /\
    addr_eqv a' a.
Proof.
  intros m a.
  destruct (built_init Request STUN_METHOD_BINDING (replicate (Z.to_nat 65507) 0) (replicate 12 5))
    as (b0 & _ & Hb0); [rewrite length_replicate, Z2Nat.id by lia; unfold MAX_STUN_MESSAGE_SIZE; lia
    |reflexivity|unfold STUN_METHOD_BINDING; lia|].
  destruct (stun_addr_attr_roundtrip m b0 20 _ _ _ [] STUN_ATTRIBUTE_XOR_MAPPED_ADDRESS a Hb0)
    as (b1 & len1 & a' & H).
  - by repeat constructor.
  - unfold msg_len, MAX_STUN_MESSAGE_SIZE. simpl. lia.
  - by left.
  - constructor.
  - split; [by repeat constructor; vm_compute; auto|].
    intros [|i] [|j] p q; simpl; try discriminate. done.
  - constructor; [|constructor]. vm_compute; split_and?; try done; by repeat constructor.
  - vm_compute; split_and?; try done; by repeat constructor.
  - by left.
  - intros [|i] p; simpl; [|discriminate]. intros [= <-]. vm_compute. discriminate.
  - exact (ex_intro _ b0 (ex_intro _ b1 (ex_intro _ len1 (ex_intro _ a' H)))).
Defined.

(** ** Builders *)

(** A message whose length is known to be at most [k]. *)
Definition built_le (k : Z) (buf : list Z) (len ty ck : Z) (tid : list Z) (l : list sattr) : Prop :=
  built buf len ty ck tid l /\ msg_len l <= k.

Lemma built_le_add k buf len ty ck tid l t v alen :
  built_le k buf len ty ck tid l -> is_bytes v -> alen = zlen v ->
  k + alen + 7 < MAX_STUN_MESSAGE_SIZE ->
  exists buf' len', stun_attr_add_str buf len t (Some v) alen = Some (true, buf', len') /\
    built_le (k + alen + 7) buf' len' ty ck tid (l ++ [new_attr t v]).
Proof.
  intros [Hb Hk] Hv Ha Hroom.
  destruct (built_add_all _ _ _ _ _ _ t v alen Hb Hv Ha) as (buf' & H1 & H2); [lia|].
  exists buf', (msg_len (l ++ [new_attr t v])). split; [done|]. split; [done|].
  pose proof (msg_len_add l t v Hv). unfold MAX_STUN_MESSAGE_SIZE in *.
  assert (20 <= msg_len l) by (unfold msg_len; lia). lia.
Qed.

(** An attribute that is appended under a condition. *)
Lemma built_le_opt (b : bool) k buf len ty ck tid l t v alen :
  built_le k buf len ty ck tid l -> is_bytes v -> alen = zlen v ->
  k + alen + 7 < MAX_STUN_MESSAGE_SIZE ->
  exists buf' len',
    (if b then stun_attr_add_str buf len t (Some v) alen else Some (true, buf, len))
      = Some (true, buf', len') /\
    built_le (k + alen + 7) buf' len' ty ck tid (l ++ if b then [new_attr t v] else []).
Proof.
  intros Hb Hv Ha Hroom. destruct b; [by apply built_le_add|].
  exists buf, len. split; [done|]. rewrite app_nil_r. destruct Hb as [? ?]. split; [done|lia].
Qed.

(** [build_opt] runs the next conditional append of a builder on the message [H]. *)
Ltac build_opt H b :=
  let buf := fresh "buf" in let len := fresh "len" in let E := fresh "E" in let H' := fresh "Hb" in
  match goal with
  | |- context [add_then (if b then stun_attr_add_str ?bf ?ln ?t (Some ?v) ?a else _) _] =>
    destruct (built_le_opt b _ _ _ _ _ _ _ t v a H) as (buf & len & E & H');
      [solve_bytes
      |by rewrite ?length_le_bytes|unfold MAX_STUN_MESSAGE_SIZE; lia|];
    rewrite E; clear E; unfold add_then at 1; mred; clear H; rename H' into H
  end.

Lemma nswap_le_bytes_be n v : le_bytes n (nswap n v) = be_bytes n v.
Proof. apply le_bytes_nswap. Qed.

(** What a client's Allocate request says. *)
Definition allocate_request_attrs (lifetime : Z) (af4 af6 : bool) (transport : Z) (mobile : bool)
    (rt : option (list Z)) (ep : Z) : list sattr :=
  [new_attr STUN_ATTRIBUTE_REQUESTED_TRANSPORT [transport; 0; 0; 0];
   new_attr STUN_ATTRIBUTE_LIFETIME
     (be_bytes 4 (if decide (lifetime < 1) then STUN_DEFAULT_ALLOCATE_LIFETIME else lifetime))] ++
  (if mobile then [new_attr STUN_ATTRIBUTE_MOBILITY_TICKET []] else []) ++
  (if bool_decide (ep > -1) then
     [new_attr STUN_ATTRIBUTE_EVEN_PORT [if decide (ep = 0) then 0x00 else 0x80]] else []) ++
  match rt with
  | Some rt => [new_attr STUN_ATTRIBUTE_RESERVATION_TOKEN (take 8 rt)]
  | None =>
    (if af4 && negb af6 then
       [new_attr STUN_ATTRIBUTE_REQUESTED_ADDRESS_FAMILY [FAMILY_VALUE_IPV4; 0; 0; 0]] else []) ++
    (if af6 && negb af4 then
       [new_attr STUN_ATTRIBUTE_REQUESTED_ADDRESS_FAMILY [FAMILY_VALUE_IPV6; 0; 0; 0]] else []) ++
    (if af4 && af6 then
       [new_attr STUN_ATTRIBUTE_ADDITIONAL_ADDRESS_FAMILY [FAMILY_VALUE_IPV6; 0; 0; 0]] else [])
  end.

Lemma is_msg_is_command c m buf len tid l :
  is_msg buf len (make_class c m) STUN_MAGIC_COOKIE tid l -> 0 <= m < 4096 ->
  stun_is_command_message_str buf len = Some true /\ stun_get_method_str buf len = Some m.
Proof.
  intros (Hl & _ & -> & Hn & rest & ->) Hm. unfold msg, msg_len. rewrite <- (assoc_L (++)).
  pose proof (enc_attrs_mod4 l Hl). split.
  - apply hdr_is_command; try done; lia.
  - apply hdr_get_method; try done; lia.
Qed.

Lemma is_msg_eq buf len ty ck tid l l' :
  l = l' -> is_msg buf len ty ck tid l -> is_msg buf len ty ck tid l'.
Proof. by intros ->. Qed.

Lemma allocate_request_read buf len tid lifetime af4 af6 transport mobile rt ep :
  0 <= lifetime < 2 ^ 32 ->
  let l := allocate_request_attrs lifetime af4 af6 transport mobile rt ep in
  is_msg buf len (stun_make_request STUN_METHOD_ALLOCATE) STUN_MAGIC_COOKIE tid l ->
  is_msg buf len (stun_make_request STUN_METHOD_ALLOCATE) STUN_MAGIC_COOKIE tid l /\
  stun_is_command_message_str buf len = Some true /\
  stun_get_method_str buf len = Some STUN_METHOD_ALLOCATE /\
  exists o, stun_attr_get_first_by_type_str buf len STUN_ATTRIBUTE_LIFETIME = Some (Some o) /\
    ld32 buf (o + 4) = Some (nswap32 (if decide (lifetime < 1) then 600 else lifetime)).
Proof.
  intros Hlt l Hm. split; [done|].
  destruct (is_msg_is_command Request STUN_METHOD_ALLOCATE _ _ _ _ Hm) as [H1 H2]; [done|].
  split; [done|]. split; [done|]. unfold l, allocate_request_attrs in Hm.
  change ([?a; ?b] ++ ?r) with ([a] ++ b :: r) in Hm.
  destruct (is_msg_read_first _ _ _ _ _ _ _ _ Hm) as (o & Ho & _ & _ & Hs).
  { by repeat constructor. }
  exists o. split; [exact Ho|]. apply ld_be. cbn [at_val new_attr] in Hs.
  by rewrite length_be_bytes in Hs.
Qed.

(** An Allocate request carries exactly the attributes its arguments ask for, in
    order: transport and lifetime always, the mobility ticket and even-port flag on
    demand, and a reservation token or the address-family attributes but never both;
    the server recognises it as a request of that method and reads the lifetime back. *)
Theorem stun_allocate_request_attrs buf lifetime af4 af6 transport mobile rt ep rnd :
  MAX_STUN_MESSAGE_SIZE <= zlen buf -> length rnd = 12%nat -> is_byte transport ->
  0 <= lifetime < 2 ^ 32 -> (forall r, rt = Some r -> is_bytes r /\ 8 <= zlen r) ->
  let l := allocate_request_attrs lifetime af4 af6 transport mobile rt ep in
  exists buf' len',
    stun_set_allocate_request_str buf lifetime af4 af6 transport mobile rt ep rnd
      = Some (true, buf', len') /\
    is_msg buf' len' (stun_make_request STUN_METHOD_ALLOCATE) STUN_MAGIC_COOKIE rnd l /\
    stun_is_command_message_str buf' len' = Some true /\
    stun_get_method_str buf' len' = Some STUN_METHOD_ALLOCATE /\
    exists o, stun_attr_get_first_by_type_str buf' len' STUN_ATTRIBUTE_LIFETIME = Some (Some o) /\
      ld32 buf' (o + 4) = Some (nswap32 (if decide (lifetime < 1) then 600 else lifetime)).
Proof.
  intros Hcap Hr Htr Hlt Hrt l.
  destruct (built_init Request STUN_METHOD_ALLOCATE buf rnd Hcap Hr) as (buf0 & E0 & Hb0); [done|].
  assert (built_le 20 buf0 20 (stun_make_request STUN_METHOD_ALLOCATE) STUN_MAGIC_COOKIE rnd [])
    as H by (split; [done|unfold msg_len; cbn; lia]). clear Hb0.
  unfold stun_set_allocate_request_str, stun_init_request_str.
  change (stun_make_request STUN_METHOD_ALLOCATE) with (make_class Request STUN_METHOD_ALLOCATE).
  rewrite E0. mred. clear E0.
  destruct (built_le_add _ _ _ _ _ _ _ STUN_ATTRIBUTE_REQUESTED_TRANSPORT
              [transport; 0; 0; 0] 4 H) as (buf1 & len1 & -> & H1);
    [solve_bytes|done|done|]. unfold add_then at 1. mred. clear H.
  rewrite le_bytes_nswap.
  destruct (built_le_add _ _ _ _ _ _ _ STUN_ATTRIBUTE_LIFETIME (be_bytes 4
              (if decide (lifetime < 1) then STUN_DEFAULT_ALLOCATE_LIFETIME else lifetime)) 4 H1)
    as (buf2 & len2 & -> & H); [apply be_bytes_bytes|by rewrite length_be_bytes|done|].
  unfold add_then at 1. mred. clear H1.
  assert ((if mobile then stun_attr_add_str buf2 len2 STUN_ATTRIBUTE_MOBILITY_TICKET (Some [0]) 0
           else Some (true, buf2, len2)) =
          (if mobile then stun_attr_add_str buf2 len2 STUN_ATTRIBUTE_MOBILITY_TICKET (Some []) 0
           else Some (true, buf2, len2))) as -> by done.
  build_opt H mobile. build_opt H (bool_decide (ep > -1)).
  destruct rt as [r|].
  - destruct (Hrt r eq_refl) as [Hrb Hrl]. destruct H as [H Hk].
    destruct (built_add _ _ _ _ _ _ STUN_ATTRIBUTE_RESERVATION_TOKEN r 8 H Hrb)
      as (buf' & -> & [H' _]); [lia|unfold MAX_STUN_MESSAGE_SIZE; lia|].
    mred. eexists _, _. split; [done|]. apply allocate_request_read; [done|].
    eapply is_msg_eq; [|exact H']. unfold allocate_request_attrs. rewrite <- !(assoc_L (++)). reflexivity.
  - build_opt H (af4 && negb af6). build_opt H (af6 && negb af4). build_opt H (af4 && af6).
    eexists _, _. split; [done|]. apply allocate_request_read; [done|].
    destruct H as [[H _] _]. eapply is_msg_eq; [|exact H].
    unfold allocate_request_attrs. rewrite <- !(assoc_L (++)). reflexivity.
Qed.

Lemma stun_allocate_request_attrs_witness :
  exists buf' len',
    stun_set_allocate_request_str (replicate (Z.to_nat 65507) 0) 777 true true 17 true None 1
      (replicate 12 5) = Some (true, buf', len') /\
    stun_get_method_str buf' len' = Some STUN_METHOD_ALLOCATE.
Proof.
  destruct (stun_allocate_request_attrs (replicate (Z.to_nat 65507) 0) 777 true true 17 true None 1
              (replicate 12 5)) as (b & n & H1 & _ & _ & H2 & _);
    [rewrite length_replicate, Z2Nat.id by lia; unfold MAX_STUN_MESSAGE_SIZE; lia
    |reflexivity|split; lia|lia|discriminate|].
  exact (ex_intro _ b (ex_intro _ n (conj H1 H2))).
Defined.

(** ** Error responses *)

Lemma strncpy_term r s :
  Forall (fun c => c <> 0) r ->
  exists b, strncpy 509 (r ++ 0 :: s) = Some b /\
    <[508%nat := 0]> b = take 508 r ++ replicate (509 - length (take 508 r)) 0.
Proof.
  intros Hr. eexists. split; [by apply strncpy_app|]. rewrite length_take.
  apply list_eq. intros i. destruct (decide (i = 508%nat)) as [->|Hi].
  - rewrite list_lookup_insert_eq by (autorewrite with lens; lia).
    rewrite lookup_app_r by (rewrite length_take; lia). rewrite length_take.
    symmetry. apply lookup_replicate. split; [done|lia].
  - rewrite list_lookup_insert_ne by done.
    destruct (decide (i < 509)%nat) as [Hlt|Hge].
    + rewrite lookup_take_lt by done. destruct (decide (i < length r)%nat) as [Hir|Hir].
      * rewrite !lookup_app_l by (rewrite ?length_take; lia). by rewrite lookup_take_lt by lia.
      * rewrite !lookup_app_r by (rewrite ?length_take; lia). rewrite length_take.
        rewrite !lookup_replicate_2 by lia. done.
    + rewrite !lookup_ge_None_2; [done|..]; rewrite ?length_app, ?length_take, ?length_replicate, ?length_take; lia.
Qed.

Lemma error_avalue_spec b0 code r s :
  Forall (fun c => c <> 0) r ->
  let txt := take 508 r in
  error_avalue b0 code (r ++ 0 :: s)
    = Some (([b0; 0; u8 (code `quot` 100); u8 (code `rem` 100)] ++ txt) ++ replicate (509 - length txt) 0,
            4 + zlen txt + (- zlen txt) mod 4).
Proof.
  intros Hr txt. unfold error_avalue. destruct (strncpy_term r s Hr) as (b & -> & Hb). mred.
  rewrite Hb. fold txt. change (drop 4 ([?a; ?b; ?c; ?d] ++ ?l)) with l.
  assert (length txt <= 508)%nat by (unfold txt; rewrite length_take; lia).
  assert (replicate (509 - length txt) 0 = 0 :: replicate (508 - length txt) 0) as ->
    by (by replace (509 - length txt)%nat with (S (508 - length txt)) by lia).
  rewrite strlen_app by by apply Forall_take. mred. do 2 f_equal.
  destruct ((4 + zlen txt) mod 4 =? 0) eqn:E; cbn [negb]; zlia.
Qed.

(** The value of the error attribute. *)
Definition error_value (b0 code : Z) (txt : list Z) : list Z :=
  ([b0; 0; u8 (code `quot` 100); u8 (code `rem` 100)] ++ txt)
  ++ replicate (Z.to_nat ((- zlen txt) mod 4)) 0.

Lemma wrap_byte x : is_byte (u8 x).
Proof. unfold is_byte. apply (wrap_range 8). lia. Qed.

Lemma built_le_error k buf len ty ck tid code r s :
  built_le k buf len ty ck tid [] -> k + 600 < MAX_STUN_MESSAGE_SIZE ->
  Forall (fun c => c <> 0) r -> is_bytes r ->
  exists avalue alen buf' len', error_avalue 0 code (r ++ 0 :: s) = Some (avalue, alen) /\
    stun_attr_add_str buf len STUN_ATTRIBUTE_ERROR_CODE (Some avalue) alen = Some (true, buf', len') /\
    built buf' len' ty ck tid [new_attr STUN_ATTRIBUTE_ERROR_CODE (error_value 0 code (take 508 r))].
Proof.
  intros [Hb Hk] Hroom Hr Hrb. rewrite error_avalue_spec by done. set (txt := take 508 r).
  assert (length txt <= 508)%nat by (unfold txt; rewrite length_take; lia).
  pose proof (Z.mod_pos_bound (- zlen txt) 4) as Hmod.
  set (av := (_ ++ txt) ++ _). set (alen := 4 + zlen txt + _).
  assert (take (Z.to_nat alen) av = error_value 0 code txt) as Ev.
  { unfold av, error_value, alen. rewrite take_app_ge by (autorewrite with lens; lia). f_equal.
    rewrite take_replicate. f_equal. autorewrite with lens. zlia. }
  assert (is_bytes av) as Hav.
  { unfold av. repeat apply Forall_app_2; [|by apply Forall_take|by apply Forall_replicate].
    repeat constructor; (apply wrap_byte || done). }
  destruct (built_add _ _ _ _ _ _ STUN_ATTRIBUTE_ERROR_CODE av alen Hb Hav) as (buf' & H1 & H2);
    [unfold alen, av; autorewrite with lens; zlia|unfold alen; zlia|].
  rewrite Ev in H1, H2. by exists av, alen, buf', (msg_len [new_attr STUN_ATTRIBUTE_ERROR_CODE (error_value 0 code txt)]).
Qed.

(** The reason sent: the default one for a null or unknown reason. *)
Definition effective_reason (code : Z) (reason : option (list Z)) : list Z :=
  match reason with
  | None => str_bytes (get_default_reason code)
  | Some r => if decide (r = str_bytes "Unknown error") then str_bytes (get_default_reason code) else r
  end.

Lemma default_reason_nonzero code : Forall (fun c => c <> 0) (str_bytes (get_default_reason code)).
Proof.
  unfold get_default_reason. repeat (case_decide; [apply (bool_decide_unpack _); vm_compute; done|]).
  apply (bool_decide_unpack _). vm_compute. done.
Qed.

Lemma error_value_code b0 code txt :
  ld8 (error_value b0 code txt) 2 = Some (u8 (code `quot` 100)) /\
  ld8 (error_value b0 code txt) 3 = Some (u8 (code `rem` 100)).
Proof.
  unfold error_value. rewrite <- (assoc_L (++)). set (t := txt ++ _).
  pose proof (ld_app 1 [b0; 0] [u8 (code `quot` 100)] (u8 (code `rem` 100) :: t) 2 eq_refl eq_refl) as H2.
  pose proof (ld_app 1 [b0; 0; u8 (code `quot` 100)] [u8 (code `rem` 100)] t 3 eq_refl eq_refl) as H3.
  cbn [le_val] in H2, H3. rewrite Z.mul_0_r, Z.add_0_r in H2, H3. done.
Qed.

Lemma error_response_read buf len m tid code txt e0 size l2 :
  0 <= m < 4096 -> 0 <= code < 25600 -> zlen txt <= 508 -> 513 <= size ->
  is_msg buf len (stun_make_error_response m) STUN_MAGIC_COOKIE tid
    (new_attr STUN_ATTRIBUTE_ERROR_CODE (error_value 0 code txt) :: l2) ->
  stun_is_error_response_str buf len (Some e0) size
    = Some (true, Some code, Some (txt ++ replicate (Z.to_nat ((- zlen txt) mod 4)) 0)).
Proof.
  intros Hm Hc Ht Hs H. pose proof (Z.mod_pos_bound (- zlen txt) 4) as Hmod.
  assert (zlen (error_value 0 code txt) = 4 + zlen txt + (- zlen txt) mod 4) as Hl
    by (unfold error_value; autorewrite with lens; lia).
  destruct (is_msg_read_first _ _ _ _ _ [] _ l2 H) as (o & Ho & Rl & Rv & Rs); [constructor|].
  cbn [at_val new_attr at_type] in Rl, Rv, Rs. unfold stun_is_error_response_str.
  assert (exists rest, buf = hdr (make_class Error m) (zlen (enc_attrs (new_attr STUN_ATTRIBUTE_ERROR_CODE
            (error_value 0 code txt) :: l2))) STUN_MAGIC_COOKIE tid ++ rest /\ 20 <= len) as (rest & -> & Hlen).
  { destruct H as (_&_&->&_&rest&->). eexists. unfold msg. rewrite <- (assoc_L (++)).
    split; [done|unfold msg_len; lia]. }
  rewrite hdr_is_channel by lia. mred. rewrite hdr_get_type by lia. mred.
  unfold IS_STUN_ERR_RESP. destruct (make_class_spec Error m Hm) as (_&->&_). cbn [Z.eqb class_bits Pos.eqb].
  change (at_type (new_attr STUN_ATTRIBUTE_ERROR_CODE _)) with STUN_ATTRIBUTE_ERROR_CODE in Ho.
  rewrite Ho. mred. rewrite Rl. mred. rewrite (decide_True (P := _ >= 4)) by lia. rewrite Rv. mred.
  rewrite decide_False by lia.
  rewrite (ld_sub 1 _ _ _ _ 2 Rs), (ld_sub 1 _ _ _ _ 3 Rs) by lia.
  destruct (error_value_code 0 code txt) as [-> ->]. mred.
  assert (u8 (code `quot` 100) * 100 + u8 (code `rem` 100) = code) as ->.
  { unfold wrap. change (2 ^ 8) with 256. rewrite !Z.mod_small; zlia. }
  rewrite (decide_True (P := size > 0)) by lia. rewrite Hl.
  destruct (decide (4 + zlen txt + (- zlen txt) mod 4 > 4)) as [Hgt|Hgt].
  - replace (Z.min _ _) with (zlen txt + (- zlen txt) mod 4) by zlia.
    rewrite (slice_sub _ _ _ _ 4 _ Rs) by lia. unfold error_value. rewrite <- (assoc_L (++)).
    rewrite slice_app_end by (autorewrite with lens; lia). done.
  - assert (zlen txt = 0) as H0 by lia. destruct txt; [done|cbn in H0; lia].
Qed.

Definition reason_ok (reason : option (list Z)) : Prop :=
  match reason with Some r => Forall (fun c => c <> 0) r /\ is_bytes r | None => True end.

Lemma effective_reason_ok code reason :
  reason_ok reason ->
  Forall (fun c => c <> 0) (effective_reason code reason) /\ is_bytes (effective_reason code reason).
Proof.
  intros Hr. unfold effective_reason. destruct reason as [r|]; [destruct Hr; case_decide|];
    eauto using default_reason_nonzero, str_bytes_bytes.
Qed.

(** Choosing the reason to send. *)
Lemma reason_choice code reason :
  reason_ok reason ->
  match (fun r => r ++ [0]) <$> reason with
  | None => Some (cstr (get_default_reason code))
  | Some r => unknown ← strcmp_eq r (cstr "Unknown error");
              Some (if (unknown : bool) then cstr (get_default_reason code) else r)
  end = Some (effective_reason code reason ++ [0]).
Proof.
  destruct reason as [r|]; [|done]. intros [Hr _]. mred.
  rewrite (strcmp_eq_spec _ _ r (str_bytes "Unknown error"))
    by first [by apply cstring_app | reflexivity].
  mred. unfold effective_reason. case_bool_decide as E.
  - by rewrite decide_True by done.
  - by rewrite decide_False by done.
Qed.

(** An error response with any reason is a message with one attribute. *)
Lemma error_built m buf code reason tid rnd :
  MAX_STUN_MESSAGE_SIZE <= zlen buf -> length rnd = 12%nat -> length tid = 12%nat -> 0 <= m < 4096 -> reason_ok reason ->
  exists buf' len',
    stun_init_error_response_str m buf code ((fun r => r ++ [0]) <$> reason) (Some tid) rnd = Some (buf', len') /\
    built_le 560 buf' len' (stun_make_error_response m) STUN_MAGIC_COOKIE tid
      [new_attr STUN_ATTRIBUTE_ERROR_CODE (error_value 0 code (take 508 (effective_reason code reason)))].
Proof.
  intros Hcap Hr Ht Hm Hre. destruct (effective_reason_ok code reason Hre) as [R1 R2].
  destruct (built_init Error m buf rnd Hcap Hr Hm) as (buf0 & E0 & Hb0).
  assert (built_le 20 buf0 20 (make_class Error m) STUN_MAGIC_COOKIE rnd [])
    as H by (split; [done|unfold msg_len; cbn; lia]).
  destruct (built_le_error _ _ _ _ _ _ code (effective_reason code reason) [] H) as (av & alen & buf1 & len1 & E1 & E2 & H1);
    [unfold MAX_STUN_MESSAGE_SIZE; lia|exact R1|exact R2|].
  destruct (built_set_tid _ _ _ _ _ _ tid H1 Ht) as (buf2 & E3 & H2).
  exists buf2, len1. split; [|split; [exact H2|]].
  - unfold stun_init_error_response_str.
    change (stun_make_error_response m) with (make_class Error m). rewrite E0. mred.
    unfold stun_init_error_response_common_str. rewrite reason_choice by done. mred.
    rewrite E1. mred. rewrite E2. mred. by rewrite E3.
  - set (txt := take 508 _). assert (length txt <= 508)%nat by (unfold txt; rewrite length_take; lia).
    assert (is_bytes (error_value 0 code txt)) as Hv.
    { unfold error_value. repeat apply Forall_app_2; [|by apply Forall_take|by apply Forall_replicate]. repeat constructor; (apply wrap_byte || done). }
    pose proof (Z.mod_pos_bound (- zlen txt) 4) as Hmod.
    assert (zlen (error_value 0 code txt) <= 516) by (unfold error_value; autorewrite with lens; zlia).
    pose proof (msg_len_add [] STUN_ATTRIBUTE_ERROR_CODE (error_value 0 code txt) Hv) as Hl. cbn [app] in Hl.
    change (msg_len []) with 20 in Hl. lia.
Qed.

(** An error response is recognised by the client, which gets the error code and
    the reason: the given one, or the default text of the code when none or an
    unknown one is given, cut to 508 bytes, then the zero bytes of the padding. *)
Theorem stun_error_response_roundtrip m buf code reason tid rnd e0 size :
  MAX_STUN_MESSAGE_SIZE <= zlen buf -> length rnd = 12%nat -> length tid = 12%nat ->
  0 <= m < 4096 -> 0 <= code < 25600 -> reason_ok reason -> 513 <= size ->
  let txt := take 508 (effective_reason code reason) in
  exists buf' len',
    stun_init_error_response_str m buf code ((fun r => r ++ [0]) <$> reason) (Some tid) rnd
      = Some (buf', len') /\
    is_msg buf' len' (stun_make_error_response m) STUN_MAGIC_COOKIE tid
      [new_attr STUN_ATTRIBUTE_ERROR_CODE (error_value 0 code txt)] /\
    stun_is_error_response_str buf' len' (Some e0) size
      = Some (true, Some code, Some (txt ++ replicate (Z.to_nat ((- zlen txt) mod 4)) 0)).
Proof.
  intros Hcap Hr Ht Hm Hc Hre Hs txt. destruct (error_built m buf code reason tid rnd Hcap Hr Ht Hm Hre) as (buf2 & len1 & E & [[H2 _] _]).
  exists buf2, len1. split_and!;
    [exact E|exact H2|apply (error_response_read _ _ m tid code txt e0 size []); try done; unfold txt; rewrite length_take; lia].
Qed.

Lemma stun_error_response_roundtrip_witness :
  exists buf len,
    stun_init_error_response_str STUN_METHOD_ALLOCATE (replicate (Z.to_nat 65507) 0) 438 None
      (Some (replicate 12 7)) (replicate 12 5) = Some (buf, len) /\
    stun_is_error_response_str buf len (Some 0) 513
      = Some (true, Some 438, Some (str_bytes "Stale Nonce" ++ [0])).
Proof.
  destruct (stun_error_response_roundtrip STUN_METHOD_ALLOCATE (replicate (Z.to_nat 65507) 0) 438
              None (replicate 12 7) (replicate 12 5) 0 513) as (b & n & H1 & _ & H2);
    [rewrite length_replicate, Z2Nat.id by lia; unfold MAX_STUN_MESSAGE_SIZE; lia
    |reflexivity|reflexivity|unfold STUN_METHOD_ALLOCATE; lia|lia|exact I|lia|].
  exact (ex_intro _ b (ex_intro _ n (conj H1 H2))).
Defined.

(** ** Channel binding *)

Lemma get_channel_at buf len ty ck tid l o ch :
  0 <= ch < 2 ^ 16 -> STUN_VALID_CHANNEL ch = true -> is_msg buf len ty ck tid l ->
  (o, new_attr STUN_ATTRIBUTE_CHANNEL_NUMBER (be_bytes 2 ch ++ [0; 0])) ∈ attr_offs 20 l ->
  stun_attr_get_channel_number buf (Some o) = Some ch.
Proof.
  intros Hch Hv Hm Hel. set (new := new_attr _ _) in *.
  destruct (framed_read _ _ _ _ _ _ (is_msg_framed _ _ _ _ _ _ Hm) Hel) as (Rt & Rl & Rv & Rs & _).
  assert (zlen (at_val new) = 4) as Hl by done. rewrite Hl in *.
  unfold stun_attr_get_channel_number. rewrite Rv. mred. rewrite decide_False by lia.
  rewrite Rl. mred. rewrite decide_True by lia.
  assert (ld16 buf (o + 4) = Some (nswap16 ch)) as ->.
  { apply ld_be. rewrite <- (Z.add_0_r (o + 4)), (slice_sub _ _ _ _ 0 (Z.of_nat 2) Rs) by lia.
    apply (slice_app [] (be_bytes 2 ch)); by rewrite ?length_be_bytes. }
  mred. by rewrite nswap_involutive, Hv by lia.
Qed.

Lemma get_first_channel_read buf len ty ck tid ch l2 :
  0 <= ch < 2 ^ 16 -> STUN_VALID_CHANNEL ch = true ->
  is_msg buf len ty ck tid (new_attr STUN_ATTRIBUTE_CHANNEL_NUMBER (be_bytes 2 ch ++ [0; 0]) :: l2) ->
  stun_attr_get_first_channel_number_str buf len = Some ch.
Proof.
  intros Hch Hv Hm. pose proof (is_msg_framed _ _ _ _ _ _ Hm) as Hf.
  set (new := new_attr _ _) in *.
  unfold stun_attr_get_first_channel_number_str.
  pose proof (attr_search_framed (fun a =>
    t ← stun_attr_get_type buf (Some a);
    if decide (t = STUN_ATTRIBUTE_CHANNEL_NUMBER) then
      ret ← stun_attr_get_channel_number buf (Some a);
      Some (if STUN_VALID_CHANNEL ret then Some ret else None)
    else Some None) buf len _ [] Hf) as E.
  assert ((20, new) ∈ attr_offs 20 (new :: l2)) as Hel by (by left).
  destruct (framed_read _ _ _ _ _ _ Hf Hel) as (Rt & Rl & Rv & Rs & _).
  assert (zlen (at_val new) = 4) as Hl by done. rewrite Hl in *.
  assert (stun_attr_get_channel_number buf (Some 20) = Some ch) as Ech by (by apply (get_channel_at buf len ty ck tid (new :: l2))).
  cbn [attr_offs search] in E. rewrite Rt in E. cbn [mbind option_bind] in E.
  rewrite (decide_True (P := at_type new = _)), Ech in E by done.
  cbn [mbind option_bind] in E. rewrite Hv in E.
  cbn [mbind option_bind] in E. destruct (stun_attr_get_first_str buf len) as [a|]; [|discriminate E].
  cbn [mbind option_bind] in *. by rewrite E.
Qed.

(** The request a client builds. *)
Lemma channel_bind_request_built m buf peer chn rnd_chn rnd :
  MAX_STUN_MESSAGE_SIZE <= zlen buf -> length rnd = 12%nat -> is_bytes rnd -> 0 <= chn < 2 ^ 16 ->
  wf_addr (map_addr_from_private_to_public m peer) -> inet_addr (map_addr_from_private_to_public m peer) ->
  exists ch buf' len', stun_set_channel_bind_request_str m buf (Some peer) chn rnd_chn rnd = Some (ch, buf', len') /\
    (STUN_VALID_CHANNEL chn = true -> ch = chn) /\ STUN_VALID_CHANNEL ch = true /\ 0 <= ch < 2 ^ 16 /\
    built buf' len' (make_class Request STUN_METHOD_CHANNEL_BIND) STUN_MAGIC_COOKIE rnd
      [new_attr STUN_ATTRIBUTE_CHANNEL_NUMBER (be_bytes 2 ch ++ [0; 0]);
       addr_attr STUN_ATTRIBUTE_XOR_PEER_ADDRESS rnd (map_addr_from_private_to_public m peer)].
Proof.
  intros Hcap Hr Hrb Hc Hpw Hpi.
  set (ch := if STUN_VALID_CHANNEL chn then chn else 0x4000 + u16 (u32 rnd_chn mod (0x7FFF - 0x4000 + 1))).
  assert (STUN_VALID_CHANNEL ch = true /\ 0 <= ch < 2 ^ 16) as [Hv Hr16].
  { unfold ch. destruct (STUN_VALID_CHANNEL chn) eqn:E; [done|].
    change (0x7FFF - 0x4000 + 1) with 16384. unfold STUN_VALID_CHANNEL, wrap.
    rewrite (Z.mod_small _ (2 ^ 16)) by zlia. 
    split; [apply bool_decide_true|]; zlia. }
  destruct (built_init Request STUN_METHOD_CHANNEL_BIND buf rnd Hcap Hr) as (b0 & E0 & H0); [done|].
  destruct (built_add_all _ _ _ _ _ _ STUN_ATTRIBUTE_CHANNEL_NUMBER (be_bytes 2 ch ++ [0; 0]) 4 H0)
    as (b1 & E1 & H1).
  { apply Forall_app_2; [apply be_bytes_bytes|by repeat constructor]. }
  { by rewrite length_app, length_be_bytes. }
  { unfold msg_len, MAX_STUN_MESSAGE_SIZE. cbn. lia. }
  destruct (built_add_addr m _ _ _ _ _ _ STUN_ATTRIBUTE_XOR_PEER_ADDRESS peer H1 Hrb Hpw (or_intror Hpi))
    as (b2 & E2 & H2).
  { change (msg_len _) with 28. unfold MAX_STUN_MESSAGE_SIZE. lia. }
  eexists ch, b2, _. split; [|split; [intros E; unfold ch; by rewrite E|split; [done|split; [done|exact H2]]]].
  unfold stun_set_channel_bind_request_str. fold ch. unfold stun_init_request_str.
  change (stun_make_request STUN_METHOD_CHANNEL_BIND)
    with (make_class Request STUN_METHOD_CHANNEL_BIND).
  rewrite E0. mred. unfold stun_attr_add_channel_number_str. rewrite le_bytes_nswap, E1. mred.
  cbn [negb]. change (default addr_set_any (Some peer)) with peer. rewrite E2. mred. done.
Qed.

(** A ChannelBind request carries the requested channel number, or one drawn from
    the range of channel numbers when the requested one is not valid, and the peer
    address: the server recognises the request and reads both back. *)
Theorem stun_channel_bind_roundtrip m buf peer chn rnd_chn rnd :
  MAX_STUN_MESSAGE_SIZE <= zlen buf -> length rnd = 12%nat -> is_bytes rnd ->
  0 <= chn < 2 ^ 16 -> mapping_ok m -> Forall (fun p => wf_addr p.1) m ->
  wf_addr peer -> inet_addr peer ->
  (forall i p, m !! i = Some p -> ~ addr_eqv_no_port peer p.1) ->
  exists ch buf' len' peer',
    stun_set_channel_bind_request_str m buf (Some peer) chn rnd_chn rnd = Some (ch, buf', len') /\
    (STUN_VALID_CHANNEL chn = true -> ch = chn) /\ STUN_VALID_CHANNEL ch = true /\
    stun_get_method_str buf' len' = Some STUN_METHOD_CHANNEL_BIND /\
    stun_attr_get_first_channel_number_str buf' len' = Some ch /\
    stun_attr_get_first_addr_str m buf' len' STUN_ATTRIBUTE_XOR_PEER_ADDRESS None = Some (Some peer') /\
    addr_eqv peer' peer.
Proof.
  intros Hcap Hr Hrb Hc Hok Hwfm Hwf Hin Hnp.
  destruct (channel_bind_request_built m buf peer chn rnd_chn rnd) as (ch & b & n & Hreq & Hch & Hv & Hr16 & [Hb _]);
    [done..|by apply map_private_to_public_wf|by apply map_private_to_public_inet|].
  destruct (first_addr_eqv m b n (make_class Request STUN_METHOD_CHANNEL_BIND) STUN_MAGIC_COOKIE rnd [new_attr STUN_ATTRIBUTE_CHANNEL_NUMBER (be_bytes 2 ch ++ [0; 0])] [] STUN_ATTRIBUTE_XOR_PEER_ADDRESS peer)
    as (peer' & Hget & Heq); try done; [by right; left|by repeat constructor|].
  exists ch, b, n, peer'. split_and!; try done.
  - by destruct (is_msg_is_command Request STUN_METHOD_CHANNEL_BIND _ _ _ _ Hb).
  - by eapply get_first_channel_read.
Qed.

Lemma stun_channel_bind_roundtrip_witness :
  let peer := v6 [0x20; 1; 0xd; 0xb8; 0; 0; 0; 0; 0; 0; 0; 0; 0; 0; 0; 0x42] 3478 in
  exists buf' len' peer',
    stun_set_channel_bind_request_str [] (replicate (Z.to_nat 65507) 0) (Some peer) 0x4001 0
      (replicate 12 5) = Some (0x4001, buf', len') /\
    stun_attr_get_first_channel_number_str buf' len' = Some 0x4001 /\
    stun_attr_get_first_addr_str [] buf' len' STUN_ATTRIBUTE_XOR_PEER_ADDRESS None
      = Some (Some peer') /\ addr_eqv peer' peer.
Proof.
  intros peer.
  destruct (stun_channel_bind_roundtrip [] (replicate (Z.to_nat 65507) 0) peer 0x4001 0
              (replicate 12 5)) as (ch & b & n & p' & H1 & H2 & _ & _ & H3 & H4).
  - rewrite length_replicate, Z2Nat.id by lia. unfold MAX_STUN_MESSAGE_SIZE. lia.
  - reflexivity.
  - by repeat constructor.
  - lia.
  - split; [constructor|]. intros [|i] j p q; discriminate.
  - constructor.
  - vm_compute; split_and?; try done; by repeat constructor.
  - by right.
  - intros [|i] p; discriminate.
  - rewrite (H2 eq_refl) in H1, H3.
    exact (ex_intro _ b (ex_intro _ n (ex_intro _ p' (conj H1 (conj H3 H4))))).
Defined.

(** ** The lifetime granted and the bandwidth *)

(** The lifetime granted for an allocation never exceeds a non-zero limit of the
    user, and without one it lies between the default minimum and the server's
    maximum; a request of 0 is granted the default. *)
Theorem stun_adjust_allocate_lifetime_bounds lifetime max_allowed max :
  0 <= lifetime < 2 ^ 32 -> STUN_MIN_ALLOCATE_LIFETIME <= max_allowed < 2 ^ 32 -> 0 <= max < 2 ^ 32 ->
  let r := stun_adjust_allocate_lifetime lifetime max_allowed max in
  (max = 0 -> STUN_MIN_ALLOCATE_LIFETIME <= r <= max_allowed) /\
  (max <> 0 -> r <= max) /\
  (max = 0 -> STUN_MIN_ALLOCATE_LIFETIME <= lifetime <= max_allowed -> r = lifetime) /\
  r <= max_allowed /\
  (r < STUN_MIN_ALLOCATE_LIFETIME -> r = max).
Proof.
  intros H1 H2 H3 r. unfold r, stun_adjust_allocate_lifetime, STUN_MIN_ALLOCATE_LIFETIME,
    STUN_DEFAULT_ALLOCATE_LIFETIME in *. repeat case_decide; lia.
Qed.

Lemma stun_adjust_allocate_lifetime_bounds_witness :
  stun_adjust_allocate_lifetime 7200 3600 1800 <= 1800.
Proof.
  destruct (stun_adjust_allocate_lifetime_bounds 7200 3600 1800)
    as (_ & H & _); [lia|unfold STUN_MIN_ALLOCATE_LIFETIME; lia|lia|].
  apply H. discriminate.
Defined.

(** A bandwidth limit written to a message and read back is rounded down to a
    multiple of 128 and then reduced modulo 2^32: the reader shifts in 32 bits, so a
    limit of 2^32 bits per second or more loses its high part although the field
    could carry it. *)
Theorem stun_bandwidth_read_back buf len ty ck tid l bps0 :
  built buf len ty ck tid l -> msg_len l + 11 < MAX_STUN_MESSAGE_SIZE -> 0 <= bps0 < 2 ^ 39 ->
  Forall (fun b => at_type b <> STUN_ATTRIBUTE_NEW_BANDWIDTH) l ->
  exists buf' len' o, stun_attr_add_bandwidth_str buf len bps0 = Some (true, buf', len') /\
    stun_attr_get_first_by_type_str buf' len' STUN_ATTRIBUTE_NEW_BANDWIDTH = Some (Some o) /\
    stun_attr_get_bandwidth buf' (Some o) = Some ((bps0 - bps0 mod 128) mod 2 ^ 32).
Proof.
  intros Hb Hroom Hbps Hl.
  destruct (built_add_all _ _ _ _ _ _ STUN_ATTRIBUTE_NEW_BANDWIDTH
              (be_bytes 4 (u32 (Z.shiftr bps0 7))) 4 Hb) as (b1 & E1 & [H1 _]);
    [apply be_bytes_bytes|by rewrite length_be_bytes|lia|].
  destruct (is_msg_read_first _ _ _ _ _ _ _ [] H1) as (o & Ho & Rl & Rv & Rs); [done|].
  cbn [new_attr at_val] in *. rewrite length_be_bytes in *.
  eexists b1, _, o. split; [|split; [exact Ho|]].
  - unfold stun_attr_add_bandwidth_str. by rewrite le_bytes_nswap, E1.
  - unfold stun_attr_get_bandwidth. rewrite Rv. mred. rewrite decide_False by lia.
    rewrite Rl. mred. rewrite decide_True by lia. rewrite (ld_be _ _ _ _ Rs). mred.
    unfold wrap. rewrite nswap_involutive by (apply Z.mod_pos_bound; lia).
    rewrite Z.shiftl_mul_pow2, Z.shiftr_div_pow2 by lia. do 2 f_equal.
    change (2 ^ 7) with 128. rewrite (Z.mod_small (bps0 / 128)) by zlia. zlia.
Qed.

Lemma stun_bandwidth_read_back_witness :
  exists b0 buf' len' o, stun_attr_add_bandwidth_str b0 20 (2 ^ 32 + 1000) = Some (true, buf', len') /\
    stun_attr_get_first_by_type_str buf' len' STUN_ATTRIBUTE_NEW_BANDWIDTH = Some (Some o) /\
    stun_attr_get_bandwidth buf' (Some o) = Some 896.
Proof.
  destruct (built_init Request STUN_METHOD_ALLOCATE (replicate (Z.to_nat 65507) 0) (replicate 12 5))
    as (b0 & _ & Hb0); [rewrite length_replicate, Z2Nat.id by lia; unfold MAX_STUN_MESSAGE_SIZE; lia
    |reflexivity|unfold STUN_METHOD_ALLOCATE; lia|].
  destruct (stun_bandwidth_read_back b0 20 _ _ _ [] (2 ^ 32 + 1000) Hb0) as (b1 & n & o & H).
  - unfold msg_len, MAX_STUN_MESSAGE_SIZE. simpl. lia.
  - lia.
  - constructor.
  - exact (ex_intro _ b0 (ex_intro _ b1 (ex_intro _ n (ex_intro _ o H)))).
Defined.
