(* ===== verification/Crc.v ===== *)
(** * The CRC-32 of the FINGERPRINT attribute: [ns_crc32] of [client/ns_turn_msg.c]

    The table-driven routine, the bit-serial definition of the same checksum, and the
    error-detection property the fingerprint relies on. *)

From S2P Require Import Prelude.

Definition CRC_MASK : Z := 0xFFFFFFFF.

Definition crctable : list Z :=
  [ 0x00000000; 0x77073096; 0xee0e612c; 0x990951ba; 0x076dc419; 0x706af48f; 0xe963a535; 0x9e6495a3;
    0x0edb8832; 0x79dcb8a4; 0xe0d5e91e; 0x97d2d988; 0x09b64c2b; 0x7eb17cbd; 0xe7b82d07; 0x90bf1d91;
    0x1db71064; 0x6ab020f2; 0xf3b97148; 0x84be41de; 0x1adad47d; 0x6ddde4eb; 0xf4d4b551; 0x83d385c7;
    0x136c9856; 0x646ba8c0; 0xfd62f97a; 0x8a65c9ec; 0x14015c4f; 0x63066cd9; 0xfa0f3d63; 0x8d080df5;
    0x3b6e20c8; 0x4c69105e; 0xd56041e4; 0xa2677172; 0x3c03e4d1; 0x4b04d447; 0xd20d85fd; 0xa50ab56b;
    0x35b5a8fa; 0x42b2986c; 0xdbbbc9d6; 0xacbcf940; 0x32d86ce3; 0x45df5c75; 0xdcd60dcf; 0xabd13d59;
    0x26d930ac; 0x51de003a; 0xc8d75180; 0xbfd06116; 0x21b4f4b5; 0x56b3c423; 0xcfba9599; 0xb8bda50f;
    0x2802b89e; 0x5f058808; 0xc60cd9b2; 0xb10be924; 0x2f6f7c87; 0x58684c11; 0xc1611dab; 0xb6662d3d;
    0x76dc4190; 0x01db7106; 0x98d220bc; 0xefd5102a; 0x71b18589; 0x06b6b51f; 0x9fbfe4a5; 0xe8b8d433;
    0x7807c9a2; 0x0f00f934; 0x9609a88e; 0xe10e9818; 0x7f6a0dbb; 0x086d3d2d; 0x91646c97; 0xe6635c01;
    0x6b6b51f4; 0x1c6c6162; 0x856530d8; 0xf262004e; 0x6c0695ed; 0x1b01a57b; 0x8208f4c1; 0xf50fc457;
    0x65b0d9c6; 0x12b7e950; 0x8bbeb8ea; 0xfcb9887c; 0x62dd1ddf; 0x15da2d49; 0x8cd37cf3; 0xfbd44c65;
    0x4db26158; 0x3ab551ce; 0xa3bc0074; 0xd4bb30e2; 0x4adfa541; 0x3dd895d7; 0xa4d1c46d; 0xd3d6f4fb;
    0x4369e96a; 0x346ed9fc; 0xad678846; 0xda60b8d0; 0x44042d73; 0x33031de5; 0xaa0a4c5f; 0xdd0d7cc9;
    0x5005713c; 0x270241aa; 0xbe0b1010; 0xc90c2086; 0x5768b525; 0x206f85b3; 0xb966d409; 0xce61e49f;
    0x5edef90e; 0x29d9c998; 0xb0d09822; 0xc7d7a8b4; 0x59b33d17; 0x2eb40d81; 0xb7bd5c3b; 0xc0ba6cad;
    0xedb88320; 0x9abfb3b6; 0x03b6e20c; 0x74b1d29a; 0xead54739; 0x9dd277af; 0x04db2615; 0x73dc1683;
    0xe3630b12; 0x94643b84; 0x0d6d6a3e; 0x7a6a5aa8; 0xe40ecf0b; 0x9309ff9d; 0x0a00ae27; 0x7d079eb1;
    0xf00f9344; 0x8708a3d2; 0x1e01f268; 0x6906c2fe; 0xf762575d; 0x806567cb; 0x196c3671; 0x6e6b06e7;
    0xfed41b76; 0x89d32be0; 0x10da7a5a; 0x67dd4acc; 0xf9b9df6f; 0x8ebeeff9; 0x17b7be43; 0x60b08ed5;
    0xd6d6a3e8; 0xa1d1937e; 0x38d8c2c4; 0x4fdff252; 0xd1bb67f1; 0xa6bc5767; 0x3fb506dd; 0x48b2364b;
    0xd80d2bda; 0xaf0a1b4c; 0x36034af6; 0x41047a60; 0xdf60efc3; 0xa867df55; 0x316e8eef; 0x4669be79;
    0xcb61b38c; 0xbc66831a; 0x256fd2a0; 0x5268e236; 0xcc0c7795; 0xbb0b4703; 0x220216b9; 0x5505262f;
    0xc5ba3bbe; 0xb2bd0b28; 0x2bb45a92; 0x5cb36a04; 0xc2d7ffa7; 0xb5d0cf31; 0x2cd99e8b; 0x5bdeae1d;
    0x9b64c2b0; 0xec63f226; 0x756aa39c; 0x026d930a; 0x9c0906a9; 0xeb0e363f; 0x72076785; 0x05005713;
    0x95bf4a82; 0xe2b87a14; 0x7bb12bae; 0x0cb61b38; 0x92d28e9b; 0xe5d5be0d; 0x7cdcefb7; 0x0bdbdf21;
    0x86d3d2d4; 0xf1d4e242; 0x68ddb3f8; 0x1fda836e; 0x81be16cd; 0xf6b9265b; 0x6fb077e1; 0x18b74777;
    0x88085ae6; 0xff0f6a70; 0x66063bca; 0x11010b5c; 0x8f659eff; 0xf862ae69; 0x616bffd3; 0x166ccf45;
    0xa00ae278; 0xd70dd2ee; 0x4e048354; 0x3903b3c2; 0xa7672661; 0xd06016f7; 0x4969474d; 0x3e6e77db;
    0xaed16a4a; 0xd9d65adc; 0x40df0b66; 0x37d83bf0; 0xa9bcae53; 0xdebb9ec5; 0x47b2cf7f; 0x30b5ffe9;
    0xbdbdf21c; 0xcabac28a; 0x53b39330; 0x24b4a3a6; 0xbad03605; 0xcdd70693; 0x54de5729; 0x23d967bf;
    0xb3667a2e; 0xc4614ab8; 0x5d681b02; 0x2a6f2b94; 0xb40bbe37; 0xc30c8ea1; 0x5a05df1b; 0x2d02ef8d ].

(** The index is the exclusive or of two bytes: it is never out of the table. *)
Definition UPDATE_CRC (crc c : Z) : Z :=
  Z.lxor (crctable !!! Z.to_nat (Z.lxor (u8 crc) (u8 c))) (Z.shiftr crc 8).

Definition ns_crc32 (buffer : list Z) (len : Z) : option Z :=
  l ← slice buffer 0 len;
  Some (u32 (Z.lnot (foldl UPDATE_CRC CRC_MASK l))).

(** ** The bit-serial definition

    One step divides by the polynomial 0xEDB88320 (reflected). *)

Definition crc_bit (c : Z) : Z :=
  if Z.odd c then Z.lxor (Z.shiftr c 1) 0xEDB88320 else Z.shiftr c 1.

Fixpoint crc_bits (n : nat) (c : Z) : Z :=
  match n with
  | O => c
  | S n => crc_bit (crc_bits n c)
  end.

Definition crc_serial (s : Z) (l : list Z) : Z := foldl (fun c b => crc_bits 8 (Z.lxor c b)) s l.

(** [solve_lxor] proves an equation between exclusive ors bit by bit. *)
Ltac solve_lxor :=
  apply Z.bits_inj'; intros ? ?; rewrite ?Z.lxor_spec;
  repeat match goal with |- context [Z.testbit ?x ?i] => destruct (Z.testbit x i) end; reflexivity.

(** ** Linearity and injectivity of a step *)

Lemma odd_lxor a b : Z.odd (Z.lxor a b) = xorb (Z.odd a) (Z.odd b).
Proof. rewrite <- !Z.bit0_odd. apply Z.lxor_spec. Qed.

Lemma crc_bit_lxor a b : crc_bit (Z.lxor a b) = Z.lxor (crc_bit a) (crc_bit b).
Proof.
  unfold crc_bit. rewrite odd_lxor, Z.shiftr_lxor.
  destruct (Z.odd a), (Z.odd b); cbn [xorb]; solve_lxor.
Qed.

Lemma crc_bits_lxor n a b : crc_bits n (Z.lxor a b) = Z.lxor (crc_bits n a) (crc_bits n b).
Proof.
  induction n as [|n IH]; cbn [crc_bits]; [done|]. by rewrite IH, crc_bit_lxor.
Qed.

Lemma crc_bits_add n m c : crc_bits (n + m) c = crc_bits n (crc_bits m c).
Proof. induction n as [|n IH]; [done|]. cbn [crc_bits Nat.add]. by rewrite IH. Qed.

Lemma crc_bit_range c : 0 <= c < 2 ^ 32 -> 0 <= crc_bit c < 2 ^ 32.
Proof.
  intros H. unfold crc_bit. rewrite Z.shiftr_div_pow2 by lia. change (2 ^ 1) with 2.
  destruct (Z.odd c); [apply lxor_range|]; zlia.
Qed.

Lemma crc_bits_range n c : 0 <= c < 2 ^ 32 -> 0 <= crc_bits n c < 2 ^ 32.
Proof. intros H. induction n; cbn [crc_bits]; [done|]. by apply crc_bit_range. Qed.

(** The top bit of the result is the low bit that was shifted out. *)
Lemma crc_bit_zero c : 0 <= c < 2 ^ 32 -> crc_bit c = 0 -> c = 0.
Proof.
  intros H. unfold crc_bit. rewrite Z.shiftr_div_pow2 by lia. change (2 ^ 1) with 2.
  destruct (Z.odd c) eqn:E.
  - intros H0%Z.lxor_eq. zlia.
  - intros H0. rewrite Zodd_even_bool in E. apply negb_false_iff, Zeven_bool_iff in E.
    destruct (Zeven_ex _ E) as [k ->]. zlia.
Qed.

Lemma crc_bits_zero n c : 0 <= c < 2 ^ 32 -> crc_bits n c = 0 -> c = 0.
Proof.
  intros Hc. induction n as [|n IH]; cbn [crc_bits]; [done|].
  intros H%crc_bit_zero; [by apply IH|]. by apply (crc_bits_range n).
Qed.

Lemma crc_bits_inj n a b :
  0 <= a < 2 ^ 32 -> 0 <= b < 2 ^ 32 -> crc_bits n a = crc_bits n b -> a = b.
Proof.
  intros Ha Hb H. apply Z.lxor_eq. apply (crc_bits_zero n); [by apply lxor_range|].
  rewrite crc_bits_lxor, H. apply Z.lxor_nilpotent.
Qed.

Lemma crc_bits_shift n x : 0 <= x -> crc_bits n (x * 2 ^ Z.of_nat n) = x.
Proof.
  intros Hx. induction n as [|n IH]; [cbn; lia|].
  replace (S n) with (n + 1)%nat by lia. rewrite crc_bits_add.
  enough (crc_bits 1 (x * 2 ^ Z.of_nat (n + 1)) = x * 2 ^ Z.of_nat n) as -> by done.
  rewrite Nat2Z.inj_add, Z.pow_add_r by lia. change (2 ^ Z.of_nat 1) with 2.
  cbn [crc_bits]. unfold crc_bit. rewrite Z.shiftr_div_pow2 by lia. change (2 ^ 1) with 2.
  rewrite Z.mul_assoc, Z.odd_mul, andb_false_r. by rewrite Z.div_mul by lia.
Qed.

(** ** The table *)

Lemma crctable_spec : checkZ 256 (fun x => crctable !!! Z.to_nat x =? crc_bits 8 x) = true.
Proof. vm_compute. reflexivity. Qed.

Lemma crc_byte_split crc : 0 <= crc -> crc = Z.lxor (u8 crc) (Z.shiftr crc 8 * 2 ^ 8).
Proof.
  intros H. unfold wrap. rewrite <- Z.land_ones, <- Z.shiftl_mul_pow2 by lia.
  apply Z.bits_inj'. intros i Hi. rewrite Z.lxor_spec, Z.land_spec, Z.shiftl_spec by lia.
  destruct (decide (i < 8)).
  - rewrite Z.ones_spec_low, (Z.testbit_neg_r _ (i - 8)) by lia. by rewrite andb_true_r, xorb_false_r.
  - rewrite Z.ones_spec_high, Z.shiftr_spec by lia. replace (i - 8 + 8) with i by lia.
    by rewrite andb_false_r, xorb_false_l.
Qed.

Lemma UPDATE_CRC_bits crc c :
  0 <= crc < 2 ^ 32 -> is_byte c -> UPDATE_CRC crc c = crc_bits 8 (Z.lxor crc c).
Proof.
  intros Hcrc Hc. unfold UPDATE_CRC. unfold is_byte in Hc. rewrite (wrap_small 8 c) by lia.
  assert (0 <= Z.lxor (u8 crc) c < 256) as Hi
    by (apply (lxor_range 8); [lia|apply wrap_range; lia|done]).
  pose proof (checkZ_spec _ _ _ crctable_spec Hi) as Ht. cbv beta in Ht. apply Z.eqb_eq in Ht.
  rewrite Ht. rewrite (crc_byte_split crc) at 3 by lia.
  replace (Z.lxor (Z.lxor (u8 crc) (Z.shiftr crc 8 * 2 ^ 8)) c)
    with (Z.lxor (Z.lxor (u8 crc) c) (Z.shiftr crc 8 * 2 ^ 8)) by solve_lxor.
  rewrite (crc_bits_lxor 8 _ (Z.shiftr _ _ * _)). f_equal. symmetry.
  apply (crc_bits_shift 8). apply Z.shiftr_nonneg. lia.
Qed.

Lemma byte_state s b : 0 <= s < 2 ^ 32 -> is_byte b -> 0 <= Z.lxor s b < 2 ^ 32.
Proof. unfold is_byte. intros. apply lxor_range; lia. Qed.

Lemma crc_serial_range s l : 0 <= s < 2 ^ 32 -> is_bytes l -> 0 <= crc_serial s l < 2 ^ 32.
Proof.
  intros Hs Hl; revert s Hs; induction Hl as [|b l Hb _ IH]; intros s Hs; [done|].
  apply IH, crc_bits_range. by apply byte_state.
Qed.

Lemma table_serial s l :
  0 <= s < 2 ^ 32 -> is_bytes l -> foldl UPDATE_CRC s l = crc_serial s l.
Proof.
  intros Hs Hl; revert s Hs; induction Hl as [|b l Hb _ IH]; intros s Hs; [done|].
  cbn [foldl crc_serial]. rewrite UPDATE_CRC_bits by done. apply IH, crc_bits_range.
  by apply byte_state.
Qed.

(** Complementing 32 bits. *)
Lemma u32_lnot x : u32 (Z.lnot x) = Z.lxor (u32 x) 0xFFFFFFFF.
Proof.
  unfold wrap. change 0xFFFFFFFF with (Z.ones 32). rewrite <- !Z.land_ones by lia.
  apply Z.bits_inj'. intros i Hi. rewrite Z.lxor_spec, !Z.land_spec, Z.lnot_spec by lia.
  by destruct (Z.testbit x i), (Z.testbit (Z.ones 32) i).
Qed.

Lemma ns_crc32_value buffer len :
  is_bytes buffer -> 0 <= len <= zlen buffer ->
  ns_crc32 buffer len
    = Some (Z.lxor (crc_serial 0xFFFFFFFF (take (Z.to_nat len) buffer)) 0xFFFFFFFF).
Proof.
  intros Hb Hlen. unfold ns_crc32. rewrite slice_val by lia. mred. f_equal.
  rewrite drop_0, u32_lnot. unfold CRC_MASK.
  rewrite table_serial by (try apply Forall_take; done || lia).
  rewrite wrap_small; [done|]. apply (crc_serial_range 0xFFFFFFFF); [lia|by apply Forall_take].
Qed.

Lemma ns_crc32_full l :
  is_bytes l -> ns_crc32 l (zlen l) = Some (Z.lxor (crc_serial 0xFFFFFFFF l) 0xFFFFFFFF).
Proof. intros H. by rewrite ns_crc32_value, Nat2Z.id, take_ge by (done || lia). Qed.

(** The table-driven checksum of [ns_crc32] is the bit-serial CRC-32: the initial
    value, then for every byte eight steps of division by the polynomial, then the
    complement; it reads exactly the first [len] bytes of the buffer. *)
Theorem ns_crc32_serial buffer len :
  is_bytes buffer -> 0 <= len <= zlen buffer ->
  ns_crc32 buffer len
    = Some (Z.lxor (crc_serial 0xFFFFFFFF (take (Z.to_nat len) buffer)) 0xFFFFFFFF).
Proof. apply ns_crc32_value. Qed.

(** The check value of the CRC-32 in common use, of the ASCII digits 1 to 9. *)
Lemma ns_crc32_serial_witness :
  ns_crc32 [49; 50; 51; 52; 53; 54; 55; 56; 57; 0] 9 = Some 0xCBF43926 /\
  Z.lxor (crc_serial 0xFFFFFFFF [49; 50; 51; 52; 53; 54; 55; 56; 57]) 0xFFFFFFFF = 0xCBF43926.
Proof.
  rewrite ns_crc32_serial; [|by repeat constructor|cbn; lia].
  split; vm_compute; reflexivity.
Defined.

(** ** Error detection *)

Lemma crc_serial_app s l1 l2 : crc_serial s (l1 ++ l2) = crc_serial (crc_serial s l1) l2.
Proof. apply foldl_app. Qed.

(** A window of bytes acts as one number added to the state. *)
Lemma crc_serial_le_val s w :
  0 <= s < 2 ^ 32 -> is_bytes w -> (length w <= 4)%nat ->
  crc_serial s w = crc_bits (8 * length w) (Z.lxor s (le_val w)).
Proof.
  intros Hs Hw; revert s Hs; induction Hw as [|b w Hb Hw IH]; intros s Hs Hl;
    [cbn; by rewrite Z.lxor_0_r|].
  change (crc_serial s (b :: w)) with (crc_serial (crc_bits 8 (Z.lxor s b)) w).
  cbn [length] in Hl |- *.
  rewrite IH by (try apply crc_bits_range; try apply byte_state; done || lia).
  replace (8 * S (length w))%nat with (8 * length w + 8)%nat by lia. rewrite crc_bits_add. f_equal.
  cbn [le_val]. unfold is_byte in Hb. pose proof (le_val_range w Hw).
  rewrite (crc_byte_split (b + 256 * le_val w)) by lia. unfold wrap.
  rewrite Z.shiftr_div_pow2 by lia. change (2 ^ 8) with 256.
  replace ((b + 256 * le_val w) mod 256) with b by zlia.
  replace ((b + 256 * le_val w) / 256) with (le_val w) by zlia.
  rewrite <- Z.lxor_assoc, (crc_bits_lxor 8 (Z.lxor s b)). f_equal. symmetry.
  apply (crc_bits_shift 8 (le_val w)). lia.
Qed.

Lemma crc_serial_inj s1 s2 l :
  0 <= s1 < 2 ^ 32 -> 0 <= s2 < 2 ^ 32 -> is_bytes l ->
  crc_serial s1 l = crc_serial s2 l -> s1 = s2.
Proof.
  intros H1 H2 Hl; revert s1 s2 H1 H2; induction Hl as [|b l Hb _ IH]; intros s1 s2 H1 H2 E; [done|].
  apply IH, crc_bits_inj in E; try apply crc_bits_range; try by apply byte_state.
  apply (f_equal (fun x => Z.lxor x b)) in E. by rewrite !lxor_cancel_r in E.
Qed.

Lemma crc_burst pre w1 w2 post :
  is_bytes pre -> is_bytes w1 -> is_bytes w2 -> is_bytes post ->
  length w1 = length w2 -> (length w1 <= 4)%nat -> w1 <> w2 ->
  exists c1 c2,
    ns_crc32 (pre ++ w1 ++ post) (zlen (pre ++ w1 ++ post)) = Some c1 /\
    ns_crc32 (pre ++ w2 ++ post) (zlen (pre ++ w2 ++ post)) = Some c2 /\ c1 <> c2.
Proof.
  intros Hp H1 H2 Hq Hl H4 Hne. rewrite !ns_crc32_full by by repeat apply Forall_app_2.
  eexists _, _. split_and!; [done..|]. intros E. apply Hne.
  apply (f_equal (fun x => Z.lxor x 0xFFFFFFFF)) in E. rewrite !lxor_cancel_r, !crc_serial_app in E.
  set (s := crc_serial 0xFFFFFFFF pre) in *.
  assert (0 <= s < 2 ^ 32) as Hs by (apply (crc_serial_range 0xFFFFFFFF); [lia|done]).
  apply (fun A B => crc_serial_inj _ _ _ A B Hq) in E; try by apply crc_serial_range.
  rewrite !crc_serial_le_val, Hl in E by (done || lia).
  assert (forall w, is_bytes w -> (length w <= 4)%nat -> 0 <= le_val w < 2 ^ 32) as Hv.
  { intros w Hw Hwl. pose proof (le_val_range w Hw).
    pose proof (Z.pow_le_mono_r 2 (8 * zlen w) 32). lia. }
  assert (0 <= le_val w1 < 2 ^ 32 /\ 0 <= le_val w2 < 2 ^ 32) as [V1 V2] by (split; apply Hv; done || lia).
  apply crc_bits_inj in E; [|by apply lxor_range..].
  apply (f_equal (Z.lxor s)) in E. rewrite <- !Z.lxor_assoc, Z.lxor_nilpotent, !Z.lxor_0_l in E.
  by rewrite <- (le_bytes_le_val w1), <- (le_bytes_le_val w2), E, Hl.
Qed.

(** The checksum detects every corruption confined to a window of four bytes:
    two messages that agree outside such a window and differ inside it have different
    checksums. *)
Theorem ns_crc32_detects_burst pre w1 w2 post :
  is_bytes pre -> is_bytes w1 -> is_bytes w2 -> is_bytes post ->
  length w1 = length w2 -> (length w1 <= 4)%nat -> w1 <> w2 ->
  exists c1 c2,
    ns_crc32 (pre ++ w1 ++ post) (zlen (pre ++ w1 ++ post)) = Some c1 /\
    ns_crc32 (pre ++ w2 ++ post) (zlen (pre ++ w2 ++ post)) = Some c2 /\ c1 <> c2.
Proof. apply crc_burst. Qed.

Lemma ns_crc32_detects_burst_witness :
  exists c1 c2, ns_crc32 [1; 2; 3; 4; 5] 5 = Some c1 /\ ns_crc32 [1; 2; 7; 4; 5] 5 = Some c2 /\ c1 <> c2.
Proof.
  by apply (ns_crc32_detects_burst [1; 2] [3] [7] [4; 5]);
    [repeat constructor..|reflexivity|cbn; lia|].
Defined.
