(* ===== verification/Fingerprint.v ===== *)
(** * The FINGERPRINT attribute: [stun_attr_add_fingerprint_str] and
    [stun_is_command_message_full_check_str] of [client/ns_turn_msg.c] *)

From S2P Require Import Prelude StunHeader StunAttr StunFields StunFieldsFacts Crc.

Definition FINGERPRINT_XOR : Z := 0x5354554e.

Definition stun_attr_add_fingerprint_str (buf : list Z) (len : Z) : option (bool * list Z * Z) :=
  '(ok, buf, len) ← stun_attr_add_str buf len STUN_ATTRIBUTE_FINGERPRINT (Some (le_bytes 4 0)) 4;
  if negb ok then Some (false, buf, len) else
  n ← int_chk (len - 8);
  crc32 ← ns_crc32 buf (u32 n);
  buf ← st32 buf (len - 4) (nswap32 (Z.lxor crc32 FINGERPRINT_XOR));
  Some (true, buf, len).

(** The verdict, and the variable behind the pointer [fingerprint_present], if any. *)
Definition stun_is_command_message_full_check_str (buf : list Z) (blen must_check_fingerprint : Z)
    (fingerprint_present : option Z) : option (bool * option Z) :=
  c ← stun_is_command_message_str buf blen;
  if negb c then Some (false, fingerprint_present) else
  sar ← stun_attr_get_first_by_type_str buf blen STUN_ATTRIBUTE_FINGERPRINT;
  match sar with
  | None =>
    let fingerprint_present := (fun _ => 0) <$> fingerprint_present in
    m ← stun_get_method_str buf blen;
    if decide (m = STUN_METHOD_BINDING) then Some (true, fingerprint_present)
    else Some (must_check_fingerprint =? 0, fingerprint_present)
  | Some _ =>
    alen ← stun_attr_get_len buf sar;
    if decide (alen <> 4) then Some (false, fingerprint_present) else
    fingerprint ← stun_attr_get_value buf sar;
    match fingerprint with
    | None => Some (must_check_fingerprint =? 0, fingerprint_present)
    | Some fingerprint =>
      let crc32len := u32 (fingerprint - 4) in
      f ← ld32 buf fingerprint;
      crc ← ns_crc32 buf crc32len;
      let ret := bool_decide (f = nswap32 (Z.lxor crc FINGERPRINT_XOR)) in
      Some (ret, if ret then (fun _ => 1) <$> fingerprint_present else fingerprint_present)
    end
  end.

(** ** The fingerprint of a message *)

(** The fingerprint of the bytes [p]. *)
Definition fingerprint_of (p : list Z) : Z :=
  Z.lxor (Z.lxor (crc_serial 0xFFFFFFFF p) 0xFFFFFFFF) FINGERPRINT_XOR.

Definition fingerprint_attr (p : list Z) : sattr :=
  new_attr STUN_ATTRIBUTE_FINGERPRINT (be_bytes 4 (fingerprint_of p)).

Definition no_fingerprint (l : list sattr) : Prop :=
  Forall (fun b => at_type b <> STUN_ATTRIBUTE_FINGERPRINT) l.

Lemma fingerprint_of_range p : is_bytes p -> 0 <= fingerprint_of p < 2 ^ 32.
Proof.
  intros Hp. unfold fingerprint_of, FINGERPRINT_XOR.
  apply (lxor_range 32); [lia|apply (lxor_range 32); [lia| |lia]|lia].
  apply (crc_serial_range 0xFFFFFFFF); [lia|done].
Qed.

Lemma enc_attrs_bytes l : Forall wf_attr l -> is_bytes (enc_attrs l).
Proof.
  induction 1 as [|a l Ha _ IH]; [constructor|]. destruct Ha as (_&_&Hv&_&Hp).
  cbn [enc_attrs]. unfold enc_attr. repeat apply Forall_app_2; auto using be_bytes_bytes.
Qed.

Lemma hdr_bytes ty n ck tid : is_bytes tid -> is_bytes (hdr ty n ck tid).
Proof. intros H. unfold hdr. repeat apply Forall_app_2; auto using be_bytes_bytes. Qed.

Lemma msg_prefix_bytes n ty ck tid l : is_bytes tid -> Forall wf_attr l -> is_bytes (msg_prefix n ty ck tid l).
Proof. intros. apply Forall_app_2; [by apply hdr_bytes|by apply enc_attrs_bytes]. Qed.

(** The checksum of the bytes before an attribute. *)
Lemma ns_crc32_prefix buf len ty ck tid l l2 :
  is_msg buf len ty ck tid (l ++ l2) -> is_bytes tid ->
  ns_crc32 buf (msg_len l)
    = Some (Z.lxor (crc_serial 0xFFFFFFFF (msg_prefix (len - 20) ty ck tid l)) 0xFFFFFFFF).
Proof.
  intros Hm Ht. pose proof (is_msg_prefix _ _ _ _ _ _ _ Hm) as Hp.
  assert (Forall wf_attr l) as Hl by (destruct Hm as (H & _); by apply Forall_app in H as [? _]).
  assert (length tid = 12%nat) as Ht12 by (by destruct Hm as (_&?&_)).
  pose proof (ns_crc32_full (msg_prefix (len - 20) ty ck tid l)) as Hc.
  rewrite length_msg_prefix in Hc by done. rewrite <- Hc by by apply msg_prefix_bytes.
  unfold ns_crc32. rewrite Hp.
  rewrite (slice_app_end [] (msg_prefix (len - 20) ty ck tid l)); [done|done|by rewrite length_msg_prefix].
Qed.

Lemma msg_len_fp l p : msg_len (l ++ [fingerprint_attr p]) = msg_len l + 8.
Proof.
  unfold fingerprint_attr. rewrite msg_len_snoc; [|apply be_bytes_bytes|by rewrite length_be_bytes].
  rewrite length_be_bytes. change (round4 (Z.of_nat 4)) with 4. lia.
Qed.

Lemma fingerprint_add buf len ty ck tid l :
  built buf len ty ck tid l -> is_bytes tid -> msg_len l + 11 < MAX_STUN_MESSAGE_SIZE ->
  let fp := fingerprint_attr (msg_prefix (msg_len l + 8 - 20) ty ck tid l) in
  exists buf', stun_attr_add_fingerprint_str buf len = Some (true, buf', msg_len l + 8) /\
    built buf' (msg_len l + 8) ty ck tid (l ++ [fp]).
Proof.
  intros Hb Ht Hroom fp.
  assert (20 <= msg_len l) as H20 by (unfold msg_len; lia).
  unfold stun_attr_add_fingerprint_str.
  destruct (built_add_all _ _ _ _ _ _ STUN_ATTRIBUTE_FINGERPRINT (le_bytes 4 0) 4 Hb) as (b1 & E1 & H1);
    [apply le_bytes_bytes|done|lia|].
  rewrite msg_len_snoc in * by (done || apply le_bytes_bytes).
  change (msg_len l + 4 + round4 (zlen (le_bytes 4 0))) with (msg_len l + 4 + 4) in *.
  replace (msg_len l + 4 + 4) with (msg_len l + 8) in * by lia.
  rewrite E1. mred. cbn [negb]. unfold MAX_STUN_MESSAGE_SIZE in Hroom.
  rewrite int_chk_ok by lia. mred. rewrite wrap_small by lia.
  replace (msg_len l + 8 - 8) with (msg_len l) by lia.
  rewrite (ns_crc32_prefix _ _ _ _ _ l [_] (proj1 H1) Ht). mred. rewrite st_nswap.
  destruct (built_set_last _ _ _ _ _ _ _ _ (be_bytes 4 (fingerprint_of (msg_prefix (msg_len l + 8 - 20) ty ck tid l))) H1)
    as (b2 & E2 & H2); [apply be_bytes_bytes|by rewrite length_be_bytes|done|done|].
  change (zlen (le_bytes 4 0)) with 4 in E2. unfold fingerprint_of in E2. rewrite E2. mred.
  by exists b2.
Qed.

(** The verdict on a message that ends with a fingerprint. *)
Lemma full_check_value buf len c m tid l f must fp :
  is_msg buf len (make_class c m) STUN_MAGIC_COOKIE tid
    (l ++ [new_attr STUN_ATTRIBUTE_FINGERPRINT (be_bytes 4 f)]) ->
  is_bytes tid -> 0 <= m < 4096 -> no_fingerprint l -> 0 <= f < 2 ^ 32 ->
  let ret := bool_decide (f = fingerprint_of (msg_prefix (len - 20) (make_class c m) STUN_MAGIC_COOKIE tid l)) in
  stun_is_command_message_full_check_str buf len must fp
    = Some (ret, if ret then (fun _ => 1) <$> fp else fp).
Proof.
  intros Hm Ht Hm12 Hl Hf ret. unfold stun_is_command_message_full_check_str.
  destruct (is_msg_is_command c m _ _ _ _ Hm Hm12) as [-> _]. mred. cbn [negb].
  destruct (is_msg_read_at _ _ _ _ _ _ _ [] Hm Hl) as (Ro & Rl & Rv & Rs).
  change (at_type (new_attr STUN_ATTRIBUTE_FINGERPRINT _)) with STUN_ATTRIBUTE_FINGERPRINT in Ro.
  cbn [new_attr at_val] in *. rewrite length_be_bytes in *. rewrite Ro. mred. rewrite Rl. mred.
  rewrite decide_False by lia. rewrite Rv. mred. rewrite decide_False by lia.
  rewrite (ld_be _ _ _ _ Rs). mred.
  assert (20 <= msg_len l < 2 ^ 17) as Hr.
  { destruct Hm as (_&_&_&Hn&_). rewrite enc_attrs_app, length_app in Hn. unfold msg_len. lia. }
  replace (msg_len l + 4 - 4) with (msg_len l) by lia. rewrite wrap_small by lia.
  rewrite (ns_crc32_prefix _ _ _ _ _ _ _ Hm Ht). mred.
  assert (bool_decide (nswap32 f = nswap32 (fingerprint_of
     (msg_prefix (len - 20) (make_class c m) STUN_MAGIC_COOKIE tid l))) = ret) as E.
  { apply bool_decide_ext. split; [|by intros ->]. intros H%(f_equal (nswap 4)).
    rewrite !nswap_involutive in H; [done| |done]. apply fingerprint_of_range, msg_prefix_bytes; [done|].
    by destruct Hm as [[? _]%Forall_app _]. }
  unfold fingerprint_of in E. by rewrite E.
Qed.

(** A message to which a fingerprint was added passes the check, whether or not the
    check is mandatory, and the fingerprint is reported as present. *)
Theorem stun_fingerprint_roundtrip buf len c m tid l must fp :
  built buf len (make_class c m) STUN_MAGIC_COOKIE tid l -> is_bytes tid -> 0 <= m < 4096 ->
  no_fingerprint l -> msg_len l + 11 < MAX_STUN_MESSAGE_SIZE ->
  exists buf', stun_attr_add_fingerprint_str buf len = Some (true, buf', len + 8) /\
    stun_is_command_message_full_check_str buf' (len + 8) must (Some fp) = Some (true, Some 1).
Proof.
  intros Hb Ht Hm Hl Hroom. destruct (fingerprint_add _ _ _ _ _ _ Hb Ht Hroom) as (b' & E & [H _]).
  assert (len = msg_len l) as -> by (by destruct Hb as [(_&_&?&_) _]).
  exists b'. split; [exact E|].
  rewrite (full_check_value _ _ _ _ _ _ _ must (Some fp) H) by
    first [done | apply fingerprint_of_range, msg_prefix_bytes; [done|by destruct Hb as [[? _] _]]].
  by rewrite bool_decide_true.
Qed.

Lemma stun_fingerprint_roundtrip_witness :
  exists b0 b1, stun_attr_add_fingerprint_str b0 20 = Some (true, b1, 28) /\
    stun_is_command_message_full_check_str b1 28 1 (Some 0) = Some (true, Some 1).
Proof.
  destruct (built_init Request STUN_METHOD_ALLOCATE (replicate (Z.to_nat 65507) 0) (replicate 12 5))
    as (b0 & _ & Hb0); [rewrite length_replicate, Z2Nat.id by lia; unfold MAX_STUN_MESSAGE_SIZE; lia
    |reflexivity|unfold STUN_METHOD_ALLOCATE; lia|].
  destruct (stun_fingerprint_roundtrip b0 20 Request STUN_METHOD_ALLOCATE (replicate 12 5) [] 1 0 Hb0)
    as (b1 & H).
  - by repeat constructor.
  - unfold STUN_METHOD_ALLOCATE. lia.
  - constructor.
  - unfold msg_len, MAX_STUN_MESSAGE_SIZE. simpl. lia.
  - exact (ex_intro _ b0 (ex_intro _ b1 H)).
Defined.

(** ** The check on any bytes *)

Lemma ns_crc32_fingerprint buf n :
  is_bytes buf -> 0 <= n <= zlen buf ->
  exists crc, ns_crc32 buf n = Some crc /\ Z.lxor crc FINGERPRINT_XOR = fingerprint_of (take (Z.to_nat n) buf).
Proof. intros Hb Hn. rewrite ns_crc32_value by done. by eexists. Qed.

(** The value of an attribute is compared with the fingerprint of the bytes before it. *)
Lemma fingerprint_compared v x : is_bytes v -> zlen v = 4 -> (le_val v = nswap32 x <-> v = be_bytes 4 x).
Proof.
  intros Hv Hl. split; [|by intros ->]. intros E. assert (length v = 4%nat) as Hl4 by lia.
  rewrite <- (le_bytes_le_val v Hv), E, Hl4. apply le_bytes_nswap.
Qed.

(** The verdict when there is a FINGERPRINT attribute. *)
Lemma full_check_at buf len l g o a must fp :
  is_bytes buf -> framed buf len l g -> stun_is_command_message_str buf len = Some true ->
  find_type STUN_ATTRIBUTE_FINGERPRINT (attr_offs 20 l) = Some (o, a) -> 
  let ret := bool_decide (at_val a = be_bytes 4 (fingerprint_of (take (Z.to_nat o) buf))) in
  stun_is_command_message_full_check_str buf len must fp = Some (ret, if ret then (fun _ => 1) <$> fp else fp).
Proof.
  intros Hb Hf Hc Ef ret. pose proof (get_first_by_type_framed _ _ _ _ STUN_ATTRIBUTE_FINGERPRINT Hf) as Eg. rewrite Ef in Eg.
  apply find_type_elem in Ef as [Hin _]. destruct (framed_read _ _ _ _ _ _ Hf Hin) as (_ & Rl & Rv & Rs & _).
  unfold stun_is_command_message_full_check_str. rewrite Hc. mred. cbn [negb]. rewrite Eg. mred. cbn [fst]. rewrite Rl. mred.
  assert (20 <= o) as Ho by (apply attr_offs_elem in Hin as (l1 & l2 & _ & ->); lia).
  pose proof (proj1 (slice_Some _ _ _ _) Rs) as (_ & _ & Hle & _). pose proof (slice_bytes _ _ _ _ Hb Rs) as Hv.
  assert (o < 2 ^ 32) as Ho2.
  { apply attr_offs_elem in Hin as (l1 & l2 & -> & ->). destruct Hf as (h & rest & _ & _ & (n & _ & En) & _).
    pose proof (nswap_range 2 n) as Hn. rewrite En, enc_attrs_app, !length_app in Hn. lia. }
  destruct (decide (zlen (at_val a) <> 4)) as [H4|H4].
  - unfold ret. rewrite bool_decide_false; [done|]. intros E. rewrite E, length_be_bytes in H4. lia.
  - rewrite Rv. mred. rewrite decide_False by lia. assert (zlen (at_val a) = 4) as E4 by lia. rewrite E4 in Rs.
    assert (ld32 buf (o + 4) = Some (le_val (at_val a))) as -> by (unfold ld; change (Z.of_nat 4) with 4; by rewrite Rs). mred. rewrite wrap_small by lia. replace (o + 4 - 4) with o by lia.
    destruct (ns_crc32_fingerprint buf o Hb) as (crc & -> & Ecrc); [lia|]. mred. rewrite Ecrc.
    rewrite (bool_decide_ext _ _ (fingerprint_compared (at_val a) (fingerprint_of (take (Z.to_nat o) buf)) Hv E4)). done.
Qed.

Lemma is_command_total buf len :
  is_bytes buf -> 0 <= len <= zlen buf -> exists c, stun_is_command_message_str buf len = Some c /\ (c = true -> 20 <= len).
Proof.
  intros Hb Hlen. unfold stun_is_command_message_str, command_message_cookie, STUN_HEADER_LENGTH. case_decide; [|by eexists].
  destruct (ld_is_Some 2 buf 0 Hb) as (t & -> & _); [lia..|]. mred. destruct (STUN_VALID_CHANNEL _); [by eexists|].
  destruct (ld_is_Some 1 buf 0 Hb) as (b & -> & _); [lia..|]. mred. case_decide; [|by eexists].
  destruct (ld_is_Some 4 buf 4 Hb) as (k & -> & _); [lia..|]. mred. destruct (bool_decide _); [|by eexists].
  destruct (ld_is_Some 2 buf 2 Hb) as (n & -> & _); [lia..|]. mred. repeat case_decide; eexists; (split; [done|lia]).
Qed.

(** Any bytes: they are no message, there is no FINGERPRINT, or the first one decides. *)
Lemma full_check_any buf len must fp :
  is_bytes buf -> 0 <= len <= zlen buf ->
  exists found, stun_attr_get_first_by_type_str buf len STUN_ATTRIBUTE_FINGERPRINT = Some found /\
    (stun_is_command_message_full_check_str buf len must fp = Some (false, fp) \/
     match found with
     | None => exists m, stun_get_method_str buf len = Some m /\
         stun_is_command_message_full_check_str buf len must fp = Some (bool_decide (m = STUN_METHOD_BINDING \/ must = 0), (fun _ => 0) <$> fp)
     | Some o => exists v, 20 <= o /\ o + 4 + zlen v <= len /\ slice buf (o + 4) (zlen v) = Some v /\
         let ret := bool_decide (v = be_bytes 4 (fingerprint_of (take (Z.to_nat o) buf))) in
         stun_is_command_message_full_check_str buf len must fp = Some (ret, if ret then (fun _ => 1) <$> fp else fp)
     end).
Proof.
  intros Hb Hlen.
  destruct (is_command_total buf len Hb Hlen) as (c & Hc & Hc20).
  assert (exists found, stun_attr_get_first_by_type_str buf len STUN_ATTRIBUTE_FINGERPRINT = Some found /\
    (found = None \/ exists l g o a, framed buf len l g /\ find_type STUN_ATTRIBUTE_FINGERPRINT (attr_offs 20 l) = Some (o, a) /\ found = Some o))
    as (found & Eg & Hfound).
  { destruct (framed_any buf len Hb Hlen) as [E|(l & g & Hf)].
    - exists None. split; [|by left]. unfold stun_attr_get_first_by_type_str, stun_attr_get_first_str. rewrite E. mred.
      rewrite decide_False by (unfold STUN_HEADER_LENGTH; lia). by destruct (attr_fuel len).
    - eexists. split; [exact (get_first_by_type_framed _ _ _ _ _ Hf)|]. destruct (find_type _ _) as [[o a]|] eqn:Ef; [right|by left]. by exists l, g, o, a. }
  exists found. split; [done|]. destruct c; [right|left; unfold stun_is_command_message_full_check_str; by rewrite Hc].
  destruct Hfound as [->|(l & g & o & a & Hf & Ef & ->)].
  - specialize (Hc20 eq_refl). unfold stun_is_command_message_full_check_str, stun_get_method_str. rewrite Hc, Eg. mred. cbn [negb].
    rewrite decide_False by lia. destruct (ld_is_Some 2 buf 0 Hb) as (t & -> & _); [lia..|]. mred. eexists. split; [done|].
    case_decide as Hm; [by rewrite bool_decide_true by by left|]. do 2 f_equal. case_bool_decide as Hm0; [destruct Hm0; [done|lia]|]. apply Z.eqb_neq. intros ->. apply Hm0. by right.
  - exists (at_val a). rewrite (full_check_at buf len l g o a must fp) by done. pose proof Ef as [Hin _]%find_type_elem.
    destruct (framed_read _ _ _ _ _ _ Hf Hin) as (_ & _ & _ & Rs & _). split; [apply attr_offs_elem in Hin as (l1 & l2 & _ & ->); lia|].
    split; [|done]. apply attr_offs_elem in Hin as (l1 & l2 & -> & ->). destruct Hf as (_ & _ & _ & _ & _ & _ & _ & Hle). revert Hle.
    rewrite enc_attrs_app. cbn [enc_attrs]. unfold enc_attr. intros Hle. autorewrite with lens in Hle. lia.
Qed.

(** Fingerprints of bytes that differ within four bytes differ. *)
Lemma fingerprint_burst pre w1 w2 post :
  is_bytes (pre ++ w1 ++ post) -> is_bytes w2 -> length w1 = length w2 -> (length w1 <= 4)%nat -> w1 <> w2 ->
  be_bytes 4 (fingerprint_of (pre ++ w2 ++ post)) <> be_bytes 4 (fingerprint_of (pre ++ w1 ++ post)).
Proof.
  intros (B1 & (B2 & B3)%Forall_app)%Forall_app B4 Hlen H4 Hne E.
  assert (is_bytes (pre ++ w1 ++ post) /\ is_bytes (pre ++ w2 ++ post)) as [G1 G2] by (split; by repeat apply Forall_app_2).
  apply (f_equal be_val) in E. rewrite !be_val_be_bytes, !Z.mod_small in E by (by apply fingerprint_of_range).
  unfold fingerprint_of in E. apply (f_equal (fun x => Z.lxor x FINGERPRINT_XOR)) in E. rewrite !lxor_cancel_r in E.
  destruct (crc_burst pre w1 w2 post) as (c1 & c2 & E1 & E2 & Hc); try done. rewrite !ns_crc32_full in E1, E2 by done. congruence.
Qed.

(** C33 What a change of up to four consecutive bytes can do to the check.  The bytes [good] were
    sent with their fingerprint and arrive changed inside such a window.  If the search for a
    FINGERPRINT still comes to the one that was sent, they are rejected, always.  A change of a
    length or of a type can lead the search elsewhere, and then the message is accepted only if
    no FINGERPRINT is found and none is needed, that is, the caller asked for none or the
    message reads as a Binding, or if bytes further to the front read as a FINGERPRINT with the
    right value. *)
Theorem stun_fingerprint_detects pre w1 w2 post rest must fp :
  let good := pre ++ w1 ++ post in
  let len := zlen good + 8 in
  let buf := (pre ++ w2 ++ post) ++ enc_attr (fingerprint_attr good) ++ rest in
  is_bytes good -> is_bytes w2 -> is_bytes rest -> length w1 = length w2 -> (length w1 <= 4)%nat -> w1 <> w2 ->
  exists found r fp', stun_attr_get_first_by_type_str buf len STUN_ATTRIBUTE_FINGERPRINT = Some found /\
    stun_is_command_message_full_check_str buf len must fp = Some (r, fp') /\
    match found with
    | Some o =>
      if decide (o = len - 8) then r = false /\ fp' = fp
      else r = true -> 20 <= o < len - 8 /\ slice buf (o + 4) 4 = Some (be_bytes 4 (fingerprint_of (take (Z.to_nat o) buf)))
    | None => r = true -> must = 0 \/ stun_get_method_str buf len = Some STUN_METHOD_BINDING
    end.
Proof.
  intros good len buf Hg Hw Hr Hl H4 Hne. pose proof Hg as (B1 & (B2 & B3)%Forall_app)%Forall_app.
  assert (is_bytes (pre ++ w2 ++ post)) as Hb2 by (by repeat apply Forall_app_2).
  assert (zlen (pre ++ w2 ++ post) = len - 8) as El by (unfold len, good; rewrite !length_app; lia).
  assert (enc_attr (fingerprint_attr good) = (be_bytes 2 STUN_ATTRIBUTE_FINGERPRINT ++ be_bytes 2 4) ++ be_bytes 4 (fingerprint_of good)) as Ee by reflexivity.
  assert (is_bytes buf) as Hb by (unfold buf; rewrite Ee; repeat apply Forall_app_2; auto using be_bytes_bytes).
  destruct (full_check_any buf len must fp Hb) as (found & Eg & Hcheck).
  { unfold buf. rewrite length_app, Nat2Z.inj_add, El, Ee, !length_app, !length_be_bytes. lia. }
  exists found. destruct Hcheck as [->|Hcheck].
  { exists false, fp. split; [done|]. split; [done|]. destruct found; [by case_decide|done]. }
  destruct found as [o|].
  - destruct Hcheck as (v & Ho & Hle & Hv & ->). eexists _, _. split; [done|]. split; [done|]. case_bool_decide as Hr'; [|by case_decide].
    assert (zlen v = 4) as Hv4 by (rewrite Hr'; by rewrite length_be_bytes). rewrite Hv4, Hr' in *. case_decide as Eo; [exfalso|].
    + apply (fingerprint_burst pre w1 w2 post); try done. fold good. subst o.
      assert (slice buf (len - 8 + 4) 4 = Some (be_bytes 4 (fingerprint_of good))) as Hs.
      { unfold buf. rewrite Ee, <- (assoc_L (++) (_ ++ be_bytes 2 4)), (assoc_L (++) (pre ++ w2 ++ post)). apply slice_app; [|by rewrite length_be_bytes].
        rewrite length_app, Nat2Z.inj_add, El. reflexivity. }
      rewrite Hs in Hv. apply (inj Some) in Hv. rewrite Hv. unfold buf. rewrite take_app_length'; [done|lia].
    + intros _. split; [lia|done].
  - destruct Hcheck as (m & Hm & ->). eexists _, _. split; [done|]. split; [done|]. rewrite Hm. intros [-> | ->]%bool_decide_eq_true; auto.
Qed.

(** An Allocate request for UDP.  With another transport it is rejected.  When the length of
    its attribute is changed so that the fingerprint becomes part of the value, it passes
    where no fingerprint is needed. *)
Definition example_front : list Z := hdr (make_class Request STUN_METHOD_ALLOCATE) 16 STUN_MAGIC_COOKIE (replicate 12 5) ++ be_bytes 2 STUN_ATTRIBUTE_REQUESTED_TRANSPORT ++ [0].

Lemma stun_fingerprint_detects_witness :
  let fingerprint := enc_attr (fingerprint_attr (example_front ++ [4; 17] ++ [0; 0; 0])) in
  stun_is_command_message_full_check_str ((example_front ++ [4; 6] ++ [0; 0; 0]) ++ fingerprint ++ [1]) 36 0 (Some 0) = Some (false, Some 0) /\
  exists r fp', stun_is_command_message_full_check_str ((example_front ++ [12; 17] ++ [0; 0; 0]) ++ fingerprint ++ [1]) 36 1 (Some 0) = Some (r, fp') /\
    (r = true -> 1 = 0 \/ stun_get_method_str ((example_front ++ [12; 17] ++ [0; 0; 0]) ++ fingerprint ++ [1]) 36 = Some STUN_METHOD_BINDING).
Proof.
  intros fingerprint. split.
  - destruct (stun_fingerprint_detects example_front [4; 17] [4; 6] [0; 0; 0] [1] 0 (Some 0)) as (found & r & fp' & Hfound & Hcheck & Hr);
      [apply (bool_decide_unpack _); vm_compute; exact I..|reflexivity|cbn; lia|discriminate|].
    vm_compute in Hfound. injection Hfound as <-. destruct Hr as [-> ->]. exact Hcheck.
  - destruct (stun_fingerprint_detects example_front [4; 17] [12; 17] [0; 0; 0] [1] 1 (Some 0)) as (found & r & fp' & Hfound & Hcheck & Hr);
      [apply (bool_decide_unpack _); vm_compute; exact I..|reflexivity|cbn; lia|discriminate|].
    vm_compute in Hfound. injection Hfound as <-. exists r, fp'. split; [exact Hcheck|exact Hr].
Defined.

Example example_hidden_fingerprint :
  let buf := (example_front ++ [12; 17] ++ [0; 0; 0]) ++ enc_attr (fingerprint_attr (example_front ++ [4; 17] ++ [0; 0; 0])) in
  stun_is_command_message_full_check_str buf 36 0 (Some 1) = Some (true, Some 0) /\
  stun_is_command_message_full_check_str buf 36 1 (Some 1) = Some (false, Some 0).
Proof. vm_compute. by split. Qed.
