(* ===== verification/Integrity.v ===== *)
(** * The MESSAGE-INTEGRITY attribute of [client/ns_turn_msg.c]

    OpenSSL's HMAC and message digests are the operations of the class [CryptoOps];
    the class [CryptoLaws] states what their documentation says of their results. *)

From S2P Require Import Prelude CString StunHeader StunAttr StunFields StunFieldsFacts Fingerprint.

Inductive turn_credential_type :=
  | TURN_CREDENTIALS_NONE | TURN_CREDENTIALS_LONG_TERM
  | TURN_CREDENTIALS_SHORT_TERM | TURN_CREDENTIALS_UNDEFINED.

Inductive SHATYPE :=
  | SHATYPE_ERROR | SHATYPE_SHA1 | SHATYPE_SHA256 | SHATYPE_SHA384 | SHATYPE_SHA512.

#[export] Instance turn_credential_type_eq_dec : EqDecision turn_credential_type.
Proof. solve_decision. Defined.
#[export] Instance SHATYPE_eq_dec : EqDecision SHATYPE.
Proof. solve_decision. Defined.

Definition MAXSHASIZE : Z := 128.
Definition SHA1SIZEBYTES : Z := 20.
Definition SHA256SIZEBYTES : Z := 32.
Definition SHA384SIZEBYTES : Z := 48.
Definition SHA512SIZEBYTES : Z := 64.
Definition STUN_MAX_PWD_SIZE : Z := 256.

(** [sizeof(hmackey_t)] *)
Definition HMACKEY_SIZE : Z := 64.

Definition get_hmackey_size (shatype : SHATYPE) : Z :=
  match shatype with
  | SHATYPE_SHA256 => 32
  | SHATYPE_SHA384 => 48
  | SHATYPE_SHA512 => 64
  | _ => 16
  end.

(** The [switch] of [stun_attr_add_integrity_str]. *)
Definition sha_size (shatype : SHATYPE) : Z :=
  match shatype with
  | SHATYPE_SHA256 => SHA256SIZEBYTES
  | SHATYPE_SHA384 => SHA384SIZEBYTES
  | SHATYPE_SHA512 => SHA512SIZEBYTES
  | _ => SHA1SIZEBYTES
  end.

(** [HMAC(EVP_sha..(), key, data)], [None] when it fails, and the digest that
    makes a long-term key (MD5 for SHA-1). *)
Class CryptoOps := {
  HMAC : SHATYPE -> list Z -> list Z -> option (list Z);
  EVP_Digest : SHATYPE -> list Z -> list Z
}.

Class CryptoLaws `{CryptoOps} : Prop := {
  HMAC_length t k d mac : HMAC t k d = Some mac -> zlen mac = sha_size t;
  HMAC_bytes t k d mac : HMAC t k d = Some mac -> is_bytes mac;
  EVP_Digest_length t d : zlen (EVP_Digest t d) = get_hmackey_size t;
  EVP_Digest_bytes t d : is_bytes (EVP_Digest t d)
}.

Section integrity.
Context `{CryptoOps}.

(** The inner [None] is the failure of the library call. *)
Definition stun_calculate_hmac (buf : list Z) (len : Z) (key : list Z) (keylen : Z) (shatype : SHATYPE)
    : option (option (list Z)) :=
  k ← slice key 0 keylen;
  d ← slice buf 0 len;
  Some (HMAC shatype k d).

(** The key array, or [None] inside when the allocation of the temporary string
    fails ([malloc_ok]); the bytes of the array after the digest are not read. *)
Definition stun_produce_integrity_key_str (uname realm upwd : list Z) (shatype : SHATYPE) (malloc_ok : bool)
    : option (option (list Z)) :=
  ulen ← strlen uname;
  rlen ← strlen realm;
  plen ← strlen upwd;
  let sz := ulen + 1 + rlen + 1 + plen + 1 + 10 in
  let strl := ulen + 1 + rlen + 1 + plen in
  if negb malloc_ok then Some None else
  u ← strncpy (Z.to_nat sz) uname;
  str ← splice (u ++ [0]) ulen [58];
  r ← strncpy (Z.to_nat (sz - ulen - 1)) realm;
  str ← splice str (ulen + 1) r;
  str ← splice str (ulen + 1 + rlen) [58];
  p ← strncpy (Z.to_nat (sz - ulen - 1 - rlen - 1)) upwd;
  str ← splice str (ulen + 1 + rlen + 1) p;
  str ← splice str strl [0];
  d ← slice str 0 strl;
  key ← splice (replicate (Z.to_nat HMACKEY_SIZE) 0) 0 (EVP_Digest shatype d);
  Some (Some key).

(** The uninitialised local array [hmac] is overwritten before it can be read; it
    holds zeros here. *)
Definition stun_attr_add_integrity_str (ct : turn_credential_type) (buf : list Z) (len : Z)
    (key pwd : list Z) (shatype : SHATYPE) : option (bool * list Z * Z) :=
  let shasize := sha_size shatype in
  '(ok, buf, len) ← stun_attr_add_str buf len STUN_ATTRIBUTE_MESSAGE_INTEGRITY
                      (Some (replicate (Z.to_nat MAXSHASIZE) 0)) shasize;
  if negb ok then Some (false, buf, len) else
  mac ← (if decide (ct = TURN_CREDENTIALS_SHORT_TERM) then
           n ← strlen pwd;
           stun_calculate_hmac buf (len - 4 - shasize) pwd n shatype
         else stun_calculate_hmac buf (len - 4 - shasize) key (get_hmackey_size shatype) shatype);
  match mac with
  | None => Some (false, buf, len)
  | Some mac => buf ← splice buf (len - shasize) mac; Some (true, buf, len)
  end.

(** The password array is not initialised, and not read for long-term credentials. *)
Definition stun_attr_add_integrity_by_key_str (buf : list Z) (len : Z) (uname realm key nonce : list Z)
    (shatype : SHATYPE) : option (bool * list Z * Z) :=
  ulen ← strlen uname;
  add_then (stun_attr_add_str buf len STUN_ATTRIBUTE_USERNAME (Some uname) ulen) (fun buf len =>
  nlen ← strlen nonce;
  add_then (stun_attr_add_str buf len STUN_ATTRIBUTE_NONCE (Some nonce) nlen) (fun buf len =>
  rlen ← strlen realm;
  add_then (stun_attr_add_str buf len STUN_ATTRIBUTE_REALM (Some realm) rlen) (fun buf len =>
  stun_attr_add_integrity_str TURN_CREDENTIALS_LONG_TERM buf len key [] shatype))).

Definition stun_attr_add_integrity_by_user_str (buf : list Z) (len : Z) (uname realm upwd nonce : list Z)
    (shatype : SHATYPE) (malloc_ok : bool) : option (bool * list Z * Z) :=
  key ← stun_produce_integrity_key_str uname realm upwd shatype malloc_ok;
  match key with
  | None => Some (false, buf, len)
  | Some key => stun_attr_add_integrity_by_key_str buf len uname realm key nonce shatype
  end.

Definition stun_attr_add_integrity_by_user_short_term_str (buf : list Z) (len : Z) (uname pwd : list Z)
    (shatype : SHATYPE) : option (bool * list Z * Z) :=
  ulen ← strlen uname;
  '(ok, buf, len) ← stun_attr_add_str buf len STUN_ATTRIBUTE_USERNAME (Some uname) ulen;
  if (ok : bool) then Some (false, buf, len) else
  stun_attr_add_integrity_str TURN_CREDENTIALS_SHORT_TERM buf len [] pwd shatype.

(** The [switch] on the length of the attribute: [None] is [return -1]. *)
Definition checked_sha_size (alen : Z) (shatype : SHATYPE) : option Z :=
  if decide (alen = SHA256SIZEBYTES) then
    if decide (shatype <> SHATYPE_SHA256) then None else Some SHA256SIZEBYTES
  else if decide (alen = SHA384SIZEBYTES) then
    if decide (shatype <> SHATYPE_SHA384) then None else Some SHA384SIZEBYTES
  else if decide (alen = SHA512SIZEBYTES) then
    if decide (shatype <> SHATYPE_SHA512) then None else Some SHA512SIZEBYTES
  else if decide (alen = SHA1SIZEBYTES) then
    if decide (shatype <> SHATYPE_SHA1) then None else Some SHA1SIZEBYTES
  else None.

(** The result and the buffer, whose length field is changed and put back. *)
Definition stun_check_message_integrity_by_key_str (ct : turn_credential_type) (buf : list Z) (len : Z)
    (key pwd : list Z) (shatype : SHATYPE) : option (Z * list Z) :=
  sar ← stun_attr_get_first_by_type_str buf len STUN_ATTRIBUTE_MESSAGE_INTEGRITY;
  match sar with
  | None => Some (-1, buf)
  | Some a =>
    alen ← stun_attr_get_len buf sar;
    match checked_sha_size alen shatype with
    | None => Some (-1, buf)
    | Some shasize =>
      orig_len ← stun_get_command_message_len_str buf len;
      if decide (orig_len < 0) then Some (-1, buf) else
      let new_len := a + 4 + shasize in
      if decide (new_len > orig_len) then Some (-1, buf) else
      '(ok, buf) ← stun_set_command_message_len_str buf new_len;
      if negb ok then Some (-1, buf) else
      mac ← (if decide (ct = TURN_CREDENTIALS_SHORT_TERM) then
               n ← strlen pwd;
               stun_calculate_hmac buf (new_len - 4 - shasize) pwd n shatype
             else stun_calculate_hmac buf (new_len - 4 - shasize) key (get_hmackey_size shatype) shatype);
      '(_, buf) ← stun_set_command_message_len_str buf orig_len;
      match mac with
      | None => Some (-1, buf)
      | Some mac =>
        new_hmac ← splice (replicate (Z.to_nat MAXSHASIZE) 0) 0 mac;
        let shasize := zlen mac in
        old_hmac ← stun_attr_get_value buf sar;
        match old_hmac with
        | None => Some (-1, buf)
        | Some old_hmac =>
          x ← slice buf old_hmac shasize;
          y ← slice new_hmac 0 shasize;
          Some (if decide (x <> y) then 0 else 1, buf)
        end
      end
    end
  end.

Definition stun_check_message_integrity_str (ct : turn_credential_type) (buf : list Z) (len : Z)
    (uname realm upwd : list Z) (shatype : SHATYPE) (malloc_ok : bool) : option (Z * list Z) :=
  if decide (ct = TURN_CREDENTIALS_SHORT_TERM) then
    p ← strncpy (Z.to_nat STUN_MAX_PWD_SIZE) upwd;
    stun_check_message_integrity_by_key_str ct buf len [] (p ++ [0]) shatype
  else
    key ← stun_produce_integrity_key_str uname realm upwd shatype malloc_ok;
    match key with
    | None => Some (-1, buf)
    | Some key => stun_check_message_integrity_by_key_str ct buf len key [] shatype
    end.

End integrity.
