(* ===== verification/IntegrityFacts.v ===== *)
(** * Theorems on message integrity *)

From S2P Require Import Prelude CString StunHeader StunAttr StunFields StunFieldsFacts Fingerprint Integrity.

Section facts.
Context `{CryptoLaws}.

(** The key that authenticates a message, and the arguments that hold one. *)
Definition mac_key (ct : turn_credential_type) (key pwd : list Z) (shatype : SHATYPE) : list Z :=
  if decide (ct = TURN_CREDENTIALS_SHORT_TERM) then default [] (cstring pwd)
  else take (Z.to_nat (get_hmackey_size shatype)) key.

Definition credentials_ok (ct : turn_credential_type) (key pwd : list Z) : Prop :=
  if decide (ct = TURN_CREDENTIALS_SHORT_TERM) then is_Some (cstring pwd) else zlen key = HMACKEY_SIZE.

Lemma hmackey_size_range t : 16 <= get_hmackey_size t <= 64.
Proof. destruct t; cbn; lia. Qed.

Lemma sha_size_range t : 20 <= sha_size t <= 64 /\ sha_size t mod 4 = 0.
Proof. by destruct t. Qed.

Lemma mac_choice ct buf n key pwd t :
  credentials_ok ct key pwd ->
  (if decide (ct = TURN_CREDENTIALS_SHORT_TERM) then
     k ← strlen pwd; stun_calculate_hmac buf n pwd k t
   else stun_calculate_hmac buf n key (get_hmackey_size t) t)
  = (d ← slice buf 0 n; Some (HMAC t (mac_key ct key pwd t) d)).
Proof.
  unfold credentials_ok, mac_key, stun_calculate_hmac. case_decide.
  - intros [s Hs]. unfold strlen. rewrite Hs. mred.
    destruct (cstring_Some _ _ Hs) as (s' & -> & _). by rewrite slice_prefix.
  - intros Hk. pose proof (hmackey_size_range t). unfold HMACKEY_SIZE in Hk.
    rewrite (slice_val key) by lia. by rewrite drop_0.
Qed.

Lemma checked_sha_size_Some n t s : checked_sha_size n t = Some s -> s = n /\ n = sha_size t.
Proof.
  unfold checked_sha_size. repeat case_decide; intros [= <-];
    try (by destruct t); split; try done; by destruct t.
Qed.

Lemma checked_sha_size_ok t : t <> SHATYPE_ERROR -> checked_sha_size (sha_size t) t = Some (sha_size t).
Proof. by destruct t. Qed.

Definition verdict (t : SHATYPE) (k d v : list Z) : Z :=
  match checked_sha_size (zlen v) t with
  | None => -1
  | Some _ =>
    match HMAC t k d with
    | None => -1
    | Some mac => if decide (v = mac) then 1 else 0
    end
  end.

(** ** The check on a buffer that holds a message *)

Lemma check_framed buf len l g o a ct key pwd t :
  framed buf len l g -> slice buf 2 2 = Some (be_bytes 2 (zlen (enc_attrs l ++ g))) ->
  zlen (enc_attrs l ++ g) < 2 ^ 16 -> credentials_ok ct key pwd ->
  stun_attr_get_first_by_type_str buf len STUN_ATTRIBUTE_MESSAGE_INTEGRITY = Some (Some o) ->
  (o, a) ∈ attr_offs 20 l ->
  exists bufn d, splice buf 2 (be_bytes 2 (o + zlen (at_val a) - 16)) = Some bufn /\
    slice bufn 0 o = Some d /\
    stun_check_message_integrity_by_key_str ct buf len key pwd t
      = Some (verdict t (mac_key ct key pwd t) d (at_val a), buf).
Proof.
  intros Hf H2 H16 Hc Ho Ha. destruct (framed_read _ _ _ _ _ _ Hf Ha) as (_ & Rl & Rv & Rs & Hwf).
  pose proof (framed_command_len _ _ _ _ Hf) as Hlen.
  assert (20 <= o /\ o + 4 + zlen (at_val a) <= 20 + zlen (enc_attrs l ++ g)) as [Ho20 Hoe].
  { apply attr_offs_elem in Ha as (l1 & l2 & -> & ->). split; [lia|].
    rewrite enc_attrs_app. cbn [enc_attrs]. unfold enc_attr. autorewrite with lens. lia. }
  destruct (slice_split _ _ _ _ H2) as (p & q & Hbuf & Hp & _).
  set (n0 := zlen (enc_attrs l ++ g)) in *.
  assert (forall x y, splice (p ++ be_bytes 2 x ++ q) 2 (be_bytes 2 y) = Some (p ++ be_bytes 2 y ++ q)) as Hsp
    by (intros; apply splice_app; [lia|by rewrite !length_be_bytes]).
  set (bufn := p ++ be_bytes 2 (o + zlen (at_val a) - 16) ++ q).
  assert (o <= zlen bufn) as Hob.
  { destruct (proj1 (slice_Some _ _ _ _) Rs) as (_&_&Hle&_). rewrite Hbuf in Hle.
    unfold bufn. autorewrite with lens in *. lia. }
  exists bufn, (take (Z.to_nat o) bufn). split; [by rewrite Hbuf, Hsp|]. split; [by rewrite slice_val by lia|].
  unfold stun_check_message_integrity_by_key_str. rewrite Ho. mred. rewrite Rl. mred.
  unfold verdict. destruct (checked_sha_size (zlen (at_val a)) t) as [s|] eqn:Ecs; [|done].
  apply checked_sha_size_Some in Ecs as [-> Esz]. rewrite Hlen. mred.
  rewrite decide_False by lia. rewrite decide_False by lia.
  unfold stun_set_command_message_len_str, STUN_HEADER_LENGTH.
  rewrite (decide_False (P := o + 4 + zlen (at_val a) < 20)) by lia.
  rewrite st_nswap, (wrap_small 16 (o + 4 + zlen (at_val a) - 20)) by lia. rewrite Hbuf at 1.
  replace (o + 4 + zlen (at_val a) - 20) with (o + zlen (at_val a) - 16) by lia.
  rewrite Hsp. mred. cbn [negb]. fold bufn. rewrite mac_choice by done.
  replace (o + 4 + zlen (at_val a) - 4 - zlen (at_val a)) with o by lia.
  rewrite (slice_val bufn) by lia. mred. rewrite drop_0. rewrite (decide_False (P := 20 + n0 < 20)) by lia.
  rewrite st_nswap, ?(wrap_small 16 (20 + n0 - 20)) by lia. replace (20 + n0 - 20) with n0 by lia.
  unfold bufn. rewrite Hsp, <- Hbuf. mred.
  destruct (HMAC t _ _) as [mac|] eqn:Em; [|done].
  pose proof (HMAC_length _ _ _ _ Em) as Hml. pose proof (sha_size_range t).
  rewrite splice_prefix by (rewrite length_replicate; unfold MAXSHASIZE; lia).
  mred. rewrite Rv. mred. rewrite decide_False by lia. rewrite Hml, <- Esz, Rs. mred.
  rewrite slice_prefix by lia. mred.
  by repeat case_decide.
Qed.

(** Any bytes: there is no body, or the verdict is on the first attribute, if any. *)
Lemma check_cases ct buf len key pwd t :
  is_bytes buf -> 0 <= len <= zlen buf -> credentials_ok ct key pwd ->
  stun_get_command_message_len_str buf len = Some (-1) /\ stun_check_message_integrity_by_key_str ct buf len key pwd t = Some (-1, buf) \/
  exists l g, framed buf len l g /\
    match find_type STUN_ATTRIBUTE_MESSAGE_INTEGRITY (attr_offs 20 l) with
    | None => stun_check_message_integrity_by_key_str ct buf len key pwd t = Some (-1, buf)
    | Some (o, a) => exists bufn d,
      splice buf 2 (be_bytes 2 (o + zlen (at_val a) - 16)) = Some bufn /\ slice bufn 0 o = Some d /\
      stun_check_message_integrity_by_key_str ct buf len key pwd t = Some (verdict t (mac_key ct key pwd t) d (at_val a), buf)
    end.
Proof.
  intros Hb Hlen Hc. destruct (framed_any buf len Hb Hlen) as [E|(l & g & Hf)].
  - left. split; [done|]. unfold stun_check_message_integrity_by_key_str, stun_attr_get_first_by_type_str, stun_attr_get_first_str.
    rewrite E. mred. rewrite decide_False by (unfold STUN_HEADER_LENGTH; lia). by destruct (attr_fuel len).
  - right. exists l, g. split; [done|]. pose proof (get_first_by_type_framed _ _ _ _ STUN_ATTRIBUTE_MESSAGE_INTEGRITY Hf) as Eg.
    destruct (find_type _ _) as [[o a]|] eqn:Ef; cbn [fmap option_fmap option_map fst] in Eg; [|unfold stun_check_message_integrity_by_key_str; by rewrite Eg].
    pose proof Ef as [Hin _]%find_type_elem. pose proof Hf as (_ & _ & _ & _ & (n & Hn & En) & _ & _ & Hle).
    destruct (slice_is_Some buf 2 2) as (m & Hm & Hlm); [lia..|].
    unfold ld in Hn. change (Z.of_nat 2) with 2 in Hn. rewrite Hm in Hn. injection Hn as <-.
    assert (length m = 2%nat) as Hm2 by lia. assert (is_bytes m) as Hmb by (by eapply slice_bytes).
    rewrite <- Hm2, nswap_le_val in En by done. pose proof (be_val_range m Hmb) as Hr. rewrite Hlm in Hr.
    apply (check_framed _ _ _ _ o a ct key pwd t Hf); try done; [|rewrite <- En; lia].
    rewrite Hm, <- En, <- Hm2. by rewrite be_bytes_be_val.
Qed.

Lemma check_any ct buf len key pwd t :
  is_bytes buf -> 0 <= len <= zlen buf -> credentials_ok ct key pwd ->
  stun_check_message_integrity_by_key_str ct buf len key pwd t = Some (-1, buf) \/
  exists l g o a bufn d, framed buf len l g /\ find_type STUN_ATTRIBUTE_MESSAGE_INTEGRITY (attr_offs 20 l) = Some (o, a) /\
    splice buf 2 (be_bytes 2 (o + zlen (at_val a) - 16)) = Some bufn /\ slice bufn 0 o = Some d /\
    stun_check_message_integrity_by_key_str ct buf len key pwd t = Some (verdict t (mac_key ct key pwd t) d (at_val a), buf).
Proof.
  intros Hb Hlen Hc. destruct (check_cases ct buf len key pwd t Hb Hlen Hc) as [[_ H']|(l & g & Hf & H')]; [by left|].
  destruct (find_type _ _) as [[o a]|] eqn:Ef; [|by left]. destruct H' as (bufn & d & H'). right. by exists l, g, o, a, bufn, d.
Qed.

(** On every buffer, however malformed, the integrity check stays inside it, gives
    one of its three verdicts and leaves the buffer as it was, although it rewrites
    the length field on the way. *)
Theorem stun_check_integrity_safe ct buf len key pwd t :
  is_bytes buf -> 0 <= len <= zlen buf -> credentials_ok ct key pwd ->
  exists r, stun_check_message_integrity_by_key_str ct buf len key pwd t = Some (r, buf) /\
    (r = -1 \/ r = 0 \/ r = 1).
Proof.
  intros Hb Hlen Hc. destruct (check_any ct buf len key pwd t Hb Hlen Hc) as [->|(l & g & o & a & bufn & d & _ & _ & _ & _ & ->)];
    [exists (-1); auto|].
  eexists. split; [done|]. unfold verdict. destruct (checked_sha_size _ _); [|by left].
  destruct (HMAC _ _ _); [|by left]. case_decide; auto.
Qed.

(** ** The check on a well-formed message *)

Lemma is_msg_len_field buf len ty ck tid l :
  is_msg buf len ty ck tid l -> slice buf 2 2 = Some (be_bytes 2 (zlen (enc_attrs l))).
Proof.
  intros (_&_&_&_&rest&->). unfold msg, hdr. rewrite <- !(assoc_L (++)).
  apply slice_app; by rewrite ?length_be_bytes.
Qed.

Lemma restamp_prefix buf len ty ck tid l l2 n bufn :
  is_msg buf len ty ck tid (l ++ l2) -> splice buf 2 (be_bytes 2 n) = Some bufn ->
  slice bufn 0 (msg_len l) = Some (msg_prefix n ty ck tid l).
Proof.
  intros (_&Ht&_&_&rest&->). unfold msg. rewrite enc_attrs_app, <- !(assoc_L (++)), hdr_set_len.
  intros <-%(inj Some). unfold msg_prefix. rewrite (assoc_L (++) (hdr _ _ _ _)).
  rewrite (slice_prefix (hdr ty n ck tid ++ enc_attrs l)); [done|].
  symmetry. by apply length_msg_prefix.
Qed.

Lemma check_value buf len ty ck tid l v pad l2 ct key pwd t :
  is_msg buf len ty ck tid (l ++ SAttr STUN_ATTRIBUTE_MESSAGE_INTEGRITY v pad :: l2) ->
  Forall (fun b => at_type b <> STUN_ATTRIBUTE_MESSAGE_INTEGRITY) l -> credentials_ok ct key pwd ->
  stun_check_message_integrity_by_key_str ct buf len key pwd t
    = Some (verdict t (mac_key ct key pwd t) (msg_prefix (msg_len l + zlen v - 16) ty ck tid l) v, buf).
Proof.
  intros Hm Hl Hc. set (a := SAttr _ _ _) in *. pose proof (is_msg_framed _ _ _ _ _ _ Hm) as Hf.
  destruct (is_msg_read_at _ _ _ _ _ _ a _ Hm Hl) as (Ho & _).
  destruct (check_framed _ _ _ _ (msg_len l) a ct key pwd t Hf) as (bufn & d & Hn & Hd & ->).
  - rewrite app_nil_r. by apply is_msg_len_field in Hm.
  - rewrite app_nil_r. by destruct Hm as (_&_&_&?&_).
  - done.
  - exact Ho.
  - apply attr_offs_elem. eauto.
  - rewrite (restamp_prefix _ _ _ _ _ _ _ _ _ Hm Hn) in Hd. by injection Hd as <-.
Qed.

(** Sizes of signatures: a hash has one, which no other hash has. *)
Lemma checked_sha_size_spec n t : checked_sha_size n t = if decide (t <> SHATYPE_ERROR /\ n = sha_size t) then Some n else None.
Proof.
  case_decide as H1.
  - destruct H1 as [Ht ->]. by apply checked_sha_size_ok.
  - destruct (checked_sha_size n t) as [s|] eqn:E; [|done]. destruct H1. apply checked_sha_size_Some in E as H2. split; [|by destruct H2].
    intros ->. revert E. unfold checked_sha_size. by repeat case_decide.
Qed.

(** The bytes that are signed: those before the attribute, under a length that ends with it. *)
Definition signed_bytes (buf : list Z) (o : Z) (v : list Z) : list Z :=
  take 2 buf ++ be_bytes 2 (o + zlen v - 16) ++ take (Z.to_nat (o - 4)) (drop 4 buf).

Lemma signed_bytes_spec buf o v bufn d :
  20 <= o -> splice buf 2 (be_bytes 2 (o + zlen v - 16)) = Some bufn -> slice bufn 0 o = Some d -> d = signed_bytes buf o v.
Proof.
  intros Ho Hn Hd. unfold splice in Hn. rewrite length_be_bytes in Hn. case_decide as Hle; [|done].
  change (Z.to_nat (2 + Z.of_nat 2)) with 4%nat in Hn. change (Z.to_nat 2) with 2%nat in Hn. apply (inj Some) in Hn as <-.
  apply slice_Some in Hd as (_ & _ & _ & ->). change (Z.to_nat 0) with 0%nat. rewrite drop_0. unfold signed_bytes.
  rewrite take_app, take_take, length_take, Nat.min_r by lia. f_equal. rewrite take_app, length_be_bytes. rewrite (take_ge (be_bytes _ _)) by (rewrite length_be_bytes; lia). f_equal. f_equal. lia.
Qed.

(** C31 On any bytes the integrity check gives exactly this verdict, and leaves the buffer as it
    was.  Without a body that can be read, or without a MESSAGE-INTEGRITY attribute in it, it is
    an error.  Otherwise the first such attribute counts: a value that has not the size of the
    hash is an error, as is a failure of the HMAC; and else the message is accepted if the whole
    value is the HMAC of the bytes before the attribute, with a length field that stops at its end,
    and refused if it is not.  What follows the attribute does not count. *)
Theorem stun_check_integrity_exact ct buf len key pwd t :
  is_bytes buf -> 0 <= len <= zlen buf -> credentials_ok ct key pwd ->
  stun_get_command_message_len_str buf len = Some (-1) /\ stun_check_message_integrity_by_key_str ct buf len key pwd t = Some (-1, buf) \/
  exists l g, framed buf len l g /\
    stun_check_message_integrity_by_key_str ct buf len key pwd t =
      Some (match find_type STUN_ATTRIBUTE_MESSAGE_INTEGRITY (attr_offs 20 l) with
            | None => -1
            | Some (o, a) =>
              if decide (t <> SHATYPE_ERROR /\ zlen (at_val a) = sha_size t) then
                match HMAC t (mac_key ct key pwd t) (signed_bytes buf o (at_val a)) with
                | None => -1
                | Some mac => if decide (at_val a = mac) then 1 else 0
                end
              else -1
            end, buf).
Proof.
  intros Hb Hlen Hc. destruct (check_cases ct buf len key pwd t Hb Hlen Hc) as [[E ->]|(l & g & Hf & Hcheck)]; [by left|].
  right. exists l, g. split; [done|]. destruct (find_type _ _) as [[o a]|] eqn:Ef; [|exact Hcheck].
  destruct Hcheck as (bufn & d & Hn & Hd & ->). assert (20 <= o) as Ho.
  { apply find_type_elem in Ef as [(l1 & l2 & _ & ->)%attr_offs_elem _]. lia. }
  unfold verdict. rewrite checked_sha_size_spec, (signed_bytes_spec _ _ _ _ _ Ho Hn Hd). by case_decide.
Qed.

(** ** Adding integrity *)

Lemma integrity_add buf len ty ck tid l ct key pwd t mac :
  built buf len ty ck tid l -> credentials_ok ct key pwd ->
  msg_len l + sha_size t + 7 < MAX_STUN_MESSAGE_SIZE ->
  HMAC t (mac_key ct key pwd t) (msg_prefix (msg_len l + sha_size t - 16) ty ck tid l) = Some mac ->
  exists buf', stun_attr_add_integrity_str ct buf len key pwd t
      = Some (true, buf', msg_len l + 4 + sha_size t) /\
    built buf' (msg_len l + 4 + sha_size t) ty ck tid (l ++ [new_attr STUN_ATTRIBUTE_MESSAGE_INTEGRITY mac]).
Proof.
  intros Hb Hc Hroom Hmac. destruct (sha_size_range t) as [Hr Hr4].
  unfold stun_attr_add_integrity_str.
  destruct (built_add _ _ _ _ _ _ STUN_ATTRIBUTE_MESSAGE_INTEGRITY
              (replicate (Z.to_nat MAXSHASIZE) 0) (sha_size t) Hb) as (b1 & E1 & H1).
  { by apply Forall_replicate. }
  { rewrite length_replicate. unfold MAXSHASIZE. lia. }
  { done. }
  rewrite take_replicate in E1, H1. set (z := replicate (Z.to_nat (sha_size t) `min` Z.to_nat MAXSHASIZE) 0) in E1, H1.
  assert (zlen z = sha_size t) as Hz
    by (unfold z; rewrite length_replicate; unfold MAXSHASIZE; lia).
  rewrite msg_len_snoc in E1, H1 by (lia || by apply Forall_replicate).
  rewrite Hz, round4_spec in E1, H1 by lia. replace (- sha_size t mod 4) with 0 in E1, H1 by zlia.
  rewrite Z.add_0_r in E1, H1. rewrite E1. mred. cbn [negb]. rewrite mac_choice by done.
  replace (msg_len l + 4 + sha_size t - 4 - sha_size t) with (msg_len l) by lia.
  rewrite (is_msg_prefix _ _ _ _ _ _ _ (proj1 H1)). mred.
  replace (msg_len l + 4 + sha_size t - 20) with (msg_len l + sha_size t - 16) by lia. rewrite Hmac.
  pose proof (HMAC_length _ _ _ _ Hmac). pose proof (HMAC_bytes _ _ _ _ Hmac).
  destruct (built_set_last _ _ _ _ _ _ _ _ mac H1) as (b2 & E2 & Hb2); [done|lia|by rewrite Hz|lia|].
  rewrite Hz in E2. rewrite E2. mred. by exists b2.
Qed.

(** A message signed, then possibly extended, is accepted. *)
Lemma signed_accepted buf len ty ck tid l l2 ct key pwd t mac :
  is_msg buf len ty ck tid (l ++ new_attr STUN_ATTRIBUTE_MESSAGE_INTEGRITY mac :: l2) ->
  Forall (fun b => at_type b <> STUN_ATTRIBUTE_MESSAGE_INTEGRITY) l -> credentials_ok ct key pwd ->
  t <> SHATYPE_ERROR ->
  HMAC t (mac_key ct key pwd t) (msg_prefix (msg_len l + sha_size t - 16) ty ck tid l) = Some mac ->
  stun_check_message_integrity_by_key_str ct buf len key pwd t = Some (1, buf).
Proof.
  intros Hm Hl Hc Ht Hmac. pose proof (HMAC_length _ _ _ _ Hmac) as Hlm.
  rewrite (check_value _ _ _ _ _ _ _ _ _ ct key pwd t Hm Hl Hc). unfold verdict.
  rewrite Hlm, checked_sha_size_ok, Hmac by done. by rewrite decide_True.
Qed.

(** A message signed by [stun_attr_add_integrity_str] passes the integrity check
    with the same credentials, also after a fingerprint has been added behind the
    signature, and it then passes the fingerprint check too. *)
Theorem stun_integrity_roundtrip buf len c m tid l ct key pwd t mac :
  built buf len (make_class c m) STUN_MAGIC_COOKIE tid l -> credentials_ok ct key pwd ->
  is_bytes tid -> 0 <= m < 4096 -> no_fingerprint l ->
  Forall (fun b => at_type b <> STUN_ATTRIBUTE_MESSAGE_INTEGRITY) l -> t <> SHATYPE_ERROR ->
  msg_len l + sha_size t + 15 < MAX_STUN_MESSAGE_SIZE ->
  HMAC t (mac_key ct key pwd t)
    (msg_prefix (msg_len l + sha_size t - 16) (make_class c m) STUN_MAGIC_COOKIE tid l) = Some mac ->
  exists buf1 len1 buf2 len2,
    stun_attr_add_integrity_str ct buf len key pwd t = Some (true, buf1, len1) /\
    stun_check_message_integrity_by_key_str ct buf1 len1 key pwd t = Some (1, buf1) /\
    stun_attr_add_fingerprint_str buf1 len1 = Some (true, buf2, len2) /\
    stun_check_message_integrity_by_key_str ct buf2 len2 key pwd t = Some (1, buf2) /\
    stun_is_command_message_full_check_str buf2 len2 1 (Some 0) = Some (true, Some 1).
Proof.
  intros Hb Hc Htid Hm Hnf Hl Ht Hroom Hmac.
  assert (msg_len l + sha_size t + 7 < MAX_STUN_MESSAGE_SIZE) as Hroom1 by lia.
  destruct (integrity_add _ _ _ _ _ _ _ _ _ _ _ Hb Hc Hroom1 Hmac) as (b1 & E1 & H1).
  destruct (fingerprint_add _ _ _ _ _ _ H1 Htid) as (b2 & E2 & [H2 _]).
  { destruct H1 as [(_&_&<-&_) _]. unfold MAX_STUN_MESSAGE_SIZE in *. lia. }
  exists b1, (msg_len l + 4 + sha_size t), b2, (msg_len (l ++ [new_attr STUN_ATTRIBUTE_MESSAGE_INTEGRITY mac]) + 8).
  split; [exact E1|]. split; [by eapply signed_accepted; [apply H1|..]|]. split; [exact E2|].
  pose proof H2 as H3. rewrite <- (assoc_L (++)) in H3.
  split; [by eapply signed_accepted; [exact H3|..]|].
  unfold fingerprint_attr in H2. set (p := msg_prefix _ _ _ _ _) in H2.
  assert (is_bytes p) as Hp
    by (apply msg_prefix_bytes; [done|by destruct H1 as [[? _] _]]).
  rewrite (full_check_value _ _ _ _ _ _ _ 1 (Some 0) H2).
  - by rewrite bool_decide_true.
  - done.
  - done.
  - apply Forall_app_2; [done|by constructor].
  - by apply fingerprint_of_range.
Qed.

(** ** Long-term credentials *)

Definition nonzero (s : list Z) : Prop := Forall (fun c => c <> 0) s.

Lemma strncpy_padded n l s :
  nonzero l -> (length l <= n)%nat ->
  strncpy n (l ++ 0 :: s) = Some (l ++ replicate (n - length l) 0).
Proof.
  intros Hl Hn. rewrite strncpy_app by done. f_equal. rewrite take_ge; [done|].
  rewrite length_app, length_replicate. lia.
Qed.

(** Filling the temporary string: the new bytes end where the zeros did. *)
Lemma splice_zeros pre k s o :
  o = zlen pre -> (length s <= k)%nat ->
  splice (pre ++ replicate k 0) o s = Some (pre ++ s ++ replicate (k - length s) 0).
Proof.
  intros -> Hk. rewrite splice_next by (rewrite ?length_replicate; (done || lia)).
  by rewrite drop_replicate, <- (assoc_L (++)).
Qed.

(** The text that is digested: name, realm and password separated by colons. *)
Definition credentials_text (u r p : list Z) : list Z := u ++ [58] ++ r ++ [58] ++ p.

Definition long_term_key (t : SHATYPE) (u r p : list Z) : list Z :=
  EVP_Digest t (credentials_text u r p)
  ++ replicate (Z.to_nat (HMACKEY_SIZE - get_hmackey_size t)) 0.

Lemma length_long_term_key t u r p : zlen (long_term_key t u r p) = HMACKEY_SIZE.
Proof.
  unfold long_term_key, HMACKEY_SIZE. rewrite length_app, length_replicate, Nat2Z.inj_add, EVP_Digest_length.
  pose proof (hmackey_size_range t). lia.
Qed.

Lemma produce_key u r p su sr sp t :
  nonzero u -> nonzero r -> nonzero p ->
  stun_produce_integrity_key_str (u ++ 0 :: su) (r ++ 0 :: sr) (p ++ 0 :: sp) t true
    = Some (Some (long_term_key t u r p)).
Proof.
  intros Hu Hr Hp. unfold stun_produce_integrity_key_str. rewrite !strlen_app by done. mred. cbn [negb].
  set (ul := zlen u). set (rl := zlen r). set (pl := zlen p).
  rewrite !strncpy_padded by (done || lia). mred. rewrite <- (assoc_L (++)).
  change (replicate ?a 0 ++ [0]) with (replicate a 0 ++ replicate 1 0). rewrite <- replicate_add.
  rewrite splice_zeros by (cbn; done || lia). mred. rewrite (assoc_L (++)).
  rewrite splice_next by (autorewrite with lens; cbn [length]; lia). mred.
  rewrite drop_replicate. rewrite <- !(assoc_L (++)). rewrite <- replicate_add.
  rewrite !(assoc_L (++)). rewrite splice_zeros by (autorewrite with lens; cbn [length]; lia). mred.
  rewrite (assoc_L (++)). rewrite splice_next by (autorewrite with lens; cbn [length]; lia). mred.
  rewrite drop_replicate. rewrite <- !(assoc_L (++)). rewrite <- replicate_add.
  rewrite !(assoc_L (++)). rewrite splice_zeros by (autorewrite with lens; cbn [length]; lia). mred.
  rewrite <- !(assoc_L (++)). change (u ++ [58] ++ r ++ [58] ++ p ++ ?z) with (u ++ [58] ++ r ++ [58] ++ p ++ z).
  set (z := [0] ++ _). rewrite !(assoc_L (++)). rewrite slice_prefix by (autorewrite with lens; cbn [length]; lia).
  mred. pose proof (EVP_Digest_length t (credentials_text u r p)) as Hd. pose proof (hmackey_size_range t).
  unfold credentials_text in *. rewrite <- !(assoc_L (++)).
  rewrite splice_prefix by (rewrite length_replicate; unfold HMACKEY_SIZE; lia). mred.
  unfold long_term_key, credentials_text. rewrite drop_replicate. do 4 f_equal. unfold HMACKEY_SIZE. lia.
Qed.

(** A C string appended as an attribute. *)
Lemma built_add_string buf len ty ck tid l t s rest :
  built buf len ty ck tid l -> is_bytes (s ++ 0 :: rest) ->
  msg_len l + zlen s + 7 < MAX_STUN_MESSAGE_SIZE ->
  exists buf', stun_attr_add_str buf len t (Some (s ++ 0 :: rest)) (zlen s)
      = Some (true, buf', msg_len (l ++ [new_attr t s])) /\
    built buf' (msg_len (l ++ [new_attr t s])) ty ck tid (l ++ [new_attr t s]) /\
    msg_len (l ++ [new_attr t s]) <= msg_len l + zlen s + 7.
Proof.
  intros Hb Hs Hroom.
  destruct (built_add _ _ _ _ _ _ t (s ++ 0 :: rest) (zlen s) Hb Hs) as (b & E & Hb');
    [autorewrite with lens; lia|done|].
  rewrite Nat2Z.id, take_app_length in E, Hb'. exists b. split_and!; try done.
  apply msg_len_add; [by apply Forall_app in Hs as [? _]|].
  unfold msg_len, MAX_STUN_MESSAGE_SIZE in Hroom. lia.
Qed.

(** The attributes a client signs with, before the signature. *)
Definition credential_attrs (u n r : list Z) : list sattr :=
  [new_attr STUN_ATTRIBUTE_USERNAME u; new_attr STUN_ATTRIBUTE_NONCE n; new_attr STUN_ATTRIBUTE_REALM r].

Lemma by_key_add buf len ty ck tid l u r n key t mac :
  built buf len ty ck tid l -> nonzero u -> nonzero r -> nonzero n ->
  is_bytes u -> is_bytes r -> is_bytes n -> zlen key = HMACKEY_SIZE ->
  msg_len l + zlen u + zlen r + zlen n + sha_size t + 28 < MAX_STUN_MESSAGE_SIZE ->
  let l' := l ++ credential_attrs u n r in
  HMAC t (take (Z.to_nat (get_hmackey_size t)) key) (msg_prefix (msg_len l' + sha_size t - 16) ty ck tid l')
    = Some mac ->
  exists buf' len', stun_attr_add_integrity_by_key_str buf len (u ++ [0]) (r ++ [0]) key (n ++ [0]) t
      = Some (true, buf', len') /\
    built buf' len' ty ck tid (l' ++ [new_attr STUN_ATTRIBUTE_MESSAGE_INTEGRITY mac]).
Proof.
  intros Hb Hu Hr Hn Bu Br Bn Hk Hroom l' Hmac. destruct (sha_size_range t) as [Hsz _].
  assert (forall s, is_bytes s -> is_bytes (s ++ [0])) as B0 by (intros; apply Forall_app_2; [done|by constructor]).
  unfold stun_attr_add_integrity_by_key_str. rewrite !strlen_app by done. mred.
  destruct (built_add_string _ _ _ _ _ _ STUN_ATTRIBUTE_USERNAME u [] Hb) as (b1 & -> & H1 & L1); [auto|lia|].
  unfold add_then at 1. mred.
  destruct (built_add_string _ _ _ _ _ _ STUN_ATTRIBUTE_NONCE n [] H1) as (b2 & -> & H2 & L2); [auto|lia|].
  unfold add_then at 1. mred.
  destruct (built_add_string _ _ _ _ _ _ STUN_ATTRIBUTE_REALM r [] H2) as (b3 & -> & H3 & L3); [auto|lia|].
  unfold add_then at 1. mred.
  assert (((l ++ [new_attr STUN_ATTRIBUTE_USERNAME u]) ++ [new_attr STUN_ATTRIBUTE_NONCE n])
            ++ [new_attr STUN_ATTRIBUTE_REALM r] = l') as El by (unfold l'; by rewrite <- !(assoc_L (++))).
  rewrite El in H3, L3 |- *.
  destruct (integrity_add _ _ _ _ _ _ TURN_CREDENTIALS_LONG_TERM key [] t mac H3) as (b4 & E4 & H4);
    [done|unfold MAX_STUN_MESSAGE_SIZE in *; lia|exact Hmac|].
  rewrite E4. by eexists _, _.
Qed.

(** C32 Long-term credentials: a message signed with a user name, realm and password is
    accepted by a server that knows the same three, whose key is the digest of the
    three joined by colons; the message gains the user name, the nonce, the realm and
    the signature, in this order. *)
Theorem stun_long_term_roundtrip buf len ty ck tid l u r p n t :
  built buf len ty ck tid l -> Forall (fun b => at_type b <> STUN_ATTRIBUTE_MESSAGE_INTEGRITY) l ->
  nonzero u -> nonzero r -> nonzero p -> nonzero n -> is_bytes u -> is_bytes r -> is_bytes n ->
  t <> SHATYPE_ERROR -> (forall k d, is_Some (HMAC t k d)) ->
  msg_len l + zlen u + zlen r + zlen n + sha_size t + 28 < MAX_STUN_MESSAGE_SIZE ->
  exists buf' len' mac,
    stun_attr_add_integrity_by_user_str buf len (u ++ [0]) (r ++ [0]) (p ++ [0]) (n ++ [0]) t true
      = Some (true, buf', len') /\
    is_msg buf' len' ty ck tid
      (l ++ credential_attrs u n r ++ [new_attr STUN_ATTRIBUTE_MESSAGE_INTEGRITY mac]) /\
    stun_check_message_integrity_str TURN_CREDENTIALS_LONG_TERM buf' len' (u ++ [0]) (r ++ [0]) (p ++ [0])
      t true = Some (1, buf').
Proof.
  intros Hb Hl Hu Hr Hp Hn Bu Br Bn Ht Htot Hroom. pose proof (length_long_term_key t u r p) as Hk.
  set (key := long_term_key t u r p) in *. set (l' := l ++ credential_attrs u n r).
  destruct (Htot (take (Z.to_nat (get_hmackey_size t)) key)
              (msg_prefix (msg_len l' + sha_size t - 16) ty ck tid l')) as [mac Hmac].
  destruct (by_key_add _ _ _ _ _ _ u r n key t mac Hb) as (b & ln & E & [Hm _]); try done.
  exists b, ln, mac. split_and!.
  - unfold stun_attr_add_integrity_by_user_str. rewrite produce_key by done. mred. exact E.
  - by rewrite (assoc_L (++)).
  - unfold stun_check_message_integrity_str. rewrite decide_False by done.
    rewrite produce_key by done. mred. fold key.
    apply (signed_accepted _ _ ty ck tid l' [] _ _ _ _ mac); try done.
    apply Forall_app_2; [done|by repeat constructor].
Qed.

(** Short-term credentials by user name do not work: when the user name fits in the
    message, which is the normal case, the call appends it, reports failure and leaves
    the message without a signature. *)
Theorem stun_short_term_by_user_inverted buf len ty ck tid l u pwd t :
  built buf len ty ck tid l -> nonzero u -> is_bytes u ->
  msg_len l + zlen u + 7 < MAX_STUN_MESSAGE_SIZE ->
  exists buf' len',
    stun_attr_add_integrity_by_user_short_term_str buf len (u ++ [0]) pwd t = Some (false, buf', len') /\
    is_msg buf' len' ty ck tid (l ++ [new_attr STUN_ATTRIBUTE_USERNAME u]).
Proof.
  intros Hb Hu Bu Hroom. unfold stun_attr_add_integrity_by_user_short_term_str.
  rewrite strlen_app by done. mred.
  destruct (built_add_string _ _ _ _ _ _ STUN_ATTRIBUTE_USERNAME u [] Hb) as (b1 & -> & [H1 _] & _); [|done|].
  - apply Forall_app_2; [done|by constructor].
  - mred. by eexists _, _.
Qed.

End facts.

(** ** A concrete instance

    A checksum in place of the HMAC, to evaluate the theorems on. *)

Definition sum_crypto : CryptoOps := {|
  HMAC t k d := Some (le_bytes (Z.to_nat (sha_size t)) (le_val k + 257 * le_val d));
  EVP_Digest t d := le_bytes (Z.to_nat (get_hmackey_size t)) (le_val d)
|}.

Lemma sum_crypto_laws : @CryptoLaws sum_crypto.
Proof.
  split; cbn [HMAC EVP_Digest sum_crypto].
  - intros t k d mac [= <-]. rewrite length_le_bytes. by destruct t.
  - intros t k d mac [= <-]. apply le_bytes_bytes.
  - intros t d. rewrite length_le_bytes. by destruct t.
  - intros t d. apply le_bytes_bytes.
Qed.

Lemma an_empty_message m :
  0 <= m < 4096 ->
  exists b0, built b0 20 (make_class Request m) STUN_MAGIC_COOKIE (replicate 12 5) [].
Proof.
  intros Hm. destruct (built_init Request m (replicate (Z.to_nat 65507) 0) (replicate 12 5))
    as (b0 & _ & Hb0); [rewrite length_replicate, Z2Nat.id by lia; unfold MAX_STUN_MESSAGE_SIZE; lia
    |reflexivity|exact Hm|]. by exists b0.
Qed.

Lemma stun_check_integrity_safe_witness :
  exists r, @stun_check_message_integrity_by_key_str sum_crypto TURN_CREDENTIALS_LONG_TERM
    [0; 1; 0; 4; 33; 18; 164; 66; 0; 0; 0; 0; 0; 0; 0; 0; 0; 0; 0; 0; 0; 8; 0; 20] 24
    (replicate 64 1) [] SHATYPE_SHA1
    = Some (r, [0; 1; 0; 4; 33; 18; 164; 66; 0; 0; 0; 0; 0; 0; 0; 0; 0; 0; 0; 0; 0; 8; 0; 20]) /\
    (r = -1 \/ r = 0 \/ r = 1).
Proof.
  apply (@stun_check_integrity_safe sum_crypto sum_crypto_laws).
  - by repeat constructor.
  - cbn. lia.
  - reflexivity.
Defined.

(** A message of no attributes, signed; its last byte is changed and it is refused. *)
Definition example_key : list Z := replicate 64 1.
Definition example_mac : list Z :=
  default [] (@HMAC sum_crypto SHATYPE_SHA1 (replicate 16 1) (msg_prefix 24 1 STUN_MAGIC_COOKIE (replicate 12 0) [])).
Definition example_signed (mac : list Z) : list Z := msg 1 STUN_MAGIC_COOKIE (replicate 12 0) [new_attr STUN_ATTRIBUTE_MESSAGE_INTEGRITY mac].

Lemma stun_check_integrity_exact_witness :
  let check mac := @stun_check_message_integrity_by_key_str sum_crypto TURN_CREDENTIALS_LONG_TERM (example_signed mac) 44 example_key [] SHATYPE_SHA1 in
  check (replicate 20 0) = Some (0, example_signed (replicate 20 0)) /\
  check example_mac = Some (1, example_signed example_mac) /\
  exists l g o a, framed (example_signed example_mac) 44 l g /\ find_type STUN_ATTRIBUTE_MESSAGE_INTEGRITY (attr_offs 20 l) = Some (o, a) /\
    @HMAC sum_crypto SHATYPE_SHA1 (replicate 16 1) (signed_bytes (example_signed example_mac) o (at_val a)) = Some (at_val a).
Proof.
  intros check. assert (check example_mac = Some (1, example_signed example_mac)) as E by (vm_compute; reflexivity).
  split; [vm_compute; reflexivity|]. split; [exact E|].
  destruct (@stun_check_integrity_exact sum_crypto sum_crypto_laws TURN_CREDENTIALS_LONG_TERM (example_signed example_mac) 44 example_key []
    SHATYPE_SHA1) as [[_ H]|(l & g & Hf & H)]; [apply (bool_decide_unpack _); vm_compute; exact I|vm_compute; split; discriminate|reflexivity| |].
  - unfold check in E. rewrite E in H. discriminate H.
  - exists l, g. unfold check in E. rewrite E in H. destruct (find_type _ _) as [[o a]|]; [|discriminate H]. exists o, a. split; [exact Hf|]. split; [reflexivity|].
    destruct (decide _); [|discriminate H]. change (mac_key _ _ _ _) with (replicate 16 1) in H.
    destruct (@HMAC _ _ _ _) as [mac|]; [|discriminate H]. destruct (decide _) as [->|]; [reflexivity|discriminate H].
Defined.

Lemma stun_integrity_roundtrip_witness :
  exists b0 b1 len1, @stun_attr_add_integrity_str sum_crypto TURN_CREDENTIALS_SHORT_TERM b0 20 []
      [112; 119; 0] SHATYPE_SHA256 = Some (true, b1, len1) /\
    @stun_check_message_integrity_by_key_str sum_crypto TURN_CREDENTIALS_SHORT_TERM b1 len1 []
      [112; 119; 0] SHATYPE_SHA256 = Some (1, b1).
Proof.
  destruct (an_empty_message STUN_METHOD_ALLOCATE) as [b0 Hb0]; [unfold STUN_METHOD_ALLOCATE; lia|].
  destruct (@stun_integrity_roundtrip sum_crypto sum_crypto_laws b0 20 Request STUN_METHOD_ALLOCATE
    (replicate 12 5) [] TURN_CREDENTIALS_SHORT_TERM [] [112; 119; 0] SHATYPE_SHA256
    (le_bytes 32 (le_val [112; 119] + 257 * le_val (msg_prefix (msg_len [] + 32 - 16)
       (make_class Request STUN_METHOD_ALLOCATE) STUN_MAGIC_COOKIE (replicate 12 5) []))) Hb0)
    as (b1 & len1 & _ & _ & H1 & H2 & _).
  - by exists [112; 119].
  - by repeat constructor.
  - unfold STUN_METHOD_ALLOCATE. lia.
  - constructor.
  - constructor.
  - discriminate.
  - vm_compute. reflexivity.
  - reflexivity.
  - exact (ex_intro _ b0 (ex_intro _ b1 (ex_intro _ len1 (conj H1 H2)))).
Defined.

Lemma stun_long_term_roundtrip_witness :
  exists b0 b1 len1, @stun_attr_add_integrity_by_user_str sum_crypto b0 20 [97; 108; 0] [114; 0] [112; 0]
      [110; 0] SHATYPE_SHA1 true = Some (true, b1, len1) /\
    @stun_check_message_integrity_str sum_crypto TURN_CREDENTIALS_LONG_TERM b1 len1 [97; 108; 0] [114; 0]
      [112; 0] SHATYPE_SHA1 true = Some (1, b1).
Proof.
  destruct (an_empty_message STUN_METHOD_ALLOCATE) as [b0 Hb0]; [unfold STUN_METHOD_ALLOCATE; lia|].
  destruct (@stun_long_term_roundtrip sum_crypto sum_crypto_laws b0 20 _ _ _ [] [97; 108] [114] [112] [110]
    SHATYPE_SHA1 Hb0) as (b1 & len1 & mac & H1 & _ & H2).
  all: try (by repeat constructor).
  - exact (ex_intro _ b0 (ex_intro _ b1 (ex_intro _ len1 (conj H1 H2)))).
Defined.

Lemma stun_short_term_by_user_inverted_witness :
  exists b0 b1 len1, @stun_attr_add_integrity_by_user_short_term_str sum_crypto b0 20 [97; 0] [112; 0]
      SHATYPE_SHA1 = Some (false, b1, len1).
Proof.
  destruct (an_empty_message STUN_METHOD_ALLOCATE) as [b0 Hb0]; [unfold STUN_METHOD_ALLOCATE; lia|].
  destruct (@stun_short_term_by_user_inverted sum_crypto b0 20 _ _ _ [] [97] [112; 0]
    SHATYPE_SHA1 Hb0) as (b1 & len1 & H & _).
  - by repeat constructor.
  - by repeat constructor.
  - vm_compute. reflexivity.
  - exact (ex_intro _ b0 (ex_intro _ b1 (ex_intro _ len1 H))).
Defined.
