(* ===== verification/Buckets.v ===== *)
(** * Tables of buckets: what the maps of [server/ns_turn_maps.c] share

    A map is an array of buckets; the live entries of the map are those of its
    buckets.  An operation touches one bucket, and adds or removes one entry: the
    lemmas here lift that to the whole table and to the finite map it stands for. *)

From S2P Require Import Prelude.
From stdpp Require Export gmap.

#[global] Open Scope Z_scope.

Section table.
Context {B E : Type} (live : B -> list E).

Definition entries (t : list B) : list E := concat (live <$> t).

Lemma entries_elem t e : e ∈ entries t <-> exists i b, t !! i = Some b /\ e ∈ live b.
Proof.
  unfold entries. rewrite list_elem_of_In, in_concat. split.
  - intros (l & Hl & He). apply list_elem_of_In, list_elem_of_fmap in Hl as (b & -> & Hb).
    apply list_elem_of_lookup in Hb as [i Hi]. exists i, b. split; [done|]. by apply list_elem_of_In.
  - intros (i & b & Hi & He). exists (live b). split; [|by apply list_elem_of_In].
    apply list_elem_of_In, list_elem_of_fmap. exists b. split; [done|]. by apply list_elem_of_lookup_2 in Hi.
Qed.

Lemma entries_split t i b :
  t !! i = Some b -> entries t = entries (take i t) ++ live b ++ entries (drop (S i) t).
Proof.
  intros H. rewrite <- (take_drop_middle t i b H) at 1. unfold entries.
  by rewrite fmap_app, concat_app.
Qed.

Lemma entries_insert t i b b' :
  t !! i = Some b ->
  entries (<[i:=b']> t) = entries (take i t) ++ live b' ++ entries (drop (S i) t).
Proof.
  intros H. rewrite insert_take_drop by by eapply lookup_lt_Some.
  unfold entries. by rewrite fmap_app, concat_app.
Qed.

(** One bucket gains or loses one entry. *)
Lemma entries_add t i b b' e :
  t !! i = Some b -> live b' ≡ₚ e :: live b -> entries (<[i:=b']> t) ≡ₚ e :: entries t.
Proof.
  intros H Hp. rewrite (entries_insert _ _ _ _ H), (entries_split _ _ _ H), Hp. cbn [app].
  by rewrite <- Permutation_middle.
Qed.

Lemma entries_remove t i b b' e :
  t !! i = Some b -> live b ≡ₚ e :: live b' -> entries t ≡ₚ e :: entries (<[i:=b']> t).
Proof.
  intros H Hp. rewrite (entries_insert _ _ _ _ H), (entries_split _ _ _ H), Hp. cbn [app].
  by rewrite <- Permutation_middle.
Qed.

Lemma entries_replicate n b : live b = [] -> entries (replicate n b) = [].
Proof. intros H. unfold entries. induction n; [done|]. cbn. by rewrite H. Qed.

Lemma length_entries t : length (entries t) = sum_list (length ∘ live <$> t).
Proof. unfold entries. induction t; [done|]. cbn. by rewrite length_app, IHt. Qed.

End table.

(** ** The finite map a list of entries stands for *)

Section entry_map.
Context {K V : Type} `{Countable K}.
Implicit Types (l : list (K * V)) (M : gmap K V).

(** The entries have distinct keys and are those of the map. *)
Definition represents l M : Prop := NoDup l.*1 /\ M = list_to_map l.

Lemma represents_bucket {B} (live : B -> list (K * V)) t M i b :
  represents (entries live t) M -> t !! i = Some b -> NoDup (live b).*1.
Proof.
  intros [Hn _] Hi. rewrite (entries_split _ _ _ _ Hi), !fmap_app in Hn.
  apply NoDup_app in Hn as (_ & _ & Hn). by apply NoDup_app in Hn as [? _].
Qed.

Lemma represents_nil : represents [] ∅.
Proof. split; [constructor|done]. Qed.

Lemma represents_lookup l M k v : represents l M -> (M !! k = Some v <-> (k, v) ∈ l).
Proof. intros [Hn ->]. symmetry. by apply elem_of_list_to_map. Qed.

Lemma represents_lookup_none l M k : represents l M -> (M !! k = None <-> k ∉ l.*1).
Proof. intros [Hn ->]. symmetry. apply not_elem_of_list_to_map. Qed.

Lemma represents_size l M : represents l M -> size M = length l.
Proof. intros [Hn ->]. by rewrite <- length_map_to_list, map_to_list_to_map. Qed.

Lemma represents_perm l l' M : l ≡ₚ l' -> represents l M -> represents l' M.
Proof.
  intros Hp [Hn ->]. split; [by rewrite <- Hp|]. by apply list_to_map_proper.
Qed.

Lemma represents_add l l' M k v :
  represents l M -> M !! k = None -> l' ≡ₚ (k, v) :: l -> represents l' (<[k:=v]> M).
Proof.
  intros Hr Hk Hp. apply (represents_perm ((k, v) :: l)); [done|].
  rewrite (represents_lookup_none _ _ _ Hr) in Hk. destruct Hr as [Hn ->].
  split; [by constructor|done].
Qed.

Lemma represents_remove l l' M k v :
  represents l M -> l ≡ₚ (k, v) :: l' -> represents l' (delete k M).
Proof.
  intros Hr Hp. apply (represents_perm _ _ _ Hp) in Hr. destruct Hr as [Hn ->].
  cbn in Hn. apply NoDup_cons in Hn as [Hk Hn]. split; [done|]. cbn.
  rewrite delete_insert_id; [done|]. by apply not_elem_of_list_to_map.
Qed.

End entry_map.

(** ** Simulation of sequences of operations

    [step] is an operation of the code, which may be undefined; [spec] the abstract
    one; [ok] the condition under which callers use it. *)

Section simulation.
Context {S M Op R : Type}.
Context (step : S -> Op -> option (R * S)) (spec : M -> Op -> R * M) (ok : M -> Op -> Prop).

Fixpoint run (s : S) (ops : list Op) : option (list R * S) :=
  match ops with
  | [] => Some ([], s)
  | op :: ops => '(r, s) ← step s op; '(rs, s) ← run s ops; Some (r :: rs, s)
  end.

Fixpoint spec_run (m : M) (ops : list Op) : list R :=
  match ops with
  | [] => []
  | op :: ops => (spec m op).1 :: spec_run (spec m op).2 ops
  end.

Fixpoint ops_ok (m : M) (ops : list Op) : Prop :=
  match ops with
  | [] => True
  | op :: ops => ok m op /\ ops_ok (spec m op).2 ops
  end.

Context (rep : S -> M -> Prop).
Context (sim : forall s m op, rep s m -> ok m op ->
                 exists s', step s op = Some ((spec m op).1, s') /\ rep s' (spec m op).2).

Lemma run_simulates s m ops :
  rep s m -> ops_ok m ops -> exists s' m', run s ops = Some (spec_run m ops, s') /\ rep s' m'.
Proof.
  revert s m; induction ops as [|op ops IH]; intros s m Hr Hok; cbn [run spec_run ops_ok] in *.
  - by exists s, m.
  - destruct Hok as [Hop Hok]. destruct (sim s m op Hr Hop) as (s' & -> & Hr').
    mred. destruct (IH s' _ Hr' Hok) as (s'' & m'' & -> & Hr''). mred. by exists s'', m''.
Qed.

End simulation.
