(* ===== verification/LmMap.v ===== *)
(** * The local map of [server/ns_turn_maps.c]

    A table of 8 buckets, each with three entries in place and an array of pointers to
    further ones.  A zero key or value marks a free entry.  The map pointers the
    callers pass are never null.  The destructor of [lm_map_del] is returned as the
    value it is called on. *)

From S2P Require Import Prelude Buckets.

Definition LM_MAP_HASH_SIZE : nat := 8.
Definition LM_MAP_ARRAY_SIZE : nat := 3.

(** [extra_keys] and [extra_values]: two pointers for each further entry. *)
Record lm_map_array := mk_lm_map_array {
  main_cells : list (Z * Z);
  extra_cells : list (option Z * option Z)
}.

Abbreviation lm_map := (list lm_map_array).

Definition lm_map_init : lm_map :=
  replicate LM_MAP_HASH_SIZE (mk_lm_map_array (replicate LM_MAP_ARRAY_SIZE (0, 0)%Z) []).

Definition lm_index (key : Z) : nat := Z.to_nat (Z.land key (Z.of_nat LM_MAP_HASH_SIZE - 1)).

(** The loop over the entries in place: [None] when it falls through. *)
Fixpoint lm_put_main (cells : list (Z * Z)) (key value : Z) : option (bool * list (Z * Z)) :=
  match cells with
  | [] => None
  | (key0, value0) :: rest =>
    if decide (key0 = key) then Some (bool_decide (value0 = value), cells)
    else if decide (key0 = 0 \/ value0 = 0) then Some (true, (key, value) :: rest)
    else prod_map id (cons (key0, value0)) <$> lm_put_main rest key value
  end.

(** The loop over the further entries.  A null pointer is dereferenced by the test of
    the [else] branch or by the one after it: the outer [None]. *)
Fixpoint lm_put_extra (cells : list (option Z * option Z)) (key value : Z)
    : option (option (bool * list (option Z * option Z))) :=
  match cells with
  | [] => Some None
  | (Some k, Some v) :: rest =>
    if decide (k = 0 \/ v = 0) then Some (Some (true, (Some key, Some value) :: rest))
    else r ← lm_put_extra rest key value;
         Some (option_map (prod_map id (cons (Some k, Some v))) r)
  | _ => None
  end.

(** [malloc_ok]: whether the allocation of the value cell succeeds. *)
Definition lm_map_put (map : lm_map) (key value : Z) (malloc_ok : bool) : option (bool * lm_map) :=
  if decide (key = 0 \/ value = 0) then Some (false, map) else
  a ← map !! lm_index key;
  match lm_put_main (main_cells a) key value with
  | Some (ret, cells) =>
    Some (ret, <[lm_index key := mk_lm_map_array cells (extra_cells a)]> map)
  | None =>
    e ← lm_put_extra (extra_cells a) key value;
    match e with
    | Some (ret, cells) =>
      Some (ret, <[lm_index key := mk_lm_map_array (main_cells a) cells]> map)
    | None =>
      if (malloc_ok : bool) then
        Some (true, <[lm_index key := mk_lm_map_array (main_cells a)
                                       (extra_cells a ++ [(Some key, Some value)])]> map)
      else Some (false, map)
    end
  end.

Fixpoint lm_get_main (cells : list (Z * Z)) (key : Z) : option Z :=
  match cells with
  | [] => None
  | (key0, value0) :: rest =>
    if decide (key0 = key /\ value0 <> 0) then Some value0 else lm_get_main rest key
  end.

Fixpoint lm_get_extra (cells : list (option Z * option Z)) (key : Z) : option Z :=
  match cells with
  | [] => None
  | (Some k, Some v) :: rest => if decide (k = key) then Some v else lm_get_extra rest key
  | _ :: rest => lm_get_extra rest key
  end.

(** The value found; the outer [None] would be a missing bucket. *)
Definition lm_map_get (map : lm_map) (key : Z) : option (option Z) :=
  if decide (key = 0) then Some None else
  a ← map !! lm_index key;
  match lm_get_main (main_cells a) key with
  | Some v => Some (Some v)
  | None => Some (lm_get_extra (extra_cells a) key)
  end.

Definition lm_map_exist (map : lm_map) (key : Z) : option bool :=
  r ← lm_map_get map key; Some (bool_decide (is_Some r)).

Fixpoint lm_del_main (cells : list (Z * Z)) (key : Z) : option (Z * list (Z * Z)) :=
  match cells with
  | [] => None
  | (key0, value0) :: rest =>
    if decide (key0 = key /\ value0 <> 0) then Some (value0, (0, 0) :: rest)
    else prod_map id (cons (key0, value0)) <$> lm_del_main rest key
  end.

Fixpoint lm_del_extra (cells : list (option Z * option Z)) (key : Z)
    : option (Z * list (option Z * option Z)) :=
  match cells with
  | [] => None
  | c :: rest =>
    match c with
    | (Some k, Some v) =>
      if decide (k = key) then Some (v, (Some 0, Some 0) :: rest)
      else prod_map id (cons c) <$> lm_del_extra rest key
    | _ => prod_map id (cons c) <$> lm_del_extra rest key
    end
  end.

(** The value removed, on which the destructor is called. *)
Definition lm_map_del (map : lm_map) (key : Z) : option (option Z * lm_map) :=
  if decide (key = 0) then Some (None, map) else
  a ← map !! lm_index key;
  match lm_del_main (main_cells a) key with
  | Some (v, cells) => Some (Some v, <[lm_index key := mk_lm_map_array cells (extra_cells a)]> map)
  | None =>
    match lm_del_extra (extra_cells a) key with
    | Some (v, cells) => Some (Some v, <[lm_index key := mk_lm_map_array (main_cells a) cells]> map)
    | None => Some (None, map)
    end
  end.

(** Every array is freed and the map is initialised. *)
Definition lm_map_clean (map : lm_map) : lm_map := lm_map_init.

(** The callback sees its own state [S] and stops the loop by returning true. *)
Fixpoint visit {S : Type} (func : Z -> Z -> S -> bool * S) (l : list (Z * Z)) (s : S) : bool * S :=
  match l with
  | [] => (false, s)
  | (k, v) :: l => let '(stop, s) := func k v s in if (stop : bool) then (true, s) else visit func l s
  end.

(** The entries in place that are in use. *)
Definition lm_live_main (cells : list (Z * Z)) : list (Z * Z) :=
  filter (fun c => c.1 <> 0 /\ c.2 <> 0) cells.

(** The test [*(a->extra_keys[j]) && *(a->extra_values[j])]: the outer [None] when it
    reads through a null pointer, the entry when it succeeds. *)
Definition lm_extra_used (c : option Z * option Z) : option (option (Z * Z)) :=
  k ← c.1;
  if decide (k = 0) then Some None else
  v ← c.2;
  Some (if decide (v = 0) then None else Some (k, v)).

Fixpoint lm_size_extra (cells : list (option Z * option Z)) : option Z :=
  match cells with
  | [] => Some 0
  | c :: rest =>
    e ← lm_extra_used c;
    r ← lm_size_extra rest;
    Some (match e with Some _ => 1 + r | None => r end)
  end.

Fixpoint lm_map_size (map : lm_map) : option Z :=
  match map with
  | [] => Some 0
  | a :: map =>
    e ← lm_size_extra (extra_cells a);
    r ← lm_map_size map;
    Some (zlen (lm_live_main (main_cells a)) + e + r)
  end.

Fixpoint visit_extra {S : Type} (func : Z -> Z -> S -> bool * S) (cells : list (option Z * option Z)) (s : S)
    : option (bool * S) :=
  match cells with
  | [] => Some (false, s)
  | c :: rest =>
    e ← lm_extra_used c;
    match e with
    | Some (k, v) => let '(stop, s) := func k v s in
                     if (stop : bool) then Some (true, s) else visit_extra func rest s
    | None => visit_extra func rest s
    end
  end.

Fixpoint lm_map_foreach {S : Type} (map : lm_map) (func : Z -> Z -> S -> bool * S) (s : S)
    : option (bool * S) :=
  match map with
  | [] => Some (false, s)
  | a :: map =>
    let '(stop, s) := visit func (lm_live_main (main_cells a)) s in
    if (stop : bool) then Some (true, s) else
    '(stop, s) ← visit_extra func (extra_cells a) s;
    if (stop : bool) then Some (true, s) else lm_map_foreach map func s
  end.

Definition lm_map_foreach_arg {S A : Type} (map : lm_map) (func : Z -> Z -> A -> S -> bool * S) (arg : A)
    (s : S) : option (bool * S) := lm_map_foreach map (fun k v => func k v arg) s.

(** ** The invariant *)

(** The live entries of a bucket. *)
Definition lm_live_extra (cells : list (option Z * option Z)) : list (Z * Z) :=
  omap (fun c => match c with
                 | (Some k, Some v) => if decide (k <> 0 /\ v <> 0) then Some (k, v) else None
                 | _ => None
                 end) cells.
Definition lm_live (a : lm_map_array) : list (Z * Z) :=
  lm_live_main (main_cells a) ++ lm_live_extra (extra_cells a).

Definition main_ok (c : Z * Z) : Prop := c.1 = 0 <-> c.2 = 0.

Definition cell_ok (c : option Z * option Z) : Prop :=
  exists k v, c = (Some k, Some v) /\ (k = 0 <-> v = 0).

Record array_ok (i : nat) (a : lm_map_array) : Prop := {
  ok_main : length (main_cells a) = LM_MAP_ARRAY_SIZE;
  ok_cells : Forall main_ok (main_cells a);
  ok_extra : Forall cell_ok (extra_cells a);
  ok_index : Forall (fun c => lm_index c.1 = i) (lm_live a)
}.

Definition lm_ok (m : lm_map) : Prop :=
  length m = LM_MAP_HASH_SIZE /\ (forall i a, m !! i = Some a -> array_ok i a).

(** The map stands for the finite map [M]. *)
Definition lm_rep (m : lm_map) (M : gmap Z Z) : Prop :=
  lm_ok m /\ represents (entries lm_live m) M.

Lemma lm_index_lt k : (lm_index k < 8)%nat.
Proof.
  unfold lm_index, LM_MAP_HASH_SIZE. change (Z.of_nat 8 - 1) with (Z.ones 3).
  rewrite Z.land_ones by lia. pose proof (Z.mod_pos_bound k (2 ^ 3)). lia.
Qed.

Lemma lm_bucket m k : lm_ok m -> exists a, m !! lm_index k = Some a /\ array_ok (lm_index k) a.
Proof.
  intros [Hl Ha]. destruct (lookup_lt_is_Some_2 m (lm_index k)) as [a H].
  { rewrite Hl. apply lm_index_lt. }
  exists a. eauto.
Qed.

(** A key is live in the map exactly when it is live in its bucket. *)
Lemma lm_bucket_elem m k v a :
  lm_ok m -> m !! lm_index k = Some a -> ((k, v) ∈ entries lm_live m <-> (k, v) ∈ lm_live a).
Proof.
  intros [_ Ha] Hk. rewrite entries_elem. split; [|by eauto].
  intros (i & b & Hi & He). destruct (Ha _ _ Hi) as [_ _ _ Hx].
  pose proof (Forall_elem _ _ _ Hx He) as E. cbn in E. subst i. congruence.
Qed.

(** ** One bucket *)

Lemma live_main_cons c cells :
  lm_live_main (c :: cells) = (if decide (c.1 <> 0 /\ c.2 <> 0) then [c] else []) ++ lm_live_main cells.
Proof. unfold lm_live_main. rewrite filter_cons. by case_decide. Qed.

Lemma live_extra_cons k v cells :
  lm_live_extra ((Some k, Some v) :: cells)
    = (if decide (k <> 0 /\ v <> 0) then [(k, v)] else []) ++ lm_live_extra cells.
Proof. unfold lm_live_extra. cbn. by case_decide. Qed.

Lemma put_main_spec key value cells :
  key <> 0 -> value <> 0 ->
  Forall main_ok cells -> (forall v, (key, v) ∉ lm_live_main cells) ->
  match lm_put_main cells key value with
  | Some (ret, cells') => ret = true /\ length cells' = length cells /\ Forall main_ok cells' /\
      lm_live_main cells' ≡ₚ (key, value) :: lm_live_main cells
  | None => True
  end.
Proof.
  intros Hk Hv.
  induction 1 as [|[k0 v0] cells H0 Hc IH]; cbn [lm_put_main]; [done|]. intros Hn.
  unfold main_ok in H0; cbn in H0.
  case_decide as E1; [|case_decide as E2]; rewrite live_main_cons in Hn; cbn [fst snd] in Hn.
  - subst k0. exfalso. apply (Hn v0). rewrite decide_True by (split; [done|tauto]). by left.
  - split_and!; try done.
    + constructor; [|done]. unfold main_ok. cbn. tauto.
    + rewrite !live_main_cons. cbn [fst snd]. rewrite decide_True by done.
      by rewrite decide_False by tauto.
  - assert (forall v, (key, v) ∉ lm_live_main cells) as Hn' by (intros v ?; apply (Hn v); set_solver).
    specialize (IH Hn'). destruct (lm_put_main cells key value) as [[ret cells']|]; [|done].
    cbn [prod_map fmap option_fmap option_map id]. destruct IH as (-> & Hl & Hok & Hp).
    split_and!; [done|cbn; lia|by constructor|].
    rewrite !live_main_cons. cbn [fst snd]. rewrite Hp. by rewrite <- Permutation_middle.
Qed.

Lemma put_extra_spec key value cells :
  key <> 0 -> value <> 0 ->
  Forall cell_ok cells ->
  exists r, lm_put_extra cells key value = Some r /\
    match r with
    | Some (ret, cells') => ret = true /\ Forall cell_ok cells' /\
        lm_live_extra cells' ≡ₚ (key, value) :: lm_live_extra cells
    | None => True
    end.
Proof.
  intros Hk Hv.
  induction 1 as [|c cells (k0 & v0 & -> & H0) Hc IH]; cbn [lm_put_extra]; [by exists None|].
  case_decide as E.
  - eexists. split; [done|]. split_and!; [done| |].
    + constructor; [|done]. exists key, value. tauto.
    + rewrite !live_extra_cons, decide_True by done. by rewrite decide_False by tauto.
  - destruct IH as (r & -> & Hr). mred. eexists. split; [done|].
    destruct r as [[ret cells']|]; [|done]. cbn [option_map prod_map id]. destruct Hr as (-> & Hok & Hp).
    split_and!; [done| |].
    + constructor; [|done]. by exists k0, v0.
    + rewrite !live_extra_cons, Hp. by rewrite <- Permutation_middle.
Qed.

Lemma get_main_spec key cells :
  key <> 0 ->
  match lm_get_main cells key with
  | Some v => (key, v) ∈ lm_live_main cells
  | None => forall v, (key, v) ∉ lm_live_main cells
  end.
Proof.
  intros Hk.
  induction cells as [|[k0 v0] cells IH]; cbn [lm_get_main]; [by intros v ?%not_elem_of_nil|].
  rewrite live_main_cons. cbn [fst snd]. case_decide as E.
  - destruct E as [-> ?]. rewrite decide_True by done. by left.
  - destruct (lm_get_main cells key) as [v|]; [set_solver|]. intros v Hin.
    apply elem_of_app in Hin as [Hin|Hin]; [|by apply (IH v)].
    case_decide; [|by apply not_elem_of_nil in Hin]. apply list_elem_of_singleton in Hin. naive_solver.
Qed.

Lemma get_extra_spec key cells :
  key <> 0 ->
  Forall cell_ok cells ->
  match lm_get_extra cells key with
  | Some v => (key, v) ∈ lm_live_extra cells
  | None => forall v, (key, v) ∉ lm_live_extra cells
  end.
Proof.
  intros Hk.
  induction 1 as [|c cells (k0 & v0 & -> & H0) Hc IH]; cbn [lm_get_extra]; [by intros v ?%not_elem_of_nil|].
  rewrite live_extra_cons. case_decide as E.
  - subst. rewrite decide_True by tauto. by left.
  - destruct (lm_get_extra cells key) as [v|]; [set_solver|]. intros v Hin.
    apply elem_of_app in Hin as [Hin|Hin]; [|by apply (IH v)].
    case_decide; [|by apply not_elem_of_nil in Hin]. apply list_elem_of_singleton in Hin. naive_solver.
Qed.

Lemma del_main_spec key cells :
  key <> 0 ->
  Forall main_ok cells ->
  match lm_del_main cells key with
  | Some (v, cells') => length cells' = length cells /\ Forall main_ok cells' /\
      lm_live_main cells ≡ₚ (key, v) :: lm_live_main cells'
  | None => forall v, (key, v) ∉ lm_live_main cells
  end.
Proof.
  intros Hk.
  induction 1 as [|[k0 v0] cells H0 Hc IH]; cbn [lm_del_main]; [by intros v ?%not_elem_of_nil|].
  rewrite live_main_cons. cbn [fst snd]. case_decide as E.
  - destruct E as [-> ?]. rewrite decide_True by done. split_and!; [done| |].
    + constructor; [|done]. by unfold main_ok.
    + rewrite live_main_cons. cbn [fst snd]. by rewrite (decide_False (P := 0 <> 0 /\ 0 <> 0)) by tauto.
  - destruct (lm_del_main cells key) as [[v cells']|]; cbn [prod_map fmap option_fmap option_map id].
    + destruct IH as (Hl & Hok & Hp). split_and!; [cbn; lia|by constructor|].
      rewrite live_main_cons, Hp. cbn [fst snd]. by rewrite <- Permutation_middle.
    + intros v Hin. apply elem_of_app in Hin as [Hin|Hin]; [|by apply (IH v)].
      case_decide; [|by apply not_elem_of_nil in Hin]. apply list_elem_of_singleton in Hin. naive_solver.
Qed.

Lemma del_extra_spec key cells :
  key <> 0 ->
  Forall cell_ok cells ->
  match lm_del_extra cells key with
  | Some (v, cells') => Forall cell_ok cells' /\ lm_live_extra cells ≡ₚ (key, v) :: lm_live_extra cells'
  | None => forall v, (key, v) ∉ lm_live_extra cells
  end.
Proof.
  intros Hk.
  induction 1 as [|c cells (k0 & v0 & -> & H0) Hc IH]; cbn [lm_del_extra]; [by intros v ?%not_elem_of_nil|].
  rewrite live_extra_cons. case_decide as E.
  - subst. rewrite decide_True by tauto. split.
    + constructor; [|done]. by exists 0, 0.
    + rewrite live_extra_cons. by rewrite (decide_False (P := 0 <> 0 /\ 0 <> 0)) by tauto.
  - destruct (lm_del_extra cells key) as [[v cells']|]; cbn [prod_map fmap option_fmap option_map].
    + destruct IH as (Hok & Hp). split; [constructor; [by exists k0, v0|done]|].
      rewrite live_extra_cons, Hp. by rewrite <- Permutation_middle.
    + intros v Hin. apply elem_of_app in Hin as [Hin|Hin]; [|by apply (IH v)].
      case_decide; [|by apply not_elem_of_nil in Hin]. apply list_elem_of_singleton in Hin. naive_solver.
Qed.


(** ** The map refines a finite map *)

Lemma lm_ok_insert m k a' : lm_ok m -> array_ok (lm_index k) a' -> lm_ok (<[lm_index k := a']> m).
Proof.
  intros [Hl Ha] Hok. split; [by rewrite length_insert|]. intros i b Hi.
  apply list_lookup_insert_Some in Hi as [(<- & <- & _)|[_ Hi]]; [done|by apply Ha].
Qed.

Lemma lm_rep_add m M k v a a' :
  lm_rep m M -> M !! k = None -> m !! lm_index k = Some a ->
  length (main_cells a') = LM_MAP_ARRAY_SIZE -> Forall main_ok (main_cells a') ->
  Forall cell_ok (extra_cells a') -> lm_live a' ≡ₚ (k, v) :: lm_live a ->
  lm_rep (<[lm_index k := a']> m) (<[k:=v]> M).
Proof.
  intros [Hok Hr] Hf Hi H1 H2 H3 Hp. destruct Hok as [Hl Ha]. destruct (Ha _ _ Hi) as [_ _ _ Hx].
  split.
  - apply lm_ok_insert; [done|]. split; try done. rewrite Hp. by constructor.
  - eapply represents_add; [exact Hr|done|]. by eapply entries_add.
Qed.

Lemma lm_rep_remove m M k v a a' :
  lm_rep m M -> m !! lm_index k = Some a ->
  length (main_cells a') = LM_MAP_ARRAY_SIZE -> Forall main_ok (main_cells a') ->
  Forall cell_ok (extra_cells a') -> lm_live a ≡ₚ (k, v) :: lm_live a' ->
  M !! k = Some v /\ lm_rep (<[lm_index k := a']> m) (delete k M).
Proof.
  intros [Hok Hr] Hi H1 H2 H3 Hp. destruct Hok as [Hl Ha]. destruct (Ha _ _ Hi) as [_ _ _ Hx].
  split; [|split].
  - apply (represents_lookup _ _ _ _ Hr), (lm_bucket_elem m k v a); [done|done|]. rewrite Hp. by left.
  - apply lm_ok_insert; [done|]. split; try done. rewrite Hp in Hx. by inversion Hx.
  - eapply represents_remove; [exact Hr|]. by eapply entries_remove.
Qed.

Lemma lm_map_get_rep m M k : lm_rep m M -> k <> 0 -> lm_map_get m k = Some (M !! k).
Proof.
  intros [Hok Hr] Hk. destruct (lm_bucket m k Hok) as (a & Hi & [_ _ Hx _]).
  unfold lm_map_get. rewrite decide_False by done. rewrite Hi. mred.
  assert (forall v, (k, v) ∈ lm_live a -> M !! k = Some v) as Hin.
  { intros v Hv. apply (represents_lookup _ _ _ _ Hr). by apply (lm_bucket_elem m k v a). }
  pose proof (get_main_spec k (main_cells a) Hk) as Hm.
  pose proof (get_extra_spec k (extra_cells a) Hk Hx) as He.
  destruct (lm_get_main (main_cells a) k) as [v|].
  { rewrite (Hin v); [done|]. apply elem_of_app. by left. }
  destruct (lm_get_extra (extra_cells a) k) as [v|].
  { rewrite (Hin v); [done|]. apply elem_of_app. by right. }
  destruct (M !! k) as [v|] eqn:E; [|done]. exfalso.
  apply (represents_lookup _ _ _ _ Hr), (lm_bucket_elem m k v a) in E; [|done..].
  apply elem_of_app in E as [E|E]; [by apply (Hm v)|by apply (He v)].
Qed.

Lemma lm_map_put_rep m M k v :
  lm_rep m M -> k <> 0 -> v <> 0 -> M !! k = None ->
  exists m', lm_map_put m k v true = Some (true, m') /\ lm_rep m' (<[k:=v]> M).
Proof.
  intros H Hk Hv Hf. pose proof H as [Hok Hr]. destruct (lm_bucket m k Hok) as (a & Hi & [H1 H2 H3 _]).
  unfold lm_map_put. rewrite decide_False by tauto. rewrite Hi. mred.
  assert (forall v, (k, v) ∉ lm_live_main (main_cells a)) as Hn.
  { intros w Hw. assert (M !! k = Some w) as E; [|congruence].
    apply (represents_lookup _ _ _ _ Hr), (lm_bucket_elem m k w a); [done..|].
    apply elem_of_app. by left. }
  pose proof (put_main_spec k v _ Hk Hv H2 Hn) as Hm.
  destruct (lm_put_main (main_cells a) k v) as [[ret cells]|].
  { destruct Hm as (-> & Hl & Hc & Hp). eexists. split; [done|].
    eapply lm_rep_add; [exact H|done|exact Hi|cbn; congruence|done|done|].
    unfold lm_live. cbn [main_cells extra_cells]. by rewrite Hp. }
  destruct (put_extra_spec k v _ Hk Hv H3) as (r & -> & He). mred.
  destruct r as [[ret cells]|].
  { destruct He as (-> & Hc & Hp). eexists. split; [done|].
    eapply lm_rep_add; [exact H|done|exact Hi|done|done|done|].
    unfold lm_live. cbn [main_cells extra_cells]. rewrite Hp. by rewrite <- Permutation_middle. }
  eexists. split; [done|]. eapply lm_rep_add; [exact H|done|exact Hi|done|done| |].
  - apply Forall_app_2; [done|]. constructor; [|done]. exists k, v. tauto.
  - unfold lm_live, lm_live_extra. cbn [main_cells extra_cells]. rewrite omap_app. cbn.
    rewrite decide_True by done. rewrite (assoc_L (++)). by rewrite <- Permutation_cons_append.
Qed.

Lemma lm_map_del_rep m M k :
  lm_rep m M -> k <> 0 ->
  exists m', lm_map_del m k = Some (M !! k, m') /\ lm_rep m' (delete k M).
Proof.
  intros H Hk. pose proof H as [Hok Hr]. destruct (lm_bucket m k Hok) as (a & Hi & [H1 H2 H3 _]).
  unfold lm_map_del. rewrite decide_False by done. rewrite Hi. mred.
  pose proof (del_main_spec k _ Hk H2) as Hm.
  destruct (lm_del_main (main_cells a) k) as [[v cells]|].
  { destruct Hm as (Hl & Hc & Hp). eexists.
    destruct (lm_rep_remove m M k v a (mk_lm_map_array cells (extra_cells a))) as [-> Hd];
      [done|done|cbn; congruence|done|done| |by split].
    unfold lm_live. cbn [main_cells extra_cells]. by rewrite Hp. }
  pose proof (del_extra_spec k _ Hk H3) as He.
  destruct (lm_del_extra (extra_cells a) k) as [[v cells]|].
  { destruct He as (Hc & Hp). eexists.
    destruct (lm_rep_remove m M k v a (mk_lm_map_array (main_cells a) cells)) as [-> Hd];
      [done..| |by split].
    unfold lm_live. cbn [main_cells extra_cells]. rewrite Hp. by rewrite <- Permutation_middle. }
  exists m. assert (M !! k = None) as E; [|by rewrite E, delete_id].
  apply eq_None_not_Some. intros [v E].
  apply (represents_lookup _ _ _ _ Hr), (lm_bucket_elem m k v a) in E; [|done..].
  apply elem_of_app in E as [E|E]; [by apply (Hm v)|by apply (He v)].
Qed.

(** The loops of size and foreach over the further entries. *)
Lemma extra_used_spec c cells :
  cell_ok c -> exists e, lm_extra_used c = Some e /\
    lm_live_extra (c :: cells) = (match e with Some x => [x] | None => [] end) ++ lm_live_extra cells.
Proof.
  intros (k & v & -> & H). unfold lm_extra_used. cbn [fst snd]. mred. rewrite live_extra_cons.
  case_decide as E; [|case_decide as E2].
  - eexists. split; [done|]. by rewrite decide_False by tauto.
  - eexists. split; [done|]. by rewrite decide_False by tauto.
  - eexists. split; [done|]. by rewrite decide_True by done.
Qed.

Lemma size_extra_spec cells :
  Forall cell_ok cells -> lm_size_extra cells = Some (zlen (lm_live_extra cells)).
Proof.
  induction 1 as [|c cells Hc _ IH]; cbn [lm_size_extra]; [done|].
  destruct (extra_used_spec c cells Hc) as (e & -> & ->). mred. rewrite IH. mred. f_equal.
  destruct e; rewrite ?length_app; cbn [length app]; lia.
Qed.

Lemma visit_app {S : Type} (func : Z -> Z -> S -> bool * S) l1 l2 s :
  visit func (l1 ++ l2) s
    = let '(stop, s) := visit func l1 s in if stop then (true, s) else visit func l2 s.
Proof.
  revert s. induction l1 as [|[k v] l1 IH]; intros s; cbn [app visit]; [by destruct (visit func l2 s)|].
  destruct (func k v s) as [[] s']; [done|apply IH].
Qed.

Lemma visit_extra_spec {S : Type} (func : Z -> Z -> S -> bool * S) cells s :
  Forall cell_ok cells -> visit_extra func cells s = Some (visit func (lm_live_extra cells) s).
Proof.
  intros H. revert s. induction H as [|c cells Hc _ IH]; intros s; cbn [visit_extra]; [done|].
  destruct (extra_used_spec c cells Hc) as (e & -> & ->). mred.
  destruct e as [[k v]|]; [|by rewrite IH]. cbn [app visit].
  destruct (func k v s) as [[] s']; [done|apply IH].
Qed.

Lemma lm_ok_extra m : lm_ok m -> Forall (fun a => Forall cell_ok (extra_cells a)) m.
Proof. intros [_ H]. apply Forall_lookup_2. intros i a Hi. by destruct (H i a Hi). Qed.

Lemma lm_map_foreach_entries {S : Type} (func : Z -> Z -> S -> bool * S) m s :
  lm_ok m -> lm_map_foreach m func s = Some (visit func (entries lm_live m) s).
Proof.
  intros H%lm_ok_extra. revert s. induction H as [|a m Ha _ IH]; intros s; cbn [lm_map_foreach]; [done|].
  change (entries lm_live (a :: m)) with (lm_live a ++ entries lm_live m).
  unfold lm_live at 1. rewrite !visit_app.
  destruct (visit func (lm_live_main (main_cells a)) s) as [[] s1]; [done|].
  rewrite visit_extra_spec by done. mred.
  destruct (visit func (lm_live_extra (extra_cells a)) s1) as [[] s2]; [done|apply IH].
Qed.

Lemma lm_map_size_rep m M : lm_rep m M -> lm_map_size m = Some (Z.of_nat (size M)).
Proof.
  intros [Hok%lm_ok_extra Hr]. rewrite (represents_size _ _ Hr). clear Hr.
  induction Hok as [|a m Ha _ IH]; cbn [lm_map_size]; [done|].
  rewrite (size_extra_spec _ Ha), IH. mred. f_equal.
  change (entries lm_live (a :: m)) with (lm_live a ++ entries lm_live m).
  unfold lm_live. rewrite !length_app. lia.
Qed.

Lemma lm_map_init_rep : lm_rep lm_map_init ∅.
Proof.
  split; [split|]; [done| |].
  - intros i a Hi. assert (a = mk_lm_map_array (replicate LM_MAP_ARRAY_SIZE (0, 0)) []) as ->.
    { unfold lm_map_init in Hi. by apply lookup_replicate in Hi as [-> _]. }
    split; try done. by repeat constructor.
  - replace (entries lm_live lm_map_init) with (@nil (Z * Z)); [apply represents_nil|].
    symmetry. by apply entries_replicate.
Qed.

(** ** Sequences of operations *)

Inductive lm_op := LmGet (k : Z) | LmPut (k v : Z) | LmDel (k : Z) | LmSize.

(** What an operation answers, on the code's map and on a finite map.  Callers put a
    key only when it is absent. *)
Definition lm_step (m : lm_map) (op : lm_op) : option (option Z * lm_map) :=
  match op with
  | LmGet k => r ← lm_map_get m k; Some (r, m)
  | LmPut k v => '(ok, m') ← lm_map_put m k v true; Some (Some (if (ok : bool) then 1 else 0), m')
  | LmDel k => lm_map_del m k
  | LmSize => n ← lm_map_size m; Some (Some n, m)
  end.

Definition spec_step (M : gmap Z Z) (op : lm_op) : option Z * gmap Z Z :=
  match op with
  | LmGet k => (M !! k, M)
  | LmPut k v => (Some 1, <[k:=v]> M)
  | LmDel k => (M !! k, delete k M)
  | LmSize => (Some (Z.of_nat (size M)), M)
  end.

Definition op_ok (M : gmap Z Z) (op : lm_op) : Prop :=
  match op with
  | LmGet k | LmDel k => k <> 0
  | LmPut k v => k <> 0 /\ v <> 0 /\ M !! k = None
  | LmSize => True
  end.

Abbreviation lm_run := (run lm_step).

(** One operation simulates its specification. *)
Lemma lm_step_simulates m M op :
  lm_rep m M -> op_ok M op ->
  exists m', lm_step m op = Some ((spec_step M op).1, m') /\ lm_rep m' (spec_step M op).2.
Proof.
  intros Hr Hop. destruct op as [k|k v|k|]; cbn [lm_step spec_step fst snd op_ok] in *.
  - rewrite (lm_map_get_rep _ _ _ Hr Hop). by exists m.
  - destruct Hop as (Hk & Hv & Hf). destruct (lm_map_put_rep _ _ _ _ Hr Hk Hv Hf) as (m' & -> & Hr').
    by exists m'.
  - by apply lm_map_del_rep.
  - rewrite (lm_map_size_rep _ _ Hr). by exists m.
Qed.

(** C39 The local map refines a finite map: any sequence of look-ups, deletions, size
    queries and insertions of absent keys, from the empty map, gives the answers the
    finite map gives, and never touches memory outside its tables. *)
Theorem lm_map_refines_gmap ops :
  ops_ok spec_step op_ok ∅ ops ->
  exists m, lm_run lm_map_init ops = Some (spec_run spec_step ∅ ops, m) /\ lm_ok m.
Proof.
  intros Hok. destruct (run_simulates _ _ _ _ lm_step_simulates _ _ ops lm_map_init_rep Hok)
    as (m & M & H & Hr & _). by exists m.
Qed.

Lemma lm_map_refines_gmap_witness :
  exists m, lm_run lm_map_init [LmPut 8 1; LmPut 16 2; LmPut 24 3; LmPut 32 4; LmDel 16; LmGet 32; LmSize]
    = Some ([Some 1; Some 1; Some 1; Some 1; Some 2; Some 4; Some 3], m).
Proof.
  destruct (lm_map_refines_gmap [LmPut 8 1; LmPut 16 2; LmPut 24 3; LmPut 32 4; LmDel 16; LmGet 32; LmSize])
    as (m & H & _); [repeat split; vm_compute; congruence|].
  exists m. exact H.
Defined.

(** Inserting a key that is already present can leave the map with two entries for
    it: after a deletion frees an earlier cell of the bucket, the new value goes there
    although the old entry is still live; a later deletion uncovers the old value. *)
Theorem lm_map_put_duplicates :
  exists m, lm_run lm_map_init [LmPut 8 1; LmPut 16 2; LmDel 8; LmPut 16 3; LmSize; LmGet 16; LmDel 16; LmGet 16]
    = Some ([Some 1; Some 1; Some 1; Some 1; Some 2; Some 3; Some 3; Some 2], m).
Proof. eexists. vm_compute. reflexivity. Qed.

(** The visit of [lm_map_foreach] calls the callback on every entry of the map once,
    until the callback stops it, and reads through no null pointer. *)
Theorem lm_map_foreach_visits m M {S : Type} (func : Z -> Z -> S -> bool * S) (s : S) :
  lm_rep m M ->
  exists l, l ≡ₚ map_to_list M /\ lm_map_foreach m func s = Some (visit func l s).
Proof.
  intros [Hok [Hn ->]]. exists (entries lm_live m). split; [by rewrite map_to_list_to_map|].
  by apply lm_map_foreach_entries.
Qed.

Lemma lm_map_foreach_visits_witness :
  exists m, lm_map_put lm_map_init 7 5 true = Some (true, m) /\
    lm_map_foreach m (fun k v s => (false, s + v)) 0 = Some (false, 5).
Proof.
  destruct (lm_map_put_rep _ _ 7 5 lm_map_init_rep) as (m & Hput & Hr); [done..|].
  destruct (lm_map_foreach_visits m _ (fun k v s => (false, s + v)) 0 Hr) as (l & Hl & Hf).
  exists m. split; [exact Hput|]. rewrite Hf, insert_empty in *. rewrite map_to_list_singleton in Hl.
  apply Permutation_singleton_r in Hl as ->. reflexivity.
Defined.
