(* ===== verification/AddrMap.v ===== *)
(** * The address map of [server/ns_turn_maps.c]

    A table of 1024 buckets, each with four elements in place and a growable array of
    further ones.  An element whose value is zero is free.  Keys are compared with
    [addr_eq], which is coarser than equality.  The map and key pointers the callers
    pass are not null; a destructor is returned as the list of values it is called
    on. *)

From S2P Require Import Prelude IoAddr Buckets.

Definition ADDR_MAP_SIZE : nat := 1024.
Definition ADDR_ARRAY_SIZE : nat := 4.
Definition MAGIC_HASH : Z := 0x90ABCDEF.

Record addr_elem := mk_addr_elem { elem_key : ioa_addr; elem_value : Z }.

(** [extra_list] is null when [extra_sz] is 0. *)
Record addr_list_header := mk_addr_list {
  main_list : list addr_elem;
  extra_list : list addr_elem
}.

Record ur_addr_map := mk_ur_addr_map { lists : list addr_list_header; magic : Z }.

(** The contents after [memset(.., 0, ..)]. *)
Definition zero_addr : ioa_addr := mk_ioa_addr 0 0 0 (replicate 16 0) 0.
Definition zero_elem : addr_elem := mk_addr_elem zero_addr 0.
Definition zero_list : addr_list_header := mk_addr_list (replicate ADDR_ARRAY_SIZE zero_elem) [].

Definition addr_list_free (slh : addr_list_header) : addr_list_header := zero_list.

(** The first element with value 0 is overwritten; [None] when there is none. *)
Fixpoint addr_fill (l : list addr_elem) (key : ioa_addr) (value : Z) : option (list addr_elem) :=
  match l with
  | [] => None
  | e :: l =>
    if decide (elem_value e = 0) then Some (mk_addr_elem key value :: l)
    else cons e <$> addr_fill l key value
  end.

Definition addr_list_add (slh : addr_list_header) (key : ioa_addr) (value : Z) : addr_list_header :=
  if decide (value = 0) then slh else
  match addr_fill (main_list slh) key value with
  | Some l => mk_addr_list l (extra_list slh)
  | None =>
    match addr_fill (extra_list slh) key value with
    | Some l => mk_addr_list (main_list slh) l
    | None => mk_addr_list (main_list slh) (extra_list slh ++ [mk_addr_elem key value])
    end
  end.

Definition elem_matches (key : ioa_addr) (e : addr_elem) : bool :=
  negb (elem_value e =? 0) && addr_eq (Some (elem_key e)) (Some key).

(** The values removed, on which the destructor is called, their number being the
    counter. *)
Definition addr_clear (key : ioa_addr) (l : list addr_elem) : list addr_elem :=
  (fun e => if elem_matches key e then mk_addr_elem (elem_key e) 0 else e) <$> l.

Definition addr_list_remove (slh : addr_list_header) (key : ioa_addr) : addr_list_header * list Z :=
  (mk_addr_list (addr_clear key (main_list slh)) (addr_clear key (extra_list slh)),
   elem_value <$> filter (fun e => elem_matches key e = true) (main_list slh ++ extra_list slh)).

(** The elements in use, in the order of the loops. *)
Definition addr_live (slh : addr_list_header) : list addr_elem :=
  filter (fun e => elem_value e <> 0) (main_list slh ++ extra_list slh).

Definition addr_list_foreach {S : Type} (slh : addr_list_header) (func : Z -> S -> S) (s : S) : S :=
  foldl (fun s e => func (elem_value e) s) s (addr_live slh).

Definition addr_list_num_elements (slh : addr_list_header) : Z := zlen (addr_live slh).

Definition addr_list_size (slh : addr_list_header) : Z :=
  Z.of_nat ADDR_ARRAY_SIZE + zlen (extra_list slh).

Fixpoint addr_find (l : list addr_elem) (key : ioa_addr) : option (nat * addr_elem) :=
  match l with
  | [] => None
  | e :: l => if elem_matches key e then Some (O, e) else prod_map S id <$> addr_find l key
  end.

(** A pointer to an element: in the array in place or in the further one. *)
Definition addr_list_get (slh : addr_list_header) (key : ioa_addr) : option (bool * nat * addr_elem) :=
  match addr_find (main_list slh) key with
  | Some (i, e) => Some (true, i, e)
  | None =>
    match addr_find (extra_list slh) key with
    | Some (i, e) => Some (false, i, e)
    | None => None
    end
  end.

Definition addr_list_get_const (slh : addr_list_header) (key : ioa_addr) : option addr_elem :=
  snd <$> addr_list_get slh key.

(** [elem->value = value] through a pointer from [addr_list_get]. *)
Definition set_elem_value (slh : addr_list_header) (main : bool) (i : nat) (value : Z) : addr_list_header :=
  let set := alter (fun e => mk_addr_elem (elem_key e) value) i in
  if main then mk_addr_list (set (main_list slh)) (extra_list slh)
  else mk_addr_list (main_list slh) (set (extra_list slh)).

Definition addr_map_index (key : ioa_addr) : nat :=
  Z.to_nat (Z.land (addr_hash (Some key)) (Z.of_nat ADDR_MAP_SIZE - 1)).

Definition ur_addr_map_valid (map : ur_addr_map) : bool := magic map =? MAGIC_HASH.

Definition ur_addr_map_init : ur_addr_map :=
  mk_ur_addr_map (replicate ADDR_MAP_SIZE zero_list) MAGIC_HASH.

Definition ur_addr_map_clean (map : ur_addr_map) : ur_addr_map :=
  if ur_addr_map_valid map then mk_ur_addr_map (replicate ADDR_MAP_SIZE zero_list) 0 else map.

Definition ur_addr_map_put (map : ur_addr_map) (key : ioa_addr) (value : Z) : option (bool * ur_addr_map) :=
  if negb (ur_addr_map_valid map) then Some (false, map) else
  slh ← lists map !! addr_map_index key;
  let slh := match addr_list_get slh key with
             | Some (main, i, _) => set_elem_value slh main i value
             | None => addr_list_add slh key value
             end in
  Some (true, mk_ur_addr_map (<[addr_map_index key := slh]> (lists map)) (magic map)).

Definition ur_addr_map_get (map : ur_addr_map) (key : ioa_addr) : option (option Z) :=
  if negb (ur_addr_map_valid map) then Some None else
  slh ← lists map !! addr_map_index key;
  Some (elem_value <$> addr_list_get_const slh key).

(** Whether something was removed, and the values removed. *)
Definition ur_addr_map_del (map : ur_addr_map) (key : ioa_addr) : option (bool * list Z * ur_addr_map) :=
  if negb (ur_addr_map_valid map) then Some (false, [], map) else
  slh ← lists map !! addr_map_index key;
  let '(slh, vs) := addr_list_remove slh key in
  Some (bool_decide (0 < zlen vs), vs,
        mk_ur_addr_map (<[addr_map_index key := slh]> (lists map)) (magic map)).

Definition ur_addr_map_foreach {S : Type} (map : ur_addr_map) (func : Z -> S -> S) (s : S) : S :=
  if ur_addr_map_valid map then foldl (fun s slh => addr_list_foreach slh func s) s (lists map) else s.

Definition ur_addr_map_num_elements (map : ur_addr_map) : Z :=
  if ur_addr_map_valid map then foldl (fun r slh => r + addr_list_num_elements slh) 0 (lists map) else 0.

Definition ur_addr_map_size (map : ur_addr_map) : Z :=
  if ur_addr_map_valid map then foldl (fun r slh => r + addr_list_size slh) 0 (lists map) else 0.

(** ** One bucket as a single list of cells *)

Definition cells (slh : addr_list_header) : list addr_elem := main_list slh ++ extra_list slh.

(** What a bucket answers for a key. *)
Definition cells_view (l : list addr_elem) (key : ioa_addr) : option Z :=
  elem_value ∘ snd <$> addr_find l key.

Definition in_use (e : addr_elem) : Prop := elem_value e <> 0.

(** No two elements in use have equal keys. *)
Definition uniq (l : list addr_elem) : Prop :=
  forall i j e f, l !! i = Some e -> l !! j = Some f -> in_use e -> in_use f ->
    addr_eqv (elem_key e) (elem_key f) -> i = j.

Definition count (l : list addr_elem) : nat := length (filter in_use l).

Lemma elem_matches_true key e : elem_matches key e = true <-> in_use e /\ addr_eqv (elem_key e) key.
Proof.
  unfold elem_matches, in_use, addr_eqv. rewrite andb_true_iff, negb_true_iff, Z.eqb_neq. done.
Qed.

Lemma elem_matches_false key e : elem_matches key e = false <-> ~ (in_use e /\ addr_eqv (elem_key e) key).
Proof. rewrite <- elem_matches_true. by destruct (elem_matches key e). Qed.

Lemma addr_find_Some l key i e :
  addr_find l key = Some (i, e) -> l !! i = Some e /\ elem_matches key e = true.
Proof.
  revert i; induction l as [|f l IH]; intros i; cbn [addr_find]; [done|].
  destruct (elem_matches key f) eqn:E; [by intros [= <- <-]|].
  destruct (addr_find l key) as [[j g]|]; cbn; [|done]. intros [= <- <-]. by apply IH.
Qed.

Lemma addr_find_None l key i e :
  addr_find l key = None -> l !! i = Some e -> elem_matches key e = false.
Proof.
  revert i; induction l as [|f l IH]; intros i; cbn [addr_find]; [by destruct i|].
  destruct (elem_matches key f) eqn:E; [done|].
  destruct (addr_find l key) as [[j g]|]; cbn; [done|]. intros _.
  destruct i as [|i]; cbn; [by intros [= <-]|]. by apply IH.
Qed.

Lemma addr_find_app l1 l2 key :
  addr_find (l1 ++ l2) key
  = match addr_find l1 key with
    | Some r => Some r
    | None => prod_map (Nat.add (length l1)) id <$> addr_find l2 key
    end.
Proof.
  induction l1 as [|e l1 IH]; cbn [app addr_find length].
  - by destruct (addr_find l2 key) as [[i f]|].
  - destruct (elem_matches key e); [done|]. rewrite IH.
    destruct (addr_find l1 key) as [[i f]|]; [done|]. by destruct (addr_find l2 key) as [[i f]|].
Qed.

Lemma cells_view_spec l key w :
  uniq l -> (cells_view l key = Some w <->
    exists i e, l !! i = Some e /\ elem_matches key e = true /\ elem_value e = w).
Proof.
  intros Hu. unfold cells_view. split.
  - destruct (addr_find l key) as [[i e]|] eqn:E; cbn; [|done]. intros [= <-].
    apply addr_find_Some in E as [Hi Hm]. by exists i, e.
  - intros (i & e & Hi & Hm & <-). destruct (addr_find l key) as [[j f]|] eqn:E.
    + apply addr_find_Some in E as [Hj Hf]. cbn. do 2 f_equal.
      apply elem_matches_true in Hm as [Hm1 Hm2]. apply elem_matches_true in Hf as [Hf1 Hf2].
      assert (j = i) as ->; [|congruence].
      eapply Hu; try done. etransitivity; [done|by symmetry].
    + by rewrite (addr_find_None _ _ _ _ E Hi) in Hm.
Qed.

Lemma cells_view_ext l l' key key' :
  uniq l -> uniq l' ->
  (forall w, (exists i e, l !! i = Some e /\ elem_matches key e = true /\ elem_value e = w) <->
             (exists i e, l' !! i = Some e /\ elem_matches key' e = true /\ elem_value e = w)) ->
  cells_view l key = cells_view l' key'.
Proof.
  intros Hu Hu' H. apply option_eq. intros w. rewrite !cells_view_spec by done. apply H.
Qed.

(** Writing an element: [i] was free or held the key, and no other cell holds it. *)
Lemma write_view l l' i key key' v :
  uniq l -> l' !! i = Some (mk_addr_elem key' v) -> (forall j, j <> i -> l' !! j = l !! j) ->
  addr_eqv key' key ->
  (forall j e, j <> i -> l !! j = Some e -> elem_matches key e = false) ->
  (forall e, l !! i = Some e -> elem_value e = 0 \/ elem_matches key e = true) ->
  uniq l' /\ (forall k, cells_view l' k
    = if decide (addr_eqv key k) then if decide (v = 0) then None else Some v else cells_view l k).
Proof.
  intros Hu Hi Hj Hk Hne He.
  assert (forall j e, l' !! j = Some e -> j <> i -> in_use e -> ~ addr_eqv (elem_key e) key) as Ho.
  { intros j e Hje Hji Hin Heq. rewrite Hj in Hje by done.
    pose proof (Hne j e Hji Hje) as Hm. by apply elem_matches_false in Hm; apply Hm. }
  assert (uniq l') as Hu'.
  { intros a b e f Ha Hb Hea Hfb Heq.
    destruct (decide (a = i)) as [->|Hai], (decide (b = i)) as [->|Hbi]; [done|..].
    - rewrite Hi in Ha. injection Ha as <-. exfalso. apply (Ho b f Hb Hbi Hfb).
      etransitivity; [symmetry; exact Heq|exact Hk].
    - rewrite Hi in Hb. injection Hb as <-. exfalso. apply (Ho a e Ha Hai Hea).
      etransitivity; [exact Heq|exact Hk].
    - rewrite Hj in Ha, Hb by done. by eapply Hu. }
  split; [done|]. intros k. case_decide as Hkk; [case_decide as Hv|].
  - apply eq_None_not_Some. intros [w Hw]. apply cells_view_spec in Hw as (j & e & Hje & Hm & _); [|done].
    apply elem_matches_true in Hm as [Hm1 Hm2].
    destruct (decide (j = i)) as [->|Hji]; [rewrite Hi in Hje; injection Hje as <-; by apply Hm1|].
    apply (Ho j e Hje Hji Hm1). etransitivity; [exact Hm2|by symmetry].
  - apply cells_view_spec; [done|]. exists i, (mk_addr_elem key' v). split_and!; [done| |done].
    apply elem_matches_true. split; [done|]. cbn. by etransitivity.
  - apply cells_view_ext; [done..|]. intros w. split; intros (j & e & Hje & Hm & Hw).
    + destruct (decide (j = i)) as [->|Hji].
      * rewrite Hi in Hje. injection Hje as <-. apply elem_matches_true in Hm as [_ Hm]. cbn in Hm.
        exfalso. apply Hkk. etransitivity; [by symmetry|done].
      * exists j, e. by rewrite <- Hj.
    + destruct (decide (j = i)) as [->|Hji]; [|exists j, e; by rewrite Hj].
      apply elem_matches_true in Hm as [Hm1 Hm2]. destruct (He e Hje) as [H0|Hm']; [done|].
      apply elem_matches_true in Hm' as [_ Hm']. exfalso. apply Hkk. etransitivity; [by symmetry|done].
Qed.

(** Clearing every element that holds the key. *)
Lemma clear_view l key :
  uniq l ->
  uniq (addr_clear key l) /\
  (forall k, cells_view (addr_clear key l) k = if decide (addr_eqv key k) then None else cells_view l k).
Proof.
  intros Hu.
  assert (forall i e', addr_clear key l !! i = Some e' -> in_use e' ->
            l !! i = Some e' /\ elem_matches key e' = false) as Hc.
  { intros i e' Hi Hin. unfold addr_clear in Hi. rewrite list_lookup_fmap in Hi.
    destruct (l !! i) as [e|]; [|done]. cbn in Hi. injection Hi as <-.
    destruct (elem_matches key e) eqn:E; [by destruct Hin|done]. }
  assert (uniq (addr_clear key l)) as Hu'.
  { intros i j e f Hi Hj He Hf. destruct (Hc i e Hi He) as [Hi' _]. destruct (Hc j f Hj Hf) as [Hj' _].
    by eapply Hu. }
  split; [done|]. intros k. case_decide as Hk.
  - apply eq_None_not_Some. intros [w Hw]. apply cells_view_spec in Hw as (i & e & Hi & Hm & _); [|done].
    apply elem_matches_true in Hm as [Hm1 Hm2]. destruct (Hc i e Hi Hm1) as [_ Hm].
    apply elem_matches_false in Hm. apply Hm. split; [done|]. etransitivity; [done|by symmetry].
  - apply cells_view_ext; [done..|]. intros w. split; intros (i & e & Hi & Hm & Hw); exists i, e.
    + split; [|done]. apply elem_matches_true in Hm as [Hm _]. by apply (Hc i e).
    + split; [|done]. unfold addr_clear. rewrite list_lookup_fmap, Hi. cbn.
      destruct (elem_matches key e) eqn:E; [|done]. apply elem_matches_true in E as [_ E].
      apply elem_matches_true in Hm as [_ Hm]. exfalso. apply Hk. etransitivity; [by symmetry|done].
Qed.

(** ** Counting *)

#[export] Instance in_use_dec e : Decision (in_use e).
Proof. unfold in_use. apply _. Defined.

Definition used (v : Z) : nat := if decide (v = 0) then 0 else 1.

Lemma used_0 : used 0 = 0%nat.
Proof. done. Qed.

Lemma used_nonzero v : v <> 0 -> used v = 1%nat.
Proof. intros. unfold used. by rewrite decide_False. Qed.

Lemma count_cons e l : count (e :: l) = (used (elem_value e) + count l)%nat.
Proof.
  unfold count, used. rewrite filter_cons. unfold in_use at 1.
  by repeat case_decide; try done; exfalso; auto.
Qed.

Lemma count_app l1 l2 : count (l1 ++ l2) = (count l1 + count l2)%nat.
Proof. unfold count. by rewrite filter_app, length_app. Qed.

Lemma count_insert l i e e' :
  l !! i = Some e -> (count (<[i:=e']> l) + used (elem_value e) = count l + used (elem_value e'))%nat.
Proof.
  revert i; induction l as [|f l IH]; intros [|i]; cbn [lookup list_lookup]; try done.
  - intros [= ->]. change (<[0%nat:=e']> (e :: l)) with (e' :: l). rewrite !count_cons. lia.
  - intros Hi. change (<[S i:=e']> (f :: l)) with (f :: <[i:=e']> l). rewrite !count_cons.
    specialize (IH i Hi). lia.
Qed.

(** The elements a removal clears. *)
Lemma clear_count l key :
  (count (addr_clear key l) + length (filter (fun e => elem_matches key e = true) l) = count l)%nat.
Proof.
  induction l as [|e l IH]; [done|].
  change (addr_clear key (e :: l))
    with ((if elem_matches key e then mk_addr_elem (elem_key e) 0 else e) :: addr_clear key l).
  rewrite !count_cons, filter_cons.
  destruct (elem_matches key e) eqn:E.
  - rewrite decide_True by done. apply elem_matches_true in E as [E _]. cbn [length elem_value].
    rewrite used_0, (used_nonzero _ E). lia.
  - rewrite decide_False by done. lia.
Qed.

Lemma filter_none {A} (P : A -> Prop) `{!forall x, Decision (P x)} (l : list A) :
  (forall j x, l !! j = Some x -> ~ P x) -> filter P l = [].
Proof.
  induction l as [|x l IH]; intros Hn; [done|]. rewrite filter_cons.
  rewrite decide_False by (by apply (Hn O)). apply IH. intros j y Hj. by apply (Hn (S j)).
Qed.

Lemma alter_as_insert {A} (f : A -> A) (l : list A) (i : nat) x : l !! i = Some x -> alter f i l = <[i := f x]> l.
Proof. revert i; induction l as [|y l IH]; intros [|i] Hi; cbn in *; simplify_eq; try done. f_equal. by apply IH. Qed.

Lemma clear_values l key :
  uniq l -> elem_value <$> filter (fun e => elem_matches key e = true) l = option_list (cells_view l key).
Proof.
  induction l as [|e l IH]; intros Hu; [done|].
  assert (uniq l) as Hu' by (intros i j a b Hi Hj ???; by apply (inj S), (Hu (S i) (S j) a b)).
  rewrite filter_cons. unfold cells_view. cbn [addr_find]. destruct (elem_matches key e) eqn:E.
  - rewrite decide_True by done. cbn. f_equal.
    enough (filter (fun f => elem_matches key f = true) l = []) as -> by done.
    apply filter_none. intros j f Hj Hm.
    apply elem_matches_true in E as [E1 E2]. apply elem_matches_true in Hm as [Hm1 Hm2].
    assert (O = S j) as Hx; [|done].
    eapply (Hu O (S j) e f); try done. etransitivity; [done|by symmetry].
  - rewrite decide_False by done. rewrite IH by done. unfold cells_view.
    by destruct (addr_find l key) as [[i f]|].
Qed.

(** ** The operations on a bucket *)

Definition bucket_view (slh : addr_list_header) (key : ioa_addr) : option Z :=
  elem_value <$> addr_list_get_const slh key.

Lemma bucket_view_cells slh key : bucket_view slh key = cells_view (cells slh) key.
Proof.
  unfold bucket_view, addr_list_get_const, addr_list_get, cells_view, cells. rewrite addr_find_app.
  destruct (addr_find (main_list slh) key) as [[i e]|]; [done|].
  by destruct (addr_find (extra_list slh) key) as [[i e]|].
Qed.

Lemma lookup_app_plus {A} (l1 l2 : list A) j : (l1 ++ l2) !! (length l1 + j)%nat = l2 !! j.
Proof. rewrite lookup_app_r by lia. f_equal. lia. Qed.

Lemma addr_list_get_cells slh key main i e :
  addr_list_get slh key = Some (main, i, e) ->
  exists n, cells slh !! n = Some e /\ elem_matches key e = true /\ forall v,
    cells (set_elem_value slh main i v) = <[n := mk_addr_elem (elem_key e) v]> (cells slh).
Proof.
  unfold addr_list_get, cells, set_elem_value.
  destruct (addr_find (main_list slh) key) as [[j f]|] eqn:E.
  - intros [= <- <- <-]. apply addr_find_Some in E as [Hj Hm]. exists j.
    split; [by apply lookup_app_l_Some|]. split; [done|]. intros v. cbn [main_list extra_list].
    rewrite insert_app_l by by eapply lookup_lt_Some. f_equal. by rewrite (alter_as_insert _ _ _ _ Hj).
  - destruct (addr_find (extra_list slh) key) as [[j f]|] eqn:E'; [|done].
    intros [= <- <- <-]. apply addr_find_Some in E' as [Hj Hm]. exists (length (main_list slh) + j)%nat.
    split; [by rewrite lookup_app_plus|]. split; [done|].
    intros v. cbn [main_list extra_list].
    rewrite insert_app_r. f_equal. by rewrite (alter_as_insert _ _ _ _ Hj).
Qed.

Lemma addr_list_get_none slh key n e :
  addr_list_get slh key = None -> cells slh !! n = Some e -> elem_matches key e = false.
Proof.
  intros H. apply addr_find_None. unfold cells. rewrite addr_find_app. revert H. unfold addr_list_get.
  destruct (addr_find (main_list slh) key) as [[j f]|]; [done|].
  by destruct (addr_find (extra_list slh) key) as [[j f]|].
Qed.

Lemma addr_fill_spec l key v :
  match addr_fill l key v with
  | Some l' => exists n e, l !! n = Some e /\ elem_value e = 0 /\ l' = <[n := mk_addr_elem key v]> l
  | None => True
  end.
Proof.
  induction l as [|f l IH]; cbn [addr_fill]; [done|]. case_decide as E.
  - by exists O, f.
  - destruct (addr_fill l key v) as [l'|]; cbn; [|done]. destruct IH as (n & e & H1 & H2 & ->).
    by exists (S n), e.
Qed.

(** Adding writes a free cell, or one behind the last. *)
Lemma addr_list_add_cells slh key v :
  v <> 0 ->
  (exists n e, cells slh !! n = Some e /\ elem_value e = 0 /\
     cells (addr_list_add slh key v) = <[n := mk_addr_elem key v]> (cells slh)) \/
  cells (addr_list_add slh key v) = cells slh ++ [mk_addr_elem key v].
Proof.
  intros Hv. unfold addr_list_add, cells. rewrite decide_False by done.
  pose proof (addr_fill_spec (main_list slh) key v) as Hm.
  destruct (addr_fill (main_list slh) key v) as [l|].
  { left. destruct Hm as (n & e & H1 & H2 & ->). exists n, e. split; [by apply lookup_app_l_Some|].
    split; [done|]. cbn [main_list extra_list]. by rewrite insert_app_l by by eapply lookup_lt_Some. }
  pose proof (addr_fill_spec (extra_list slh) key v) as He.
  destruct (addr_fill (extra_list slh) key v) as [l|].
  { left. destruct He as (n & e & H1 & H2 & ->). exists (length (main_list slh) + n)%nat, e.
    split; [by rewrite lookup_app_plus|]. split; [done|].
    cbn [main_list extra_list]. by rewrite insert_app_r. }
  right. cbn [main_list extra_list]. by rewrite (assoc_L (++)).
Qed.

Definition bucket_put (slh : addr_list_header) (key : ioa_addr) (v : Z) : addr_list_header :=
  match addr_list_get slh key with
  | Some (main, i, _) => set_elem_value slh main i v
  | None => addr_list_add slh key v
  end.

Definition present (o : option Z) : nat := match o with Some _ => 1 | None => 0 end.

Lemma bucket_put_spec slh key v :
  uniq (cells slh) -> inet_addr key ->
  uniq (cells (bucket_put slh key v)) /\
  (forall k, bucket_view (bucket_put slh key v) k
     = if decide (addr_eqv key k) then if decide (v = 0) then None else Some v else bucket_view slh k) /\
  (count (cells (bucket_put slh key v)) + present (bucket_view slh key)
     = count (cells slh) + used v)%nat.
Proof.
  intros Hu Hin. unfold bucket_put.
  assert (forall k, bucket_view slh k = cells_view (cells slh) k) as Hb by apply bucket_view_cells.
  destruct (addr_list_get slh key) as [[[main i] e]|] eqn:E.
  - destruct (addr_list_get_cells _ _ _ _ _ E) as (n & Hn & Hm & Hs).
    pose proof (proj1 (elem_matches_true _ _) Hm) as [Hm1 Hm2].
    destruct (write_view (cells slh) (cells (set_elem_value slh main i v)) n key (elem_key e) v)
      as [Hu' Hv]; [done|..].
    + rewrite Hs. apply list_lookup_insert_eq. by eapply lookup_lt_Some.
    + intros j Hj. rewrite Hs. by apply list_lookup_insert_ne.
    + done.
    + intros j f Hj Hf. apply elem_matches_false. intros [Hf1 Hf2]. apply Hj.
      eapply Hu; try done. etransitivity; [done|by symmetry].
    + intros f Hf. right. congruence.
    + split; [done|]. split; [intros k; by rewrite bucket_view_cells, Hv, Hb|].
      rewrite Hs, Hb. assert (cells_view (cells slh) key = Some (elem_value e)) as ->
        by (apply cells_view_spec; eauto).
      pose proof (count_insert _ _ _ (mk_addr_elem (elem_key e) v) Hn) as Hc. cbn [elem_value] in Hc.
      rewrite (used_nonzero _ Hm1) in Hc. cbn [present]. lia.
  - assert (bucket_view slh key = None) as Ev.
    { unfold bucket_view, addr_list_get_const. by rewrite E. }
    rewrite Ev. cbn [present]. destruct (decide (v = 0)) as [->|Hv0].
    + unfold addr_list_add. rewrite decide_True by done. split; [done|]. split; [|by rewrite used_0].
      intros k. case_decide as Hk; [|done]. rewrite Hb.
      apply eq_None_not_Some. intros [w Hw].
      apply cells_view_spec in Hw as (j & f & Hj & Hm & _); [|done].
      pose proof (addr_list_get_none _ _ _ _ E Hj) as Hn. apply elem_matches_false in Hn. apply Hn.
      apply elem_matches_true in Hm as [? ?]. split; [done|]. etransitivity; [done|by symmetry].
    + assert (exists n, cells (addr_list_add slh key v) !! n = Some (mk_addr_elem key v) /\
        (forall j, j <> n -> cells (addr_list_add slh key v) !! j = cells slh !! j) /\
        (forall e, cells slh !! n = Some e -> elem_value e = 0) /\
        count (cells (addr_list_add slh key v)) = S (count (cells slh))) as (n & H1 & H2 & H3 & H4).
      { destruct (addr_list_add_cells slh key v Hv0) as [(n & e & Hn & He & ->) | -> ].
        - exists n. split_and!.
          + apply list_lookup_insert_eq. by eapply lookup_lt_Some.
          + intros. by apply list_lookup_insert_ne.
          + intros. congruence.
          + pose proof (count_insert _ _ _ (mk_addr_elem key v) Hn) as Hc. cbn [elem_value] in Hc.
            rewrite He, used_0, (used_nonzero _ Hv0) in Hc. lia.
        - exists (length (cells slh)). split_and!.
          + rewrite lookup_app_r, Nat.sub_diag by lia. done.
          + intros j Hj. destruct (decide (j < length (cells slh))%nat).
            * by rewrite lookup_app_l.
            * rewrite !lookup_ge_None_2; [done|lia|]. rewrite length_app. cbn. lia.
          + intros e He. apply lookup_lt_Some in He. lia.
          + rewrite count_app, count_cons. cbn [elem_value].
            rewrite (used_nonzero _ Hv0). cbn. lia. }
      destruct (write_view (cells slh) (cells (addr_list_add slh key v)) n key key v) as [Hu' Hv];
        [done..|by apply addr_eqv_refl| | |].
      * intros j f _ Hf. by eapply addr_list_get_none.
      * auto.
      * split; [done|]. split; [|rewrite (used_nonzero _ Hv0); lia].
        intros k. by rewrite bucket_view_cells, Hv, Hb, (decide_False (P := v = 0)).
Qed.

Lemma bucket_remove_spec slh key slh' vs :
  uniq (cells slh) -> addr_list_remove slh key = (slh', vs) ->
  uniq (cells slh') /\ vs = option_list (bucket_view slh key) /\
  (forall k, bucket_view slh' k = if decide (addr_eqv key k) then None else bucket_view slh k) /\
  (count (cells slh') + length vs = count (cells slh))%nat.
Proof.
  intros Hu [= <- <-].
  assert (cells (mk_addr_list (addr_clear key (main_list slh)) (addr_clear key (extra_list slh)))
          = addr_clear key (cells slh)) as Ec by (unfold cells, addr_clear; by rewrite fmap_app).
  rewrite Ec. destruct (clear_view (cells slh) key Hu) as [Hu' Hv]. split; [done|]. split; [|split].
  - rewrite bucket_view_cells. by apply clear_values.
  - intros k. by rewrite !bucket_view_cells, Ec, Hv.
  - rewrite length_fmap. apply clear_count.
Qed.

(** ** The map refines a function on addresses up to equality *)

Definition addr_ok (m : ur_addr_map) : Prop :=
  magic m = MAGIC_HASH /\ length (lists m) = ADDR_MAP_SIZE /\ Forall (fun b => uniq (cells b)) (lists m).

(** What the map answers for a key. *)
Definition view (m : ur_addr_map) (key : ioa_addr) : option Z := default None (ur_addr_map_get m key).

Lemma addr_map_index_lt k : (addr_map_index k < ADDR_MAP_SIZE)%nat.
Proof.
  unfold addr_map_index. change (Z.of_nat ADDR_MAP_SIZE - 1) with (Z.ones 10).
  rewrite Z.land_ones by lia. pose proof (Z.mod_pos_bound (addr_hash (Some k)) (2 ^ 10)).
  change ADDR_MAP_SIZE with (Z.to_nat 1024). lia.
Qed.

#[export] Instance addr_map_index_proper : Proper (addr_eqv ==> eq) addr_map_index.
Proof.
  intros a b H. unfold addr_map_index.
  pose proof (addr_hash_proper _ _ H) as E. cbv beta in E. by rewrite E.
Qed.

Lemma addr_valid m : addr_ok m -> ur_addr_map_valid m = true.
Proof. intros [Hm _]. unfold ur_addr_map_valid. by rewrite Hm, Z.eqb_refl. Qed.

Lemma addr_bucket m k :
  addr_ok m -> exists b, lists m !! addr_map_index k = Some b /\ uniq (cells b).
Proof.
  intros (_ & Hl & Hu). destruct (lookup_lt_is_Some_2 (lists m) (addr_map_index k)) as [b Hb].
  - rewrite Hl. apply addr_map_index_lt.
  - exists b. split; [done|]. apply (Forall_elem _ _ b Hu). by eapply list_elem_of_lookup_2.
Qed.

Lemma view_bucket m k b :
  addr_ok m -> lists m !! addr_map_index k = Some b ->
  ur_addr_map_get m k = Some (bucket_view b k) /\ view m k = bucket_view b k.
Proof.
  intros Hok Hb. unfold view, ur_addr_map_get. rewrite addr_valid by done. cbn [negb].
  by rewrite Hb.
Qed.

Lemma foldl_sum {A} (f : A -> Z) l a : foldl (fun r x => r + f x) a l = a + foldl (fun r x => r + f x) 0 l.
Proof.
  revert a; induction l as [|x l IH]; intros a; cbn [foldl]; [lia|]. rewrite IH, (IH (0 + f x)). lia.
Qed.

Lemma foldl_sum_insert {A} (f : A -> Z) l i x y :
  l !! i = Some x ->
  foldl (fun r x => r + f x) 0 (<[i:=y]> l) + f x = foldl (fun r x => r + f x) 0 l + f y.
Proof.
  revert i; induction l as [|z l IH]; intros [|i]; cbn [lookup list_lookup]; try done.
  - intros [= ->]. change (<[0%nat:=y]> (x :: l)) with (y :: l). cbn [foldl].
    rewrite (foldl_sum _ _ (0 + f y)), (foldl_sum _ _ (0 + f x)). lia.
  - intros Hi. change (<[S i:=y]> (z :: l)) with (z :: <[i:=y]> l). cbn [foldl].
    rewrite (foldl_sum _ _ (0 + f z)), (foldl_sum _ l (0 + f z)). specialize (IH i Hi). lia.
Qed.

(** Replacing the bucket of a key. *)
Lemma update_bucket m k b b' (post : ioa_addr -> option Z) :
  addr_ok m -> lists m !! addr_map_index k = Some b -> uniq (cells b') ->
  (forall k', bucket_view b' k' = if decide (addr_eqv k k') then post k' else bucket_view b k') ->
  let m' := mk_ur_addr_map (<[addr_map_index k := b']> (lists m)) (magic m) in
  addr_ok m' /\
  (forall k', view m' k' = if decide (addr_eqv k k') then post k' else view m k') /\
  ur_addr_map_num_elements m' + Z.of_nat (count (cells b))
    = ur_addr_map_num_elements m + Z.of_nat (count (cells b')).
Proof.
  intros Hok Hb Hu Hv m'. pose proof Hok as (Hm & Hl & Hall).
  assert (addr_ok m') as Hok'.
  { split; [done|]. split; [by cbn; rewrite length_insert|]. cbn [lists m']. by apply Forall_insert. }
  assert (addr_map_index k < length (lists m))%nat as Hlt by by eapply lookup_lt_Some.
  split; [done|]. split.
  - intros k'. destruct (decide (addr_map_index k' = addr_map_index k)) as [Ei|Ei].
    + destruct (view_bucket m' k' b') as [_ ->]; [done|cbn [lists m']; rewrite Ei; by apply list_lookup_insert_eq|].
      destruct (view_bucket m k' b) as [_ ->]; [done|by rewrite Ei|]. apply Hv.
    + rewrite decide_False by (intros H; by rewrite H in Ei).
      destruct (addr_bucket m k' Hok) as (c & Hc & _).
      destruct (view_bucket m' k' c) as [_ ->]; [done|cbn [lists m']; by rewrite list_lookup_insert_ne|].
      by destruct (view_bucket m k' c) as [_ ->].
  - unfold ur_addr_map_num_elements. rewrite !addr_valid by done. cbn [lists m'].
    apply (foldl_sum_insert addr_list_num_elements _ _ _ b' Hb).
Qed.

Lemma addr_map_put_spec m k v :
  addr_ok m -> inet_addr k ->
  exists m', ur_addr_map_put m k v = Some (true, m') /\ addr_ok m' /\
    (forall k', view m' k' = if decide (addr_eqv k k') then if decide (v = 0) then None else Some v
                             else view m k') /\
    ur_addr_map_num_elements m' + Z.of_nat (present (view m k))
      = ur_addr_map_num_elements m + Z.of_nat (used v).
Proof.
  intros Hok Hk. destruct (addr_bucket m k Hok) as (b & Hb & Hu).
  destruct (bucket_put_spec b k v Hu Hk) as (Hu' & Hv & Hc).
  destruct (update_bucket m k b (bucket_put b k v) (fun _ => if decide (v = 0) then None else Some v))
    as (Hok' & Hv' & Hn); [done..|].
  eexists. split; [|split; [exact Hok'|split; [exact Hv'|]]].
  - unfold ur_addr_map_put. rewrite addr_valid by done. cbn [negb]. by rewrite Hb.
  - destruct (view_bucket m k b) as [_ ->]; [done..|]. lia.
Qed.

Lemma addr_map_del_spec m k :
  addr_ok m ->
  exists m', ur_addr_map_del m k = Some (bool_decide (is_Some (view m k)), option_list (view m k), m') /\
    addr_ok m' /\
    (forall k', view m' k' = if decide (addr_eqv k k') then None else view m k') /\
    ur_addr_map_num_elements m' + Z.of_nat (present (view m k)) = ur_addr_map_num_elements m.
Proof.
  intros Hok. destruct (addr_bucket m k Hok) as (b & Hb & Hu).
  destruct (addr_list_remove b k) as [b' vs] eqn:E.
  destruct (bucket_remove_spec b k b' vs Hu E) as (Hu' & -> & Hv & Hc).
  destruct (update_bucket m k b b' (fun _ => None)) as (Hok' & Hv' & Hn); [done..|].
  destruct (view_bucket m k b) as [_ Ev]; [done..|].
  eexists. split; [|split; [exact Hok'|split; [exact Hv'|]]].
  - unfold ur_addr_map_del. rewrite addr_valid by done. cbn [negb]. rewrite Hb. mred. rewrite E, <- Ev.
    do 3 f_equal. apply bool_decide_ext. destruct (view m k); cbn; split; intros H; try done; try lia.
  - rewrite Ev. revert Hc. by destruct (bucket_view b k); simpl; lia.
Qed.

Lemma addr_map_init_ok : addr_ok ur_addr_map_init.
Proof.
  split; [done|]. split; [apply length_replicate|]. apply Forall_replicate.
  intros i j e f Hi _ He _ _. exfalso. apply He.
  assert (e = zero_elem) as -> by (unfold cells in Hi; cbn [main_list extra_list zero_list] in Hi;
    rewrite app_nil_r in Hi; by apply lookup_replicate in Hi as [-> _]). done.
Qed.

Lemma view_init k : view ur_addr_map_init k = None.
Proof.
  destruct (view_bucket ur_addr_map_init k zero_list) as [_ ->]; [apply addr_map_init_ok| |done].
  apply lookup_replicate. split; [done|apply addr_map_index_lt].
Qed.

(** Putting a value under a key makes every key equal to it answer the value (or
    nothing, for the value 0), leaves every other key alone, and counts one element
    more exactly when the key was absent and the value is not 0. *)
Theorem ur_addr_map_put_refines m k v :
  addr_ok m -> inet_addr k ->
  exists m', ur_addr_map_put m k v = Some (true, m') /\ addr_ok m' /\
    (forall k', view m' k' = if decide (addr_eqv k k') then if decide (v = 0) then None else Some v
                             else view m k') /\
    ur_addr_map_num_elements m' + Z.of_nat (present (view m k))
      = ur_addr_map_num_elements m + Z.of_nat (used v).
Proof. apply addr_map_put_spec. Qed.

(** Deleting a key answers whether it was there, calls the destructor on its value
    and no other, removes it under every equal key, and leaves the others alone. *)
Theorem ur_addr_map_del_refines m k :
  addr_ok m ->
  exists m', ur_addr_map_del m k = Some (bool_decide (is_Some (view m k)), option_list (view m k), m') /\
    addr_ok m' /\
    (forall k', view m' k' = if decide (addr_eqv k k') then None else view m k') /\
    ur_addr_map_num_elements m' + Z.of_nat (present (view m k)) = ur_addr_map_num_elements m.
Proof. apply addr_map_del_spec. Qed.

Lemma ur_addr_map_put_refines_witness :
  let a := v4 10 0 0 5 3478 in
  exists m', ur_addr_map_put ur_addr_map_init a 7 = Some (true, m') /\ view m' a = Some 7.
Proof.
  intros a. destruct (ur_addr_map_put_refines ur_addr_map_init a 7) as (m' & H1 & _ & H2 & _);
    [apply addr_map_init_ok|by left|].
  exists m'. split; [exact H1|]. rewrite (H2 a). rewrite decide_True by reflexivity. reflexivity.
Defined.

Lemma ur_addr_map_del_refines_witness :
  let a := v4 10 0 0 5 3478 in
  exists m1 m2, ur_addr_map_put ur_addr_map_init a 7 = Some (true, m1) /\
    ur_addr_map_del m1 a = Some (true, [7], m2) /\ view m2 a = None.
Proof.
  intros a. destruct (addr_map_put_spec ur_addr_map_init a 7) as (m1 & H1 & Hok & H2 & _);
    [apply addr_map_init_ok|by left|].
  destruct (ur_addr_map_del_refines m1 a Hok) as (m2 & H3 & _ & H4 & _).
  assert (view m1 a = Some 7) as E by (rewrite (H2 a), decide_True by reflexivity; reflexivity).
  rewrite E in H3. exists m1, m2. split; [exact H1|]. split; [exact H3|].
  rewrite (H4 a), decide_True by reflexivity. reflexivity.
Defined.
