(* ===== verification/StringMap.v ===== *)
(** * The string map of [server/ns_turn_maps.c]

    A table of 1024 linked lists of elements; each element owns a copy of its key.
    Keys are C strings; values are pointers, 0 for null.  [free_value] says whether a
    destructor was given: the values it is called on are returned, in order. *)

From S2P Require Import Prelude CString Buckets.

Definition STRING_MAP_SIZE : nat := 1024.
Definition STRING_MAP_MAGIC : Z := 0x90ABCDEF.

(** The key array, with its terminator, and the value. *)
Record string_elem := mk_string_elem { str_key : list Z; str_value : Z }.

Record ur_string_map := mk_ur_string_map {
  str_lists : list (list string_elem);
  str_magic : Z;
  del_value_func : bool
}.

Definition string_list_size (sl : list string_elem) : Z := zlen sl.

(** The values the destructor is called on. *)
Definition destroyed (free_value : bool) (v : Z) : list Z := if free_value then [v] else [].

Definition string_list_free (sl : list string_elem) (free_value : bool) : list Z :=
  sl ≫= (fun e => if decide (str_value e = 0) then [] else destroyed free_value (str_value e)).

(** [malloc_ok]: whether the two allocations succeed. *)
Definition string_list_add (sl : list string_elem) (key : list Z) (value : Z) (malloc_ok : bool)
    : option (list string_elem) :=
  if negb malloc_ok then Some sl else
  n ← strlen key;
  k ← slice key 0 (n + 1);
  Some (mk_string_elem k value :: sl).

(** The list left, the values destroyed and the counter. *)
Fixpoint string_list_remove (sl : list string_elem) (key : list Z) (free_value : bool)
    : option (list string_elem * list Z * Z) :=
  match sl with
  | [] => Some ([], [], 0)
  | elem :: tail =>
    eq ← strcmp_eq (str_key elem) key;
    '(rest, vs, n) ← string_list_remove tail key free_value;
    if (eq : bool) then Some (rest, destroyed free_value (str_value elem) ++ vs, n + 1)
    else Some (elem :: rest, vs, n)
  end.

(** The position and the element found. *)
Fixpoint string_list_get (sl : list string_elem) (key : list Z) : option (option (nat * string_elem)) :=
  match sl with
  | [] => Some None
  | elem :: tail =>
    eq ← strcmp_eq (str_key elem) key;
    if (eq : bool) then Some (Some (O, elem))
    else r ← string_list_get tail key; Some (option_map (prod_map S id) r)
  end.

(** [hash = c + (hash << 6) + (hash << 16) - hash], in 32 bits. *)
Definition string_hash_step (hash c : Z) : Z :=
  u32 (c + u32 (Z.shiftl hash 6) + u32 (Z.shiftl hash 16) - hash).

Definition string_hash (key : list Z) : option Z := foldl string_hash_step 0 <$> cstring key.

Definition string_map_index (key : list Z) : option nat :=
  h ← string_hash key; Some (Z.to_nat (h mod Z.of_nat STRING_MAP_SIZE)).

Definition ur_string_map_valid (map : ur_string_map) : bool := str_magic map =? STRING_MAP_MAGIC.

Definition ur_string_map_create (free_value malloc_ok : bool) : option ur_string_map :=
  if negb malloc_ok then None
  else Some (mk_ur_string_map (replicate STRING_MAP_SIZE []) STRING_MAP_MAGIC free_value).

(** The result, the values destroyed and the map. *)
Definition ur_string_map_put (map : ur_string_map) (key : list Z) (value : Z) (malloc_ok : bool)
    : option (bool * list Z * ur_string_map) :=
  if negb (ur_string_map_valid map) then Some (false, [], map) else
  i ← string_map_index key;
  slh ← str_lists map !! i;
  elem ← string_list_get slh key;
  match elem with
  | Some (n, e) =>
    if decide (str_value e <> value) then
      Some (true, destroyed (del_value_func map) (str_value e),
            mk_ur_string_map (<[i := <[n := mk_string_elem (str_key e) value]> slh]> (str_lists map))
              (str_magic map) (del_value_func map))
    else Some (true, [], map)
  | None =>
    slh ← string_list_add slh key value malloc_ok;
    Some (true, [], mk_ur_string_map (<[i := slh]> (str_lists map)) (str_magic map) (del_value_func map))
  end.

Definition ur_string_map_get (map : ur_string_map) (key : list Z) : option (option Z) :=
  if negb (ur_string_map_valid map) then Some None else
  i ← string_map_index key;
  slh ← str_lists map !! i;
  elem ← string_list_get slh key;
  Some (option_map (fun e => str_value e.2) elem).

Definition ur_string_map_del (map : ur_string_map) (key : list Z) : option (bool * list Z * ur_string_map) :=
  if negb (ur_string_map_valid map) then Some (false, [], map) else
  i ← string_map_index key;
  slh ← str_lists map !! i;
  '(slh, vs, counter) ← string_list_remove slh key (del_value_func map);
  Some (bool_decide (counter > 0), vs,
        mk_ur_string_map (<[i := slh]> (str_lists map)) (str_magic map) (del_value_func map)).

(** The values destroyed, and the emptied map. *)
Definition ur_string_map_clean (map : ur_string_map) : list Z * ur_string_map :=
  if ur_string_map_valid map then
    (str_lists map ≫= (fun sl => string_list_free sl (del_value_func map)),
     mk_ur_string_map ((fun _ => []) <$> str_lists map) (str_magic map) (del_value_func map))
  else ([], map).

(** Freeing the map: the values destroyed; the pointer becomes null. *)
Definition ur_string_map_free (map : option ur_string_map) : list Z * option ur_string_map :=
  match map with
  | Some map =>
    if ur_string_map_valid map then
      (str_lists map ≫= (fun sl => string_list_free sl (del_value_func map)), None)
    else ([], Some map)
  | None => ([], None)
  end.

Definition ur_string_map_size (map : ur_string_map) : Z :=
  if ur_string_map_valid map then foldl (fun ret sl => ret + string_list_size sl) 0 (str_lists map) else 0.

(** ** The map refines a finite map from strings *)

Definition c_string (s : list Z) : Prop := Forall (fun c => c <> 0) s.

(** The entries of a list, by the contents of their keys. *)
Definition str_entries (sl : list string_elem) : list (list Z * Z) :=
  (fun e => (default [] (cstring (str_key e)), str_value e)) <$> sl.

(** The bucket of a string. *)
Definition str_bucket (s : list Z) : nat :=
  Z.to_nat (foldl string_hash_step 0 s mod Z.of_nat STRING_MAP_SIZE).

Definition elem_ok (i : nat) (e : string_elem) : Prop :=
  exists s, str_key e = s ++ [0] /\ c_string s /\ str_bucket s = i.

Definition str_ok (m : ur_string_map) : Prop :=
  str_magic m = STRING_MAP_MAGIC /\ length (str_lists m) = STRING_MAP_SIZE /\
  forall i sl, str_lists m !! i = Some sl -> Forall (elem_ok i) sl.

Definition str_rep (m : ur_string_map) (M : gmap (list Z) Z) : Prop :=
  str_ok m /\ represents (entries str_entries (str_lists m)) M.

Lemma str_index s rest : c_string s -> string_map_index (s ++ 0 :: rest) = Some (str_bucket s).
Proof. intros H. unfold string_map_index, string_hash. by rewrite cstring_app. Qed.

Lemma str_bucket_lt s : (str_bucket s < STRING_MAP_SIZE)%nat.
Proof.
  unfold str_bucket. set (h := foldl _ _ _). change (Z.of_nat STRING_MAP_SIZE) with 1024.
  pose proof (Z.mod_pos_bound h 1024). change STRING_MAP_SIZE with (Z.to_nat 1024). lia.
Qed.

Lemma str_entries_cons e sl s :
  str_key e = s ++ [0] -> c_string s -> str_entries (e :: sl) = (s, str_value e) :: str_entries sl.
Proof. intros Hk Hs. unfold str_entries. cbn. by rewrite Hk, cstring_app. Qed.

Lemma strcmp_keys s k rest :
  c_string s -> c_string k -> strcmp_eq (s ++ [0]) (k ++ 0 :: rest) = Some (bool_decide (s = k)).
Proof. intros. by apply strcmp_eq_spec; apply cstring_app. Qed.

Lemma string_list_get_spec i sl k rest :
  Forall (elem_ok i) sl -> c_string k ->
  exists r, string_list_get sl (k ++ 0 :: rest) = Some r /\
    match r with
    | Some (n, e) => sl !! n = Some e /\ str_key e = k ++ [0] /\ (k, str_value e) ∈ str_entries sl /\
        forall v, str_entries sl ≡ₚ (k, str_value e) :: str_entries (delete n sl) /\
          str_entries (<[n := mk_string_elem (str_key e) v]> sl) ≡ₚ (k, v) :: str_entries (delete n sl)
    | None => k ∉ (str_entries sl).*1
    end.
Proof.
  intros H Hk. induction H as [|e sl (s & He & Hs & Hi) _ IH]; cbn [string_list_get].
  - exists None. split; [done|]. apply not_elem_of_nil.
  - rewrite He, strcmp_keys by done. mred. rewrite (str_entries_cons e sl s) by done.
    case_bool_decide as Heq.
    + subst s. eexists. split; [done|]. cbn [lookup list_lookup]. split_and!; [done|done|by left|].
      intros v. split; [done|]. change (<[0%nat := ?x]> (e :: sl)) with (x :: sl).
      by rewrite (str_entries_cons _ _ k).
    + destruct IH as (r & -> & Hr). mred. eexists. split; [done|].
      destruct r as [[n f]|]; cbn [option_map prod_map id fst snd].
      * destruct Hr as (H1 & H2 & H3 & H4). split_and!; [done|done|by right|]. intros v.
        destruct (H4 v) as [P1 P2].
        change (delete (S n) (e :: sl)) with (e :: delete n sl).
        change (<[S n := ?x]> (e :: sl)) with (e :: <[n := x]> sl).
        rewrite !(str_entries_cons e _ s) by done. rewrite P2, P1 at 1.
        split; apply Permutation_swap.
      * cbn. rewrite not_elem_of_cons. by split; [congruence|].
Qed.

Lemma string_list_remove_spec i sl k rest fv :
  Forall (elem_ok i) sl -> c_string k -> NoDup (str_entries sl).*1 ->
  exists sl' vs n, string_list_remove sl (k ++ 0 :: rest) fv = Some (sl', vs, n) /\ Forall (elem_ok i) sl' /\
    ((exists v, str_entries sl ≡ₚ (k, v) :: str_entries sl' /\ vs = destroyed fv v /\ n = 1) \/
     (k ∉ (str_entries sl).*1 /\ sl' = sl /\ vs = [] /\ n = 0)).
Proof.
  intros H Hk. induction H as [|e sl (s & He & Hs & Hi) Hsl IH]; cbn [string_list_remove].
  - intros _. exists [], [], 0. split_and!; [done|done|]. right. split_and!; try done. apply not_elem_of_nil.
  - rewrite (str_entries_cons e sl s), He, strcmp_keys by done. cbn [fmap list_fmap fst].
    intros [Hn1 Hn2]%NoDup_cons. destruct (IH Hn2) as (sl' & vs & n & -> & Hok & Hc). mred.
    case_bool_decide as Heq.
    + subst s. destruct Hc as [(v & Hp & _)|(_ & -> & -> & ->)].
      * exfalso. apply Hn1. rewrite Hp. by left.
      * exists sl, (destroyed fv (str_value e)), 1. rewrite app_nil_r. split_and!; [done|done|].
        left. by exists (str_value e).
    + exists (e :: sl'), vs, n. split_and!; [done|constructor; [by exists s|done]|].
      destruct Hc as [(v & Hp & -> & ->)|(Hnk & -> & -> & ->)].
      * left. exists v. split_and!; try done. rewrite (str_entries_cons e sl' s), Hp by done.
        apply Permutation_swap.
      * right. split_and!; try done. rewrite not_elem_of_cons. split; [congruence|done].
Qed.

(** ** The operations on the map *)

Lemma str_valid m : str_ok m -> ur_string_map_valid m = true.
Proof. intros [Hm _]. unfold ur_string_map_valid. by rewrite Hm, Z.eqb_refl. Qed.

Lemma str_find m k :
  str_ok m -> exists sl, str_lists m !! str_bucket k = Some sl /\ Forall (elem_ok (str_bucket k)) sl.
Proof.
  intros (_ & Hl & Ha). destruct (lookup_lt_is_Some_2 (str_lists m) (str_bucket k)) as [sl Hs].
  - rewrite Hl. apply str_bucket_lt.
  - exists sl. eauto.
Qed.

(** A string is a key of the map exactly when it is one of its bucket. *)
Lemma str_bucket_elem m k v sl :
  str_ok m -> str_lists m !! str_bucket k = Some sl ->
  ((k, v) ∈ entries str_entries (str_lists m) <-> (k, v) ∈ str_entries sl).
Proof.
  intros (_ & _ & Ha) Hk. rewrite entries_elem. split; [|by eauto].
  intros (i & b & Hi & Hin). pose proof (Ha _ _ Hi) as Hb. pose proof Hin as Hin'.
  apply list_elem_of_fmap in Hin as (e & [= Ek _] & He).
  destruct (Forall_elem _ _ _ Hb He) as (s & Es & Hs & Hi'). rewrite Es, cstring_app in Ek by done.
  cbn in Ek. subst s i. congruence.
Qed.

Lemma str_present m M k v sl :
  str_rep m M -> str_lists m !! str_bucket k = Some sl -> (k, v) ∈ str_entries sl -> M !! k = Some v.
Proof.
  intros [Hok Hr] Hi He. apply (represents_lookup _ _ _ _ Hr). by apply (str_bucket_elem m k v sl).
Qed.

Lemma str_absent m M k sl :
  str_rep m M -> str_lists m !! str_bucket k = Some sl -> k ∉ (str_entries sl).*1 -> M !! k = None.
Proof.
  intros [Hok Hr] Hi Hn. apply eq_None_not_Some. intros [v Hv]. apply Hn.
  apply (represents_lookup _ _ _ _ Hr), (str_bucket_elem m k v sl) in Hv; [|done..].
  apply list_elem_of_fmap. by exists (k, v).
Qed.

(** Replacing the bucket of a string. *)
Lemma str_ok_insert m k sl' :
  str_ok m -> Forall (elem_ok (str_bucket k)) sl' ->
  str_ok (mk_ur_string_map (<[str_bucket k := sl']> (str_lists m)) (str_magic m) (del_value_func m)).
Proof.
  intros (Hm & Hl & Ha) Hok. split; [done|]. split; [by cbn; rewrite length_insert|].
  intros i b Hi. cbn [str_lists] in Hi.
  apply list_lookup_insert_Some in Hi as [(<- & <- & _)|[_ Hi]]; [done|by apply Ha].
Qed.

Lemma str_get_rep m M k rest :
  str_rep m M -> c_string k -> ur_string_map_get m (k ++ 0 :: rest) = Some (M !! k).
Proof.
  intros H Hk. pose proof H as [Hok Hr]. destruct (str_find m k Hok) as (sl & Hi & Hsl).
  unfold ur_string_map_get. rewrite str_valid by done. cbn [negb]. rewrite str_index by done. mred.
  rewrite Hi. mred. destruct (string_list_get_spec _ _ k rest Hsl Hk) as (r & -> & Hr'). mred.
  destruct r as [[n e]|]; cbn [option_map snd].
  - destruct Hr' as (_ & _ & He & _). by rewrite (str_present m M k _ sl H Hi He).
  - by rewrite (str_absent m M k sl H Hi Hr').
Qed.

Definition replaced (fv : bool) (old : option Z) (v : Z) : list Z :=
  match old with
  | Some w => if decide (w <> v) then destroyed fv w else []
  | None => []
  end.

Lemma elem_ok_value i e v : elem_ok i e -> elem_ok i (mk_string_elem (str_key e) v).
Proof. intros (s & H). by exists s. Qed.

Lemma str_put_rep m M k v rest :
  str_rep m M -> c_string k ->
  exists m', ur_string_map_put m (k ++ 0 :: rest) v true
      = Some (true, replaced (del_value_func m) (M !! k) v, m') /\
    str_rep m' (<[k:=v]> M) /\ del_value_func m' = del_value_func m.
Proof.
  intros H Hk. pose proof H as [Hok Hr]. destruct (str_find m k Hok) as (sl & Hi & Hsl).
  unfold ur_string_map_put. rewrite str_valid by done. cbn [negb]. rewrite str_index by done. mred.
  rewrite Hi. mred. destruct (string_list_get_spec _ _ k rest Hsl Hk) as (r & -> & Hr'). mred.
  destruct r as [[n e]|].
  - destruct Hr' as (Hn & Hke & He & Hp). rewrite (str_present m M k _ sl H Hi He). cbn [replaced].
    case_decide as Hv.
    + eexists. split; [done|]. split; [|done]. destruct (Hp v) as [P1 P2]. split.
      * apply str_ok_insert; [done|]. apply Forall_insert; [done|]. apply elem_ok_value.
        by eapply Forall_lookup_1.
      * assert (represents (entries str_entries (<[str_bucket k := delete n sl]> (str_lists m))) (delete k M))
          as Hd by (eapply represents_remove; [exact Hr|]; by eapply entries_remove).
        rewrite <- (insert_delete_eq M). eapply represents_add; [exact Hd|apply lookup_delete_eq|].
        cbn [str_lists]. rewrite <- (list_insert_insert_eq (str_lists m) (str_bucket k) _ (delete n sl)).
        eapply entries_add; [apply list_lookup_insert_eq; by eapply lookup_lt_Some|exact P2].
    + exists m. split; [done|]. split; [|done]. assert (str_value e = v) as <- by (by destruct (decide (str_value e = v))).
      rewrite insert_id; [done|]. by apply (str_present m M k _ sl).
  - rewrite (str_absent m M k sl H Hi Hr'). cbn [replaced]. unfold string_list_add. cbn [negb].
    rewrite strlen_app by done. mred.
    replace (k ++ 0 :: rest) with ((k ++ [0]) ++ rest) by by rewrite <- (assoc_L (++)).
    rewrite slice_prefix by (rewrite length_app; cbn; lia). mred.
    eexists. split; [done|]. split; [|done]. split.
    + apply str_ok_insert; [done|]. constructor; [by exists k|done].
    + eapply represents_add; [exact Hr|by eapply str_absent|]. cbn [str_lists].
      eapply entries_add; [exact Hi|]. by rewrite (str_entries_cons _ _ k).
Qed.

Lemma str_del_rep m M k rest :
  str_rep m M -> c_string k ->
  exists m', ur_string_map_del m (k ++ 0 :: rest)
      = Some (bool_decide (is_Some (M !! k)), option_list (M !! k) ≫= destroyed (del_value_func m), m') /\
    str_rep m' (delete k M) /\ del_value_func m' = del_value_func m.
Proof.
  intros H Hk. pose proof H as [Hok Hr]. destruct (str_find m k Hok) as (sl & Hi & Hsl).
  unfold ur_string_map_del. rewrite str_valid by done. cbn [negb]. rewrite str_index by done. mred.
  rewrite Hi. mred. pose proof (represents_bucket _ _ _ _ _ Hr Hi) as Hn.
  destruct (string_list_remove_spec _ _ k rest (del_value_func m) Hsl Hk Hn)
    as (sl' & vs & n & -> & Hok' & Hc). mred.
  eexists. split; [|split; [split; [by apply str_ok_insert|]|done]].
  - destruct Hc as [(v & Hp & -> & ->)|(Hnk & -> & -> & ->)].
    + rewrite (str_present m M k v sl H Hi) by (rewrite Hp; by left).
      rewrite !bool_decide_true by (done || lia). cbn. by rewrite app_nil_r.
    + rewrite (str_absent m M k sl H Hi Hnk). rewrite !bool_decide_false; [done|by intros []|lia].
  - cbn [str_lists]. destruct Hc as [(v & Hp & -> & ->)|(Hnk & -> & -> & ->)].
    + eapply represents_remove; [exact Hr|]. by eapply entries_remove.
    + rewrite list_insert_id by done. rewrite delete_id; [done|]. by eapply str_absent.
Qed.

Lemma str_size_rep m M : str_rep m M -> ur_string_map_size m = Z.of_nat (size M).
Proof.
  intros [Hok Hr]. unfold ur_string_map_size. rewrite str_valid by done.
  rewrite (represents_size _ _ Hr), length_entries. clear.
  generalize (str_lists m) as t. intros t.
  enough (forall a, foldl (fun ret sl => ret + string_list_size sl) a t
            = a + Z.of_nat (sum_list (length ∘ str_entries <$> t))) as -> by lia.
  induction t as [|sl t IH]; intros a; cbn [foldl]; [cbn; lia|]. rewrite IH.
  change (sum_list (length ∘ str_entries <$> sl :: t))
    with (length (str_entries sl) + sum_list (length ∘ str_entries <$> t))%nat.
  assert (length (str_entries sl) = length sl) by apply length_fmap. unfold string_list_size. lia.
Qed.

(** ** Sequences of operations *)

Inductive str_op := StrGet (k : list Z) | StrPut (k : list Z) (v : Z) | StrDel (k : list Z) | StrSize.

(** The answer of an operation and the values it destroys. *)
Definition str_step (m : ur_string_map) (op : str_op) : option ((option Z * list Z) * ur_string_map) :=
  match op with
  | StrGet k => r ← ur_string_map_get m (k ++ [0]); Some ((r, []), m)
  | StrPut k v => '(ok, vs, m) ← ur_string_map_put m (k ++ [0]) v true;
                  Some ((Some (if (ok : bool) then 1 else 0), vs), m)
  | StrDel k => '(ok, vs, m) ← ur_string_map_del m (k ++ [0]);
                Some ((Some (if (ok : bool) then 1 else 0), vs), m)
  | StrSize => Some ((Some (ur_string_map_size m), []), m)
  end.

Definition str_spec (fv : bool) (M : gmap (list Z) Z) (op : str_op) : (option Z * list Z) * gmap (list Z) Z :=
  match op with
  | StrGet k => ((M !! k, []), M)
  | StrPut k v => ((Some 1, replaced fv (M !! k) v), <[k:=v]> M)
  | StrDel k => ((Some (if decide (is_Some (M !! k)) then 1 else 0),
                  option_list (M !! k) ≫= destroyed fv), delete k M)
  | StrSize => ((Some (Z.of_nat (size M)), []), M)
  end.

Definition str_op_ok (M : gmap (list Z) Z) (op : str_op) : Prop :=
  match op with
  | StrGet k | StrPut k _ | StrDel k => c_string k
  | StrSize => True
  end.

Lemma str_step_simulates fv m M op :
  (str_rep m M /\ del_value_func m = fv) -> str_op_ok M op ->
  exists m', str_step m op = Some ((str_spec fv M op).1, m') /\
    (str_rep m' (str_spec fv M op).2 /\ del_value_func m' = fv).
Proof.
  intros [Hr <-] Hop. destruct op as [k|k v|k|]; cbn [str_step str_spec fst snd str_op_ok] in *.
  - rewrite (str_get_rep _ _ k []) by done. by exists m.
  - destruct (str_put_rep m M k v [] Hr Hop) as (m' & -> & Hr' & E). by exists m'.
  - destruct (str_del_rep m M k [] Hr Hop) as (m' & -> & Hr' & E). mred. exists m'.
    split; [|done]. do 3 f_equal. by repeat (case_decide || case_bool_decide).
  - rewrite (str_size_rep _ _ Hr). by exists m.
Qed.

Lemma str_create_rep fv m :
  ur_string_map_create fv true = Some m -> str_rep m ∅ /\ del_value_func m = fv.
Proof.
  unfold ur_string_map_create. cbn [negb]. intros <-%(inj Some). split; [|reflexivity].
  split; [split; [reflexivity|split; [apply length_replicate|]]|].
  - intros i sl Hi. cbn [str_lists] in Hi. apply lookup_replicate in Hi as [-> _]. constructor.
  - cbn [str_lists]. rewrite entries_replicate by done. apply represents_nil.
Qed.

(** The string map refines a finite map from strings: any sequence of insertions,
    replacements, look-ups, deletions and size queries, from a new map, gives the
    answers of the finite map, and the destructor is called exactly on the values that
    are replaced by different ones or deleted, in that order. *)
Theorem ur_string_map_refines_gmap fv m ops :
  ur_string_map_create fv true = Some m -> ops_ok (str_spec fv) str_op_ok ∅ ops ->
  exists m', run str_step m ops = Some (spec_run (str_spec fv) ∅ ops, m') /\ str_ok m'.
Proof.
  intros Hm Hok.
  destruct (run_simulates _ _ _ _ (str_step_simulates fv) _ _ ops (str_create_rep _ _ Hm) Hok)
    as (m' & M & H & [[Hr _] _]). by exists m'.
Qed.

Lemma ur_string_map_refines_gmap_witness :
  exists m m', ur_string_map_create true true = Some m /\
    run str_step m [StrPut [97] 1; StrPut [97; 98] 2; StrPut [97] 3; StrDel [97; 98]; StrGet [97]; StrSize]
      = Some ([(Some 1, []); (Some 1, []); (Some 1, [1]); (Some 1, [2]); (Some 3, []); (Some 1, [])], m').
Proof.
  destruct (ur_string_map_refines_gmap true (mk_ur_string_map (replicate STRING_MAP_SIZE []) STRING_MAP_MAGIC true)
    [StrPut [97] 1; StrPut [97; 98] 2; StrPut [97] 3; StrDel [97; 98]; StrGet [97]; StrSize] eq_refl)
    as (m' & H & _); [by repeat split; repeat constructor|].
  eexists _, m'. split; [reflexivity|exact H].
Defined.

(** Freeing a map calls the destructor on every non-null value it holds, once. *)
Theorem ur_string_map_free_destroys m M :
  str_rep m M -> del_value_func m = true ->
  exists vs, ur_string_map_free (Some m) = (vs, None) /\
    vs ≡ₚ filter (fun v => v <> 0) (map_to_list M).*2.
Proof.
  intros [Hok [Hn ->]] Hd. unfold ur_string_map_free. rewrite str_valid, Hd by done.
  eexists. split; [done|]. rewrite map_to_list_to_map by done. clear.
  unfold entries. induction (str_lists m) as [|sl t IH]; [done|].
  cbn [mbind list_bind fmap list_fmap concat]. rewrite fmap_app, filter_app, IH. apply Permutation_app; [|done].
  clear. induction sl as [|e sl IH]; [done|].
  unfold string_list_free. cbn [mbind list_bind]. change (sl ≫= _) with (string_list_free sl true).
  unfold str_entries. cbn [fmap list_fmap fst snd]. rewrite filter_cons.
  case_decide as E; [rewrite decide_False by tauto|rewrite decide_True by done]; cbn [app destroyed].
  - exact IH.
  - by rewrite IH.
Qed.

Lemma ur_string_map_free_destroys_witness :
  exists m m', ur_string_map_create true true = Some m /\
    ur_string_map_put m [97; 0] 7 true = Some (true, [], m') /\
    ur_string_map_free (Some m') = ([7], None).
Proof.
  destruct (str_create_rep true _ eq_refl) as [Hr Hd].
  destruct (str_put_rep _ _ [97] 7 [] Hr) as (m' & Hput & Hr' & Hd'); [by repeat constructor|].
  rewrite Hd in Hd'. rewrite lookup_empty in Hput. rewrite insert_empty in Hr'.
  destruct (ur_string_map_free_destroys m' _ Hr' Hd') as (vs & Hf & Hp).
  rewrite map_to_list_singleton in Hp. cbn in Hp. apply Permutation_singleton_r in Hp as ->.
  eexists _, m'. split; [reflexivity|]. split; [exact Hput|exact Hf].
Defined.
