(* ===== verification/KHash.v ===== *)
(** * The hash table [server/ns_turn_khash.h] for 64-bit keys

    The macros [__KHASH_IMPL] as instantiated by [KHASH_MAP_INIT_INT64]: an open table
    whose cells are probed at triangular distances, two flag bits per cell in 32-bit
    words, and a rehash in place.  [None] is an access outside an array or a loop that
    does not end.  Cells that [realloc] adds hold 0 until they are written. *)

From S2P Require Import Prelude.

Record khash := mk_khash {
  n_buckets : Z;
  kh_size : Z;
  n_occupied : Z;
  upper_bound : Z;
  flags : list Z;
  keys : list Z;
  vals : list Z
}.

(** What the three allocations of a resize answer: flags, keys, values. *)
Record memory := mk_memory { flags_ok : bool; keys_ok : bool; vals_ok : bool }.

Definition set_flags (h : khash) (x : list Z) : khash :=
  mk_khash (n_buckets h) (kh_size h) (n_occupied h) (upper_bound h) x (keys h) (vals h).
Definition set_keys (h : khash) (x : list Z) : khash :=
  mk_khash (n_buckets h) (kh_size h) (n_occupied h) (upper_bound h) (flags h) x (vals h).
Definition set_vals (h : khash) (x : list Z) : khash :=
  mk_khash (n_buckets h) (kh_size h) (n_occupied h) (upper_bound h) (flags h) (keys h) x.
Definition set_counts (h : khash) (size occupied : Z) : khash :=
  mk_khash (n_buckets h) size occupied (upper_bound h) (flags h) (keys h) (vals h).

(** Reading and writing a cell of an array. *)
Definition at_ (l : list Z) (i : Z) : option Z := if decide (0 <= i) then l !! Z.to_nat i else None.
Definition put_at (l : list Z) (i x : Z) : option (list Z) :=
  if decide (0 <= i < zlen l) then Some (<[Z.to_nat i := x]> l) else None.

(** [flag[i>>4] >> ((i&0xfU)<<1)] *)
Definition flag_bits (flag : list Z) (i : Z) : option Z :=
  w ← at_ flag (Z.shiftr i 4); Some (Z.shiftr w (Z.shiftl (Z.land i 15) 1)).

Definition ac_isempty (flag : list Z) (i : Z) : option bool :=
  b ← flag_bits flag i; Some (negb (Z.land b 2 =? 0)).
Definition ac_isdel (flag : list Z) (i : Z) : option bool :=
  b ← flag_bits flag i; Some (negb (Z.land b 1 =? 0)).
Definition ac_iseither (flag : list Z) (i : Z) : option bool :=
  b ← flag_bits flag i; Some (negb (Z.land b 3 =? 0)).

Definition flag_update (f : Z -> Z) (flag : list Z) (i : Z) : option (list Z) :=
  w ← at_ flag (Z.shiftr i 4); put_at flag (Z.shiftr i 4) (f w).
Definition ac_set_isempty_false (flag : list Z) (i : Z) : option (list Z) :=
  flag_update (fun w => Z.land w (Z.lnot (Z.shiftl 2 (Z.shiftl (Z.land i 15) 1)))) flag i.
Definition ac_set_isboth_false (flag : list Z) (i : Z) : option (list Z) :=
  flag_update (fun w => Z.land w (Z.lnot (Z.shiftl 3 (Z.shiftl (Z.land i 15) 1)))) flag i.
Definition ac_set_isdel_true (flag : list Z) (i : Z) : option (list Z) :=
  flag_update (fun w => Z.lor w (Z.shiftl 1 (Z.shiftl (Z.land i 15) 1))) flag i.

Definition ac_fsize (m : Z) : Z := if m <? 16 then 1 else Z.shiftr m 4.

(** [memset(flags, 0xaa, ...)] *)
Definition empty_flags (m : Z) : list Z := replicate (Z.to_nat (ac_fsize m)) 0xAAAAAAAA.

Definition kroundup32 (x : Z) : Z :=
  let x := u32 (x - 1) in
  let x := Z.lor x (Z.shiftr x 1) in
  let x := Z.lor x (Z.shiftr x 2) in
  let x := Z.lor x (Z.shiftr x 4) in
  let x := Z.lor x (Z.shiftr x 8) in
  let x := Z.lor x (Z.shiftr x 16) in
  u32 (x + 1).

(** [(khint_t)(n * __ac_HASH_UPPER + 0.5)], on the powers of two it is used for. *)
Definition upper_of (n : Z) : Z := (77 * n + 50) / 100.

Definition kh_int64_hash_func (key : Z) : Z :=
  u32 (Z.lxor (Z.lxor (Z.shiftr key 33) key) (u64 (Z.shiftl key 11))).

Definition kh_init : khash := mk_khash 0 0 0 0 [] [] [].

Definition kh_exist (h : khash) (x : Z) : option bool :=
  b ← ac_iseither (flags h) x; Some (negb b).

(** The condition under which a search goes on: the cell is not empty, and it is deleted
    or holds another key. *)
Definition probe_on (h : khash) (key i : Z) : option bool :=
  e ← ac_isempty (flags h) i;
  if (e : bool) then Some false else
  d ← ac_isdel (flags h) i;
  if (d : bool) then Some true else
  k ← at_ (keys h) i;
  Some (negb (k =? key)).

(** The probing distances repeat after [2 * n_buckets] steps. *)
Definition probe_fuel (n : Z) : nat := Z.to_nat (2 * n).

Fixpoint get_loop (fuel : nat) (h : khash) (key mask last i step : Z) : option Z :=
  match fuel with
  | O => None
  | S fuel =>
    on ← probe_on h key i;
    if (on : bool) then
      let step := u32 (step + 1) in
      let i := Z.land (u32 (i + step)) mask in
      if decide (i = last) then Some (n_buckets h) else get_loop fuel h key mask last i step
    else
      b ← ac_iseither (flags h) i;
      Some (if (b : bool) then n_buckets h else i)
  end.

Definition kh_get (h : khash) (key : Z) : option Z :=
  if decide (n_buckets h = 0) then Some 0 else
  let mask := u32 (n_buckets h - 1) in
  let i := Z.land (kh_int64_hash_func key) mask in
  get_loop (probe_fuel (n_buckets h)) h key mask i i 0.

(** The first empty cell of a probe. *)
Fixpoint empty_loop (fuel : nat) (new_flags : list Z) (new_mask i step : Z) : option Z :=
  match fuel with
  | O => None
  | S fuel =>
    e ← ac_isempty new_flags i;
    if (e : bool) then Some i else
    let step := u32 (step + 1) in
    empty_loop fuel new_flags new_mask (Z.land (u32 (i + step)) new_mask) step
  end.

(** [while (1)]: the pair goes to its cell, and an old pair found there goes on. *)
Fixpoint kick_loop (fuel : nat) (h : khash) (new_flags : list Z) (new_n_buckets key val : Z) : option (khash * list Z) :=
  match fuel with
  | O => None
  | S fuel =>
    let new_mask := u32 (new_n_buckets - 1) in
    i ← empty_loop (probe_fuel new_n_buckets) new_flags new_mask (Z.land (kh_int64_hash_func key) new_mask) 0;
    new_flags ← ac_set_isempty_false new_flags i;
    live ← (if i <? n_buckets h then b ← ac_iseither (flags h) i; Some (negb b) else Some false);
    if (live : bool) then
      key' ← at_ (keys h) i;
      ks ← put_at (keys h) i key;
      val' ← at_ (vals h) i;
      vs ← put_at (vals h) i val;
      fl ← ac_set_isdel_true (flags h) i;
      kick_loop fuel (set_flags (set_vals (set_keys h ks) vs) fl) new_flags new_n_buckets key' val'
    else
      ks ← put_at (keys h) i key;
      vs ← put_at (vals h) i val;
      Some (set_vals (set_keys h ks) vs, new_flags)
  end.

(** [for (j = 0; j != h->n_buckets; ++j)] *)
Fixpoint rehash_loop (fuel : nat) (h : khash) (new_flags : list Z) (new_n_buckets j : Z) : option (khash * list Z) :=
  match fuel with
  | O => Some (h, new_flags)
  | S fuel =>
    b ← ac_iseither (flags h) j;
    '(h, new_flags) ←
      (if (b : bool) then Some (h, new_flags) else
       key ← at_ (keys h) j;
       val ← at_ (vals h) j;
       fl ← ac_set_isdel_true (flags h) j;
       kick_loop (S (Z.to_nat (n_buckets h))) (set_flags h fl) new_flags new_n_buckets key val);
    rehash_loop fuel h new_flags new_n_buckets (j + 1)
  end.

(** [krealloc] to [n] cells. *)
Definition grow (l : list Z) (n : Z) : list Z := take (Z.to_nat n) l ++ replicate (Z.to_nat n - length l) 0.
Definition shrink (l : list Z) (n : Z) : list Z := take (Z.to_nat n) l.

Definition rehash (h : khash) (new_n_buckets : Z) : option khash :=
  '(h, new_flags) ← rehash_loop (Z.to_nat (n_buckets h)) h (empty_flags new_n_buckets) new_n_buckets 0;
  let h := if new_n_buckets <? n_buckets h
           then set_vals (set_keys h (shrink (keys h) new_n_buckets)) (shrink (vals h) new_n_buckets) else h in
  Some (mk_khash new_n_buckets (kh_size h) (kh_size h) (upper_of new_n_buckets) new_flags (keys h) (vals h)).

(** The number of buckets for a requested one. *)
Definition bucket_count (new_n_buckets : Z) : Z :=
  let new_n_buckets := kroundup32 new_n_buckets in
  if new_n_buckets <? 4 then 4 else new_n_buckets.

Definition kh_resize (mem : memory) (h : khash) (new_n_buckets : Z) : option (Z * khash) :=
  let new_n_buckets := bucket_count new_n_buckets in
  if upper_of new_n_buckets <=? kh_size h then Some (0, h) else
  if negb (flags_ok mem) then Some (-1, h) else
  if n_buckets h <? new_n_buckets then
    if negb (keys_ok mem) then Some (-1, h) else
    let h := set_keys h (grow (keys h) new_n_buckets) in
    if negb (vals_ok mem) then Some (-1, h) else
    let h := set_vals h (grow (vals h) new_n_buckets) in
    h ← rehash h new_n_buckets; Some (0, h)
  else h ← rehash h new_n_buckets; Some (0, h).

(** The search of [kh_put]; [site] is the last deleted cell that was passed. *)
Fixpoint put_loop (fuel : nat) (h : khash) (key mask last i step site : Z) : option (Z * Z * Z) :=
  match fuel with
  | O => None
  | S fuel =>
    on ← probe_on h key i;
    if (on : bool) then
      d ← ac_isdel (flags h) i;
      let site := if (d : bool) then i else site in
      let step := u32 (step + 1) in
      let i := Z.land (u32 (i + step)) mask in
      if decide (i = last) then Some (site, i, site) else put_loop fuel h key mask last i step site
    else Some (n_buckets h, i, site)
  end.

Definition put_site (h : khash) (key : Z) : option Z :=
  let mask := u32 (n_buckets h - 1) in
  let i := Z.land (kh_int64_hash_func key) mask in
  e ← ac_isempty (flags h) i;
  if (e : bool) then Some i else
  '(x, i, site) ← put_loop (probe_fuel (n_buckets h)) h key mask i i 0 (n_buckets h);
  if decide (x = n_buckets h) then
    e ← ac_isempty (flags h) i;
    Some (if (e : bool) && negb (site =? n_buckets h) then site else i)
  else Some x.

(** Taking the cell; the answer is the cell and [*ret]. *)
Definition kh_take (h : khash) (key : Z) : option (Z * Z * khash) :=
  x ← put_site h key;
  e ← ac_isempty (flags h) x;
  if (e : bool) then
    ks ← put_at (keys h) x key;
    fl ← ac_set_isboth_false (flags h) x;
    Some (x, 1, set_counts (set_flags (set_keys h ks) fl) (u32 (kh_size h + 1)) (u32 (n_occupied h + 1)))
  else
    d ← ac_isdel (flags h) x;
    if (d : bool) then
      ks ← put_at (keys h) x key;
      fl ← ac_set_isboth_false (flags h) x;
      Some (x, 2, set_counts (set_flags (set_keys h ks) fl) (u32 (kh_size h + 1)) (n_occupied h))
    else Some (x, 0, h).

Definition kh_put (mem : memory) (h : khash) (key : Z) : option (Z * Z * khash) :=
  '(r, h) ←
    (if upper_bound h <=? n_occupied h then
       if u32 (Z.shiftl (kh_size h) 1) <? n_buckets h then kh_resize mem h (u32 (n_buckets h - 1))
       else kh_resize mem h (u32 (n_buckets h + 1))
     else Some (0, h));
  if r <? 0 then Some (n_buckets h, -1, h) else kh_take h key.

Definition kh_del (h : khash) (x : Z) : option khash :=
  if decide (x = n_buckets h) then Some h else
  b ← ac_iseither (flags h) x;
  if (b : bool) then Some h else
  fl ← ac_set_isdel_true (flags h) x;
  Some (set_counts (set_flags h fl) (u32 (kh_size h - 1)) (n_occupied h)).

Definition kh_clear (h : khash) : khash :=
  match flags h with
  | [] => h
  | _ => set_counts (set_flags h (empty_flags (n_buckets h))) 0 0
  end.
