(* ===== verification/KHashFacts.v ===== *)
(** * The hash table as a list of slots

    Two flag bits make a cell empty, deleted or live; every operation of [KHash] is an
    update of the list of slots.  The probe of a key visits all cells of a table whose
    size is a power of two, so a search ends at the key or at an empty cell. *)

From Stdlib Require Import Znumtheory Zpow_facts.
From S2P Require Import Prelude Buckets KHash.

(** ** Flag bits *)

Definition word_of (fl : list Z) (i : nat) : Z := default 0 (fl !! (i / 16)%nat).
Definition bit (fl : list Z) (i : nat) (c : Z) : bool := Z.testbit (word_of fl i) (2 * Z.of_nat (i mod 16) + c).

Lemma land_pow2_zero b k : 0 <= k -> (Z.land b (2 ^ k) =? 0) = negb (Z.testbit b k).
Proof.
  intros Hk. assert (Z.land b (2 ^ k) = if Z.testbit b k then 2 ^ k else 0) as ->.
  { apply Z.bits_inj'. intros n Hn. rewrite Z.land_spec, Z.pow2_bits_eqb by done.
    destruct (Z.eqb_spec k n) as [->|Hne].
    - rewrite andb_true_r. destruct (Z.testbit b n) eqn:E; [by rewrite Z.pow2_bits_true|by rewrite Z.bits_0].
    - rewrite andb_false_r. destruct (Z.testbit b k); [by rewrite Z.pow2_bits_false by lia|by rewrite Z.bits_0]. }
  destruct (Z.testbit b k); cbn [negb]; [|done]. apply Z.eqb_neq. lia.
Qed.

Lemma word_index i : Z.to_nat (Z.shiftr (Z.of_nat i) 4) = (i / 16)%nat /\ 0 <= Z.shiftr (Z.of_nat i) 4.
Proof.
  rewrite Z.shiftr_div_pow2 by lia. change (2 ^ 4) with (Z.of_nat 16). rewrite <- Nat2Z.inj_div. split; lia.
Qed.

Lemma bit_index i : Z.shiftl (Z.land (Z.of_nat i) 15) 1 = 2 * Z.of_nat (i mod 16).
Proof.
  change 15 with (Z.ones 4). rewrite Z.land_ones, Z.shiftl_mul_pow2, Nat2Z.inj_mod by lia. change (2 ^ 4) with 16. lia.
Qed.

Lemma word_lookup fl i : (i < 16 * length fl)%nat -> fl !! (i / 16)%nat = Some (word_of fl i).
Proof.
  intros Hi. unfold word_of. destruct (lookup_lt_is_Some_2 fl (i / 16)) as [x ->]; [|done].
  apply Nat.Div0.div_lt_upper_bound. lia.
Qed.

Lemma flag_bits_spec fl i :
  (i < 16 * length fl)%nat -> flag_bits fl (Z.of_nat i) = Some (Z.shiftr (word_of fl i) (2 * Z.of_nat (i mod 16))).
Proof.
  intros Hi. unfold flag_bits, at_. destruct (word_index i) as [E H]. rewrite decide_True, E, word_lookup by done.
  mred. by rewrite bit_index.
Qed.

Lemma shifted_bit fl i c :
  0 <= c -> Z.testbit (Z.shiftr (word_of fl i) (2 * Z.of_nat (i mod 16))) c = bit fl i c.
Proof. intros Hc. rewrite Z.shiftr_spec by done. unfold bit. f_equal. lia. Qed.

Lemma isempty_bit fl i : (i < 16 * length fl)%nat -> ac_isempty fl (Z.of_nat i) = Some (bit fl i 1).
Proof.
  intros Hi. unfold ac_isempty. rewrite flag_bits_spec by done. mred. change 2 with (2 ^ 1).
  by rewrite land_pow2_zero, negb_involutive, shifted_bit by lia.
Qed.

Lemma isdel_bit fl i : (i < 16 * length fl)%nat -> ac_isdel fl (Z.of_nat i) = Some (bit fl i 0).
Proof.
  intros Hi. unfold ac_isdel. rewrite flag_bits_spec by done. mred. change 1 with (2 ^ 0).
  by rewrite land_pow2_zero, negb_involutive, shifted_bit by lia.
Qed.

Lemma iseither_bit fl i : (i < 16 * length fl)%nat -> ac_iseither fl (Z.of_nat i) = Some (bit fl i 1 || bit fl i 0).
Proof.
  intros Hi. unfold ac_iseither. rewrite flag_bits_spec by done. mred.
  set (b := Z.shiftr _ _). rewrite <- !shifted_bit by lia. fold b. f_equal.
  assert (Z.land b 3 = Z.lor (Z.land b (2 ^ 1)) (Z.land b (2 ^ 0))) as -> by (rewrite <- Z.land_lor_distr_r; done).
  rewrite <- (negb_involutive (Z.testbit b 1)), <- (negb_involutive (Z.testbit b 0)), <- negb_andb, <- !land_pow2_zero by lia.
  f_equal. destruct (Z.eqb_spec (Z.land b (2 ^ 1)) 0) as [->|H1], (Z.eqb_spec (Z.land b (2 ^ 0)) 0) as [->|H0]; cbn [andb];
    rewrite ?Z.lor_0_l, ?Z.lor_0_r; try done; apply Z.eqb_neq; rewrite ?Z.lor_eq_0_iff; tauto.
Qed.

(** ** Updates of one cell *)

Lemma flag_update_spec f fl i :
  (i < 16 * length fl)%nat ->
  flag_update f fl (Z.of_nat i) = Some (<[(i / 16)%nat := f (word_of fl i)]> fl).
Proof.
  intros Hi. unfold flag_update, at_, put_at. destruct (word_index i) as [E H].
  rewrite decide_True, E, word_lookup by done. mred. pose proof (word_lookup fl i Hi) as Hl%lookup_lt_Some.
  rewrite decide_True by lia. done.
Qed.

Lemma word_insert fl i j w :
  (i < 16 * length fl)%nat -> word_of (<[(i / 16)%nat := w]> fl) j = if decide (j / 16 = i / 16)%nat then w else word_of fl j.
Proof.
  intros Hi. unfold word_of. pose proof (word_lookup fl i Hi) as Hl%lookup_lt_Some.
  case_decide as E; [by rewrite E, list_lookup_insert_eq|by rewrite list_lookup_insert_ne].
Qed.

(** Two cells of one word have different bits. *)
Lemma bit_position i j c c' :
  (j / 16 = i / 16)%nat -> 0 <= c < 2 -> 0 <= c' < 2 ->
  2 * Z.of_nat (j mod 16) + c = 2 * Z.of_nat (i mod 16) + c' <-> j = i /\ c = c'.
Proof.
  intros E Hc Hc'. pose proof (Nat.div_mod_eq i 16). pose proof (Nat.div_mod_eq j 16).
  split; [|intros [-> ->]; done]. intros H1. assert (c = c') by lia. split; lia.
Qed.

(** What the three updates do to the bits: [f] on the word, [g] on a bit of the cell. *)
Lemma flag_update_bit f g fl i j c :
  (i < 16 * length fl)%nat -> 0 <= c < 2 ->
  (forall w p, 0 <= p -> Z.testbit (f w) p =
     if decide (p = 2 * Z.of_nat (i mod 16)) then g 0 (Z.testbit w p)
     else if decide (p = 2 * Z.of_nat (i mod 16) + 1) then g 1 (Z.testbit w p) else Z.testbit w p) ->
  bit (<[(i / 16)%nat := f (word_of fl i)]> fl) j c = if decide (j = i) then g c (bit fl i c) else bit fl j c.
Proof.
  intros Hi Hc Hf. unfold bit. rewrite word_insert by done. case_decide as E.
  - rewrite Hf by lia. pose proof (bit_position i j c 0 E Hc). pose proof (bit_position i j c 1 E Hc).
    assert (word_of fl j = word_of fl i) as Hw by (unfold word_of; by rewrite E). rewrite Hw.
    destruct (decide (j = i)) as [->|Hne].
    + assert (c = 0 \/ c = 1) as [-> | ->] by lia.
      * by rewrite decide_True by lia.
      * by rewrite decide_False, decide_True by lia.
    + rewrite !decide_False by lia. done.
  - rewrite decide_False; [done|]. by intros ->.
Qed.

Lemma set_isdel_bit fl i :
  (i < 16 * length fl)%nat -> exists fl', ac_set_isdel_true fl (Z.of_nat i) = Some fl' /\ length fl' = length fl /\
    forall j c, 0 <= c < 2 -> bit fl' j c = if decide (j = i) then ((c =? 0) || bit fl i c) else bit fl j c.
Proof.
  intros Hi. unfold ac_set_isdel_true. rewrite flag_update_spec by done. eexists. split; [reflexivity|].
  split; [apply length_insert|]. intros j c Hc.
  apply (flag_update_bit (fun w => Z.lor w (Z.shiftl 1 (Z.shiftl (Z.land (Z.of_nat i) 15) 1)))
           (fun k b => (k =? 0) || b)); [done|done|].
  intros w p Hp. rewrite bit_index, Z.shiftl_mul_pow2, Z.mul_1_l by lia. rewrite Z.lor_spec, Z.pow2_bits_eqb by lia.
  case_decide as E1; [subst p; by rewrite Z.eqb_refl, orb_true_r|].
  rewrite (proj2 (Z.eqb_neq _ _)), orb_false_r by lia. by case_decide.
Qed.

Lemma shiftl_3_bits s p : 0 <= s -> 0 <= p -> Z.testbit (Z.shiftl 3 s) p = (p =? s) || (p =? s + 1).
Proof.
  intros Hs Hp. change 3 with (Z.lor (2 ^ 1) (2 ^ 0)). rewrite Z.shiftl_lor, Z.lor_spec, !Z.shiftl_mul_pow2, <- !Z.pow_add_r by lia.
  rewrite !Z.pow2_bits_eqb by lia. rewrite orb_comm, Z.add_0_l, (Z.add_comm 1). by rewrite (Z.eqb_sym s), (Z.eqb_sym (s + 1)).
Qed.

Lemma set_isboth_bit fl i :
  (i < 16 * length fl)%nat -> exists fl', ac_set_isboth_false fl (Z.of_nat i) = Some fl' /\ length fl' = length fl /\
    forall j c, 0 <= c < 2 -> bit fl' j c = if decide (j = i) then false else bit fl j c.
Proof.
  intros Hi. unfold ac_set_isboth_false. rewrite flag_update_spec by done. eexists. split; [reflexivity|].
  split; [apply length_insert|]. intros j c Hc.
  apply (flag_update_bit (fun w => Z.land w (Z.lnot (Z.shiftl 3 (Z.shiftl (Z.land (Z.of_nat i) 15) 1)))) (fun _ _ => false)); [done|done|].
  intros w p Hp. rewrite bit_index, Z.land_spec, Z.lnot_spec, shiftl_3_bits by lia.
  repeat case_decide; destruct (Z.eqb_spec p (2 * Z.of_nat (i mod 16))), (Z.eqb_spec p (2 * Z.of_nat (i mod 16) + 1));
    cbn [orb negb]; rewrite ?andb_true_r, ?andb_false_r; (done || lia).
Qed.

Lemma set_isempty_bit fl i :
  (i < 16 * length fl)%nat -> exists fl', ac_set_isempty_false fl (Z.of_nat i) = Some fl' /\ length fl' = length fl /\
    forall j c, 0 <= c < 2 -> bit fl' j c = if decide (j = i) then (negb (c =? 1) && bit fl i c) else bit fl j c.
Proof.
  intros Hi. unfold ac_set_isempty_false. rewrite flag_update_spec by done. eexists. split; [reflexivity|].
  split; [apply length_insert|]. intros j c Hc.
  apply (flag_update_bit (fun w => Z.land w (Z.lnot (Z.shiftl 2 (Z.shiftl (Z.land (Z.of_nat i) 15) 1))))
           (fun k b => negb (k =? 1) && b)); [done|done|].
  intros w p Hp. rewrite bit_index, Z.land_spec, Z.lnot_spec by lia.
  change 2 with (2 ^ 1) at 1. rewrite Z.shiftl_mul_pow2, <- Z.pow_add_r, Z.pow2_bits_eqb by lia.
  repeat case_decide; destruct (Z.eqb_spec (1 + 2 * Z.of_nat (i mod 16)) p); cbn [negb];
    rewrite ?andb_true_r, ?andb_false_r; (done || lia).
Qed.

(** ** Slots *)

Inductive slot := Empty | Deleted | Live (k v : Z).

Definition slot_at (fl ks vs : list Z) (i : nat) : slot :=
  if bit fl i 1 then Empty else if bit fl i 0 then Deleted else Live (default 0 (ks !! i)) (default 0 (vs !! i)).

(** The flags and arrays show the slots [t]; the second bit of an empty cell is clear. *)
Record view (fl ks vs : list Z) (t : list slot) : Prop := {
  vw_flags : (length t <= 16 * length fl)%nat;
  vw_keys : (length t <= length ks)%nat;
  vw_vals : (length t <= length vs)%nat;
  vw_slots : forall i x, t !! i = Some x -> slot_at fl ks vs i = x /\ (x = Empty -> bit fl i 0 = false)
}.

Definition live_slot (x : slot) : list (Z * Z) := match x with Live k v => [(k, v)] | _ => [] end.
Abbreviation live t := (entries live_slot t).
Definition is_empty (x : slot) : bool := match x with Empty => true | _ => false end.
Definition is_live (x : slot) : bool := match x with Live _ _ => true | _ => false end.

Section views.
Context (fl ks vs : list Z) (t : list slot) (Hv : view fl ks vs t).

Lemma view_bound i x : t !! i = Some x -> (i < 16 * length fl)%nat /\ (i < length ks)%nat /\ (i < length vs)%nat.
Proof. intros Hi%lookup_lt_Some. destruct Hv. lia. Qed.

Lemma view_isempty i x : t !! i = Some x -> ac_isempty fl (Z.of_nat i) = Some (is_empty x).
Proof.
  intros Hi. destruct (view_bound i x Hi) as [Hb _]. rewrite isempty_bit by done. f_equal.
  destruct (vw_slots _ _ _ _ Hv i x Hi) as [<- _]. unfold slot_at. by destruct (bit fl i 1), (bit fl i 0).
Qed.

Lemma view_isdel i x :
  t !! i = Some x -> is_empty x = false -> ac_isdel fl (Z.of_nat i) = Some (match x with Deleted => true | _ => false end).
Proof.
  intros Hi He. destruct (view_bound i x Hi) as [Hb _]. rewrite isdel_bit by done. f_equal.
  destruct (vw_slots _ _ _ _ Hv i x Hi) as [<- _]. revert He. unfold slot_at. by destruct (bit fl i 1), (bit fl i 0).
Qed.

Lemma view_iseither i x : t !! i = Some x -> ac_iseither fl (Z.of_nat i) = Some (negb (is_live x)).
Proof.
  intros Hi. destruct (view_bound i x Hi) as [Hb _]. rewrite iseither_bit by done. f_equal.
  destruct (vw_slots _ _ _ _ Hv i x Hi) as [<- _]. unfold slot_at. by destruct (bit fl i 1), (bit fl i 0).
Qed.

Lemma view_live i k v : t !! i = Some (Live k v) -> ks !! i = Some k /\ vs !! i = Some v.
Proof.
  intros Hi. destruct (view_bound i _ Hi) as (_ & Hk & Hvs).
  destruct (vw_slots _ _ _ _ Hv i _ Hi) as [Hs _]. revert Hs. unfold slot_at.
  destruct (bit fl i 1), (bit fl i 0); try done. intros [= <- <-].
  destruct (lookup_lt_is_Some_2 ks i Hk) as [a ->], (lookup_lt_is_Some_2 vs i Hvs) as [b ->]. done.
Qed.

(** A cell that is not live can be written. *)
Lemma view_write i k v :
  (forall k' v', t !! i <> Some (Live k' v')) -> view fl (<[i:=k]> ks) (<[i:=v]> vs) t.
Proof.
  intros Hn. destruct Hv as [H1 H2 H3 H4]. split; rewrite ?length_insert; try done.
  intros j x Hj. destruct (H4 j x Hj) as [Hx He]. split; [|done]. rewrite <- Hx. unfold slot_at.
  destruct (bit fl j 1) eqn:E1; [done|]. destruct (bit fl j 0) eqn:E0; [done|].
  destruct (decide (i = j)) as [->|Hne]; [|by rewrite !list_lookup_insert_ne].
  exfalso. revert Hx Hj. unfold slot_at. rewrite E1, E0. intros <-. apply Hn.
Qed.

Lemma view_delete i k v :
  t !! i = Some (Live k v) -> exists fl', ac_set_isdel_true fl (Z.of_nat i) = Some fl' /\ view fl' ks vs (<[i:=Deleted]> t).
Proof.
  intros Hi. destruct (view_bound i _ Hi) as [Hb _]. destruct (set_isdel_bit fl i Hb) as (fl' & Hrun & Hlen & Hbit).
  exists fl'. split; [done|]. destruct Hv as [H1 H2 H3 H4]. split; rewrite ?length_insert, ?Hlen; try done.
  intros j x Hj. unfold slot_at. rewrite !Hbit by lia. apply list_lookup_insert_Some in Hj as [(-> & <- & _)|[Hne Hj]].
  - rewrite !decide_True by done. cbn. destruct (H4 j _ Hi) as [Hs _]. revert Hs. unfold slot_at. by destruct (bit fl j 1).
  - rewrite !decide_False by congruence. apply (H4 j x Hj).
Qed.

Lemma view_fill i x k v :
  t !! i = Some x -> exists fl', ac_set_isboth_false fl (Z.of_nat i) = Some fl' /\
    view fl' (<[i:=k]> ks) (<[i:=v]> vs) (<[i:=Live k v]> t).
Proof.
  intros Hi. destruct (view_bound i _ Hi) as (Hb & Hk & Hvs). destruct (set_isboth_bit fl i Hb) as (fl' & Hrun & Hlen & Hbit).
  exists fl'. split; [done|]. destruct Hv as [H1 H2 H3 H4]. split; rewrite ?length_insert, ?Hlen; try done.
  intros j y Hj. unfold slot_at. rewrite !Hbit by lia. apply list_lookup_insert_Some in Hj as [(-> & <- & _)|[Hne Hj]].
  - rewrite !decide_True by done. by rewrite !list_lookup_insert_eq by done.
  - rewrite !decide_False, !list_lookup_insert_ne by congruence. apply (H4 j y Hj).
Qed.

Lemma view_occupy i k v :
  t !! i = Some Empty -> exists fl', ac_set_isempty_false fl (Z.of_nat i) = Some fl' /\
    view fl' (<[i:=k]> ks) (<[i:=v]> vs) (<[i:=Live k v]> t).
Proof.
  intros Hi. destruct (view_bound i _ Hi) as (Hb & Hk & Hvs). destruct (set_isempty_bit fl i Hb) as (fl' & Hrun & Hlen & Hbit).
  exists fl'. split; [done|]. destruct Hv as [H1 H2 H3 H4]. split; rewrite ?length_insert, ?Hlen; try done.
  intros j y Hj. unfold slot_at. rewrite !Hbit by lia. apply list_lookup_insert_Some in Hj as [(-> & <- & _)|[Hne Hj]].
  - rewrite !decide_True by done. destruct (H4 j _ Hi) as [_ He]. rewrite (He eq_refl). cbn.
    by rewrite !list_lookup_insert_eq by done.
  - rewrite !decide_False, !list_lookup_insert_ne by congruence. apply (H4 j y Hj).
Qed.

End views.

(** ** The probe *)

Definition tri (s : nat) : Z := Z.of_nat s * (Z.of_nat s + 1) / 2.
Definition pos (n hash : Z) (s : nat) : nat := Z.to_nat ((hash + tri s) mod n).

Lemma tri_double s : 2 * tri s = Z.of_nat s * (Z.of_nat s + 1).
Proof.
  unfold tri. assert (Z.even (Z.of_nat s * (Z.of_nat s + 1)) = true) as He.
  { rewrite Z.even_mul, Z.even_add. by destruct (Z.even (Z.of_nat s)). }
  apply Z.even_spec in He as [y Hy]. rewrite Hy, (Z.mul_comm 2 y), Z.div_mul by lia. lia.
Qed.

Lemma tri_S s : tri (S s) = tri s + Z.of_nat (S s).
Proof. pose proof (tri_double s). pose proof (tri_double (S s)). rewrite Nat2Z.inj_succ in *. nia. Qed.

Lemma pos_lt n hash s : 0 < n -> (pos n hash s < Z.to_nat n)%nat.
Proof. intros Hn. unfold pos. pose proof (Z.mod_pos_bound (hash + tri s) n Hn). lia. Qed.

Lemma no_multiple x p w : 0 < x < p -> x <> w * p.
Proof. intros Hx ->. assert (w <= 0 \/ 1 <= w) as [?|?] by lia; nia. Qed.

(** [n] consecutive positions are different. *)
Lemma pos_inj k hash a b :
  0 <= k -> (a < b)%nat -> Z.of_nat b < 2 ^ k -> pos (2 ^ k) hash a <> pos (2 ^ k) hash b.
Proof.
  intros Hk Hab Hb Heq. unfold pos in Heq.
  pose proof (Z.mod_pos_bound (hash + tri a) (2 ^ k) ltac:(lia)). pose proof (Z.mod_pos_bound (hash + tri b) (2 ^ k) ltac:(lia)).
  assert ((tri b - tri a) mod 2 ^ k = 0) as Hd.
  { replace (tri b - tri a) with ((hash + tri b) - (hash + tri a)) by lia.
    rewrite Zminus_mod. replace ((hash + tri a) mod 2 ^ k) with ((hash + tri b) mod 2 ^ k) by lia.
    by rewrite Z.sub_diag. }
  apply Z.mod_divide in Hd as [q Hq]; [|lia].
  pose proof (tri_double a) as Ta. pose proof (tri_double b) as Tb.
  set (x := Z.of_nat b - Z.of_nat a) in *. set (y := Z.of_nat a + Z.of_nat b + 1).
  assert (x * y = 2 ^ (k + 1) * q) as Hxy.
  { rewrite Z.pow_add_r by lia. change (2 ^ 1) with 2. unfold x, y. nia. }
  assert (0 < x < 2 ^ k /\ 0 < y < 2 ^ (k + 1)) as [Hx Hy].
  { rewrite Z.pow_add_r by lia. change (2 ^ 1) with 2. unfold x, y. lia. }
  (* one of the two factors is odd *)
  destruct (Z.Even_or_Odd x) as [[u Hu]|[u Hu]].
  - assert (Z.gcd (2 ^ (k + 1)) y = 1) as Hg.
    { apply Zgcd_1_rel_prime. apply rel_prime_sym, Zpow_facts.rel_prime_Zpower_r; [lia|].
      apply rel_prime_sym. apply prime_rel_prime; [exact prime_2|]. intros [w Hw]. unfold x, y in *. lia. }
    assert ((2 ^ (k + 1) | x)) as [w Hw] by (apply (Z.gauss _ y); [exists q; lia|done]).
    apply (no_multiple x (2 ^ (k + 1)) w); [|done]. rewrite Z.pow_add_r by lia. lia.
  - assert (Z.gcd (2 ^ (k + 1)) x = 1) as Hg.
    { apply Zgcd_1_rel_prime. apply rel_prime_sym, Zpow_facts.rel_prime_Zpower_r; [lia|].
      apply rel_prime_sym. apply prime_rel_prime; [exact prime_2|]. intros [w Hw]. lia. }
    assert ((2 ^ (k + 1) | y)) as [w Hw] by (apply (Z.gauss _ x); [exists q; lia|done]).
    by apply (no_multiple y (2 ^ (k + 1)) w).
Qed.

Lemma pos_onto k hash i :
  0 <= k -> (i < Z.to_nat (2 ^ k))%nat -> exists s, (s < Z.to_nat (2 ^ k))%nat /\ pos (2 ^ k) hash s = i.
Proof.
  intros Hk Hi. set (n := Z.to_nat (2 ^ k)) in *. set (l := pos (2 ^ k) hash <$> seq 0 n).
  assert (NoDup l) as Hnd.
  { apply NoDup_fmap_2_strong; [|apply NoDup_seq]. intros x y Hx%elem_of_seq Hy%elem_of_seq Heq.
    destruct (Nat.lt_trichotomy x y) as [Hlt|[?|Hlt]]; [|done|]; exfalso.
    - apply (pos_inj k hash x y Hk Hlt); [lia|done].
    - apply (pos_inj k hash y x Hk Hlt); [lia|done]. }
  assert (l ⊆+ seq 0 n) as Hsub.
  { apply NoDup_submseteq; [done|]. intros x (s & -> & _)%list_elem_of_fmap. apply elem_of_seq.
    pose proof (pos_lt (2 ^ k) hash s ltac:(lia)). lia. }
  apply submseteq_length_Permutation in Hsub; [|unfold l; by rewrite length_fmap].
  assert (i ∈ l) as (s & -> & Hs%elem_of_seq)%list_elem_of_fmap by (rewrite Hsub; apply elem_of_seq; lia).
  exists s. split; [lia|done].
Qed.

Lemma pos_start k hash : 0 <= k <= 31 -> Z.land hash (u32 (2 ^ k - 1)) = Z.of_nat (pos (2 ^ k) hash 0).
Proof.
  intros Hk. assert (2 ^ k <= 2 ^ 31) by (apply Z.pow_le_mono_r; lia). change (2 ^ 31) with 2147483648 in *.
  rewrite wrap_small by (change (2 ^ 32) with 4294967296; lia).
  replace (2 ^ k - 1) with (Z.ones k) by (rewrite Z.ones_equiv; lia). rewrite Z.land_ones by lia.
  unfold pos. change (tri 0) with 0. rewrite Z.add_0_r, Z2Nat.id; [done|]. apply Z.mod_pos_bound. lia.
Qed.

Lemma pos_step k hash s :
  0 <= k <= 31 ->
  Z.land (u32 (Z.of_nat (pos (2 ^ k) hash s) + Z.of_nat (S s))) (u32 (2 ^ k - 1)) = Z.of_nat (pos (2 ^ k) hash (S s)).
Proof.
  intros Hk. rewrite (pos_start k) by done. unfold pos. f_equal. f_equal. change (tri 0) with 0. rewrite Z.add_0_r.
  rewrite Z2Nat.id by (apply Z.mod_pos_bound; lia). unfold wrap.
  rewrite <- Zmod_div_mod by (try lia; exists (2 ^ (32 - k)); rewrite <- Z.pow_add_r by lia; f_equal; lia).
  rewrite Zplus_mod_idemp_l, tri_S. f_equal. lia.
Qed.

(** ** Searching *)

Definition on_slot (key : Z) (x : slot) : bool :=
  match x with Empty => false | Deleted => true | Live k _ => negb (k =? key) end.

(** The probe of [key] stops after [s] steps at [x], the first slot that is not passed. *)
Definition stops (on : slot -> bool) (t : list slot) (k key : Z) (s : nat) (x : slot) : Prop :=
  let p := pos (2 ^ k) (kh_int64_hash_func key) in
  t !! p s = Some x /\ on x = false /\ forall j, (j < s)%nat -> exists y, t !! p j = Some y /\ on y = true.

Lemma stops_exists on t k key :
  0 <= k -> zlen t = 2 ^ k -> on Empty = false -> Empty ∈ t -> exists s x, stops on t k key s x /\ Z.of_nat s < 2 ^ k.
Proof.
  intros Hk Hlen Hempty [i Hi]%list_elem_of_lookup. set (p := pos (2 ^ k) (kh_int64_hash_func key)).
  pose proof (lookup_lt_Some _ _ _ Hi) as Hlt.
  destruct (pos_onto k (kh_int64_hash_func key) i Hk) as (s0 & Hs0 & E); [lia|]. fold p in E.
  assert (forall s, exists y, t !! p s = Some y) as Hat.
  { intros s. apply lookup_lt_is_Some_2. pose proof (pos_lt (2 ^ k) (kh_int64_hash_func key) s ltac:(lia)).
    unfold p. lia. }
  assert (forall d s, (s + d = s0)%nat -> (forall j, (j < s)%nat -> exists y, t !! p j = Some y /\ on y = true) ->
            exists s' x, stops on t k key s' x /\ (s' <= s0)%nat) as Hfind.
  { induction d as [|d IH]; intros s Hs Hbefore.
    - exists s, Empty. split; [|lia]. split; [|by split]. replace s with s0 by lia. fold p. by rewrite E.
    - destruct (Hat s) as [y Hy]. destruct (on y) eqn:Eon.
      + apply (IH (S s)); [lia|]. intros j Hj. destruct (decide (j = s)) as [->|Hne]; [by exists y|apply Hbefore; lia].
      + exists s, y. split; [by split|lia]. }
  destruct (Hfind s0 0%nat) as (s & x & Hst & Hle); [lia|intros j Hj; lia|]. exists s, x. split; [done|lia].
Qed.

(** A key may stand at [i]: no empty cell comes before on its probe. *)
Definition reachable (t : list slot) (k key : Z) (i : nat) : Prop :=
  exists s, pos (2 ^ k) (kh_int64_hash_func key) s = i /\
    forall j, (j < s)%nat -> exists y, t !! pos (2 ^ k) (kh_int64_hash_func key) j = Some y /\ is_empty y = false.

Lemma on_not_empty key x : on_slot key x = true -> is_empty x = false.
Proof. by destruct x. Qed.

Section search.
Context (h : khash) (t : list slot) (k : Z).
Context (Hv : view (flags h) (keys h) (vals h) t) (Hk : 0 <= k <= 31) (Hlen : zlen t = 2 ^ k) (Hn : n_buckets h = 2 ^ k).

Lemma probe_on_slot key i x : t !! i = Some x -> probe_on h key (Z.of_nat i) = Some (on_slot key x).
Proof.
  intros Hi. unfold probe_on. rewrite (view_isempty _ _ _ _ Hv i x Hi). mred.
  destruct x as [| |a b]; cbn [is_empty]; [done|by rewrite (view_isdel _ _ _ _ Hv i _ Hi)|].
  rewrite (view_isdel _ _ _ _ Hv i _ Hi) by done. mred.
  destruct (view_live _ _ _ _ Hv i a b Hi) as [Ha _]. unfold at_. by rewrite decide_True, Nat2Z.id, Ha by lia.
Qed.

Lemma get_loop_spec key s x :
  stops (on_slot key) t k key s x -> Z.of_nat s < 2 ^ k ->
  let p := pos (2 ^ k) (kh_int64_hash_func key) in
  forall d j fuel, (j + d = s)%nat -> (d < fuel)%nat ->
  get_loop fuel h key (u32 (2 ^ k - 1)) (Z.of_nat (p 0%nat)) (Z.of_nat (p j)) (Z.of_nat j)
  = Some (if is_live x then Z.of_nat (p s) else n_buckets h).
Proof.
  intros (Hx & Hoff & Hon) Hs p. induction d as [|d IH]; intros j fuel Hj Hf; (destruct fuel as [|fuel]; [lia|]);
    cbn [get_loop].
  - replace j with s by lia. fold p in Hx. rewrite (probe_on_slot key _ x Hx), Hoff. mred.
    rewrite (view_iseither _ _ _ _ Hv _ x Hx). mred. by destruct (is_live x).
  - destruct (Hon j ltac:(lia)) as (y & Hy & Hyon). fold p in Hy. rewrite (probe_on_slot key _ y Hy), Hyon. mred.
    assert (2 ^ k <= 2 ^ 31) by (apply Z.pow_le_mono_r; lia). change (2 ^ 31) with 2147483648 in *.
    rewrite (wrap_small 32 (Z.of_nat j + 1)) by (change (2 ^ 32) with 4294967296; lia).
    replace (Z.of_nat j + 1) with (Z.of_nat (S j)) by lia. pose proof (pos_step k (kh_int64_hash_func key) j Hk) as Hstep. fold p in Hstep. rewrite Hstep.
    rewrite decide_False; [apply IH; lia|]. intros Heq%Nat2Z.inj. symmetry in Heq. revert Heq.
    apply pos_inj; lia.
Qed.

Lemma kh_get_spec key s x :
  stops (on_slot key) t k key s x -> Z.of_nat s < 2 ^ k ->
  kh_get h key = Some (if is_live x then Z.of_nat (pos (2 ^ k) (kh_int64_hash_func key) s) else n_buckets h).
Proof.
  intros Hst Hs. unfold kh_get. rewrite Hn. rewrite decide_False by lia. rewrite pos_start by done.
  pose proof (get_loop_spec key s x Hst Hs s 0%nat (probe_fuel (2 ^ k))) as Hget. rewrite Hn in Hget.
  apply Hget; [lia|]. unfold probe_fuel. lia.
Qed.

(** [site] is no cell, or a deleted one that was passed. *)
Definition site_ok (p : nat -> nat) (j : nat) (site : Z) : Prop :=
  site = n_buckets h \/ exists j', (j' < j)%nat /\ site = Z.of_nat (p j') /\ t !! p j' = Some Deleted.

Lemma put_loop_spec key s x :
  stops (on_slot key) t k key s x -> Z.of_nat s < 2 ^ k ->
  let p := pos (2 ^ k) (kh_int64_hash_func key) in
  forall d j fuel site, (j + d = s)%nat -> (d < fuel)%nat -> site_ok p j site ->
  exists site', put_loop fuel h key (u32 (2 ^ k - 1)) (Z.of_nat (p 0%nat)) (Z.of_nat (p j)) (Z.of_nat j) site
    = Some (n_buckets h, Z.of_nat (p s), site') /\ site_ok p s site'.
Proof.
  intros (Hx & Hoff & Hon) Hs p. induction d as [|d IH]; intros j fuel site Hj Hf Hsite; (destruct fuel as [|fuel]; [lia|]);
    cbn [put_loop].
  - replace s with j in * by lia. fold p in Hx. rewrite (probe_on_slot key _ x Hx), Hoff. mred. by exists site.
  - destruct (Hon j ltac:(lia)) as (y & Hy & Hyon). fold p in Hy. rewrite (probe_on_slot key _ y Hy), Hyon. mred.
    rewrite (view_isdel _ _ _ _ Hv _ y Hy) by (by eapply on_not_empty). mred.
    assert (2 ^ k <= 2 ^ 31) by (apply Z.pow_le_mono_r; lia). change (2 ^ 31) with 2147483648 in *.
    rewrite (wrap_small 32 (Z.of_nat j + 1)) by (change (2 ^ 32) with 4294967296; lia).
    replace (Z.of_nat j + 1) with (Z.of_nat (S j)) by lia.
    pose proof (pos_step k (kh_int64_hash_func key) j Hk) as Hstep. fold p in Hstep. rewrite Hstep.
    rewrite decide_False; [apply IH; [lia|lia|]|].
    + destruct y; [done|right; exists j; split_and!; (done || lia)|].
      destruct Hsite as [->|(j' & Hj' & -> & Hd)]; [by left|right; exists j'; split_and!; (done || lia)].
    + intros Heq%Nat2Z.inj. symmetry in Heq. revert Heq. apply pos_inj; lia.
Qed.

Lemma put_site_spec key s x :
  stops (on_slot key) t k key s x -> Z.of_nat s < 2 ^ k ->
  exists i y, put_site h key = Some (Z.of_nat i) /\ t !! i = Some y /\ (is_live x = true -> y = x) /\
    (is_live x = false -> is_live y = false /\ reachable t k key i).
Proof.
  intros Hst Hs. pose proof Hst as (Hx & Hoff & Hon). set (p := pos (2 ^ k) (kh_int64_hash_func key)) in *.
  assert (reachable t k key (p s)) as Hreach.
  { exists s. split; [done|]. intros j Hj. destruct (Hon j Hj) as (y & Hy & Hyon). exists y. split; [done|]. by eapply on_not_empty. }
  assert (exists y0, t !! p 0%nat = Some y0) as [y0 Hy0].
  { destruct s as [|s]; [by exists x|]. destruct (Hon 0%nat ltac:(lia)) as (y & Hy & _). by exists y. }
  unfold put_site. rewrite Hn, pos_start by done. fold p. rewrite (view_isempty _ _ _ _ Hv _ y0 Hy0). mred.
  destruct (is_empty y0) eqn:E0.
  - assert (s = 0%nat) as ->.
    { destruct s as [|s]; [done|]. destruct (Hon 0%nat ltac:(lia)) as (y & Hy & Hyon). rewrite Hy0 in Hy. injection Hy as ->. by destruct y. }
    rewrite Hy0 in Hx. injection Hx as ->. exists (p 0%nat), x. by destruct x.
  - destruct (put_loop_spec key s x Hst Hs s 0%nat (probe_fuel (2 ^ k)) (2 ^ k)) as (site & Hrun & Hsite);
      [lia|unfold probe_fuel; lia|by left|]. fold p in Hrun. change (Z.of_nat 0) with 0 in Hrun. rewrite Hrun. mred. rewrite Hn, decide_True by done.
    rewrite (view_isempty _ _ _ _ Hv _ x Hx). mred.
    destruct Hsite as [->|(j' & Hj' & -> & Hd)].
    + rewrite Hn, Z.eqb_refl, andb_false_r. exists (p s), x. by destruct x.
    + fold p in Hd |- *. destruct (is_empty x) eqn:Ex; cbn [andb].
      * assert (negb (Z.of_nat (p j') =? 2 ^ k) = true) as ->.
        { apply negb_true_iff, Z.eqb_neq. pose proof (lookup_lt_Some _ _ _ Hd). lia. }
        exists (p j'), Deleted. destruct x; try done. split_and!; try done. intros _. split; [done|]. exists j'. split; [done|].
        intros j Hj. destruct (Hon j ltac:(lia)) as (y & Hy & Hyon). exists y. split; [done|]. by eapply on_not_empty.
      * exists (p s), x. destruct x; try done.
Qed.

End search.
