(* ===== verification/KHashTable.v ===== *)
(** * The invariant of the hash table, and its rehash in place

    [good] is what the searches rely on: the live keys differ, and no empty cell comes
    before a live key on its probe.  A rehash moves the live cells of the old flags to
    cells of the new flags in the same arrays; no cell is live in both. *)

From S2P Require Import Prelude Buckets KHash KHashFacts.

(** ** Counting slots *)

Definition occupied_slot (x : slot) : list unit := match x with Empty => [] | _ => [tt] end.
Definition occupied (t : list slot) : nat := length (entries occupied_slot t).

Lemma occupied_cons x t : occupied (x :: t) = (length (occupied_slot x) + occupied t)%nat.
Proof. unfold occupied, entries. cbn. by rewrite length_app. Qed.

Lemma live_cons x t : live (x :: t) = live_slot x ++ live t.
Proof. done. Qed.

Lemma occupied_empty t : (occupied t < length t)%nat -> Empty ∈ t.
Proof.
  induction t as [|x t IH]; [cbn; lia|]. rewrite occupied_cons. destruct x; cbn; intros H.
  - left.
  - right. apply IH. lia.
  - right. apply IH. lia.
Qed.

Lemma live_occupied t : (length (live t) <= occupied t)%nat /\ (occupied t <= length t)%nat.
Proof.
  induction t as [|x t IH]; [done|]. rewrite occupied_cons, live_cons, length_app. destruct x; cbn; lia.
Qed.

Lemma occupied_live t : Deleted ∉ t -> occupied t = length (live t).
Proof.
  induction t as [|x t IH]; [done|]. rewrite occupied_cons, live_cons, length_app. intros Hn.
  rewrite IH by (intros ?; apply Hn; by right). destruct x; [done| |done]. exfalso. apply Hn. left.
Qed.

Lemma live_delete t i key v : t !! i = Some (Live key v) -> live t ≡ₚ (key, v) :: live (<[i:=Deleted]> t).
Proof. intros Hi. by apply (entries_remove live_slot t i (Live key v) Deleted (key, v) Hi). Qed.

Lemma live_fill t i x key v :
  t !! i = Some x -> is_live x = false -> live (<[i:=Live key v]> t) ≡ₚ (key, v) :: live t.
Proof. intros Hi Hx. apply (entries_add live_slot t i x); [done|]. by destruct x. Qed.

Lemma live_value t i key v value :
  t !! i = Some (Live key v) -> live (<[i:=Live key value]> t) ≡ₚ (key, value) :: live (<[i:=Deleted]> t).
Proof.
  intros Hi%lookup_lt_Some. rewrite <- (list_insert_insert_eq t i (Live key value) Deleted).
  apply live_fill with Deleted; [by rewrite list_lookup_insert_eq|done].
Qed.

Lemma occupied_insert t i x y :
  t !! i = Some x -> is_empty y = false ->
  occupied (<[i:=y]> t) = if is_empty x then S (occupied t) else occupied t.
Proof.
  intros Hi Hy. unfold occupied. destruct (is_empty x) eqn:Ex.
  - by rewrite (entries_add occupied_slot t i x y tt Hi) by (by destruct x, y).
  - rewrite (entries_insert _ _ _ _ _ Hi), (entries_split _ _ _ _ Hi). destruct x, y; done.
Qed.

(** ** What the searches rely on *)

Record good (t : list slot) (k : Z) : Prop := {
  gd_log : 2 <= k <= 31;
  gd_len : zlen t = 2 ^ k;
  gd_keys : NoDup (live t).*1;
  gd_reach : forall i key v, t !! i = Some (Live key v) -> reachable t k key i
}.

(** No cell becomes empty. *)
Lemma reachable_mono t t' k key i :
  (forall j y, t !! j = Some y -> is_empty y = false -> exists y', t' !! j = Some y' /\ is_empty y' = false) ->
  reachable t k key i -> reachable t' k key i.
Proof.
  intros Hm (s & Hs & Hb). exists s. split; [done|]. intros j Hj. destruct (Hb j Hj) as (y & Hy & He). by apply (Hm _ y).
Qed.

Lemma reachable_insert t k key i j x y :
  t !! j = Some x -> is_empty y = false -> reachable t k key i -> reachable (<[j:=y]> t) k key i.
Proof.
  intros Hj Hy. apply reachable_mono. intros a z Hz He. pose proof (lookup_lt_Some _ _ _ Hj).
  destruct (decide (a = j)) as [->|Hne].
  - exists y. by rewrite list_lookup_insert_eq.
  - exists z. by rewrite list_lookup_insert_ne.
Qed.

(** One entry is one cell. *)
Lemma live_index t i j key v v' :
  NoDup (live t).*1 -> t !! i = Some (Live key v) -> t !! j = Some (Live key v') -> i = j.
Proof.
  intros Hn Hi Hj. destruct (decide (i = j)) as [|Hne]; [done|exfalso].
  rewrite (live_delete t i key v Hi) in Hn. cbn in Hn. apply NoDup_cons in Hn as [Hn _]. apply Hn.
  apply list_elem_of_fmap. exists (key, v'). split; [done|]. apply entries_elem. exists j, (Live key v').
  rewrite list_lookup_insert_ne by done. split; [done|]. cbn. by left.
Qed.

Lemma good_delete t k i key v : good t k -> t !! i = Some (Live key v) -> good (<[i:=Deleted]> t) k.
Proof.
  intros [Hk Hlen Hn Hr] Hi. split; rewrite ?length_insert; try done.
  - rewrite (live_delete t i key v Hi) in Hn. cbn in Hn. by apply NoDup_cons in Hn as [_ Hn].
  - intros j key' v' Hj. apply list_lookup_insert_Some in Hj as [(_ & ? & _)|[Hne Hj]]; [done|].
    by eapply reachable_insert, Hr.
Qed.

Lemma good_fill t k i x key v :
  good t k -> t !! i = Some x -> is_live x = false -> key ∉ (live t).*1 -> reachable t k key i ->
  good (<[i:=Live key v]> t) k.
Proof.
  intros [Hk Hlen Hn Hr] Hi Hx Hkey Hreach. split; rewrite ?length_insert; try done.
  - rewrite (live_fill t i x key v Hi Hx). cbn. by constructor.
  - intros j key' v' Hj. eapply reachable_insert; [done|done|].
    apply list_lookup_insert_Some in Hj as [(-> & [= <- <-] & _)|[Hne Hj]]; [done|by eapply Hr].
Qed.

Lemma good_value t k i key v v' : good t k -> t !! i = Some (Live key v) -> good (<[i:=Live key v']> t) k.
Proof.
  intros [Hk Hlen Hn Hr] Hi. split; rewrite ?length_insert; try done.
  - rewrite (live_delete t i key v Hi) in Hn. by rewrite (live_value t i key v v' Hi).
  - intros j key' v'' Hj. eapply reachable_insert; [done|done|].
    apply list_lookup_insert_Some in Hj as [(-> & [= <- <-] & _)|[Hne Hj]]; by eapply Hr.
Qed.

(** Where a search stops: at the key if it is live, else at a cell that is not live. *)
Lemma stops_live t k key s x i v :
  good t k -> stops (on_slot key) t k key s x -> Z.of_nat s < 2 ^ k -> t !! i = Some (Live key v) ->
  x = Live key v /\ pos (2 ^ k) (kh_int64_hash_func key) s = i.
Proof.
  intros Hg (Hx & Hoff & Hon) Hs Hi. destruct (gd_reach _ _ Hg i key v Hi) as (s0 & E & Hb).
  set (p := pos (2 ^ k) (kh_int64_hash_func key)) in *.
  assert (p s = i) as Hp; [|split; [|done]; rewrite Hp in Hx; congruence].
  destruct (Nat.lt_trichotomy s s0) as [Hlt|[->|Hlt]]; [|done|].
  - destruct (Hb s Hlt) as (y & Hy & He). rewrite Hx in Hy. injection Hy as <-.
    destruct x as [| |a b]; [done|done|]. cbn in Hoff. apply negb_false_iff, Z.eqb_eq in Hoff as ->.
    by apply (live_index t (p s) i key b v (gd_keys _ _ Hg)).
  - destruct (Hon s0 Hlt) as (y & Hy & Hyon). rewrite E, Hi in Hy. injection Hy as <-. cbn in Hyon.
    by rewrite Z.eqb_refl in Hyon.
Qed.

Lemma stops_not_live t k key s x :
  stops (on_slot key) t k key s x -> key ∉ (live t).*1 -> is_live x = false.
Proof.
  intros (Hx & Hoff & _) Hn. destruct x as [| |a b]; [done|done|exfalso]. cbn in Hoff.
  apply negb_false_iff, Z.eqb_eq in Hoff as ->. apply Hn, list_elem_of_fmap. exists (key, b). split; [done|].
  apply entries_elem. eexists _, _. split; [exact Hx|]. cbn. by left.
Qed.
