(* ===== verification/KHashRehash.v ===== *)
(** * The rehash in place of the hash table

    [moving] is the state between two steps of the outer loop: old slots [t], new slots
    [t'], the same arrays.  A kick turns an old live cell into a deleted one and goes on
    with its pair, so the number of live pairs, old and new, stays the same. *)

From S2P Require Import Prelude Buckets KHash KHashFacts KHashTable.

(** ** Room in the arrays *)

Lemma view_arrays fl ks vs ks' vs' t :
  view fl ks vs t -> (length t <= length ks')%nat -> (length t <= length vs')%nat ->
  (forall i, (i < length t)%nat -> ks' !! i = ks !! i) -> (forall i, (i < length t)%nat -> vs' !! i = vs !! i) ->
  view fl ks' vs' t.
Proof.
  intros [H1 H2 H3 H4] Hk Hvs Ek Ev. split; [done..|]. intros i x Hi. pose proof (lookup_lt_Some _ _ _ Hi) as Hl.
  unfold slot_at. rewrite Ek, Ev by done. by apply H4.
Qed.

Lemma length_grow l n : 0 <= n -> length (grow l n) = Z.to_nat n.
Proof. intros Hn. unfold grow. rewrite length_app, length_take, length_replicate. lia. Qed.

Lemma lookup_grow l n i : (i < length l)%nat -> (i < Z.to_nat n)%nat -> grow l n !! i = l !! i.
Proof. intros H1 H2. unfold grow. rewrite lookup_app_l by (rewrite length_take; lia). by apply lookup_take_lt. Qed.

Lemma view_empty n : view (empty_flags n) [] [] [].
Proof. split; cbn; [lia..|done]. Qed.

Lemma empty_bit m i c :
  (i < 16 * m)%nat -> 0 <= c < 2 -> bit (replicate m 0xAAAAAAAA) i c = (c =? 1).
Proof.
  intros Hi Hc. unfold bit, word_of. rewrite lookup_replicate_2 by (apply Nat.Div0.div_lt_upper_bound; lia). cbn [default].
  assert (forallb (fun r => forallb (fun d => Bool.eqb (Z.testbit 0xAAAAAAAA (2 * Z.of_nat r + d)) (d =? 1)) [0; 1]) (seq 0 16) = true) as Hall
    by (vm_compute; done).
  rewrite forallb_forall in Hall. specialize (Hall (i mod 16)%nat). rewrite in_seq in Hall.
  pose proof (Nat.mod_upper_bound i 16 ltac:(lia)). specialize (Hall ltac:(lia)). rewrite forallb_forall in Hall.
  apply eqb_prop, Hall. cbn. lia.
Qed.

Lemma empty_flags_view k ks vs :
  2 <= k -> 2 ^ k <= zlen ks -> 2 ^ k <= zlen vs -> view (empty_flags (2 ^ k)) ks vs (replicate (Z.to_nat (2 ^ k)) Empty).
Proof.
  intros Hk Hks Hvs. set (m := Z.to_nat (ac_fsize (2 ^ k))).
  assert (2 ^ k <= 16 * Z.of_nat m) as Hm.
  { unfold m, ac_fsize. destruct (Z.ltb_spec (2 ^ k) 16) as [Hlt|Hge]; [lia|].
    assert (4 <= k) by (apply (Z.pow_le_mono_r_iff 2); [lia..|done]). rewrite Z.shiftr_div_pow2 by lia.
    rewrite <- Z.pow_sub_r by lia. rewrite Z2Nat.id by lia. change 16 with (2 ^ 4). rewrite <- Z.pow_add_r by lia.
    apply Z.eq_le_incl. f_equal. lia. }
  split; rewrite ?length_replicate; [unfold empty_flags; rewrite length_replicate; fold m; lia|lia|lia|].
  intros i x [-> Hi]%lookup_replicate. unfold slot_at, empty_flags. fold m. by rewrite !empty_bit by lia.
Qed.

(** ** One pair finds its cell *)

Lemma empty_loop_spec fl ks vs t k key s x :
  view fl ks vs t -> 0 <= k <= 31 -> zlen t = 2 ^ k ->
  stops (negb ∘ is_empty) t k key s x -> Z.of_nat s < 2 ^ k ->
  let p := pos (2 ^ k) (kh_int64_hash_func key) in
  forall d j fuel, (j + d = s)%nat -> (d < fuel)%nat ->
  empty_loop fuel fl (u32 (2 ^ k - 1)) (Z.of_nat (p j)) (Z.of_nat j) = Some (Z.of_nat (p s)).
Proof.
  intros Hv Hk Hlen (Hx & Hoff & Hon) Hs p. fold p in Hx, Hon. apply negb_false_iff in Hoff.
  induction d as [|d IH]; intros j fuel Hj Hf; (destruct fuel as [|fuel]; [lia|]); cbn [empty_loop].
  - replace s with j in * by lia. rewrite (view_isempty _ _ _ _ Hv _ x Hx). mred. by rewrite Hoff.
  - destruct (Hon j ltac:(lia)) as (y & Hy & Hyon). rewrite (view_isempty _ _ _ _ Hv _ y Hy). mred.
    apply negb_true_iff in Hyon as ->.
    assert (2 ^ k <= 2 ^ 31) by (apply Z.pow_le_mono_r; lia). change (2 ^ 31) with 2147483648 in *.
    rewrite (wrap_small 32 (Z.of_nat j + 1)) by (change (2 ^ 32) with 4294967296; lia).
    replace (Z.of_nat j + 1) with (Z.of_nat (S j)) by lia.
    pose proof (pos_step k (kh_int64_hash_func key) j Hk) as Hstep. fold p in Hstep. rewrite Hstep. apply IH; lia.
Qed.

Lemma find_empty fl ks vs t k key :
  view fl ks vs t -> 0 <= k <= 31 -> zlen t = 2 ^ k -> Empty ∈ t ->
  exists i, empty_loop (probe_fuel (2 ^ k)) fl (u32 (2 ^ k - 1)) (Z.land (kh_int64_hash_func key) (u32 (2 ^ k - 1))) 0 = Some (Z.of_nat i) /\
    t !! i = Some Empty /\ reachable t k key i.
Proof.
  intros Hv Hk Hlen He. destruct (stops_exists (negb ∘ is_empty) t k key) as (s & x & Hst & Hs); [lia|done..|].
  exists (pos (2 ^ k) (kh_int64_hash_func key) s). split_and!.
  - rewrite pos_start by done. apply (empty_loop_spec fl ks vs t k key s x Hv Hk Hlen Hst Hs s 0%nat); [lia|unfold probe_fuel; lia].
  - destruct Hst as (Hx & Hoff & _). rewrite Hx. by destruct x.
  - destruct Hst as (_ & _ & Hb). exists s. split; [done|]. intros j Hj. destruct (Hb j Hj) as (y & Hy & Hyon).
    exists y. split; [done|]. by apply negb_true_iff in Hyon.
Qed.

(** ** The state of a rehash *)

Record moving (h : khash) (nfl : list Z) (k : Z) (t t' : list slot) : Prop := {
  mv_old : view (flags h) (keys h) (vals h) t;
  mv_new : view nfl (keys h) (vals h) t';
  mv_apart : forall i x y, t !! i = Some x -> t' !! i = Some y -> is_live x && is_live y = false;
  mv_n : n_buckets h = zlen t;
  mv_log : 2 <= k <= 31;
  mv_len : zlen t' = 2 ^ k;
  mv_kept : Deleted ∉ t';
  mv_reach : forall i key v, t' !! i = Some (Live key v) -> reachable t' k key i
}.

(** What a step leaves alone. *)
Definition same_counts (h h' : khash) : Prop :=
  n_buckets h' = n_buckets h /\ kh_size h' = kh_size h /\ n_occupied h' = n_occupied h /\ upper_bound h' = upper_bound h /\
  length (keys h') = length (keys h) /\ length (vals h') = length (vals h).

(** Old cells only stop being live. *)
Definition fades (t t2 : list slot) : Prop :=
  length t2 = length t /\ forall i x, t2 !! i = Some x -> is_live x = true -> t !! i = Some x.

Lemma fades_refl t : fades t t.
Proof. by split. Qed.
Lemma fades_trans t t2 t3 : fades t t2 -> fades t2 t3 -> fades t t3.
Proof. intros [E H] [E' H']. split; [congruence|]. intros i x Hi Hx. apply H, Hx. by apply H'. Qed.
Lemma fades_delete t i : fades t (<[i:=Deleted]> t).
Proof.
  split; [apply length_insert|]. intros j x Hj Hx.
  by apply list_lookup_insert_Some in Hj as [(_ & <- & _)|[_ Hj]].
Qed.

(** Deleting an old cell. *)
Lemma moving_delete h nfl k t t' i key v :
  moving h nfl k t t' -> t !! i = Some (Live key v) ->
  exists fl, ac_set_isdel_true (flags h) (Z.of_nat i) = Some fl /\ moving (set_flags h fl) nfl k (<[i:=Deleted]> t) t'.
Proof.
  intros [H1 H2 H3 H4 H5 H6 H7 H8] Hi. destruct (view_delete _ _ _ _ H1 i key v Hi) as (fl & Hrun & Hv).
  exists fl. split; [done|]. split; cbn [set_flags flags keys vals n_buckets]; rewrite ?length_insert; try done.
  intros j x y Hj Hy. apply list_lookup_insert_Some in Hj as [(_ & <- & _)|[_ Hj]]; [done|by eapply H3].
Qed.

(** Filling a cell that is empty among the new ones and not live among the old ones. *)
Lemma moving_fill h nfl k t t' i key v :
  moving h nfl k t t' -> t' !! i = Some Empty -> (forall x, t !! i = Some x -> is_live x = false) -> reachable t' k key i ->
  exists nfl', ac_set_isempty_false nfl (Z.of_nat i) = Some nfl' /\
    moving (set_vals (set_keys h (<[i:=key]> (keys h))) (<[i:=v]> (vals h))) nfl' k t (<[i:=Live key v]> t').
Proof.
  intros [H1 H2 H3 H4 H5 H6 H7 H8] Hi Hold Hreach. destruct (view_occupy _ _ _ _ H2 i key v Hi) as (nfl' & Hrun & Hv).
  exists nfl'. split; [done|]. split; cbn [set_vals set_keys flags keys vals n_buckets]; rewrite ?length_insert; try done.
  - apply view_write; [done|]. intros a b Ha. by specialize (Hold _ Ha).
  - intros j x y Hj Hy. apply list_lookup_insert_Some in Hy as [(-> & <- & _)|[_ Hy]]; [by rewrite (Hold x Hj)|by eapply H3].
  - intros [j Hj]%list_elem_of_lookup. apply list_lookup_insert_Some in Hj as [(_ & ? & _)|[_ Hj]]; [done|].
    by apply H7, (list_elem_of_lookup_2 _ j).
  - intros j key' v' Hj. eapply reachable_insert; [done|done|].
    apply list_lookup_insert_Some in Hj as [(-> & [= <- <-] & _)|[_ Hj]]; [done|by eapply H8].
Qed.

(** ** Kicks *)

Lemma put_at_in l i x : (i < length l)%nat -> put_at l (Z.of_nat i) x = Some (<[i:=x]> l).
Proof. intros Hi. unfold put_at. by rewrite decide_True, Nat2Z.id by lia. Qed.

Lemma at_in l i x : l !! i = Some x -> at_ l (Z.of_nat i) = Some x.
Proof. intros Hi. unfold at_. by rewrite decide_True, Nat2Z.id by lia. Qed.

(** The pair in hand and the pairs of both tables. *)
Definition pairs (p : Z * Z) (t t' : list slot) : list (Z * Z) := p :: live t ++ live t'.

(** What the code reads about the old cell [i]. *)
Lemma old_live h nfl k t t' i :
  moving h nfl k t t' ->
  (if Z.of_nat i <? n_buckets h then b ← ac_iseither (flags h) (Z.of_nat i); Some (negb b) else Some false)
  = Some (default false (is_live <$> t !! i)).
Proof.
  intros Hm. rewrite (mv_n _ _ _ _ _ Hm). destruct (Z.ltb_spec (Z.of_nat i) (zlen t)) as [Hlt|Hge].
  - destruct (lookup_lt_is_Some_2 t i) as [x Hx]; [lia|].
    rewrite (view_iseither _ _ _ _ (mv_old _ _ _ _ _ Hm) i x Hx), Hx. mred. cbn. by rewrite negb_involutive.
  - by rewrite lookup_ge_None_2 by lia.
Qed.

Lemma kick_loop_spec k fuel : forall h nfl t t' key v,
  moving h nfl k t t' -> (length (live t) < fuel)%nat -> zlen (pairs (key, v) t t') <= 2 ^ k ->
  exists h2 nfl2 t2 t2', kick_loop fuel h nfl (2 ^ k) key v = Some (h2, nfl2) /\ moving h2 nfl2 k t2 t2' /\
    same_counts h h2 /\ fades t t2 /\ pairs (key, v) t t' ≡ₚ live t2 ++ live t2'.
Proof.
  induction fuel as [|fuel IH]; intros h nfl t t' key v Hm Hf Hroom; [lia|]. cbn [kick_loop].
  pose proof (mv_log _ _ _ _ _ Hm) as Hk. pose proof (mv_len _ _ _ _ _ Hm) as Hlen.
  unfold pairs in *. rewrite length_cons, length_app in Hroom.
  destruct (find_empty nfl (keys h) (vals h) t' k key) as (i & Hrun & Hi & Hreach); [apply Hm|lia|done| |].
  { apply occupied_empty. rewrite occupied_live by apply Hm. lia. }
  rewrite Hrun. mred. destruct (view_bound _ _ _ _ (mv_new _ _ _ _ _ Hm) i Empty Hi) as (_ & Hks & Hvs).
  destruct (default false (is_live <$> t !! i)) eqn:Elive.
  - destruct (t !! i) as [[| |key2 v2]|] eqn:Hold; try done.
    destruct (moving_delete _ _ _ _ _ i key2 v2 Hm Hold) as (fl & Hdel & Hm1).
    destruct (moving_fill _ _ _ _ _ i key v Hm1 Hi) as (nfl' & Hset & Hm2); [|done|].
    { intros x Hx. apply list_lookup_insert_Some in Hx as [(_ & <- & _)|[? _]]; done. }
    rewrite Hset. mred. rewrite (old_live _ _ _ _ _ i Hm), Hold. mred. cbn [fmap option_fmap option_map default is_live].
    destruct (view_live _ _ _ _ (mv_old _ _ _ _ _ Hm) i key2 v2 Hold) as [Hk2 Hv2].
    rewrite (at_in _ _ _ Hk2). mred. rewrite put_at_in by done. mred. rewrite (at_in _ _ _ Hv2). mred.
    rewrite put_at_in by done. mred. rewrite Hdel. mred.
    pose proof (live_delete t i key2 v2 Hold) as Hp. pose proof (live_fill t' i Empty key v Hi eq_refl) as Hp'.
    pose proof (Permutation_length Hp) as L1. pose proof (Permutation_length Hp') as L2. cbn [length] in L1, L2.
    destruct (IH _ _ _ _ key2 v2 Hm2) as (h2 & nfl2 & t2 & t2' & Hrun2 & Hm3 & Hc & Hfade & Hpairs);
      [lia|cbn [length]; rewrite length_app; lia|].
    exists h2, nfl2, t2, t2'. split_and!; [exact Hrun2|done| |by eapply fades_trans, Hfade; apply fades_delete|].
    + unfold same_counts in *. cbn [set_vals set_keys set_flags n_buckets kh_size n_occupied upper_bound keys vals] in Hc.
      by rewrite !length_insert in Hc.
    + rewrite <- Hpairs, Hp, Hp'. solve_Permutation.
  - destruct (moving_fill _ _ _ _ _ i key v Hm Hi) as (nfl' & Hset & Hm2); [|done|].
    { intros x Hx. by rewrite Hx in Elive. }
    rewrite Hset. mred. rewrite (old_live _ _ _ _ _ i Hm), Elive. mred.
    rewrite put_at_in by done. mred. rewrite put_at_in by done. mred.
    eexists _, _, t, _. split_and!; [reflexivity|exact Hm2| |apply fades_refl|].
    + unfold same_counts. cbn. by rewrite !length_insert.
    + rewrite (live_fill t' i Empty key v Hi eq_refl). solve_Permutation.
Qed.

(** ** The outer loop *)

Lemma not_live_nil t : (forall i x, t !! i = Some x -> is_live x = false) -> live t = [].
Proof.
  intros H. destruct (live t) as [|e l] eqn:E; [done|exfalso].
  assert (e ∈ live t) as (i & x & Hi & Hx)%entries_elem by (rewrite E; left). specialize (H i x Hi).
  destruct x; [by apply elem_of_nil in Hx..|done].
Qed.

Lemma same_counts_trans h h2 h3 : same_counts h h2 -> same_counts h2 h3 -> same_counts h h3.
Proof. unfold same_counts. intuition congruence. Qed.

Lemma rehash_loop_spec k fuel : forall h nfl t t' j,
  moving h nfl k t t' -> (j + fuel = length t)%nat -> (forall i x, (i < j)%nat -> t !! i = Some x -> is_live x = false) ->
  zlen (live t ++ live t') <= 2 ^ k ->
  exists h2 nfl2 t2 t2', rehash_loop fuel h nfl (2 ^ k) (Z.of_nat j) = Some (h2, nfl2) /\ moving h2 nfl2 k t2 t2' /\
    same_counts h h2 /\ live t2 = [] /\ live t2' ≡ₚ live t ++ live t'.
Proof.
  induction fuel as [|fuel IH]; intros h nfl t t' j Hm Hj Hbefore Hroom; cbn [rehash_loop].
  - assert (live t = []) as E.
    { apply not_live_nil. intros i x Hi. apply (Hbefore i x); [|done]. pose proof (lookup_lt_Some _ _ _ Hi). lia. }
    exists h, nfl, t, t'. rewrite E. split_and!; try done.
  - destruct (lookup_lt_is_Some_2 t j) as [x Hx]; [lia|].
    rewrite (view_iseither _ _ _ _ (mv_old _ _ _ _ _ Hm) j x Hx). mred. replace (Z.of_nat j + 1) with (Z.of_nat (S j)) by lia.
    assert (is_live x = false -> forall i y, (i < S j)%nat -> t !! i = Some y -> is_live y = false) as Hnext.
    { intros E i y Hi Hy. destruct (decide (i = j)) as [->|]; [congruence|apply (Hbefore i y); [lia|done]]. }
    destruct x as [| |key v]; cbn [is_live negb]; mred.
    1,2: apply IH; [done|lia|by apply Hnext|done].
    + destruct (view_live _ _ _ _ (mv_old _ _ _ _ _ Hm) j key v Hx) as [Hk2 Hv2]. rewrite (at_in _ _ _ Hk2), (at_in _ _ _ Hv2). mred.
      destruct (moving_delete _ _ _ _ _ j key v Hm Hx) as (fl & -> & Hm1). mred.
      set (t1 := <[j:=Deleted]> t) in *. pose proof (live_delete t j key v Hx) as Hp. fold t1 in Hp.
      pose proof (Permutation_length Hp) as L1. cbn [length] in L1. rewrite length_app in Hroom.
      assert (length t1 = length t) as Lt by apply length_insert.
      destruct (kick_loop_spec k (S (Z.to_nat (n_buckets h))) (set_flags h fl) nfl t1 t' key v Hm1)
        as (h2 & nfl2 & t2 & t2' & Hrun & Hm2 & Hc & Hfade & Hpairs).
      { rewrite (mv_n _ _ _ _ _ Hm). pose proof (live_occupied t1). lia. }
      { unfold pairs. rewrite length_cons, length_app. lia. }
      rewrite Hrun. mred. destruct Hfade as [Lf Hf].
      destruct (IH h2 nfl2 t2 t2' (S j) Hm2) as (h3 & nfl3 & t3 & t3' & Hrun3 & Hm3 & Hc3 & Hnil & Hp3).
      { lia. }
      { intros i y Hi Hy. destruct (is_live y) eqn:Ey; [|done]. specialize (Hf i y Hy Ey). unfold t1 in Hf.
        apply list_lookup_insert_Some in Hf as [(_ & <- & _)|[Hne Hf]]; [done|]. rewrite <- Ey. apply (Hbefore i y); [lia|done]. }
      { rewrite <- Hpairs. unfold pairs. rewrite length_cons, length_app. lia. }
      exists h3, nfl3, t3, t3'. split_and!; [done|done|by eapply same_counts_trans|done|].
      rewrite Hp3, <- Hpairs, Hp. done.
Qed.

(** ** The table invariant *)

Record table (h : khash) (t : list slot) (k : Z) : Prop := {
  tb_view : view (flags h) (keys h) (vals h) t;
  tb_good : good t k;
  tb_n : n_buckets h = 2 ^ k;
  tb_size : kh_size h = zlen (live t);
  tb_occupied : n_occupied h = Z.of_nat (occupied t);
  tb_upper : upper_bound h = upper_of (2 ^ k);
  tb_room : n_occupied h <= upper_bound h
}.

Lemma upper_of_bound n : 4 <= n -> 0 < upper_of n < n /\ n < 2 * upper_of n.
Proof. intros Hn. unfold upper_of. zlia. Qed.

Lemma good_moved h nfl k t t' : moving h nfl k t t' -> NoDup (live t').*1 -> good t' k.
Proof. intros [] Hn. by split. Qed.

Lemma view_shrink fl ks vs t n :
  view fl ks vs t -> (length t <= Z.to_nat n)%nat -> view fl (shrink ks n) (shrink vs n) t.
Proof.
  intros Hv Hn. pose proof (vw_keys _ _ _ _ Hv). pose proof (vw_vals _ _ _ _ Hv). unfold shrink.
  apply (view_arrays fl ks vs); rewrite ?length_take; try (done || lia); intros i Hi; apply lookup_take_lt; lia.
Qed.

Lemma rehash_spec h t k :
  view (flags h) (keys h) (vals h) t -> n_buckets h = zlen t -> NoDup (live t).*1 -> kh_size h = zlen (live t) ->
  2 <= k <= 31 -> kh_size h <= upper_of (2 ^ k) -> 2 ^ k <= zlen (keys h) -> 2 ^ k <= zlen (vals h) ->
  exists h' t', rehash h (2 ^ k) = Some h' /\ table h' t' k /\ live t' ≡ₚ live t /\ n_occupied h' = zlen (live t).
Proof.
  intros Hv Hn Hnd Hsize Hk Hup Hks Hvs. assert (4 <= 2 ^ k) as H4 by (apply (Z.pow_le_mono_r 2 2); lia).
  pose proof (upper_of_bound (2 ^ k) H4) as [Hub _]. set (e := replicate (Z.to_nat (2 ^ k)) Empty).
  assert (live e = []) as He by by apply entries_replicate.
  destruct (rehash_loop_spec k (length t) h (empty_flags (2 ^ k)) t e 0%nat) as (h2 & nfl & t2 & t' & Hrun & Hm & Hc & Hnil & Hp).
  { split; [done|by apply empty_flags_view; lia| |done|done|unfold e; rewrite length_replicate; lia| |].
    - intros i x y _ [-> _]%lookup_replicate. by rewrite andb_false_r.
    - by intros ?%elem_of_replicate_inv.
    - by intros i key v [? _]%lookup_replicate. }
  { lia. } { lia. } { rewrite He, app_nil_r. lia. }
  rewrite He, app_nil_r in Hp. unfold rehash. rewrite Hn, Nat2Z.id. change (Z.of_nat 0) with 0 in Hrun. rewrite Hrun. mred.
  destruct Hc as (_ & Hs & _ & _ & Lk & Lv). eexists _, t'. split; [reflexivity|].
  pose proof (Permutation_length Hp) as HL. split; [|split; [done|by destruct (_ <? n_buckets h2); cbn; lia]]. pose proof (mv_len _ _ _ _ _ Hm) as Hlen.
  assert (kh_size h2 = zlen (live t')) as Hs2 by lia.
  destruct (_ <? n_buckets h2); split; cbn [set_vals set_keys flags keys vals n_buckets kh_size n_occupied upper_bound];
    rewrite ?(occupied_live t') by apply Hm; try (done || lia);
    try (apply (good_moved _ _ _ _ _ Hm); by rewrite Hp).
  - apply view_shrink; [apply Hm|lia].
  - apply Hm.
Qed.
