(* ===== verification/KHashOps.v ===== *)
(** * The operations of the hash table on its slots

    [holds h t]: the table [h] has the slots [t], or has no buckets yet. *)

From S2P Require Import Prelude Buckets KHash KHashFacts KHashTable KHashRehash.

Inductive holds (h : khash) : list slot -> Prop :=
| holds_fresh : n_buckets h = 0 -> kh_size h = 0 -> n_occupied h = 0 -> upper_bound h = 0 -> holds h []
| holds_table t k : table h t k -> holds h t.

Lemma holds_init : holds kh_init [].
Proof. by constructor. Qed.

Lemma holds_size h t : holds h t -> kh_size h = zlen (live t).
Proof. intros [_ Hs _ _|t' k Ht]; [done|apply Ht]. Qed.

Lemma holds_n h t : holds h t -> n_buckets h = zlen t.
Proof. intros [Hn _ _ _|t' k Ht]; [done|]. by rewrite (tb_n _ _ _ Ht), <- (gd_len _ _ (tb_good _ _ _ Ht)). Qed.

Lemma holds_keys h t : holds h t -> NoDup (live t).*1.
Proof. intros [_ _ _ _|t' k Ht]; [constructor|apply Ht]. Qed.

Lemma holds_view h t : holds h t -> view (flags h) (keys h) (vals h) t.
Proof. intros [_ _ _ _|t' k Ht]; [split; cbn; [lia..|done]|apply Ht]. Qed.

(** ** Sizes *)

Lemma bucket_count_same k : 2 <= k <= 31 -> bucket_count (u32 (2 ^ k - 1)) = 2 ^ k.
Proof.
  intros Hk. assert (forallb (fun k => bucket_count (u32 (2 ^ Z.of_nat k - 1)) =? 2 ^ Z.of_nat k) (seq 2 30) = true) as H by (vm_compute; done).
  rewrite forallb_forall in H. specialize (H (Z.to_nat k)). rewrite in_seq, Z2Nat.id in H by lia. apply Z.eqb_eq, H. lia.
Qed.

Lemma bucket_count_next k : 2 <= k <= 30 -> bucket_count (u32 (2 ^ k + 1)) = 2 ^ (k + 1).
Proof.
  intros Hk. assert (forallb (fun k => bucket_count (u32 (2 ^ Z.of_nat k + 1)) =? 2 ^ (Z.of_nat k + 1)) (seq 2 29) = true) as H by (vm_compute; done).
  rewrite forallb_forall in H. specialize (H (Z.to_nat k)). rewrite in_seq, Z2Nat.id in H by lia. apply Z.eqb_eq, H. lia.
Qed.

(** ** Resizing *)

(** The allocations that a resize makes are answered. *)
Definition granted (mem : memory) (grows : bool) : bool := flags_ok mem && (negb grows || (keys_ok mem && vals_ok mem)).

Lemma view_grow fl ks vs t n m :
  view fl ks vs t -> zlen t <= n -> zlen t <= m -> view fl (grow ks n) (grow vs m) t.
Proof.
  intros Hv Hn Hm. pose proof (vw_keys _ _ _ _ Hv). pose proof (vw_vals _ _ _ _ Hv).
  apply (view_arrays fl ks vs); rewrite ?length_grow by lia; try (done || lia); intros i Hi; apply lookup_grow; lia.
Qed.

Lemma holds_set_keys h t n : holds h t -> zlen t <= n -> holds (set_keys h (grow (keys h) n)) t.
Proof.
  intros Hh Hn. inversion Hh as [H1 H2 H3 H4|t' k Ht E]; subst; [by constructor|]. apply (holds_table _ t k).
  destruct Ht as [Hv Hg H1 H2 H3 H4 H5]. split; try done. cbn [set_keys flags keys vals].
  pose proof (vw_keys _ _ _ _ Hv). apply (view_arrays (flags h) (keys h) (vals h)); [done|rewrite length_grow by lia; lia|apply Hv| |done].
  intros i Hi. apply lookup_grow; lia.
Qed.

Lemma kh_resize_spec mem h t m k :
  holds h t -> bucket_count m = 2 ^ k -> 2 <= k <= 31 -> kh_size h < upper_of (2 ^ k) -> zlen t <= 2 ^ k ->
  if granted mem (n_buckets h <? 2 ^ k) then
    exists h' t', kh_resize mem h m = Some (0, h') /\ table h' t' k /\ live t' ≡ₚ live t /\ n_occupied h' < upper_bound h'
  else exists h', kh_resize mem h m = Some (-1, h') /\ holds h' t.
Proof.
  intros Hh Hb Hk Hsize Hle. unfold kh_resize. rewrite Hb.
  rewrite (proj2 (Z.leb_gt _ _)) by lia. unfold granted. destruct (flags_ok mem); cbn [andb negb]; [|by exists h].
  pose proof (holds_n _ _ Hh) as Hn. pose proof (holds_size _ _ Hh) as Hs. pose proof (holds_keys _ _ Hh) as Hnd.
  pose proof (holds_view _ _ Hh) as Hv. pose proof (vw_keys _ _ _ _ Hv). pose proof (vw_vals _ _ _ _ Hv).
  assert (forall h2, view (flags h2) (keys h2) (vals h2) t -> n_buckets h2 = n_buckets h -> kh_size h2 = kh_size h ->
            2 ^ k <= zlen (keys h2) -> 2 ^ k <= zlen (vals h2) ->
            exists h' t', (h' ← rehash h2 (2 ^ k); Some (0, h')) = Some (0, h') /\ table h' t' k /\ live t' ≡ₚ live t /\
              n_occupied h' < upper_bound h') as Hrehash.
  { intros h2 Hv2 Hn2 Hs2 Hk2 Hvs2. destruct (rehash_spec h2 t k) as (h' & t' & -> & Htab & Hp & Hocc); [done||congruence||lia..|].
    mred. exists h', t'. split_and!; try done. rewrite (tb_upper _ _ _ Htab). lia. }
  destruct (Z.ltb_spec (n_buckets h) (2 ^ k)) as [Hlt|Hge]; cbn [negb orb].
  - destruct (keys_ok mem); cbn [andb]; [|by exists h].
    destruct (vals_ok mem); [|eexists; split; [reflexivity|by apply holds_set_keys; [|lia]]].
    apply Hrehash; cbn [set_vals set_keys flags keys vals n_buckets kh_size]; [|done|done|rewrite length_grow; lia..].
    by apply view_grow; [|lia..].
  - apply Hrehash; try done; lia.
Qed.

(** ** Searching *)

Lemma table_stops h t k key :
  table h t k -> Z.of_nat (occupied t) < 2 ^ k -> exists s x, stops (on_slot key) t k key s x /\ Z.of_nat s < 2 ^ k.
Proof.
  intros Ht Ho. pose proof (gd_len _ _ (tb_good _ _ _ Ht)). pose proof (gd_log _ _ (tb_good _ _ _ Ht)).
  apply stops_exists; [lia|done|done|]. apply occupied_empty. lia.
Qed.

Lemma table_occupied h t k : table h t k -> Z.of_nat (occupied t) < 2 ^ k.
Proof.
  intros Ht. pose proof (tb_room _ _ _ Ht) as Hr. rewrite (tb_occupied _ _ _ Ht), (tb_upper _ _ _ Ht) in Hr.
  pose proof (gd_log _ _ (tb_good _ _ _ Ht)). assert (4 <= 2 ^ k) as H4 by (apply (Z.pow_le_mono_r 2 2); lia).
  pose proof (upper_of_bound _ H4). lia.
Qed.

(** A search ends at the cell of the key, or at [kh_end] when there is none. *)
Lemma kh_get_live h t key i v : holds h t -> t !! i = Some (Live key v) -> kh_get h key = Some (Z.of_nat i).
Proof.
  intros [_ _ _ _|t' k Ht] Hi; [done|]. pose proof (tb_good _ _ _ Ht) as Hg.
  destruct (table_stops _ _ _ key Ht (table_occupied _ _ _ Ht)) as (s & x & Hst & Hs).
  rewrite (kh_get_spec h t' k (tb_view _ _ _ Ht)) with (s := s) (x := x); try apply Hg; try done; [|pose proof (gd_log _ _ Hg); lia|apply Ht].
  by destruct (stops_live t' k key s x i v Hg Hst Hs Hi) as [-> ->].
Qed.

Lemma kh_get_absent h t key : holds h t -> key ∉ (live t).*1 -> kh_get h key = Some (n_buckets h).
Proof.
  intros [Hn _ _ _|t' k Ht] Hi; [unfold kh_get; by rewrite Hn|]. pose proof (tb_good _ _ _ Ht) as Hg.
  destruct (table_stops _ _ _ key Ht (table_occupied _ _ _ Ht)) as (s & x & Hst & Hs).
  rewrite (kh_get_spec h t' k (tb_view _ _ _ Ht)) with (s := s) (x := x); try apply Hg; try done; [|pose proof (gd_log _ _ Hg); lia|apply Ht].
  by rewrite (stops_not_live t' k key s x Hst Hi).
Qed.

Lemma key_cell t key : key ∈ (live t).*1 -> exists i v, t !! i = Some (Live key v).
Proof.
  intros ([a v] & -> & (i & x & Hi & Hx)%entries_elem)%list_elem_of_fmap. exists i, v. cbn.
  destruct x; cbn in Hx; [by apply elem_of_nil in Hx..|]. apply list_elem_of_singleton in Hx as [= -> ->]. done.
Qed.

Lemma kh_exist_spec h t i x : holds h t -> t !! i = Some x -> kh_exist h (Z.of_nat i) = Some (is_live x).
Proof.
  intros Hh Hi. unfold kh_exist. rewrite (view_iseither _ _ _ _ (holds_view _ _ Hh) i x Hi). mred. by rewrite negb_involutive.
Qed.

(** ** Deleting and writing a cell *)

Lemma live_length t k : good t k -> zlen (live t) <= 2 ^ 31.
Proof.
  intros Hg. destruct (live_occupied t). pose proof (gd_len _ _ Hg). pose proof (gd_log _ _ Hg).
  assert (2 ^ k <= 2 ^ 31) by (apply Z.pow_le_mono_r; lia). lia.
Qed.

Lemma kh_del_spec h t i key v :
  holds h t -> t !! i = Some (Live key v) -> exists h', kh_del h (Z.of_nat i) = Some h' /\ holds h' (<[i:=Deleted]> t).
Proof.
  intros [_ _ _ _|t' k Ht] Hi; [done|]. pose proof (lookup_lt_Some _ _ _ Hi) as Hlt. destruct Ht as [Hv Hg Hn Hs Ho Hu Hr].
  pose proof (gd_len _ _ Hg). unfold kh_del. rewrite decide_False by lia. rewrite (view_iseither _ _ _ _ Hv i _ Hi). mred.
  cbn [is_live negb]. destruct (view_delete _ _ _ _ Hv i key v Hi) as (fl & -> & Hv'). mred. eexists. split; [reflexivity|].
  apply (holds_table _ _ k). pose proof (Permutation_length (live_delete t' i key v Hi)) as HL. cbn [length] in HL.
  pose proof (live_length _ _ Hg). change (2 ^ 31) with 2147483648 in *.
  split; cbn [set_counts set_flags flags keys vals n_buckets kh_size n_occupied upper_bound]; try done.
  - by eapply good_delete.
  - rewrite wrap_small; [lia|change (2 ^ 32) with 4294967296; lia].
  - by rewrite Ho, (occupied_insert t' i _ Deleted Hi eq_refl).
Qed.

Lemma holds_value h t i key v value :
  holds h t -> t !! i = Some (Live key v) ->
  put_at (vals h) (Z.of_nat i) value = Some (<[i:=value]> (vals h)) /\
  holds (set_vals h (<[i:=value]> (vals h))) (<[i:=Live key value]> t).
Proof.
  intros [_ _ _ _|t' k Ht] Hi; [done|]. destruct Ht as [Hv Hg Hn Hs Ho Hu Hr].
  destruct (view_bound _ _ _ _ Hv i _ Hi) as (Hfl & Hks & Hvs). split; [by apply put_at_in|]. apply (holds_table _ _ k).
  pose proof (live_value t' i key v value Hi) as Hp.
  apply Permutation_length in Hp. pose proof (Permutation_length (live_delete t' i key v Hi)) as HL. cbn [length] in Hp, HL.
  split; cbn [set_vals flags keys vals n_buckets kh_size n_occupied upper_bound]; try done.
  - destruct Hv as [H1 H2 H3 H4]. split; rewrite ?length_insert; try done.
    intros j x Hj. unfold slot_at. apply list_lookup_insert_Some in Hj as [(-> & <- & _)|[Hne Hj]].
    + destruct (H4 j _ Hi) as [E _]. revert E. unfold slot_at. destruct (bit (flags h) j 1), (bit (flags h) j 0); try done.
      intros [= -> _]. by rewrite list_lookup_insert_eq by done.
    + rewrite list_lookup_insert_ne by done. by apply H4.
  - by eapply good_value.
  - lia.
  - by rewrite Ho, (occupied_insert t' i _ (Live key value) Hi eq_refl).
Qed.

(** ** Inserting a key *)

Lemma insert_default {A} (l : list A) i d : <[i:=default d (l !! i)]> l = l.
Proof. destruct (l !! i) eqn:E; [by apply list_insert_id|]. apply list_insert_ge. by apply lookup_ge_None. Qed.

(** A cell that is not live becomes the cell of a new key. *)
Lemma table_fill h t k i x key :
  table h t k -> n_occupied h < upper_bound h -> t !! i = Some x -> is_live x = false -> key ∉ (live t).*1 -> reachable t k key i ->
  exists fl v, ac_set_isboth_false (flags h) (Z.of_nat i) = Some fl /\
    table (set_counts (set_flags (set_keys h (<[i:=key]> (keys h))) fl) (u32 (kh_size h + 1))
             (if is_empty x then u32 (n_occupied h + 1) else n_occupied h)) (<[i:=Live key v]> t) k.
Proof.
  intros [Hv Hg Hn Hs Ho Hu Hr] Hroom Hi Hx Hkey Hreach. set (v := default 0 (vals h !! i)).
  destruct (view_fill _ _ _ _ Hv i x key v Hi) as (fl & Hrun & Hv'). exists fl, v. split; [done|].
  unfold v in Hv'. rewrite insert_default in Hv'. fold v in Hv'.
  pose proof (Permutation_length (live_fill t i x key v Hi Hx)) as HL. cbn [length] in HL.
  pose proof (live_length _ _ Hg). destruct (live_occupied t). pose proof (gd_len _ _ Hg). pose proof (gd_log _ _ Hg).
  assert (2 ^ k <= 2 ^ 31) by (apply Z.pow_le_mono_r; lia). change (2 ^ 31) with 2147483648 in *.
  assert (forall a, 0 <= a <= 2147483648 -> u32 (a + 1) = a + 1) as Hw
    by (intros a Ha; apply wrap_small; change (2 ^ 32) with 4294967296; lia).
  pose proof (occupied_insert t i x (Live key v) Hi eq_refl) as Hocc.
  split; cbn [set_counts set_flags set_keys flags keys vals n_buckets kh_size n_occupied upper_bound]; try done.
  - by eapply good_fill.
  - rewrite Hw by lia. lia.
  - rewrite Hocc. destruct (is_empty x); [rewrite Hw by lia; lia|done].
  - destruct (is_empty x); [rewrite Hw by lia; lia|done].
Qed.

(** What an insertion of [key] into [t] makes of the table. *)
Definition taken (t : list slot) (key : Z) (i : nat) (r : Z) (h' : khash) (t' : list slot) : Prop :=
  holds h' t' /\ exists v, t' !! i = Some (Live key v) /\
  ((key ∈ (live t).*1 /\ r = 0 /\ live t' ≡ₚ live t) \/ (key ∉ (live t).*1 /\ 0 < r <= 2 /\ live t' ≡ₚ (key, v) :: live t)).

Lemma kh_take_spec h t k key :
  table h t k -> n_occupied h < upper_bound h -> exists i r h' t', kh_take h key = Some (Z.of_nat i, r, h') /\ taken t key i r h' t'.
Proof.
  intros Ht Hroom. pose proof (tb_good _ _ _ Ht) as Hg. pose proof (tb_view _ _ _ Ht) as Hv. pose proof (gd_log _ _ Hg).
  destruct (table_stops _ _ _ key Ht (table_occupied _ _ _ Ht)) as (s & x & Hst & Hs). unfold kh_take.
  destruct (put_site_spec h t k Hv ltac:(lia) (gd_len _ _ Hg) (tb_n _ _ _ Ht) key s x Hst Hs) as (i & y & -> & Hi & Hin & Hout). mred.
  rewrite (view_isempty _ _ _ _ Hv i y Hi). mred.
  destruct (decide (key ∈ (live t).*1)) as [Hkey|Hkey].
  - destruct (key_cell t key Hkey) as (j & v & Hj). destruct (stops_live t k key s x j v Hg Hst Hs Hj) as [-> Hpos].
    rewrite (Hin eq_refl) in *. cbn [is_empty]. rewrite (view_isdel _ _ _ _ Hv i _ Hi) by done. mred.
    exists i, 0, h, t. split; [done|]. split; [by eapply holds_table|]. exists v. split; [done|]. by left.
  - destruct (Hout (stops_not_live t k key s x Hst Hkey)) as [Hy Hreach].
    destruct (table_fill h t k i y key Ht Hroom Hi Hy Hkey Hreach) as (fl & v & Hset & Htab).
    destruct (view_bound _ _ _ _ Hv i y Hi) as (_ & Hks & _). pose proof (lookup_lt_Some _ _ _ Hi) as Hlt.
    assert (forall r h', 0 < r <= 2 -> holds h' (<[i:=Live key v]> t) -> taken t key i r h' (<[i:=Live key v]> t)) as Htaken.
    { intros r h' Hrange Hh. split; [done|]. exists v. rewrite list_lookup_insert_eq by done. split; [done|]. right.
      split_and!; [done|lia|lia|by eapply live_fill]. }
    destruct y as [| |a b]; [| |done]; cbn [is_empty] in *; [|rewrite (view_isdel _ _ _ _ Hv i _ Hi) by done; mred];
      rewrite put_at_in by done; mred; rewrite Hset; mred; eexists i, _, _, _; (split; [reflexivity|]);
      apply Htaken; (lia || by eapply holds_table).
Qed.

Lemma taken_perm t t2 key i r h' t' : live t2 ≡ₚ live t -> taken t2 key i r h' t' -> taken t key i r h' t'.
Proof. intros Hp (Hh & v & Hi & Hc). split; [done|]. exists v. split; [done|]. by rewrite Hp in Hc. Qed.

(** The number of buckets that a full table asks for. *)
Definition next_buckets (h : khash) : Z :=
  if u32 (Z.shiftl (kh_size h) 1) <? n_buckets h then u32 (n_buckets h - 1) else u32 (n_buckets h + 1).

Lemma next_buckets_log h t :
  holds h t -> kh_size h < 2 ^ 30 -> upper_bound h <= n_occupied h ->
  exists k, 2 <= k <= 31 /\ bucket_count (next_buckets h) = 2 ^ k /\ kh_size h < upper_of (2 ^ k) /\ zlen t <= 2 ^ k.
Proof.
  intros Hh Hsize Hfull. pose proof (holds_size _ _ Hh) as Hs. change (2 ^ 30) with 1073741824 in *. unfold next_buckets.
  rewrite Z.shiftl_mul_pow2, (wrap_small 32 (kh_size h * 2 ^ 1)) by (change (2 ^ 32) with 4294967296; lia). change (2 ^ 1) with 2.
  destruct Hh as [Hn _ _ _|t k Ht].
  - exists 2. rewrite Hn, Hs. cbn. split_and!; (done || lia).
  - destruct Ht as [Hv Hg Hn _ Ho Hu Hr]. pose proof (gd_len _ _ Hg) as Hlen. pose proof (gd_log _ _ Hg) as Hk.
    assert (4 <= 2 ^ k) as H4 by (apply (Z.pow_le_mono_r 2 2); lia). pose proof (upper_of_bound _ H4). destruct (live_occupied t).
    rewrite Hn. destruct (Z.ltb_spec (kh_size h * 2) (2 ^ k)) as [Hlt|Hge].
    + exists k. rewrite bucket_count_same by done. split_and!; (done || lia).
    + assert (k <= 30). { destruct (decide (k = 31)) as [->|]; [change (2 ^ 31) with 2147483648 in *; lia|lia]. }
      exists (k + 1). rewrite bucket_count_next by lia.
      rewrite (Z.pow_add_r 2 k 1) by lia. change (2 ^ 1) with 2. unfold upper_of in *. split_and!; (done || zlia).
Qed.

(** [kh_put] takes a cell for the key; without memory for a resize that is due it changes
    nothing and answers [-1]. *)
Lemma kh_put_spec mem h t key :
  holds h t -> kh_size h < 2 ^ 30 ->
  if (n_occupied h <? upper_bound h) || granted mem (n_buckets h <? bucket_count (next_buckets h)) then
    exists i r h' t', kh_put mem h key = Some (Z.of_nat i, r, h') /\ taken t key i r h' t'
  else exists h', kh_put mem h key = Some (n_buckets h', -1, h') /\ holds h' t.
Proof.
  intros Hh Hsize. unfold kh_put. destruct (Z.ltb_spec (n_occupied h) (upper_bound h)) as [Hlt|Hge]; cbn [orb].
  - rewrite (proj2 (Z.leb_gt _ _)) by lia. mred. cbn. destruct Hh as [_ _ E1 E2|t k Ht]; [lia|]. by eapply kh_take_spec.
  - rewrite (proj2 (Z.leb_le _ _)) by lia. destruct (next_buckets_log h t Hh Hsize Hge) as (k & Hk & Hb & Hu & Hlen).
    pose proof (kh_resize_spec mem h t (next_buckets h) k Hh Hb Hk Hu Hlen) as Hres. rewrite Hb.
    unfold next_buckets in Hres. set (c := _ <? n_buckets h) in *.
    assert ((if c then kh_resize mem h (u32 (n_buckets h - 1)) else kh_resize mem h (u32 (n_buckets h + 1)))
            = kh_resize mem h (if c then u32 (n_buckets h - 1) else u32 (n_buckets h + 1))) as -> by by destruct c.
    destruct (granted _ _).
    + destruct Hres as (h2 & t2 & -> & Htab & Hp & Hroom). mred. cbn [Z.ltb Z.compare].
      destruct (kh_take_spec h2 t2 k key Htab Hroom) as (i & r & h' & t' & Hrun & Htaken). exists i, r, h', t'.
      split; [done|by eapply taken_perm].
    + destruct Hres as (h2 & -> & Hh2). mred. by exists h2.
Qed.

(** Without memory for new flags, a full table stays as it is. *)
Lemma kh_put_full mem h t key :
  holds h t -> kh_size h < 2 ^ 30 -> upper_bound h <= n_occupied h -> flags_ok mem = false ->
  kh_put mem h key = Some (n_buckets h, -1, h).
Proof.
  intros Hh Hsize Hfull Hmem. destruct (next_buckets_log h t Hh Hsize Hfull) as (k & Hk & Hb & Hu & Hlen).
  assert (forall m, m = next_buckets h -> kh_resize mem h m = Some (-1, h)) as Hres.
  { intros m Hm. unfold kh_resize. rewrite Hm, Hb, Hmem.
    by rewrite (proj2 (Z.leb_gt _ _)) by lia. }
  unfold kh_put. rewrite (proj2 (Z.leb_le _ _)) by lia. unfold next_buckets in Hres. set (c := _ <? n_buckets h) in *. destruct c; by rewrite (Hres _ eq_refl).
Qed.

(** ** Clearing *)

Lemma replicate_good n k : 2 <= k <= 31 -> Z.of_nat n = 2 ^ k -> good (replicate n Empty) k.
Proof.
  intros Hk Hn. split; [done|by rewrite length_replicate| |by intros i key v [? _]%lookup_replicate].
  rewrite entries_replicate by done. constructor.
Qed.

Lemma kh_clear_spec h t : holds h t -> exists t', holds (kh_clear h) t' /\ live t' = [].
Proof.
  intros Hh. unfold kh_clear. destruct (flags h) eqn:Ef.
  - exists t. split; [done|]. pose proof (vw_flags _ _ _ _ (holds_view _ _ Hh)) as Hv. rewrite Ef in Hv.
    destruct t; [done|cbn in Hv; lia].
  - destruct Hh as [Hn Hs Ho Hu|t k Ht]; [exists []; split; [by constructor|done]|].
    destruct Ht as [Hv Hg Hn Hs Ho Hu Hr]. pose proof (gd_log _ _ Hg). pose proof (gd_len _ _ Hg).
    pose proof (vw_keys _ _ _ _ Hv). pose proof (vw_vals _ _ _ _ Hv).
    exists (replicate (Z.to_nat (2 ^ k)) Empty). split; [|by apply entries_replicate]. apply (holds_table _ _ k).
    assert (occupied (replicate (Z.to_nat (2 ^ k)) Empty) = 0%nat) as Hocc by (unfold occupied; by rewrite entries_replicate).
    split; cbn [set_counts set_flags flags keys vals n_buckets kh_size n_occupied upper_bound]; try done.
    + rewrite Hn. apply empty_flags_view; lia.
    + apply replicate_good; lia.
    + by rewrite entries_replicate.
    + by rewrite Hocc.
    + rewrite Hu. assert (4 <= 2 ^ k) as H4 by (apply (Z.pow_le_mono_r 2 2); lia). pose proof (upper_of_bound _ H4). lia.
Qed.

(** ** Every operation returns *)

Inductive kh_op := KGet (key : Z) | KPut (mem : memory) (key : Z) | KDel (key : Z) | KClear.

(** The cell that an operation answers. *)
Definition kh_step (h : khash) (op : kh_op) : option (Z * khash) :=
  match op with
  | KGet key => x ← kh_get h key; Some (x, h)
  | KPut mem key => '(x, _, h) ← kh_put mem h key; Some (x, h)
  | KDel key => x ← kh_get h key; h ← kh_del h x; Some (x, h)
  | KClear => Some (0, kh_clear h)
  end.

Lemma kh_step_returns h t op :
  holds h t -> kh_size h < 2 ^ 30 ->
  exists x h' t', kh_step h op = Some (x, h') /\ holds h' t' /\ 0 <= x <= n_buckets h' /\ kh_size h' <= kh_size h + 1.
Proof.
  intros Hh Hsize. pose proof (holds_n _ _ Hh) as Hn. pose proof (holds_size _ _ Hh) as Hs.
  destruct op as [key|mem key|key|]; cbn [kh_step].
  - destruct (decide (key ∈ (live t).*1)) as [(i & v & Hi)%key_cell|Hkey].
    + rewrite (kh_get_live h t key i v Hh Hi). mred. pose proof (lookup_lt_Some _ _ _ Hi). exists (Z.of_nat i), h, t.
      split_and!; (done || lia).
    + rewrite (kh_get_absent h t key Hh Hkey). mred. exists (n_buckets h), h, t. split_and!; (done || lia).
  - pose proof (kh_put_spec mem h t key Hh Hsize) as Hput. destruct (_ || _).
    + destruct Hput as (i & r & h' & t' & -> & Hh' & v & Hi & Hc). mred. exists (Z.of_nat i), h', t'.
      pose proof (lookup_lt_Some _ _ _ Hi). rewrite (holds_n _ _ Hh'), (holds_size _ _ Hh').
      split_and!; [done|done|lia|lia|]. destruct Hc as [(_ & _ & Hp)|(_ & _ & Hp)]; apply Permutation_length in Hp; cbn in Hp; lia.
    + destruct Hput as (h' & -> & Hh'). mred. exists (n_buckets h'), h', t.
      rewrite (holds_n _ _ Hh'), (holds_size _ _ Hh'). split_and!; (done || lia).
  - destruct (decide (key ∈ (live t).*1)) as [(i & v & Hi)%key_cell|Hkey].
    + rewrite (kh_get_live h t key i v Hh Hi). mred. pose proof (lookup_lt_Some _ _ _ Hi).
      destruct (kh_del_spec h t i key v Hh Hi) as (h' & -> & Hh'). mred. exists (Z.of_nat i), h', (<[i:=Deleted]> t).
      pose proof (Permutation_length (live_delete t i key v Hi)) as HL. cbn [length] in HL.
      rewrite (holds_n _ _ Hh'), (holds_size _ _ Hh'), length_insert. split_and!; (done || lia).
    + rewrite (kh_get_absent h t key Hh Hkey). mred. unfold kh_del. rewrite decide_True by done. mred.
      exists (n_buckets h), h, t. split_and!; (done || lia).
  - destruct (kh_clear_spec h t Hh) as (t' & Hh' & Hl). exists 0, (kh_clear h), t'. split_and!; [done|done|lia| |].
    + rewrite (holds_n _ _ Hh'). lia.
    + rewrite (holds_size _ _ Hh'), Hl. cbn. lia.
Qed.

(** C37 Every operation on the hash table returns: after any sequence of look-ups,
    insertions, deletions and clears from the empty table, shorter than 2^30 and whatever
    the allocations answer, the probes, the kicks and the rehashes have ended and no array
    was accessed outside its bounds. *)
Theorem khash_operations_return ops :
  zlen ops < 2 ^ 30 -> exists xs h, run kh_step kh_init ops = Some (xs, h) /\ 0 <= kh_size h <= n_buckets h.
Proof.
  intros Hlen. assert (forall ops h t, holds h t -> kh_size h + zlen ops < 2 ^ 30 ->
    exists xs h2 t2, run kh_step h ops = Some (xs, h2) /\ holds h2 t2) as Hrun.
  { clear. induction ops as [|op ops IH]; intros h t Hh Hlen; cbn [run]; [by exists [], h, t|].
    rewrite length_cons in Hlen. destruct (kh_step_returns h t op Hh) as (x & h' & t' & -> & Hh' & _ & Hs); [lia|]. mred.
    destruct (IH h' t' Hh') as (xs & h2 & t2 & -> & Hh2); [lia|]. mred. by exists (x :: xs), h2, t2. }
  destruct (Hrun ops kh_init [] holds_init) as (xs & h & t & H & Hh); [cbn; lia|]. exists xs, h. split; [done|].
  rewrite (holds_n _ _ Hh), (holds_size _ _ Hh). destruct (live_occupied t). lia.
Qed.

Lemma khash_operations_return_witness :
  let all := mk_memory true true true in
  exists xs h, run kh_step kh_init (KPut (mk_memory true true false) 5 :: (KPut all <$> [1; 2; 3; 5; 9]) ++ [KDel 5; KPut all 7; KGet 9; KClear])
    = Some (xs, h) /\ 0 <= kh_size h <= n_buckets h.
Proof. apply khash_operations_return. vm_compute. reflexivity. Defined.
