(* ===== verification/UrMap.v ===== *)
(** * The numeric map [ur_map] [server/ns_turn_maps.c]

    The hash table behind a pointer and a magic number.  It refines a finite map; the
    answer [-1] of [kh_put], for a resize without memory, is not noticed. *)

From S2P Require Import Prelude Buckets LmMap KHash KHashFacts KHashTable KHashRehash KHashOps.

(** ** The code *)

(** [um_h] is the pointer to the table; an argument [option ur_map] is the pointer to the
    map. *)
Record ur_map := mk_ur_map { um_h : option khash; um_magic : Z }.

Definition MAGIC_HASH : Z := 0x90ABCDEF.

(** [kh_init] is [calloc]: it answers whether it had memory. *)
Definition ur_map_init (table_ok : bool) : option ur_map :=
  if table_ok then Some (mk_ur_map (Some kh_init) MAGIC_HASH) else None.

Definition ur_map_create (map_ok table_ok : bool) : option ur_map :=
  if map_ok then ur_map_init table_ok else None.

(** [ur_map_valid]: the table of a valid map. *)
Definition ur_map_valid (map : option ur_map) : option khash :=
  match map with
  | Some m => match um_h m with
              | Some h => if um_magic m =? MAGIC_HASH then Some h else None
              | None => None
              end
  | None => None
  end.

Definition with_table (map : option ur_map) (h : khash) : option ur_map :=
  (fun m => mk_ur_map (Some h) (um_magic m)) <$> map.

Definition ur_map_put (mem : memory) (map : option ur_map) (key value : Z) : option (bool * option ur_map) :=
  match ur_map_valid map with
  | None => Some (false, map)
  | Some h =>
    k ← kh_get h key;
    h ← (if decide (k = n_buckets h) then Some h else kh_del h k);
    '(k, ret, h) ← kh_put mem h key;
    if ret =? 0 then h ← kh_del h k; Some (false, with_table map h) else
    vs ← put_at (vals h) k value;
    Some (true, with_table map (set_vals h vs))
  end.

(** [kh_exist] on the cell that [kh_get] finds. *)
Definition find_cell (h : khash) (key : Z) : option (option Z) :=
  k ← kh_get h key;
  if decide (k = n_buckets h) then Some None else
  b ← kh_exist h k;
  Some (if (b : bool) then Some k else None).

Definition ur_map_get (map : option ur_map) (key : Z) : option (option Z) :=
  match ur_map_valid map with
  | None => Some None
  | Some h =>
    c ← find_cell h key;
    match c with
    | Some k => v ← at_ (vals h) k; Some (Some v)
    | None => Some None
    end
  end.

(** The answer holds the value that [delfunc] is called on. *)
Definition ur_map_del (map : option ur_map) (key : Z) : option (option Z * option ur_map) :=
  match ur_map_valid map with
  | None => Some (None, map)
  | Some h =>
    c ← find_cell h key;
    match c with
    | Some k => v ← at_ (vals h) k; h ← kh_del h k; Some (Some v, with_table map h)
    | None => Some (None, map)
    end
  end.

Definition ur_map_exist (map : option ur_map) (key : Z) : option bool :=
  match ur_map_valid map with
  | None => Some false
  | Some h => c ← find_cell h key; Some (bool_decide (is_Some c))
  end.

Definition ur_map_free (map : option ur_map) : option ur_map :=
  match ur_map_valid map with Some _ => None | None => map end.

Definition ur_map_size (map : option ur_map) : Z :=
  match ur_map_valid map with Some h => kh_size h | None => 0 end.

(** The loop of both visits over the cells from [k] on; the callback sees its own state
    [S] and stops the loop by returning true. *)
Fixpoint foreach_loop {S : Type} (fuel : nat) (h : khash) (func : Z -> Z -> S -> bool * S) (k : Z) (s : S) : option (bool * S) :=
  match fuel with
  | O => Some (false, s)
  | Datatypes.S fuel =>
    b ← kh_exist h k;
    if (b : bool) then
      key ← at_ (keys h) k;
      v ← at_ (vals h) k;
      let '(stop, s) := func key v s in
      if (stop : bool) then Some (true, s) else foreach_loop fuel h func (k + 1) s
    else foreach_loop fuel h func (k + 1) s
  end.

Definition ur_map_foreach {S : Type} (map : option ur_map) (func : Z -> Z -> S -> bool * S) (s : S) : option (bool * S) :=
  match ur_map_valid map with
  | None => Some (false, s)
  | Some h => foreach_loop (Z.to_nat (n_buckets h)) h func 0 s
  end.

Definition ur_map_foreach_arg {S A : Type} (map : option ur_map) (func : Z -> Z -> A -> S -> bool * S) (arg : A) (s : S)
  : option (bool * S) := ur_map_foreach map (fun k v => func k v arg) s.

(** ** What a map stands for *)

Definition ur_rep (map : option ur_map) (M : gmap Z Z) : Prop :=
  exists h t, ur_map_valid map = Some h /\ holds h t /\ represents (live t) M.

Lemma valid_with_table map h h' : ur_map_valid map = Some h -> ur_map_valid (with_table map h') = Some h'.
Proof.
  destruct map as [[[h0|] magic]|]; [|done|done]. unfold ur_map_valid, with_table. cbn. by destruct (magic =? MAGIC_HASH).
Qed.

Lemma ur_map_create_rep : ur_rep (ur_map_create true true) ∅.
Proof. exists kh_init, []. split_and!; [done|exact holds_init|exact represents_nil]. Qed.

(** The cells of a table that stands for [M]. *)
Section cells.
Context (h : khash) (t : list slot) (M : gmap Z Z) (Hh : holds h t) (Hr : represents (live t) M).

Lemma map_cell key v : M !! key = Some v -> exists i, t !! i = Some (Live key v).
Proof.
  intros (i & x & Hi & Hx)%(represents_lookup _ _ _ _ Hr)%entries_elem. exists i.
  destruct x; cbn in Hx; [by apply elem_of_nil in Hx..|]. by apply list_elem_of_singleton in Hx as [= -> ->].
Qed.

Lemma cell_below i x : t !! i = Some x -> Z.of_nat i <> n_buckets h.
Proof. intros Hi%lookup_lt_Some. rewrite (holds_n _ _ Hh). lia. Qed.

Lemma find_cell_some key v :
  M !! key = Some v -> exists i, find_cell h key = Some (Some (Z.of_nat i)) /\ t !! i = Some (Live key v).
Proof.
  intros [i Hi]%map_cell. exists i. split; [|done]. unfold find_cell. rewrite (kh_get_live h t key i v Hh Hi). mred.
  rewrite decide_False by by eapply cell_below. by rewrite (kh_exist_spec h t i _ Hh Hi).
Qed.

Lemma find_cell_none key : M !! key = None -> find_cell h key = Some None.
Proof.
  intros Hkey%(represents_lookup_none _ _ _ Hr). unfold find_cell. rewrite (kh_get_absent h t key Hh Hkey). mred.
  by rewrite decide_True.
Qed.

Lemma cell_value i key v : t !! i = Some (Live key v) -> at_ (keys h) (Z.of_nat i) = Some key /\ at_ (vals h) (Z.of_nat i) = Some v.
Proof. intros Hi. destruct (view_live _ _ _ _ (holds_view _ _ Hh) i key v Hi). split; by apply at_in. Qed.

Lemma delete_cell i key v :
  t !! i = Some (Live key v) -> exists h' t', kh_del h (Z.of_nat i) = Some h' /\ holds h' t' /\ represents (live t') (delete key M).
Proof.
  intros Hi. destruct (kh_del_spec h t i key v Hh Hi) as (h' & Hdel & Hh'). exists h', (<[i:=Deleted]> t). split_and!; [done..|].
  by apply (represents_remove (live t) _ M key v), live_delete.
Qed.

(** The first half of [ur_map_put]: the key is gone. *)
Lemma drop_key key :
  exists h' t', (k ← kh_get h key; if decide (k = n_buckets h) then Some h else kh_del h k) = Some h' /\
    holds h' t' /\ represents (live t') (delete key M).
Proof.
  destruct (M !! key) as [v|] eqn:E.
  - destruct (map_cell key v E) as [i Hi]. rewrite (kh_get_live h t key i v Hh Hi). mred.
    rewrite decide_False by by eapply cell_below. by eapply delete_cell.
  - pose proof E as Hkey%(represents_lookup_none _ _ _ Hr). rewrite (kh_get_absent h t key Hh Hkey). mred.
    rewrite decide_True by done. exists h, t. split_and!; [done..|]. by rewrite delete_id.
Qed.

End cells.

(** ** The operations on the finite map *)

Lemma ur_map_get_rep map M key : ur_rep map M -> ur_map_get map key = Some (M !! key).
Proof.
  intros (h & t & Hv & Hh & Hr). unfold ur_map_get. rewrite Hv. destruct (M !! key) as [v|] eqn:E.
  - destruct (find_cell_some h t M Hh Hr key v E) as (i & -> & Hi). mred. by rewrite (proj2 (cell_value h t Hh i key v Hi)).
  - by rewrite (find_cell_none h t M Hh Hr key E).
Qed.

Lemma ur_map_exist_rep map M key : ur_rep map M -> ur_map_exist map key = Some (bool_decide (is_Some (M !! key))).
Proof.
  intros (h & t & Hv & Hh & Hr). unfold ur_map_exist. rewrite Hv. destruct (M !! key) as [v|] eqn:E.
  - destruct (find_cell_some h t M Hh Hr key v E) as (i & -> & Hi). done.
  - by rewrite (find_cell_none h t M Hh Hr key E).
Qed.

Lemma ur_map_size_rep map M : ur_rep map M -> ur_map_size map = Z.of_nat (size M).
Proof.
  intros (h & t & Hv & Hh & Hr). unfold ur_map_size. by rewrite Hv, (holds_size _ _ Hh), (represents_size _ _ Hr).
Qed.

Lemma ur_map_del_rep map M key :
  ur_rep map M -> exists map', ur_map_del map key = Some (M !! key, map') /\ ur_rep map' (delete key M).
Proof.
  intros (h & t & Hv & Hh & Hr). unfold ur_map_del. rewrite Hv. destruct (M !! key) as [v|] eqn:E.
  - destruct (find_cell_some h t M Hh Hr key v E) as (i & -> & Hi). mred. rewrite (proj2 (cell_value h t Hh i key v Hi)). mred.
    destruct (delete_cell h t M Hh Hr i key v Hi) as (h' & t' & -> & Hh' & Hr'). mred. eexists. split; [done|].
    exists h', t'. split_and!; [by eapply valid_with_table|done..].
  - rewrite (find_cell_none h t M Hh Hr key E). mred. exists map. split; [done|]. rewrite delete_id by done. by exists h, t.
Qed.

Lemma granted_all mem b : granted mem true = true -> granted mem b = true.
Proof. unfold granted. by destruct (flags_ok mem), (keys_ok mem), (vals_ok mem), b. Qed.

Lemma ur_map_put_rep mem map M key value :
  ur_rep map M -> Z.of_nat (size M) < 2 ^ 30 -> granted mem true = true ->
  exists map', ur_map_put mem map key value = Some (true, map') /\ ur_rep map' (<[key:=value]> M).
Proof.
  intros (h & t & Hv & Hh & Hr) Hsize Hmem. unfold ur_map_put. rewrite Hv.
  destruct (drop_key h t M Hh Hr key) as (h1 & t1 & Hdrop & Hh1 & Hr1).
  destruct (kh_get h key) as [k|]; [|done]. cbn [mbind option_bind] in Hdrop |- *. rewrite Hdrop. cbn [mbind option_bind].
  assert (kh_size h1 < 2 ^ 30) as Hs1.
  { rewrite (holds_size _ _ Hh1), <- (represents_size _ _ Hr1). rewrite map_size_delete. destruct (M !! key); unfold id; lia. }
  pose proof (kh_put_spec mem h1 t1 key Hh1 Hs1) as Hput. rewrite (granted_all mem _ Hmem), orb_true_r in Hput.
  destruct Hput as (i & r & h2 & t2 & -> & Hh2 & v & Hi & Hc). cbn [mbind option_bind].
  assert (key ∉ (live t1).*1) as Hkey by (apply (represents_lookup_none _ _ _ Hr1); by rewrite lookup_delete_eq).
  destruct Hc as [(? & _)|(_ & Hret & Hp)]; [done|]. rewrite (proj2 (Z.eqb_neq r 0)) by lia.
  destruct (holds_value h2 t2 i key v value Hh2 Hi) as [-> Hh3]. cbn [mbind option_bind]. eexists. split; [done|].
  eexists _, _. split_and!; [by eapply valid_with_table|exact Hh3|].
  assert (live (<[i:=Live key value]> t2) ≡ₚ (key, value) :: live t1) as Hp'.
  { rewrite (live_value t2 i key v value Hi). constructor. apply (Permutation_cons_inv (a := (key, v))).
    by rewrite <- (live_delete t2 i key v Hi). }
  rewrite <- (insert_delete_eq M key value). apply (represents_add (live t1)); [done|apply lookup_delete_eq|done].
Qed.

(** ** Refinement *)

Inductive ur_op := UrGet (k : Z) | UrPut (mem : memory) (k v : Z) | UrDel (k : Z) | UrExist (k : Z) | UrSize.

(** What an operation answers: a value, or nothing; a boolean as 0 or 1. *)
Definition ur_step (m : option ur_map) (op : ur_op) : option (option Z * option ur_map) :=
  match op with
  | UrGet k => r ← ur_map_get m k; Some (r, m)
  | UrPut mem k v => '(ok, m) ← ur_map_put mem m k v; Some (Some (Z.b2z ok), m)
  | UrDel k => ur_map_del m k
  | UrExist k => b ← ur_map_exist m k; Some (Some (Z.b2z b), m)
  | UrSize => Some (Some (ur_map_size m), m)
  end.

Definition ur_spec (M : gmap Z Z) (op : ur_op) : option Z * gmap Z Z :=
  match op with
  | UrGet k => (M !! k, M)
  | UrPut _ k v => (Some 1, <[k:=v]> M)
  | UrDel k => (M !! k, delete k M)
  | UrExist k => (Some (Z.b2z (bool_decide (is_Some (M !! k)))), M)
  | UrSize => (Some (Z.of_nat (size M)), M)
  end.

(** A put has memory, and fewer than 2^30 keys are stored. *)
Definition ur_op_ok (M : gmap Z Z) (op : ur_op) : Prop :=
  match op with
  | UrPut mem _ _ => granted mem true = true /\ Z.of_nat (size M) < 2 ^ 30
  | _ => True
  end.

Lemma ur_step_simulates m M op :
  ur_rep m M -> ur_op_ok M op -> exists m', ur_step m op = Some ((ur_spec M op).1, m') /\ ur_rep m' (ur_spec M op).2.
Proof.
  intros Hr Hop. destruct op as [k|mem k v|k|k|]; cbn [ur_step ur_spec fst snd].
  - rewrite (ur_map_get_rep _ _ _ Hr). by exists m.
  - destruct Hop as [Hmem Hs]. destruct (ur_map_put_rep mem m M k v Hr Hs Hmem) as (m' & -> & Hr'). by exists m'.
  - by apply ur_map_del_rep.
  - rewrite (ur_map_exist_rep _ _ _ Hr). by exists m.
  - rewrite (ur_map_size_rep _ _ Hr). by exists m.
Qed.

(** C36 The numeric map refines a finite map: any sequence of look-ups, insertions (also
    of keys that are present), deletions, existence tests and size queries on a new map
    answers as the finite map does, through every rehash of the table, as long as there
    is memory and fewer than 2^30 keys are stored. *)
Theorem ur_map_refines_gmap ops :
  ops_ok ur_spec ur_op_ok ∅ ops ->
  exists m, run ur_step (ur_map_create true true) ops = Some (spec_run ur_spec ∅ ops, m).
Proof.
  intros Hok. destruct (run_simulates _ _ _ _ ur_step_simulates _ _ ops ur_map_create_rep Hok) as (m & M & H & _).
  by exists m.
Qed.

Lemma ur_map_refines_gmap_witness :
  let put := UrPut (mk_memory true true true) in
  exists m, run ur_step (ur_map_create true true) [put 1 10; put 5 50; put 9 90; put 5 51; put 13 130; UrDel 9; UrGet 13; UrGet 5; UrGet 9; UrSize]
    = Some ([Some 1; Some 1; Some 1; Some 1; Some 1; Some 90; Some 130; Some 51; None; Some 3], m).
Proof.
  set (put := UrPut (mk_memory true true true)).
  destruct (ur_map_refines_gmap [put 1 10; put 5 50; put 9 90; put 5 51; put 13 130; UrDel 9; UrGet 13; UrGet 5; UrGet 9; UrSize])
    as (m & H); [repeat split; vm_compute; done|].
  exists m. exact H.
Defined.

(** ** Without memory *)

(** C38 When the table is full and the flags of a larger one cannot be allocated,
    [ur_map_put] of a new key writes the value one cell past the array of values:
    [kh_put] answers -1, which is not the 0 that the code tests for. *)
Theorem ur_map_put_out_of_memory mem map h t key value :
  ur_map_valid map = Some h -> holds h t -> kh_size h < 2 ^ 30 -> key ∉ (live t).*1 ->
  upper_bound h <= n_occupied h -> zlen (vals h) = n_buckets h -> flags_ok mem = false ->
  ur_map_put mem map key value = None.
Proof.
  intros Hv Hh Hsize Hkey Hfull Hvals Hmem. unfold ur_map_put. rewrite Hv, (kh_get_absent h t key Hh Hkey). mred.
  rewrite decide_True by done. mred.
  pose proof (kh_put_full mem h t key Hh Hsize Hfull Hmem) as ->. mred. cbn [Z.eqb].
  unfold put_at. by rewrite decide_False by lia.
Qed.

(** A new map, whose arrays are null pointers. *)
Lemma ur_map_put_out_of_memory_witness : ur_map_put (mk_memory false true true) (ur_map_create true true) 7 1 = None.
Proof.
  apply (ur_map_put_out_of_memory _ _ kh_init []); try reflexivity; [exact holds_init|apply not_elem_of_nil].
Defined.

(** ** Visiting *)

Lemma foreach_loop_spec {S : Type} h t (func : Z -> Z -> S -> bool * S) fuel : forall j s,
  holds h t -> (j + fuel = length t)%nat -> foreach_loop fuel h func (Z.of_nat j) s = Some (visit func (live (drop j t)) s).
Proof.
  induction fuel as [|fuel IH]; intros j s Hh Hj; cbn [foreach_loop].
  - by rewrite drop_ge by lia.
  - destruct (lookup_lt_is_Some_2 t j) as [x Hx]; [lia|]. rewrite (kh_exist_spec h t j x Hh Hx). mred.
    rewrite (drop_S t x j Hx), live_cons. replace (Z.of_nat j + 1) with (Z.of_nat (Datatypes.S j)) by lia.
    destruct x as [| |k v]; cbn [is_live live_slot app]; [by apply IH; [|lia]..|].
    destruct (cell_value h t Hh j k v Hx) as [-> ->]. mred. cbn [visit]. destruct (func k v s) as [stop s'].
    destruct stop; [done|]. by apply IH; [|lia].
Qed.

(** The visit calls the callback on every pair of the map once, until it is stopped. *)
Theorem ur_map_foreach_visits map M {S : Type} (func : Z -> Z -> S -> bool * S) (s : S) :
  ur_rep map M -> exists l, l ≡ₚ map_to_list M /\ ur_map_foreach map func s = Some (visit func l s).
Proof.
  intros (h & t & Hv & Hh & [Hn ->]). exists (live t). split; [by rewrite map_to_list_to_map|].
  unfold ur_map_foreach. rewrite Hv, (holds_n _ _ Hh), Nat2Z.id. by apply (foreach_loop_spec h t func (length t) 0%nat).
Qed.

Lemma ur_map_foreach_visits_witness :
  exists m, ur_map_put (mk_memory true true true) (ur_map_create true true) 7 5 = Some (true, m) /\
    ur_map_foreach m (fun k v s => (false, s + v)) 0 = Some (false, 5).
Proof.
  destruct (ur_map_put_rep (mk_memory true true true) _ ∅ 7 5 ur_map_create_rep) as (m & Hput & Hr); [done..|].
  destruct (ur_map_foreach_visits m _ (fun k v s => (false, s + v)) 0 Hr) as (l & Hl & Hf).
  exists m. split; [exact Hput|]. rewrite Hf, insert_empty in *. rewrite map_to_list_singleton in Hl.
  apply Permutation_singleton_r in Hl as ->. reflexivity.
Defined.
