(* ===== verification/IoTimer.v ===== *)
(** * The timers of the engine [apps/relay/ns_ioalib_engine_impl.c]

    A handle names the memory of a timer until it is deleted; its callback gets the
    pointer the timer was set with.  Handles are numbered in the order of their
    allocation. *)

From S2P Require Import Prelude.
From stdpp Require Import gmap.
#[global] Open Scope Z_scope.

Section timers.
Context {A : Type}.

Record ioa_engine := mk_engine { next_timer : Z; timers : gmap Z A }.

Definition no_timers : ioa_engine := mk_engine 1 ∅.

(** [set_ioa_timer] with [ms] and [persist] zero; [ok]: the answer of [malloc].  The
    parameter [secs] is an [int]. *)
Definition set_ioa_timer (e : ioa_engine) (secs : Z) (ctx : A) (ok : bool) : Z * ioa_engine :=
  if (0 <? secs) && ok then (next_timer e, mk_engine (next_timer e + 1) (<[next_timer e := ctx]> (timers e)))
  else (0, e).

(** A handle that is not allocated must not be deleted. *)
Definition delete_ioa_timer (e : ioa_engine) (th : Z) : option ioa_engine :=
  if decide (th = 0) then Some e else
  _ ← timers e !! th; Some (mk_engine (next_timer e) (delete th (timers e))).

(** The macro [IOA_EVENT_DEL]; the caller clears the handle. *)
Definition IOA_EVENT_DEL (e : ioa_engine) (th : Z) : option ioa_engine :=
  if decide (th = 0) then Some e else delete_ioa_timer e th.

(** Handles are numbers that were given out. *)
Definition engine_ok (e : ioa_engine) : Prop :=
  0 < next_timer e /\ forall h x, timers e !! h = Some x -> 0 < h < next_timer e.

Lemma no_timers_ok : engine_ok no_timers.
Proof. split; [done|]. intros h x H. exfalso. by apply (lookup_empty_Some h x). Qed.

Lemma event_del_spec e th :
  engine_ok e -> (th <> 0 -> is_Some (timers e !! th)) ->
  exists e', IOA_EVENT_DEL e th = Some e' /\ engine_ok e' /\ next_timer e' = next_timer e /\ timers e' = delete th (timers e).
Proof.
  intros [Hn Ht] Hth. unfold IOA_EVENT_DEL, delete_ioa_timer. destruct (decide (th = 0)) as [->|Hne].
  - exists e. split_and!; try done. rewrite delete_id; [done|]. destruct (timers e !! 0) eqn:E; [|done].
    destruct (Ht _ _ E). lia.
  - destruct (Hth Hne) as [x Hx]. rewrite Hx. mred. eexists. split; [reflexivity|]. split_and!; [|done|done].
    split; [done|]. intros h y Hy. cbn in Hy. apply lookup_delete_Some in Hy as [_ Hy]. by apply (Ht h y).
Qed.

Lemma set_timer_spec e secs ctx :
  engine_ok e -> 0 < secs ->
  exists h e', set_ioa_timer e secs ctx true = (h, e') /\ engine_ok e' /\ 0 < h /\ timers e !! h = None /\ timers e' = <[h := ctx]> (timers e).
Proof.
  intros [Hn Ht] Hs. unfold set_ioa_timer. rewrite (proj2 (Z.ltb_lt _ _) Hs). cbn [andb]. eexists _, _. split; [reflexivity|].
  split_and!; [|done| |done].
  - split; cbn; [lia|]. intros h x Hx. cbn in Hx. apply lookup_insert_Some in Hx as [[<- _]|[Hne Hx]]; [lia|]. destruct (Ht h x Hx). lia.
  - destruct (timers e !! next_timer e) as [x|] eqn:E; [|done]. destruct (Ht _ _ E). lia.
Qed.

End timers.

Arguments ioa_engine : clear implicits.
