(* ===== verification/Permission.v ===== *)
(** * Permissions and channels of an allocation [server/ns_turn_allocation.c]

    A permission is a slot of a hash table of peers, three in place in every bucket and
    further ones behind pointers; a channel is a cell of the same kind of table.  The two
    point at each other: a channel has its permission as owner, a permission keeps a local
    map from ports to its channels.  Pointers are the places of slots and cells; [None] is
    an access through a pointer that is not valid. *)

From S2P Require Import Prelude IoAddr StunHeader Buckets LmMap IoTimer.

Definition TURN_PERMISSION_HASHTABLE_SIZE : nat := 8.
Definition TURN_PERMISSION_ARRAY_SIZE : nat := 3.
Definition CH_MAP_HASH_SIZE : nat := 8.
Definition CH_MAP_ARRAY_SIZE : nat := 3.

(** ** Pointers *)

(** A slot: its bucket and its place in it, those in place first. *)
Definition perm_ptr : Type := nat * nat.

(** The address of a channel cell; the local maps keep it as an integer. *)
Definition ch_addr (i j : nat) : Z := 1 + Z.of_nat i + Z.of_nat CH_MAP_HASH_SIZE * Z.of_nat j.
Definition ch_bucket (c : Z) : nat := Z.to_nat ((c - 1) mod Z.of_nat CH_MAP_HASH_SIZE).
Definition ch_place (c : Z) : nat := Z.to_nat ((c - 1) / Z.of_nat CH_MAP_HASH_SIZE).

Inductive timer_ctx := PermTimer (p : perm_ptr) | ChanTimer (c : Z).
Abbreviation engine := (ioa_engine timer_ctx).

(** ** Data *)

(** [memset] to zero. *)
Definition zero_ioa_addr : ioa_addr := addr_set_any.

Record ch_info := mk_ch_info {
  ch_allocated : bool;
  ch_chnum : Z;
  ch_port : Z;
  ch_peer : ioa_addr;
  ch_expiration : Z;
  ch_ev : Z;
  ch_owner : option perm_ptr;
  ch_kernel : Z
}.
Definition zero_ch : ch_info := mk_ch_info false 0 0 zero_ioa_addr 0 0 None 0.

(** [extra_sz] counts the cells that were allocated. *)
Record ch_map_array := mk_ch_map_array { main_chns : list ch_info; extra_chns : list ch_info }.
Abbreviation ch_map := (list ch_map_array).

(** [pm_owner]: the owner pointer is set.  [verbose] and [session_id] are for the log. *)
Record turn_permission_info := mk_permission {
  pm_allocated : bool;
  pm_chns : lm_map;
  pm_addr : ioa_addr;
  pm_expiration : Z;
  pm_ev : Z;
  pm_owner : bool
}.
Definition zero_permission : turn_permission_info := mk_permission false lm_map_init zero_ioa_addr 0 0 false.

(** A further slot that [malloc] did not give is an uninitialised pointer. *)
Record turn_permission_array := mk_permission_array {
  main_slots : list turn_permission_info;
  extra_slots : list (option turn_permission_info)
}.
Abbreviation turn_permission_hashtable := (list turn_permission_array).

(** ** Memory accesses *)

Definition slot_list (a : turn_permission_array) : list (option turn_permission_info) :=
  (Some <$> main_slots a) ++ extra_slots a.

Definition get_perm (map : turn_permission_hashtable) (p : perm_ptr) : option turn_permission_info :=
  a ← map !! p.1; t ← slot_list a !! p.2; t.

Definition put_slot (a : turn_permission_array) (j : nat) (t : turn_permission_info) : turn_permission_array :=
  if decide (j < length (main_slots a))%nat then mk_permission_array (<[j := t]> (main_slots a)) (extra_slots a)
  else mk_permission_array (main_slots a) (<[(j - length (main_slots a))%nat := Some t]> (extra_slots a)).

Definition set_perm (map : turn_permission_hashtable) (p : perm_ptr) (t : turn_permission_info)
  : option turn_permission_hashtable :=
  a ← map !! p.1; _ ← get_perm map p; Some (<[p.1 := put_slot a p.2 t]> map).

Definition cell_list (a : ch_map_array) : list ch_info := main_chns a ++ extra_chns a.

Definition get_ch (map : ch_map) (c : Z) : option ch_info :=
  if decide (c < 1) then None else
  a ← map !! ch_bucket c; cell_list a !! ch_place c.

Definition put_cell (a : ch_map_array) (j : nat) (x : ch_info) : ch_map_array :=
  if decide (j < length (main_chns a))%nat then mk_ch_map_array (<[j := x]> (main_chns a)) (extra_chns a)
  else mk_ch_map_array (main_chns a) (<[(j - length (main_chns a))%nat := x]> (extra_chns a)).

Definition set_ch (map : ch_map) (c : Z) (x : ch_info) : option ch_map :=
  a ← map !! ch_bucket c; _ ← get_ch map c; Some (<[ch_bucket c := put_cell a (ch_place c) x]> map).

(** ** The table of permissions *)

Definition init_turn_permission_hashtable : turn_permission_hashtable :=
  replicate TURN_PERMISSION_HASHTABLE_SIZE
    (mk_permission_array (replicate TURN_PERMISSION_ARRAY_SIZE zero_permission) []).

Definition perm_index (addr : option ioa_addr) : nat :=
  Z.to_nat (Z.land (addr_hash_no_port addr) (Z.of_nat TURN_PERMISSION_HASHTABLE_SIZE - 1)).

(** Both search loops: the first slot with the address of the peer. *)
Fixpoint find_slot (slots : list (option turn_permission_info)) (j : nat) (addr : option ioa_addr) : option (option nat) :=
  match slots with
  | [] => Some None
  | None :: _ => None
  | Some t :: slots =>
    if pm_allocated t && addr_eq_no_port (Some (pm_addr t)) addr then Some (Some j) else find_slot slots (S j) addr
  end.

Definition get_from_turn_permission_hashtable (map : turn_permission_hashtable) (addr : option ioa_addr)
  : option (option perm_ptr) :=
  match addr with
  | None => Some None
  | Some _ =>
    a ← map !! perm_index addr;
    j ← find_slot (slot_list a) 0 addr;
    Some (option_map (pair (perm_index addr)) j)
  end.

(** The search for a slot that is free. *)
Fixpoint find_free (slots : list (option turn_permission_info)) (j : nat) : option (option nat) :=
  match slots with
  | [] => Some None
  | None :: _ => None
  | Some t :: slots => if pm_allocated t then find_free slots (S j) else Some (Some j)
  end.

(** What the allocations of a step answer: the array of slots, a slot, the array of cells, a cell, and the cell
    of a local map. *)
Record alloc_memory := mk_alloc_memory {
  perm_array_ok : bool; perm_slot_ok : bool; ch_array_ok : bool; ch_cell_ok : bool; lm_cell_ok : bool; timer_ok : bool
}.
Definition all_memory : alloc_memory := mk_alloc_memory true true true true true true.

(** [memset] of the slot, and its first fields. *)
Definition new_permission (addr : ioa_addr) : turn_permission_info := mk_permission true lm_map_init addr 0 0 true.

(** [allocation_add_permission] on the table; the owner is the allocation. *)
Definition allocation_add_permission (mem : alloc_memory) (map : turn_permission_hashtable) (addr : option ioa_addr)
  : option (option perm_ptr * turn_permission_hashtable) :=
  match addr with
  | None => Some (None, map)
  | Some a0 =>
    let fds := perm_index addr in
    parray ← map !! fds;
    j ← find_free (slot_list parray) 0;
    match j with
    | Some j => map ← set_perm map (fds, j) (new_permission a0); Some (Some (fds, j), map)
    | None =>
      if negb (perm_array_ok mem) then Some (None, map) else
      let grown slot := <[fds := mk_permission_array (main_slots parray) (extra_slots parray ++ [slot])]> map in
      if negb (perm_slot_ok mem) then Some (None, grown None) else
      Some (Some (fds, length (slot_list parray)), grown (Some (new_permission a0)))
    end
  end.

(** ** The table of channels *)

Definition init_ch_map : ch_map := replicate CH_MAP_HASH_SIZE (mk_ch_map_array (replicate CH_MAP_ARRAY_SIZE zero_ch) []).

Definition chn_index (chnum : Z) : nat := Z.to_nat (Z.land chnum (Z.of_nat CH_MAP_HASH_SIZE - 1)).

(** Both loops of [ch_map_get]. *)
Fixpoint find_chn (cells : list ch_info) (j : nat) (chnum : Z) (new_chn : bool) : option nat :=
  match cells with
  | [] => None
  | chi :: cells =>
    if ch_allocated chi then
      if negb new_chn && (ch_chnum chi =? chnum) then Some j else find_chn cells (S j) chnum new_chn
    else if new_chn then Some j else find_chn cells (S j) chnum new_chn
  end.

Definition ch_map_get (mem : alloc_memory) (map : ch_map) (chnum : Z) (new_chn : bool) : option (option Z * ch_map) :=
  let index := chn_index chnum in
  a ← map !! index;
  match find_chn (cell_list a) 0 chnum new_chn with
  | Some j => Some (Some (ch_addr index j), map)
  | None =>
    if new_chn && ch_array_ok mem && ch_cell_ok mem then
      Some (Some (ch_addr index (length (cell_list a))),
            <[index := mk_ch_map_array (main_chns a) (extra_chns a ++ [zero_ch])]> map)
    else Some (None, map)
  end.

(** ** Cleaning *)

(** Engine, channels. *)
Definition ch_info_clean (e : engine) (map : ch_map) (c : Z) : option (engine * ch_map) :=
  x ← get_ch map c;
  e ← IOA_EVENT_DEL e (ch_ev x);
  map ← set_ch map c zero_ch;
  Some (e, map).

(** A callback of [lm_map_foreach]: the key is not used. *)
Definition delete_channel_info_from_allocation_map (key value : Z) (s : option (engine * ch_map))
  : bool * option (engine * ch_map) :=
  (false, if decide (value = 0) then s else '(e, map) ← s; ch_info_clean e map value).

(** The tables of an allocation. *)
Record tables := mk_tables { tb_engine : engine; tb_perms : turn_permission_hashtable; tb_chns : ch_map }.

Definition turn_permission_clean (s : tables) (tinfo : perm_ptr) : option tables :=
  t ← get_perm (tb_perms s) tinfo;
  if negb (pm_allocated t) then Some s else
  e ← IOA_EVENT_DEL (tb_engine s) (pm_ev t);
  '(_, r) ← lm_map_foreach (pm_chns t) delete_channel_info_from_allocation_map (Some (e, tb_chns s));
  '(e, chns) ← r;
  perms ← set_perm (tb_perms s) tinfo zero_permission;
  Some (mk_tables e perms chns).

(** The slots of one bucket, from place [j] on. *)
Fixpoint clean_slots (n : nat) (s : tables) (i j : nat) : option tables :=
  match n with
  | O => Some s
  | S n =>
    t ← get_perm (tb_perms s) (i, j);
    s ← (if pm_allocated t then turn_permission_clean s (i, j) else Some s);
    clean_slots n s i (S j)
  end.

(** The buckets from [i] on. *)
Fixpoint free_buckets (n : nat) (s : tables) (i : nat) : option tables :=
  match n with
  | O => Some s
  | S n =>
    parray ← tb_perms s !! i;
    s ← clean_slots (length (slot_list parray)) s i 0;
    parray ← tb_perms s !! i;
    free_buckets n (mk_tables (tb_engine s) (<[i := mk_permission_array (main_slots parray) []]> (tb_perms s)) (tb_chns s)) (S i)
  end.

Definition free_turn_permission_hashtable (s : tables) : option tables :=
  free_buckets TURN_PERMISSION_HASHTABLE_SIZE s 0.

(** The cells of one bucket of channels, and all buckets. *)
Fixpoint clean_cells (n : nat) (e : engine) (map : ch_map) (i j : nat) : option (engine * ch_map) :=
  match n with
  | O => Some (e, map)
  | S n =>
    x ← get_ch map (ch_addr i j);
    '(e, map) ← (if ch_allocated x then ch_info_clean e map (ch_addr i j) else Some (e, map));
    clean_cells n e map i (S j)
  end.

Fixpoint free_chn_buckets (n : nat) (e : engine) (map : ch_map) (i : nat) : option (engine * ch_map) :=
  match n with
  | O => Some (e, map)
  | S n =>
    a ← map !! i;
    '(e, map) ← clean_cells (length (cell_list a)) e map i 0;
    a ← map !! i;
    free_chn_buckets n e (<[i := mk_ch_map_array (main_chns a) []]> map) (S i)
  end.

Definition ch_map_clean (e : engine) (map : ch_map) : option (engine * ch_map) := free_chn_buckets CH_MAP_HASH_SIZE e map 0.

(** ** Channels of a permission *)

Definition turn_channel_delete (s : tables) (chn : Z) : option tables :=
  x ← get_ch (tb_chns s) chn;
  let port := addr_get_port (Some (ch_peer x)) in
  perms ← (match ch_owner x with
           | Some tinfo =>
             t ← get_perm (tb_perms s) tinfo;
             '(_, m) ← lm_map_del (pm_chns t) port;
             set_perm (tb_perms s) tinfo
               (mk_permission (pm_allocated t) m (pm_addr t) (pm_expiration t) (pm_ev t) (pm_owner t))
           | None => Some (tb_perms s)
           end);
  '(_, r) ← Some (delete_channel_info_from_allocation_map port chn (Some (tb_engine s, tb_chns s)));
  '(e, chns) ← r;
  Some (mk_tables e perms chns).

(** The channel that a permission has for the port of an address, if its number is valid. *)
Definition get_turn_channel (s : tables) (tinfo : perm_ptr) (addr : ioa_addr) : option (option Z) :=
  t ← get_perm (tb_perms s) tinfo;
  v ← lm_map_get (pm_chns t) (addr_get_port (Some addr));
  match v with
  | Some c =>
    if decide (c = 0) then Some None else
    x ← get_ch (tb_chns s) c;
    Some (if STUN_VALID_CHANNEL (ch_chnum x) then Some c else None)
  | None => Some None
  end.

Definition get_turn_channel_number (s : tables) (tinfo : perm_ptr) (addr : ioa_addr) : option Z :=
  t ← get_perm (tb_perms s) tinfo;
  v ← lm_map_get (pm_chns t) (addr_get_port (Some addr));
  match v with
  | Some c =>
    if decide (c = 0) then Some 0 else
    x ← get_ch (tb_chns s) c;
    Some (if STUN_VALID_CHANNEL (ch_chnum x) then ch_chnum x else 0)
  | None => Some 0
  end.

Definition allocation_get_permission (s : tables) (addr : option ioa_addr) : option (option perm_ptr) :=
  get_from_turn_permission_hashtable (tb_perms s) addr.

Definition allocation_get_new_ch_info (mem : alloc_memory) (s : tables) (chnum : Z) (peer_addr : ioa_addr)
  : option (option Z * tables) :=
  r ← get_from_turn_permission_hashtable (tb_perms s) (Some peer_addr);
  '(r, perms) ← (match r with
                 | Some p => Some (Some p, tb_perms s)
                 | None => allocation_add_permission mem (tb_perms s) (Some peer_addr)
                 end);
  let s := mk_tables (tb_engine s) perms (tb_chns s) in
  match r with
  | None => Some (None, s)
  | Some tinfo =>
    '(r, chns) ← ch_map_get mem (tb_chns s) chnum true;
    match r with
    | None => Some (None, mk_tables (tb_engine s) perms chns)
    | Some chn =>
      x ← get_ch chns chn;
      let port := addr_get_port (Some peer_addr) in
      chns ← set_ch chns chn (mk_ch_info true chnum (u16 port) peer_addr (ch_expiration x) (ch_ev x) (Some tinfo) (ch_kernel x));
      t ← get_perm perms tinfo;
      '(_, m) ← lm_map_put (pm_chns t) port chn (lm_cell_ok mem);
      perms ← set_perm perms tinfo
                (mk_permission (pm_allocated t) m (pm_addr t) (pm_expiration t) (pm_ev t) (pm_owner t));
      Some (Some chn, mk_tables (tb_engine s) perms chns)
    end
  end.

Definition allocation_get_ch_info (s : tables) (chnum : Z) : option (option Z) :=
  '(r, _) ← ch_map_get all_memory (tb_chns s) chnum false; Some r.

Definition allocation_get_ch_info_by_peer_addr (s : tables) (peer_addr : ioa_addr) : option (option Z) :=
  r ← get_from_turn_permission_hashtable (tb_perms s) (Some peer_addr);
  match r with
  | Some tinfo => get_turn_channel s tinfo peer_addr
  | None => Some None
  end.

Definition can_accept_tcp_connection_from_peer (s : tables) (peer_addr : ioa_addr) (server_relay : bool) : option bool :=
  if server_relay then Some true else
  r ← get_from_turn_permission_hashtable (tb_perms s) (Some peer_addr);
  Some (bool_decide (is_Some r)).
