(* ===== verification/PermMem.v ===== *)
(** * The memory of permissions and channels

    Reading and writing slots and cells through their pointers, and the searches of the
    two tables of [Permission]. *)

From S2P Require Import Prelude IoAddr StunHeader Buckets LmMap IoTimer Permission.

(** ** Pointers of channels *)

Lemma ch_addr_spec i j :
  (i < 8)%nat -> ch_bucket (ch_addr i j) = i /\ ch_place (ch_addr i j) = j /\ 1 <= ch_addr i j.
Proof.
  intros Hi. unfold ch_bucket, ch_place, ch_addr, CH_MAP_HASH_SIZE. change (Z.of_nat 8) with 8.
  replace (1 + Z.of_nat i + 8 * Z.of_nat j - 1) with (Z.of_nat i + Z.of_nat j * 8) by lia.
  rewrite Z.mod_add, Z.div_add, Z.mod_small, Z.div_small by lia. split_and!; lia.
Qed.

Lemma ch_addr_eta c : 1 <= c -> c = ch_addr (ch_bucket c) (ch_place c) /\ (ch_bucket c < 8)%nat.
Proof.
  intros Hc. unfold ch_bucket, ch_place, ch_addr, CH_MAP_HASH_SIZE. change (Z.of_nat 8) with 8.
  pose proof (Z.div_mod (c - 1) 8). pose proof (Z.mod_pos_bound (c - 1) 8). pose proof (Z.div_pos (c - 1) 8). split; lia.
Qed.

Lemma ch_ptr_inj c d : 1 <= c -> 1 <= d -> ch_bucket c = ch_bucket d -> ch_place c = ch_place d -> c = d.
Proof. intros [Ec _]%ch_addr_eta [Ed _]%ch_addr_eta E1 E2. congruence. Qed.

Lemma chn_index_lt n : (chn_index n < 8)%nat.
Proof.
  unfold chn_index, CH_MAP_HASH_SIZE. change (Z.of_nat 8 - 1) with (Z.ones 3). rewrite Z.land_ones by lia.
  pose proof (Z.mod_pos_bound n (2 ^ 3)). lia.
Qed.

Lemma perm_index_lt a : (perm_index a < 8)%nat.
Proof.
  unfold perm_index, TURN_PERMISSION_HASHTABLE_SIZE. change (Z.of_nat 8 - 1) with (Z.ones 3). rewrite Z.land_ones by lia.
  pose proof (Z.mod_pos_bound (addr_hash_no_port a) (2 ^ 3)). lia.
Qed.

(** ** Writing *)

Lemma slot_list_put a j t : (j < length (slot_list a))%nat -> slot_list (put_slot a j t) = <[j := Some t]> (slot_list a).
Proof.
  unfold slot_list, put_slot. intros Hj. destruct (decide _) as [Hlt|Hge]; cbn.
  - by rewrite insert_app_l, list_fmap_insert by (by rewrite length_fmap).
  - rewrite <- (length_fmap Some (main_slots a)) at 1. rewrite <- insert_app_r, length_fmap. f_equal. lia.
Qed.

Lemma cell_list_put a j x : (j < length (cell_list a))%nat -> cell_list (put_cell a j x) = <[j := x]> (cell_list a).
Proof.
  unfold cell_list, put_cell. intros Hj. destruct (decide _) as [Hlt|Hge]; cbn.
  - by rewrite insert_app_l.
  - rewrite <- insert_app_r. f_equal. lia.
Qed.

(** No slot is an uninitialised pointer. *)
Definition perms_shape (map : turn_permission_hashtable) : Prop :=
  length map = 8%nat /\ Forall (fun a => Forall is_Some (slot_list a)) map.
Definition chns_shape (map : ch_map) : Prop := length map = 8%nat.

Lemma get_perm_Some map p t :
  get_perm map p = Some t <-> exists a, map !! p.1 = Some a /\ slot_list a !! p.2 = Some (Some t).
Proof.
  unfold get_perm. destruct (map !! p.1) as [a|]; mred; [|split; [done|by intros (? & ? & _)]].
  destruct (slot_list a !! p.2) as [[t'|]|] eqn:E; mred; split; try done; try (intros (? & [= <-] & ?); congruence).
  intros [= ->]. by exists a.
Qed.

Lemma set_perm_spec map p t t0 :
  perms_shape map -> get_perm map p = Some t0 ->
  exists map', set_perm map p t = Some map' /\ perms_shape map' /\
    forall q, get_perm map' q = if decide (q = p) then Some t else get_perm map q.
Proof.
  intros [Hlen Hs] Hg. unfold set_perm. rewrite Hg. apply get_perm_Some in Hg as (a & Ha & Hp). rewrite Ha. mred.
  pose proof (lookup_lt_Some _ _ _ Ha) as L1. pose proof (lookup_lt_Some _ _ _ Hp) as L2.
  eexists. split; [reflexivity|]. split.
  - split; [by rewrite length_insert|]. apply Forall_insert; [done|]. rewrite slot_list_put by done.
    apply Forall_insert; [|done]. by apply (Forall_lookup_1 _ _ _ _ Hs Ha).
  - intros q. unfold get_perm at 1. destruct (decide (q.1 = p.1)) as [E1|N1].
    + rewrite E1, list_lookup_insert_eq by done. mred. rewrite slot_list_put by done. destruct (decide (q.2 = p.2)) as [E2|N2].
      * rewrite E2, list_lookup_insert_eq by done. mred. rewrite decide_True; [done|]. destruct p, q; cbn in *; congruence.
      * rewrite list_lookup_insert_ne by done. rewrite decide_False by congruence. unfold get_perm. by rewrite E1, Ha.
    + rewrite list_lookup_insert_ne by done. by rewrite decide_False by congruence.
Qed.

Lemma get_ch_Some map c x :
  get_ch map c = Some x <-> 1 <= c /\ exists a, map !! ch_bucket c = Some a /\ cell_list a !! ch_place c = Some x.
Proof.
  unfold get_ch. case_decide as Hc; [split; [done|lia]|]. destruct (map !! ch_bucket c) as [a|]; mred.
  - split; [intros H; split; [lia|by exists a]|]. intros (_ & ? & [= <-] & ?). done.
  - split; [done|]. by intros (_ & ? & ? & _).
Qed.

Lemma set_ch_spec map c x x0 :
  chns_shape map -> get_ch map c = Some x0 ->
  exists map', set_ch map c x = Some map' /\ chns_shape map' /\
    forall d, get_ch map' d = if decide (d = c) then Some x else get_ch map d.
Proof.
  intros Hlen Hg. unfold set_ch. rewrite Hg. apply get_ch_Some in Hg as (Hc & a & Ha & Hp). rewrite Ha. mred.
  pose proof (lookup_lt_Some _ _ _ Ha) as L1. pose proof (lookup_lt_Some _ _ _ Hp) as L2.
  eexists. split; [reflexivity|]. split; [unfold chns_shape; by rewrite length_insert|].
  intros d. unfold get_ch. destruct (decide (d < 1)) as [Hd|Hd]; [rewrite decide_False by lia; done|].
  destruct (decide (ch_bucket d = ch_bucket c)) as [E1|N1].
  - rewrite E1, list_lookup_insert_eq by done. mred. rewrite cell_list_put by done. destruct (decide (ch_place d = ch_place c)) as [E2|N2].
    + rewrite E2, list_lookup_insert_eq by done. rewrite decide_True; [done|]. by apply ch_ptr_inj; [lia..| |].
    + rewrite list_lookup_insert_ne by done. rewrite decide_False by congruence. by rewrite Ha.
  - rewrite list_lookup_insert_ne by done. by rewrite decide_False by congruence.
Qed.

(** ** Searching *)

Lemma find_slot_spec slots addr : Forall is_Some slots -> forall j,
  (exists k t, find_slot slots j addr = Some (Some (j + k)%nat) /\ slots !! k = Some (Some t) /\ pm_allocated t = true /\
     addr_eq_no_port (Some (pm_addr t)) addr = true) \/
  (find_slot slots j addr = Some None /\ forall k t, slots !! k = Some (Some t) -> pm_allocated t = true ->
     addr_eq_no_port (Some (pm_addr t)) addr = false).
Proof.
  induction 1 as [|o slots Ho _ IH]; intros j; cbn [find_slot]; [right; split; [done|]; by intros [|k] t Hk|].
  destruct o as [t|]; [|by destruct Ho].
  destruct (pm_allocated t) eqn:Ea, (addr_eq_no_port (Some (pm_addr t)) addr) eqn:Ee; cbn [andb];
    try (left; exists 0%nat, t; rewrite Nat.add_0_r; by split_and!);
    (destruct (IH (S j)) as [(k & u & H1 & H2)|[H1 H2]];
     [left; exists (S k), u; by replace (j + S k)%nat with (S j + k)%nat by lia
     |right; split; [done|]; intros [|k] u Hk Hu; [injection Hk as ->; congruence|by apply (H2 k)]]).
Qed.

Lemma find_free_spec slots : Forall is_Some slots -> forall j,
  (exists k t, find_free slots j = Some (Some (j + k)%nat) /\ slots !! k = Some (Some t) /\ pm_allocated t = false) \/
  find_free slots j = Some None.
Proof.
  induction 1 as [|o slots Ho _ IH]; intros j; cbn [find_free]; [by right|].
  destruct o as [t|]; [|by destruct Ho].
  destruct (pm_allocated t) eqn:Ea; [|left; exists 0%nat, t; rewrite Nat.add_0_r; by split_and!].
  destruct (IH (S j)) as [(k & u & H1 & H2)|H1]; [|by right].
  left; exists (S k), u; by replace (j + S k)%nat with (S j + k)%nat by lia.
Qed.

Lemma find_chn_old cells n : forall j,
  (exists k x, find_chn cells j n false = Some (j + k)%nat /\ cells !! k = Some x /\ ch_allocated x = true /\ ch_chnum x = n) \/
  (find_chn cells j n false = None /\ forall k x, cells !! k = Some x -> ch_allocated x = true -> ch_chnum x <> n).
Proof.
  induction cells as [|x cells IH]; intros j; cbn [find_chn]; [right; split; [done|]; by intros [|k] x Hk|].
  assert ((ch_allocated x = true /\ ch_chnum x = n) \/
    ((if ch_allocated x then if negb false && (ch_chnum x =? n) then Some j else find_chn cells (S j) n false
      else find_chn cells (S j) n false) = find_chn cells (S j) n false /\ (ch_allocated x = true -> ch_chnum x <> n))) as [[Ea En]|[E Hx]].
  { destruct (ch_allocated x); [|by right]. destruct (Z.eqb_spec (ch_chnum x) n); [by left|by right]. }
  - left. exists 0%nat, x. by rewrite Ea, En, Z.eqb_refl, Nat.add_0_r.
  - rewrite E. destruct (IH (S j)) as [(k & y & H1 & H2)|[H1 H2]].
    + left. exists (S k), y. by replace (j + S k)%nat with (S j + k)%nat by lia.
    + right. split; [done|]. intros [|k] y Hk Hy; [injection Hk as <-; by apply Hx|by apply (H2 k)].
Qed.

Lemma find_chn_new cells n : forall j,
  (exists k x, find_chn cells j n true = Some (j + k)%nat /\ cells !! k = Some x /\ ch_allocated x = false) \/
  find_chn cells j n true = None.
Proof.
  induction cells as [|x cells IH]; intros j; cbn [find_chn]; [by right|].
  destruct (ch_allocated x) eqn:Ea; cbn [negb andb].
  - destruct (IH (S j)) as [(k & y & H1 & H2)|H1]; [|by right].
    left; exists (S k), y; by replace (j + S k)%nat with (S j + k)%nat by lia.
  - left; exists 0%nat, x; rewrite Nat.add_0_r; by split_and!.
Qed.

(** ** The operations of the tables *)

Section perms.
Context (map : turn_permission_hashtable) (Hs : perms_shape map).

Lemma perm_bucket i : (i < 8)%nat -> exists a, map !! i = Some a /\ Forall is_Some (slot_list a).
Proof.
  destruct Hs as [Hlen Ha]. intros Hi. destruct (lookup_lt_is_Some_2 map i) as [a H]; [lia|].
  exists a. split; [done|by apply (Forall_lookup_1 _ _ _ _ Ha H)].
Qed.

Lemma get_from_spec addr :
  (exists p t, get_from_turn_permission_hashtable map (Some addr) = Some (Some p) /\ p.1 = perm_index (Some addr) /\
     get_perm map p = Some t /\ pm_allocated t = true /\ addr_eqv_no_port (pm_addr t) addr) \/
  (get_from_turn_permission_hashtable map (Some addr) = Some None /\
     forall p t, p.1 = perm_index (Some addr) -> get_perm map p = Some t -> pm_allocated t = true -> ~ addr_eqv_no_port (pm_addr t) addr).
Proof.
  unfold get_from_turn_permission_hashtable. destruct (perm_bucket _ (perm_index_lt (Some addr))) as (a & Ha & Hf).
  rewrite Ha. mred. destruct (find_slot_spec _ (Some addr) Hf 0) as [(k & t & -> & Hk & Hal & Heq)|[-> Hn]]; mred.
  - left. exists (perm_index (Some addr), k), t. split_and!; [done|done| |done|done]. apply get_perm_Some. by exists a.
  - right. split; [done|]. intros p t Hp (a' & Ha' & Ht)%get_perm_Some Hal He. rewrite Hp, Ha in Ha'. injection Ha' as <-.
    specialize (Hn _ _ Ht Hal). unfold addr_eqv_no_port in He. congruence.
Qed.

Lemma add_permission_spec addr :
  exists p map', allocation_add_permission all_memory map (Some addr) = Some (Some p, map') /\ perms_shape map' /\
    p.1 = perm_index (Some addr) /\ (forall t, get_perm map p = Some t -> pm_allocated t = false) /\
    forall q, get_perm map' q = if decide (q = p) then Some (new_permission addr) else get_perm map q.
Proof.
  unfold allocation_add_permission. destruct (perm_bucket _ (perm_index_lt (Some addr))) as (a & Ha & Hf).
  rewrite Ha. mred. destruct (find_free_spec _ Hf 0) as [(k & t & -> & Hk & Hal)| ->]; mred.
  - assert (get_perm map (perm_index (Some addr), k) = Some t) as Hg by (apply get_perm_Some; by exists a).
    destruct (set_perm_spec map _ (new_permission addr) t Hs Hg) as (map' & Hset & Hs' & Hget). cbn [Nat.add]. rewrite Hset. mred.
    eexists _, map'. split_and!; [reflexivity|done|done| |done]. intros u Hu. cbn in Hu. congruence.
  - cbn [all_memory perm_array_ok perm_slot_ok negb]. eexists _, _. split; [reflexivity|].
    pose proof (lookup_lt_Some _ _ _ Ha) as L1.
    assert (slot_list (mk_permission_array (main_slots a) (extra_slots a ++ [Some (new_permission addr)]))
            = slot_list a ++ [Some (new_permission addr)]) as E by (unfold slot_list; cbn; by rewrite app_assoc).
    split_and!; [|done| |].
    + destruct Hs as [Hlen Hall]. split; [by rewrite length_insert|]. apply Forall_insert; [done|]. rewrite E.
      apply Forall_app. split; [done|]. by repeat constructor.
    + intros t (a' & Ha' & Ht)%get_perm_Some. cbn in Ha', Ht. rewrite Ha in Ha'. injection Ha' as <-.
      apply lookup_lt_Some in Ht. lia.
    + intros q. unfold get_perm at 1. destruct (decide (q.1 = perm_index (Some addr))) as [E1|N1].
      * rewrite E1, list_lookup_insert_eq by done. mred. rewrite E. destruct (decide (q.2 = length (slot_list a))) as [E2|N2].
        -- rewrite E2, list_lookup_middle by done. mred. rewrite decide_True; [done|]. destruct q; cbn in *; congruence.
        -- rewrite decide_False by (by intros ->). unfold get_perm. rewrite E1, Ha. mred.
           destruct (decide (q.2 < length (slot_list a))%nat); [by rewrite lookup_app_l|].
           rewrite !lookup_ge_None_2 by (rewrite ?length_app; cbn; lia). done.
      * rewrite list_lookup_insert_ne by done. by rewrite decide_False by (by intros ->).
Qed.

End perms.

Section chns.
Context (map : ch_map) (Hs : chns_shape map).

Lemma chn_bucket i : (i < 8)%nat -> exists a, map !! i = Some a.
Proof. unfold chns_shape in Hs. intros Hi. destruct (lookup_lt_is_Some_2 map i) as [a H]; [lia|]. by exists a. Qed.

Lemma ch_get_old n :
  (exists c x, ch_map_get all_memory map n false = Some (Some c, map) /\ get_ch map c = Some x /\ ch_allocated x = true /\ ch_chnum x = n) \/
  (ch_map_get all_memory map n false = Some (None, map) /\
     forall c x, ch_bucket c = chn_index n -> get_ch map c = Some x -> ch_allocated x = true -> ch_chnum x <> n).
Proof.
  unfold ch_map_get. destruct (chn_bucket _ (chn_index_lt n)) as [a Ha]. rewrite Ha. mred.
  destruct (find_chn_old (cell_list a) n 0) as [(k & x & -> & Hk & Hx)|[-> Hn]].
  - left. exists (ch_addr (chn_index n) k), x. split_and!; [done| |apply Hx..]. apply get_ch_Some.
    destruct (ch_addr_spec (chn_index n) k (chn_index_lt n)) as (-> & -> & Hc). split; [done|]. by exists a.
  - right. split; [done|]. intros c x Hc (_ & a' & Ha' & Hx)%get_ch_Some. rewrite Hc, Ha in Ha'. injection Ha' as <-. by apply (Hn _ x Hx).
Qed.

Lemma ch_get_new n :
  exists c map' x, ch_map_get all_memory map n true = Some (Some c, map') /\ chns_shape map' /\ ch_bucket c = chn_index n /\ 1 <= c /\
    get_ch map' c = Some x /\ ch_allocated x = false /\ (x = zero_ch \/ get_ch map c = Some x) /\
    (forall y, get_ch map c = Some y -> y = x) /\ forall d, d <> c -> get_ch map' d = get_ch map d.
Proof.
  unfold ch_map_get. destruct (chn_bucket _ (chn_index_lt n)) as [a Ha]. rewrite Ha. mred.
  destruct (find_chn_new (cell_list a) n 0) as [(k & x & -> & Hk & Hx)| ->].
  - destruct (ch_addr_spec (chn_index n) k (chn_index_lt n)) as (Eb & Ep & Hc). cbn [Nat.add].
    assert (get_ch map (ch_addr (chn_index n) k) = Some x) as Hg by (apply get_ch_Some; rewrite Eb, Ep; split; [done|by exists a]).
    exists (ch_addr (chn_index n) k), map, x. split_and!; try done; [by right|]. intros y Hy. congruence.
  - cbn [all_memory ch_array_ok ch_cell_ok andb]. set (k := length (cell_list a)). pose proof (lookup_lt_Some _ _ _ Ha) as L1.
    destruct (ch_addr_spec (chn_index n) k (chn_index_lt n)) as (Eb & Ep & Hc).
    assert (cell_list (mk_ch_map_array (main_chns a) (extra_chns a ++ [zero_ch])) = cell_list a ++ [zero_ch]) as E
      by (unfold cell_list; cbn; by rewrite app_assoc).
    eexists _, _, zero_ch. split; [reflexivity|]. split_and!; try done.
    + unfold chns_shape. by rewrite length_insert.
    + apply get_ch_Some. rewrite Eb, Ep. split; [done|]. eexists. rewrite list_lookup_insert_eq by done. split; [reflexivity|].
      rewrite E. by rewrite list_lookup_middle.
    + by left.
    + intros y (_ & a' & Ha' & Hy)%get_ch_Some. rewrite Eb, Ha in Ha'. injection Ha' as <-. rewrite Ep in Hy. apply lookup_lt_Some in Hy. lia.
    + intros d Hd. unfold get_ch. case_decide as Hd1; [done|]. destruct (decide (ch_bucket d = chn_index n)) as [E1|N1].
      * rewrite E1, list_lookup_insert_eq, Ha by done. mred. rewrite E.
        assert (ch_place d <> k) as Hne by (intros E2; apply Hd, ch_ptr_inj; [lia|done|congruence|congruence]).
        destruct (decide (ch_place d < length (cell_list a))%nat); [by rewrite lookup_app_l|].
        rewrite !lookup_ge_None_2 by (rewrite ?length_app; cbn; lia). done.
      * by rewrite list_lookup_insert_ne.
Qed.

End chns.
