(* ===== verification/PermLink.v ===== *)
(** * The invariant of permissions, channels and timers

    [P], [C] and [T] are what the pointers of permissions, channels and timers read.  A
    channel and its owner point at each other, equal peers have one permission, a channel
    number has one channel, and every timer belongs to the slot or cell that holds it. *)

From S2P Require Import Prelude IoAddr StunHeader Buckets LmMap IoTimer Permission.

(** The channels of a permission by port. *)
Definition ports (t : turn_permission_info) : gmap Z Z := list_to_map (entries lm_live (pm_chns t)).
(** An address of one of the two families, with a 16-bit port. *)
Definition sock_addr (a : ioa_addr) : Prop := inet_addr a /\ 0 <= sin_port a < 2 ^ 16.
Definition peer_port (x : ch_info) : Z := addr_get_port (Some (ch_peer x)).

Lemma lm_rep_ports t M : lm_rep (pm_chns t) M -> M = ports t.
Proof. by intros [_ [_ ->]]. Qed.

Record perm_ok (C : Z -> option ch_info) (T : gmap Z timer_ctx) (p : perm_ptr) (t : turn_permission_info) : Prop := {
  po_bucket : p.1 = perm_index (Some (pm_addr t));
  po_inet : inet_addr (pm_addr t);
  po_owner : pm_owner t = true;
  po_timer : pm_ev t <> 0 -> T !! pm_ev t = Some (PermTimer p);
  po_map : lm_rep (pm_chns t) (ports t);
  po_chns : forall k c, ports t !! k = Some c ->
    exists x, C c = Some x /\ ch_allocated x = true /\ ch_owner x = Some p /\ peer_port x = k
}.

Record chn_ok (P : perm_ptr -> option turn_permission_info) (T : gmap Z timer_ctx) (c : Z) (x : ch_info) : Prop := {
  co_place : 1 <= c /\ ch_bucket c = chn_index (ch_chnum x);
  co_valid : STUN_VALID_CHANNEL (ch_chnum x) = true;
  co_inet : sock_addr (ch_peer x);
  co_port : 0 < peer_port x /\ ch_port x = peer_port x;
  co_timer : ch_ev x <> 0 -> T !! ch_ev x = Some (ChanTimer c);
  co_owner : exists p t, ch_owner x = Some p /\ P p = Some t /\ pm_allocated t = true /\
    addr_eqv_no_port (pm_addr t) (ch_peer x) /\ ports t !! peer_port x = Some c
}.

Definition timer_held (P : perm_ptr -> option turn_permission_info) (C : Z -> option ch_info) (h : Z) (x : timer_ctx) : Prop :=
  match x with
  | PermTimer p => exists t, P p = Some t /\ pm_allocated t = true /\ pm_ev t = h
  | ChanTimer c => exists y, C c = Some y /\ ch_allocated y = true /\ ch_ev y = h
  end.

Record linked (P : perm_ptr -> option turn_permission_info) (C : Z -> option ch_info) (T : gmap Z timer_ctx) : Prop := {
  lk_perm : forall p t, P p = Some t -> pm_allocated t = true -> perm_ok C T p t;
  lk_free_perm : forall p t, P p = Some t -> pm_allocated t = false -> pm_ev t = 0;
  lk_unique : forall p q t u, P p = Some t -> pm_allocated t = true -> P q = Some u -> pm_allocated u = true ->
    addr_eqv_no_port (pm_addr t) (pm_addr u) -> p = q;
  lk_chn : forall c x, C c = Some x -> ch_allocated x = true -> chn_ok P T c x;
  lk_free_chn : forall c x, C c = Some x -> ch_allocated x = false -> ch_ev x = 0;
  lk_chnum : forall c d x y, C c = Some x -> ch_allocated x = true -> C d = Some y -> ch_allocated y = true ->
    ch_chnum x = ch_chnum y -> c = d;
  lk_timers : forall h x, T !! h = Some x -> h <> 0 /\ timer_held P C h x
}.

(** [f'] is [f] with one value changed. *)
Definition upd {A B} `{EqDecision A} (f : A -> option B) (a : A) (b : B) (f' : A -> option B) : Prop :=
  forall x, f' x = if decide (x = a) then Some b else f x.

Lemma upd_eq {A B} `{EqDecision A} (f : A -> option B) a b f' : upd f a b f' -> f' a = Some b.
Proof. intros H. by rewrite H, decide_True. Qed.
Lemma upd_ne {A B} `{EqDecision A} (f : A -> option B) a b f' x : upd f a b f' -> x <> a -> f' x = f x.
Proof. intros H Hx. by rewrite H, decide_False. Qed.

(** Case analysis on a lookup in an updated memory. *)
Ltac upd_cases H := match type of H with ?f' ?x = Some _ =>
  match goal with Hu : upd _ ?a _ f' |- _ =>
    rewrite (Hu x) in H; destruct (decide (x = a)) as [->|?]; [injection H as <-|] end end.

(** A change of a permission that keeps what channels rely on. *)
Lemma chn_ok_perm P P' T T' c x p t t' :
  chn_ok P T c x -> P p = Some t -> upd P p t' P' -> pm_allocated t' = pm_allocated t -> pm_addr t' = pm_addr t ->
  (ch_owner x = Some p -> ports t' !! peer_port x = ports t !! peer_port x) ->
  (ch_ev x <> 0 -> T' !! ch_ev x = T !! ch_ev x) -> chn_ok P' T' c x.
Proof.
  intros [H1 H2 H3 H4 H5 (q & u & Ho & Hq & Ha & He & Hm)] Hp Hu Ea Ead Em Ht. split; try done.
  - intros Hne. rewrite Ht by done. by apply H5.
  - destruct (decide (q = p)) as [->|Hne].
    + rewrite Hp in Hq. injection Hq as <-. exists p, t'. rewrite (upd_eq _ _ _ _ Hu), Ea, Ead, Em by done. by split_and!.
    + exists q, u. rewrite (upd_ne _ _ _ _ _ Hu) by done. by split_and!.
Qed.

(** A change of a channel that keeps what permissions rely on. *)
Lemma perm_ok_chn C C' T T' c x x' p t :
  perm_ok C T p t -> C c = Some x -> upd C c x' C' ->
  (ch_allocated x = true -> ch_owner x = Some p -> ch_allocated x' = true /\ ch_owner x' = Some p /\ peer_port x' = peer_port x) ->
  (pm_ev t <> 0 -> T' !! pm_ev t = T !! pm_ev t) -> perm_ok C' T' p t.
Proof.
  intros [H1 H2 H3 H4 H5 H6] Hc Hu Hx Ht. split; try done.
  - intros Hne. rewrite Ht by done. by apply H4.
  - intros k d Hk. destruct (H6 k d Hk) as (y & Hy & Ha & Ho & Hp). destruct (decide (d = c)) as [->|Hne].
    + rewrite Hc in Hy. injection Hy as <-. destruct (Hx Ha Ho) as (A1 & A2 & A3). exists x'. rewrite (upd_eq _ _ _ _ Hu), A3. by split_and!.
    + exists y. by rewrite (upd_ne _ _ _ _ _ Hu).
Qed.

(** Timers of different owners are different. *)
Lemma timer_ne P C T p t c x :
  linked P C T -> P p = Some t -> pm_allocated t = true -> C c = Some x -> ch_allocated x = true -> pm_ev t <> 0 -> pm_ev t <> ch_ev x.
Proof.
  intros HL Hp Ha Hc Hx Hne E. pose proof (po_timer _ _ _ _ (lk_perm _ _ _ HL p t Hp Ha) Hne) as T1.
  assert (ch_ev x <> 0) as Hne' by congruence. pose proof (co_timer _ _ _ _ (lk_chn _ _ _ HL c x Hc Hx) Hne') as T2. congruence.
Qed.

Lemma perm_timer_ne P C T p t q u :
  linked P C T -> P p = Some t -> pm_allocated t = true -> P q = Some u -> pm_allocated u = true -> pm_ev t <> 0 -> p <> q -> pm_ev t <> pm_ev u.
Proof.
  intros HL Hp Ha Hq Hu Hne Hpq E. pose proof (po_timer _ _ _ _ (lk_perm _ _ _ HL p t Hp Ha) Hne) as T1.
  assert (pm_ev u <> 0) as Hne' by congruence. pose proof (po_timer _ _ _ _ (lk_perm _ _ _ HL q u Hq Hu) Hne') as T2. congruence.
Qed.

Lemma chn_timer_ne P C T c x d y :
  linked P C T -> C c = Some x -> ch_allocated x = true -> C d = Some y -> ch_allocated y = true -> ch_ev x <> 0 -> c <> d -> ch_ev x <> ch_ev y.
Proof.
  intros HL Hc Hx Hd Hy Hne Hcd E. pose proof (co_timer _ _ _ _ (lk_chn _ _ _ HL c x Hc Hx) Hne) as T1.
  assert (ch_ev y <> 0) as Hne' by congruence. pose proof (co_timer _ _ _ _ (lk_chn _ _ _ HL d y Hd Hy) Hne') as T2. congruence.
Qed.

(** ** Timers *)

Section arm.
Context (P : perm_ptr -> option turn_permission_info) (C : Z -> option ch_info) (T : gmap Z timer_ctx).
Context (HL : linked P C T).

(** A lookup of another timer in the changed timers. *)
Lemma timer_kept old h x k :
  delete old T !! h = None -> k <> 0 -> k <> old -> is_Some (T !! k) -> <[h := x]> (delete old T) !! k = T !! k.
Proof.
  intros Hh Hk Hne [y Hy]. assert (delete old T !! k = Some y) as Hd by (by rewrite lookup_delete_ne by congruence).
  rewrite lookup_insert_ne by congruence. congruence.
Qed.

Lemma perm_timer_is p t : P p = Some t -> pm_allocated t = true -> pm_ev t <> 0 -> is_Some (T !! pm_ev t).
Proof. intros Hp Ha Hne. exists (PermTimer p). by apply (po_timer _ _ _ _ (lk_perm _ _ _ HL p t Hp Ha)). Qed.
Lemma chn_timer_is c x : C c = Some x -> ch_allocated x = true -> ch_ev x <> 0 -> is_Some (T !! ch_ev x).
Proof. intros Hp Ha Hne. exists (ChanTimer c). by apply (co_timer _ _ _ _ (lk_chn _ _ _ HL c x Hp Ha)). Qed.

(** [update_turn_permission_lifetime]: the old timer goes, a new one is held. *)
Lemma arm_perm P' p t expiration h :
  P p = Some t -> pm_allocated t = true -> h <> 0 -> delete (pm_ev t) T !! h = None ->
  upd P p (mk_permission (pm_allocated t) (pm_chns t) (pm_addr t) expiration h (pm_owner t)) P' ->
  linked P' C (<[h := PermTimer p]> (delete (pm_ev t) T)).
Proof.
  intros Hp Ha Hh HT Hu. set (t' := mk_permission _ _ _ _ _ _) in Hu. set (T' := <[h := _]> _).
  assert (forall q u, P q = Some u -> pm_allocated u = true -> q <> p -> pm_ev u <> 0 -> T' !! pm_ev u = T !! pm_ev u) as Hkeep.
  { intros q u Hq Hua Hne Hev. apply timer_kept; [done|done| |by eapply perm_timer_is].
    by apply (perm_timer_ne P C T q u p t). }
  assert (forall c x, C c = Some x -> ch_allocated x = true -> ch_ev x <> 0 -> T' !! ch_ev x = T !! ch_ev x) as Hkeepc.
  { intros c x Hc Hx Hev. apply timer_kept; [done|done| |by eapply chn_timer_is]. intros E.
    apply (timer_ne P C T p t c x HL); try done. congruence. }
  split.
  - intros q u Hq Hua. upd_cases Hq.
    + pose proof (lk_perm _ _ _ HL p t Hp Ha) as [H1 H2 H3 H4 H5 H6]. split; try done. intros _. apply lookup_insert_eq.
    + pose proof (lk_perm _ _ _ HL q u Hq Hua) as [H1 H2 H3 H4 H5 H6]. split; try done. intros Hne. rewrite (Hkeep q u) by done. by apply H4.
  - intros q u Hq Hua. upd_cases Hq; [cbn in Hua; congruence|]. by apply (lk_free_perm _ _ _ HL q u).
  - intros q r u w Hq Hua Hr Hwa He. upd_cases Hq; upd_cases Hr; try done;
      [apply (lk_unique _ _ _ HL p r t w)|apply (lk_unique _ _ _ HL q p u t)|apply (lk_unique _ _ _ HL q r u w)]; done.
  - intros c x Hc Hx. apply (chn_ok_perm P P' T T' c x p t t'); try done; [by apply (lk_chn _ _ _ HL)|]. intros Hne. by apply (Hkeepc c x).
  - apply (lk_free_chn _ _ _ HL).
  - apply (lk_chnum _ _ _ HL).
  - intros k y [[<- <-]|[Hk [Hne Hy]%lookup_delete_Some]]%lookup_insert_Some.
    + split; [done|]. exists t'. by rewrite (upd_eq _ _ _ _ Hu).
    + destruct (lk_timers _ _ _ HL k y Hy) as [Hk0 Hheld]. split; [done|]. destruct y as [q|c]; [|done].
      destruct Hheld as (u & Hq & Hua & <-). destruct (decide (q = p)) as [->|Hqp]; [congruence|].
      exists u. by rewrite (upd_ne _ _ _ _ _ Hu).
Qed.

(** [update_channel_lifetime] for the timer of the channel. *)
Lemma arm_chn C' c x expiration h :
  C c = Some x -> ch_allocated x = true -> h <> 0 -> delete (ch_ev x) T !! h = None ->
  upd C c (mk_ch_info (ch_allocated x) (ch_chnum x) (ch_port x) (ch_peer x) expiration h (ch_owner x) (ch_kernel x)) C' ->
  linked P C' (<[h := ChanTimer c]> (delete (ch_ev x) T)).
Proof.
  intros Hc Hx Hh HT Hu. set (x' := mk_ch_info _ _ _ _ _ _ _ _) in Hu. set (T' := <[h := _]> _).
  assert (forall d y, C d = Some y -> ch_allocated y = true -> d <> c -> ch_ev y <> 0 -> T' !! ch_ev y = T !! ch_ev y) as Hkeep.
  { intros d y Hd Hy Hne Hev. apply timer_kept; [done|done| |by eapply chn_timer_is]. by apply (chn_timer_ne P C T d y c x). }
  split.
  - intros q u Hq Hua. apply (perm_ok_chn C C' T T' c x x' q u); try done; [by apply (lk_perm _ _ _ HL)|].
    intros Hne. apply timer_kept; [done|done| |by eapply perm_timer_is]. by apply (timer_ne P C T q u c x).
  - apply (lk_free_perm _ _ _ HL).
  - apply (lk_unique _ _ _ HL).
  - intros d y Hd Hy. upd_cases Hd.
    + pose proof (lk_chn _ _ _ HL c x Hc Hx) as [H1 H2 H3 H4 H5 H6]. split; try done. intros _. apply lookup_insert_eq.
    + pose proof (lk_chn _ _ _ HL d y Hd Hy) as [H1 H2 H3 H4 H5 H6]. split; try done. intros Hne. rewrite (Hkeep d y) by done. by apply H5.
  - intros d y Hd Hy. upd_cases Hd; [cbn in Hy; congruence|]. by apply (lk_free_chn _ _ _ HL d y).
  - intros d e y z Hd Hy He Hz E. upd_cases Hd; upd_cases He; try done;
      [apply (lk_chnum _ _ _ HL c e x z)|apply (lk_chnum _ _ _ HL d c y x)|apply (lk_chnum _ _ _ HL d e y z)]; done.
  - intros k y [[<- <-]|[Hk [Hne Hy]%lookup_delete_Some]]%lookup_insert_Some.
    + split; [done|]. exists x'. by rewrite (upd_eq _ _ _ _ Hu).
    + destruct (lk_timers _ _ _ HL k y Hy) as [Hk0 Hheld]. split; [done|]. destruct y as [q|d]; [done|].
      destruct Hheld as (y & Hd & Hya & <-). destruct (decide (d = c)) as [->|Hdc]; [congruence|].
      exists y. by rewrite (upd_ne _ _ _ _ _ Hu).
Qed.

(** A field of a channel that no other structure looks at. *)
Lemma touch_chn C' c x kernel :
  C c = Some x ->
  upd C c (mk_ch_info (ch_allocated x) (ch_chnum x) (ch_port x) (ch_peer x) (ch_expiration x) (ch_ev x) (ch_owner x) kernel) C' ->
  linked P C' T.
Proof.
  intros Hc Hu. set (x' := mk_ch_info _ _ _ _ _ _ _ _) in Hu. split.
  - intros q u Hq Hua. apply (perm_ok_chn C C' T T c x x' q u); try done. by apply (lk_perm _ _ _ HL).
  - apply (lk_free_perm _ _ _ HL).
  - apply (lk_unique _ _ _ HL).
  - intros d y Hd Hy. upd_cases Hd; [|by apply (lk_chn _ _ _ HL)]. pose proof (lk_chn _ _ _ HL c x Hc Hy) as []. by split.
  - intros d y Hd Hy. upd_cases Hd; [by apply (lk_free_chn _ _ _ HL c x)|by apply (lk_free_chn _ _ _ HL d y)].
  - intros d e y z Hd Hy He Hz E. upd_cases Hd; upd_cases He; try done;
      [apply (lk_chnum _ _ _ HL c e x z)|apply (lk_chnum _ _ _ HL d c y x)|apply (lk_chnum _ _ _ HL d e y z)]; done.
  - intros h y Hy. destruct (lk_timers _ _ _ HL h y Hy) as [Hh Hheld]. split; [done|]. destruct y as [q|d]; [done|].
    destruct Hheld as (z & Hd & Hz & <-). destruct (decide (d = c)) as [->|Hne].
    + exists x'. rewrite (upd_eq _ _ _ _ Hu). rewrite Hc in Hd. by injection Hd as <-.
    + exists z. by rewrite (upd_ne _ _ _ _ _ Hu).
Qed.

(** ** New permissions and channels *)

(** [allocation_add_permission] for a peer without permission. *)
Lemma add_perm P' p addr :
  (forall t, P p = Some t -> pm_allocated t = false) -> p.1 = perm_index (Some addr) -> inet_addr addr ->
  (forall q t, P q = Some t -> pm_allocated t = true -> ~ addr_eqv_no_port (pm_addr t) addr) ->
  upd P p (new_permission addr) P' -> linked P' C T.
Proof.
  intros Hfree Hb Hinet Hno Hu. pose proof lm_map_init_rep as Hinit.
  assert (forall q t, P q = Some t -> pm_allocated t = true -> q <> p) as Hne.
  { intros q t Hq Ha ->. rewrite (Hfree t Hq) in Ha. done. }
  split.
  - intros q u Hq Hua. upd_cases Hq; [|by apply (lk_perm _ _ _ HL)].
    assert (ports (new_permission addr) = ∅) as E by (symmetry; by apply lm_rep_ports).
    split; [done..|by rewrite E|intros k c; by rewrite E, lookup_empty].
  - intros q u Hq Hua. upd_cases Hq; [done|]. by apply (lk_free_perm _ _ _ HL q u).
  - intros q r u w Hq Hua Hr Hwa He. upd_cases Hq; upd_cases Hr; try done; cbn in He.
    + exfalso. by apply (Hno r w); [..|symmetry].
    + exfalso. by apply (Hno q u).
    + by apply (lk_unique _ _ _ HL q r u w).
  - intros c x Hc Hx. pose proof (lk_chn _ _ _ HL c x Hc Hx) as [H1 H2 H3 H4 H5 (q & u & Ho & Hq & Ha & He & Hm)].
    split; try done. exists q, u. rewrite (upd_ne _ _ _ _ _ Hu) by by eapply Hne. by split_and!.
  - apply (lk_free_chn _ _ _ HL).
  - apply (lk_chnum _ _ _ HL).
  - intros h y Hy. destruct (lk_timers _ _ _ HL h y Hy) as [Hh Hheld]. split; [done|]. destruct y as [q|d]; [|done].
    destruct Hheld as (u & Hq & Hua & <-). exists u. by rewrite (upd_ne _ _ _ _ _ Hu) by by eapply Hne.
Qed.


(** [t] with another local map. *)
Definition with_chns (t : turn_permission_info) (m : lm_map) : turn_permission_info :=
  mk_permission (pm_allocated t) m (pm_addr t) (pm_expiration t) (pm_ev t) (pm_owner t).

(** The lookup of an allocated channel or permission is not at a free place. *)
Lemma allocated_ne c d y : (forall x, C c = Some x -> ch_allocated x = false) -> C d = Some y -> ch_allocated y = true -> d <> c.
Proof. intros Hfree Hd Hy ->. rewrite (Hfree y Hd) in Hy. done. Qed.

(** [allocation_get_new_ch_info]: a free cell becomes a channel of the permission [p]. *)
Lemma add_chn P' C' p t c n peer m expiration kernel :
  P p = Some t -> pm_allocated t = true -> (forall x, C c = Some x -> ch_allocated x = false) ->
  1 <= c -> ch_bucket c = chn_index n -> STUN_VALID_CHANNEL n = true ->
  (forall d y, C d = Some y -> ch_allocated y = true -> ch_chnum y <> n) ->
  sock_addr peer -> 0 < addr_get_port (Some peer) -> addr_eqv_no_port (pm_addr t) peer ->
  ports t !! addr_get_port (Some peer) = None -> lm_rep m (<[addr_get_port (Some peer) := c]> (ports t)) ->
  upd C c (mk_ch_info true n (addr_get_port (Some peer)) peer expiration 0 (Some p) kernel) C' ->
  upd P p (with_chns t m) P' -> linked P' C' T.
Proof.
  intros Hp Ha Hfree Hc Hb Hv Hnum Hinet Hport He Hnone Hm HuC HuP. set (x' := mk_ch_info _ _ _ _ _ _ _ _) in HuC.
  assert (ports (with_chns t m) = <[peer_port x' := c]> (ports t)) as Eports by (symmetry; by apply lm_rep_ports).
  assert (forall d y, C d = Some y -> ch_allocated y = true -> C' d = Some y) as Hold.
  { intros d y Hd Hy. rewrite (upd_ne _ _ _ _ _ HuC); [done|]. by apply (allocated_ne c d y). }
  split.
  - intros q u Hq Hua. upd_cases Hq.
    + pose proof (lk_perm _ _ _ HL p t Hp Ha) as [H1 H2 H3 H4 H5 H6]. split; try done; [by rewrite Eports|].
      rewrite Eports. intros k d [[<- <-]|[_ Hk]]%lookup_insert_Some; [exists x'; by rewrite (upd_eq _ _ _ _ HuC)|].
      destruct (H6 k d Hk) as (y & Hy & Hya & Hr). exists y. split_and!; [by apply Hold|done|apply Hr..].
    + pose proof (lk_perm _ _ _ HL q u Hq Hua) as [H1 H2 H3 H4 H5 H6]. split; try done.
      intros k d Hk. destruct (H6 k d Hk) as (y & Hy & Hya & Hr). exists y. split_and!; [by apply Hold|done|apply Hr..].
  - intros q u Hq Hua. upd_cases Hq; [cbn in Hua; congruence|]. by apply (lk_free_perm _ _ _ HL q u).
  - intros q r u w Hq Hua Hr Hwa Heq. upd_cases Hq; upd_cases Hr; try done;
      [apply (lk_unique _ _ _ HL p r t w)|apply (lk_unique _ _ _ HL q p u t)|apply (lk_unique _ _ _ HL q r u w)]; done.
  - intros d y Hd Hy. upd_cases Hd.
    + split; try done. exists p, (with_chns t m). rewrite (upd_eq _ _ _ _ HuP), Eports, lookup_insert_eq. by split_and!.
    + apply (chn_ok_perm P P' T T d y p t (with_chns t m)); try done; [by apply (lk_chn _ _ _ HL)|].
      intros Ho. rewrite Eports. apply lookup_insert_ne. intros E. change (peer_port x') with (addr_get_port (Some peer)) in E.
      destruct (co_owner _ _ _ _ (lk_chn _ _ _ HL d y Hd Hy)) as (q & u & Ho' & Hq & _ & _ & Hk).
      rewrite Ho in Ho'. injection Ho' as <-. rewrite Hp in Hq. injection Hq as <-. rewrite <- E in Hk. congruence.
  - intros d y Hd Hy. upd_cases Hd; [done|]. by apply (lk_free_chn _ _ _ HL d y).
  - intros d e y z Hd Hy Hez Hz E. upd_cases Hd; upd_cases Hez; try done; cbn in E.
    + exfalso. by apply (Hnum e z).
    + exfalso. by apply (Hnum d y).
    + by apply (lk_chnum _ _ _ HL d e y z).
  - intros h y Hy. destruct (lk_timers _ _ _ HL h y Hy) as [Hh Hheld]. split; [done|]. destruct y as [q|d].
    + destruct Hheld as (u & Hq & Hua & <-). destruct (decide (q = p)) as [->|Hne].
      * exists (with_chns t m). rewrite (upd_eq _ _ _ _ HuP). split_and!; [done..|]. cbn. congruence.
      * exists u. by rewrite (upd_ne _ _ _ _ _ HuP).
    + destruct Hheld as (z & Hd & Hz & <-). exists z. split_and!; [by apply Hold|done..].
Qed.

(** [turn_channel_delete]: the cell is cleaned and the permission forgets it. *)
Lemma del_chn P' C' p t c x m :
  C c = Some x -> ch_allocated x = true -> ch_owner x = Some p -> P p = Some t ->
  lm_rep m (delete (peer_port x) (ports t)) -> upd C c zero_ch C' -> upd P p (with_chns t m) P' ->
  linked P' C' (delete (ch_ev x) T).
Proof.
  intros Hc Hx Ho Hp Hm HuC HuP. pose proof (lk_chn _ _ _ HL c x Hc Hx) as Hok.
  destruct (co_owner _ _ _ _ Hok) as (p' & t' & Ho' & Hp' & Ha & _ & Hk). rewrite Ho in Ho'. injection Ho' as <-.
  rewrite Hp in Hp'. injection Hp' as <-. set (T' := delete _ _).
  assert (ports (with_chns t m) = delete (peer_port x) (ports t)) as Eports by (symmetry; by apply lm_rep_ports).
  assert (forall q u, P q = Some u -> pm_allocated u = true -> pm_ev u <> 0 -> T' !! pm_ev u = T !! pm_ev u) as Hkeep.
  { intros q u Hq Hua Hne. apply lookup_delete_ne. intros E. symmetry in E. revert E. by apply (timer_ne P C T q u c x). }
  split.
  - intros q u Hq Hua. upd_cases Hq.
    + pose proof (lk_perm _ _ _ HL p t Hp Ha) as [H1 H2 H3 H4 H5 H6]. split; try done; [|by rewrite Eports|].
      * intros Hne. cbn. rewrite (Hkeep p t) by done. by apply H4.
      * rewrite Eports. intros k d [Hne Hd]%lookup_delete_Some. destruct (H6 k d Hd) as (y & Hy & Hr). exists y.
        rewrite (upd_ne _ _ _ _ _ HuC); [done|]. intros ->. rewrite Hc in Hy. injection Hy as <-. by destruct Hr as (_ & _ & ?).
    + pose proof (lk_perm _ _ _ HL q u Hq Hua) as [H1 H2 H3 H4 H5 H6]. split; try done.
      * intros Hne. rewrite (Hkeep q u) by done. by apply H4.
      * intros k d Hd. destruct (H6 k d Hd) as (y & Hy & Hr). exists y.
        rewrite (upd_ne _ _ _ _ _ HuC); [done|]. intros ->. rewrite Hc in Hy. injection Hy as <-. destruct Hr as (_ & Hr & _). congruence.
  - intros q u Hq Hua. upd_cases Hq; [cbn in Hua; congruence|]. by apply (lk_free_perm _ _ _ HL q u).
  - intros q r u w Hq Hua Hr Hwa Heq. upd_cases Hq; upd_cases Hr; try done;
      [apply (lk_unique _ _ _ HL p r t w)|apply (lk_unique _ _ _ HL q p u t)|apply (lk_unique _ _ _ HL q r u w)]; done.
  - intros d y Hd Hy. upd_cases Hd; [done|].
    apply (chn_ok_perm P P' T T' d y p t (with_chns t m)); try done; [by apply (lk_chn _ _ _ HL)| |].
    + intros Hod. rewrite Eports. apply lookup_delete_ne. intros E.
      destruct (co_owner _ _ _ _ (lk_chn _ _ _ HL d y Hd Hy)) as (q & u & Ho' & Hq & _ & _ & Hk').
      rewrite Hod in Ho'. injection Ho' as <-. rewrite Hp in Hq. injection Hq as <-. rewrite <- E in Hk'. congruence.
    + intros Hne. apply lookup_delete_ne. intros E. symmetry in E. revert E. by apply (chn_timer_ne P C T d y c x).
  - intros d y Hd Hy. upd_cases Hd; [done|]. by apply (lk_free_chn _ _ _ HL d y).
  - intros d e y z Hd Hy Hez Hz E. upd_cases Hd; upd_cases Hez; try done. by apply (lk_chnum _ _ _ HL d e y z).
  - intros h y [Hne Hy]%lookup_delete_Some. destruct (lk_timers _ _ _ HL h y Hy) as [Hh Hheld]. split; [done|].
    destruct y as [q|d].
    + destruct Hheld as (u & Hq & Hua & <-). destruct (decide (q = p)) as [->|Hqp].
      * exists (with_chns t m). rewrite (upd_eq _ _ _ _ HuP). split_and!; [done..|]. cbn. congruence.
      * exists u. by rewrite (upd_ne _ _ _ _ _ HuP).
    + destruct Hheld as (z & Hd & Hz & <-). exists z. rewrite (upd_ne _ _ _ _ _ HuC); [done|]. intros ->. congruence.
Qed.

(** The end of [turn_permission_clean]: a permission without channels goes. *)
Lemma drop_perm P' p t :
  P p = Some t -> pm_allocated t = true -> ports t = ∅ -> upd P p zero_permission P' -> linked P' C (delete (pm_ev t) T).
Proof.
  intros Hp Ha Hnil Hu. set (T' := delete _ _).
  split.
  - intros q u Hq Hua. upd_cases Hq; [done|]. pose proof (lk_perm _ _ _ HL q u Hq Hua) as [H1 H2 H3 H4 H5 H6]. split; try done.
    intros Hne. unfold T'. rewrite lookup_delete_ne; [by apply H4|]. intros E. symmetry in E. revert E. by apply (perm_timer_ne P C T q u p t).
  - intros q u Hq Hua. upd_cases Hq; [done|]. by apply (lk_free_perm _ _ _ HL q u).
  - intros q r u w Hq Hua Hr Hwa Heq. upd_cases Hq; upd_cases Hr; try done. by apply (lk_unique _ _ _ HL q r u w).
  - intros d y Hd Hy. pose proof (lk_chn _ _ _ HL d y Hd Hy) as [H1 H2 H3 H4 H5 (q & u & Ho & Hq & Hua & He & Hm)]. split; try done.
    + intros Hne. unfold T'. rewrite lookup_delete_ne; [by apply H5|]. intros E. apply (timer_ne P C T p t d y HL); try done. congruence.
    + exists q, u. rewrite (upd_ne _ _ _ _ _ Hu); [by split_and!|]. intros ->. rewrite Hp in Hq. injection Hq as <-.
      by rewrite Hnil, lookup_empty in Hm.
  - apply (lk_free_chn _ _ _ HL).
  - apply (lk_chnum _ _ _ HL).
  - intros h y [Hne Hy]%lookup_delete_Some. destruct (lk_timers _ _ _ HL h y Hy) as [Hh Hheld]. split; [done|].
    destruct y as [q|d]; [|done]. destruct Hheld as (u & Hq & Hua & <-). exists u. rewrite (upd_ne _ _ _ _ _ Hu); [done|].
    intros ->. congruence.
Qed.

End arm.
