(* ===== verification/PermFacts.v ===== *)
(** * Operations on permissions and channels keep the tables linked *)

From S2P Require Import Prelude IoAddr StunHeader Buckets LmMap IoTimer Permission PermMem PermLink.

Lemma inet_port a : inet_addr a -> addr_get_port (Some a) = nswap16 (sin_port a).
Proof. intros [E|E]; unfold addr_get_port; rewrite E; [done|]. by rewrite decide_False, decide_True. Qed.

Lemma port_range a : sock_addr a -> 0 <= addr_get_port (Some a) < 2 ^ 16.
Proof. intros [Hi _]. rewrite inet_port by done. apply (nswap_range 2). Qed.

(** Addresses are equal when hosts and ports are. *)
Lemma addr_eqv_ports a b :
  sock_addr a -> sock_addr b -> (addr_eqv a b <-> addr_eqv_no_port a b /\ addr_get_port (Some a) = addr_get_port (Some b)).
Proof.
  intros [Ha Hpa] [Hb Hpb]. rewrite !inet_port by done. unfold addr_eqv, addr_eqv_no_port. rewrite addr_eq_spec, addr_eq_no_port_spec.
  assert (sin_port a = sin_port b <-> nswap16 (sin_port a) = nswap16 (sin_port b)) as ->; [|tauto].
  split; [congruence|]. intros E. rewrite <- (nswap_involutive 2 (sin_port a)), <- (nswap_involutive 2 (sin_port b)) by lia. congruence.
Qed.

Record tables_ok (s : tables) : Prop := {
  ts_engine : engine_ok (tb_engine s);
  ts_perms : perms_shape (tb_perms s);
  ts_chns : chns_shape (tb_chns s);
  ts_linked : linked (get_perm (tb_perms s)) (get_ch (tb_chns s)) (timers (tb_engine s))
}.

Abbreviation perm_at s p := (get_perm (tb_perms s) p).
Abbreviation chn_at s c := (get_ch (tb_chns s) c).
Abbreviation timers_of s := (timers (tb_engine s)).

(** What is allocated. *)
Definition is_perm (s : tables) (p : perm_ptr) (t : turn_permission_info) : Prop := perm_at s p = Some t /\ pm_allocated t = true.
Definition is_chn (s : tables) (c : Z) (x : ch_info) : Prop := chn_at s c = Some x /\ ch_allocated x = true.

Definition init_tables : tables := mk_tables no_timers init_turn_permission_hashtable init_ch_map.

Lemma init_perm p t : perm_at init_tables p = Some t -> t = zero_permission.
Proof.
  intros (a & Ha & Ht)%get_perm_Some. unfold init_tables, init_turn_permission_hashtable, init_ch_map, tb_perms, tb_chns in Ha. apply lookup_replicate in Ha as [-> _].
  change (slot_list _) with (replicate 3 (Some zero_permission)) in Ht. apply lookup_replicate in Ht as [Ht _]. congruence.
Qed.

Lemma init_chn c x : chn_at init_tables c = Some x -> x = zero_ch.
Proof.
  intros (_ & a & Ha & Ht)%get_ch_Some. unfold init_tables, init_turn_permission_hashtable, init_ch_map, tb_perms, tb_chns in Ha. apply lookup_replicate in Ha as [-> _].
  change (cell_list _) with (replicate 3 zero_ch) in Ht. by apply lookup_replicate in Ht as [-> _].
Qed.

Lemma init_tables_ok : tables_ok init_tables.
Proof.
  split; [apply no_timers_ok|split; [done|]|done|].
  - apply Forall_replicate. by repeat constructor.
  - split.
    + intros p t ->%init_perm. done.
    + intros p t ->%init_perm. done.
    + intros p q t u ->%init_perm. done.
    + intros c x ->%init_chn. done.
    + intros c x ->%init_chn. done.
    + intros c d x y ->%init_chn. done.
    + intros h x H. exfalso. by apply (lookup_empty_Some h x).
Qed.

Lemma clean_cell cm e c x :
  chns_shape cm -> engine_ok e -> get_ch cm c = Some x -> (ch_ev x <> 0 -> is_Some (timers e !! ch_ev x)) ->
  exists e' chns, ch_info_clean e cm c = Some (e', chns) /\ engine_ok e' /\ timers e' = delete (ch_ev x) (timers e) /\
    chns_shape chns /\ upd (get_ch cm) c zero_ch (get_ch chns).
Proof.
  intros Hsh He Hc Ht. unfold ch_info_clean. rewrite Hc. mred.
  destruct (event_del_spec e (ch_ev x) He Ht) as (e' & -> & He' & _ & Et). mred.
  destruct (set_ch_spec _ c zero_ch x Hsh Hc) as (chns & -> & Hsh' & Hget). mred. by exists e', chns.
Qed.

Section tables.
Context (s : tables) (Hs : tables_ok s).
Let HL := ts_linked _ Hs.

(** ** Searching *)

Lemma find_perm addr :
  inet_addr addr ->
  (exists p t, allocation_get_permission s (Some addr) = Some (Some p) /\ is_perm s p t /\ addr_eqv_no_port (pm_addr t) addr) \/
  (allocation_get_permission s (Some addr) = Some None /\ forall p t, is_perm s p t -> ~ addr_eqv_no_port (pm_addr t) addr).
Proof.
  intros Hi. destruct (get_from_spec _ (ts_perms _ Hs) addr) as [(p & t & Hg & _ & Hp & Ha & He)|[Hg Hn]].
  - left. by exists p, t.
  - right. split; [done|]. intros p t [Hp Ha] He. apply (Hn p t); try done.
    rewrite (po_bucket _ _ _ _ (lk_perm _ _ _ HL p t Hp Ha)). unfold perm_index. by rewrite (addr_hash_no_port_proper _ _ He).
Qed.

Lemma find_channel n :
  (exists c x, allocation_get_ch_info s n = Some (Some c) /\ is_chn s c x /\ ch_chnum x = n) \/
  (allocation_get_ch_info s n = Some None /\ forall c x, is_chn s c x -> ch_chnum x <> n).
Proof.
  unfold allocation_get_ch_info. destruct (ch_get_old _ (ts_chns _ Hs) n) as [(c & x & -> & Hc & Ha & Hn)|[-> Hn]]; mred.
  - left. by exists c, x.
  - right. split; [done|]. intros c x [Hc Ha] E. apply (Hn c x); try done.
    rewrite (proj2 (co_place _ _ _ _ (lk_chn _ _ _ HL c x Hc Ha))). by rewrite E.
Qed.

(** The channel of a permission for a port. *)
Lemma perm_channel p t addr :
  is_perm s p t -> 0 < addr_get_port (Some addr) ->
  (exists c x, get_turn_channel s p addr = Some (Some c) /\ get_turn_channel_number s p addr = Some (ch_chnum x) /\
     is_chn s c x /\ ch_owner x = Some p /\ peer_port x = addr_get_port (Some addr) /\ ports t !! addr_get_port (Some addr) = Some c) \/
  (get_turn_channel s p addr = Some None /\ get_turn_channel_number s p addr = Some 0 /\ ports t !! addr_get_port (Some addr) = None).
Proof.
  intros [Hp Ha] Hport. pose proof (lk_perm _ _ _ HL p t Hp Ha) as Hok. unfold get_turn_channel, get_turn_channel_number. rewrite Hp. mred.
  rewrite (lm_map_get_rep _ _ _ (po_map _ _ _ _ Hok)) by lia. mred. destruct (ports t !! addr_get_port (Some addr)) as [c|] eqn:E; [|by right].
  left. destruct (po_chns _ _ _ _ Hok _ c E) as (x & Hc & Hx & Ho & Hq). pose proof (lk_chn _ _ _ HL c x Hc Hx) as Hokc.
  destruct (co_place _ _ _ _ Hokc) as [Hc1 _]. rewrite !decide_False by lia. rewrite Hc. mred.
  rewrite (co_valid _ _ _ _ Hokc). exists c, x. by split_and!.
Qed.

Lemma zero_port_channel p t addr :
  is_perm s p t -> addr_get_port (Some addr) = 0 -> get_turn_channel s p addr = Some None.
Proof. intros [Hp Ha] Hport. unfold get_turn_channel. rewrite Hp. mred. by rewrite Hport. Qed.

(** ** Adding *)

Lemma add_permission_ok addr :
  inet_addr addr -> (forall p t, is_perm s p t -> ~ addr_eqv_no_port (pm_addr t) addr) ->
  exists p perms, allocation_add_permission all_memory (tb_perms s) (Some addr) = Some (Some p, perms) /\
    let s' := mk_tables (tb_engine s) perms (tb_chns s) in
    tables_ok s' /\ (forall t, perm_at s p = Some t -> pm_allocated t = false) /\
    upd (get_perm (tb_perms s)) p (new_permission addr) (get_perm perms).
Proof.
  intros Hi Hno. destruct (add_permission_spec _ (ts_perms _ Hs) addr) as (p & perms & Hadd & Hsh & Hb & Hfree & Hget).
  exists p, perms. split; [done|]. split_and!; [|done|done]. split; cbn; [apply Hs|done|apply Hs|].
  apply (add_perm _ _ _ HL _ p addr); try done. intros q t Hq Ha. by apply (Hno q t).
Qed.

(** A channel for a peer whose permission [p] has none at the port. *)
Lemma new_channel_ok p t n peer :
  is_perm s p t -> addr_eqv_no_port (pm_addr t) peer -> sock_addr peer -> 0 < addr_get_port (Some peer) ->
  STUN_VALID_CHANNEL n = true -> (forall c x, is_chn s c x -> ch_chnum x <> n) -> ports t !! addr_get_port (Some peer) = None ->
  exists c x m chns perms,
    (r ← ch_map_get all_memory (tb_chns s) n true;
     let '(chn, cs) := r in
     match chn with
     | None => Some (None, mk_tables (tb_engine s) (tb_perms s) cs)
     | Some chn =>
       x ← get_ch cs chn;
       let port := addr_get_port (Some peer) in
       cs ← set_ch cs chn (mk_ch_info true n (u16 port) peer (ch_expiration x) (ch_ev x) (Some p) (ch_kernel x));
       t ← get_perm (tb_perms s) p;
       '(_, m) ← lm_map_put (pm_chns t) port chn (lm_cell_ok all_memory);
       ps ← set_perm (tb_perms s) p (mk_permission (pm_allocated t) m (pm_addr t) (pm_expiration t) (pm_ev t) (pm_owner t));
       Some (Some chn, mk_tables (tb_engine s) ps cs)
     end) = Some (Some c, mk_tables (tb_engine s) perms chns) /\
    tables_ok (mk_tables (tb_engine s) perms chns) /\
    (forall y, chn_at s c = Some y -> ch_allocated y = false) /\
    x = mk_ch_info true n (addr_get_port (Some peer)) peer (ch_expiration x) 0 (Some p) (ch_kernel x) /\
    upd (get_ch (tb_chns s)) c x (get_ch chns) /\ upd (get_perm (tb_perms s)) p (with_chns t m) (get_perm perms).
Proof.
  intros [Hp Ha] He Hi Hport Hv Hnum Hnone. pose proof (lk_perm _ _ _ HL p t Hp Ha) as Hok.
  destruct (ch_get_new _ (ts_chns _ Hs) n) as (c & cs & y & -> & Hsh & Hb & Hc & Hy & Hya & Hzero & Hfree & Hsame). mred. rewrite Hy. mred.
  assert (ch_ev y = 0) as Hev by (destruct Hzero as [->|Hy0]; [done|by apply (lk_free_chn _ _ _ HL c y)]).
  assert (forall z, chn_at s c = Some z -> ch_allocated z = false) as Hfree' by (intros z Hz; by rewrite (Hfree z Hz)).
  rewrite (wrap_small 16) by (pose proof (port_range peer Hi); lia). rewrite Hev.
  set (x := mk_ch_info true n (addr_get_port (Some peer)) peer (ch_expiration y) 0 (Some p) (ch_kernel y)).
  destruct (set_ch_spec cs c x y Hsh Hy) as (cs' & -> & Hsh' & Hget). mred. rewrite Hp. mred. change (lm_cell_ok all_memory) with true.
  destruct (lm_map_put_rep _ _ (addr_get_port (Some peer)) c (po_map _ _ _ _ Hok)) as (m & -> & Hm); [lia|lia|done|]. mred.
  destruct (set_perm_spec _ p (with_chns t m) t (ts_perms _ Hs) Hp) as (ps & Hps & Hshp & Hgetp). unfold with_chns in Hps. rewrite Hps. mred.
  assert (upd (get_ch (tb_chns s)) c x (get_ch cs')) as Hu.
  { intros d. rewrite Hget. case_decide as E; [done|]. by apply Hsame. }
  exists c, x, m, cs', ps. split_and!; try done. split; cbn; [apply Hs|done|done|].
  by apply (add_chn _ _ _ HL _ _ p t c n peer m (ch_expiration y) (ch_kernel y)); try done; intros d z Hd Hz; by apply (Hnum d z).
Qed.

(** ** Deleting *)

Lemma delete_channel_ok c x :
  is_chn s c x -> exists s' p t m, turn_channel_delete s c = Some s' /\ tables_ok s' /\
    ch_owner x = Some p /\ is_perm s p t /\ addr_eqv_no_port (pm_addr t) (ch_peer x) /\
    upd (get_ch (tb_chns s)) c zero_ch (get_ch (tb_chns s')) /\ upd (get_perm (tb_perms s)) p (with_chns t m) (get_perm (tb_perms s')).
Proof.
  intros [Hc Hx]. pose proof (lk_chn _ _ _ HL c x Hc Hx) as Hok. destruct (co_owner _ _ _ _ Hok) as (p & t & Ho & Hp & Ha & He & Hm).
  unfold turn_channel_delete. rewrite Hc. mred. rewrite Ho, Hp. mred. destruct (co_port _ _ _ _ Hok) as [Hport _].
  change (addr_get_port (Some (ch_peer x))) with (peer_port x).
  destruct (lm_map_del_rep _ _ (peer_port x) (po_map _ _ _ _ (lk_perm _ _ _ HL p t Hp Ha))) as (m & -> & Hrep); [lia|]. mred.
  destruct (set_perm_spec _ p (with_chns t m) t (ts_perms _ Hs) Hp) as (ps & Hps & Hshp & Hgetp). unfold with_chns in Hps. rewrite Hps. mred.
  unfold delete_channel_info_from_allocation_map. destruct (co_place _ _ _ _ Hok) as [Hc1 _]. rewrite decide_False by lia. mred.
  destruct (clean_cell _ _ c x (ts_chns _ Hs) (ts_engine _ Hs) Hc) as (e' & chns & -> & He' & Et & Hsh & Hu);
    [intros Hne; exists (ChanTimer c); by apply (co_timer _ _ _ _ Hok)|]. mred.
  eexists _, p, t, m. split; [reflexivity|]. split_and!; try done. split; cbn; [done..|]. rewrite Et.
  by apply (del_chn _ _ _ HL _ _ p t c x m).
Qed.

End tables.

(** The visit of [turn_permission_clean].  The permission [p] is in a state [tv] that
    forgets each channel as it is cleaned; its own timer is already deleted. *)
Lemma clean_loop p l : forall cm e P T tv,
  linked P (get_ch cm) T -> chns_shape cm -> engine_ok e -> timers e = delete (pm_ev tv) T ->
  P p = Some tv -> pm_allocated tv = true -> represents l (ports tv) ->
  exists e' cm' P' T' tv', visit delete_channel_info_from_allocation_map l (Some (e, cm)) = (false, Some (e', cm')) /\
    linked P' (get_ch cm') T' /\ chns_shape cm' /\ engine_ok e' /\ timers e' = delete (pm_ev tv) T' /\
    P' p = Some tv' /\ pm_allocated tv' = true /\ pm_ev tv' = pm_ev tv /\ ports tv' = ∅ /\
    (forall q, q <> p -> P' q = P q) /\ (forall d, get_ch cm' d = if decide (d ∈ l.*2) then Some zero_ch else get_ch cm d).
Proof.
  induction l as [|[k c] l IH]; intros cm e P T tv HL Hsh He Et Hp Ha Hr; cbn [visit].
  - exists e, cm, P, T, tv. split_and!; try done. by destruct Hr as [_ ->].
  - pose proof (lk_perm _ _ _ HL p tv Hp Ha) as Hok.
    assert (ports tv !! k = Some c) as Hk by (apply (represents_lookup _ _ _ _ Hr); left).
    destruct (po_chns _ _ _ _ Hok k c Hk) as (x & Hc & Hx & Ho & Hport). pose proof (lk_chn _ _ _ HL c x Hc Hx) as Hokc.
    destruct (co_place _ _ _ _ Hokc) as [Hc1 _]. destruct (co_port _ _ _ _ Hokc) as [Hport0 _].
    unfold delete_channel_info_from_allocation_map at 1. rewrite decide_False by lia. cbn [mbind option_bind].
    destruct (clean_cell cm e c x Hsh He Hc) as (e1 & cm1 & -> & He1 & Et1 & Hsh1 & Hu1).
    { intros Hne. exists (ChanTimer c). rewrite Et, lookup_delete_ne; [by apply (co_timer _ _ _ _ Hokc)|].
      intros E. apply (timer_ne P (get_ch cm) T p tv c x); try done. congruence. }
    destruct (lm_map_del_rep _ _ k (po_map _ _ _ _ Hok)) as (m & _ & Hm); [lia|].
    set (P1 := fun q => if decide (q = p) then Some (with_chns tv m) else P q).
    assert (upd P p (with_chns tv m) P1) as HuP by done.
    assert (linked P1 (get_ch cm1) (delete (ch_ev x) T)) as HL1.
    { apply (del_chn _ _ _ HL P1 (get_ch cm1) p tv c x m); try done. by rewrite Hport. }
    destruct (IH cm1 e1 P1 (delete (ch_ev x) T) (with_chns tv m) HL1 Hsh1 He1) as (e' & cm' & P' & T' & tv' & Hvis & HL' & H1 & H2 & H3 & H4 & H5 & H6 & H7 & H8 & H9).
    + rewrite Et1, Et. apply delete_delete.
    + by rewrite (upd_eq _ _ _ _ HuP).
    + done.
    + rewrite <- (lm_rep_ports (with_chns tv m) _ Hm). by apply (represents_remove ((k, c) :: l) _ _ k c).
    + exists e', cm', P', T', tv'. split_and!; try done.
      * intros q Hq. rewrite H8 by done. by apply (upd_ne _ _ _ _ _ HuP).
      * intros d. rewrite H9. cbn [fmap list_fmap snd]. rewrite Hu1. destruct (decide (d ∈ l.*2)) as [Hd|Hd].
        -- rewrite decide_True; [done|]. by right.
        -- destruct (decide (d = c)) as [->|Hne]; [rewrite decide_True; [done|left]|rewrite decide_False; [done|]].
           intros [?|?]%elem_of_cons; done.
Qed.

(** A permission goes with all its channels. *)
Lemma clean_permission_ok s p t :
  tables_ok s -> is_perm s p t ->
  exists s', turn_permission_clean s p = Some s' /\ tables_ok s' /\ upd (get_perm (tb_perms s)) p zero_permission (get_perm (tb_perms s')) /\
    forall c x, is_chn s' c x <-> is_chn s c x /\ ch_owner x <> Some p.
Proof.
  intros Hs [Hp Ha]. pose proof (ts_linked _ Hs) as HL. pose proof (lk_perm _ _ _ HL p t Hp Ha) as Hok.
  unfold turn_permission_clean. rewrite Hp. mred. rewrite Ha. cbn [negb].
  destruct (event_del_spec (tb_engine s) (pm_ev t) (ts_engine _ Hs)) as (e & -> & He & _ & Et);
    [intros Hne; exists (PermTimer p); by apply (po_timer _ _ _ _ Hok)|]. mred.
  destruct (lm_map_foreach_visits _ _ delete_channel_info_from_allocation_map (Some (e, tb_chns s)) (po_map _ _ _ _ Hok)) as (l & Hl & ->). mred.
  assert (represents l (ports t)) as Hr.
  { assert (NoDup l.*1) as Hnd by (rewrite Hl; apply NoDup_fst_map_to_list). split; [done|].
    by rewrite (list_to_map_proper _ _ Hnd Hl), list_to_map_to_list. }
  destruct (clean_loop p l _ _ _ _ t HL (ts_chns _ Hs) He Et Hp Ha Hr) as (e' & cm & P' & T' & tv & -> & HL' & H1 & H2 & H3 & H4 & H5 & H6 & H7 & H8 & H9). mred.
  destruct (set_perm_spec _ p zero_permission t (ts_perms _ Hs) Hp) as (ps & -> & Hshp & Hgetp). mred.
  eexists. split; [reflexivity|]. split_and!; [|done|].
  - split; cbn; [done..|]. rewrite H3, <- H6. apply (drop_perm _ _ _ HL' _ p tv); try done.
    intros q. rewrite Hgetp. case_decide; [done|]. by rewrite H8.
  - intros c x. unfold is_chn. cbn [tb_chns]. rewrite H9. split.
    + intros [Hc Hx]. destruct (decide (c ∈ l.*2)) as [|Hn]; [injection Hc as <-; done|]. split; [done|]. intros Ho. apply Hn.
      destruct (co_owner _ _ _ _ (lk_chn _ _ _ HL c x Hc Hx)) as (p' & t' & Ho' & Hp' & _ & _ & Hk). rewrite Ho in Ho'. injection Ho' as <-.
      rewrite Hp in Hp'. injection Hp' as <-. apply (represents_lookup _ _ _ _ Hr) in Hk. apply list_elem_of_fmap. by exists (peer_port x, c).
    + intros [[Hc Hx] Ho]. rewrite decide_False; [done|]. intros ([k c'] & -> & Hk)%list_elem_of_fmap. cbn in *.
      apply (represents_lookup _ _ _ _ Hr) in Hk. destruct (po_chns _ _ _ _ Hok k c' Hk) as (y & Hy & _ & Hy' & _). congruence.
Qed.
