(* ===== verification/Session.v ===== *)
(** * Requests on permissions and channels [server/ns_turn_server.c]

    The filter of peer addresses, the lifetimes, ChannelBind, CreatePermission, and what
    the two data paths look up.  Log messages and traffic counters have no counterpart. *)

From S2P Require Import Prelude IoAddr StunHeader StunAttr StunFields Integrity Buckets LmMap IoTimer Permission.

(** ** The server and the session *)

(** A range with the realm it is for, a C string without its terminator. *)
Record ip_range := mk_ip_range { rg_realm : list Z; rg_enc : ioa_addr_range }.

Inductive ALLOCATION_DEFAULT_ADDRESS_FAMILY :=
  ALLOCATION_DEFAULT_ADDRESS_FAMILY_IPV4 | ALLOCATION_DEFAULT_ADDRESS_FAMILY_IPV6 | ALLOCATION_DEFAULT_ADDRESS_FAMILY_KEEP.

(** The settings a request reads.  The second lists of ranges come from the user database;
    the software attribute is the version string, if it is sent; [default_relays] is a
    setting of the engine; [alt_addr_cb] is the answer of the callback, for a server that
    is configured for RFC 5780. *)
Record turn_turnserver := mk_server {
  ctime : Z;
  permission_lifetime : Z;
  channel_lifetime : Z;
  server_relay : bool;
  dont_fragment : bool;
  no_multicast_peers : bool;
  allow_loopback_peers : bool;
  ip_whitelist : list ip_range;
  ip_blacklist : list ip_range;
  engine_whitelist : list ip_range;
  engine_blacklist : list ip_range;
  addr_mapping : mapping;
  no_stun : bool;
  stun_backward_compatibility : bool;
  fingerprint : bool;
  software_attribute : option (list Z);
  ct : turn_credential_type;
  stale_nonce : Z;
  stun_only : bool;
  secure_stun : bool;
  mobility : bool;
  max_allocate_lifetime : Z;
  no_udp_relay : bool;
  no_tcp_relay : bool;
  oauth : bool;
  oauth_server_name : list Z;
  external_ip : option ioa_addr;
  is_draining : bool;
  allocation_default_address_family : ALLOCATION_DEFAULT_ADDRESS_FAMILY;
  default_relays : bool;
  alt_addr_cb : option (ioa_addr -> option ioa_addr);
  check_origin : bool
}.

(** The session apart from its tables; a relay socket is a handle, 0 when there is none.
    [client_socket_open]: there is a client socket and it is not to be closed. *)
Record session := mk_session {
  is_tcp_relay : bool;
  realm_name : list Z;
  alloc_is_valid : bool;
  relay_socket4 : Z;
  relay_socket6 : Z;
  is_mobile : bool;
  client_socket_type : Z;
  relay_socket_type4 : Z;
  relay_socket_type6 : Z;
  enforce_fingerprints : Z;
  to_be_closed : bool;
  client_socket_open : bool
}.

Definition TCP_SOCKET : Z := 6.
Definition UDP_SOCKET : Z := 17.
Definition SCTP_SOCKET : Z := 132.

Definition get_relay_socket (ss : session) (family : Z) : Z :=
  if decide (family = AF_INET6) then relay_socket6 ss else relay_socket4 ss.

Definition relay_socket_type (ss : session) (family : Z) : Z :=
  if decide (family = AF_INET6) then relay_socket_type6 ss else relay_socket_type4 ss.

(** ** The filter of peers *)

(** The macro [CHECK_REALM]: the range is skipped. *)
Definition other_realm (r realm : list Z) : bool := bool_decide (r <> []) && bool_decide (realm <> []) && bool_decide (r <> realm).

(** The loops run from the last range down. *)
Definition in_ranges (rs : list ip_range) (realm : list Z) (peer_addr : ioa_addr) : bool :=
  existsb (fun r => negb (other_realm (rg_realm r) realm) && ioa_addr_in_range (Some (rg_enc r)) (Some peer_addr)) (reverse rs).

Definition good_peer_addr (server : turn_turnserver) (realm : list Z) (peer_addr : ioa_addr) : bool :=
  if no_multicast_peers server && ioa_addr_is_multicast (Some peer_addr) then false
  else if negb (allow_loopback_peers server) && ioa_addr_is_loopback (Some peer_addr) then false
  else if ioa_addr_is_zero (Some peer_addr) then false
  else if in_ranges (ip_whitelist server) realm peer_addr then true
  else if in_ranges (engine_whitelist server) realm peer_addr then true
  else if in_ranges (ip_blacklist server) realm peer_addr then false
  else negb (in_ranges (engine_blacklist server) realm peer_addr).

(** ** Lifetimes *)

(** A [turn_time_t] passed as [int]. *)
Definition int_of_time (t : Z) : Z := if t <? 2 ^ 31 then t else t - 2 ^ 32.

Definition update_turn_permission_lifetime (mem : alloc_memory) (server : turn_turnserver) (s : tables) (tinfo : perm_ptr)
    (time_delta : Z) : option (Z * tables) :=
  t ← get_perm (tb_perms s) tinfo;
  if negb (pm_owner t) then Some (-1, s) else
  let time_delta := if time_delta =? 0 then permission_lifetime server else time_delta in
  e ← IOA_EVENT_DEL (tb_engine s) (pm_ev t);
  let '(h, e) := set_ioa_timer e (int_of_time time_delta) (PermTimer tinfo) (timer_ok mem) in
  perms ← set_perm (tb_perms s) tinfo
            (mk_permission (pm_allocated t) (pm_chns t) (pm_addr t) (u32 (ctime server + time_delta)) h (pm_owner t));
  Some (0, mk_tables e perms (tb_chns s)).

Definition update_channel_lifetime (mem : alloc_memory) (server : turn_turnserver) (s : tables) (chn : Z) : option (Z * tables) :=
  x ← get_ch (tb_chns s) chn;
  match ch_owner x with
  | None => Some (-1, s)
  | Some tinfo =>
    t ← get_perm (tb_perms s) tinfo;
    if negb (pm_owner t) then Some (-1, s) else
    '(r, s) ← update_turn_permission_lifetime mem server s tinfo (channel_lifetime server);
    if r <? 0 then Some (-1, s) else
    e ← IOA_EVENT_DEL (tb_engine s) (ch_ev x);
    let '(h, e) := set_ioa_timer e (int_of_time (channel_lifetime server)) (ChanTimer chn) (timer_ok mem) in
    chns ← set_ch (tb_chns s) chn
             (mk_ch_info (ch_allocated x) (ch_chnum x) (ch_port x) (ch_peer x) (u32 (ctime server + channel_lifetime server)) h
                (ch_owner x) (ch_kernel x));
    Some (0, mk_tables e (tb_perms s) chns)
  end.

Definition client_ss_channel_timeout_handler (s : tables) (chn : Z) : option tables := turn_channel_delete s chn.

Definition client_ss_perm_timeout_handler (s : tables) (tinfo : perm_ptr) : option tables :=
  t ← get_perm (tb_perms s) tinfo;
  if negb (pm_allocated t) then Some s else turn_permission_clean s tinfo.

(** A timer fires: its callback is called on its pointer. *)
Definition timer_event_handler (s : tables) (th : Z) : option tables :=
  c ← timers (tb_engine s) !! th;
  match c with
  | PermTimer p => client_ss_perm_timeout_handler s p
  | ChanTimer c => client_ss_channel_timeout_handler s c
  end.

Definition update_permission (mem : alloc_memory) (server : turn_turnserver) (s : tables) (peer_addr : ioa_addr) : option (Z * tables) :=
  r ← allocation_get_permission s (Some peer_addr);
  '(r, s) ← (match r with
             | Some p => Some (Some p, s)
             | None => '(r, perms) ← allocation_add_permission mem (tb_perms s) (Some peer_addr);
                       Some (r, mk_tables (tb_engine s) perms (tb_chns s))
             end);
  match r with
  | None => Some (-1, s)
  | Some tinfo =>
    '(rc, s) ← update_turn_permission_lifetime mem server s tinfo 0;
    if rc <? 0 then Some (-1, s) else
    chn ← get_turn_channel s tinfo peer_addr;
    match chn with
    | Some chn => '(rc, s) ← update_channel_lifetime mem server s chn; Some (if rc <? 0 then -1 else 0, s)
    | None => Some (0, s)
    end
  end.

(** ** ChannelBind, after its attributes were read *)

(** [CREATE_TURN_CHANNEL_KERNEL] is 1 in a build without kernel module. *)
Definition create_kernel_channel (ss : session) (s : tables) (chn family : Z) : option tables :=
  if negb (is_mobile ss) &&
     ((client_socket_type ss =? UDP_SOCKET) || (client_socket_type ss =? TCP_SOCKET) || (client_socket_type ss =? SCTP_SOCKET)) &&
     (relay_socket_type ss family =? UDP_SOCKET) then
    x ← get_ch (tb_chns s) chn;
    chns ← set_ch (tb_chns s) chn
             (mk_ch_info (ch_allocated x) (ch_chnum x) (ch_port x) (ch_peer x) (ch_expiration x) (ch_ev x) (ch_owner x) 1);
    Some (mk_tables (tb_engine s) (tb_perms s) chns)
  else Some s.

(** The error code and the tables. *)
Definition channel_bind (mem : alloc_memory) (server : turn_turnserver) (ss : session) (s : tables) (chnum : Z) (peer_addr : ioa_addr)
  : option (Z * tables) :=
  chn ← allocation_get_ch_info s chnum;
  '(err, chn, s) ←
    (match chn with
     | Some c =>
       x ← get_ch (tb_chns s) c;
       if negb (addr_eq (Some peer_addr) (Some (ch_peer x))) then Some (400, None, s) else
       match ch_owner x with
       | None => Some (500, None, s)
       | Some tinfo =>
         t ← get_perm (tb_perms s) tinfo;
         if negb (addr_eq_no_port (Some peer_addr) (Some (pm_addr t))) then Some (500, None, s)
         else if negb (ch_port x =? addr_get_port (Some peer_addr)) then Some (500, None, s)
         else Some (0, Some c, s)
       end
     | None =>
       chn ← allocation_get_ch_info_by_peer_addr s peer_addr;
       match chn with
       | Some _ => Some (400, None, s)
       | None =>
         if negb (good_peer_addr server (realm_name ss) peer_addr) then Some (403, None, s) else
         '(chn, s) ← allocation_get_new_ch_info mem s chnum peer_addr;
         match chn with
         | None => Some (500, None, s)
         | Some c => x ← get_ch (tb_chns s) c; Some (if ch_owner x then 0 else 500, Some c, s)
         end
       end
     end);
  match chn with
  | Some c =>
    if negb (err =? 0) then Some (err, s) else
    '(r, s) ← update_channel_lifetime mem server s c;
    if r <? 0 then Some (500, s) else
    s ← create_kernel_channel ss s c (sa_family peer_addr);
    Some (0, s)
  | None => Some (err, s)
  end.
