(* ===== verification/SessionFacts.v ===== *)
(** * What the requests do to the tables

    Lifetimes, ChannelBind and CreatePermission on linked tables. *)

From S2P Require Import Prelude IoAddr StunHeader StunAttr StunFields Buckets LmMap IoTimer Permission PermMem PermLink PermFacts Session.

Definition lifetime_ok (d : Z) : Prop := 0 < d < 2 ^ 31.
Definition server_ok (server : turn_turnserver) : Prop :=
  lifetime_ok (permission_lifetime server) /\ lifetime_ok (channel_lifetime server).

(** A permission or channel with a new timer. *)
Definition renewed (t : turn_permission_info) (expiration h : Z) : turn_permission_info :=
  mk_permission (pm_allocated t) (pm_chns t) (pm_addr t) expiration h (pm_owner t).
Definition renewed_chn (x : ch_info) (expiration h : Z) : ch_info :=
  mk_ch_info (ch_allocated x) (ch_chnum x) (ch_port x) (ch_peer x) expiration h (ch_owner x) (ch_kernel x).

Definition expires (server : turn_turnserver) (d : Z) : Z := u32 (ctime server + d).

Section session.
Context (server : turn_turnserver) (Hserver : server_ok server).

Lemma secs_ok d : lifetime_ok d -> 0 < int_of_time d /\ (d =? 0) = false.
Proof. intros Hd. unfold lifetime_ok, int_of_time in *. rewrite (proj2 (Z.ltb_lt _ _)) by lia. lia. Qed.

Lemma update_perm_ok s p t d :
  tables_ok s -> is_perm s p t -> d = 0 \/ lifetime_ok d ->
  exists h s', update_turn_permission_lifetime all_memory server s p d = Some (0, s') /\ tables_ok s' /\ h <> 0 /\
    tb_chns s' = tb_chns s /\
    upd (get_perm (tb_perms s)) p (renewed t (expires server (if d =? 0 then permission_lifetime server else d)) h) (get_perm (tb_perms s')).
Proof.
  intros Hs [Hp Ha] Hd. pose proof (ts_linked _ Hs) as HL. pose proof (lk_perm _ _ _ HL p t Hp Ha) as Hok.
  unfold update_turn_permission_lifetime. rewrite Hp. mred. rewrite (po_owner _ _ _ _ Hok). cbn [negb].
  set (d' := if d =? 0 then permission_lifetime server else d).
  assert (lifetime_ok d') as Hd'.
  { unfold d'. destruct Hd as [->|Hd]; [apply Hserver|]. by rewrite (proj2 (secs_ok d Hd)). }
  destruct (event_del_spec (tb_engine s) (pm_ev t) (ts_engine _ Hs)) as (e & -> & He & _ & Et);
    [intros Hne; exists (PermTimer p); by apply (po_timer _ _ _ _ Hok)|]. mred.
  destruct (set_timer_spec e (int_of_time d') (PermTimer p) He (proj1 (secs_ok d' Hd'))) as (h & e' & Hset & He' & Hh & Hnone & Et').
  cbn [timer_ok all_memory]. rewrite Hset. mred.
  destruct (set_perm_spec _ p (renewed t (expires server d') h) t (ts_perms _ Hs) Hp) as (ps & Hps & Hshp & Hgetp).
  unfold renewed, expires in Hps. rewrite (po_owner _ _ _ _ Hok) in Hps. rewrite Hps. mred. exists h. eexists. split; [reflexivity|].
  split_and!; [|lia|done|done]. split; cbn; [done|done|apply Hs|]. rewrite Et', Et.
  apply (arm_perm _ _ _ HL _ p t (expires server d') h); try done; [lia|congruence].
Qed.

(** Renewing the timer of a channel, after that of its permission. *)
Lemma renew_channel_ok s c x :
  tables_ok s -> is_chn s c x ->
  exists h s', (e ← IOA_EVENT_DEL (tb_engine s) (ch_ev x);
     let '(h, e) := set_ioa_timer e (int_of_time (channel_lifetime server)) (ChanTimer c) (timer_ok all_memory) in
     chns ← set_ch (tb_chns s) c (mk_ch_info (ch_allocated x) (ch_chnum x) (ch_port x) (ch_peer x)
              (u32 (ctime server + channel_lifetime server)) h (ch_owner x) (ch_kernel x));
     Some (0, mk_tables e (tb_perms s) chns)) = Some (0, s') /\
    tables_ok s' /\ h <> 0 /\ tb_perms s' = tb_perms s /\
    upd (get_ch (tb_chns s)) c (renewed_chn x (expires server (channel_lifetime server)) h) (get_ch (tb_chns s')).
Proof.
  intros Hs [Hc Ha]. pose proof (ts_linked _ Hs) as HL. pose proof (lk_chn _ _ _ HL c x Hc Ha) as Hok.
  destruct (event_del_spec (tb_engine s) (ch_ev x) (ts_engine _ Hs)) as (e & -> & He & _ & Et);
    [intros Hne; exists (ChanTimer c); by apply (co_timer _ _ _ _ Hok)|]. mred.
  destruct (set_timer_spec e (int_of_time (channel_lifetime server)) (ChanTimer c) He (proj1 (secs_ok _ (proj2 Hserver))))
    as (h & e' & Hset & He' & Hh & Hnone & Et'). cbn [timer_ok all_memory]. rewrite Hset. mred.
  destruct (set_ch_spec _ c (renewed_chn x (expires server (channel_lifetime server)) h) x (ts_chns _ Hs) Hc) as (cs & Hcs & Hsh & Hget).
  unfold renewed_chn, expires in Hcs. rewrite Hcs. mred. exists h. eexists. split; [reflexivity|].
  split_and!; [|lia|done|done]. split; cbn; [done|apply Hs|done|]. rewrite Et', Et.
  apply (arm_chn _ _ _ HL _ c x (expires server (channel_lifetime server)) h); try done; [lia|congruence].
Qed.

Lemma update_channel_ok s c x :
  tables_ok s -> is_chn s c x ->
  exists p t h h' s', ch_owner x = Some p /\ is_perm s p t /\ addr_eqv_no_port (pm_addr t) (ch_peer x) /\
    update_channel_lifetime all_memory server s c = Some (0, s') /\ tables_ok s' /\ h <> 0 /\ h' <> 0 /\
    upd (get_perm (tb_perms s)) p (renewed t (expires server (channel_lifetime server)) h) (get_perm (tb_perms s')) /\
    upd (get_ch (tb_chns s)) c (renewed_chn x (expires server (channel_lifetime server)) h') (get_ch (tb_chns s')).
Proof.
  intros Hs [Hc Hx]. pose proof (ts_linked _ Hs) as HL. pose proof (lk_chn _ _ _ HL c x Hc Hx) as Hok.
  destruct (co_owner _ _ _ _ Hok) as (p & t & Ho & Hp & Ha & He & _).
  destruct (update_perm_ok s p t (channel_lifetime server) Hs (conj Hp Ha) (or_intror (proj2 Hserver)))
    as (h & s1 & Hrun & Hs1 & Hh & Hchns & Hu). rewrite (proj2 (secs_ok _ (proj2 Hserver))) in Hu.
  destruct (renew_channel_ok s1 c x Hs1) as (h' & s2 & Hrun2 & Hs2 & Hh' & Hperms & Hu2); [unfold is_chn; by rewrite Hchns|].
  exists p, t, h, h', s2. unfold update_channel_lifetime. rewrite Hc. mred. rewrite Ho, Hp. mred.
  rewrite (po_owner _ _ _ _ (lk_perm _ _ _ HL p t Hp Ha)). cbn [negb]. rewrite Hrun. cbn [mbind option_bind Z.ltb Z.compare].
  rewrite Hperms. rewrite Hchns in Hu2. rewrite Ho in Hrun2. by split_and!.
Qed.

Lemma kernel_ok ss s c x family :
  tables_ok s -> is_chn s c x ->
  exists s' k, create_kernel_channel ss s c family = Some s' /\ tables_ok s' /\ tb_perms s' = tb_perms s /\
    upd (get_ch (tb_chns s)) c (mk_ch_info (ch_allocated x) (ch_chnum x) (ch_port x) (ch_peer x) (ch_expiration x) (ch_ev x) (ch_owner x) k) (get_ch (tb_chns s')).
Proof.
  intros Hs [Hc Hx]. unfold create_kernel_channel. destruct (_ && _).
  - rewrite Hc. mred. destruct (set_ch_spec _ c (mk_ch_info (ch_allocated x) (ch_chnum x) (ch_port x) (ch_peer x) (ch_expiration x) (ch_ev x) (ch_owner x) 1)
      x (ts_chns _ Hs) Hc) as (cs & -> & Hsh & Hget). mred. eexists _, 1. split_and!; [reflexivity| |done|exact Hget].
    split; cbn; [apply Hs..|done|]. by apply (touch_chn _ _ _ (ts_linked _ Hs) _ c x 1).
  - exists s, (ch_kernel x). split_and!; try done. intros d. case_decide as E; [|done]. subst d. rewrite Hc. by destruct x.
Qed.

End session.
