(* ===== verification/RelayFacts.v ===== *)
(** * The relay as permissions and bindings that expire

    The abstract state: the hosts that may be talked to and the channels bound to peers,
    each with the time it expires at.  [shows s R]: the tables [s] stand for it. *)

From S2P Require Import Prelude IoAddr StunHeader StunAttr StunFields Buckets LmMap IoTimer Permission PermMem PermLink PermFacts Session SessionFacts.

(** ** Hosts *)

Definition host : Type := Z * Z * list Z.
Definition host_of (a : ioa_addr) : host :=
  if decide (sa_family a = AF_INET) then (AF_INET, s_addr a, []) else (AF_INET6, 0, sin6_addr a).

Lemma host_eqv a b : inet_addr a -> inet_addr b -> (addr_eqv_no_port a b <-> host_of a = host_of b).
Proof.
  intros Ha Hb. assert (AF_INET <> AF_INET6) as Hne by done. unfold addr_eqv_no_port, host_of. rewrite addr_eq_no_port_spec.
  destruct Ha as [Ea|Ea], Hb as [Eb|Eb]; rewrite Ea, Eb, ?(decide_True (P := AF_INET = AF_INET)),
    ?(decide_False (P := AF_INET6 = AF_INET)) by done.
  - split; [intros (_ & [[_ E]|[E _]]); congruence|]. intros E. injection E as E. by auto.
  - split; [intros (? & _); congruence|congruence].
  - split; [intros (? & _); congruence|congruence].
  - split; [intros (_ & [[E _]|[_ E]]); congruence|]. intros E. injection E as E. by auto.
Qed.

Lemma host_set_port a port : host_of (addr_set_port a port) = host_of a.
Proof. unfold addr_set_port. by case_decide. Qed.

(** ** The abstract relay *)

Record relay := mk_relay { rl_perms : gmap host Z; rl_chans : gmap Z (host * Z * Z) }.
Definition no_relay : relay := mk_relay ∅ ∅.

Definition rl_permit (R : relay) (k : host) (expiration : Z) : relay := mk_relay (<[k := expiration]> (rl_perms R)) (rl_chans R).
Definition rl_assign (R : relay) (n : Z) (k : host) (port expiration : Z) : relay :=
  mk_relay (<[k := expiration]> (rl_perms R)) (<[n := (k, port, expiration)]> (rl_chans R)).
Definition rl_drop_perm (R : relay) (k : host) : relay :=
  mk_relay (delete k (rl_perms R)) (filter (fun c => c.2.1.1 <> k) (rl_chans R)).
Definition rl_drop_chan (R : relay) (n : Z) : relay := mk_relay (rl_perms R) (delete n (rl_chans R)).

(** The peer has a channel. *)
Definition rl_bound (R : relay) (k : host) (port : Z) : Prop := exists n e, rl_chans R !! n = Some (k, port, e).

Lemma rl_bound_exists R k port : rl_bound R k port <-> map_Exists (fun _ c => c.1 = (k, port)) (rl_chans R).
Proof.
  unfold rl_bound. split; [intros (n & e & Hn); by exists n, (k, port, e)|]. intros (n & [c e] & Hn & Hc). cbn in Hc. subst. by exists n, e.
Qed.

#[export] Instance rl_bound_dec R k port : Decision (rl_bound R k port).
Proof.
  refine (cast_if (decide (map_Exists (fun _ c => c.1 = (k, port)) (rl_chans R)))); abstract (by rewrite rl_bound_exists).
Defined.

(** A ChannelBind: a number keeps its peer, a peer its number. *)
Definition rl_bind (server : turn_turnserver) (realm : list Z) (R : relay) (n : Z) (peer : ioa_addr) : Z * relay :=
  let k := host_of peer in
  let port := addr_get_port (Some peer) in
  let bound := (0, rl_assign R n k port (expires server (channel_lifetime server))) in
  match rl_chans R !! n with
  | Some c => if decide (c.1 = (k, port)) then bound else (400, R)
  | None =>
    if decide (rl_bound R k port) then (400, R)
    else if good_peer_addr server realm peer then bound else (403, R)
  end.

(** ** What the tables stand for *)

Definition chan_view (x : ch_info) : host * Z * Z := (host_of (ch_peer x), peer_port x, ch_expiration x).

(** Everything allocated has a timer. *)
Definition armed (s : tables) : Prop :=
  (forall p t, is_perm s p t -> pm_ev t <> 0) /\ (forall c x, is_chn s c x -> ch_ev x <> 0).

Definition shows_perms (s : tables) (m : gmap host Z) : Prop :=
  forall k e, m !! k = Some e <-> exists p t, is_perm s p t /\ host_of (pm_addr t) = k /\ pm_expiration t = e.
Definition shows_chans (s : tables) (m : gmap Z (host * Z * Z)) : Prop :=
  forall n v, m !! n = Some v <-> exists c x, is_chn s c x /\ ch_chnum x = n /\ chan_view x = v.

Record shows (s : tables) (R : relay) : Prop := {
  sh_ok : tables_ok s;
  sh_armed : armed s;
  sh_perms : shows_perms s (rl_perms R);
  sh_chans : shows_chans s (rl_chans R)
}.

Lemma shows_init : shows init_tables no_relay.
Proof.
  split; [apply init_tables_ok| | |].
  - split; [intros p t [->%init_perm ?]|intros c x [->%init_chn ?]]; done.
  - intros k e. cbn [rl_perms no_relay]. rewrite lookup_empty. split; [done|]. by intros (p & t & [->%init_perm ?] & _).
  - intros n v. cbn [rl_chans no_relay]. rewrite lookup_empty. split; [done|]. by intros (c & x & [->%init_chn ?] & _).
Qed.

(** ** Updates of the tables *)

Lemma is_perm_upd s s' p u q w :
  upd (get_perm (tb_perms s)) p u (get_perm (tb_perms s')) -> pm_allocated u = true ->
  (is_perm s' q w <-> (q = p /\ w = u) \/ (q <> p /\ is_perm s q w)).
Proof.
  intros Hu Ha. unfold is_perm. rewrite (Hu q). case_decide as E.
  - split; [intros [[= <-] _]; by left|]. by intros [[_ ->]|[? _]].
  - split; [by right|]. by intros [[? _]|[_ ?]].
Qed.

Lemma is_chn_upd s s' c y d z :
  upd (get_ch (tb_chns s)) c y (get_ch (tb_chns s')) -> ch_allocated y = true ->
  (is_chn s' d z <-> (d = c /\ z = y) \/ (d <> c /\ is_chn s d z)).
Proof.
  intros Hu Ha. unfold is_chn. rewrite (Hu d). case_decide as E.
  - split; [intros [[= <-] _]; by left|]. by intros [[_ ->]|[? _]].
  - split; [by right|]. by intros [[? _]|[_ ?]].
Qed.

(** A permission becomes [u] of the same host, or a new one of a host without permission. *)
Lemma shows_perms_set s s' m p u :
  shows_perms s m -> upd (get_perm (tb_perms s)) p u (get_perm (tb_perms s')) -> pm_allocated u = true ->
  (forall q w, is_perm s q w -> host_of (pm_addr w) = host_of (pm_addr u) -> q = p) ->
  (forall w, is_perm s p w -> host_of (pm_addr w) = host_of (pm_addr u)) ->
  shows_perms s' (<[host_of (pm_addr u) := pm_expiration u]> m).
Proof.
  intros Hm Hu Ha Huniq Hsame k e. rewrite lookup_insert_Some. split.
  - intros [[<- <-]|[Hk (q & w & Hq & <- & <-)%Hm]].
    + exists p, u. rewrite (is_perm_upd s s' p u) by done. split_and!; [by left|done..].
    + exists q, w. rewrite (is_perm_upd s s' p u) by done. split_and!; [|done..]. right. split; [|done]. intros ->. by apply Hk; rewrite (Hsame w Hq).
  - intros (q & w & Hq & <- & <-). rewrite (is_perm_upd s s' p u) in Hq by done. destruct Hq as [[-> ->]|[Hne Hq]]; [by left|].
    right. split; [intros E; apply Hne; by apply (Huniq q w)|]. apply Hm. by exists q, w.
Qed.

Lemma shows_chans_set s s' m c y :
  shows_chans s m -> upd (get_ch (tb_chns s)) c y (get_ch (tb_chns s')) -> ch_allocated y = true ->
  (forall d z, is_chn s d z -> ch_chnum z = ch_chnum y -> d = c) -> (forall z, is_chn s c z -> ch_chnum z = ch_chnum y) ->
  shows_chans s' (<[ch_chnum y := chan_view y]> m).
Proof.
  intros Hm Hu Ha Huniq Hsame n v. rewrite lookup_insert_Some. split.
  - intros [[<- <-]|[Hk (d & z & Hd & <- & <-)%Hm]].
    + exists c, y. rewrite (is_chn_upd s s' c y) by done. split_and!; [by left|done..].
    + exists d, z. rewrite (is_chn_upd s s' c y) by done. split_and!; [|done..]. right. split; [|done]. intros ->. by apply Hk; rewrite (Hsame z Hd).
  - intros (d & z & Hd & <- & <-). rewrite (is_chn_upd s s' c y) in Hd by done. destruct Hd as [[-> ->]|[Hne Hd]]; [by left|].
    right. split; [intros E; apply Hne; by apply (Huniq d z)|]. apply Hm. by exists d, z.
Qed.

(** * Requests and timers refine the abstract relay *)

(** ** More updates *)

Lemma is_perm_del s s' p q w :
  upd (get_perm (tb_perms s)) p zero_permission (get_perm (tb_perms s')) -> (is_perm s' q w <-> q <> p /\ is_perm s q w).
Proof.
  intros Hu. unfold is_perm. rewrite (Hu q). case_decide as E; [|tauto]. split; [by intros [[= <-] ?]|by intros [? _]].
Qed.

Lemma is_chn_del s s' c d z :
  upd (get_ch (tb_chns s)) c zero_ch (get_ch (tb_chns s')) -> (is_chn s' d z <-> d <> c /\ is_chn s d z).
Proof.
  intros Hu. unfold is_chn. rewrite (Hu d). case_decide as E; [|tauto]. split; [by intros [[= <-] ?]|by intros [? _]].
Qed.

Lemma shows_chans_same s s' m : shows_chans s m -> (forall c x, is_chn s' c x <-> is_chn s c x) -> shows_chans s' m.
Proof. intros Hm H n v. rewrite (Hm n v). by setoid_rewrite H. Qed.

Section shows.
Context (s : tables) (R : relay) (Hs : shows s R).
Let Hok := sh_ok _ _ Hs.
Let HL := ts_linked _ Hok.

Lemma perm_unique p t q u : is_perm s p t -> is_perm s q u -> host_of (pm_addr t) = host_of (pm_addr u) -> p = q.
Proof.
  intros [Hp Ha] [Hq Hb] E. apply (lk_unique _ _ _ HL p q t u); try done.
  apply host_eqv; [apply (po_inet _ _ _ _ (lk_perm _ _ _ HL p t Hp Ha))|apply (po_inet _ _ _ _ (lk_perm _ _ _ HL q u Hq Hb))|done].
Qed.

Lemma perm_same p t u : is_perm s p t -> is_perm s p u -> t = u.
Proof. intros [Hp _] [Hq _]. congruence. Qed.

Lemma chn_unique c x d y : is_chn s c x -> is_chn s d y -> ch_chnum x = ch_chnum y -> c = d.
Proof. intros [Hc Ha] [Hd Hb]. by apply (lk_chnum _ _ _ HL). Qed.

Lemma chn_same c x y : is_chn s c x -> is_chn s c y -> x = y.
Proof. intros [Hc _] [Hd _]. congruence. Qed.

Lemma shown_perm p t : is_perm s p t -> rl_perms R !! host_of (pm_addr t) = Some (pm_expiration t).
Proof. intros Hp. apply (sh_perms _ _ Hs). by exists p, t. Qed.

Lemma shown_chan c x : is_chn s c x -> rl_chans R !! ch_chnum x = Some (chan_view x).
Proof. intros Hc. apply (sh_chans _ _ Hs). by exists c, x. Qed.

(** The permission of a channel. *)
Lemma owner_perm c x :
  is_chn s c x -> exists p t, ch_owner x = Some p /\ is_perm s p t /\ host_of (pm_addr t) = host_of (ch_peer x) /\
    ports t !! peer_port x = Some c.
Proof.
  intros [Hc Hx]. pose proof (lk_chn _ _ _ HL c x Hc Hx) as Hokc. destruct (co_owner _ _ _ _ Hokc) as (p & t & Ho & Hp & Ha & He & Hm).
  exists p, t. split_and!; try done. apply host_eqv; [apply (po_inet _ _ _ _ (lk_perm _ _ _ HL p t Hp Ha))|apply Hokc|done].
Qed.

(** A peer has one channel: its host has one permission, and that one channel for the port. *)
Lemma peer_unique c x d y : is_chn s c x -> is_chn s d y -> host_of (ch_peer x) = host_of (ch_peer y) -> peer_port x = peer_port y -> c = d.
Proof.
  intros Hc Hd Eh Ep. destruct (owner_perm c x Hc) as (p & t & _ & Hp & Et & Hk). destruct (owner_perm d y Hd) as (q & u & _ & Hq & Eu & Hk').
  assert (p = q) as <- by (apply (perm_unique p t q u); [done|done|congruence]). rewrite (perm_same p t u) in Hk by done. congruence.
Qed.

(** A permission that keeps its host and expiration. *)
Lemma perm_kept s' p t u :
  is_perm s p t -> pm_allocated u = true -> pm_addr u = pm_addr t -> pm_expiration u = pm_expiration t ->
  upd (get_perm (tb_perms s)) p u (get_perm (tb_perms s')) -> shows_perms s' (rl_perms R).
Proof.
  intros Hp Ha Ead Eex Hu.
  assert (<[host_of (pm_addr u) := pm_expiration u]> (rl_perms R) = rl_perms R) as <- by (apply insert_id; rewrite Ead, Eex; by apply (shown_perm p)).
  apply (shows_perms_set s s' (rl_perms R) p u (sh_perms _ _ Hs) Hu Ha); rewrite Ead.
  - intros q w Hq E. by apply (perm_unique q w p t).
  - intros w Hw. by rewrite (perm_same p w t).
Qed.

(** ** Timers *)

Lemma expire_chan c x :
  is_chn s c x -> exists s', turn_channel_delete s c = Some s' /\ shows s' (rl_drop_chan R (ch_chnum x)).
Proof.
  intros Hc. destruct (delete_channel_ok s Hok c x Hc) as (s' & p & t & m & Hrun & Hok' & Ho & Hp & He & Huc & Hup).
  exists s'. split; [done|]. pose proof (proj2 Hp) as Ha. destruct (sh_armed _ _ Hs) as [Harm1 Harm2]. split; [done| | |].
  - split.
    + intros q w Hq. rewrite (is_perm_upd s s' p (with_chns t m)) in Hq by done. destruct Hq as [[-> ->]|[_ Hq]]; [by apply (Harm1 p t)|by apply (Harm1 q)].
    + intros d z [_ Hd]%(is_chn_del s s' c); [|done]. by apply (Harm2 d z).
  - by apply (perm_kept s' p t (with_chns t m)).
  - intros n v. cbn [rl_chans rl_drop_chan]. rewrite lookup_delete_Some, (sh_chans _ _ Hs n v). split.
    + intros (Hne & d & z & Hd & <- & <-). exists d, z. rewrite (is_chn_del s s' c) by done. split_and!; try done.
      intros ->. by rewrite (chn_same c x z) in Hne by done.
    + intros (d & z & [Hne Hd]%(is_chn_del s s' c) & <- & <-); [|done]. split; [|by exists d, z].
      intros E. by apply Hne, (chn_unique d z c x).
Qed.

Lemma expire_perm p t :
  is_perm s p t -> exists s', turn_permission_clean s p = Some s' /\ shows s' (rl_drop_perm R (host_of (pm_addr t))).
Proof.
  intros Hp. destruct (clean_permission_ok s p t Hok Hp) as (s' & Hrun & Hok' & Hu & Hchn).
  exists s'. split; [done|]. destruct (sh_armed _ _ Hs) as [Harm1 Harm2]. split; [done| | |].
  - split; [intros q w [_ Hq]%(is_perm_del s s' p); [|done]; by apply (Harm1 q w)|]. intros d z [Hd _]%Hchn. by apply (Harm2 d z).
  - intros k e. cbn [rl_perms rl_drop_perm]. rewrite lookup_delete_Some, (sh_perms _ _ Hs k e). split.
    + intros (Hne & q & w & Hq & <- & <-). exists q, w. rewrite (is_perm_del s s' p) by done. split_and!; try done.
      intros ->. by rewrite (perm_same p t w) in Hne by done.
    + intros (q & w & [Hne Hq]%(is_perm_del s s' p) & <- & <-); [|done]. split; [|by exists q, w].
      intros E. apply Hne. by apply (perm_unique q w p t).
  - intros n v. cbn [rl_chans rl_drop_perm]. rewrite map_lookup_filter_Some. cbn [snd]. rewrite (sh_chans _ _ Hs n v). split.
    + intros ((d & z & Hd & <- & <-) & Hne). exists d, z. rewrite Hchn. split_and!; try done. intros Ho. apply Hne. cbn.
      destruct (owner_perm d z Hd) as (q & w & Ho' & Hq & E & _). rewrite Ho in Ho'. injection Ho' as <-. by rewrite <- E, (perm_same p t w) by done.
    + intros (d & z & [Hd Ho]%Hchn & <- & <-). split; [by exists d, z|]. cbn. intros E. apply Ho.
      destruct (owner_perm d z Hd) as (q & w & Ho' & Hq & E' & _). rewrite Ho'. f_equal. apply (perm_unique q w p t); [done|done|congruence].
Qed.

(** ** Updates that install or renew *)

(** [p] is the place for a permission of the host [k]. *)
Definition place_of (p : perm_ptr) (k : host) : Prop :=
  (forall q w, is_perm s q w -> host_of (pm_addr w) = k -> q = p) /\ (forall w, is_perm s p w -> host_of (pm_addr w) = k).
Definition place_of_chn (c n : Z) : Prop :=
  (forall d z, is_chn s d z -> ch_chnum z = n -> d = c) /\ (forall z, is_chn s c z -> ch_chnum z = n).

Lemma place_old p t : is_perm s p t -> place_of p (host_of (pm_addr t)).
Proof. intros Hp. split; [intros q w Hq E; by apply (perm_unique q w p t)|intros w Hw; by rewrite (perm_same p w t)]. Qed.
Lemma place_new p k :
  (forall t, perm_at s p = Some t -> pm_allocated t = false) -> (forall q w, is_perm s q w -> host_of (pm_addr w) <> k) -> place_of p k.
Proof.
  intros Hfree Hno. split; [intros q w Hq E; by destruct (Hno q w)|]. intros w [Hw Ha]. rewrite (Hfree w Hw) in Ha. done.
Qed.

Lemma place_chn_old c x : is_chn s c x -> place_of_chn c (ch_chnum x).
Proof. intros Hc. split; [intros d z Hd E; by apply (chn_unique d z c x)|intros z Hz; by rewrite (chn_same c z x)]. Qed.
Lemma place_chn_new c n :
  (forall x, chn_at s c = Some x -> ch_allocated x = false) -> (forall d z, is_chn s d z -> ch_chnum z <> n) -> place_of_chn c n.
Proof.
  intros Hfree Hno. split; [intros d z Hd E; by destruct (Hno d z)|]. intros z [Hz Ha]. rewrite (Hfree z Hz) in Ha. done.
Qed.

Lemma permit_shows s' p u :
  tables_ok s' -> tb_chns s' = tb_chns s -> upd (get_perm (tb_perms s)) p u (get_perm (tb_perms s')) -> pm_allocated u = true ->
  pm_ev u <> 0 -> place_of p (host_of (pm_addr u)) -> shows s' (rl_permit R (host_of (pm_addr u)) (pm_expiration u)).
Proof.
  intros Hok' Hchns Hu Ha Hev [Hpl1 Hpl2]. destruct (sh_armed _ _ Hs) as [Harm1 Harm2]. split; [done| | |].
  - split.
    + intros q w Hq. rewrite (is_perm_upd s s' p u) in Hq by done. destruct Hq as [[_ ->]|[_ Hq]]; [done|by apply (Harm1 q)].
    + intros c x Hc. unfold is_chn in Hc. rewrite Hchns in Hc. by apply (Harm2 c x).
  - apply (shows_perms_set s s' (rl_perms R) p u (sh_perms _ _ Hs) Hu Ha Hpl1 Hpl2).
  - apply (shows_chans_same s s' _ (sh_chans _ _ Hs)). intros c x. unfold is_chn. by rewrite Hchns.
Qed.

Lemma assign_shows s' p u c y :
  tables_ok s' -> upd (get_perm (tb_perms s)) p u (get_perm (tb_perms s')) -> upd (get_ch (tb_chns s)) c y (get_ch (tb_chns s')) ->
  pm_allocated u = true -> ch_allocated y = true -> pm_ev u <> 0 -> ch_ev y <> 0 ->
  place_of p (host_of (pm_addr u)) -> place_of_chn c (ch_chnum y) -> host_of (ch_peer y) = host_of (pm_addr u) -> ch_expiration y = pm_expiration u ->
  shows s' (rl_assign R (ch_chnum y) (host_of (pm_addr u)) (peer_port y) (pm_expiration u)).
Proof.
  intros Hok' Hu Huc Ha Hx Hev Hevc [Hpl1 Hpl2] [Hplc1 Hplc2] Eh Ee. destruct (sh_armed _ _ Hs) as [Harm1 Harm2]. split; [done| | |].
  - split.
    + intros q w Hq. rewrite (is_perm_upd s s' p u) in Hq by done. destruct Hq as [[_ ->]|[_ Hq]]; [done|by apply (Harm1 q)].
    + intros d z Hd. rewrite (is_chn_upd s s' c y) in Hd by done. destruct Hd as [[_ ->]|[_ Hd]]; [done|by apply (Harm2 d)].
  - apply (shows_perms_set s s' (rl_perms R) p u (sh_perms _ _ Hs) Hu Ha Hpl1 Hpl2).
  - assert ((host_of (pm_addr u), peer_port y, pm_expiration u) = chan_view y) as E by (unfold chan_view; congruence).
    unfold rl_assign. cbn [rl_chans]. rewrite E. apply (shows_chans_set s s' (rl_chans R) c y (sh_chans _ _ Hs) Huc Hx Hplc1 Hplc2).
Qed.

End shows.

Lemma upd_trans {A B} `{EqDecision A} (f f' f'' : A -> option B) a b b' : upd f a b f' -> upd f' a b' f'' -> upd f a b' f''.
Proof. intros H1 H2 x. rewrite H2. case_decide; [done|]. rewrite H1. by rewrite decide_False. Qed.

Lemma upd_self {A B} `{EqDecision A} (f : A -> option B) a b : f a = Some b -> upd f a b f.
Proof. intros H x. case_decide; [by subst|done]. Qed.

(** ** CreatePermission *)

Lemma permit_ok server s R peer :
  shows s R -> server_ok server -> inet_addr peer -> addr_get_port (Some peer) = 0 ->
  exists s', update_permission all_memory server s peer = Some (0, s') /\ tb_chns s' = tb_chns s /\
    shows s' (rl_permit R (host_of peer) (expires server (permission_lifetime server))).
Proof.
  intros Hs Hserver Hi Hport. pose proof (sh_ok _ _ Hs) as Hok. unfold update_permission.
  assert (exists p t s0, (r ← allocation_get_permission s (Some peer);
      match r with Some p => Some (Some p, s)
      | None => '(r, perms) ← allocation_add_permission all_memory (tb_perms s) (Some peer); Some (r, mk_tables (tb_engine s) perms (tb_chns s)) end)
      = Some (Some p, s0) /\ tables_ok s0 /\ tb_chns s0 = tb_chns s /\ is_perm s0 p t /\ host_of (pm_addr t) = host_of peer /\
      place_of s p (host_of peer) /\ upd (get_perm (tb_perms s)) p t (get_perm (tb_perms s0))) as (p & t & s0 & Hget & Hok0 & Hc0 & Hp & Eh & Hpl & Hu0).
  { destruct (find_perm s Hok peer Hi) as [(p & t & -> & Hp & He)|[-> Hno]]; mred.
    - assert (host_of (pm_addr t) = host_of peer) as Eh.
      { apply host_eqv; [|done|done]. apply (po_inet _ _ _ _ (lk_perm _ _ _ (ts_linked _ Hok) p t (proj1 Hp) (proj2 Hp))). }
      exists p, t, s. split_and!; try done; [rewrite <- Eh; by apply (place_old s R Hs)|]. by apply upd_self, Hp.
    - destruct (add_permission_ok s Hok peer Hi Hno) as (p & perms & -> & Hok0 & Hfree & Hu). mred.
      exists p, (new_permission peer), (mk_tables (tb_engine s) perms (tb_chns s)). split_and!; try done; [|].
      + split; [by apply (upd_eq _ _ _ _ Hu)|done].
      + apply place_new; [done|]. intros q w Hq E. apply (Hno q w Hq). apply host_eqv; [|done|done].
        apply (po_inet _ _ _ _ (lk_perm _ _ _ (ts_linked _ Hok) q w (proj1 Hq) (proj2 Hq))). }
  destruct (allocation_get_permission s (Some peer)) as [r|]; [|done]. cbn [mbind option_bind] in Hget |- *. rewrite Hget. cbn [mbind option_bind].
  destruct (update_perm_ok server Hserver s0 p t 0 Hok0 Hp) as (h & s1 & -> & Hok1 & Hh & Hc1 & Hu1); [by left|]. cbn [mbind option_bind Z.ltb Z.compare].
  rewrite (zero_port_channel s1 p (renewed t (expires server (permission_lifetime server)) h) peer); [|split; [by apply (upd_eq _ _ _ _ Hu1)|apply Hp]|done].
  cbn [mbind option_bind]. exists s1. split_and!; [done|congruence|]. rewrite <- Eh in Hpl |- *.
  apply (permit_shows s R Hs s1 p (renewed t (expires server (permission_lifetime server)) h)); try done; [congruence| |apply Hp].
  by apply (upd_trans _ _ _ _ _ _ Hu0 Hu1).
Qed.
