(* ===== verification/RelayBind.v ===== *)
(** * ChannelBind refines the abstract relay *)

From S2P Require Import Prelude IoAddr StunHeader StunAttr StunFields Buckets LmMap IoTimer Permission PermMem PermLink PermFacts Session SessionFacts RelayFacts.

Section bind.
Context (server : turn_turnserver) (Hserver : server_ok server) (ss : session).

(** The channel with a new timer, and maybe in the kernel. *)
Definition bound_chn (x : ch_info) (h k : Z) : ch_info :=
  mk_ch_info (ch_allocated x) (ch_chnum x) (ch_port x) (ch_peer x) (expires server (channel_lifetime server)) h (ch_owner x) k.

(** What happens once the channel is found or made. *)
Lemma refresh_ok s c x family :
  tables_ok s -> is_chn s c x ->
  exists p t h h' k s', ('(r, s) ← update_channel_lifetime all_memory server s c;
     if r <? 0 then Some (500, s) else s ← create_kernel_channel ss s c family; Some (0, s)) = Some (0, s') /\ tables_ok s' /\
    h <> 0 /\ h' <> 0 /\ ch_owner x = Some p /\ is_perm s p t /\ host_of (pm_addr t) = host_of (ch_peer x) /\
    upd (get_perm (tb_perms s)) p (renewed t (expires server (channel_lifetime server)) h) (get_perm (tb_perms s')) /\
    upd (get_ch (tb_chns s)) c (bound_chn x h' k) (get_ch (tb_chns s')).
Proof.
  intros Hs Hc. destruct (update_channel_ok server Hserver s c x Hs Hc) as (p & t & h & h' & s1 & Ho & Hp & He & -> & Hs1 & Hh & Hh' & Hu & Huc).
  cbn [mbind option_bind Z.ltb Z.compare].
  destruct (kernel_ok ss s1 c (renewed_chn x (expires server (channel_lifetime server)) h') family Hs1) as (s2 & k & -> & Hs2 & Eperm & Huk).
  { split; [by apply (upd_eq _ _ _ _ Huc)|apply Hc]. }
  exists p, t, h, h', k, s2. rewrite Eperm. split_and!; try done; [|by apply (upd_trans _ _ _ _ _ _ Huc Huk)].
  pose proof (ts_linked _ Hs) as HL. apply host_eqv; [| |done].
  - apply (po_inet _ _ _ _ (lk_perm _ _ _ HL p t (proj1 Hp) (proj2 Hp))).
  - apply (co_inet _ _ _ _ (lk_chn _ _ _ HL c x (proj1 Hc) (proj2 Hc))).
Qed.

(** A channel made or renewed between [s] and [s']. *)
Lemma refresh_shows s R s1 c x family p0 t0 :
  shows s R -> tables_ok s1 -> is_chn s1 c x -> ch_owner x = Some p0 ->
  upd (get_perm (tb_perms s)) p0 t0 (get_perm (tb_perms s1)) -> upd (get_ch (tb_chns s)) c x (get_ch (tb_chns s1)) ->
  place_of s p0 (host_of (ch_peer x)) -> place_of_chn s c (ch_chnum x) ->
  exists s', ('(r, s) ← update_channel_lifetime all_memory server s1 c;
     if r <? 0 then Some (500, s) else s ← create_kernel_channel ss s c family; Some (0, s)) = Some (0, s') /\
    shows s' (rl_assign R (ch_chnum x) (host_of (ch_peer x)) (peer_port x) (expires server (channel_lifetime server))).
Proof.
  intros HR Hs1 Hc Ho0 Hu0 Huc0 Hpl Hplc.
  destruct (refresh_ok s1 c x family Hs1 Hc) as (p & t & h & h' & k & s' & Hrun & Hs' & Hh & Hh' & Ho & Hp & Eh & Hu & Huc).
  exists s'. split; [done|]. rewrite Ho0 in Ho. injection Ho as <-. rewrite <- Eh in Hpl |- *.
  apply (assign_shows s R HR s' p0 (renewed t (expires server (channel_lifetime server)) h) c (bound_chn x h' k)); try done.
  - by apply (upd_trans _ _ _ _ _ _ Hu0 Hu).
  - by apply (upd_trans _ _ _ _ _ _ Huc0 Huc).
  - apply Hp.
  - apply Hc.
Qed.

Lemma chan_is x k port : (chan_view x).1 = (k, port) <-> host_of (ch_peer x) = k /\ peer_port x = port.
Proof. unfold chan_view. generalize (host_of (ch_peer x)), (peer_port x). cbn [fst]. intros. split; [by intros [= -> ->]|by intros [-> ->]]. Qed.

Lemma same_peer x peer :
  sock_addr peer -> sock_addr (ch_peer x) ->
  addr_eq (Some peer) (Some (ch_peer x)) = bool_decide ((chan_view x).1 = (host_of peer, addr_get_port (Some peer))).
Proof.
  intros Hp Hx. symmetry. case_bool_decide as E; rewrite chan_is in E; symmetry.
  - apply (addr_eqv_ports peer (ch_peer x) Hp Hx). destruct E as [E1 E2]. split; [|done]. by apply host_eqv; [apply Hp|apply Hx|].
  - apply not_true_is_false. intros E'. apply E. apply (addr_eqv_ports peer (ch_peer x) Hp Hx) in E' as [E1 E2].
    apply host_eqv in E1; [done|apply Hp|apply Hx].
Qed.

(** The number is bound. *)
Lemma rebind_ok s R n peer c x :
  shows s R -> sock_addr peer -> is_chn s c x -> ch_chnum x = n -> allocation_get_ch_info s n = Some (Some c) ->
  exists s', channel_bind all_memory server ss s n peer = Some ((rl_bind server (realm_name ss) R n peer).1, s') /\
    shows s' (rl_bind server (realm_name ss) R n peer).2.
Proof.
  intros HR Hpeer Hc <- Hget. pose proof (sh_ok _ _ HR) as Hok. pose proof (ts_linked _ Hok) as HL.
  pose proof (lk_chn _ _ _ HL c x (proj1 Hc) (proj2 Hc)) as Hokc. pose proof (co_inet _ _ _ _ Hokc) as Hx.
  unfold channel_bind, rl_bind. rewrite Hget, (shown_chan s R HR c x Hc). mred. rewrite (proj1 Hc). mred.
  rewrite (same_peer x peer Hpeer Hx).
  case_decide as E; [rewrite bool_decide_true by done|rewrite bool_decide_false by done]; cbn [negb fst snd]; [|by exists s].
  apply chan_is in E as [E1 E2]. destruct (owner_perm s R HR c x Hc) as (p & t & Ho & Hp & Et & _). rewrite Ho, (proj1 Hp). mred.
  assert (addr_eq_no_port (Some peer) (Some (pm_addr t)) = true) as ->.
  { apply host_eqv; [apply Hpeer|apply (po_inet _ _ _ _ (lk_perm _ _ _ HL p t (proj1 Hp) (proj2 Hp)))|congruence]. }
  destruct (co_port _ _ _ _ Hokc) as [_ ->]. rewrite E2, Z.eqb_refl. cbn [negb]. cbn [mbind option_bind Z.eqb negb].
  rewrite <- E1, <- E2.
  apply (refresh_shows s R s c x _ p t); try done; [apply upd_self, Hp|apply upd_self, Hc| |].
  - rewrite <- Et. by apply (place_old s R HR).
  - by apply (place_chn_old s R HR).
Qed.

(** ** The number is new *)

(** The permission a new channel goes to, which may be new as well. *)
Lemma host_permission s R peer :
  shows s R -> inet_addr peer ->
  exists p t perms, (r ← get_from_turn_permission_hashtable (tb_perms s) (Some peer);
      match r with Some p => Some (Some p, tb_perms s) | None => allocation_add_permission all_memory (tb_perms s) (Some peer) end)
      = Some (Some p, perms) /\
    let s' := mk_tables (tb_engine s) perms (tb_chns s) in
    tables_ok s' /\ is_perm s' p t /\ addr_eqv_no_port (pm_addr t) peer /\ place_of s p (host_of peer) /\
    upd (get_perm (tb_perms s)) p t (get_perm perms) /\
    (is_perm s p t \/ ports t = ∅).
Proof.
  intros HR Hi. pose proof (sh_ok _ _ HR) as Hok. pose proof (ts_linked _ Hok) as HL.
  destruct (find_perm s Hok peer Hi) as [(p & t & Hg & Hp & He)|[Hg Hno]]; unfold allocation_get_permission in Hg; rewrite Hg; mred.
  - exists p, t, (tb_perms s). split_and!; [done| |done|done| | |by left]; [by destruct s| |by apply upd_self, Hp].
    assert (host_of (pm_addr t) = host_of peer) as <-; [|by apply (place_old s R HR)].
    apply host_eqv; [apply (po_inet _ _ _ _ (lk_perm _ _ _ HL p t (proj1 Hp) (proj2 Hp)))|done|done].
  - destruct (add_permission_ok s Hok peer Hi Hno) as (p & perms & -> & Hok0 & Hfree & Hu).
    exists p, (new_permission peer), perms. split_and!; try done.
    + split; [by apply (upd_eq _ _ _ _ Hu)|done].
    + apply addr_eq_no_port_spec. destruct Hi; by auto.
    + apply place_new; [done|]. intros q w Hq E. apply (Hno q w Hq). apply host_eqv; [|done|done].
      apply (po_inet _ _ _ _ (lk_perm _ _ _ HL q w (proj1 Hq) (proj2 Hq))).
    + right. symmetry. apply lm_rep_ports, lm_map_init_rep.
Qed.

(** Whether the host's permission has a channel for the port. *)
Lemma bound_spec s R p t peer :
  shows s R -> is_perm s p t -> host_of (pm_addr t) = host_of peer ->
  (rl_bound R (host_of peer) (addr_get_port (Some peer)) <-> is_Some (ports t !! addr_get_port (Some peer))).
Proof.
  intros HR Hp Eh. pose proof (sh_ok _ _ HR) as Hok. pose proof (ts_linked _ Hok) as HL. split.
  - intros (n & e & (c & x & Hc & _ & [= Ek Eport _])%(sh_chans _ _ HR)). exists c.
    destruct (owner_perm s R HR c x Hc) as (q & u & _ & Hq & Eq & Hk). assert (q = p) as -> by (apply (perm_unique s R HR q u p t); [done|done|congruence]).
    rewrite (perm_same s p t u) by done. rewrite <- Hk. f_equal. exact (eq_sym Eport).
  - intros [c Hk]. destruct (po_chns _ _ _ _ (lk_perm _ _ _ HL p t (proj1 Hp) (proj2 Hp)) _ c Hk) as (x & Hc & Hx & Ho & Hport).
    exists (ch_chnum x), (ch_expiration x). apply (sh_chans _ _ HR). exists c, x. split_and!; [done|done|].
    destruct (owner_perm s R HR c x (conj Hc Hx)) as (q & u & Ho' & Hq & Eq & _). rewrite Ho in Ho'. injection Ho' as <-.
    rewrite (perm_same s p u t) in Eq by done. unfold chan_view. by rewrite <- Eq, Eh, Hport.
Qed.

Lemma new_ok s R n peer :
  shows s R -> sock_addr peer -> 0 < addr_get_port (Some peer) -> STUN_VALID_CHANNEL n = true ->
  (forall c x, is_chn s c x -> ch_chnum x <> n) -> ~ rl_bound R (host_of peer) (addr_get_port (Some peer)) ->
  exists p t c x s1, allocation_get_new_ch_info all_memory s n peer = Some (Some c, s1) /\ tables_ok s1 /\ is_chn s1 c x /\
    ch_owner x = Some p /\ ch_chnum x = n /\ ch_peer x = peer /\
    upd (get_perm (tb_perms s)) p t (get_perm (tb_perms s1)) /\ upd (get_ch (tb_chns s)) c x (get_ch (tb_chns s1)) /\
    place_of s p (host_of peer) /\ place_of_chn s c n.
Proof.
  intros HR Hpeer Hport Hn Hnum Hnb. destruct (host_permission s R peer HR (proj1 Hpeer)) as (p & t & perms & Hrun & Hok & Hp & He & Hpl & Hu & Hold).
  assert (host_of (pm_addr t) = host_of peer) as Eh.
  { apply host_eqv; [|apply Hpeer|done]. apply (po_inet _ _ _ _ (lk_perm _ _ _ (ts_linked _ Hok) p t (proj1 Hp) (proj2 Hp))). }
  assert (ports t !! addr_get_port (Some peer) = None) as Hnone.
  { apply eq_None_not_Some. intros Hsome. destruct Hold as [Hold|E]; [apply Hnb; by apply (bound_spec s R p t)|].
    rewrite E, lookup_empty in Hsome. by destruct Hsome. }
  destruct (new_channel_ok _ Hok p t n peer Hp He Hpeer Hport Hn Hnum Hnone) as (c & x & m & chns & perms' & Hnew & Hok1 & Hfree & Ex & Huc & Hup).
  exists p, (with_chns t m), c, x, (mk_tables (tb_engine s) perms' chns). split_and!.
  - unfold allocation_get_new_ch_info. destruct (get_from_turn_permission_hashtable _ _) as [r|]; [|done].
    cbn [mbind option_bind] in Hrun |- *. rewrite Hrun. exact Hnew.
  - done.
  - split; [by apply (upd_eq _ _ _ _ Huc)|by rewrite Ex].
  - by rewrite Ex.
  - by rewrite Ex.
  - by rewrite Ex.
  - by apply (upd_trans _ _ _ _ _ _ Hu Hup).
  - done.
  - done.
  - by apply place_chn_new.
Qed.

Lemma peer_lookup s R peer :
  shows s R -> inet_addr peer -> 0 < addr_get_port (Some peer) ->
  exists r, allocation_get_ch_info_by_peer_addr s peer = Some r /\ (is_Some r <-> rl_bound R (host_of peer) (addr_get_port (Some peer))).
Proof.
  intros HR Hi Hport. pose proof (sh_ok _ _ HR) as Hok. pose proof (ts_linked _ Hok) as HL. unfold allocation_get_ch_info_by_peer_addr.
  destruct (find_perm s Hok peer Hi) as [(p & t & Hg & Hp & He)|[Hg Hno]]; unfold allocation_get_permission in Hg; rewrite Hg; mred.
  - assert (host_of (pm_addr t) = host_of peer) as Eh.
    { apply host_eqv; [|done|done]. apply (po_inet _ _ _ _ (lk_perm _ _ _ HL p t (proj1 Hp) (proj2 Hp))). }
    pose proof (bound_spec s R p t peer HR Hp Eh) as Hb.
    destruct (perm_channel s Hok p t peer Hp Hport) as [(c & x & -> & _ & _ & _ & _ & Hk)|(-> & _ & Hk)]; rewrite Hk in Hb; eexists;
      (split; [done|]); rewrite Hb; split; by intros [? ?] || eauto.
  - exists None. split; [done|]. split; [by intros [? ?]|]. intros (n & e & (c & x & Hc & _ & [= Ek _ _])%(sh_chans _ _ HR)). exfalso.
    destruct (owner_perm s R HR c x Hc) as (q & u & _ & Hq & Eq & _). apply (Hno q u Hq).
    apply host_eqv; [apply (po_inet _ _ _ _ (lk_perm _ _ _ HL q u (proj1 Hq) (proj2 Hq)))|done|congruence].
Qed.

Lemma bind_ok s R n peer :
  shows s R -> sock_addr peer -> 0 < addr_get_port (Some peer) -> STUN_VALID_CHANNEL n = true ->
  exists s', channel_bind all_memory server ss s n peer = Some ((rl_bind server (realm_name ss) R n peer).1, s') /\
    shows s' (rl_bind server (realm_name ss) R n peer).2.
Proof.
  intros HR Hpeer Hport Hn. pose proof (sh_ok _ _ HR) as Hok.
  destruct (find_channel s Hok n) as [(c & x & Hget & Hc & E)|[Hget Hnum]]; [by apply (rebind_ok s R n peer c x)|].
  unfold channel_bind, rl_bind. rewrite Hget. mred.
  assert (rl_chans R !! n = None) as ->.
  { apply eq_None_not_Some. intros [v (c & x & Hc & E & _)%(sh_chans _ _ HR)]. by apply (Hnum c x). }
  destruct (peer_lookup s R peer HR (proj1 Hpeer) Hport) as (r & -> & Hr). mred.
  destruct (decide (rl_bound R (host_of peer) (addr_get_port (Some peer)))) as [Hb|Hnb].
  - apply Hr in Hb as [c ->]. mred. by exists s.
  - destruct r as [c|]; [by destruct Hnb; apply Hr|]. destruct (good_peer_addr server (realm_name ss) peer); [|by exists s]. cbn [negb].
    destruct (new_ok s R n peer HR Hpeer Hport Hn Hnum Hnb) as (p & t & c & x & s1 & -> & Hok1 & Hc & Ho & <- & <- & Hu & Huc & Hpl & Hplc). mred.
    rewrite (proj1 Hc). mred. rewrite Ho. cbn [Z.eqb negb fst snd].
    by apply (refresh_shows s R s1 c x _ p t).
Qed.

End bind.
