(* ===== verification/RelaySystem.v ===== *)
(** * Runs of the relay

    Requests and expiring timers as steps, from an allocation without permissions.  Every
    run is one of the abstract relay, with the same error codes. *)

From S2P Require Import Prelude IoAddr StunHeader StunAttr StunFields Integrity Buckets LmMap IoTimer Permission PermMem PermLink PermFacts Session SessionFacts RelayFacts RelayBind.

(** ** Steps *)

(** The server is part of a request: its clock and its settings may change in between. *)
Inductive request :=
  | CreatePermission (server : turn_turnserver) (peer : ioa_addr)
  | ChannelBind (server : turn_turnserver) (ss : session) (n : Z) (peer : ioa_addr)
  | Timeout (th : Z).

Definition serve (r : request) (s : tables) : option (Z * tables) :=
  match r with
  | CreatePermission server peer => update_permission all_memory server s peer
  | ChannelBind server ss n peer => channel_bind all_memory server ss s n peer
  | Timeout th => s ← timer_event_handler s th; Some (0, s)
  end.

(** What the message parsers and the event loop pass on. *)
Inductive pending (s : tables) : request -> Prop :=
  | pending_permission server peer :
      server_ok server -> inet_addr peer -> addr_get_port (Some peer) = 0 -> pending s (CreatePermission server peer)
  | pending_bind server ss n peer :
      server_ok server -> sock_addr peer -> 0 < addr_get_port (Some peer) -> STUN_VALID_CHANNEL n = true ->
      pending s (ChannelBind server ss n peer)
  | pending_perm_timer th p : timers (tb_engine s) !! th = Some (PermTimer p) -> pending s (Timeout th)
  | pending_chan_timer th c : timers (tb_engine s) !! th = Some (ChanTimer c) -> pending s (Timeout th).

Inductive run (s0 : tables) : list (request * Z) -> tables -> Prop :=
  | run_nil : run s0 [] s0
  | run_snoc tr s r code s' : run s0 tr s -> pending s r -> serve r s = Some (code, s') -> run s0 (tr ++ [(r, code)]) s'.

(** ** The abstract steps *)

Inductive rl_step (R : relay) : request -> Z -> relay -> Prop :=
  | rl_step_permission server peer :
      rl_step R (CreatePermission server peer) 0 (rl_permit R (host_of peer) (expires server (permission_lifetime server)))
  | rl_step_bind server ss n peer :
      rl_step R (ChannelBind server ss n peer) (rl_bind server (realm_name ss) R n peer).1 (rl_bind server (realm_name ss) R n peer).2
  | rl_step_perm_expires th k : is_Some (rl_perms R !! k) -> rl_step R (Timeout th) 0 (rl_drop_perm R k)
  | rl_step_chan_expires th n : is_Some (rl_chans R !! n) -> rl_step R (Timeout th) 0 (rl_drop_chan R n).

Inductive rl_run : list (request * Z) -> relay -> Prop :=
  | rl_run_nil : rl_run [] no_relay
  | rl_run_snoc tr R r code R' : rl_run tr R -> rl_step R r code R' -> rl_run (tr ++ [(r, code)]) R'.

(** ** Simulation *)

Lemma timeout_ok s R th :
  shows s R -> pending s (Timeout th) ->
  exists s' R', serve (Timeout th) s = Some (0, s') /\ shows s' R' /\ rl_step R (Timeout th) 0 R'.
Proof.
  intros HR Hp. pose proof (ts_linked _ (sh_ok _ _ HR)) as HL. inversion Hp as [| |? p Hth|? c Hth]; subst; cbn [serve];
    unfold timer_event_handler; rewrite Hth; mred; destruct (lk_timers _ _ _ HL th _ Hth) as (_ & y & Hy & Ha & _).
  - unfold client_ss_perm_timeout_handler. rewrite Hy. mred. rewrite Ha. cbn [negb].
    destruct (expire_perm s R HR p y (conj Hy Ha)) as (s' & -> & Hs'). mred. eexists _, _. split_and!; [done|done|].
    apply rl_step_perm_expires. exists (pm_expiration y). by apply (shown_perm s R HR p).
  - unfold client_ss_channel_timeout_handler. destruct (expire_chan s R HR c y (conj Hy Ha)) as (s' & -> & Hs'). mred.
    eexists _, _. split_and!; [done|done|]. apply rl_step_chan_expires. exists (chan_view y). by apply (shown_chan s R HR c).
Qed.

Lemma serve_ok s R r :
  shows s R -> pending s r -> exists code s' R', serve r s = Some (code, s') /\ shows s' R' /\ rl_step R r code R'.
Proof.
  intros HR Hp. destruct r as [server peer|server ss n peer|th].
  - inversion Hp; subst. destruct (permit_ok server s R peer) as (s' & Hrun & _ & Hs'); [done..|].
    eexists 0, s', _. split_and!; [done|done|constructor].
  - inversion Hp; subst. destruct (bind_ok server) with (ss := ss) (s := s) (R := R) (n := n) (peer := peer) as (s' & Hrun & Hs'); [done..|].
    eexists _, s', _. split_and!; [done|done|constructor].
  - destruct (timeout_ok s R th HR Hp) as (s' & R' & H). by exists 0, s', R'.
Qed.

Lemma run_shows tr s : run init_tables tr s -> exists R, rl_run tr R /\ shows s R.
Proof.
  induction 1 as [|tr s r code s' Hrun (R & HR & Hs) Hp Hserve]; [exists no_relay; split; [constructor|apply shows_init]|].
  destruct (serve_ok s R r Hs Hp) as (code' & s'' & R' & Hserve' & Hs' & Hstep). rewrite Hserve in Hserve'. injection Hserve' as <- <-.
  exists R'. split; [by apply (rl_run_snoc tr R)|done].
Qed.

(** ** An example

    A permission, a channel for the same peer, and the timer of the channel. *)

Definition plain_server : turn_turnserver :=
  mk_server 1000 300 600 false false false false [] [] [] [] [] false false false None
    TURN_CREDENTIALS_LONG_TERM 600 false false false 3600 false false false [] None false ALLOCATION_DEFAULT_ADDRESS_FAMILY_IPV4 false None false.
Definition plain_session : session := mk_session false [] true 7 0 false UDP_SOCKET UDP_SOCKET 0 0 false true.
Definition example_peer (port : Z) : ioa_addr := v4 198 51 100 7 port.

Fixpoint serve_all (rs : list request) (s : tables) : option tables :=
  match rs with [] => Some s | r :: rs => '(_, s) ← serve r s; serve_all rs s end.

Definition example_requests : list request :=
  [CreatePermission plain_server (example_peer 0); ChannelBind plain_server plain_session 0x4001 (example_peer 4000)].
Definition example_tables : tables := default init_tables (serve_all example_requests init_tables).
Definition example_trace : list (request * Z) := (fun r => (r, 0)) <$> example_requests.

(** Its channel. *)
Definition example_chan : ch_info := default zero_ch (get_ch (tb_chns example_tables) 2).

Lemma plain_server_ok : server_ok plain_server.
Proof. by split. Qed.

Lemma example_peer_ok : sock_addr (example_peer 4000).
Proof. split; [by left|]. by vm_compute. Qed.

Lemma example_run : run init_tables example_trace example_tables.
Proof.
  apply (run_snoc init_tables [(CreatePermission plain_server (example_peer 0), 0)]
    (default init_tables (serve_all [CreatePermission plain_server (example_peer 0)] init_tables))).
  - apply (run_snoc init_tables [] init_tables); [constructor| |vm_compute; reflexivity].
    apply pending_permission; [apply plain_server_ok|by left|done].
  - apply pending_bind; [apply plain_server_ok|apply example_peer_ok|done|done].
  - vm_compute. reflexivity.
Qed.

(** ** Properties *)

(** C3 The relay implements its specification: any run of CreatePermission requests,
    ChannelBind requests and expiring timers is, with the same error codes, a run of the
    abstract relay whose state the tables stand for; and after it every request and every
    pending timer can be served: no handler reads through a pointer that is not valid. *)
Theorem relay_refines tr s :
  run init_tables tr s ->
  (exists R, rl_run tr R /\ shows s R) /\ (forall r, pending s r -> is_Some (serve r s)).
Proof.
  intros (R & HR & Hs)%run_shows. split; [by exists R|]. intros r Hp.
  destruct (serve_ok s R r Hs Hp) as (code & s' & R' & -> & _). done.
Qed.

Lemma relay_refines_witness :
  run init_tables example_trace example_tables /\ (exists R, rl_run example_trace R /\ shows example_tables R) /\
  is_Some (serve (Timeout 3) example_tables).
Proof.
  split; [apply example_run|]. destruct (relay_refines example_trace example_tables example_run) as [H1 H2]. split; [done|].
  apply H2, (pending_chan_timer _ 3 2). vm_compute. reflexivity.
Defined.

(** C21 What the data path relies on: a bound channel's peer has a permission, and the
    permission leads from the peer's port back to the same channel and number; a peer has
    one number at most, and a number has one channel. *)
Theorem relay_channels_permitted tr s n c :
  run init_tables tr s -> allocation_get_ch_info s n = Some (Some c) ->
  exists x p, get_ch (tb_chns s) c = Some x /\ ch_allocated x = true /\ ch_chnum x = n /\
    allocation_get_permission s (Some (ch_peer x)) = Some (Some p) /\ ch_owner x = Some p /\
    get_turn_channel s p (ch_peer x) = Some (Some c) /\ get_turn_channel_number s p (ch_peer x) = Some n /\
    (forall m d, allocation_get_ch_info s m = Some (Some d) ->
       forall y, get_ch (tb_chns s) d = Some y -> addr_eqv (ch_peer x) (ch_peer y) -> m = n).
Proof.
  intros (R & HR & Hs)%run_shows Hget. pose proof (sh_ok _ _ Hs) as Hok. pose proof (ts_linked _ Hok) as HL.
  destruct (find_channel s Hok n) as [(c' & x & Hget' & Hc & Hn)|[Hget' _]]; rewrite Hget in Hget'; [injection Hget' as <-|done].
  pose proof (lk_chn _ _ _ HL c x (proj1 Hc) (proj2 Hc)) as Hokc. pose proof (co_inet _ _ _ _ Hokc) as Hpeer.
  destruct (owner_perm s R Hs c x Hc) as (p & t & Ho & Hp & Eh & Hk).
  assert (allocation_get_permission s (Some (ch_peer x)) = Some (Some p)) as Hperm.
  { destruct (find_perm s Hok (ch_peer x) (proj1 Hpeer)) as [(q & u & -> & Hq & He)|[_ Hno]].
    - do 2 f_equal. apply (perm_unique s R Hs q u p t); [done..|]. rewrite Eh. apply host_eqv; [|apply Hpeer|done].
      apply (po_inet _ _ _ _ (lk_perm _ _ _ HL q u (proj1 Hq) (proj2 Hq))).
    - destruct (Hno p t Hp). apply host_eqv; [apply (po_inet _ _ _ _ (lk_perm _ _ _ HL p t (proj1 Hp) (proj2 Hp)))|apply Hpeer|done]. }
  exists x, p. assert (0 < addr_get_port (Some (ch_peer x))) as Hport by apply (co_port _ _ _ _ Hokc).
  destruct (perm_channel s Hok p t (ch_peer x) Hp Hport) as [(d & y & Hg & Hnum & Hd & _ & _ & Hk')|(_ & _ & Hk')].
  2: { unfold peer_port in Hk. congruence. }
  assert (d = c) as -> by (unfold peer_port in Hk; congruence). rewrite (chn_same s c y x Hd Hc), Hn in Hnum.
  split_and!; try done; [apply Hc|apply Hc|].
  intros m d Hm z Hz He. destruct (find_channel s Hok m) as [(d' & z' & Hm' & Hd' & Hmz)|[Hm' _]]; rewrite Hm in Hm'; [injection Hm' as <-|done].
  assert (z' = z) as -> by (destruct Hd'; congruence). pose proof (lk_chn _ _ _ HL d z (proj1 Hd') (proj2 Hd')) as Hokz.
  apply (addr_eqv_ports _ _ Hpeer (co_inet _ _ _ _ Hokz)) in He as [He Eport].
  assert (c = d) as ->; [|destruct Hc, Hd'; congruence]. apply (peer_unique s R Hs c x d z); try done.
  by apply host_eqv; [apply Hpeer|apply (co_inet _ _ _ _ Hokz)|].
Qed.

Lemma relay_channels_permitted_witness :
  allocation_get_ch_info example_tables 0x4001 = Some (Some 2) /\ exists p, allocation_get_permission example_tables (Some (example_peer 9)) = Some (Some p).
Proof.
  split; [vm_compute; reflexivity|].
  destruct (relay_channels_permitted example_trace example_tables 0x4001 2 example_run) as (x & p & Hx & _ & _ & Hp & _); [vm_compute; reflexivity|].
  exists p. vm_compute in Hx. injection Hx as <-. exact Hp.
Defined.

(** C22 Nothing outlives its timer, and no timer outlives its object: every permission and
    channel in use has a pending timer with its own pointer, and every pending timer points
    to a permission or channel in use that holds it. *)
Theorem relay_timers_exact tr s :
  run init_tables tr s ->
  (forall p t, get_perm (tb_perms s) p = Some t -> pm_allocated t = true -> timers (tb_engine s) !! pm_ev t = Some (PermTimer p)) /\
  (forall c x, get_ch (tb_chns s) c = Some x -> ch_allocated x = true -> timers (tb_engine s) !! ch_ev x = Some (ChanTimer c)) /\
  (forall th ctx, timers (tb_engine s) !! th = Some ctx -> timer_held (get_perm (tb_perms s)) (get_ch (tb_chns s)) th ctx).
Proof.
  intros (R & HR & Hs)%run_shows. pose proof (ts_linked _ (sh_ok _ _ Hs)) as HL. destruct (sh_armed _ _ Hs) as [A1 A2]. split_and!.
  - intros p t Hp Ha. by apply (po_timer _ _ _ _ (lk_perm _ _ _ HL p t Hp Ha)), (A1 p t).
  - intros c x Hc Hx. by apply (co_timer _ _ _ _ (lk_chn _ _ _ HL c x Hc Hx)), (A2 c x).
  - intros th ctx Hth. by apply (lk_timers _ _ _ HL th ctx Hth).
Qed.

Lemma relay_timers_exact_witness :
  run init_tables example_trace example_tables /\
  forall th ctx, timers (tb_engine example_tables) !! th = Some ctx -> timer_held (get_perm (tb_perms example_tables)) (get_ch (tb_chns example_tables)) th ctx.
Proof. split; [apply example_run|]. apply (relay_timers_exact example_trace example_tables example_run). Defined.
