(* ===== verification/RelayEnd.v ===== *)
(** * The end of an allocation

    [clear_allocation] frees the permissions and then the channels: nothing is left in use
    and no timer is pending. *)

From S2P Require Import Prelude IoAddr StunHeader Buckets LmMap IoTimer Permission PermMem PermLink PermFacts Session SessionFacts RelayFacts RelayBind RelaySystem.

(** Slots and cells that are not in use can be freed. *)
Lemma linked_sub P P' C T :
  linked P C T -> (forall p t, P' p = Some t -> P p = Some t) -> (forall p t, P p = Some t -> pm_allocated t = true -> P' p = Some t) ->
  linked P' C T.
Proof.
  intros HL Hsub Hkeep. split.
  - intros p t Hp Ha. by apply (lk_perm _ _ _ HL p t), Ha; apply Hsub.
  - intros p t Hp. by apply (lk_free_perm _ _ _ HL p t), Hsub.
  - intros p q t u Hp Ha Hq Hb. apply (lk_unique _ _ _ HL p q t u); auto.
  - intros c x Hc Hx. pose proof (lk_chn _ _ _ HL c x Hc Hx) as [H1 H2 H3 H4 H5 (p & t & Ho & Hp & Ha & Hr)]. split; try done.
    exists p, t. split_and!; [done|by apply Hkeep|done|apply Hr..].
  - apply (lk_free_chn _ _ _ HL).
  - apply (lk_chnum _ _ _ HL).
  - intros h x Hx. destruct (lk_timers _ _ _ HL h x Hx) as [Hh Hheld]. split; [done|]. destruct x as [p|c]; [|done].
    destruct Hheld as (t & Hp & Ha & <-). exists t. by split_and!; [apply Hkeep|..].
Qed.

(** The slots of a bucket from [j] on. *)
Lemma clean_slots_ok n : forall s i j,
  tables_ok s -> (forall k, (j <= k < j + n)%nat -> is_Some (get_perm (tb_perms s) (i, k))) ->
  exists s', clean_slots n s i j = Some s' /\ tables_ok s' /\
    (forall q, is_Some (get_perm (tb_perms s') q) <-> is_Some (get_perm (tb_perms s) q)) /\
    forall q t, is_perm s' q t -> is_perm s q t /\ ~ (q.1 = i /\ j <= q.2 < j + n)%nat.
Proof.
  induction n as [|n IH]; intros s i j Hs Hslots; cbn [clean_slots].
  { exists s. split_and!; [done..|]. intros q t Hq. split; [done|lia]. }
  destruct (Hslots j) as [t Ht]; [lia|]. rewrite Ht. cbn [mbind option_bind].
  assert (exists s1, (if pm_allocated t then turn_permission_clean s (i, j) else Some s) = Some s1 /\ tables_ok s1 /\
    (forall q, is_Some (get_perm (tb_perms s1) q) <-> is_Some (get_perm (tb_perms s) q)) /\
    (forall q u, is_perm s1 q u -> is_perm s q u /\ q <> (i, j))) as (s1 & -> & Hs1 & Hsome & Hq1).
  { destruct (pm_allocated t) eqn:Ea.
    - destruct (clean_permission_ok s (i, j) t Hs (conj Ht Ea)) as (s1 & Hrun & Hs1 & Hu & _). exists s1. split_and!; [done|done| |].
      + intros q. rewrite (Hu q). case_decide as E; [subst q; rewrite Ht|done]. by split; eauto.
      + intros q u [Hne Hq]%(is_perm_del s s1 (i, j)); [|done]. by split.
    - exists s. split_and!; [done..|]. intros q u Hq. split; [done|]. intros ->. destruct Hq as [Hq Hua]. congruence. }
  cbn [mbind option_bind]. destruct (IH s1 i (S j) Hs1) as (s' & -> & Hs' & Hsome' & Hq').
  { intros k Hk. apply Hsome, Hslots. lia. }
  exists s'. split_and!; [done|done|by intros q; rewrite Hsome'|]. intros q u Hq. destruct (Hq' q u Hq) as [Hqs1 Hne].
  destruct (Hq1 q u Hqs1) as [Hqs Hne']. split; [done|]. intros [E1 E2]. destruct q as [q1 q2]. cbn in *. subst q1.
  destruct (decide (q2 = j)) as [->|]; [done|]. apply Hne. split; [done|lia].
Qed.

Lemma slots_some map i a k :
  perms_shape map -> map !! i = Some a -> (k < length (slot_list a))%nat -> is_Some (get_perm map (i, k)).
Proof.
  intros [_ Hsh] Ha Hk. pose proof (Forall_lookup_1 _ _ _ _ Hsh Ha) as Hf. destruct (lookup_lt_is_Some_2 _ _ Hk) as [o Ho].
  destruct (Forall_lookup_1 _ _ _ _ Hf Ho) as [t ->]. exists t. apply get_perm_Some. by exists a.
Qed.

(** Freeing the further slots of a bucket without permissions in use. *)
Lemma drop_slots_ok s i a :
  tables_ok s -> tb_perms s !! i = Some a -> (forall q t, is_perm s q t -> q.1 <> i) ->
  let s' := mk_tables (tb_engine s) (<[i := mk_permission_array (main_slots a) []]> (tb_perms s)) (tb_chns s) in
  tables_ok s' /\ forall q t, is_perm s' q t -> is_perm s q t.
Proof.
  intros Hs Ha Hno s'. pose proof (lookup_lt_Some _ _ _ Ha) as Hlt.
  assert (forall q t, get_perm (tb_perms s') q = Some t -> get_perm (tb_perms s) q = Some t) as Hsub.
  { intros q t (b & Hb & Ht)%get_perm_Some. apply get_perm_Some. cbn in Hb. apply list_lookup_insert_Some in Hb as [(<- & <- & _)|[_ Hb]]; [|by exists b].
    exists a. split; [done|]. unfold slot_list in *. cbn in Ht. rewrite app_nil_r in Ht. by apply lookup_app_l_Some. }
  split; [split; cbn; [apply Hs| |apply Hs|]|].
  - destruct (ts_perms _ Hs) as [Hlen Hf]. split; [by rewrite length_insert|]. apply Forall_insert; [done|].
    unfold slot_list. cbn. rewrite app_nil_r. apply Forall_fmap, Forall_true. by eauto.
  - apply (linked_sub _ _ _ _ (ts_linked _ Hs) Hsub). intros q t Hq Hqa. destruct (decide (q.1 = i)) as [E|E]; [by destruct (Hno q t (conj Hq Hqa))|].
    apply get_perm_Some in Hq as (b & Hb & Ht). apply get_perm_Some. exists b. split; [|done]. cbn. by rewrite list_lookup_insert_ne.
  - intros q t [Hq Hqa]. split; [by apply Hsub|done].
Qed.

Lemma free_buckets_ok n : forall s i,
  tables_ok s -> (i + n = 8)%nat -> (forall q t, is_perm s q t -> (i <= q.1)%nat) ->
  exists s', free_buckets n s i = Some s' /\ tables_ok s' /\ forall q t, ~ is_perm s' q t.
Proof.
  induction n as [|n IH]; intros s i Hs Hi Hlow; cbn [free_buckets].
  { exists s. split_and!; [done..|]. intros q t Hq. pose proof (Hlow q t Hq). destruct Hq as [(a & Ha & _)%get_perm_Some _].
    apply lookup_lt_Some in Ha. destruct (ts_perms _ Hs) as [Hlen _]. lia. }
  destruct (ts_perms _ Hs) as [Hlen Hsh]. destruct (lookup_lt_is_Some_2 (tb_perms s) i) as [a Ha]; [lia|]. rewrite Ha. cbn [mbind option_bind].
  destruct (clean_slots_ok (length (slot_list a)) s i 0 Hs) as (s1 & -> & Hs1 & Hsome & Hq1).
  { intros k Hk. apply (slots_some _ _ a); [apply Hs|done|lia]. }
  cbn [mbind option_bind]. destruct (ts_perms _ Hs1) as [Hlen1 Hsh1]. destruct (lookup_lt_is_Some_2 (tb_perms s1) i) as [b Hb]; [lia|]. rewrite Hb. cbn [mbind option_bind].
  assert (forall q t, is_perm s1 q t -> (i < q.1)%nat) as Hlow1.
  { intros q t Hq. destruct (Hq1 q t Hq) as [Hqs Hne]. pose proof (Hlow q t Hqs). destruct (decide (q.1 = i)) as [E|E]; [|lia]. exfalso. apply Hne.
    split; [done|]. destruct Hqs as [(a' & Ha' & Hk)%get_perm_Some _]. rewrite E, Ha in Ha'. injection Ha' as <-. apply lookup_lt_Some in Hk. lia. }
  destruct (drop_slots_ok s1 i b Hs1 Hb) as [Hs2 Hq2].
  { intros q t Hq. pose proof (Hlow1 q t Hq). lia. }
  apply (IH _ (S i)); [done|lia|]. intros q t Hq. pose proof (Hlow1 q t (Hq2 q t Hq)). lia.
Qed.

(** The cells, when none is in use. *)
Lemma clean_cells_none n e map i : forall j,
  (forall k, (j <= k < j + n)%nat -> exists x, get_ch map (ch_addr i k) = Some x /\ ch_allocated x = false) ->
  clean_cells n e map i j = Some (e, map).
Proof.
  induction n as [|n IH]; intros j Hk; cbn [clean_cells]; [done|]. destruct (Hk j) as (x & -> & Hx); [lia|]. cbn [mbind option_bind].
  rewrite Hx. cbn [mbind option_bind]. apply IH. intros k Hk'. apply Hk. lia.
Qed.

Lemma free_chn_buckets_none n e : forall map i,
  (i + n = 8)%nat -> length map = 8%nat -> (forall c x, get_ch map c = Some x -> ch_allocated x = false) ->
  exists map', free_chn_buckets n e map i = Some (e, map') /\ forall c x, get_ch map' c = Some x -> ch_allocated x = false.
Proof.
  induction n as [|n IH]; intros map i Hi Hlen Hno; cbn [free_chn_buckets]; [by exists map|].
  destruct (lookup_lt_is_Some_2 map i) as [a Ha]; [lia|]. rewrite Ha. cbn [mbind option_bind]. rewrite clean_cells_none.
  2: { intros k Hk. destruct (lookup_lt_is_Some_2 (cell_list a) k) as [x Hx]; [lia|]. destruct (ch_addr_spec i k) as (E1 & E2 & E3); [lia|].
       assert (get_ch map (ch_addr i k) = Some x) as Hg by (apply get_ch_Some; split; [done|]; exists a; by rewrite E1, E2). exists x. split; [done|by apply (Hno (ch_addr i k))]. }
  cbn [mbind option_bind]. rewrite Ha. cbn [mbind option_bind]. apply IH; [lia|by rewrite length_insert|].
  intros c x (Hc & b & Hb & Hx)%get_ch_Some. apply (Hno c). apply get_ch_Some. split; [done|].
  apply list_lookup_insert_Some in Hb as [(E & <- & _)|[_ Hb]]; [|by exists b]. exists a. rewrite <- E. split; [done|].
  unfold cell_list in *. cbn in Hx. rewrite app_nil_r in Hx. by apply lookup_app_l_Some.
Qed.

(** C23 Clearing an allocation leaves nothing behind: after any run, freeing the
    permissions and then the channels is defined, no permission and no channel is in use
    any more, and no timer is pending that could call back with a freed pointer. *)
Theorem clear_leaves_nothing tr s :
  run init_tables tr s ->
  exists s' e chns, free_turn_permission_hashtable s = Some s' /\ ch_map_clean (tb_engine s') (tb_chns s') = Some (e, chns) /\
    timers e = ∅ /\ (forall p t, get_perm (tb_perms s') p = Some t -> pm_allocated t = false) /\
    (forall c x, get_ch chns c = Some x -> ch_allocated x = false).
Proof.
  intros (R & _ & Hs)%run_shows. destruct (free_buckets_ok 8 s 0 (sh_ok _ _ Hs) eq_refl) as (s' & Hfree & Hs' & Hno); [lia|].
  pose proof (ts_linked _ Hs') as HL.
  assert (forall p t, get_perm (tb_perms s') p = Some t -> pm_allocated t = false) as Hnop.
  { intros p t Hp. destruct (pm_allocated t) eqn:Ea; [|done]. by destruct (Hno p t). }
  assert (forall c x, get_ch (tb_chns s') c = Some x -> ch_allocated x = false) as Hnoc.
  { intros c x Hc. destruct (ch_allocated x) eqn:Ex; [|done]. destruct (co_owner _ _ _ _ (lk_chn _ _ _ HL c x Hc Ex)) as (p & t & _ & Hp & Ha & _). by destruct (Hno p t). }
  destruct (free_chn_buckets_none 8 (tb_engine s') (tb_chns s') 0 eq_refl (ts_chns _ Hs') Hnoc) as (chns & Hclean & Hnoc').
  exists s', (tb_engine s'), chns. split_and!; try done. apply map_empty. intros th. apply eq_None_not_Some. intros [ctx Hth].
  destruct (lk_timers _ _ _ HL th ctx Hth) as [_ Hheld]. destruct ctx as [p|c].
  - destruct Hheld as (t & Hp & Ha & _). rewrite (Hnop p t Hp) in Ha. done.
  - destruct Hheld as (x & Hc & Hx & _). rewrite (Hnoc c x Hc) in Hx. done.
Qed.

Lemma clear_leaves_nothing_witness :
  timers (tb_engine example_tables) <> ∅ /\
  exists s' e chns, free_turn_permission_hashtable example_tables = Some s' /\ ch_map_clean (tb_engine s') (tb_chns s') = Some (e, chns) /\ timers e = ∅.
Proof.
  split; [vm_compute; discriminate|].
  destruct (clear_leaves_nothing example_trace example_tables example_run) as (s' & e & chns & H1 & H2 & H3 & _).
  exists s', e, chns. exact (conj H1 (conj H2 H3)).
Defined.
