(* ===== verification/AttrWalk.v ===== *)
(** * Walking over the attributes of a request

    The handlers' loops carry a state and stop on a condition.  On any received bytes the
    walk ends, and it is a fold over the attributes of the message. *)

From S2P Require Import Prelude IoAddr MsgAddr StunHeader StunAttr StunFields PermLink.

(** [while (sar && cond) { body; sar = stun_attr_get_next_str(...); }] *)
Fixpoint attr_while {S} (fuel : nat) (buf : list Z) (len : Z) (cond : S -> bool) (body : Z -> S -> option S)
    (sar : option Z) (s : S) : option S :=
  match sar with
  | None => Some s
  | Some a =>
    if negb (cond s) then Some s else
    match fuel with
    | O => None
    | Datatypes.S fuel =>
      s ← body a s;
      next ← stun_attr_get_next_str buf len (Some a);
      attr_while fuel buf len cond body next s
    end
  end.

Definition attr_walk {S} (buf : list Z) (len : Z) (cond : S -> bool) (body : Z -> S -> option S) (s : S) : option S :=
  sar ← stun_attr_get_first_str buf len;
  attr_while (attr_fuel len) buf len cond body sar s.

(** The same over a list. *)
Fixpoint fold_attrs {S} (cond : S -> bool) (body : Z -> S -> option S) (l : list (Z * sattr)) (s : S) : option S :=
  match l with
  | [] => Some s
  | (o, _) :: l => if negb (cond s) then Some s else s ← body o s; fold_attrs cond body l s
  end.

Lemma attr_while_fold {S} (cond : S -> bool) body buf len l1 l2 g fuel (s : S) :
  framed buf len (l1 ++ l2) g -> (length l2 <= fuel)%nat ->
  attr_while fuel buf len cond body (head_ref (20 + zlen (enc_attrs l1)) l2) s
    = fold_attrs cond body (attr_offs (20 + zlen (enc_attrs l1)) l2) s.
Proof.
  revert l1 fuel s; induction l2 as [|a l2 IH]; intros l1 fuel s Hf Hfuel;
    destruct fuel as [|fuel]; cbn [length] in Hfuel; try lia; [done..|].
  cbn [head_ref attr_while attr_offs fold_attrs]. destruct (negb (cond s)); [done|]. destruct (body _ s) as [s'|]; mred; [|done].
  rewrite (framed_next _ _ _ _ _ _ Hf). mred.
  assert (20 + zlen (enc_attrs l1) + zlen (enc_attr a) = 20 + zlen (enc_attrs (l1 ++ [a]))) as ->.
  { rewrite enc_attrs_app. cbn [enc_attrs]. len_lia. }
  apply IH; [|lia]. by rewrite <- (assoc_L (++)).
Qed.

Lemma attr_walk_framed {S} (cond : S -> bool) body buf len l g (s : S) :
  framed buf len l g -> attr_walk buf len cond body s = fold_attrs cond body (attr_offs 20 l) s.
Proof.
  intros Hf. unfold attr_walk. rewrite (framed_first _ _ _ _ Hf). mred.
  pose proof (attr_while_fold cond body buf len [] l g (attr_fuel len) s) as H. cbn in H.
  apply H; [done|]. destruct Hf as (h & rest & _ & _ & _ & Hl & _ & Hle).
  pose proof (length_enc_attrs_ge l Hl). unfold attr_fuel. rewrite length_app in Hle. lia.
Qed.

(** Any bytes: nothing is visited, or the attributes of a framed message are. *)
Lemma attr_walk_any {S} (cond : S -> bool) body buf len (s : S) :
  is_bytes buf -> 0 <= len <= zlen buf ->
  attr_walk buf len cond body s = Some s \/
  exists l g, framed buf len l g /\ attr_walk buf len cond body s = fold_attrs cond body (attr_offs 20 l) s.
Proof.
  intros Hb Hlen. destruct (framed_any buf len Hb Hlen) as [H|(l & g & Hf)].
  - left. unfold attr_walk, stun_attr_get_first_str. rewrite H. mred. rewrite decide_False by done. mred. by destruct (attr_fuel len).
  - right. exists l, g. split; [done|]. by apply (attr_walk_framed cond body buf len l g).
Qed.

(** Rule of the fold: what every visit keeps. *)
Lemma fold_attrs_inv {S} (cond : S -> bool) body (I : S -> Prop) l s :
  I s -> (forall o a s, (o, a) ∈ l -> cond s = true -> I s -> exists s', body o s = Some s' /\ I s') ->
  exists s', fold_attrs cond body l s = Some s' /\ I s'.
Proof.
  revert s; induction l as [|[o a] l IH]; intros s Hs Hbody; cbn [fold_attrs]; [by exists s|].
  destruct (cond s) eqn:E; cbn [negb]; [|by exists s].
  destruct (Hbody o a s) as (s' & -> & Hs'); [by left|done..|]. mred. apply IH; [done|]. intros o' a' s'' Hin. apply (Hbody o' a'). by right.
Qed.

(** When the condition holds at the end, every attribute was visited. *)
Lemma fold_attrs_all {S} (cond : S -> bool) body l s s' :
  fold_attrs cond body l s = Some s' -> cond s' = true ->
  forall o a, (o, a) ∈ l -> exists s1 s2, cond s1 = true /\ body o s1 = Some s2 /\ cond s2 = true.
Proof.
  assert (forall l s2, fold_attrs cond body l s2 = Some s' -> cond s' = true -> cond s2 = true) as Hstart.
  { intros [|[o a] l'] s2; cbn [fold_attrs]; [by intros [= ->]|]. destruct (cond s2) eqn:E; cbn [negb]; [done|]. intros [= ->]. congruence. }
  revert s; induction l as [|[o a] l IH]; intros s Hfold Hc o' a' Hin; [by apply not_elem_of_nil in Hin|].
  pose proof (Hstart _ _ Hfold Hc) as Hs. cbn [fold_attrs] in Hfold. rewrite Hs in Hfold. cbn [negb] in Hfold.
  destruct (body o s) as [s2|] eqn:E; [|done]. cbn [mbind option_bind] in Hfold.
  apply elem_of_cons in Hin as [[= -> ->]|Hin]; [|by apply (IH s2 Hfold Hc o' a')].
  exists s, s2. split_and!; [done..|by apply (Hstart l)].
Qed.

(** With a state invariant, any walk ends and keeps it. *)
Lemma attr_walk_inv {S} (cond : S -> bool) body (I : S -> Prop) buf len s :
  is_bytes buf -> 0 <= len <= zlen buf -> I s ->
  (forall l g o a s, framed buf len l g -> (o, a) ∈ attr_offs 20 l -> cond s = true -> I s -> exists s', body o s = Some s' /\ I s') ->
  exists s', attr_walk buf len cond body s = Some s' /\ I s'.
Proof.
  intros Hb Hlen Hs Hbody. destruct (attr_walk_any cond body buf len s Hb Hlen) as [->|(l & g & Hf & ->)]; [by exists s|].
  apply (fold_attrs_inv cond body I); [done|]. intros o a s' Hin. by apply (Hbody l g o a).
Qed.

(** ** Addresses of attributes *)

Lemma map_sock_addr m a :
  Forall (fun p => inet_addr p.1 /\ inet_addr p.2) m -> sock_addr a -> sock_addr (map_addr_from_public_to_private m a).
Proof.
  intros Hm Ha. induction Hm as [|[pub priv] m [_ Hpriv] _ IH]; [done|]. cbn [map_addr_from_public_to_private].
  destruct (addr_eq_no_port _ _); [|done]. cbn [snd] in Hpriv. unfold addr_set_port. rewrite decide_True by done.
  split; [done|]. cbn [sin_port]. apply (nswap_range 2).
Qed.

Lemma xor_port_range v x : 0 <= v < 2 ^ 16 -> 0 <= Z.lxor v (nswap16 x) < 2 ^ 16.
Proof. intros Hv. apply lxor_range; [lia|done|apply (nswap_range 2)]. Qed.

(** Decoding reads the value only. *)
Lemma decode_ok buf o n xor_ed mc tid :
  is_bytes buf -> 0 <= o -> 0 <= n -> o + n <= zlen buf -> length tid = 12%nat ->
  exists r a, stun_addr_decode addr_set_any buf o n xor_ed mc tid = Some (r, a) /\ (0 <= r -> sock_addr a).
Proof.
  intros Hb Ho Hn Hle Ht. unfold stun_addr_decode. case_decide; [by eexists _, _|].
  destruct (ld_is_Some 1 buf o) as (b0 & -> & _); [done|lia..|]. mred. case_decide; [by eexists _, _|].
  destruct (ld_is_Some 1 buf (o + 1)) as (b1 & -> & _); [done|lia..|]. mred. case_decide; [|case_decide; [|by eexists _, _]].
  - case_decide; [by eexists _, _|]. destruct (ld_is_Some 2 buf (o + 2)) as (port & -> & Hport); [done|lia..|].
    destruct (ld_is_Some 4 buf (o + 4)) as (addr & -> & _); [done|lia..|]. mred.
    destruct xor_ed; eexists _, _; (split; [done|]); intros _; (split; [by left|]); [by apply xor_port_range|done].
  - case_decide; [by eexists _, _|]. destruct (ld_is_Some 2 buf (o + 2)) as (port & -> & Hport); [done|lia..|].
    destruct (slice_is_Some buf (o + 4) 16) as (v & -> & _); [lia..|]. mred. destruct xor_ed.
    + destruct (slice_is_Some tid 0 12) as (t & -> & _); [lia..|]. destruct (slice_is_Some buf (o + 4) 4) as (s0 & -> & _); [lia..|].
      destruct (slice_is_Some buf (o + 8) 12) as (s1 & -> & _); [lia..|]. mred.
      eexists _, _. split; [done|]. intros _. split; [by right|]. by apply xor_port_range.
    + eexists _, _. split; [done|]. intros _. by split; [right|].
Qed.

Lemma framed_tid buf len l g : framed buf len l g -> exists tid, stun_tid_from_message_str buf = Some tid /\ length tid = 12%nat.
Proof.
  intros (h & rest & -> & Hh & _). unfold stun_tid_from_message_str.
  destruct (slice_is_Some (h ++ enc_attrs l ++ g ++ rest) 8 12) as (t & Ht & Hl); [lia|lia|rewrite length_app; lia|]. exists t. split; [done|lia].
Qed.

(** [stun_attr_get_addr_str] of an attribute of a message: an address, or [addr_set_any]. *)
Lemma get_addr_ok m buf len l g o a :
  Forall (fun p => inet_addr p.1 /\ inet_addr p.2) m -> is_bytes buf -> framed buf len l g -> (o, a) ∈ attr_offs 20 l ->
  exists ok ca, stun_attr_get_addr_str m buf (Some o) None = Some (ok, ca) /\ if ok : bool then sock_addr ca else ca = addr_set_any.
Proof.
  intros Hm Hb Hf Hin. destruct (framed_read _ _ _ _ _ _ Hf Hin) as (Ht & Hl & Hv & Hs & Hwf). destruct (framed_tid _ _ _ _ Hf) as (tid & Htid & Hlt).
  unfold stun_attr_get_addr_str. rewrite Htid, Ht. mred. destruct Hwf as (Hty & _). rewrite decide_False by lia. rewrite Hv. mred.
  case_decide as E; [by exists false, addr_set_any|]. rewrite Hl. mred. apply slice_Some in Hs as (H1 & H2 & H3 & _).
  destruct (decode_ok buf (o + 4) (zlen (at_val a)) (is_xor_type (at_type a)) STUN_MAGIC_COOKIE tid Hb H1 H2 H3 Hlt) as (r & pub & -> & Hr). mred.
  case_decide; [by exists false, addr_set_any|]. eexists true, _. split; [done|]. apply map_sock_addr; [done|]. apply Hr. lia.
Qed.

(** The channel number is valid, or zero. *)
Lemma get_channel_ok buf len l g o a :
  is_bytes buf -> framed buf len l g -> (o, a) ∈ attr_offs 20 l ->
  exists n, stun_attr_get_channel_number buf (Some o) = Some n /\ (n = 0 \/ STUN_VALID_CHANNEL n = true).
Proof.
  intros Hb Hf Hin. destruct (framed_read _ _ _ _ _ _ Hf Hin) as (_ & Hl & Hv & Hs & _).
  unfold stun_attr_get_channel_number. rewrite Hv. mred. case_decide; [by exists 0; auto|]. rewrite Hl. mred.
  case_decide; [|by exists 0; auto]. apply slice_Some in Hs as (H1 & _ & H3 & _).
  destruct (ld_is_Some 2 buf (o + 4)) as (v & -> & _); [done|lia..|]. mred.
  destruct (STUN_VALID_CHANNEL (nswap16 v)) eqn:E; eexists; split; [done|by right|done|by left].
Qed.
