(* ===== verification/Handlers.v ===== *)
(** * Request handlers and the two data paths [server/ns_turn_server.c]

    The handlers on the received bytes.  A response is written to a fresh buffer; a packet
    is what is handed to the relay socket.  The reason phrases, statistics and log messages
    have no counterpart. *)

From S2P Require Import Prelude IoAddr MsgAddr StunHeader StunAttr StunFields Fingerprint Buckets LmMap IoTimer Permission Session AttrWalk.

Definition MAX_NUMBER_OF_UNKNOWN_ATTRS : Z := 128.
Definition STUN_ATTRIBUTE_DATA : Z := 0x0013.
Definition STUN_ATTRIBUTE_DONT_FRAGMENT : Z := 0x001A.
Definition STUN_ATTRIBUTE_OAUTH_ACCESS_TOKEN : Z := 0x001B.
Definition STUN_ATTRIBUTE_PRIORITY : Z := 0x0024.
Definition STUN_ATTRIBUTE_SOFTWARE : Z := 0x8022.
Definition STUN_ATTRIBUTE_ORIGIN : Z := 0x802F.
Definition STUN_CHANNEL_HEADER_LENGTH : Z := 4.
Definition UDP_STUN_BUFFER_SIZE : Z := 16384.

(** The macro [SKIP_ATTRIBUTES]: with [break] or [continue], the next attribute follows. *)
Definition SKIP_ATTRIBUTES : list Z :=
  [STUN_ATTRIBUTE_OAUTH_ACCESS_TOKEN; STUN_ATTRIBUTE_PRIORITY; STUN_ATTRIBUTE_FINGERPRINT; STUN_ATTRIBUTE_MESSAGE_INTEGRITY;
   STUN_ATTRIBUTE_USERNAME; STUN_ATTRIBUTE_REALM; STUN_ATTRIBUTE_NONCE; STUN_ATTRIBUTE_ORIGIN].

(** The default case: a type that has to be understood is reported. *)
Definition default_attr (attr_type : Z) (unknown_attrs : list Z) : list Z :=
  if decide (0 <= attr_type <= 0x7FFF) then unknown_attrs ++ [nswap16 attr_type] else unknown_attrs.

Definition keep_reading (err_code : Z) (unknown_attrs : list Z) : bool :=
  (err_code =? 0) && bool_decide (zlen unknown_attrs < MAX_NUMBER_OF_UNKNOWN_ATTRS).

(** The error code, the unknown attributes, the response with its length if there is one,
    and the tables. *)
Record reply := mk_reply {
  rp_err_code : Z;
  rp_unknown_attrs : list Z;
  rp_response : option (list Z * Z);
  rp_tables : tables
}.

(** ** ChannelBind *)

Record bind_attrs := mk_bind_attrs {
  ba_err_code : Z; ba_unknown : list Z; ba_chnum : Z; ba_peer : ioa_addr; ba_addr_found : bool
}.

Definition bind_attr (server : turn_turnserver) (ss : session) (buf : list Z) (sar : Z) (s : bind_attrs) : option bind_attrs :=
  let '(mk_bind_attrs err ua chnum peer_addr addr_found) := s in
  attr_type ← stun_attr_get_type buf (Some sar);
  if decide (attr_type ∈ SKIP_ATTRIBUTES) then Some s
  else if decide (attr_type = STUN_ATTRIBUTE_CHANNEL_NUMBER) then
    if negb (chnum =? 0) then Some (mk_bind_attrs 400 ua 0 peer_addr addr_found) else
    chnum ← stun_attr_get_channel_number buf (Some sar);
    Some (mk_bind_attrs (if chnum =? 0 then 400 else err) ua chnum peer_addr addr_found)
  else if decide (attr_type = STUN_ATTRIBUTE_XOR_PEER_ADDRESS) then
    '(_, peer_addr) ← stun_attr_get_addr_str (addr_mapping server) buf (Some sar) None;
    let err := if get_relay_socket ss (sa_family peer_addr) =? 0 then 443 else err in
    Some (if decide (addr_get_port (Some peer_addr) < 1) then mk_bind_attrs 400 ua chnum peer_addr addr_found
          else mk_bind_attrs err ua chnum peer_addr true)
  else Some (mk_bind_attrs err (default_attr attr_type ua) chnum peer_addr addr_found).

(** [nbh] is the buffer for the response, [rnd] what is drawn for its transaction id. *)
Definition handle_turn_channel_bind (mem : alloc_memory) (server : turn_turnserver) (ss : session) (s : tables)
    (buf : list Z) (len : Z) (tid nbh rnd : list Z) : option reply :=
  if is_tcp_relay ss then Some (mk_reply 403 [] None s)
  else if negb (alloc_is_valid ss) then Some (mk_reply 0 [] None s)
  else
    '(mk_bind_attrs err ua chnum peer_addr addr_found) ←
      attr_walk buf len (fun s => keep_reading (ba_err_code s) (ba_unknown s)) (bind_attr server ss buf)
        (mk_bind_attrs 0 [] 0 addr_set_any false);
    if decide (ua <> []) then Some (mk_reply 420 ua None s)
    else if negb (err =? 0) then Some (mk_reply err ua None s)
    else if (chnum =? 0) || addr_any (Some peer_addr) || negb addr_found then Some (mk_reply 400 ua None s)
    else if negb (STUN_VALID_CHANNEL chnum) then Some (mk_reply 400 ua None s)
    else
      '(err, s) ← channel_bind mem server ss s chnum peer_addr;
      if err =? 0 then
        response ← stun_set_channel_bind_response_str nbh (Some tid) 0 None rnd;
        Some (mk_reply 0 ua (Some response) s)
      else Some (mk_reply err ua None s).

(** ** CreatePermission *)

Record perm_attrs := mk_perm_attrs { pa_err_code : Z; pa_unknown : list Z; pa_addr_found : Z }.

(** The first loop checks every peer. *)
Definition check_attr (server : turn_turnserver) (ss : session) (buf : list Z) (sar : Z) (s : perm_attrs) : option perm_attrs :=
  let '(mk_perm_attrs err ua addr_found) := s in
  attr_type ← stun_attr_get_type buf (Some sar);
  if decide (attr_type ∈ SKIP_ATTRIBUTES) then Some s
  else if decide (attr_type = STUN_ATTRIBUTE_XOR_PEER_ADDRESS) then
    '(_, peer_addr) ← stun_attr_get_addr_str (addr_mapping server) buf (Some sar) None;
    Some (if get_relay_socket ss (sa_family peer_addr) =? 0 then mk_perm_attrs 443 ua addr_found
          else if negb (good_peer_addr server (realm_name ss) peer_addr) then mk_perm_attrs 403 ua addr_found
          else mk_perm_attrs err ua (addr_found + 1))
  else Some (mk_perm_attrs err (default_attr attr_type ua) addr_found).

(** The second installs the permissions. *)
Definition permit_attr (mem : alloc_memory) (server : turn_turnserver) (buf : list Z) (sar : Z) (s : Z * tables)
  : option (Z * tables) :=
  let '(err, s) := s in
  attr_type ← stun_attr_get_type buf (Some sar);
  if decide (attr_type = STUN_ATTRIBUTE_XOR_PEER_ADDRESS) then
    '(_, peer_addr) ← stun_attr_get_addr_str (addr_mapping server) buf (Some sar) None;
    '(rc, s) ← update_permission mem server s (addr_set_port peer_addr 0);
    Some (if decide (rc < 0) then 500 else err, s)
  else Some (err, s).

Definition handle_turn_create_permission (mem : alloc_memory) (server : turn_turnserver) (ss : session) (s : tables)
    (buf : list Z) (len : Z) (tid nbh rnd : list Z) : option reply :=
  if negb (alloc_is_valid ss) then Some (mk_reply 0 [] None s) else
  '(mk_perm_attrs err ua addr_found) ←
    attr_walk buf len (fun s => keep_reading (pa_err_code s) (pa_unknown s)) (check_attr server ss buf) (mk_perm_attrs 0 [] 0);
  if decide (ua <> []) then Some (mk_reply 420 ua None s)
  else if negb (err =? 0) then Some (mk_reply err ua None s)
  else if addr_found =? 0 then Some (mk_reply 400 ua None s)
  else
    '(err, s) ← attr_walk buf len (fun _ => true) (permit_attr mem server buf) (0, s);
    if err =? 0 then
      response ← stun_init_success_response_str STUN_METHOD_CREATE_PERMISSION nbh (Some tid) rnd;
      Some (mk_reply 0 ua (Some response) s)
    else Some (mk_reply err ua None s).

(** ** From the client to a peer *)

(** What [send_data_from_ioa_socket_nbh] is called with, after [set_df_on_ioa_socket]. *)
Record packet := mk_packet { pk_socket : Z; pk_df : bool; pk_dest : ioa_addr; pk_data : list Z; pk_ttl : Z }.

Record send_attrs := mk_send_attrs {
  sa_err_code : Z; sa_unknown : list Z; sa_df : bool; sa_peer : ioa_addr; sa_len : Z; sa_value : option Z
}.

(** [addr_found] is a constant 0: a second address replaces the first. *)
Definition send_attr (server : turn_turnserver) (buf : list Z) (sar : Z) (s : send_attrs) : option send_attrs :=
  let '(mk_send_attrs err ua df peer_addr len value) := s in
  attr_type ← stun_attr_get_type buf (Some sar);
  if decide (attr_type ∈ SKIP_ATTRIBUTES) then Some s
  else if decide (attr_type = STUN_ATTRIBUTE_DONT_FRAGMENT) then
    Some (if dont_fragment server then mk_send_attrs err ua true peer_addr len value
          else mk_send_attrs err (ua ++ [nswap16 attr_type]) df peer_addr len value)
  else if decide (attr_type = STUN_ATTRIBUTE_XOR_PEER_ADDRESS) then
    '(_, peer_addr) ← stun_attr_get_addr_str (addr_mapping server) buf (Some sar) None;
    Some (mk_send_attrs err ua df peer_addr len value)
  else if decide (attr_type = STUN_ATTRIBUTE_DATA) then
    if decide (len >= 0) then Some (mk_send_attrs 400 ua df peer_addr len value) else
    len ← stun_attr_get_len buf (Some sar);
    value ← stun_attr_get_value buf (Some sar);
    Some (mk_send_attrs err ua df peer_addr len value)
  else Some (mk_send_attrs err (default_attr attr_type ua) df peer_addr len value).

(** The error code, the unknown attributes and the packet. *)
Definition handle_turn_send (server : turn_turnserver) (ss : session) (s : tables) (buf : list Z) (len recv_ttl : Z)
  : option (Z * list Z * option packet) :=
  if is_tcp_relay ss then Some (403, [], None)
  else if negb (alloc_is_valid ss) || (recv_ttl =? 0) then Some (0, [], None)
  else
    '(mk_send_attrs err ua set_df peer_addr len value) ←
      attr_walk buf len (fun s => keep_reading (sa_err_code s) (sa_unknown s)) (send_attr server buf)
        (mk_send_attrs 0 [] false addr_set_any (-1) None);
    if negb (err =? 0) then Some (err, ua, None)
    else if decide (ua <> []) then Some (420, ua, None)
    else if negb (addr_any (Some peer_addr)) && bool_decide (len >= 0) then
      tinfo ← (if server_relay server then Some None else allocation_get_permission s (Some peer_addr));
      if bool_decide (is_Some tinfo) || server_relay server then
        data ← (match value with
                | Some value => if decide (len > 0) then slice buf (u16 value) len else Some []
                | None => Some []
                end);
        Some (0, ua, Some (mk_packet (get_relay_socket ss (sa_family peer_addr)) set_df peer_addr data (recv_ttl - 1)))
      else Some (0, ua, None)
    else Some (400, ua, None).

(** [len] is the size of the message, channel header included. *)
Definition write_to_peerchannel (ss : session) (s : tables) (chnum : Z) (buf : list Z) (len recv_ttl : Z)
  : option (option packet) :=
  if (recv_ttl =? 0) || negb (alloc_is_valid ss) then Some None else
  chn ← allocation_get_ch_info s chnum;
  match chn with
  | None => Some None
  | Some c =>
    x ← get_ch (tb_chns s) c;
    data ← slice buf STUN_CHANNEL_HEADER_LENGTH (len - STUN_CHANNEL_HEADER_LENGTH);
    Some (Some (mk_packet (get_relay_socket ss (sa_family (ch_peer x))) false (ch_peer x) data (recv_ttl - 1)))
  end.

(** ** From a peer to the client *)

(** Stream sockets [is_stream_socket]: the numbers of [enum _SOCKET_TYPE]. *)
Definition is_stream_socket (st : Z) : bool := bool_decide (st ∈ [TCP_SOCKET; 253; 56; 255; SCTP_SOCKET; 133; 254]).

Definition maybe_add_software_attribute (server : turn_turnserver) (buf : list Z) (len : Z) : option (list Z * Z) :=
  match software_attribute server with
  | Some software =>
    '(_, buf, len) ← stun_attr_add_str buf len STUN_ATTRIBUTE_SOFTWARE (Some software) (zlen software);
    Some (buf, len)
  | None => Some (buf, len)
  end.

(** [buf] is the received buffer of [size] bytes, [front] the four bytes in front of it,
    [nbh] a new buffer, [family] that of the relay socket.  The result is what is written to the client; [None] inside: nothing. *)
Definition peer_input_handler (server : turn_turnserver) (ss : session) (s : tables) (family : Z) (src_addr : ioa_addr)
    (recv_ttl : Z) (front buf : list Z) (size : Z) (nbh rnd : list Z) : option (option (list Z * Z)) :=
  if recv_ttl =? 0 then Some None
  else if to_be_closed ss || negb (client_socket_open ss) then Some None
  else if get_relay_socket ss family =? 0 then Some None else
  let ilen := size `min` (UDP_STUN_BUFFER_SIZE - STUN_CHANNEL_HEADER_LENGTH) in
  if negb (alloc_is_valid ss) then Some None else
  tinfo ← allocation_get_permission s (Some src_addr);
  chnum ← (match tinfo with
           | Some tinfo => n ← get_turn_channel_number s tinfo src_addr; Some (Some n)
           | None => Some (if server_relay server then Some 0 else None)
           end);
  match chnum with
  | None => Some None
  | Some chnum =>
    if negb (chnum =? 0) then
      '(_, buf, len) ← stun_init_channel_message_str chnum (front ++ buf) ilen ilen (is_stream_socket (client_socket_type ss));
      Some (Some (buf, len))
    else
      '(nbh, len) ← stun_init_indication_str STUN_METHOD_DATA nbh rnd;
      data ← slice buf 0 ilen;
      '(_, nbh, len) ← stun_attr_add_str nbh len STUN_ATTRIBUTE_DATA (Some data) ilen;
      '(_, nbh, len) ← stun_attr_add_addr_str (addr_mapping server) nbh len STUN_ATTRIBUTE_XOR_PEER_ADDRESS src_addr;
      '(nbh, len) ← maybe_add_software_attribute server nbh len;
      if fingerprint server || negb (enforce_fingerprints ss =? 0) then
        '(_, nbh, len) ← stun_attr_add_fingerprint_str nbh len; Some (Some (nbh, len))
      else Some (Some (nbh, len))
  end.

(** ** What a client sent *)

(** [read_client_connection] on a socket that does not speak HTTP. *)
Inductive client_message :=
  | ChannelMessage (chnum blen : Z)
  | CommandMessage
  | OldCommandMessage (cookie : Z)
  | OtherMessage.

(** The condition under which a message of the old format is handled. *)
Definition old_command_served (server : turn_turnserver) : bool := negb (no_stun server) && negb (stun_backward_compatibility server).

(** The kind, and [ss->enforce_fingerprints]. *)
Definition read_client_connection (server : turn_turnserver) (ss : session) (buf : list Z) (len : Z)
  : option (client_message * Z) :=
  '(ok, blen, chn) ← stun_is_channel_message_str buf len (is_stream_socket (client_socket_type ss));
  if ok : bool then Some (ChannelMessage (default 0 chn) blen, enforce_fingerprints ss) else
  '(ok, present) ← stun_is_command_message_full_check_str buf len 0 (Some (enforce_fingerprints ss));
  let enforce := default 0 present in
  if ok : bool then Some (CommandMessage, enforce) else
  cookie ← old_stun_is_command_message_str buf len;
  Some (match cookie with
        | Some cookie => if old_command_served server then OldCommandMessage cookie else OtherMessage
        | None => OtherMessage
        end, enforce).

(** A channel message goes to the peer, if the relay is not a TCP relay. *)
Definition read_channel_message (ss : session) (s : tables) (chnum blen : Z) (buf : list Z) (orig_blen recv_ttl : Z)
  : option (option packet) :=
  if is_tcp_relay ss then Some None
  else if decide (blen <= orig_blen) then write_to_peerchannel ss s chnum buf blen recv_ttl
  else Some None.
