(* ===== verification/HandlerFacts.v ===== *)
(** * What the request handlers do with received bytes

    On any bytes a handler is defined, and its effect is none or that of steps of the
    relay. *)

From S2P Require Import Prelude IoAddr MsgAddr StunHeader StunAttr StunFields StunFieldsFacts Buckets LmMap IoTimer Permission PermMem PermLink PermFacts Session SessionFacts RelayFacts RelayBind RelaySystem AttrWalk Handlers.

Definition addrs_inet (m : mapping) : Prop := Forall (fun p => inet_addr p.1 /\ inet_addr p.2) m.
(** A received message and the buffers of the response. *)
Definition received (buf : list Z) (len : Z) : Prop := is_bytes buf /\ 0 <= len <= zlen buf.
Definition response_room (tid nbh rnd : list Z) : Prop :=
  length tid = 12%nat /\ MAX_STUN_MESSAGE_SIZE <= zlen nbh /\ length rnd = 12%nat.
Definition success_response (m : Z) (tid : list Z) (response : list Z * Z) : Prop :=
  is_msg response.1 response.2 (stun_make_success_response m) STUN_MAGIC_COOKIE tid [].

Lemma success_built m tid nbh rnd :
  response_room tid nbh rnd -> 0 <= m < 4096 ->
  exists response, stun_init_success_response_str m nbh (Some tid) rnd = Some response /\ success_response m tid response.
Proof.
  intros (Ht & Hn & Hr) Hm. destruct (built_init Success m nbh rnd Hn Hr Hm) as (b & Hinit & Hb).
  destruct (built_set_tid _ _ _ _ _ _ tid Hb Ht) as (b' & Hset & Hb').
  exists (b', 20). unfold stun_init_success_response_str. change (stun_make_success_response m) with (make_class Success m). rewrite Hinit. mred.
  rewrite Hset. mred. split; [done|]. apply Hb'.
Qed.

Lemma run_step s0 tr s r code s' : run s0 tr s -> pending s r -> serve r s = Some (code, s') -> run s0 (tr ++ [(r, code)]) s'.
Proof. apply run_snoc. Qed.

(** ** Messages of the examples

    Requests of the transaction 5, 5, ... for the peer 198.51.100.7, port 4000. *)

Definition example_peer_attr : list Z := [0; 0x12; 0; 8; 0; 1; 0x2E; 0xB2; 0xE7; 0x21; 0xC0; 0x45].
Definition example_bind_request : list Z :=
  hdr (stun_make_request STUN_METHOD_CHANNEL_BIND) 20 STUN_MAGIC_COOKIE (replicate 12 5) ++ [0; 0x0C; 0; 4; 0x40; 0x01; 0; 0] ++ example_peer_attr.
Definition example_permission_request : list Z :=
  hdr (stun_make_request STUN_METHOD_CREATE_PERMISSION) 12 STUN_MAGIC_COOKIE (replicate 12 5) ++ example_peer_attr.
Definition example_send : list Z :=
  hdr (stun_make_indication STUN_METHOD_SEND) 20 STUN_MAGIC_COOKIE (replicate 12 5) ++ example_peer_attr ++ [0; 0x13; 0; 2; 7; 8; 0; 0].

Lemma example_room : response_room (replicate 12 5) (replicate (Z.to_nat 65507) 0) (replicate 12 9).
Proof. split_and!; [done| |done]. rewrite length_replicate, Z2Nat.id by lia. done. Qed.

Lemma bytes_dec l : forallb (fun x => (0 <=? x) && (x <? 256)) l = true -> is_bytes l.
Proof. intros H. apply Forall_forall. intros x Hx%list_elem_of_In. rewrite forallb_forall in H. specialize (H x Hx). unfold is_byte. lia. Qed.

Lemma received_dec l n : forallb (fun x => (0 <=? x) && (x <? 256)) l = true -> bool_decide (0 <= n <= zlen l) = true -> received l n.
Proof. intros H1 H2%bool_decide_eq_true. split; [by apply bytes_dec|done]. Qed.

(** ** ChannelBind *)

Section bind.
Context (server : turn_turnserver) (ss : session) (Hm : addrs_inet (addr_mapping server)).

Definition bindable (peer : ioa_addr) : Prop :=
  sock_addr peer /\ 0 < addr_get_port (Some peer) /\ get_relay_socket ss (sa_family peer) <> 0.

Definition bind_inv (s : bind_attrs) : Prop :=
  (ba_chnum s = 0 \/ STUN_VALID_CHANNEL (ba_chnum s) = true) /\
  (ba_err_code s = 0 -> ba_addr_found s = true -> bindable (ba_peer s)).

Lemma bind_attr_ok buf len l g o a s :
  is_bytes buf -> framed buf len l g -> (o, a) ∈ attr_offs 20 l -> ba_err_code s = 0 -> bind_inv s ->
  exists s', bind_attr server ss buf o s = Some s' /\ bind_inv s'.
Proof.
  intros Hb Hf Hin He [Hn Hp]. destruct s as [err ua chnum peer found]. cbn [ba_err_code ba_unknown ba_chnum ba_peer ba_addr_found] in *. subst err. unfold bind_attr.
  destruct (framed_read _ _ _ _ _ _ Hf Hin) as (Ht & _). rewrite Ht. mred.
  case_decide; [eexists; split; [done|by split]|]. case_decide; [|case_decide; [|by eexists]].
  - destruct (chnum =? 0) eqn:E; cbn [negb]; [|eexists; split; [done|]; split; [by left|done]].
    destruct (get_channel_ok _ _ _ _ _ _ Hb Hf Hin) as (n & -> & Hv). mred. eexists. split; [done|]. split; [done|].
    cbn. by destruct (n =? 0).
  - destruct (get_addr_ok _ _ _ _ _ _ _ Hm Hb Hf Hin) as (ok & ca & -> & Hca). mred. case_decide as Hport.
    + eexists. split; [done|]. by split.
    + eexists. split; [done|]. split; [done|]. cbn. intros He _. destruct (get_relay_socket ss (sa_family ca) =? 0) eqn:E; [done|].
      split_and!; [|lia|lia]. destruct ok; [done|subst; by destruct Hport].
Qed.

(** The request is refused, or one peer is bound. *)
Lemma channel_bind_cases mem s buf len tid nbh rnd :
  received buf len ->
  (exists err ua, handle_turn_channel_bind mem server ss s buf len tid nbh rnd = Some (mk_reply err ua None s)) \/
  exists n peer, alloc_is_valid ss = true /\ is_tcp_relay ss = false /\ STUN_VALID_CHANNEL n = true /\ bindable peer /\
    handle_turn_channel_bind mem server ss s buf len tid nbh rnd =
      '(err, s) ← channel_bind mem server ss s n peer;
      if err =? 0 then
        response ← stun_set_channel_bind_response_str nbh (Some tid) 0 None rnd;
        Some (mk_reply 0 [] (Some response) s)
      else Some (mk_reply err [] None s).
Proof.
  intros [Hb Hlen]. unfold handle_turn_channel_bind. destruct (is_tcp_relay ss) eqn:Etcp; [left; eauto|]. destruct (alloc_is_valid ss) eqn:Eval; cbn [negb]; [|left; eauto].
  destruct (attr_walk_inv (fun s => keep_reading (ba_err_code s) (ba_unknown s)) (bind_attr server ss buf) bind_inv buf len
    (mk_bind_attrs 0 [] 0 addr_set_any false) Hb Hlen) as ([err ua chnum peer found] & -> & Hn & Hp).
  { by split; [left|]. }
  { intros l g o a s' Hf Hin Hc. apply (bind_attr_ok buf len l g o a s' Hb Hf Hin).
    unfold keep_reading in Hc. by apply andb_true_iff in Hc as [Hc%Z.eqb_eq _]. }
  mred. cbn in Hn, Hp. case_decide as Eua; [left; eauto|]. destruct (err =? 0) eqn:Ee; cbn [negb]; [|left; eauto].
  destruct (chnum =? 0) eqn:En; cbn [orb]; [left; eauto|]. destruct (addr_any (Some peer)); cbn [orb]; [left; eauto|].
  destruct found; cbn [negb]; [|left; eauto]. destruct Hn as [Hn|Hn]; [lia|]. rewrite Hn. cbn [negb].
  right. exists chnum, peer. assert (ua = []) as -> by (destruct ua; [done|by destruct Eua]).
  split_and!; try done; by apply Hp; [lia|].
Qed.

End bind.

(** C16 Any bytes handled as a ChannelBind request are refused with the tables as they
    were, or bind one number to one peer as the relay does: the peer has a port and is of
    a family the allocation relays.  There is a response exactly when the peer is bound,
    and it is a success response to the transaction. *)
Theorem channel_bind_request_safe tr s server ss buf len tid nbh rnd :
  run init_tables tr s -> server_ok server -> addrs_inet (addr_mapping server) -> received buf len -> response_room tid nbh rnd ->
  exists r, handle_turn_channel_bind all_memory server ss s buf len tid nbh rnd = Some r /\
    (rp_tables r = s /\ rp_response r = None \/
     exists n peer, bindable ss peer /\ serve (ChannelBind server ss n peer) s = Some (rp_err_code r, rp_tables r) /\
       run init_tables (tr ++ [(ChannelBind server ss n peer, rp_err_code r)]) (rp_tables r) /\
       (rp_err_code r = 0 -> exists response, rp_response r = Some response /\ success_response STUN_METHOD_CHANNEL_BIND tid response) /\
       (rp_err_code r <> 0 -> rp_response r = None)).
Proof.
  intros Hrun Hserver Hm Hrecv Hroom.
  destruct (channel_bind_cases server ss Hm all_memory s buf len tid nbh rnd Hrecv) as [(err & ua & ->)|(n & peer & _ & _ & Hn & Hpeer & ->)];
    [eexists; split; [done|by left]|].
  assert (pending s (ChannelBind server ss n peer)) as Hpend by (by apply pending_bind; [|apply Hpeer..|]).
  destruct (run_shows tr s Hrun) as (R & HR & Hs). destruct (serve_ok s R _ Hs Hpend) as (code & s' & R' & Hserve & _).
  pose proof Hserve as E. cbn [serve] in E. rewrite E. mred. destruct (code =? 0) eqn:Ec.
  - apply Z.eqb_eq in Ec. subst code. destruct (success_built STUN_METHOD_CHANNEL_BIND tid nbh rnd Hroom) as (response & Hresp & Hsucc); [done|].
    unfold stun_set_channel_bind_response_str. rewrite decide_True by done. rewrite Hresp. mred.
    eexists. split; [done|]. right. exists n, peer. cbn [rp_err_code rp_tables rp_response].
    split_and!; [done..|by apply (run_step _ tr s)|by eauto|done].
  - eexists. split; [done|]. right. exists n, peer. cbn [rp_err_code rp_tables rp_response].
    split_and!; [done..|by apply (run_step _ tr s)|lia|done].
Qed.

Lemma channel_bind_request_safe_witness :
  received example_bind_request 40 /\
  exists r, handle_turn_channel_bind all_memory plain_server plain_session example_tables example_bind_request 40
    (replicate 12 5) (replicate (Z.to_nat 65507) 0) (replicate 12 9) = Some r.
Proof.
  assert (received example_bind_request 40) as Hr by (by apply received_dec). split; [done|].
  destruct (channel_bind_request_safe example_trace example_tables plain_server plain_session example_bind_request 40
    (replicate 12 5) (replicate (Z.to_nat 65507) 0) (replicate 12 9) example_run plain_server_ok) as (r & H & _);
    [by constructor|done|apply example_room|by exists r].
Defined.

(** * What the CreatePermission handler does with received bytes *)

(** The address an attribute carries, when it is a peer of the request. *)
Definition attr_peer (m : mapping) (buf : list Z) (oa : Z * sattr) : option (bool * ioa_addr) :=
  if decide (at_type oa.2 = STUN_ATTRIBUTE_XOR_PEER_ADDRESS) then stun_attr_get_addr_str m buf (Some oa.1) None else None.
(** The peers of a message in their order. *)
Definition xor_peers (m : mapping) (buf : list Z) (l : list sattr) : list (bool * ioa_addr) := omap (attr_peer m buf) (attr_offs 20 l).

(** The permissions of peers, decoded or not, are updated in their order.  A failure is remembered, and the peers
    that follow are served all the same. *)
Fixpoint update_peers (mem : alloc_memory) (server : turn_turnserver) (peers : list (bool * ioa_addr)) (code : Z) (s : tables) : option (Z * tables) :=
  match peers with
  | [] => Some (code, s)
  | p :: peers =>
    '(rc, s) ← update_permission mem server s (addr_set_port p.2 0);
    update_peers mem server peers (if decide (rc < 0) then 500 else code) s
  end.

(** What the first loop asks of a peer. *)
Definition relayed (server : turn_turnserver) (ss : session) (peer : ioa_addr) : Prop :=
  good_peer_addr server (realm_name ss) peer = true /\ get_relay_socket ss (sa_family peer) <> 0.

Lemma xor_not_skipped : STUN_ATTRIBUTE_XOR_PEER_ADDRESS ∉ SKIP_ATTRIBUTES.
Proof. apply (bool_decide_unpack _). vm_compute. done. Qed.

Section permit.
Context (server : turn_turnserver) (ss : session) (Hm : addrs_inet (addr_mapping server)).
Context (buf : list Z) (len : Z) (l : list sattr) (g : list Z) (Hb : is_bytes buf) (Hf : framed buf len l g).

Lemma check_attr_ok o a s :
  (o, a) ∈ attr_offs 20 l -> pa_err_code s = 0 ->
  exists s', check_attr server ss buf o s = Some s' /\
    match attr_peer (addr_mapping server) buf (o, a) with
    | Some (_, peer) => if pa_err_code s' =? 0 then relayed server ss peer /\ pa_addr_found s' = pa_addr_found s + 1 else True
    | None => pa_addr_found s' = pa_addr_found s
    end.
Proof.
  intros Hin He. destruct s as [err ua n]. cbn [pa_err_code] in He. subst err. unfold check_attr, attr_peer. cbn [fst snd].
  destruct (framed_read _ _ _ _ _ _ Hf Hin) as (Ht & _). rewrite Ht. mred.
  case_decide as Hskip; [rewrite decide_False; [by eexists|]; intros E; rewrite E in Hskip; revert Hskip; by apply (bool_decide_eq_false _)|].
  case_decide; [|by eexists]. destruct (get_addr_ok _ _ _ _ _ _ _ Hm Hb Hf Hin) as (ok & ca & -> & _). mred.
  destruct (get_relay_socket ss (sa_family ca) =? 0) eqn:Er; [by eexists|]. destruct (good_peer_addr server (realm_name ss) ca) eqn:Eg; cbn [negb]; [|by eexists].
  eexists. split; [done|]. split; [|done]. split; [done|by apply Z.eqb_neq].
Qed.

(** The first loop, when it reports nothing. *)
Lemma check_all ua n s :
  attr_walk buf len (fun s => keep_reading (pa_err_code s) (pa_unknown s)) (check_attr server ss buf) (mk_perm_attrs 0 [] 0) = Some s ->
  s = mk_perm_attrs 0 ua n -> ua = [] -> n <> 0 ->
  Forall (fun p => relayed server ss p.2) (xor_peers (addr_mapping server) buf l) /\ xor_peers (addr_mapping server) buf l <> [].
Proof.
  intros Hw -> -> Hn. rewrite (attr_walk_framed _ _ _ _ _ _ _ Hf) in Hw. split.
  - apply Forall_forall. intros p ([o a] & Hin & Hp)%list_elem_of_omap.
    destruct (fold_attrs_all _ _ _ _ _ Hw eq_refl o a Hin) as (s1 & s2 & Hc1 & Hbody & Hc2).
    unfold keep_reading in Hc1, Hc2. apply andb_true_iff in Hc1 as [Hc1%Z.eqb_eq _]. apply andb_true_iff in Hc2 as [Hc2 _].
    destruct (check_attr_ok o a s1 Hin Hc1) as (s2' & Hbody' & Hspec). rewrite Hbody in Hbody'. injection Hbody' as <-. rewrite Hp in Hspec.
    destruct p as [ok peer]. rewrite Hc2 in Hspec. apply Hspec.
  - intros E. apply Hn. assert (pa_addr_found (mk_perm_attrs 0 [] n) = 0) as H; [|done].
    destruct (fold_attrs_inv (fun s => keep_reading (pa_err_code s) (pa_unknown s)) (check_attr server ss buf) (fun s => pa_addr_found s = 0)
      (attr_offs 20 l) (mk_perm_attrs 0 [] 0)) as (s' & Hw' & Hs'); [done| |congruence].
    intros o a s Hin Hc Hs. unfold keep_reading in Hc. apply andb_true_iff in Hc as [Hc%Z.eqb_eq _].
    destruct (check_attr_ok o a s Hin Hc) as (s' & Hrun & Hspec). exists s'. split; [done|].
    destruct (attr_peer (addr_mapping server) buf (o, a)) as [p|] eqn:Ep; [|congruence].
    assert (p ∈ xor_peers (addr_mapping server) buf l) as Hp by (apply list_elem_of_omap; by exists (o, a)). rewrite E in Hp. by apply not_elem_of_nil in Hp.
Qed.

(** The first loop is defined. *)
Lemma check_walk : exists s, attr_walk buf len (fun s => keep_reading (pa_err_code s) (pa_unknown s)) (check_attr server ss buf) (mk_perm_attrs 0 [] 0) = Some s.
Proof.
  rewrite (attr_walk_framed _ _ _ _ _ _ _ Hf).
  destruct (fold_attrs_inv (fun s => keep_reading (pa_err_code s) (pa_unknown s)) (check_attr server ss buf) (fun _ => True)
      (attr_offs 20 l) (mk_perm_attrs 0 [] 0)) as (s' & -> & _); [done| |by eexists].
  intros o a s Hin Hc _. unfold keep_reading in Hc. apply andb_true_iff in Hc as [Hc%Z.eqb_eq _].
  destruct (check_attr_ok o a s Hin Hc) as (s' & Hrun & _). by exists s'.
Qed.

(** The second loop updates the permissions of the peers. *)
Lemma permit_walk mem offs code s :
  (forall oa, oa ∈ offs -> oa ∈ attr_offs 20 l) ->
  fold_attrs (fun _ => true) (permit_attr mem server buf) offs (code, s) = update_peers mem server (omap (attr_peer (addr_mapping server) buf) offs) code s.
Proof.
  revert code s; induction offs as [|[o a] offs IH]; intros code s Hsub; [done|].
  assert ((o, a) ∈ attr_offs 20 l) as Hin by (apply Hsub; by left). destruct (framed_read _ _ _ _ _ _ Hf Hin) as (Ht & _).
  assert (forall oa, oa ∈ offs -> oa ∈ attr_offs 20 l) as Hsub' by (intros oa ?; apply Hsub; by right).
  change (omap (attr_peer (addr_mapping server) buf) ((o, a) :: offs)) with
    (match attr_peer (addr_mapping server) buf (o, a) with Some p => p :: omap (attr_peer (addr_mapping server) buf) offs | None => omap (attr_peer (addr_mapping server) buf) offs end).
  cbn [fold_attrs negb]. assert (permit_attr mem server buf o (code, s) =
    if decide (at_type a = STUN_ATTRIBUTE_XOR_PEER_ADDRESS) then
      '(_, peer_addr) ← stun_attr_get_addr_str (addr_mapping server) buf (Some o) None;
      '(rc, s) ← update_permission mem server s (addr_set_port peer_addr 0);
      Some (if decide (rc < 0) then 500 else code, s)
    else Some (code, s)) as -> by (unfold permit_attr; by rewrite Ht).
  unfold attr_peer at 1. cbn [fst snd].
  case_decide; mred; [|by apply IH].
  destruct (get_addr_ok _ _ _ _ _ _ _ Hm Hb Hf Hin) as (ok & ca & -> & _). mred. cbn [update_peers snd].
  destruct (update_permission _ _ _ _) as [[rc s']|]; mred; [by apply IH|done].
Qed.

(** The peers that were decoded are addresses. *)
Lemma xor_peers_sock p : p ∈ xor_peers (addr_mapping server) buf l -> p.1 = true -> sock_addr p.2.
Proof.
  intros ([o a] & Hin & Hp)%list_elem_of_omap Hd. unfold attr_peer in Hp. cbn [fst snd] in Hp. case_decide; [|done].
  destruct (get_addr_ok _ _ _ _ _ _ _ Hm Hb Hf Hin) as (ok & ca & E & Hca). rewrite E in Hp. injection Hp as <-. cbn in Hd, Hca |- *. by subst ok.
Qed.

End permit.

(** Peers that are addresses are CreatePermission steps. *)
Definition permit_steps (server : turn_turnserver) (peers : list (bool * ioa_addr)) : list (request * Z) :=
  (fun p => (CreatePermission server (addr_set_port p.2 0), 0)) <$> peers.

Lemma update_peers_run server peers tr s :
  server_ok server -> Forall (fun p => sock_addr p.2) peers -> run init_tables tr s ->
  exists s', update_peers all_memory server peers 0 s = Some (0, s') /\ run init_tables (tr ++ permit_steps server peers) s'.
Proof.
  intros Hserver Hpeers. revert tr s; induction Hpeers as [|p peers Hp _ IH]; intros tr s Hrun.
  { exists s. split; [done|]. by rewrite app_nil_r. }
  assert (pending s (CreatePermission server (addr_set_port p.2 0))) as Hpend.
  { apply pending_permission; [done| |by rewrite addr_get_set_port by apply Hp]. destruct Hp as [Hp _]. unfold addr_set_port. by rewrite decide_True. }
  destruct (run_shows tr s Hrun) as (R & HR & Hs). destruct (permit_ok server s R (addr_set_port p.2 0) Hs Hserver) as (s' & Hserve & _);
    [by inversion Hpend..|]. cbn [update_peers]. rewrite Hserve. mred. rewrite (decide_False (P := 0 < 0)) by lia.
  destruct (IH (tr ++ [(CreatePermission server (addr_set_port p.2 0), 0)]) s') as (s'' & -> & Hrun'); [by apply (run_step _ tr s)|].
  exists s''. split; [done|]. rewrite <- (assoc_L (++)) in Hrun'. exact Hrun'.
Qed.

(** C17 CreatePermission looks at the whole request before it changes anything.  On any bytes, and
    whatever memory there is, a request is refused with the tables as they were, or every
    peer has passed the filter and is of a family the allocation relays.  Then the permissions of
    all peers are updated in the order of the attributes; when one of them fails the others
    stay, the error is 500 and there is no response, and when none does there is a success
    response to the transaction.  None fails when there is memory and the addresses decode, and
    the tables are then those of a run with a CreatePermission step for each peer. *)
Theorem create_permission_checked_first mem tr s server ss buf len tid nbh rnd :
  run init_tables tr s -> server_ok server -> addrs_inet (addr_mapping server) -> received buf len -> response_room tid nbh rnd ->
  (exists err ua, handle_turn_create_permission mem server ss s buf len tid nbh rnd = Some (mk_reply err ua None s) /\
     (err = 0 -> alloc_is_valid ss = false)) \/
  exists l g response, framed buf len l g /\ success_response STUN_METHOD_CREATE_PERMISSION tid response /\
    let peers := xor_peers (addr_mapping server) buf l in
    peers <> [] /\ Forall (fun p => relayed server ss p.2) peers /\
    handle_turn_create_permission mem server ss s buf len tid nbh rnd =
      ('(code, s') ← update_peers mem server peers 0 s; Some (mk_reply code [] (if code =? 0 then Some response else None) s')) /\
    (mem = all_memory -> forallb fst peers = true ->
     exists s', update_peers mem server peers 0 s = Some (0, s') /\ run init_tables (tr ++ permit_steps server peers) s').
Proof.
  intros Hrun Hserver Hm [Hb Hlen] Hroom. unfold handle_turn_create_permission.
  destruct (alloc_is_valid ss) eqn:Ev; cbn [negb]; [|left; by eexists _, _].
  destruct (framed_any buf len Hb Hlen) as [Hnone|(l & g & Hf)].
  { left. assert (attr_walk buf len (fun s => keep_reading (pa_err_code s) (pa_unknown s)) (check_attr server ss buf) (mk_perm_attrs 0 [] 0)
      = Some (mk_perm_attrs 0 [] 0)) as ->; [|mred; by eexists _, _].
    unfold attr_walk, stun_attr_get_first_str. rewrite Hnone. mred. rewrite decide_False by done. mred. by destruct (attr_fuel len). }
  destruct (check_walk server ss Hm buf len l g Hb Hf) as ([err ua n] & Hw). rewrite Hw. mred.
  case_decide as Eua; [left; by eexists _, _|]. assert (ua = []) as -> by (destruct ua; [done|by destruct Eua]).
  destruct (err =? 0) eqn:Ee; cbn [negb]; [|left; eexists _, _; split; [done|lia]]. apply Z.eqb_eq in Ee. subst err.
  destruct (n =? 0) eqn:En; [left; by eexists _, _|]. right.
  destruct (check_all server ss Hm buf len l g Hb Hf [] n _ Hw) as [Hgood Hne]; [done|done|lia|].
  destruct (success_built STUN_METHOD_CREATE_PERMISSION tid nbh rnd Hroom) as (response & Hresp & Hsucc); [done|].
  exists l, g, response. split_and!; [done..| |].
  - rewrite (attr_walk_framed _ _ _ _ _ _ _ Hf), (permit_walk server Hm buf len l g Hb Hf) by done. fold (xor_peers (addr_mapping server) buf l).
    destruct (update_peers _ _ _ _ _) as [[code s']|]; mred; [|done]. rewrite Hresp. mred. destruct (code =? 0) eqn:Ec; [|done]. by apply Z.eqb_eq in Ec as ->.
  - intros -> Hdec. apply update_peers_run; [done| |done]. apply Forall_forall. intros p Hp.
    apply (xor_peers_sock server Hm buf len l g Hb Hf); [done|]. apply (forallb_forall fst _) with (x := p) in Hdec; [done|]. by apply list_elem_of_In.
Qed.

(** The peers of a request, computed. *)
Definition collect_peer (m : mapping) (buf : list Z) (o : Z) (peers : list (bool * ioa_addr)) : option (list (bool * ioa_addr)) :=
  t ← stun_attr_get_type buf (Some o);
  if decide (t = STUN_ATTRIBUTE_XOR_PEER_ADDRESS) then p ← stun_attr_get_addr_str m buf (Some o) None; Some (peers ++ [p]) else Some peers.

Lemma collect_fold m buf len l g offs acc peers :
  framed buf len l g -> (forall oa, oa ∈ offs -> oa ∈ attr_offs 20 l) ->
  fold_attrs (fun _ => true) (collect_peer m buf) offs acc = Some peers -> peers = acc ++ omap (attr_peer m buf) offs.
Proof.
  intros Hf. revert acc; induction offs as [|[o a] offs IH]; intros acc Hsub; cbn [fold_attrs negb].
  - intros [= <-]. by rewrite app_nil_r.
  - destruct (framed_read _ _ _ _ _ _ Hf (Hsub (o, a) ltac:(by left))) as (Ht & _).
    assert (collect_peer m buf o acc = if decide (at_type a = STUN_ATTRIBUTE_XOR_PEER_ADDRESS)
      then p ← stun_attr_get_addr_str m buf (Some o) None; Some (acc ++ [p]) else Some acc) as -> by (unfold collect_peer; by rewrite Ht).
    cbn [omap list_omap]. unfold attr_peer at 1. cbn [fst snd]. assert (forall oa, oa ∈ offs -> oa ∈ attr_offs 20 l) as Hsub' by (intros oa ?; apply Hsub; by right).
    case_decide; mred; [|by apply IH]. destruct (stun_attr_get_addr_str m buf (Some o) None) as [p|]; mred; [|done].
    intros E. apply IH in E as ->; [|done]. by rewrite <- (assoc_L (++)).
Qed.

Lemma peers_collected m buf len l g peers :
  framed buf len l g -> attr_walk buf len (fun _ => true) (collect_peer m buf) [] = Some peers -> xor_peers m buf l = peers.
Proof. intros Hf. rewrite (attr_walk_framed _ _ _ _ _ _ _ Hf). intros E. by apply (collect_fold m buf len l g) in E. Qed.

Lemma create_permission_checked_first_witness :
  exists l g s' response, framed example_permission_request 32 l g /\
    handle_turn_create_permission all_memory plain_server plain_session example_tables example_permission_request 32
      (replicate 12 5) (replicate (Z.to_nat 65507) 0) (replicate 12 9) = Some (mk_reply 0 [] (Some response) s') /\
    update_peers all_memory plain_server [(true, example_peer 4000)] 0 example_tables = Some (0, s') /\
    run init_tables (example_trace ++ [(CreatePermission plain_server (example_peer 0), 0)]) s'.
Proof.
  destruct (create_permission_checked_first all_memory example_trace example_tables plain_server plain_session example_permission_request 32
    (replicate 12 5) (replicate (Z.to_nat 65507) 0) (replicate 12 9) example_run plain_server_ok)
    as [(err & ua & H & He)|(l & g & response & Hf & _ & _ & _ & H & Hrun)]; [by constructor|by apply received_dec|apply example_room| |].
  - assert (rp_err_code <$> handle_turn_create_permission all_memory plain_server plain_session example_tables example_permission_request 32
      (replicate 12 5) (replicate (Z.to_nat 65507) 0) (replicate 12 9) = Some 0) as E by (vm_compute; reflexivity).
    rewrite H in E. injection E as E. specialize (He E). discriminate He.
  - assert (xor_peers (addr_mapping plain_server) example_permission_request l = [(true, example_peer 4000)]) as E
      by (apply (peers_collected _ _ 32 l g); [exact Hf|vm_compute; reflexivity]).
    rewrite E in H, Hrun. destruct (Hrun eq_refl eq_refl) as (s' & Hs & Hr). rewrite Hs in H. exists l, g, s', response.
    split; [exact Hf|]. split; [exact H|]. split; [exact Hs|exact Hr].
Defined.
