(* ===== verification/RelayData.v ===== *)
(** * The two data paths

    What a client sends reaches permitted peers only; what a peer sends reaches the client
    only with a permission, on the channel bound to it or in a Data indication. *)

From S2P Require Import Prelude IoAddr MsgAddr StunHeader StunAttr StunFields StunFieldsFacts Fingerprint Buckets LmMap IoTimer Permission PermMem PermLink PermFacts Session SessionFacts RelayFacts RelayBind RelaySystem AttrWalk Handlers HandlerFacts.

(** ** Send indications *)

Section send.
Context (server : turn_turnserver) (Hm : addrs_inet (addr_mapping server)).

(** The peer is an address or none, the data that of an attribute. *)
Definition send_inv (buf : list Z) (len : Z) (s : send_attrs) : Prop :=
  (sa_peer s = addr_set_any \/ sock_addr (sa_peer s)) /\
  (sa_len s = -1 /\ sa_value s = None \/
   exists l g o a, framed buf len l g /\ (o, a) ∈ attr_offs 20 l /\ at_type a = STUN_ATTRIBUTE_DATA /\
     sa_len s = zlen (at_val a) /\ sa_value s = if decide (zlen (at_val a) < 1) then None else Some (o + 4)).

Lemma send_attr_ok buf len l g o a s :
  is_bytes buf -> framed buf len l g -> (o, a) ∈ attr_offs 20 l -> send_inv buf len s ->
  exists s', send_attr server buf o s = Some s' /\ send_inv buf len s'.
Proof.
  intros Hb Hf Hin [Hp Hd]. destruct s as [err ua df peer n value]. cbn [sa_peer sa_len sa_value] in *. unfold send_attr.
  destruct (framed_read _ _ _ _ _ _ Hf Hin) as (Ht & Hl & Hv & _). rewrite Ht. mred.
  destruct (decide (at_type a ∈ SKIP_ATTRIBUTES)); [eexists; split; [done|split; [exact Hp|exact Hd]]|].
  destruct (decide (at_type a = STUN_ATTRIBUTE_DONT_FRAGMENT)); [destruct (dont_fragment server); eexists; (split; [done|split; [exact Hp|exact Hd]])|].
  destruct (decide (at_type a = STUN_ATTRIBUTE_XOR_PEER_ADDRESS)); [|destruct (decide (at_type a = STUN_ATTRIBUTE_DATA));
    [|eexists; split; [done|split; [exact Hp|exact Hd]]]].
  - destruct (get_addr_ok _ _ _ _ _ _ _ Hm Hb Hf Hin) as (ok & ca & -> & Hca). mred. eexists. split; [done|]. split; [|exact Hd].
    cbn. destruct ok; [by right|by left].
  - destruct (decide (n >= 0)); [eexists; split; [done|split; [exact Hp|exact Hd]]|]. rewrite Hl, Hv. mred. eexists. split; [done|]. split; [exact Hp|].
    right. by exists l, g, o, a.
Qed.

(** The packet, before permissions are looked at. *)
Lemma send_cases ss s buf len ttl :
  received buf len -> len <= MAX_STUN_MESSAGE_SIZE ->
  (exists err ua, handle_turn_send server ss s buf len ttl = Some (err, ua, None)) \/
  exists l g o a peer df, framed buf len l g /\ (o, a) ∈ attr_offs 20 l /\ at_type a = STUN_ATTRIBUTE_DATA /\ sock_addr peer /\
    handle_turn_send server ss s buf len ttl =
      (tinfo ← (if server_relay server then Some None else allocation_get_permission s (Some peer));
       Some (0, [], if bool_decide (is_Some tinfo) || server_relay server
                    then Some (mk_packet (get_relay_socket ss (sa_family peer)) df peer (at_val a) (ttl - 1)) else None)).
Proof.
  intros [Hb Hlen] Hmax. unfold handle_turn_send. destruct (is_tcp_relay ss); [left; eauto|]. destruct (_ || _); [left; eauto|].
  destruct (attr_walk_inv (fun s => keep_reading (sa_err_code s) (sa_unknown s)) (send_attr server buf) (send_inv buf len) buf len
    (mk_send_attrs 0 [] false addr_set_any (-1) None) Hb Hlen) as ([err ua df peer n value] & -> & Hp & Hd).
  { split; [by left|by left]. }
  { intros l g o a s' Hf Hin _. by apply (send_attr_ok buf len l g o a s'). }
  mred. cbn [sa_peer sa_len sa_value] in Hp, Hd. destruct (err =? 0); cbn [negb]; [|left; eauto]. case_decide as Eua; [left; eauto|].
  assert (ua = []) as -> by (destruct ua; [done|by destruct Eua]).
  destruct (addr_any (Some peer)) eqn:Eany; cbn [negb andb]; [left; eauto|]. case_bool_decide; [|left; eauto].
  destruct Hp as [->|Hp]; [done|]. destruct Hd as [[-> _]|(l & g & o & a & Hf & Hin & Hty & -> & ->)]; [lia|].
  right. exists l, g, o, a, peer, df. split_and!; [done..|]. destruct (framed_read _ _ _ _ _ _ Hf Hin) as (_ & _ & _ & Hs & _).
  assert (o + 4 + zlen (at_val a) <= len) as Hole.
  { apply attr_offs_elem in Hin as (l1 & l2 & -> & ->). destruct Hf as (h & rest & -> & Hh & _ & Hwf & _ & Hle).
    rewrite enc_attrs_app in Hle. cbn [enc_attrs] in Hle. unfold enc_attr in Hle. rewrite !length_app, !length_be_bytes in Hle. lia. }
  destruct (if server_relay server then _ else _) as [tinfo|]; [|done]. mred. destruct (_ || _); [|done].
  assert (0 <= o) as Ho by (apply attr_offs_elem in Hin as (l1 & l2 & _ & ->); lia).
  unfold MAX_STUN_MESSAGE_SIZE in Hmax. case_decide as Hz; mred.
  - assert (at_val a = []) as -> by (apply length_zero_iff_nil; lia). done.
  - rewrite decide_True by lia. rewrite u16_small by lia. by rewrite Hs.
Qed.

End send.

(** C18 A Send indication is relayed to permitted peers only: on any bytes the handler is
    defined; when it hands a packet to the relay, its destination is an address that a
    permission in use is for (unless the server relays to anyone), its data is exactly the
    value of a DATA attribute of the message, and no error is reported with it. *)
Theorem send_only_permitted tr s server ss buf len ttl :
  run init_tables tr s -> addrs_inet (addr_mapping server) -> received buf len -> len <= MAX_STUN_MESSAGE_SIZE ->
  exists err ua packet, handle_turn_send server ss s buf len ttl = Some (err, ua, packet) /\
    forall pk, packet = Some pk ->
      err = 0 /\ pk_socket pk = get_relay_socket ss (sa_family (pk_dest pk)) /\
      (exists l g o a, framed buf len l g /\ (o, a) ∈ attr_offs 20 l /\ at_type a = STUN_ATTRIBUTE_DATA /\ pk_data pk = at_val a) /\
      (server_relay server = false -> exists p t, get_perm (tb_perms s) p = Some t /\ pm_allocated t = true /\
         addr_eqv_no_port (pm_addr t) (pk_dest pk)).
Proof.
  intros Hrun Hm Hrecv Hmax. destruct (run_shows tr s Hrun) as (R & _ & Hs). pose proof (sh_ok _ _ Hs) as Hok.
  destruct (send_cases server Hm ss s buf len ttl Hrecv Hmax) as [(err & ua & ->)|(l & g & o & a & peer & df & Hf & Hin & Hty & Hpeer & ->)];
    [by eexists _, _, None|].
  destruct (server_relay server) eqn:Er; mred.
  - eexists _, _, _. split; [done|]. intros pk [= <-]. split_and!; [done|done|by exists l, g, o, a|done].
  - destruct (find_perm s Hok peer (proj1 Hpeer)) as [(p & t & -> & [Hp Ha] & He)|[-> _]]; mred; eexists _, _, _; (split; [done|]); [|done].
    intros pk [= <-]. split_and!; [done|done|by exists l, g, o, a|]. intros _. by exists p, t.
Qed.

Lemma send_only_permitted_witness :
  handle_turn_send plain_server plain_session example_tables example_send 40 64
    = Some (0, [], Some (mk_packet 7 false (example_peer 4000) [7; 8] 63)) /\
  exists p t, get_perm (tb_perms example_tables) p = Some t /\ pm_allocated t = true /\ addr_eqv_no_port (pm_addr t) (example_peer 4000).
Proof.
  assert (handle_turn_send plain_server plain_session example_tables example_send 40 64
    = Some (0, [], Some (mk_packet 7 false (example_peer 4000) [7; 8] 63))) as E by (vm_compute; reflexivity). split; [done|].
  destruct (send_only_permitted example_trace example_tables plain_server plain_session example_send 40 64 example_run) as (err & ua & packet & H & Hpk);
    [by constructor|by apply received_dec|done|]. rewrite E in H. injection H as <- <- <-. by apply (Hpk _ eq_refl).
Defined.

(** ** Channels *)

(** The number [get_turn_channel_number] finds is that of the channel of this peer. *)
Lemma channel_of_peer s R c x src :
  shows s R -> is_chn s c x -> sock_addr src -> addr_eqv src (ch_peer x) ->
  exists p, allocation_get_permission s (Some src) = Some (Some p) /\ get_turn_channel_number s p src = Some (ch_chnum x).
Proof.
  intros Hs Hc Hsrc He. pose proof (sh_ok _ _ Hs) as Hok. pose proof (ts_linked _ Hok) as HL.
  pose proof (lk_chn _ _ _ HL c x (proj1 Hc) (proj2 Hc)) as Hokc. pose proof (co_inet _ _ _ _ Hokc) as Hpeer.
  apply (addr_eqv_ports _ _ Hsrc Hpeer) in He as [He Eport]. apply host_eqv in He; [|apply Hsrc|apply Hpeer].
  destruct (owner_perm s R Hs c x Hc) as (p & t & _ & Hp & Eh & Hk).
  destruct (find_perm s Hok src (proj1 Hsrc)) as [(q & u & -> & Hq & Hqe)|[_ Hno]].
  - apply host_eqv in Hqe; [|apply (po_inet _ _ _ _ (lk_perm _ _ _ HL q u (proj1 Hq) (proj2 Hq)))|apply Hsrc].
    assert (q = p) as -> by (apply (perm_unique s R Hs q u p t); [done|done|congruence]). rewrite (perm_same s p u t) in * by done.
    exists p. split; [done|]. assert (0 < addr_get_port (Some src)) as Hport by (rewrite Eport; apply (co_port _ _ _ _ Hokc)).
    assert (ports t !! addr_get_port (Some src) = Some c) as Hk' by (rewrite Eport; exact Hk).
    destruct (perm_channel s Hok p t src Hp Hport) as [(d & y & _ & Hnum & Hd & _ & _ & Hk'')|(_ & _ & Hk'')]; [|congruence].
    assert (d = c) as -> by congruence. by rewrite (chn_same s c x y Hc Hd).
  - destruct (Hno p t Hp). apply host_eqv; [apply (po_inet _ _ _ _ (lk_perm _ _ _ HL p t (proj1 Hp) (proj2 Hp)))|apply Hsrc|congruence].
Qed.

(** C20 A channel carries data both ways: once a number is bound, a message on it goes with
    its payload to the peer it is bound to, and what that peer sends comes back as a channel
    message with the same number, which the client reads with the payload and its length. *)
Theorem channel_data_both_ways tr s ss server n c x buf len front src data family nbh rnd mandatory_padding :
  run init_tables tr s -> alloc_is_valid ss = true -> to_be_closed ss = false -> client_socket_open ss = true ->
  get_relay_socket ss family <> 0 ->
  allocation_get_ch_info s n = Some (Some c) -> get_ch (tb_chns s) c = Some x ->
  4 <= len <= zlen buf -> length front = 4%nat -> sock_addr src -> addr_eqv src (ch_peer x) ->
  zlen data <= UDP_STUN_BUFFER_SIZE - STUN_CHANNEL_HEADER_LENGTH ->
  write_to_peerchannel ss s n buf len 64
    = Some (Some (mk_packet (get_relay_socket ss (sa_family (ch_peer x))) false (ch_peer x) (take (Z.to_nat (len - 4)) (drop 4 buf)) 63)) /\
  exists out olen, peer_input_handler server ss s family src 64 front data (zlen data) nbh rnd = Some (Some (out, olen)) /\
    stun_is_channel_message_str out olen mandatory_padding = Some (true, 4 + zlen data, Some n) /\
    slice out 4 (zlen data) = Some data.
Proof.
  intros Hrun Hvalid Hclose Hopen Hsock Hget Hx Hlen Hfront Hsrc Heq Hdata.
  destruct (run_shows tr s Hrun) as (R & _ & Hs). pose proof (sh_ok _ _ Hs) as Hok.
  destruct (find_channel s Hok n) as [(c' & x' & Hget' & Hc & Hn)|[Hget' _]]; rewrite Hget in Hget'; [injection Hget' as <-|done].
  assert (x' = x) as -> by (destruct Hc; congruence).
  pose proof (lk_chn _ _ _ (ts_linked _ Hok) c x (proj1 Hc) (proj2 Hc)) as Hokc. split.
  - unfold write_to_peerchannel. rewrite Hvalid. cbn [negb orb Z.eqb]. rewrite Hget. mred. rewrite Hx. mred.
    unfold STUN_CHANNEL_HEADER_LENGTH. rewrite slice_val by lia. done.
  - destruct (channel_of_peer s R c x src Hs Hc Hsrc Heq) as (p & Hp & Hnum). unfold peer_input_handler.
    rewrite Hclose, Hopen, Hvalid. cbn [negb orb Z.eqb]. rewrite (proj2 (Z.eqb_neq (get_relay_socket ss family) 0)) by done. rewrite Hp. mred. rewrite Hnum. mred.
    pose proof (co_valid _ _ _ _ Hokc) as Hv. pose proof Hv as Hv'. apply bool_decide_eq_true in Hv'.
    rewrite (proj2 (Z.eqb_neq _ _)) by lia. cbn [negb]. rewrite Z.min_l by lia. unfold UDP_STUN_BUFFER_SIZE, STUN_CHANNEL_HEADER_LENGTH in Hdata.
    destruct (channel_frame (ch_chnum x) (front ++ data) (zlen data) (zlen data) (is_stream_socket (client_socket_type ss)) mandatory_padding)
      as (out & olen & -> & Hdrop & _ & _ & _ & Hread & Hl); [done|unfold MAX_STUN_MESSAGE_SIZE; lia|rewrite length_app; lia|]. mred.
    exists out, olen. rewrite <- Hn. split_and!; [done|done|].
    assert (drop 4 out = data) as Ed by (rewrite Hdrop, <- Hfront; by rewrite drop_app_length).
    rewrite length_app in Hl. rewrite slice_val by lia. change (Z.to_nat 4) with 4%nat. rewrite Ed. f_equal. apply take_ge. lia.
Qed.

Lemma channel_data_both_ways_witness :
  allocation_get_ch_info example_tables 0x4001 = Some (Some 2) /\
  exists out olen, peer_input_handler plain_server plain_session example_tables AF_INET (example_peer 4000) 64 [0; 0; 0; 0] [1; 2; 3] 3 [] []
      = Some (Some (out, olen)) /\ stun_is_channel_message_str out olen true = Some (true, 7, Some 0x4001).
Proof.
  split; [vm_compute; reflexivity|].
  destruct (channel_data_both_ways example_trace example_tables plain_session plain_server 0x4001 2 example_chan [0x40; 1; 0; 1; 9] 5 [0; 0; 0; 0]
    (example_peer 4000) [1; 2; 3] AF_INET [] [] true example_run) as (_ & out & olen & H1 & H2 & _);
    [reflexivity|reflexivity|reflexivity|done|vm_compute; reflexivity|vm_compute; reflexivity|vm_compute; split; discriminate
    |reflexivity|apply example_peer_ok|vm_compute; reflexivity|done|by exists out, olen].
Defined.
