(* ===== verification/DataFacts.v ===== *)
(** * From a peer to the client

    A peer without permission is not heard; any other reaches the client, on its channel
    or in a Data indication that carries the payload and the address. *)

From S2P Require Import Prelude IoAddr MsgAddr StunHeader StunAttr StunFields StunFieldsFacts Fingerprint Buckets LmMap IoTimer Permission PermMem PermLink PermFacts Session SessionFacts RelayFacts RelayBind RelaySystem AttrWalk Handlers HandlerFacts RelayData.

(** The version string fits. *)
Definition software_ok (server : turn_turnserver) : Prop :=
  forall v, software_attribute server = Some v -> is_bytes v /\ zlen v <= 1024.

(** The session can receive. *)
Definition alive (ss : session) (family : Z) : Prop :=
  alloc_is_valid ss = true /\ to_be_closed ss = false /\ client_socket_open ss = true /\ get_relay_socket ss family <> 0.

(** What a client reads in a Data indication. *)
Definition data_indication (m : mapping) (out : list Z) (olen : Z) (data : list Z) (src : ioa_addr) : Prop :=
  stun_is_command_message_str out olen = Some true /\ stun_get_method_str out olen = Some STUN_METHOD_DATA /\
  (exists o, stun_attr_get_first_by_type_str out olen STUN_ATTRIBUTE_DATA = Some (Some o) /\
     stun_attr_get_len out (Some o) = Some (zlen data) /\ slice out (o + 4) (zlen data) = Some data) /\
  exists src', stun_attr_get_first_addr_str m out olen STUN_ATTRIBUTE_XOR_PEER_ADDRESS None = Some (Some src') /\ addr_eqv src' src.

Section indication.
Context (server : turn_turnserver) (ss : session) (data nbh rnd : list Z) (src : ioa_addr).
Context (Hmap : mapping_ok (addr_mapping server)) (Hwfm : Forall (fun p => wf_addr p.1) (addr_mapping server)).
Context (Hsrc : wf_addr src) (Hin : inet_addr src) (Hpriv : forall i p, addr_mapping server !! i = Some p -> ~ addr_eqv_no_port src p.1).
Context (Hsoft : software_ok server) (Hdata : is_bytes data) (Hlen : zlen data <= UDP_STUN_BUFFER_SIZE - STUN_CHANNEL_HEADER_LENGTH).
Context (Hn : MAX_STUN_MESSAGE_SIZE <= zlen nbh) (Hr : length rnd = 12%nat) (Hrb : is_bytes rnd).

Let pub := map_addr_from_private_to_public (addr_mapping server) src.
Let attrs := [new_attr STUN_ATTRIBUTE_DATA data; addr_attr STUN_ATTRIBUTE_XOR_PEER_ADDRESS rnd pub].
Let ty := make_class Indication STUN_METHOD_DATA.

Lemma attrs_len : msg_len attrs <= zlen data + 60.
Proof.
  unfold UDP_STUN_BUFFER_SIZE, STUN_CHANNEL_HEADER_LENGTH in Hlen.
  assert (wf_addr pub) as Hpw by (by apply map_private_to_public_wf). unfold attrs.
  pose proof (length_wire_le20 pub (is_xor_type STUN_ATTRIBUTE_XOR_PEER_ADDRESS) STUN_MAGIC_COOKIE rnd Hpw) as Hw.
  pose proof (msg_len_add [] STUN_ATTRIBUTE_DATA data Hdata) as H1.
  pose proof (msg_len_add [new_attr STUN_ATTRIBUTE_DATA data] STUN_ATTRIBUTE_XOR_PEER_ADDRESS _ (wire_addr_bytes pub (is_xor_type STUN_ATTRIBUTE_XOR_PEER_ADDRESS) STUN_MAGIC_COOKIE rnd Hpw Hrb)) as H2.
  change (msg_len []) with 20 in H1. cbn [app] in H1, H2. unfold addr_attr. lia.
Qed.

(** The first part of the message. *)
Lemma indication_built :
  exists b0 b1 b2, stun_init_indication_str STUN_METHOD_DATA nbh rnd = Some (b0, 20) /\
    (exists n1, stun_attr_add_str b0 20 STUN_ATTRIBUTE_DATA (Some data) (zlen data) = Some (true, b1, n1) /\
       stun_attr_add_addr_str (addr_mapping server) b1 n1 STUN_ATTRIBUTE_XOR_PEER_ADDRESS src = Some (true, b2, msg_len attrs)) /\
    built b2 (msg_len attrs) ty STUN_MAGIC_COOKIE rnd attrs.
Proof.
  unfold UDP_STUN_BUFFER_SIZE, STUN_CHANNEL_HEADER_LENGTH in Hlen.
  destruct (built_init Indication STUN_METHOD_DATA nbh rnd Hn Hr) as (b0 & E0 & H0); [done|].
  destruct (built_add_all _ _ _ _ _ _ STUN_ATTRIBUTE_DATA data (zlen data) H0 Hdata eq_refl) as (b1 & E1 & H1).
  { change (msg_len []) with 20. unfold MAX_STUN_MESSAGE_SIZE. lia. }
  pose proof (msg_len_add [] STUN_ATTRIBUTE_DATA data Hdata) as Hl. change (msg_len []) with 20 in Hl. cbn [app] in Hl, E1, H1.
  destruct (built_add_addr (addr_mapping server) _ _ _ _ _ _ STUN_ATTRIBUTE_XOR_PEER_ADDRESS src H1 Hrb) as (b2 & E2 & H2);
    [by apply map_private_to_public_wf|right; by apply map_private_to_public_inet|unfold MAX_STUN_MESSAGE_SIZE; lia|].
  exists b0, b1, b2. split_and!; [done| |exact H2]. eexists. by split.
Qed.

Lemma software_built b :
  built b (msg_len attrs) ty STUN_MAGIC_COOKIE rnd attrs ->
  exists b' extra, maybe_add_software_attribute server b (msg_len attrs) = Some (b', msg_len (attrs ++ extra)) /\
    built b' (msg_len (attrs ++ extra)) ty STUN_MAGIC_COOKIE rnd (attrs ++ extra) /\ msg_len (attrs ++ extra) <= zlen data + 1200.
Proof.
  pose proof attrs_len as Hl. unfold UDP_STUN_BUFFER_SIZE, STUN_CHANNEL_HEADER_LENGTH in Hlen.
  intros Hb. unfold maybe_add_software_attribute. destruct (software_attribute server) as [v|] eqn:E.
  - destruct (Hsoft v E) as [Hv Hvl]. destruct (built_add_all _ _ _ _ _ _ STUN_ATTRIBUTE_SOFTWARE v (zlen v) Hb Hv eq_refl) as (b' & -> & Hb').
    { unfold MAX_STUN_MESSAGE_SIZE. lia. }
    mred. exists b', [new_attr STUN_ATTRIBUTE_SOFTWARE v]. split_and!; [done|done|].
    pose proof (msg_len_add attrs STUN_ATTRIBUTE_SOFTWARE v Hv). lia.
  - exists b, []. rewrite app_nil_r. split_and!; [done|done|lia].
Qed.

Lemma indication_reads out extra :
  is_msg out (msg_len (attrs ++ extra)) ty STUN_MAGIC_COOKIE rnd (attrs ++ extra) ->
  data_indication (addr_mapping server) out (msg_len (attrs ++ extra)) data src.
Proof.
  intros Hmsg. destruct (is_msg_is_command Indication STUN_METHOD_DATA _ _ _ _ Hmsg) as [Hc Hmeth]; [done|].
  split; [done|]. split; [done|]. split.
  - destruct (is_msg_read_first out _ _ _ _ [] (new_attr STUN_ATTRIBUTE_DATA data)
      (addr_attr STUN_ATTRIBUTE_XOR_PEER_ADDRESS rnd pub :: extra) Hmsg (Forall_nil_2 _)) as (o & Ho & Hol & _ & Hos). exists o. by split_and!.
  - apply (first_addr_eqv (addr_mapping server) out _ ty STUN_MAGIC_COOKIE rnd [new_attr STUN_ATTRIBUTE_DATA data] extra); try done.
    + by right; left.
    + by repeat constructor.
Qed.

(** Without a channel the message is a Data indication. *)
Lemma indication_ok s family tinfo front :
  alive ss family -> allocation_get_permission s (Some src) = Some tinfo ->
  (match tinfo with Some p => get_turn_channel_number s p src = Some 0 | None => server_relay server = true end) ->
  exists out olen, peer_input_handler server ss s family src 64 front data (zlen data) nbh rnd = Some (Some (out, olen)) /\
    data_indication (addr_mapping server) out olen data src.
Proof.
  intros (Hvalid & Hclose & Hopen & Hsock) Hp Hnum. unfold peer_input_handler. rewrite Hclose, Hopen, Hvalid. cbn [negb orb Z.eqb].
  rewrite (proj2 (Z.eqb_neq (get_relay_socket ss family) 0)) by done. rewrite Hp. cbn [mbind option_bind].
  assert ((match tinfo with Some tinfo => n ← get_turn_channel_number s tinfo src; Some (Some n)
           | None => Some (if server_relay server then Some 0 else None) end) = Some (Some 0)) as -> by (destruct tinfo; cbv iota in Hnum; by rewrite Hnum).
  mred. cbn [negb Z.eqb]. rewrite Z.min_l by lia.
  destruct indication_built as (b0 & b1 & b2 & -> & (n1 & E1 & E2) & H2). mred. rewrite slice_val by lia. mred. change (Z.to_nat 0) with 0%nat. rewrite drop_0, take_ge by lia.
  rewrite E1. mred. rewrite E2. mred. destruct (software_built b2 H2) as (b3 & extra & -> & H3 & Hl3). mred.
  destruct (_ || _).
  - unfold UDP_STUN_BUFFER_SIZE, STUN_CHANNEL_HEADER_LENGTH in Hlen.
    destruct (fingerprint_add _ _ _ _ _ _ H3 Hrb) as (b4 & -> & H4); [unfold MAX_STUN_MESSAGE_SIZE; lia|]. mred.
    eexists _, _. split; [done|]. destruct H4 as [H4 _]. rewrite <- (assoc_L (++)) in H4.
    set (fp := fingerprint_attr _) in *.
    assert (msg_len (attrs ++ extra) + 8 = msg_len (attrs ++ extra ++ [fp])) as E by (rewrite (assoc_L (++)); unfold fp; by rewrite msg_len_fp).
    clearbody fp. rewrite E in H4 |- *. by apply indication_reads.
  - eexists _, _. split; [done|]. by apply indication_reads, H3.
Qed.

End indication.

(** The channel that a permission has for a peer is found by its number and bound to the peer. *)
Lemma channel_bound_to s R p t c x src :
  shows s R -> is_perm s p t -> addr_eqv_no_port (pm_addr t) src -> sock_addr src -> is_chn s c x -> ch_owner x = Some p ->
  peer_port x = addr_get_port (Some src) ->
  allocation_get_ch_info s (ch_chnum x) = Some (Some c) /\ addr_eqv src (ch_peer x).
Proof.
  intros Hs Hp He Hsrc Hc Ho Hport. pose proof (sh_ok _ _ Hs) as Hok. pose proof (ts_linked _ Hok) as HL.
  pose proof (lk_chn _ _ _ HL c x (proj1 Hc) (proj2 Hc)) as Hokc. pose proof (co_inet _ _ _ _ Hokc) as Hpeer. split.
  - destruct (find_channel s Hok (ch_chnum x)) as [(d & y & -> & Hd & Hn)|[_ Hno]]; [|by destruct (Hno c x Hc)].
    by rewrite (lk_chnum _ _ _ HL c d x y (proj1 Hc) (proj2 Hc) (proj1 Hd) (proj2 Hd)).
  - destruct (co_owner _ _ _ _ Hokc) as (q & u & Hq & Hu & Hua & Hue & _). assert (q = p) as -> by congruence.
    assert (u = t) as -> by (destruct Hp; congruence). apply (addr_eqv_ports _ _ Hsrc Hpeer). split; [by rewrite <- He|]. exact (eq_sym Hport).
Qed.

(** A peer for whose port its permission has no channel has no channel at all. *)
Lemma no_channel_bound s R p t src :
  shows s R -> is_perm s p t -> allocation_get_permission s (Some src) = Some (Some p) -> sock_addr src -> 0 < addr_get_port (Some src) ->
  get_turn_channel_number s p src = Some 0 -> forall c x, is_chn s c x -> ~ addr_eqv src (ch_peer x).
Proof.
  intros Hs Hp Hget Hsrc Hport Hnum c x Hc He. destruct (channel_of_peer s R c x src Hs Hc Hsrc He) as (q & Hq & Hn).
  rewrite Hget in Hq. injection Hq as <-. rewrite Hnum in Hn. injection Hn as Hn.
  pose proof (co_valid _ _ _ _ (lk_chn _ _ _ (ts_linked _ (sh_ok _ _ Hs)) c x (proj1 Hc) (proj2 Hc))) as Hv. rewrite <- Hn in Hv. discriminate Hv.
Qed.

(** What a client reads in a message on the channel [n]. *)
Definition channel_message (out : list Z) (olen n : Z) (data : list Z) : Prop :=
  (forall mandatory_padding, stun_is_channel_message_str out olen mandatory_padding = Some (true, 4 + zlen data, Some n)) /\
  slice out 4 (zlen data) = Some data.

Lemma channel_message_built n front data size padding :
  STUN_VALID_CHANNEL n = true -> length front = 4%nat -> zlen data <= UDP_STUN_BUFFER_SIZE - STUN_CHANNEL_HEADER_LENGTH ->
  exists out olen, stun_init_channel_message_str n (front ++ data) size (zlen data) padding = Some (true, out, olen) /\ channel_message out olen n data.
Proof.
  unfold UDP_STUN_BUFFER_SIZE, STUN_CHANNEL_HEADER_LENGTH. intros Hv Hf Hd.
  assert (forall mp, exists out olen, stun_init_channel_message_str n (front ++ data) size (zlen data) padding = Some (true, out, olen) /\
    drop 4 out = data /\ stun_is_channel_message_str out olen mp = Some (true, 4 + zlen data, Some n) /\ length out = (4 + length data)%nat) as H.
  { intros mp. destruct (channel_frame n (front ++ data) size (zlen data) padding mp) as (out & olen & H1 & H2 & _ & _ & _ & H3 & H4);
      [done|unfold MAX_STUN_MESSAGE_SIZE; lia|rewrite length_app; lia|]. exists out, olen. rewrite <- Hf, drop_app_length in H2. rewrite length_app, Hf in H4. by rewrite Hf in H2. }
  destruct (H true) as (out & olen & E & Hdrop & _ & Hl). exists out, olen. split; [done|]. split.
  - intros mp. destruct (H mp) as (out' & olen' & E' & _ & Hread & _). rewrite E in E'. by injection E' as <- <-.
  - rewrite slice_val by lia. change (Z.to_nat 4) with 4%nat. rewrite Hdrop, take_ge by lia. done.
Qed.

(** C19 A peer is heard exactly when it has a permission.  What a live session writes to its
    client for data from any peer address is nothing when the host has no permission in use.
    Otherwise it is, if a channel is bound to this peer, a channel message with the number of this
    channel, and if none is, a Data indication with the address of the peer; in either the
    client reads the bytes that the peer sent. *)
Theorem peer_heard_iff_permitted tr s server ss family src front data nbh rnd :
  run init_tables tr s -> alive ss family -> server_relay server = false ->
  mapping_ok (addr_mapping server) -> Forall (fun p => wf_addr p.1) (addr_mapping server) -> software_ok server ->
  wf_addr src -> inet_addr src -> 0 < addr_get_port (Some src) ->
  (forall i p, addr_mapping server !! i = Some p -> ~ addr_eqv_no_port src p.1) ->
  is_bytes data -> zlen data <= UDP_STUN_BUFFER_SIZE - STUN_CHANNEL_HEADER_LENGTH ->
  length front = 4%nat -> MAX_STUN_MESSAGE_SIZE <= zlen nbh -> length rnd = 12%nat -> is_bytes rnd ->
  exists r, peer_input_handler server ss s family src 64 front data (zlen data) nbh rnd = Some r /\
    ((forall p t, is_perm s p t -> ~ addr_eqv_no_port (pm_addr t) src) /\ r = None \/
     (exists p t, is_perm s p t /\ addr_eqv_no_port (pm_addr t) src) /\
     exists out olen, r = Some (out, olen) /\
       ((exists n c x, allocation_get_ch_info s n = Some (Some c) /\ get_ch (tb_chns s) c = Some x /\ addr_eqv src (ch_peer x) /\
           channel_message out olen n data) \/
        (forall c x, is_chn s c x -> ~ addr_eqv src (ch_peer x)) /\ data_indication (addr_mapping server) out olen data src)).
Proof.
  intros Hrun Halive Hrelay Hmap Hwfm Hsoft Hwf Hin Hport Hpriv Hdata Hlen Hfront Hn Hr Hrb.
  destruct (run_shows tr s Hrun) as (R & _ & Hs). pose proof (sh_ok _ _ Hs) as Hok. pose proof (ts_linked _ Hok) as HL.
  assert (sock_addr src) as Hsrc by (split; [done|apply Hwf]).
  destruct (find_perm s Hok src Hin) as [(p & t & Hp & Hperm & He)|[Hp Hno]].
  - destruct (perm_channel s Hok p t src Hperm Hport) as [(c & x & _ & Hnum & Hc & Ho & Hpx & _)|(_ & Hnum & _)].
    + destruct (channel_bound_to s R p t c x src) as [Hget Hpeer]; try done.
      pose proof (co_valid _ _ _ _ (lk_chn _ _ _ HL c x (proj1 Hc) (proj2 Hc))) as Hv. pose proof Hv as Hv'. apply bool_decide_eq_true in Hv'.
      destruct Halive as (Hvalid & Hclose & Hopen & Hsock). unfold peer_input_handler. rewrite Hclose, Hopen, Hvalid. cbn [negb orb Z.eqb].
      rewrite (proj2 (Z.eqb_neq (get_relay_socket ss family) 0)) by done. rewrite Hp. mred. rewrite Hnum. mred.
      rewrite (proj2 (Z.eqb_neq _ _)) by lia. cbn [negb]. rewrite Z.min_l by lia.
      destruct (channel_message_built (ch_chnum x) front data (zlen data) (is_stream_socket (client_socket_type ss))) as (out & olen & -> & Hmsg); [done..|]. mred.
      eexists. split; [done|]. right. split; [by exists p, t|]. exists out, olen. split; [done|]. left. exists (ch_chnum x), c, x. by split_and!; [|apply Hc|..].
    + destruct (indication_ok server ss data nbh rnd src Hmap Hwfm Hwf Hin Hpriv Hsoft Hdata Hlen Hn Hr Hrb s family (Some p) front Halive Hp Hnum) as (out & olen & -> & Hind).
      eexists. split; [done|]. right. split; [by exists p, t|]. exists out, olen. split; [done|right]. split; [|done]. by apply (no_channel_bound s R p t src).
  - destruct Halive as (Hvalid & Hclose & Hopen & Hsock). exists None. split; [|by left].
    unfold peer_input_handler. rewrite Hclose, Hopen, Hvalid. cbn [negb orb Z.eqb].
    rewrite (proj2 (Z.eqb_neq (get_relay_socket ss family) 0)) by done. rewrite Hp. mred. by rewrite Hrelay.
Qed.

(** The peer of the example's channel is heard on it. *)
Lemma peer_heard_iff_permitted_witness :
  alive plain_session AF_INET /\
  exists out olen, peer_input_handler plain_server plain_session example_tables AF_INET (example_peer 4000) 64 [0; 0; 0; 0] [1; 2; 3] 3
    (replicate (Z.to_nat 65507) 0) (replicate 12 9) = Some (Some (out, olen)) /\ channel_message out olen 0x4001 [1; 2; 3].
Proof.
  assert (alive plain_session AF_INET) as Ha by (by split_and!). split; [done|].
  assert (wf_addr (example_peer 4000)) as Hwf by (split_and!; first [by apply bytes_dec|by vm_compute]).
  destruct (peer_heard_iff_permitted example_trace example_tables plain_server plain_session AF_INET (example_peer 4000) [0; 0; 0; 0] [1; 2; 3]
    (replicate (Z.to_nat 65507) 0) (replicate 12 9) example_run Ha eq_refl) as (r & H & Hr).
  - split; [by constructor|]. intros i j p q Hi. discriminate Hi.
  - by constructor.
  - by intros v Hv.
  - exact Hwf.
  - by left.
  - by vm_compute.
  - intros i p Hi. discriminate Hi.
  - by apply bytes_dec.
  - by vm_compute.
  - reflexivity.
  - apply example_room.
  - reflexivity.
  - by apply bytes_dec.
  - destruct Hr as [[_ ->]|(_ & out & olen & -> & [(n & c & x & Hn & Hc & He & Hm)|[Hno _]])].
    + vm_compute in H. discriminate H.
    + exists out, olen. split; [exact H|]. assert (n = 0x4001) as <-; [|exact Hm]. destruct Hm as [Hm _]. specialize (Hm true).
      vm_compute in H. injection H as <- <-. vm_compute in Hm. injection Hm as <-. reflexivity.
    + exfalso. apply (Hno 2 example_chan); [by split; vm_compute|by vm_compute].
Defined.
