(* ===== verification/ClientServer.v ===== *)
(** * Client and server together

    The requests a client builds, handled by the server. *)

From S2P Require Import Prelude IoAddr MsgAddr StunHeader StunAttr StunFields StunFieldsFacts Fingerprint Integrity Buckets LmMap IoTimer Permission PermMem PermLink PermFacts Session SessionFacts RelayFacts RelayBind RelaySystem AttrWalk Handlers HandlerFacts.

Section request.
Context (server : turn_turnserver) (ss : session) (buf : list Z) (len : Z) (tid : list Z) (ch : Z) (pub : ioa_addr).
Let attrs := [new_attr STUN_ATTRIBUTE_CHANNEL_NUMBER (be_bytes 2 ch ++ [0; 0]); addr_attr STUN_ATTRIBUTE_XOR_PEER_ADDRESS tid pub].
Context (Hmsg : is_msg buf len (make_class Request STUN_METHOD_CHANNEL_BIND) STUN_MAGIC_COOKIE tid attrs).
Context (Hch : 0 <= ch < 2 ^ 16) (Hv : STUN_VALID_CHANNEL ch = true) (Hwf : wf_addr pub) (Hin : inet_addr pub).

Let peer := map_addr_from_public_to_private (addr_mapping server) (decoded_addr pub addr_set_any).

(** What the attribute loop collects. *)
Lemma bind_request_parsed :
  bindable ss peer ->
  attr_walk buf len (fun s => keep_reading (ba_err_code s) (ba_unknown s)) (bind_attr server ss buf) (mk_bind_attrs 0 [] 0 addr_set_any false)
    = Some (mk_bind_attrs 0 [] ch peer true).
Proof.
  intros (Hpeer & Hport & Hsock). pose proof (is_msg_framed _ _ _ _ _ _ Hmsg) as Hf. rewrite (attr_walk_framed _ _ _ _ _ _ _ Hf).
  assert (forall o a, (o, a) ∈ attr_offs 20 attrs -> stun_attr_get_type buf (Some o) = Some (at_type a)) as Hty.
  { intros o a Hoa. by destruct (framed_read _ _ _ _ _ _ Hf Hoa). }
  cbn [attrs attr_offs] in Hty |- *. set (a1 := new_attr STUN_ATTRIBUTE_CHANNEL_NUMBER _) in *. set (o2 := 20 + zlen (enc_attr a1)) in *.
  set (a2 := addr_attr _ _ _) in *. assert ((20, a1) ∈ attr_offs 20 attrs) as H1 by (by left). assert ((o2, a2) ∈ attr_offs 20 attrs) as H2 by (by right; left).
  assert (STUN_VALID_CHANNEL ch = true) as Hv' by done. apply bool_decide_eq_true in Hv'.
  assert (bind_attr server ss buf 20 (mk_bind_attrs 0 [] 0 addr_set_any false) = Some (mk_bind_attrs 0 [] ch addr_set_any false)) as E1.
  { unfold bind_attr. rewrite (Hty 20 a1 H1). change (at_type a1) with STUN_ATTRIBUTE_CHANNEL_NUMBER. cbn [mbind option_bind].
    rewrite decide_False by (apply (bool_decide_unpack _); vm_compute; done). rewrite decide_True by done. cbn [negb Z.eqb].
    rewrite (get_channel_at buf len _ _ tid attrs 20 ch Hch Hv Hmsg H1). mred. by rewrite (proj2 (Z.eqb_neq ch 0)) by lia. }
  assert (bind_attr server ss buf o2 (mk_bind_attrs 0 [] ch addr_set_any false) = Some (mk_bind_attrs 0 [] ch peer true)) as E2.
  { unfold bind_attr. rewrite (Hty o2 a2 H2). change (at_type a2) with STUN_ATTRIBUTE_XOR_PEER_ADDRESS. cbn [mbind option_bind].
    rewrite decide_False by (apply (bool_decide_unpack _); vm_compute; done). rewrite decide_False by done. rewrite decide_True by done.
    rewrite (get_addr_at (addr_mapping server) buf len _ _ tid attrs o2 STUN_ATTRIBUTE_XOR_PEER_ADDRESS pub Hmsg H2) by (done || by right; left).
    cbn [mbind option_bind]. fold peer. rewrite (proj2 (Z.eqb_neq (get_relay_socket ss (sa_family peer)) 0)) by done.
    by rewrite decide_False by lia. }
  cbn [fold_attrs]. change (negb (keep_reading 0 [])) with false. cbn [ba_err_code ba_unknown negb]. rewrite E1. cbn [mbind option_bind ba_err_code ba_unknown].
  change (negb (keep_reading 0 [])) with false. cbv iota. rewrite E2. done.
Qed.

End request.

Lemma bindable_eqv ss a b : addr_eqv a b -> bindable ss b -> bindable ss a.
Proof.
  intros (Ef & Ep & _)%addr_eq_spec ([Hi Hp] & Hport & Hsock). unfold bindable, sock_addr.
  assert (inet_addr a) as Hia by (unfold inet_addr; by rewrite Ef). rewrite (inet_port b Hi) in Hport. rewrite (inet_port a Hia), Ef, Ep.
  split; [split; [exact Hia|exact Hp]|by split].
Qed.

Lemma port_not_any a : inet_addr a -> 0 < addr_get_port (Some a) -> addr_any (Some a) = false.
Proof.
  intros Hi. rewrite (inet_port a Hi). intros Hport. assert (sin_port a <> 0) as Hne by (intros E; by rewrite E in Hport).
  unfold addr_any. destruct Hi as [E|E]; rewrite E.
  - rewrite decide_True by done. rewrite (proj2 (Z.eqb_neq (sin_port a) 0)) by done. apply andb_false_r.
  - rewrite decide_False, decide_True by done. by rewrite (proj2 (Z.eqb_neq (sin_port a) 0)) by done.
Qed.

(** The ChannelBind request of a client is understood: whatever allocation, number and
    peer, the server binds the number the client has chosen to an address equal to the
    peer, or refuses as the relay's specification does; a success is reported by a success
    response to the client's transaction. *)
Theorem channel_bind_understood tr s server ss m buf peer chn rnd_chn tid nbh rnd :
  run init_tables tr s -> server_ok server -> addr_mapping server = m -> mapping_ok m -> Forall (fun p => wf_addr p.1) m ->
  is_tcp_relay ss = false -> alloc_is_valid ss = true ->
  bindable ss peer -> wf_addr peer -> inet_addr peer ->
  (forall i p, m !! i = Some p -> ~ addr_eqv_no_port peer p.1) ->
  MAX_STUN_MESSAGE_SIZE <= zlen buf -> is_bytes tid -> 0 <= chn < 2 ^ 16 -> response_room tid nbh rnd ->
  exists ch request len peer' R r, stun_set_channel_bind_request_str m buf (Some peer) chn rnd_chn tid = Some (ch, request, len) /\
    (STUN_VALID_CHANNEL chn = true -> ch = chn) /\ addr_eqv peer' peer /\ shows s R /\
    handle_turn_channel_bind all_memory server ss s request len tid nbh rnd = Some r /\
    rp_err_code r = (rl_bind server (realm_name ss) R ch peer').1 /\ shows (rp_tables r) (rl_bind server (realm_name ss) R ch peer').2 /\
    (rp_err_code r = 0 -> exists response, rp_response r = Some response /\ success_response STUN_METHOD_CHANNEL_BIND tid response).
Proof.
  intros Hrun Hserver Em Hok Hwfm Htcp Hvalid Hbind Hwf Hin Hnp Hcap Htb Hc Hroom. subst m. set (m := addr_mapping server) in *. destruct (run_shows tr s Hrun) as (R & _ & Hs).
  assert (wf_addr (map_addr_from_private_to_public m peer)) as Hpw by (by apply map_private_to_public_wf).
  assert (inet_addr (map_addr_from_private_to_public m peer)) as Hpi by (by apply map_private_to_public_inet).
  destruct (channel_bind_request_built m buf peer chn rnd_chn tid) as (ch & req & len & Hreq & Hch & Hv & Hr16 & [Hmsg _]); [done|apply Hroom|done..|].
  set (peer' := map_addr_from_public_to_private m (decoded_addr (map_addr_from_private_to_public m peer) addr_set_any)).
  assert (addr_eqv peer' peer) as Heq.
  { transitivity (map_addr_from_public_to_private m (map_addr_from_private_to_public m peer)); [|by apply map_addr_roundtrip_aux].
    apply map_public_to_private_proper; [|by apply decoded_addr_eqv]. destruct Hok as [Hok' _]. eapply Forall_impl; [exact Hok'|]. by intros p [_ ?]. }
  destruct (bindable_eqv ss _ _ Heq Hbind) as (Hpeer & Hport & Hsock).
  pose proof (bind_request_parsed server ss req len tid ch _ Hmsg Hr16 Hv Hpw Hpi) as Hparse.
  fold m peer' in Hparse. specialize (Hparse (bindable_eqv ss _ _ Heq Hbind)).
  destruct (bind_ok server Hserver ss s R ch peer' Hs Hpeer Hport Hv) as (s' & Hrun' & Hs').
  pose proof (port_not_any peer' (proj1 Hpeer) Hport) as Hany.
  exists ch, req, len, peer', R. unfold handle_turn_channel_bind. rewrite Htcp, Hvalid. cbn [negb]. rewrite Hparse. mred. rewrite (decide_False (P := @nil Z <> [])) by (intros Hnil; by apply Hnil). cbn [Z.eqb negb].
  assert (STUN_VALID_CHANNEL ch = true) as Hv' by done. apply bool_decide_eq_true in Hv'.
  rewrite (proj2 (Z.eqb_neq ch 0)) by lia. rewrite Hany, Hv. cbn [orb negb]. rewrite Hrun'. mred.
  destruct (success_built STUN_METHOD_CHANNEL_BIND tid nbh rnd Hroom) as (response & Hresp & Hsucc); [done|].
  unfold stun_set_channel_bind_response_str. rewrite (decide_True (P := 0 = 0)) by done. rewrite Hresp. mred.
  destruct ((rl_bind server (realm_name ss) R ch peer').1 =? 0) eqn:E; eexists; split_and!; try done.
  - by apply Z.eqb_eq in E.
  - intros _. by exists response.
  - cbn. intros E0. rewrite E0 in E. done.
Qed.

Lemma channel_bind_understood_witness :
  bindable plain_session (example_peer 4000) /\
  exists request len r, stun_set_channel_bind_request_str [] (replicate (Z.to_nat 65507) 0) (Some (example_peer 4000)) 0x4001 0 (replicate 12 5)
      = Some (0x4001, request, len) /\
    handle_turn_channel_bind all_memory plain_server plain_session example_tables request len (replicate 12 5)
      (replicate (Z.to_nat 65507) 0) (replicate 12 9) = Some r.
Proof.
  assert (bindable plain_session (example_peer 4000)) as Hb by (split_and!; [apply example_peer_ok|done|done]). split; [done|].
  assert (wf_addr (example_peer 4000)) as Hwf by (split_and!; try (by vm_compute); [by apply bytes_dec]).
  destruct (channel_bind_understood example_trace example_tables plain_server plain_session [] (replicate (Z.to_nat 65507) 0) (example_peer 4000)
    0x4001 0 (replicate 12 5) (replicate (Z.to_nat 65507) 0) (replicate 12 9) example_run plain_server_ok eq_refl)
    as (ch & request & len & _ & _ & r & H1 & Hch & _ & _ & H2 & _).
  - split; [by constructor|]. intros i j p q Hi. discriminate Hi.
  - by constructor.
  - reflexivity.
  - reflexivity.
  - exact Hb.
  - exact Hwf.
  - by left.
  - intros i p Hi. discriminate Hi.
  - apply example_room.
  - by apply bytes_dec.
  - done.
  - apply example_room.
  - exists request, len, r. rewrite (Hch eq_refl) in H1. exact (conj H1 H2).
Defined.

(** * What arrives from a client is told apart

    Channel messages, STUN messages and STUN messages of the old format. *)

Lemma not_channel_message c m n cookie tid rest len pad :
  0 <= m < 4096 -> stun_is_channel_message_str (hdr (make_class c m) n cookie tid ++ rest) len pad = Some (false, len, None).
Proof.
  intros Hm. destruct (make_class_spec c m Hm) as (_ & _ & _ & Hr). unfold stun_is_channel_message_str. case_decide; [done|].
  destruct (hdr_type (make_class c m) n cookie tid rest) as [-> E]; [lia|]. mred. by rewrite E, valid_channel_false by lia.
Qed.

(** The server tells apart what a client can send: a frame written for a channel is
    taken as a message on that channel with its payload's length, and a STUN message of
    any class and method, without a fingerprint, as a command. *)
Theorem client_messages_told_apart server ss :
  (forall n buf len0 size, STUN_VALID_CHANNEL n = true -> 0 <= size <= MAX_STUN_MESSAGE_SIZE - 4 -> (4 <= length buf)%nat ->
     exists frame len, stun_init_channel_message_str n buf len0 size (is_stream_socket (client_socket_type ss)) = Some (true, frame, len) /\
       read_client_connection server ss frame len = Some (ChannelMessage n (4 + size), enforce_fingerprints ss)) /\
  (forall buf len c m tid l, is_msg buf len (make_class c m) STUN_MAGIC_COOKIE tid l -> 0 <= m < 4096 -> no_fingerprint l ->
     read_client_connection server ss buf len = Some (CommandMessage, 0)).
Proof.
  split.
  - intros n buf len0 size Hv Hsize Hbuf.
    destruct (channel_frame n buf len0 size (is_stream_socket (client_socket_type ss)) (is_stream_socket (client_socket_type ss)) Hv Hsize Hbuf)
      as (frame & len & Hinit & _ & _ & _ & _ & Hread & _). exists frame, len. split; [done|].
    unfold read_client_connection. rewrite Hread. done.
  - intros buf len c m tid l Hmsg Hm Hl. destruct (is_msg_is_command c m _ _ _ _ Hmsg Hm) as [Hc Hmeth].
    unfold read_client_connection. assert (stun_is_channel_message_str buf len (is_stream_socket (client_socket_type ss)) = Some (false, len, None)) as ->.
    { destruct Hmsg as (_ & _ & _ & _ & rest & ->). unfold msg. rewrite <- (assoc_L (++)). by apply not_channel_message. }
    mred. unfold stun_is_command_message_full_check_str. rewrite Hc. mred. cbn [negb].
    rewrite (is_msg_lookup _ _ _ _ _ _ _ Hmsg), find_type_none by done. mred. rewrite Hmeth. mred.
    case_decide; [done|]. by rewrite Z.eqb_refl.
Qed.

(** Requests in the old format are served exactly when the option that enables them is
    off: a Binding request whose cookie is not the magic one is taken as an old request if
    [--stun-backward-compatibility] is not given, and ignored if it is. *)
Theorem old_requests_served_when_disabled server ss cookie tid :
  0 <= cookie < 2 ^ 32 -> cookie <> STUN_MAGIC_COOKIE -> length tid = 12%nat -> no_stun server = false ->
  let request := hdr (stun_make_request STUN_METHOD_BINDING) 0 cookie tid in
  read_client_connection server ss request 20
    = Some (if stun_backward_compatibility server then OtherMessage else OldCommandMessage cookie, enforce_fingerprints ss).
Proof.
  intros Hck Hne Ht Hno request. unfold request. change (stun_make_request STUN_METHOD_BINDING) with (make_class Request STUN_METHOD_BINDING).
  set (ty := make_class Request STUN_METHOD_BINDING). rewrite <- (app_nil_r (hdr ty 0 cookie tid)).
  unfold read_client_connection.
  pose proof (not_channel_message Request STUN_METHOD_BINDING 0 cookie tid [] 20 (is_stream_socket (client_socket_type ss))) as Hch.
  fold ty in Hch. rewrite Hch by done. mred.
  destruct (make_class_spec Request STUN_METHOD_BINDING) as (_ & _ & _ & Hr); [done|]. fold ty in Hr.
  assert (forall ok, command_message_cookie (hdr ty 0 cookie tid ++ []) 20 ok = Some (if ok cookie then Some cookie else None)) as E.
  { intros ok. unfold command_message_cookie. rewrite decide_True by (unfold STUN_HEADER_LENGTH; lia).
    destruct (hdr_type ty 0 cookie tid []) as [-> E1]; [lia|]. mred. rewrite E1, valid_channel_false by lia.
    destruct (hdr_byte0 ty 0 cookie tid []) as [-> E2]; [lia|]. mred. rewrite decide_True by done.
    destruct (hdr_cookie ty 0 cookie tid [] Hck) as [-> E3]. mred. rewrite E3. destruct (ok cookie); [|done].
    destruct (hdr_len ty 0 cookie tid []) as [-> E4]; [lia|]. mred. by rewrite E4. }
  unfold stun_is_command_message_full_check_str, stun_is_command_message_str, old_stun_is_command_message_str.
  rewrite !E. rewrite bool_decide_false by done. mred. cbn [is_Some negb]. rewrite ?E, ?(bool_decide_false (cookie = STUN_MAGIC_COOKIE)) by done. cbn [negb mbind option_bind].
  unfold old_command_served. rewrite Hno. cbn [negb andb]. by destruct (stun_backward_compatibility server).
Qed.

(** A server with the option of the old format. *)
Definition no_old_server : turn_turnserver :=
  mk_server 1000 300 600 false false false false [] [] [] [] [] false true false None
    TURN_CREDENTIALS_LONG_TERM 600 false false false 3600 false false false [] None false ALLOCATION_DEFAULT_ADDRESS_FAMILY_IPV4 false None false.

Lemma old_requests_served_when_disabled_witness :
  read_client_connection no_old_server
    (mk_session false [] true 7 0 false UDP_SOCKET UDP_SOCKET 0 0 false true)
    (hdr (stun_make_request STUN_METHOD_BINDING) 0 77 (replicate 12 5)) 20 = Some (OtherMessage, 0).
Proof. apply (old_requests_served_when_disabled no_old_server); done. Defined.
