(* ===== verification/RelayGaps.v ===== *)
(** * Where the relay differs from what it is meant to do

    A CreatePermission request ends channels early, and peer addresses that do not decode
    are given permissions. *)

From S2P Require Import Prelude IoAddr MsgAddr StunHeader StunAttr StunFields Buckets LmMap IoTimer Permission PermMem PermLink PermFacts Session SessionFacts RelayFacts RelayBind RelaySystem AttrWalk Handlers HandlerFacts.

(** A CreatePermission request for the host of a channel does not refresh the channel,
    but gives the permission under it the shorter lifetime of permissions; when the timer
    of that permission fires, the channel goes with it, whatever its own expiration. *)
Theorem create_permission_cuts_channel tr s server peer n c x :
  run init_tables tr s -> pending s (CreatePermission server peer) ->
  allocation_get_ch_info s n = Some (Some c) -> get_ch (tb_chns s) c = Some x -> addr_eqv_no_port (ch_peer x) peer ->
  exists s' p t s'', serve (CreatePermission server peer) s = Some (0, s') /\
    get_ch (tb_chns s') c = Some x /\ ch_owner x = Some p /\ get_perm (tb_perms s') p = Some t /\
    pm_expiration t = expires server (permission_lifetime server) /\ timers (tb_engine s') !! pm_ev t = Some (PermTimer p) /\
    serve (Timeout (pm_ev t)) s' = Some (0, s'') /\ allocation_get_ch_info s'' n = Some None.
Proof.
  intros Hrun Hpend Hget Hx He. destruct (run_shows tr s Hrun) as (R & _ & Hs). pose proof (sh_ok _ _ Hs) as Hok.
  destruct (find_channel s Hok n) as [(c' & x' & Hget' & Hc & Hn)|[Hget' _]]; rewrite Hget in Hget'; [injection Hget' as <-|done].
  assert (x' = x) as -> by (destruct Hc; congruence). inversion Hpend as [? ? Hserver Hi Hport| | |]; subst.
  destruct (permit_ok server s R peer Hs Hserver Hi Hport) as (s' & Hserve & Hchns & Hs').
  assert (is_chn s' c x) as Hc' by (unfold is_chn in *; by rewrite Hchns).
  destruct (owner_perm s' _ Hs' c x Hc') as (p & t & Ho & Hp & Eh & _).
  pose proof (co_inet _ _ _ _ (lk_chn _ _ _ (ts_linked _ Hok) c x (proj1 Hc) (proj2 Hc))) as Hxi.
  apply host_eqv in He; [|apply Hxi|done].
  pose proof (shown_perm s' _ Hs' p t Hp) as Hexp. rewrite Eh, He in Hexp. unfold rl_permit in Hexp. cbn [rl_perms] in Hexp. rewrite lookup_insert_eq in Hexp. injection Hexp as Hexp.
  destruct (sh_armed _ _ Hs') as [Harm _].
  assert (timers (tb_engine s') !! pm_ev t = Some (PermTimer p)) as Hth.
  { apply (po_timer _ _ _ _ (lk_perm _ _ _ (ts_linked _ (sh_ok _ _ Hs')) p t (proj1 Hp) (proj2 Hp))). by apply (Harm p t). }
  destruct (expire_perm s' _ Hs' p t Hp) as (s'' & Hclean & Hs'').
  exists s', p, t, s''. split_and!; [done|apply Hc'|done|apply Hp|done|done| |].
  - cbn [serve]. unfold timer_event_handler. rewrite Hth. mred. unfold client_ss_perm_timeout_handler. rewrite (proj1 Hp). mred.
    rewrite (proj2 Hp). cbn [negb]. by rewrite Hclean.
  - destruct (find_channel s'' (sh_ok _ _ Hs'') (ch_chnum x)) as [(d & y & _ & Hd & Hdn)|[-> _]]; [|done]. exfalso.
    pose proof (shown_chan s'' _ Hs'' d y Hd) as Hin. unfold rl_drop_perm in Hin. cbn [rl_chans] in Hin. apply map_lookup_filter_Some in Hin as [Hin Hne].
    cbn [snd] in Hne. rewrite Hdn, (shown_chan s' _ Hs' c x Hc') in Hin. injection Hin as Hv _ _. apply Hne.
    unfold chan_view. cbn [fst]. congruence.
Qed.

Lemma create_permission_cuts_channel_witness :
  ch_expiration example_chan = 1600 /\
  exists s' s'' th, serve (CreatePermission plain_server (example_peer 0)) example_tables = Some (0, s') /\
    serve (Timeout th) s' = Some (0, s'') /\ allocation_get_ch_info s'' 0x4001 = Some None.
Proof.
  split; [vm_compute; reflexivity|].
  destruct (create_permission_cuts_channel example_trace example_tables plain_server (example_peer 0) 0x4001 2 example_chan example_run)
    as (s' & p & t & s'' & H1 & _ & _ & _ & _ & _ & H2 & H3); [|vm_compute; reflexivity..|exact (ex_intro _ s' (ex_intro _ s'' (ex_intro _ (pm_ev t) (conj H1 (conj H2 H3)))))].
  apply pending_permission; [apply plain_server_ok|by left|done].
Defined.

(** A CreatePermission request with two empty XOR-PEER-ADDRESS attributes. *)
Definition empty_peers_request : list Z :=
  hdr (stun_make_request STUN_METHOD_CREATE_PERMISSION) 8 STUN_MAGIC_COOKIE (replicate 12 5) ++ [0; 0x12; 0; 0; 0; 0x12; 0; 0].

(** The slots in use. *)
Definition used_slots (s : tables) : list perm_ptr :=
  '(i, a) ← imap pair (tb_perms s); '(j, t) ← imap pair (slot_list a);
  (match t with Some t => if pm_allocated t then [(i, j)] else [] | None => [] end).

Lemma no_family_never_equal a b : ~ inet_addr b -> addr_eq_no_port (Some a) (Some b) = false.
Proof.
  intros Hb. apply not_true_is_false. rewrite addr_eq_no_port_spec. intros (E & H). apply Hb. unfold inet_addr. rewrite <- E. destruct H as [[H _]|[H _]]; auto.
Qed.

Lemma no_family_not_found slots j b r : ~ inet_addr b -> find_slot slots j (Some b) = Some r -> r = None.
Proof.
  intros Hb. revert j; induction slots as [|[t|] slots IH]; intros j; cbn [find_slot]; [by intros [= <-]| |done].
  rewrite no_family_never_equal by done. rewrite andb_false_r. apply IH.
Qed.

(** An XOR-PEER-ADDRESS attribute that does not decode is accepted: the address it
    leaves, of no family, passes the filter; no search ever finds its permission, so
    every such attribute of a request takes a slot of its own.  Here two empty attributes
    take two slots, with a success response. *)
Theorem undecodable_peers_take_slots :
  (forall s r, allocation_get_permission s (Some addr_set_any) = Some r -> r = None) /\
  good_peer_addr plain_server [] addr_set_any = true /\
  exists r, handle_turn_create_permission all_memory plain_server plain_session init_tables empty_peers_request 28
      (replicate 12 5) (replicate 20 0) (replicate 12 9) = Some r /\
    rp_err_code r = 0 /\ is_Some (rp_response r) /\ used_slots (rp_tables r) = [(0, 0)%nat; (0, 1)%nat].
Proof.
  split; [|split].
  - intros s r. unfold allocation_get_permission, get_from_turn_permission_hashtable. destruct (tb_perms s !! _) as [a|]; [|done]. cbn [mbind option_bind].
    destruct (find_slot _ _ _) as [j|] eqn:E; [|done]. cbn [mbind option_bind]. intros [= <-].
    apply no_family_not_found in E as ->; [done|]. by intros [|].
  - vm_compute. done.
  - eexists. split; [vm_compute; reflexivity|]. split; [done|]. split; [done|]. vm_compute. done.
Qed.

(** When there is no memory for a further slot, the bucket has grown already, and its new
    element was never written: the next search for a peer of this bucket reads it. *)
Definition no_slot_memory : alloc_memory := mk_alloc_memory true false true true true true.
Example example_slot_without_memory :
  match a ← allocation_add_permission all_memory init_turn_permission_hashtable (Some addr_set_any);
        b ← allocation_add_permission all_memory a.2 (Some addr_set_any);
        c ← allocation_add_permission all_memory b.2 (Some addr_set_any);
        allocation_add_permission no_slot_memory c.2 (Some addr_set_any) with
  | Some (p, perms) => p = None /\ get_from_turn_permission_hashtable perms (Some addr_set_any) = None
  | None => False
  end.
Proof. vm_compute. by split. Qed.
