(* ===== verification/Auth.v ===== *)
(** * The credential check [server/ns_turn_server.c]

    Nonces, challenges and the check of long-term credentials, with [is_secure_string] of
    [apps/common/ns_turn_utils.c].  The user database is asked through a callback that posts
    a question and postpones the request; its answer is an event of its own. *)

From S2P Require Import Prelude CString StunHeader StunAttr StunFields Integrity Session.

Definition STUN_MAX_USERNAME_SIZE : Z := 512.
Definition NONCE_LENGTH_32BITS : Z := 4.
Definition NONCE_MAX_SIZE : Z := NONCE_LENGTH_32BITS * 4 + 1.
Definition SHATYPE_DEFAULT : SHATYPE := SHATYPE_SHA1.

(** [sizeof(long)] *)
Definition TURN_RANDOM_SIZE : Z := 8.

(** ** The session's credentials

    [nonce] and [hmackey] are arrays, the other strings are kept without their terminator. *)
Record auth_state := mk_auth {
  nonce : list Z;
  nonce_expiration_time : Z;
  username : list Z;
  hmackey : list Z;
  hmackey_set : bool;
  pwd : list Z;
  ss_oauth : bool;
  max_session_time_auth : Z;
  auth_realm : list Z
}.

Definition set_nonce (au : auth_state) (n : list Z) (t : Z) : auth_state :=
  mk_auth n t (username au) (hmackey au) (hmackey_set au) (pwd au) (ss_oauth au) (max_session_time_auth au) (auth_realm au).
Definition set_username (au : auth_state) (u : list Z) (key_set : bool) : auth_state :=
  mk_auth (nonce au) (nonce_expiration_time au) u (hmackey au) key_set (pwd au) (ss_oauth au) (max_session_time_auth au)
    (auth_realm au).
Definition set_realm (au : auth_state) (r : list Z) : auth_state :=
  mk_auth (nonce au) (nonce_expiration_time au) (username au) (hmackey au) (hmackey_set au) (pwd au) (ss_oauth au)
    (max_session_time_auth au) r.

Definition need_stun_authentication (server : turn_turnserver) : bool := bool_decide (ct server = TURN_CREDENTIALS_LONG_TERM).

(** ** Strings of a request *)

(** [strstr(s, needle)] is not null. *)
Fixpoint strstr_in (needle s : list Z) : bool :=
  bool_decide (take (length needle) s = needle) || match s with [] => false | _ :: s => strstr_in needle s end.

(** White space and characters that end a string in SQL, or SQL keywords. *)
Definition is_secure_string (string : list Z) (sanitizesql : bool) : bool :=
  let s := tolower <$> string in
  if existsb (fun c => strstr_in [c] s) [32; 9; 39; 34; 10; 13; 92] then false
  else negb (sanitizesql && strstr_in (str_bytes "union") s && strstr_in (str_bytes "select") s).

(** The content of an array that holds the bytes [v] and a terminator. *)
Fixpoint until_nul (v : list Z) : list Z :=
  match v with [] => [] | c :: v => if decide (c = 0) then [] else c :: until_nul v end.

(** A value copied to an array of [max + 1] bytes. *)
Definition attr_string (buf : list Z) (sar : option Z) (max : Z) : option (list Z) :=
  v ← attr_value_cut buf sar max; Some (until_nul (default [] v)).

(** ** Nonces *)

Definition hex_digit (d : Z) : Z := if d <? 10 then 48 + d else 87 + d.

(** The [n] lowest hexadecimal digits, and all digits padded to a width. *)
Fixpoint hex_digits (n : nat) (v : Z) : list Z :=
  match n with O => [] | S n => hex_digits n (v / 16) ++ [hex_digit (v mod 16)] end.
Definition hex_padded (width : Z) (v : Z) : list Z := hex_digits (Z.to_nat (Z.max width (Z.log2 v / 4 + 1))) v.

Definition snprintf (buf : list Z) (off size : Z) (text : list Z) : option (list Z) :=
  splice buf off (take (Z.to_nat (size - 1)) text ++ [0]).

(** The loop over 8 or 4 bytes; [draws] are the random numbers. *)
Fixpoint fill_nonce (n : list Z) (step i : Z) (draws : list Z) : option (list Z) :=
  match draws with
  | [] => Some n
  | r :: draws =>
    let rand := if decide (step = 8) then u64 r else u32 r in
    n ← snprintf n (step * i) (NONCE_MAX_SIZE - step * i) (hex_padded step rand);
    fill_nonce n step (i + 1) draws
  end.

Definition nonce_draws : Z :=
  if decide (TURN_RANDOM_SIZE = 8) then Z.shiftr NONCE_LENGTH_32BITS 1 else NONCE_LENGTH_32BITS.

Definition turn_time_before (t1 t2 : Z) : option bool :=
  d ← int_chk (int_of_time t1 - int_of_time t2); Some (d <? 0).

(** A nonce is made when there is none or it is stale; the first flag says there was none. *)
Definition renew_nonce (server : turn_turnserver) (au : auth_state) (draws : list Z) : option (bool * auth_state) :=
  c0 ← ld8 (nonce au) 0;
  let new_nonce := bool_decide (c0 = 0) in
  stale ← (if stale_nonce server =? 0 then Some false else turn_time_before (nonce_expiration_time au) (ctime server));
  if new_nonce || stale then
    n ← fill_nonce (nonce au) (if decide (TURN_RANDOM_SIZE = 8) then 8 else 4) 0 (take (Z.to_nat nonce_draws) draws);
    Some (new_nonce, set_nonce au n (u32 (ctime server + stale_nonce server)))
  else Some (new_nonce, au).

(** ** Challenges *)

Definition create_challenge_response (server : turn_turnserver) (au : auth_state) (tid : list Z) (err_code : Z)
    (reason : option (list Z)) (nbh : list Z) (method : Z) (rnd : list Z) : option (list Z * Z) :=
  '(buf, len) ← stun_init_error_response_str method nbh err_code reason (Some tid) rnd;
  '(_, buf, len) ← stun_attr_add_str buf len STUN_ATTRIBUTE_NONCE (Some (nonce au)) (NONCE_MAX_SIZE - 1);
  '(_, buf, len) ← stun_attr_add_str buf len STUN_ATTRIBUTE_REALM (Some (auth_realm au)) (zlen (auth_realm au));
  if oauth server then
    let server_name := if decide (oauth_server_name server = []) then auth_realm au else oauth_server_name server in
    '(_, buf, len) ← stun_attr_add_str buf len STUN_ATTRIBUTE_THIRD_PARTY_AUTHORIZATION (Some server_name) (zlen server_name);
    Some (buf, len)
  else Some (buf, len).

(** ** The check *)

(** How a stage ends: with a value, with [return -1], with a challenge, or with a question
    to the user database, which postpones the request. *)
Inductive stage (A : Type) :=
  | Go (a : A)
  | Refuse (err_code : Z) (reason : option (list Z))
  | Challenge (err_code : Z) (reason : option (list Z))
  | Postpone (usname realm : list Z).
#[global] Arguments Go {A} a.
#[global] Arguments Refuse {A} err_code reason.
#[global] Arguments Challenge {A} err_code reason.
#[global] Arguments Postpone {A} usname realm.

(** The attribute is there and has the length of a SHA-1 digest. *)
Definition integrity_stage (buf : list Z) (len : Z) : option (stage ()) :=
  sar ← stun_attr_get_first_by_type_str buf len STUN_ATTRIBUTE_MESSAGE_INTEGRITY;
  match sar with
  | None => Some (Challenge 401 None)
  | Some _ =>
    sarlen ← stun_attr_get_len buf sar;
    Some (if decide (sarlen = SHA1SIZEBYTES) then Go () else Challenge 401 None)
  end.

(** [options]: [get_realm_options_by_name]. *)
Definition realm_stage (options : list Z -> list Z) (au : auth_state) (buf : list Z) (len method : Z)
  : option (stage (list Z) * auth_state) :=
  sar ← stun_attr_get_first_by_type_str buf len STUN_ATTRIBUTE_REALM;
  match sar with
  | None => Some (Refuse 400 None, au)
  | Some _ =>
    realm ← attr_string buf sar STUN_MAX_REALM_SIZE;
    Some (if negb (is_secure_string realm false) then (Refuse 400 None, au)
          else if decide (method = STUN_METHOD_CONNECTION_BIND) then (Go realm, set_realm au (options realm))
          else if decide (realm <> auth_realm au) then
            (if negb (ss_oauth au) then
               if decide (method = STUN_METHOD_ALLOCATE) then
                 Refuse 437 (Some (cstr "Allocation mismatch: wrong credentials: the realm value is incorrect"))
               else Refuse 441 (Some (cstr "Wrong credentials: the realm value is incorrect"))
             else Go (auth_realm au), au)
          else (Go realm, au))
  end.

Definition username_stage (au : auth_state) (buf : list Z) (len method : Z) : option (stage (list Z) * auth_state) :=
  sar ← stun_attr_get_first_by_type_str buf len STUN_ATTRIBUTE_USERNAME;
  match sar with
  | None => Some (Refuse 400 None, au)
  | Some _ =>
    usname ← attr_string buf sar STUN_MAX_USERNAME_SIZE;
    Some (if negb (is_secure_string usname true) then (Refuse 400 None, au)
          else if decide (username au <> []) then
            if decide (username au <> usname) then
              if ss_oauth au then (Go usname, set_username au usname false)
              else (if decide (method = STUN_METHOD_ALLOCATE) then
                      Refuse 437 (Some (cstr "Allocation mismatch: wrong credentials"))
                    else Refuse 441 None, au)
            else (Go usname, au)
          else (Go usname, set_username au usname (hmackey_set au)))
  end.

Definition nonce_stage (au : auth_state) (new_nonce : bool) (buf : list Z) (len : Z) : option (stage ()) :=
  sar ← stun_attr_get_first_by_type_str buf len STUN_ATTRIBUTE_NONCE;
  match sar with
  | None => Some (Refuse 400 None)
  | Some _ =>
    n ← attr_string buf sar STUN_MAX_NONCE_SIZE;
    if new_nonce then Some (Challenge 438 (Some (cstr "Wrong nonce"))) else
    same ← strcmp_eq (nonce au) (n ++ [0]);
    Some (if same : bool then Go () else Challenge 438 (Some (cstr "Stale nonce")))
  end.

Section check.
Context `{CryptoOps}.

(** The user is known, and the digest is right; the buffer. *)
Definition password_stage (server : turn_turnserver) (au : auth_state) (buf : list Z) (len : Z) (can_resume : bool)
    (usname realm : list Z) : option (stage () * list Z) :=
  let unknown := if can_resume then Postpone usname realm else Challenge 401 None in
  if negb (hmackey_set au) && bool_decide (pwd au = []) then Some (unknown, buf) else
  '(r, buf) ← stun_check_message_integrity_by_key_str (ct server) buf len (hmackey au) (pwd au ++ [0]) SHATYPE_DEFAULT;
  Some (if decide (r < 1) then unknown else Go (), buf).

(** All stages; the credentials and the buffer. *)
Definition auth_stages (server : turn_turnserver) (options : list Z -> list Z) (au : auth_state) (new_nonce : bool)
    (buf : list Z) (len method : Z) (can_resume : bool) : option (stage () * auth_state * list Z) :=
  s ← integrity_stage buf len;
  match s with
  | Go _ =>
    '(s, au) ← realm_stage options au buf len method;
    match s with
    | Go realm =>
      '(s, au) ← username_stage au buf len method;
      match s with
      | Go usname =>
        s ← nonce_stage au new_nonce buf len;
        match s with
        | Go _ => '(s, buf) ← password_stage server au buf len can_resume usname realm; Some (s, au, buf)
        | _ => Some (s, au, buf)
        end
      | Refuse e r => Some (Refuse e r, au, buf)
      | Challenge e r => Some (Challenge e r, au, buf)
      | Postpone u r => Some (Postpone u r, au, buf)
      end
    | Refuse e r => Some (Refuse e r, au, buf)
    | Challenge e r => Some (Challenge e r, au, buf)
    | Postpone u r => Some (Postpone u r, au, buf)
    end
  | _ => Some (s, au, buf)
  end.

(** What the caller's variables hold afterwards; [ar_question] is what was asked when the
    reply is postponed. *)
Record auth_result := mk_auth_result {
  ar_ret : Z;
  ar_auth : auth_state;
  ar_buf : list Z;
  ar_err_code : Z;
  ar_reason : option (list Z);
  ar_response : option (list Z * Z);
  ar_message_integrity : bool;
  ar_question : option (list Z * list Z)
}.

Definition check_stun_auth (server : turn_turnserver) (options : list Z -> list Z) (au : auth_state) (tid buf : list Z)
    (len : Z) (nbh : list Z) (method : Z) (can_resume : bool) (draws rnd : list Z) : option auth_result :=
  if negb (need_stun_authentication server) then Some (mk_auth_result 0 au buf 0 None None false None) else
  '(new_nonce, au) ← renew_nonce server au draws;
  '(s, au, buf) ← auth_stages server options au new_nonce buf len method can_resume;
  match s with
  | Go _ => Some (mk_auth_result 0 au buf 0 None None true None)
  | Refuse err reason => Some (mk_auth_result (-1) au buf err reason None false None)
  | Challenge err reason =>
    response ← create_challenge_response server au tid err reason nbh method rnd;
    Some (mk_auth_result 0 au buf err reason (Some response) false None)
  | Postpone usname realm => Some (mk_auth_result 0 au buf 0 None None false (Some (usname, realm)))
  end.

End check.

(** The answer of the user database [resume_processing_after_username_check], as far as the
    credentials go; [options] gives the realm of that name. *)
Definition user_answer (options : list Z -> list Z) (au : auth_state) (success : bool) (key password : list Z)
    (is_oauth : bool) (max_session_time : Z) (realm : list Z) : auth_state :=
  if success then
    mk_auth (nonce au) (nonce_expiration_time au) (username au) key true password is_oauth (u32 max_session_time)
      (if decide (realm <> [] /\ realm <> auth_realm au) then options realm else auth_realm au)
  else au.
