(* ===== verification/AuthFacts.v ===== *)
(** * What the credential check accepts

    The nonce is always sixteen hexadecimal digits; a challenge is a well-formed message;
    what passes carries the session's nonce and user name and a digest under its key. *)

From S2P Require Import Prelude CString StunHeader StunAttr StunFields StunFieldsFacts Integrity IntegrityFacts Session HandlerFacts Auth.

(** ** Nonces *)

Definition is_hex (c : Z) : Prop := 48 <= c <= 57 \/ 97 <= c <= 102.
Definition made_nonce (n : list Z) : Prop := exists t, n = t ++ [0] /\ length t = 16%nat /\ Forall is_hex t.

Lemma length_hex_digits n v : length (hex_digits n v) = n.
Proof. revert v; induction n as [|n IH]; intros v; cbn; [done|]. rewrite length_app, IH. cbn. lia. Qed.

Lemma hex_digits_hex n v : Forall is_hex (hex_digits n v).
Proof.
  revert v; induction n as [|n IH]; intros v; cbn; [constructor|]. apply Forall_app_2; [apply IH|]. apply Forall_singleton.
  unfold is_hex, hex_digit. pose proof (Z.mod_pos_bound v 16). case_match; lia.
Qed.

Lemma hex_nonzero t : Forall is_hex t -> nonzero t.
Proof. apply Forall_impl. unfold is_hex. lia. Qed.

Lemma hex_bytes t : Forall is_hex t -> is_bytes t.
Proof. apply Forall_impl. unfold is_hex, is_byte. lia. Qed.

(** Each draw writes at least eight digits, and the end of the array cuts the last. *)
Lemma fill_nonce_ok n r0 r1 : length n = 17%nat -> exists n', fill_nonce n 8 0 [r0; r1] = Some n' /\ made_nonce n'.
Proof.
  intros Hn. cbn [fill_nonce]. rewrite !(decide_True (P := 8 = 8)) by done. set (h0 := hex_padded 8 (u64 r0)). set (h1 := hex_padded 8 (u64 r1)).
  assert (forall r, (8 <= length (hex_padded 8 r))%nat) as Hlen by (intros r; unfold hex_padded; rewrite length_hex_digits; lia).
  assert (forall r, Forall is_hex (hex_padded 8 r)) as Hhex by (intros r; apply hex_digits_hex).
  pose proof (Hlen (u64 r0)) as H0. pose proof (Hlen (u64 r1)) as H1. fold h0 in H0. fold h1 in H1.
  unfold snprintf, NONCE_MAX_SIZE, NONCE_LENGTH_32BITS.
  change (8 * 0) with 0. change (8 * (0 + 1)) with 8. change (4 * 4 + 1 - 0 - 1) with 16. change (4 * 4 + 1 - 8 - 1) with 8.
  change (Z.to_nat 16) with 16%nat. change (Z.to_nat 8) with 8%nat.
  rewrite (splice_val n) by (autorewrite with lens; lia). mred.
  set (n1 := take _ n ++ _). assert (length n1 = 17%nat) as Hn1.
  { unfold n1. autorewrite with lens. lia. }
  rewrite splice_val by (autorewrite with lens; lia). mred. eexists. split; [done|].
  exists (take 8 h0 ++ take 8 h1).
  assert (take (Z.to_nat 8) n1 = take 8 h0) as ->.
  { unfold n1. change (Z.to_nat 0) with 0%nat. rewrite take_0. cbn [app]. rewrite <- (assoc_L (++)), take_app_le by (autorewrite with lens; lia).
    by rewrite take_take. }
  rewrite (drop_ge n1) by (rewrite Hn1; autorewrite with lens; lia). rewrite app_nil_r. split_and!.
  - by rewrite (assoc_L (++)).
  - autorewrite with lens. lia.
  - apply Forall_app_2; apply Forall_take, Hhex.
Qed.

(** ** The credentials of a session *)

Definition name_ok (max : Z) (s : list Z) : Prop := is_bytes s /\ nonzero s /\ zlen s <= max.

Record auth_ok (au : auth_state) : Prop := {
  ao_nonce : nonce au = replicate 17 0 \/ made_nonce (nonce au);
  ao_time : 0 <= nonce_expiration_time au < 2 ^ 31;
  ao_username : name_ok STUN_MAX_USERNAME_SIZE (username au);
  ao_key : zlen (hmackey au) = HMACKEY_SIZE;
  ao_pwd : nonzero (pwd au);
  ao_realm : name_ok STUN_MAX_REALM_SIZE (auth_realm au)
}.

(** The clock is a signed number, and realms have proper names. *)
Record auth_server (server : turn_turnserver) (options : list Z -> list Z) : Prop := {
  as_time : 0 <= ctime server;
  as_stale : 0 <= stale_nonce server;
  as_clock : ctime server + stale_nonce server < 2 ^ 31;
  as_name : name_ok STUN_MAX_SERVER_NAME_SIZE (oauth_server_name server);
  as_realm : forall r, name_ok STUN_MAX_REALM_SIZE (options r)
}.

Lemma made_nonce_length n : made_nonce n -> length n = 17%nat.
Proof. intros (t & -> & Ht & _). rewrite length_app, Ht. done. Qed.

Lemma auth_nonce_length au : auth_ok au -> length (nonce au) = 17%nat.
Proof. intros H. destruct (ao_nonce au H) as [->|Hn]; [done|by apply made_nonce_length]. Qed.

Lemma turn_time_before_ok t1 t2 : 0 <= t1 < 2 ^ 31 -> 0 <= t2 < 2 ^ 31 -> turn_time_before t1 t2 = Some (bool_decide (t1 < t2)).
Proof.
  intros H1 H2. unfold turn_time_before, int_of_time. rewrite !(proj2 (Z.ltb_lt _ _)) by lia.
  rewrite int_chk_ok by lia. mred. f_equal. case_bool_decide; lia.
Qed.

Lemma nonce_first_byte n : n = replicate 17 0 \/ made_nonce n -> exists c, ld8 n 0 = Some c /\ (c <> 0 -> made_nonce n).
Proof.
  intros [->|Hm]; [by exists 0|]. pose proof Hm as (t & -> & Ht & _). destruct t as [|c t]; [done|]. exists c. split; [|done].
  pose proof (ld_app 1 [] [c] (t ++ [0]) 0 eq_refl eq_refl) as H. cbn [le_val] in H. by rewrite Z.mul_0_r, Z.add_0_r in H.
Qed.

(** Afterwards there is a nonce; without the flag it was there before. *)
Lemma renew_nonce_ok server options au draws :
  auth_server server options -> auth_ok au -> (2 <= length draws)%nat ->
  exists fresh au', renew_nonce server au draws = Some (fresh, au') /\ auth_ok au' /\ made_nonce (nonce au') /\
    au' = set_nonce au (nonce au') (nonce_expiration_time au') /\ (fresh = false -> made_nonce (nonce au)).
Proof.
  intros Hs Ha Hd. unfold renew_nonce. destruct (nonce_first_byte _ (ao_nonce au Ha)) as (c & -> & Hc). mred.
  assert (exists stale, (if stale_nonce server =? 0 then Some false else turn_time_before (nonce_expiration_time au) (ctime server)) = Some stale)
    as (stale & ->).
  { destruct (stale_nonce server =? 0); [by exists false|]. eexists. apply turn_time_before_ok; [apply Ha|].
    pose proof (as_time _ _ Hs). pose proof (as_stale _ _ Hs). pose proof (as_clock _ _ Hs). lia. }
  mred. destruct (bool_decide (c = 0) || stale) eqn:E.
  - destruct draws as [|r0 [|r1 draws]]; [cbn in Hd; lia..|]. cbn [nonce_draws]. rewrite (decide_True (P := TURN_RANDOM_SIZE = 8)) by done.
    change (Z.to_nat nonce_draws) with 2%nat. rewrite firstn_cons, firstn_cons, firstn_O.
    destruct (fill_nonce_ok (nonce au) r0 r1) as (n & -> & Hn); [by apply auth_nonce_length|]. mred.
    eexists _, _. split; [done|]. unfold set_nonce. cbn. split_and!; [|done|done|].
    + destruct Ha. split; cbn; try done; [by right|]. pose proof (as_time _ _ Hs). pose proof (as_stale _ _ Hs). pose proof (as_clock _ _ Hs).
      rewrite wrap_small by lia. lia.
    + intros E0%bool_decide_eq_false. by apply Hc.
  - apply orb_false_iff in E as [E ->]. apply bool_decide_eq_false in E. eexists _, _. split; [done|]. split; [done|].
    split; [by apply Hc|]. split; [by destruct au|]. intros _. by apply Hc.
Qed.

(** ** What a request says *)

(** The string in the first attribute of a type. *)
Definition attr_claim (buf : list Z) (len t max : Z) : option (list Z) :=
  sar ← stun_attr_get_first_by_type_str buf len t; o ← sar; attr_string buf (Some o) max.

Lemma until_nul_ok max v : is_bytes v -> zlen v <= max -> name_ok max (until_nul v).
Proof.
  assert (0 <= max -> name_ok max []) as H0 by (intros; split; [constructor|]; split; [constructor|]; done).
  intros Hv; revert max H0; induction Hv as [|c v Hc _ IH]; intros max H0 Hl; cbn [until_nul]; rewrite ?length_cons in Hl; [apply H0; lia|].
  case_decide as E; [apply H0; lia|]. destruct (IH (max - 1)) as (H1 & H2 & H3); [intros; split; [constructor|]; split; [constructor|]; done|lia|].
  split; [by constructor|]. split; [by constructor|]. rewrite length_cons. lia.
Qed.

Lemma until_nul_id v : nonzero v -> until_nul v = v.
Proof. induction 1 as [|c v Hc _ IH]; cbn; [done|]. by rewrite decide_False, IH. Qed.

(** The string of an attribute of a framed buffer. *)
Lemma attr_string_framed buf len l g o a max :
  framed buf len l g -> (o, a) ∈ attr_offs 20 l -> 0 <= max ->
  attr_string buf (Some o) max = Some (until_nul (take (Z.to_nat max) (at_val a))).
Proof.
  intros Hf Ha Hm. destruct (framed_read _ _ _ _ _ _ Hf Ha) as (_ & Rl & Rv & Rs & _). unfold attr_string, attr_value_cut. rewrite Rv. mred.
  case_decide as E; mred; cbn [default].
  - assert (at_val a = []) as -> by (apply length_zero_iff_nil; lia). by rewrite take_nil.
  - rewrite Rl. mred. pose proof (slice_sub _ _ _ _ 0 (zlen (at_val a) `min` max) Rs) as Hsub. rewrite Z.add_0_r in Hsub. rewrite Hsub by lia.
    rewrite (slice_val _ 0) by lia. mred. cbn [default]. change (Z.to_nat 0) with 0%nat. rewrite drop_0.
    do 2 f_equal. destruct (Z.min_spec (zlen (at_val a)) max) as [[? ->]|[? ->]]; [|done].
    rewrite (take_ge _ (Z.to_nat max)) by lia. apply take_ge. lia.
Qed.

Lemma claim_any buf len t max :
  received buf len -> 0 <= max ->
  stun_attr_get_first_by_type_str buf len t = Some None /\ attr_claim buf len t max = None \/
  exists o v, stun_attr_get_first_by_type_str buf len t = Some (Some o) /\ attr_string buf (Some o) max = Some v /\
    attr_claim buf len t max = Some v /\ name_ok max v.
Proof.
  intros [Hb Hlen] Hm. unfold attr_claim. destruct (framed_any buf len Hb Hlen) as [E|(l & g & Hf)].
  - left. assert (stun_attr_get_first_by_type_str buf len t = Some None) as ->; [|done].
    unfold stun_attr_get_first_by_type_str, stun_attr_get_first_str. rewrite E. mred.
    rewrite decide_False by (unfold STUN_HEADER_LENGTH; lia). by destruct (attr_fuel len).
  - rewrite (get_first_by_type_framed _ _ _ _ t Hf). destruct (find_type t _) as [[o a]|] eqn:Ef; cbn [fmap option_fmap option_map fst]; mred; [right|by left].
    apply find_type_elem in Ef as [Hin _]. destruct (framed_read _ _ _ _ _ _ Hf Hin) as (_ & _ & _ & _ & Hwf).
    rewrite (attr_string_framed _ _ _ _ _ _ max Hf Hin Hm). exists o, (until_nul (take (Z.to_nat max) (at_val a))).
    split; [done|]. split; [by apply (attr_string_framed _ _ _ _ _ _ max Hf Hin Hm)|]. split; [done|].
    destruct Hwf as (_ & _ & Hbv & _). apply until_nul_ok; [by apply Forall_take|rewrite length_take; lia].
Qed.

(** The digest of the part before the first MESSAGE-INTEGRITY attribute, under a header whose
    length ends with it, is its value. *)
Definition signed_with `{CryptoOps} (key buf : list Z) (len : Z) : Prop :=
  exists l g o a bufn d, framed buf len l g /\ find_type STUN_ATTRIBUTE_MESSAGE_INTEGRITY (attr_offs 20 l) = Some (o, a) /\
    splice buf 2 (be_bytes 2 (o + zlen (at_val a) - 16)) = Some bufn /\ slice bufn 0 o = Some d /\
    HMAC SHATYPE_DEFAULT key d = Some (at_val a).

(** The part of the session's key that is used. *)
Definition session_key (au : auth_state) : list Z := take 16 (hmackey au).

(** The credentials a request presents are those of the session. *)
Definition presents `{CryptoOps} (au : auth_state) (buf : list Z) (len : Z) : Prop :=
  signed_with (session_key au) buf len /\ attr_claim buf len STUN_ATTRIBUTE_USERNAME STUN_MAX_USERNAME_SIZE = Some (username au) /\
  (fun n => n ++ [0]) <$> attr_claim buf len STUN_ATTRIBUTE_NONCE STUN_MAX_NONCE_SIZE = Some (nonce au).

(** ** The stages *)

Definition phrase_ok (r : option (list Z)) : Prop := exists p, r = (fun s => s ++ [0]) <$> p /\ reason_ok p.

Lemma no_phrase : phrase_ok None.
Proof. by exists None. Qed.

Lemma phrase_cstr s : nonzero (str_bytes s) -> phrase_ok (Some (cstr s)).
Proof. intros H. exists (Some (str_bytes s)). split; [done|]. split; [done|apply str_bytes_bytes]. Qed.

Lemma str_nonzero s : forallb (fun c => negb (c =? 0)) (str_bytes s) = true -> nonzero (str_bytes s).
Proof. intros H. apply Forall_forall. intros c Hc. rewrite forallb_forall in H. specialize (H c Hc). lia. Qed.

(** How a stage may end. *)
Definition stage_end {A} (s : stage A) (P : A -> Prop) (can_resume : bool) : Prop :=
  match s with
  | Go a => P a
  | Refuse e r => (e = 400 \/ e = 437 \/ e = 441) /\ phrase_ok r
  | Challenge e r => (e = 401 \/ e = 438) /\ phrase_ok r
  | Postpone _ _ => can_resume = true
  end.

Ltac refused := split; [tauto|first [exact no_phrase | apply phrase_cstr, str_nonzero; reflexivity]].

Section stages.
Context `{CryptoLaws} (server : turn_turnserver) (options : list Z -> list Z) (Hserver : auth_server server options).
Context (buf : list Z) (len : Z) (Hbuf : received buf len).

Lemma integrity_stage_ok : exists s, integrity_stage buf len = Some s /\ stage_end s (fun _ => True) false.
Proof.
  unfold integrity_stage. destruct Hbuf as [Hb Hlen]. destruct (framed_any buf len Hb Hlen) as [E|(l & g & Hf)].
  - assert (stun_attr_get_first_by_type_str buf len STUN_ATTRIBUTE_MESSAGE_INTEGRITY = Some None) as ->.
    { unfold stun_attr_get_first_by_type_str, stun_attr_get_first_str. rewrite E. mred.
      rewrite decide_False by (unfold STUN_HEADER_LENGTH; lia). by destruct (attr_fuel len). }
    mred. eexists. split; [done|]. refused.
  - rewrite (get_first_by_type_framed _ _ _ _ _ Hf). destruct (find_type _ _) as [[o a]|] eqn:Ef; cbn [fmap option_fmap option_map fst]; mred;
      [|eexists; split; [done|]; refused].
    apply find_type_elem in Ef as [Hin _]. destruct (framed_read _ _ _ _ _ _ Hf Hin) as (_ & -> & _). mred. eexists. split; [done|].
    case_decide; [done|refused].
Qed.

Lemma realm_stage_ok au method :
  auth_ok au ->
  exists s au', realm_stage options au buf len method = Some (s, au') /\ auth_ok au' /\ au' = set_realm au (auth_realm au') /\
    (method <> STUN_METHOD_CONNECTION_BIND -> au' = au) /\
    stage_end s (fun _ => method <> STUN_METHOD_CONNECTION_BIND -> ss_oauth au = false ->
      attr_claim buf len STUN_ATTRIBUTE_REALM STUN_MAX_REALM_SIZE = Some (auth_realm au)) false.
Proof.
  intros Ha. assert (au = set_realm au (auth_realm au)) as Eself by (by destruct au). unfold realm_stage.
  destruct (claim_any buf len STUN_ATTRIBUTE_REALM STUN_MAX_REALM_SIZE Hbuf) as [[Eo _]|(o & v & Eo & Es & Hv & Hname)]; [done|rewrite Eo; mred|rewrite Eo; mred; rewrite Es; mred].
  - exists (Refuse 400 None), au. do 4 (split; [done|]). refused.
  - destruct (negb (is_secure_string v false)); [exists (Refuse 400 None), au; do 4 (split; [done|]); refused|].
    case_decide as Em.
    + exists (Go v), (set_realm au (options v)). split; [done|]. split; [destruct Ha; split; try done; apply (as_realm _ _ Hserver)|].
      split; [done|]. split; [by intros Hne|]. cbn. by intros Hne.
    + case_decide as Er; [|exists (Go v), au; do 4 (split; [done|]); cbn; intros _ _; rewrite Hv; by rewrite Er].
      destruct (ss_oauth au); cbn [negb]; [exists (Go (auth_realm au)), au; by do 4 (split; [done|])|].
      eexists _, au. do 4 (split; [done|]). case_decide; refused.
Qed.

Lemma username_stage_ok au method :
  auth_ok au ->
  exists s au', username_stage au buf len method = Some (s, au') /\ auth_ok au' /\
    au' = set_username au (username au') (hmackey_set au') /\
    stage_end s (fun _ => attr_claim buf len STUN_ATTRIBUTE_USERNAME STUN_MAX_USERNAME_SIZE = Some (username au')) false.
Proof.
  intros Ha. assert (au = set_username au (username au) (hmackey_set au)) as Eself by (by destruct au). unfold username_stage.
  destruct (claim_any buf len STUN_ATTRIBUTE_USERNAME STUN_MAX_USERNAME_SIZE Hbuf) as [[Eo _]|(o & v & Eo & Es & Hv & Hname)]; [done|rewrite Eo; mred|rewrite Eo; mred; rewrite Es; mred].
  - exists (Refuse 400 None), au. do 3 (split; [done|]). refused.
  - destruct (negb (is_secure_string v true)); [exists (Refuse 400 None), au; do 3 (split; [done|]); refused|].
    assert (forall b, auth_ok (set_username au v b)) as Hset by (intros b; by destruct Ha).
    case_decide as Eu; [case_decide as Ev; [destruct (ss_oauth au)|]|].
    + exists (Go v), (set_username au v false). split; [done|]. split; [apply Hset|]. done.
    + eexists _, au. do 3 (split; [done|]). case_decide; refused.
    + exists (Go v), au. do 3 (split; [done|]). cbn. rewrite Hv. by rewrite Ev.
    + exists (Go v), (set_username au v (hmackey_set au)). split; [done|]. split; [apply Hset|]. done.
Qed.

Lemma nonce_stage_ok au fresh :
  made_nonce (nonce au) ->
  exists s, nonce_stage au fresh buf len = Some s /\
    stage_end s (fun _ => fresh = false /\
      (fun n => n ++ [0]) <$> attr_claim buf len STUN_ATTRIBUTE_NONCE STUN_MAX_NONCE_SIZE = Some (nonce au)) false.
Proof.
  intros (t & Et & _ & Ht). unfold nonce_stage.
  destruct (claim_any buf len STUN_ATTRIBUTE_NONCE STUN_MAX_NONCE_SIZE Hbuf) as [[Eo _]|(o & v & Eo & Es & Hv & Hname)]; [done|rewrite Eo; mred|rewrite Eo; mred; rewrite Es; mred].
  - eexists. split; [done|]. refused.
  - destruct fresh; [eexists; split; [done|]; refused|]. rewrite Et.
    rewrite (strcmp_eq_spec (t ++ [0]) (v ++ [0]) t v); [|by apply cstring_app, hex_nonzero|by apply cstring_app, Hname]. mred. eexists. split; [done|].
    case_bool_decide as E; [|refused]. split; [done|]. rewrite Hv, E. done.
Qed.

Lemma password_stage_ok au can_resume usname realm :
  auth_ok au -> ct server = TURN_CREDENTIALS_LONG_TERM ->
  exists s, password_stage server au buf len can_resume usname realm = Some (s, buf) /\
    stage_end s (fun _ => signed_with (session_key au) buf len /\ (hmackey_set au = true \/ pwd au <> [])) can_resume.
Proof.
  intros Ha Hct. unfold password_stage. assert (stage_end (if can_resume then Postpone usname realm else @Challenge () 401 None) (fun _ => signed_with (session_key au) buf len /\
    (hmackey_set au = true \/ pwd au <> [])) can_resume) as Hunknown by (destruct can_resume; [done|refused]).
  destruct (negb (hmackey_set au) && bool_decide (pwd au = [])) eqn:Ek; [by eexists|].
  destruct Hbuf as [Hb Hlen]. assert (credentials_ok (ct server) (hmackey au) (pwd au ++ [0])) as Hc.
  { unfold credentials_ok. rewrite Hct, decide_False by done. apply Ha. }
  destruct (check_any (ct server) buf len (hmackey au) (pwd au ++ [0]) SHATYPE_DEFAULT Hb Hlen Hc)
    as [->|(l & g & o & a & bufn & d & Hf & Hfind & Hn & Hd & ->)]; mred; [by eexists|].
  eexists. split; [done|]. unfold verdict. destruct (checked_sha_size _ _); [|done].
  assert (mac_key (ct server) (hmackey au) (pwd au ++ [0]) SHATYPE_DEFAULT = session_key au) as -> by (unfold mac_key; by rewrite Hct, decide_False).
  destruct (HMAC _ _ d) as [mac|] eqn:Em; [|done]. destruct (decide (at_val a = mac)) as [Ev|]; [|done]. cbn. rewrite <- Ev in Em.
  split; [by exists l, g, o, a, bufn, d|].
  apply andb_false_iff in Ek as [Ek|Ek]; [left; by destruct (hmackey_set au)|right; by apply bool_decide_eq_false in Ek].
Qed.

(** What only the answer of the user database changes. *)
Definition same_user (au au' : auth_state) : Prop :=
  hmackey au' = hmackey au /\ pwd au' = pwd au /\ ss_oauth au' = ss_oauth au /\ max_session_time_auth au' = max_session_time_auth au.

Lemma same_user_trans a b c : same_user a b -> same_user b c -> same_user a c.
Proof. unfold same_user. naive_solver congruence. Qed.

(** All stages on a session that has a nonce. *)
Lemma auth_stages_ok au fresh method can_resume :
  auth_ok au -> made_nonce (nonce au) -> ct server = TURN_CREDENTIALS_LONG_TERM ->
  exists s au', auth_stages server options au fresh buf len method can_resume = Some (s, au', buf) /\ auth_ok au' /\
    nonce au' = nonce au /\ same_user au au' /\
    (method <> STUN_METHOD_CONNECTION_BIND -> auth_realm au' = auth_realm au) /\
    stage_end s (fun _ => fresh = false /\ presents au' buf len /\ (hmackey_set au' = true \/ pwd au' <> []) /\
      (method <> STUN_METHOD_CONNECTION_BIND -> ss_oauth au = false ->
       attr_claim buf len STUN_ATTRIBUTE_REALM STUN_MAX_REALM_SIZE = Some (auth_realm au))) can_resume.
Proof.
  intros Ha Hn Hct. unfold auth_stages. destruct integrity_stage_ok as (s1 & -> & H1). mred.
  destruct s1 as [[]|e r|e r|u r]; cbn in H1; [|eexists _, au; split; [done|]; by split_and!..].
  destruct (realm_stage_ok au method Ha) as (s2 & au2 & -> & Ha2 & E2 & Hkeep2 & H2). mred.
  assert (nonce au2 = nonce au /\ same_user au au2 /\ (method <> STUN_METHOD_CONNECTION_BIND -> auth_realm au2 = auth_realm au)) as (En & Es & Er)
    by (split_and!; [by rewrite E2|by rewrite E2|intros ?; by rewrite Hkeep2]).
  destruct s2 as [realm|e r|e r|u r]; cbn in H2; [|eexists _, au2; split; [done|]; by split_and!..].
  destruct (username_stage_ok au2 method Ha2) as (s3 & au3 & -> & Ha3 & E3 & H3). mred.
  assert (nonce au3 = nonce au2 /\ same_user au2 au3 /\ auth_realm au3 = auth_realm au2) as (En3 & Es3 & Er3) by (rewrite E3; by split_and!).
  rewrite En in En3. pose proof (same_user_trans _ _ _ Es Es3) as Es3'.
  assert (method <> STUN_METHOD_CONNECTION_BIND -> auth_realm au3 = auth_realm au) as Er3' by (intros ?; rewrite Er3; auto).
  destruct s3 as [usname|e r|e r|u r]; cbn in H3; [|eexists _, au3; split; [done|]; by split_and!..].
  destruct (nonce_stage_ok au3 fresh) as (s4 & -> & H4); [by rewrite En3|]. mred.
  destruct s4 as [[]|e r|e r|u r]; cbn in H4; [|eexists _, au3; split; [done|]; by split_and!..]. destruct H4 as [Hfresh H4].
  destruct (password_stage_ok au3 can_resume usname realm Ha3 Hct) as (s5 & -> & H5). mred.
  exists s5, au3. do 5 (split; [done|]). destruct s5; try done. destruct H5 as [Hsig Hk]. cbn. split; [done|]. split; [by split|]. split; [done|].
  intros Hm Ho. by apply H2.
Qed.

End stages.

(** ** Challenges *)

(** The attributes after the error code. *)
Definition challenge_attrs (server : turn_turnserver) (au : auth_state) : list sattr :=
  new_attr STUN_ATTRIBUTE_NONCE (take 16 (nonce au)) :: new_attr STUN_ATTRIBUTE_REALM (auth_realm au) ::
  (if oauth server then
     [new_attr STUN_ATTRIBUTE_THIRD_PARTY_AUTHORIZATION (if decide (oauth_server_name server = []) then auth_realm au else oauth_server_name server)]
   else []).

Lemma challenge_ok server options au tid code reason nbh method rnd :
  auth_server server options -> auth_ok au -> made_nonce (nonce au) -> response_room tid nbh rnd -> 0 <= method < 4096 -> reason_ok reason ->
  exists response, create_challenge_response server au tid code ((fun s => s ++ [0]) <$> reason) nbh method rnd = Some response /\
    built_le 2200 response.1 response.2 (stun_make_error_response method) STUN_MAGIC_COOKIE tid
      (new_attr STUN_ATTRIBUTE_ERROR_CODE (error_value 0 code (take 508 (effective_reason code reason))) :: challenge_attrs server au).
Proof.
  intros Hs Ha (t & Et & Htl & Hth) (Ht & Hcap & Hr) Hm Hre. unfold create_challenge_response, challenge_attrs.
  destruct (error_built method nbh code reason tid rnd Hcap Hr Ht Hm Hre) as (b1 & n1 & -> & H1). mred. set (err := new_attr STUN_ATTRIBUTE_ERROR_CODE _) in *.
  assert (take 16 (nonce au) = t) as -> by (rewrite Et; by rewrite take_app_length').
  assert (exists b2 n2, stun_attr_add_str b1 n1 STUN_ATTRIBUTE_NONCE (Some (nonce au)) (NONCE_MAX_SIZE - 1) = Some (true, b2, n2) /\
    built_le 583 b2 n2 (stun_make_error_response method) STUN_MAGIC_COOKIE tid [err; new_attr STUN_ATTRIBUTE_NONCE t]) as (b2 & n2 & -> & H2).
  { destruct H1 as [H1 Hl]. assert (zlen t = 16) as Htz by lia.
    destruct (built_add b1 n1 _ _ _ _ STUN_ATTRIBUTE_NONCE (nonce au) (NONCE_MAX_SIZE - 1) H1) as (b2 & E & H2).
    - rewrite Et. apply Forall_app_2; [by apply hex_bytes|by repeat constructor].
    - rewrite Et. unfold NONCE_MAX_SIZE, NONCE_LENGTH_32BITS. rewrite length_app. cbn [length]. lia.
    - unfold MAX_STUN_MESSAGE_SIZE, NONCE_MAX_SIZE, NONCE_LENGTH_32BITS. lia.
    - assert (take (Z.to_nat (NONCE_MAX_SIZE - 1)) (nonce au) = t) as Etk by (rewrite Et; by rewrite take_app_length').
      rewrite Etk in E, H2. eexists _, _. split; [exact E|]. split; [exact H2|].
      pose proof (msg_len_add [err] STUN_ATTRIBUTE_NONCE t) as Hadd. rewrite Htz in Hadd. cbn [app] in Hadd.
      destruct Hadd as [_ Hadd]; [by apply hex_bytes|lia|]. cbn [app]. lia. }
  mred. destruct (ao_realm au Ha) as (Hrb & Hrn & Hrl). unfold STUN_MAX_REALM_SIZE in Hrl.
  destruct (built_le_add 583 b2 n2 _ _ _ _ STUN_ATTRIBUTE_REALM (auth_realm au) (zlen (auth_realm au)) H2 Hrb eq_refl) as (b3 & n3 & -> & H3);
    [unfold MAX_STUN_MESSAGE_SIZE; lia|]. mred. cbn [app] in H3.
  destruct (oauth server); [|eexists; split; [done|]; destruct H3; split; [done|lia]].
  set (name := if decide _ then _ else _). assert (is_bytes name /\ zlen name <= 1025) as [Hnb Hnl].
  { unfold name. destruct (as_name _ _ Hs) as (? & _ & ?). unfold STUN_MAX_SERVER_NAME_SIZE in *. case_decide; [split; [done|lia]|done]. }
  destruct (built_le_add _ b3 n3 _ _ _ _ STUN_ATTRIBUTE_THIRD_PARTY_AUTHORIZATION name (zlen name) H3 Hnb eq_refl) as (b4 & n4 & -> & H4);
    [unfold MAX_STUN_MESSAGE_SIZE; lia|]. mred. cbn [app] in H4. eexists. split; [done|]. destruct H4 as [H4 Hl4]. split; [exact H4|cbn in Hl4 |- *; lia].
Qed.

(** ** The whole check *)

(** A challenge that asks for a retry with the nonce and the realm of the session. *)
Definition is_challenge (server : turn_turnserver) (au : auth_state) (method err : Z) (tid : list Z) (response : list Z * Z) : Prop :=
  exists reason, reason_ok reason /\
    built_le 2200 response.1 response.2 (stun_make_error_response method) STUN_MAGIC_COOKIE tid
      (new_attr STUN_ATTRIBUTE_ERROR_CODE (error_value 0 err (take 508 (effective_reason err reason))) :: challenge_attrs server au).

Inductive auth_outcome `{CryptoOps} (server : turn_turnserver) (au : auth_state) (tid buf : list Z) (len method : Z) (can_resume : bool) (draws : list Z)
  : auth_result -> Prop :=
  | auth_open : need_stun_authentication server = false ->
      auth_outcome server au tid buf len method can_resume draws (mk_auth_result 0 au buf 0 None None false None)
  | auth_accepted au1 au' : need_stun_authentication server = true -> renew_nonce server au draws = Some (false, au1) -> nonce au' = nonce au1 ->
      presents au' buf len -> (hmackey_set au' = true \/ pwd au' <> []) ->
      (method <> STUN_METHOD_CONNECTION_BIND -> ss_oauth au = false ->
       attr_claim buf len STUN_ATTRIBUTE_REALM STUN_MAX_REALM_SIZE = Some (auth_realm au)) ->
      auth_outcome server au tid buf len method can_resume draws (mk_auth_result 0 au' buf 0 None None true None)
  | auth_refused au' err reason : (err = 400 \/ err = 437 \/ err = 441) -> phrase_ok reason ->
      auth_outcome server au tid buf len method can_resume draws (mk_auth_result (-1) au' buf err reason None false None)
  | auth_challenged au' err reason response : (err = 401 \/ err = 438) -> phrase_ok reason -> is_challenge server au' method err tid response ->
      auth_outcome server au tid buf len method can_resume draws (mk_auth_result 0 au' buf err reason (Some response) false None)
  | auth_postponed au' usname realm : can_resume = true ->
      auth_outcome server au tid buf len method can_resume draws (mk_auth_result 0 au' buf 0 None None false (Some (usname, realm))).

Lemma check_stun_auth_ok `{CryptoLaws} server options au tid buf len nbh method can_resume draws rnd :
  auth_server server options -> auth_ok au -> received buf len -> response_room tid nbh rnd -> 0 <= method < 4096 -> (2 <= length draws)%nat ->
  exists r, check_stun_auth server options au tid buf len nbh method can_resume draws rnd = Some r /\
    auth_outcome server au tid buf len method can_resume draws r /\ auth_ok (ar_auth r) /\ same_user au (ar_auth r) /\
    (method <> STUN_METHOD_CONNECTION_BIND -> auth_realm (ar_auth r) = auth_realm au).
Proof.
  intros Hs Ha Hbuf Hroom Hm Hd. unfold check_stun_auth. destruct (need_stun_authentication server) eqn:En; cbn [negb];
    [|eexists; split; [done|]; split; [by constructor|done]].
  pose proof En as Hct%bool_decide_eq_true.
  destruct (renew_nonce_ok server options au draws Hs Ha Hd) as (fresh & au1 & Hrenew & Ha1 & Hn1 & E1 & Hfresh). rewrite Hrenew. mred.
  assert (same_user au au1 /\ auth_realm au1 = auth_realm au) as (Eu & Er) by (rewrite E1; by split_and!).
  destruct (auth_stages_ok server options Hs buf len Hbuf au1 fresh method can_resume Ha1 Hn1 Hct)
    as (s & au2 & -> & Ha2 & En2 & Eu2 & Er2 & Hend). mred. pose proof (same_user_trans _ _ _ Eu Eu2) as Eu3.
  rewrite Er in Er2, Hend. assert (ss_oauth au1 = ss_oauth au) as Eo by apply Eu. rewrite Eo in Hend.
  destruct s as [[]|err reason|err reason|u r].
  - destruct Hend as (-> & Hp & Hk & Hr). eexists. split; [done|]. split; [by apply (auth_accepted _ _ _ _ _ _ _ _ au1)|]. done.
  - eexists. split; [done|]. split; [constructor; apply Hend|]. done.
  - destruct Hend as [Herr (p & -> & Hp)].
    destruct (challenge_ok server options au2 tid err p nbh method rnd Hs Ha2) as (response & -> & Hresp); [by rewrite En2|done..|]. mred.
    eexists. split; [done|]. split; [|done]. constructor; [done|by exists p|]. by exists p.
  - eexists. split; [done|]. split; [by constructor|]. done.
Qed.
