(* ===== verification/AuthClient.v ===== *)
(** * A challenge and its answer

    A client that reads a challenge and signs its next request with what it read is
    authenticated by the session that made the challenge. *)

From S2P Require Import Prelude CString StunHeader StunAttr StunFields StunFieldsFacts Integrity IntegrityFacts Session RelaySystem HandlerFacts Auth AuthFacts.

(** ** Reading a challenge *)

(** The string of the first attribute of its type. *)
Lemma first_string buf len ty ck tid l1 t v l2 max :
  is_msg buf len ty ck tid (l1 ++ new_attr t v :: l2) -> Forall (fun b => at_type b <> t) l1 -> 0 <= t < 2 ^ 16 -> 0 <= max ->
  exists o, stun_attr_get_first_by_type_str buf len t = Some (Some o) /\
    attr_string buf (Some o) max = Some (until_nul (take (Z.to_nat max) v)) /\
    attr_value_cut buf (Some o) max = Some (if decide (zlen v < 1) then None else Some (take (Z.to_nat max) v)).
Proof.
  intros Hm Hl Ht Hmax. set (a := new_attr t v). assert (at_type a = t) as Ea by (by apply Z.mod_small). rewrite <- Ea in Hl. destruct (is_msg_read_at _ _ _ _ _ l1 a l2 Hm Hl) as (Ho & Rl & Rv & Rs).
  rewrite Ea in Ho. cbn [at_val a new_attr] in Rl, Rv, Rs. exists (msg_len l1). split; [done|]. split.
  - apply (attr_string_framed _ _ _ _ _ a max (is_msg_framed _ _ _ _ _ _ Hm)); [|done]. apply attr_offs_elem. eauto.
  - unfold attr_value_cut. rewrite Rv. mred. case_decide as E; [done|]. rewrite Rl. mred.
    pose proof (slice_sub _ _ _ _ 0 (zlen v `min` max) Rs) as Hsub. rewrite Z.add_0_r in Hsub. rewrite Hsub by lia.
    rewrite (slice_val _ 0) by lia. mred. change (Z.to_nat 0) with 0%nat. rewrite drop_0.
    do 2 f_equal. destruct (Z.min_spec (zlen v) max) as [[? ->]|[? ->]]; [|done].
    rewrite (take_ge _ (Z.to_nat max)) by lia. apply take_ge. lia.
Qed.

Lemma first_none buf len ty ck tid l t :
  is_msg buf len ty ck tid l -> Forall (fun b => at_type b <> t) l -> stun_attr_get_first_by_type_str buf len t = Some None.
Proof. intros Hm Hl. rewrite (get_first_by_type_framed _ _ _ _ t (is_msg_framed _ _ _ _ _ _ Hm)). by rewrite find_type_none. Qed.

(** The client gets the nonce and the realm of the session, and the server name. *)
Definition challenge_read (server : turn_turnserver) (au : auth_state) : list Z * list Z * option (list Z) * bool :=
  let name := if decide (oauth_server_name server = []) then auth_realm au else oauth_server_name server in
  (auth_realm au, take 16 (nonce au), if oauth server then Some name else None, oauth server).

Lemma challenge_understood server options au method err tid response e0 size :
  auth_server server options -> auth_ok au -> made_nonce (nonce au) -> auth_realm au <> [] -> 0 <= method < 4096 -> (err = 401 \/ err = 438) ->
  513 <= size -> is_challenge server au method err tid response ->
  stun_is_challenge_response_str response.1 response.2 e0 size = Some (true, Some err, Some (challenge_read server au)).
Proof.
  intros Hs Ha (t & Et & Htl & Hth) Hr0 Hm Herr Hsz (reason & Hre & [[Hmsg _] _]). unfold stun_is_challenge_response_str, challenge_read.
  assert (take 16 (nonce au) = t) as Etk by (rewrite Et; by rewrite take_app_length').
  set (txt := take 508 _) in Hmsg. unfold challenge_attrs in Hmsg. rewrite Etk in *. set (name := if decide (oauth_server_name server = []) then _ else _) in *.
  rewrite (error_response_read response.1 response.2 method tid err txt e0 size (new_attr STUN_ATTRIBUTE_NONCE t :: new_attr STUN_ATTRIBUTE_REALM (auth_realm au) ::
    (if oauth server then [new_attr STUN_ATTRIBUTE_THIRD_PARTY_AUTHORIZATION name] else [])));
    [|done|lia|unfold txt; rewrite length_take; lia|done|exact Hmsg].
  mred. rewrite bool_decide_true by (destruct Herr as [->| ->]; auto). cbn [andb]. set (l2 := if oauth server then _ else _) in *.
  destruct (ao_realm au Ha) as (_ & Hrn & Hrl).
  destruct (first_string _ _ _ _ _ [_; _] STUN_ATTRIBUTE_REALM (auth_realm au) l2 STUN_MAX_REALM_SIZE Hmsg) as (o1 & -> & _ & E1);
    [by repeat constructor|done|done|]. mred. rewrite E1. rewrite decide_False by (destruct (auth_realm au); [done|rewrite length_cons; lia]). mred.
  destruct (first_string _ _ _ _ _ [_] STUN_ATTRIBUTE_NONCE t (new_attr STUN_ATTRIBUTE_REALM (auth_realm au) :: l2) STUN_MAX_NONCE_SIZE Hmsg) as (o2 & E2 & _ & E2v);
    [by repeat constructor|done|done|]. rewrite decide_False in E2v by (rewrite Htl; lia).
  assert (take (Z.to_nat STUN_MAX_REALM_SIZE) (auth_realm au) = auth_realm au) as Etr by (apply take_ge; unfold STUN_MAX_REALM_SIZE in *; lia).
  assert (take (Z.to_nat STUN_MAX_NONCE_SIZE) t = t) as Etn by (apply take_ge; unfold STUN_MAX_NONCE_SIZE; lia). rewrite Etn in E2v. rewrite Etr. clear E1.
  destruct (oauth server) eqn:Eoa.
  - assert (0 < zlen name <= STUN_MAX_SERVER_NAME_SIZE) as Hname.
    { unfold name. destruct (as_name _ _ Hs) as (_ & _ & ?). unfold STUN_MAX_SERVER_NAME_SIZE, STUN_MAX_REALM_SIZE in *. case_decide as E;
        [destruct (auth_realm au); [done|rewrite length_cons in *; lia]|destruct (oauth_server_name server); [done|rewrite length_cons in *; lia]]. }
    destruct (first_string _ _ _ _ _ [_; _; _] STUN_ATTRIBUTE_THIRD_PARTY_AUTHORIZATION name [] STUN_MAX_SERVER_NAME_SIZE Hmsg) as (o3 & -> & _ & E3);
      [by repeat constructor|done|done|]. mred. rewrite E3. rewrite decide_False by lia. mred. rewrite E2. mred. rewrite E2v. mred.
    rewrite take_ge by lia. done.
  - rewrite (first_none _ _ _ _ _ _ STUN_ATTRIBUTE_THIRD_PARTY_AUTHORIZATION Hmsg) by (by repeat constructor). mred.
    change (attr_value_cut response.1 None STUN_MAX_SERVER_NAME_SIZE) with (Some (@None (list Z))). mred. rewrite E2. mred. by rewrite E2v.
Qed.

(** ** A signed request *)

Definition no_credentials (l : list sattr) : Prop :=
  Forall (fun b => at_type b ∉ [STUN_ATTRIBUTE_USERNAME; STUN_ATTRIBUTE_NONCE; STUN_ATTRIBUTE_REALM; STUN_ATTRIBUTE_MESSAGE_INTEGRITY]) l.

Lemma no_credentials_type l t :
  no_credentials l -> t ∈ [STUN_ATTRIBUTE_USERNAME; STUN_ATTRIBUTE_NONCE; STUN_ATTRIBUTE_REALM; STUN_ATTRIBUTE_MESSAGE_INTEGRITY] ->
  Forall (fun b => at_type b <> t) l.
Proof. intros H Ht. eapply Forall_impl; [|exact H]. intros b Hb E. apply Hb. by rewrite E. Qed.

(** What a user is called in the protocol. *)
Definition user_name_ok (max : Z) (sql : bool) (s : list Z) : Prop := name_ok max s /\ is_secure_string s sql = true.

Lemma name_kept max s : name_ok max s -> until_nul (take (Z.to_nat max) s) = s.
Proof. intros (_ & Hn & Hl). rewrite take_ge by lia. by apply until_nul_id. Qed.

Lemma signed_passes `{CryptoLaws} server options au buf len ty ck tid l u n mac method can_resume :
  is_msg buf len ty ck tid (l ++ credential_attrs u n (auth_realm au) ++ [new_attr STUN_ATTRIBUTE_MESSAGE_INTEGRITY mac]) ->
  no_credentials l -> nonce au = n ++ [0] -> name_ok STUN_MAX_NONCE_SIZE n -> user_name_ok STUN_MAX_USERNAME_SIZE true u ->
  user_name_ok STUN_MAX_REALM_SIZE false (auth_realm au) -> (username au = [] \/ username au = u) -> hmackey_set au = true ->
  zlen (hmackey au) = HMACKEY_SIZE -> ct server = TURN_CREDENTIALS_LONG_TERM -> method <> STUN_METHOD_CONNECTION_BIND ->
  HMAC SHATYPE_DEFAULT (session_key au) (msg_prefix (msg_len (l ++ credential_attrs u n (auth_realm au)) + 20 - 16) ty ck tid
    (l ++ credential_attrs u n (auth_realm au))) = Some mac ->
  auth_stages server options au false buf len method can_resume = Some (Go (), set_username au u (hmackey_set au), buf).
Proof.
  intros Hm Hl En Hn [Hu Hus] [Hr Hrs] Huser Hset Hk Hct Hmeth Hmac. set (r := auth_realm au) in *.
  assert (zlen mac = 20) as Hml by (by apply HMAC_length in Hmac).
  assert (forall l1 t v l2, l ++ credential_attrs u n r ++ [new_attr STUN_ATTRIBUTE_MESSAGE_INTEGRITY mac] = (l ++ l1) ++ new_attr t v :: l2 ->
    t ∈ [STUN_ATTRIBUTE_USERNAME; STUN_ATTRIBUTE_NONCE; STUN_ATTRIBUTE_REALM; STUN_ATTRIBUTE_MESSAGE_INTEGRITY] ->
    Forall (fun b => at_type b <> t) l1 -> 0 <= t < 2 ^ 16 ->
    exists o, stun_attr_get_first_by_type_str buf len t = Some (Some o) /\ stun_attr_get_len buf (Some o) = Some (zlen v) /\
      forall max, 0 <= max -> attr_string buf (Some o) max = Some (until_nul (take (Z.to_nat max) v))) as Hread.
  { intros l1 t v l2 E Ht Hl1 Hr16. pose proof (is_msg_eq _ _ _ _ _ _ _ E Hm) as Hm'.
    assert (Forall (fun b => at_type b <> t) (l ++ l1)) as Hall by (apply Forall_app_2; [by apply no_credentials_type|done]).
    assert (at_type (new_attr t v) = t) as Ea by (by apply Z.mod_small).
    destruct (is_msg_read_at _ _ _ _ _ (l ++ l1) (new_attr t v) l2 Hm') as (Ho & Rl & _ & _); [by rewrite Ea|]. rewrite Ea in Ho.
    exists (msg_len (l ++ l1)). split; [done|]. split; [done|]. intros max Hmax.
    destruct (first_string _ _ _ _ _ (l ++ l1) t v l2 max Hm' Hall Hr16 Hmax) as (o & Ho' & Es & _). rewrite Ho in Ho'. by injection Ho' as <-. }
  unfold auth_stages, integrity_stage, realm_stage, username_stage, nonce_stage, password_stage.
  destruct (Hread (credential_attrs u n r) STUN_ATTRIBUTE_MESSAGE_INTEGRITY mac []) as (o1 & -> & El1 & _);
    [by rewrite <- (assoc_L (++))|set_solver|by repeat constructor|done|]. mred. rewrite El1. mred. rewrite decide_True by done.
  destruct (Hread [new_attr STUN_ATTRIBUTE_USERNAME u; new_attr STUN_ATTRIBUTE_NONCE n] STUN_ATTRIBUTE_REALM r [new_attr STUN_ATTRIBUTE_MESSAGE_INTEGRITY mac])
    as (o2 & -> & _ & E2); [by rewrite <- (assoc_L (++))|set_solver|by repeat constructor|done|]. mred. rewrite E2 by done. mred.
  rewrite name_kept by done. rewrite Hrs. cbn [negb]. rewrite decide_False by done. fold r. rewrite decide_False by auto. mred.
  destruct (Hread [] STUN_ATTRIBUTE_USERNAME u [new_attr STUN_ATTRIBUTE_NONCE n; new_attr STUN_ATTRIBUTE_REALM r; new_attr STUN_ATTRIBUTE_MESSAGE_INTEGRITY mac])
    as (o3 & -> & _ & E3); [by rewrite app_nil_r|set_solver|constructor|done|]. mred. rewrite E3 by done. mred. rewrite name_kept by done. rewrite Hus. cbn [negb].
  destruct (Hread [new_attr STUN_ATTRIBUTE_USERNAME u] STUN_ATTRIBUTE_NONCE n [new_attr STUN_ATTRIBUTE_REALM r; new_attr STUN_ATTRIBUTE_MESSAGE_INTEGRITY mac])
    as (o4 & E4 & _ & E4v); [by rewrite <- (assoc_L (++))|set_solver|by repeat constructor|done|].
  assert ((if decide (username au <> []) then if decide (username au <> u) then if ss_oauth au then (Go u, set_username au u false)
      else (if decide (method = STUN_METHOD_ALLOCATE) then Refuse 437 (Some (cstr "Allocation mismatch: wrong credentials")) else Refuse 441 None, au)
      else (Go u, au) else (Go u, set_username au u (hmackey_set au))) = (Go u, set_username au u (hmackey_set au))) as ->.
  { destruct Huser as [E|E]; rewrite E; [by rewrite decide_False by auto|]. case_decide; [|done]. rewrite decide_False by auto.
    f_equal. destruct au; cbn in *. by rewrite E. }
  mred. rewrite E4. mred. rewrite E4v by done. mred. rewrite name_kept by done. cbn [nonce set_username]. rewrite En.
  destruct Hn as (_ & Hn & _). rewrite (strcmp_eq_spec (n ++ [0]) (n ++ [0]) n n) by (by apply cstring_app). mred. rewrite bool_decide_true by done.
  cbn [hmackey_set hmackey pwd set_username]. rewrite Hset. cbn [negb andb].
  assert (mac_key (ct server) (hmackey au) (pwd au ++ [0]) SHATYPE_DEFAULT = session_key au) as Ekey by (unfold mac_key; by rewrite Hct, decide_False).
  rewrite (signed_accepted buf len ty ck tid (l ++ credential_attrs u n r) [] _ _ _ _ mac); [done|by rewrite <- (assoc_L (++))| | |done|by rewrite Ekey].
  - apply Forall_app_2; [apply no_credentials_type; [done|set_solver]|by repeat constructor].
  - unfold credentials_ok. by rewrite Hct, decide_False.
Qed.

(** A session keeps its nonce as long as it is not stale. *)
Lemma renew_nonce_keeps server options au draws :
  auth_server server options -> auth_ok au -> made_nonce (nonce au) ->
  (stale_nonce server = 0 \/ ctime server <= nonce_expiration_time au) -> renew_nonce server au draws = Some (false, au).
Proof.
  intros Hs Ha (t & Et & Htl & Hth) Hstale. unfold renew_nonce. rewrite Et. destruct t as [|c t]; [done|].
  pose proof (ld_app 1 [] [c] (t ++ [0]) 0 eq_refl eq_refl) as H. cbn [le_val app] in H. rewrite Z.mul_0_r, Z.add_0_r in H. cbn [app]. rewrite H. mred.
  assert (c <> 0) as Hc by (inversion_clear Hth as [|?? Hx _]; unfold is_hex in Hx; lia). rewrite (bool_decide_false (c = 0)) by done.
  assert ((if stale_nonce server =? 0 then Some false else turn_time_before (nonce_expiration_time au) (ctime server)) = Some false) as ->; [|done].
  destruct (Z.eqb_spec (stale_nonce server) 0); [done|]. destruct Hstale as [|Hle]; [done|].
  rewrite turn_time_before_ok; [rewrite bool_decide_false by lia; done|apply Ha|].
  pose proof (as_time _ _ Hs). pose proof (as_stale _ _ Hs). pose proof (as_clock _ _ Hs). lia.
Qed.

Section answer.
Context `{CryptoLaws} (server server' : turn_turnserver) (options : list Z -> list Z).
Context (Hserver : auth_server server options) (Hneed : need_stun_authentication server = true).
Context (Hserver' : auth_server server' options) (Hneed' : need_stun_authentication server' = true).

(** A request without a signature is challenged. *)
Lemma unsigned_challenged au tid buf len nbh m can_resume draws rnd :
  auth_ok au -> stun_attr_get_first_by_type_str buf len STUN_ATTRIBUTE_MESSAGE_INTEGRITY = Some None -> response_room tid nbh rnd ->
  0 <= m < 4096 -> (2 <= length draws)%nat ->
  exists fresh au' response, check_stun_auth server options au tid buf len nbh m can_resume draws rnd
      = Some (mk_auth_result 0 au' buf 401 None (Some response) false None) /\
    renew_nonce server au draws = Some (fresh, au') /\ auth_ok au' /\ made_nonce (nonce au') /\ au' = set_nonce au (nonce au') (nonce_expiration_time au') /\ is_challenge server au' m 401 tid response.
Proof.
  intros Ha Hnone Hroom Hm Hd. unfold check_stun_auth. rewrite Hneed. cbn [negb].
  destruct (renew_nonce_ok server options au draws Hserver Ha Hd) as (fresh & au' & Ern & Ha' & Hn & E & _). rewrite Ern. mred.
  unfold auth_stages, integrity_stage. rewrite Hnone. mred.
  destruct (challenge_ok server options au' tid 401 None nbh m rnd Hserver Ha' Hn Hroom Hm I) as (response & Er & Hr). cbn [fmap option_fmap option_map] in Er.
  rewrite Er. mred. exists fresh, au', response. do 5 (split; [done|]). by exists None.
Qed.

(** C2 The challenge of a session can be answered.  A request without a signature gets error 401
    with the realm and a nonce of the session, which the client's library reads from it; when
    the user database has answered with the key of the user, the next request that the
    client signs with its name, its password and the realm and nonce it read is
    authenticated, as long as the nonce is not stale. *)
Theorem challenge_answered au tid buf len nbh m can_resume draws rnd e0 size :
  auth_ok au -> auth_realm au <> [] -> is_secure_string (auth_realm au) false = true ->
  stun_attr_get_first_by_type_str buf len STUN_ATTRIBUTE_MESSAGE_INTEGRITY = Some None -> response_room tid nbh rnd ->
  0 <= m < 4096 -> (2 <= length draws)%nat -> 513 <= size ->
  exists r response fresh realm n name,
    check_stun_auth server options au tid buf len nbh m can_resume draws rnd = Some r /\ renew_nonce server au draws = Some (fresh, ar_auth r) /\
    realm = auth_realm au /\ nonce (ar_auth r) = n ++ [0] /\ ar_err_code r = 401 /\ ar_response r = Some response /\
    stun_is_challenge_response_str response.1 response.2 e0 size = Some (true, Some 401, Some (realm, n, name, oauth server)) /\
    forall u p ty ck tid1 l buf1 len1 nbh1 m1 can_resume1 draws1 rnd1 max_time,
      built buf1 len1 ty ck tid1 l -> no_credentials l -> user_name_ok STUN_MAX_USERNAME_SIZE true u -> nonzero p ->
      (username au = [] \/ username au = u) -> m1 <> STUN_METHOD_CONNECTION_BIND ->
      (stale_nonce server' = 0 \/ ctime server' <= nonce_expiration_time (ar_auth r)) -> (forall k d, is_Some (HMAC SHATYPE_DEFAULT k d)) ->
      msg_len l + zlen u + zlen realm + zlen n + 48 < MAX_STUN_MESSAGE_SIZE ->
      exists buf2 len2 r1,
        stun_attr_add_integrity_by_user_str buf1 len1 (u ++ [0]) (realm ++ [0]) (p ++ [0]) (n ++ [0]) SHATYPE_DEFAULT true = Some (true, buf2, len2) /\
        check_stun_auth server' options
          (user_answer options (ar_auth r) true (long_term_key SHATYPE_DEFAULT u realm p) [] (ss_oauth au) max_time [])
          tid1 buf2 len2 nbh1 m1 can_resume1 draws1 rnd1 = Some r1 /\
        ar_err_code r1 = 0 /\ ar_message_integrity r1 = true /\ username (ar_auth r1) = u.
Proof.
  intros Ha Hr0 Hrs Hnone Hroom Hm Hd Hsz.
  destruct (unsigned_challenged au tid buf len nbh m can_resume draws rnd Ha Hnone Hroom Hm Hd) as (fresh & au' & response & Echeck & Ern & Ha' & Hn & Eau & Hch).
  assert (auth_realm au' = auth_realm au /\ username au' = username au) as [Er Eu] by (by rewrite Eau).
  pose proof (challenge_understood server options au' m 401 tid response e0 size Hserver Ha' Hn) as Hread. rewrite Er in Hread.
  specialize (Hread Hr0 Hm (or_introl eq_refl) Hsz Hch). unfold challenge_read in Hread. rewrite Er in Hread.
  eexists _, response, fresh, (auth_realm au), (take 16 (nonce au')), _. split; [exact Echeck|]. split; [exact Ern|]. split; [done|].
  split; [destruct Hn as (t & E & Htl & _); cbn [ar_auth]; rewrite E; by rewrite take_app_length'|]. split; [done|]. split; [done|]. split; [exact Hread|].
  intros u p ty ck tid1 l buf1 len1 nbh1 m1 can_resume1 draws1 rnd1 max_time Hb Hl Hu Hp Huser Hm1 Hstale Htot Hlen. cbn [ar_auth] in *.
  pose proof Hn as (t & Et & Htl & Hth). assert (take 16 (nonce au') = t) as Etk by (rewrite Et; by rewrite take_app_length'). rewrite Etk in *.
  set (key := long_term_key SHATYPE_DEFAULT u (auth_realm au) p). set (au2 := user_answer options au' true key [] (ss_oauth au) max_time []).
  assert (nonce au2 = nonce au' /\ username au2 = username au /\ auth_realm au2 = auth_realm au /\ hmackey au2 = key /\ hmackey_set au2 = true /\
    nonce_expiration_time au2 = nonce_expiration_time au') as (N2 & U2 & R2 & K2 & S2 & T2).
  { unfold au2, user_answer. cbn. rewrite Er, Eu. split_and!; try done. }
  assert (auth_ok au2) as Ha2.
  { split; rewrite ?N2, ?U2, ?R2, ?K2, ?T2; [by right|apply Ha'|apply Ha|apply length_long_term_key|constructor|apply Ha]. }
  destruct Hu as [Hun Hus]. destruct (ao_realm au Ha) as (Hrb & Hrn & Hrl). destruct Hun as (Hub & Hunz & Hul).
  assert (name_ok STUN_MAX_NONCE_SIZE t) as Htok by (split; [by apply hex_bytes|]; split; [by apply hex_nonzero|]; unfold STUN_MAX_NONCE_SIZE; lia).
  set (l' := l ++ credential_attrs u t (auth_realm au)).
  destruct (Htot (take 16 key) (msg_prefix (msg_len l' + 20 - 16) ty ck tid1 l')) as [mac Hmac].
  destruct (by_key_add buf1 len1 ty ck tid1 l u (auth_realm au) t key SHATYPE_DEFAULT mac Hb Hunz Hrn) as (buf2 & len2 & Eadd & [Hmsg _]);
    [apply Htok|done|done|apply Htok|apply length_long_term_key|change (sha_size SHATYPE_DEFAULT) with 20; lia|exact Hmac|].
  exists buf2, len2, (mk_auth_result 0 (set_username au2 u true) buf2 0 None None true None). split; [|split; [|done]].
  - unfold stun_attr_add_integrity_by_user_str. rewrite produce_key by done. mred. exact Eadd.
  - unfold check_stun_auth. rewrite Hneed'. cbn [negb].
    rewrite (renew_nonce_keeps server' options au2 draws1 Hserver' Ha2); [|by rewrite N2|by rewrite T2]. mred.
    rewrite (signed_passes server' options au2 buf2 len2 ty ck tid1 l u t mac m1 can_resume1); try done.
    + rewrite R2, (assoc_L (++)). exact Hmsg.
    + by rewrite R2.
    + by rewrite U2.
    + rewrite K2. apply length_long_term_key.
    + by apply bool_decide_eq_true in Hneed'.
    + unfold session_key. by rewrite K2, R2.
Qed.

End answer.

(** A session that has just been opened. *)
Definition fresh_auth : auth_state := mk_auth (replicate 17 0) 0 [] (replicate 64 0) false [] false 0 (str_bytes "example.org").
Definition bare_request : list Z := hdr (stun_make_request STUN_METHOD_ALLOCATE) 0 STUN_MAGIC_COOKIE (replicate 12 5).

Lemma fresh_auth_ok : auth_ok fresh_auth.
Proof.
  split; cbn [nonce nonce_expiration_time username hmackey pwd auth_realm fresh_auth]; [by left|done| |done|constructor|].
  - split; [constructor|]. split; [constructor|done].
  - split; [apply str_bytes_bytes|]. split; [by apply str_nonzero|by vm_compute].
Qed.

Lemma plain_auth_server : auth_server plain_server (fun _ => str_bytes "example.org").
Proof.
  split; [done..| |intros _]; [split; [constructor|split; [constructor|done]]|]. split; [apply str_bytes_bytes|]. split; [by apply str_nonzero|by vm_compute].
Qed.

Lemma challenge_answered_witness :
  exists r, @check_stun_auth sum_crypto plain_server (fun _ => str_bytes "example.org") fresh_auth (replicate 12 5) bare_request 20
      (replicate (Z.to_nat 65507) 0) STUN_METHOD_ALLOCATE true [1; 2] (replicate 12 9) = Some r /\
    exists buf1 buf2 len2 r1,
      built buf1 20 (make_class Request STUN_METHOD_ALLOCATE) STUN_MAGIC_COOKIE (replicate 12 5) [] /\
      @check_stun_auth sum_crypto plain_server (fun _ => str_bytes "example.org")
         (user_answer (fun _ => str_bytes "example.org") (ar_auth r) true
            (@long_term_key sum_crypto SHATYPE_DEFAULT (str_bytes "user") (str_bytes "example.org") (str_bytes "secret")) [] false 0 [])
         (replicate 12 5) buf2 len2 (replicate (Z.to_nat 65507) 0) STUN_METHOD_ALLOCATE true [] (replicate 12 9) = Some r1 /\
      ar_message_integrity r1 = true.
Proof.
  destruct (@challenge_answered sum_crypto sum_crypto_laws plain_server plain_server (fun _ => str_bytes "example.org") plain_auth_server eq_refl
    plain_auth_server eq_refl fresh_auth (replicate 12 5) bare_request 20 (replicate (Z.to_nat 65507) 0) STUN_METHOD_ALLOCATE true [1; 2] (replicate 12 9)
    0 1024 fresh_auth_ok) as (r & response & fresh & realm & n & name & Hr & Hnew & -> & Hn & _ & _ & _ & Hnext);
    [done|vm_compute; reflexivity|vm_compute; reflexivity|apply example_room|done|cbn; lia|done|].
  exists r. split; [exact Hr|]. clear Hr. generalize dependent (ar_auth r). intros au1 Hnew Hn Hnext. vm_compute in Hnew. injection Hnew as Hfresh Hau. rewrite <- Hau in Hn. destruct (an_empty_message STUN_METHOD_ALLOCATE) as (b1 & Hb1); [done|].
  assert (zlen n = 16) as Hln by (apply (f_equal length) in Hn; rewrite length_app in Hn; cbn in Hn; lia).
  destruct (Hnext (str_bytes "user") (str_bytes "secret") (make_class Request STUN_METHOD_ALLOCATE) STUN_MAGIC_COOKIE (replicate 12 5) [] b1 20
    (replicate (Z.to_nat 65507) 0) STUN_METHOD_ALLOCATE true [] (replicate 12 9) 0) as (buf2 & len2 & r1 & _ & H1 & _ & H2 & _).
  - exact Hb1.
  - constructor.
  - split; [split; [apply str_bytes_bytes|split; [by apply str_nonzero|by vm_compute]]|by vm_compute].
  - by apply str_nonzero.
  - by left.
  - done.
  - right. rewrite <- Hau. by vm_compute.
  - intros k d. by eexists.
  - rewrite Hln. by vm_compute.
  - exact (ex_intro _ b1 (ex_intro _ buf2 (ex_intro _ len2 (ex_intro _ r1 (conj Hb1 (conj H1 H2)))))).
Defined.
