(* ===== verification/RelaySession.v ===== *)
(** * The relay sockets of an allocation [server/ns_turn_allocation.c, server/ns_turn_server.c]

    The two relay sessions of an allocation, one per address family: their sockets, their
    lifetimes and the timers that end them.  A socket is named by a handle of the engine; an
    access through a handle that was closed is [None].  How sockets are opened is the
    answer of [create_relay_ioa_sockets]. *)

From S2P Require Import Prelude CString IoAddr StunHeader StunFields IoTimer Session.
From stdpp Require Import gmap.
#[global] Open Scope Z_scope.

Definition STUN_ATTRIBUTE_TRANSPORT_TCP_VALUE : Z := 6.
Definition STUN_ATTRIBUTE_TRANSPORT_UDP_VALUE : Z := 17.
Definition ALLOC_PROTOCOLS_NUMBER : nat := 2.

(** ** Sockets of the engine *)

(** [so_session]: the session the socket was given to is this one; [so_reading]: a read
    callback is registered. *)
Record ioa_socket := mk_socket {
  so_family : Z;
  so_type : Z;
  so_local : ioa_addr;
  so_tobeclosed : bool;
  so_no_df : bool;
  so_session : bool;
  so_reading : bool
}.

(** ** The relay sessions

    A handle is zero when there is none.  A timer gets the address of its relay session:
    the flag says that it is the one for IPv6. *)
Record relay_endpoint_session := mk_relay { rs_s : Z; rs_expiration_time : Z; rs_lifetime_ev : Z }.
Definition no_relay : relay_endpoint_session := mk_relay 0 0 0.

(** [rtcp_map]: the reserved sockets of the engine, by token. *)
Record allocation := mk_allocation {
  is_valid : bool;
  al_tid : list Z;
  relay4 : relay_endpoint_session;
  relay6 : relay_endpoint_session;
  failure4 : bool;
  failure6 : bool;
  next_socket : Z;
  sockets : gmap Z ioa_socket;
  rtcp_map : gmap Z Z;
  relay_engine : ioa_engine bool
}.

Definition ALLOC_INDEX (family : Z) : bool := bool_decide (family = AF_INET6).

Definition get_relay_session (a : allocation) (family : Z) : relay_endpoint_session :=
  if ALLOC_INDEX family then relay6 a else relay4 a.
Definition get_relay_session_failure (a : allocation) (family : Z) : bool :=
  if ALLOC_INDEX family then failure6 a else failure4 a.

Definition set_relay_session (a : allocation) (family : Z) (r : relay_endpoint_session) : allocation :=
  mk_allocation (is_valid a) (al_tid a) (if ALLOC_INDEX family then relay4 a else r) (if ALLOC_INDEX family then r else relay6 a)
    (failure4 a) (failure6 a) (next_socket a) (sockets a) (rtcp_map a) (relay_engine a).
Definition set_relay_session_failure (a : allocation) (family : Z) : allocation :=
  mk_allocation (is_valid a) (al_tid a) (relay4 a) (relay6 a) (negb (ALLOC_INDEX family) || failure4 a) (ALLOC_INDEX family || failure6 a)
    (next_socket a) (sockets a) (rtcp_map a) (relay_engine a).
Definition set_allocation_valid (a : allocation) (value : bool) (tid : list Z) : allocation :=
  mk_allocation value tid (relay4 a) (relay6 a) (failure4 a) (failure6 a) (next_socket a) (sockets a) (rtcp_map a) (relay_engine a).
Definition set_sockets (a : allocation) (n : Z) (ss : gmap Z ioa_socket) (m : gmap Z Z) : allocation :=
  mk_allocation (is_valid a) (al_tid a) (relay4 a) (relay6 a) (failure4 a) (failure6 a) n ss m (relay_engine a).
Definition set_relay_engine (a : allocation) (e : ioa_engine bool) : allocation :=
  mk_allocation (is_valid a) (al_tid a) (relay4 a) (relay6 a) (failure4 a) (failure6 a) (next_socket a) (sockets a) (rtcp_map a) e.

Definition init_allocation : allocation := mk_allocation false [] no_relay no_relay false false 1 ∅ ∅ no_timers.

(** ** Access to sockets *)

Definition get_socket (a : allocation) (s : Z) : option ioa_socket := sockets a !! s.
Definition set_socket (a : allocation) (s : Z) (so : ioa_socket) : option allocation :=
  _ ← get_socket a s; Some (set_sockets a (next_socket a) (<[s := so]> (sockets a)) (rtcp_map a)).

(** A new socket of the engine. *)
Definition open_socket (a : allocation) (so : option ioa_socket) : Z * allocation :=
  match so with
  | Some so => (next_socket a, set_sockets a (next_socket a + 1) (<[next_socket a := so]> (sockets a)) (rtcp_map a))
  | None => (0, a)
  end.

(** The macro; the caller clears its variable. *)
Definition IOA_CLOSE_SOCKET (a : allocation) (s : Z) : option allocation :=
  if decide (s = 0) then Some a else
  _ ← get_socket a s; Some (set_sockets a (next_socket a) (delete s (sockets a)) (rtcp_map a)).

Definition get_ioa_socket_address_family (a : allocation) (s : Z) : option Z :=
  if decide (s = 0) then Some AF_INET else so ← get_socket a s; Some (so_family so).

Definition ioa_socket_tobeclosed (a : allocation) (s : Z) : option bool :=
  if decide (s = 0) then Some false else so ← get_socket a s; Some (so_tobeclosed so).

Definition get_local_addr_from_ioa_socket (a : allocation) (s : Z) : option (option ioa_addr) :=
  if decide (s = 0) then Some None else so ← get_socket a s; Some (Some (so_local so)).

Definition set_do_not_use_df (a : allocation) (s : Z) : option allocation :=
  so ← get_socket a s;
  set_socket a s (mk_socket (so_family so) (so_type so) (so_local so) (so_tobeclosed so) true (so_session so) (so_reading so)).

(** For a datagram socket, with [clean_preexisting] zero. *)
Definition register_callback_on_ioa_socket (a : allocation) (s : Z) : option (Z * allocation) :=
  so ← get_socket a s;
  if so_reading so then Some (-1, a) else
  a ← set_socket a s (mk_socket (so_family so) (so_type so) (so_local so) (so_tobeclosed so) (so_no_df so) (so_session so) true);
  Some (0, a).

Definition set_ioa_socket_session (a : allocation) (s : Z) (v : bool) : option allocation :=
  so ← get_socket a s;
  set_socket a s (mk_socket (so_family so) (so_type so) (so_local so) (so_tobeclosed so) (so_no_df so) v (so_reading so)).

(** [rtcp_map_get] takes the socket out of the map. *)
Definition get_ioa_socket_from_reservation (a : allocation) (token : Z) : Z * allocation :=
  match rtcp_map a !! token with
  | Some s => (s, set_sockets a (next_socket a) (sockets a) (delete token (rtcp_map a)))
  | None => (0, a)
  end.

(** ** Lifetimes *)

Definition set_allocation_lifetime_ev (a : allocation) (exp_time ev family : Z) : option allocation :=
  let r := get_relay_session a family in
  e ← IOA_EVENT_DEL (relay_engine a) (rs_lifetime_ev r);
  Some (set_relay_session (set_relay_engine a e) family (mk_relay (rs_s r) exp_time ev)).

(** The TCP connections of RFC 6062 have no counterpart. *)
Definition set_allocation_family_invalid (a : allocation) (family : Z) : option allocation :=
  let r := get_relay_session a family in
  if decide (rs_s r = 0) then Some a else
  so ← get_socket a (rs_s r);
  a ← (if so_session so then set_ioa_socket_session a (rs_s r) false else Some a);
  a ← IOA_CLOSE_SOCKET a (rs_s r);
  e ← IOA_EVENT_DEL (relay_engine a) (rs_lifetime_ev r);
  Some (set_relay_session (set_relay_engine a e) family (mk_relay 0 (rs_expiration_time r) 0)).

(** The relay part of [clear_allocation], for one of the two. *)
Definition clear_relay (a : allocation) (family : Z) : option allocation :=
  let r := get_relay_session a family in
  a ← (if decide (rs_s r = 0) then Some a else
       so ← get_socket a (rs_s r);
       if so_session so then set_ioa_socket_session a (rs_s r) false else Some a);
  a ← IOA_CLOSE_SOCKET a (rs_s r);
  e ← IOA_EVENT_DEL (relay_engine a) (rs_lifetime_ev r);
  Some (set_relay_session (set_relay_engine a e) family (mk_relay 0 (rs_expiration_time r) 0)).

Definition clear_relays (a : allocation) : option allocation :=
  a ← clear_relay a AF_INET;
  a ← clear_relay a AF_INET6;
  Some (set_allocation_valid a false (al_tid a)).

(** ** Creating a relay *)

(** The client's socket, when there is one. *)
Record client_socket := mk_client {
  cl_type : Z;
  cl_family : Z;
  cl_local : ioa_addr;
  cl_remote : option ioa_addr;
  cl_tobeclosed : bool
}.

Definition client_open (c : option client_socket) : bool :=
  match c with Some c => negb (cl_tobeclosed c) | None => false end.
Definition client_family (c : option client_socket) : Z :=
  match c with Some c => cl_family c | None => AF_INET end.

(** What [create_relay_ioa_sockets] returns and stores through its pointers. *)
Record socket_answer := mk_answer {
  an_res : Z;
  an_rtp : option ioa_socket;
  an_rtcp : option ioa_socket;
  an_token : Z;
  an_err : Z;
  an_reason : option (list Z)
}.

Definition get_family (stun_family : Z) (default_relays : bool) (c : option client_socket) : Z :=
  if decide (stun_family = FAMILY_VALUE_IPV4) then AF_INET
  else if decide (stun_family = FAMILY_VALUE_IPV6) then AF_INET6
  else if decide (stun_family = FAMILY_VALUE_DEFAULT) then
    if default_relays && bool_decide (client_family c = AF_INET6) then AF_INET6 else AF_INET
  else AF_INET.

(** The variables of the caller. *)
Record relay_out := mk_relay_out { ro_token : Z; ro_err : Z; ro_reason : option (list Z) }.

(** What the engine answers to the calls of one creation. *)
Record relay_answers := mk_relay_answers { ra_sockets : socket_answer; ra_timer : bool }.

(** The socket of the relay session: that of the reservation, or a new one.  The session's
    index, the socket for RTCP and the variables; or an error was stored. *)
Definition relay_socket_of (server : turn_turnserver) (client : option client_socket) (a : allocation) (ans : socket_answer)
    (address_family in_reservation_token : Z) (out : relay_out) : option (option (Z * Z) * allocation * relay_out) :=
  if decide (in_reservation_token <> 0) then
    let '(s, a) := get_ioa_socket_from_reservation a in_reservation_token in
    let refused := mk_relay_out (ro_token out) 508 (Some (cstr "Cannot find reserved socket")) in
    if decide (s = 0) then Some (None, a, refused) else
    closed ← ioa_socket_tobeclosed a s;
    if closed : bool then a ← IOA_CLOSE_SOCKET a s; Some (None, a, refused) else
    family ← get_ioa_socket_address_family a s;
    let r := get_relay_session a family in
    if decide (rs_s r <> s) then
      a ← IOA_CLOSE_SOCKET a (rs_s r);
      Some (Some (family, 0), set_relay_session a family (mk_relay s 0 0), out)
    else Some (Some (family, 0), a, out)
  else
    let family := get_family address_family (default_relays server) client in
    a ← IOA_CLOSE_SOCKET a (rs_s (get_relay_session a family));
    let '(rtp_s, a) := open_socket a (an_rtp ans) in
    let '(rtcp_s, a) := open_socket a (an_rtcp ans) in
    let out := mk_relay_out (if decide (an_token ans = 0) then ro_token out else an_token ans)
                 (if decide (an_err ans = 0) then ro_err out else an_err ans)
                 (match an_reason ans with Some r => Some r | None => ro_reason out end) in
    let a := set_relay_session a family (mk_relay rtp_s 0 0) in
    if decide (an_res ans < 0) then
      let out := mk_relay_out (ro_token out) (if decide (ro_err out = 0) then 508 else ro_err out)
                   (match ro_reason out with Some r => Some r | None => Some (cstr "Cannot create socket") end) in
      a ← IOA_CLOSE_SOCKET a rtp_s;
      a ← IOA_CLOSE_SOCKET a rtcp_s;
      Some (None, set_relay_session a family no_relay, out)
    else
      (* [create_relay_ioa_sockets] has put the second socket into the map *)
      let a := if decide (rtcp_s <> 0 /\ an_token ans <> 0)
               then set_sockets a (next_socket a) (sockets a) (<[an_token ans := rtcp_s]> (rtcp_map a)) else a in
      Some (Some (family, rtcp_s), a, out).

(** The lifetime of a new relay. *)
Definition relay_lifetime (server : turn_turnserver) (lifetime : Z) : Z :=
  if lifetime <? 1 then STUN_DEFAULT_ALLOCATE_LIFETIME
  else if u32 (max_allocate_lifetime server) <? lifetime then u32 (max_allocate_lifetime server) else lifetime.

(** The second half of [create_relay_connection], on the socket that was found: [index] is the
    family of the relay session it is in. *)
Definition start_relay (server : turn_turnserver) (client : option client_socket) (a : allocation) (timer : bool)
    (lifetime index rtcp_s : Z) (out : relay_out) : option (Z * allocation * relay_out) :=
  let fail (a : allocation) (err : Z) (reason : string) :=
    Some (-1, a, mk_relay_out (ro_token out) err (Some (cstr reason))) in
  let r := get_relay_session a index in
  if decide (rs_s r = 0) then a ← IOA_CLOSE_SOCKET a rtcp_s; fail a 508 "Cannot create relay socket"%string else
  if decide (rtcp_s <> 0 /\ ro_token out = 0) then
    a ← IOA_CLOSE_SOCKET a (rs_s r);
    let a := set_relay_session a index (mk_relay 0 (rs_expiration_time r) (rs_lifetime_ev r)) in
    a ← IOA_CLOSE_SOCKET a rtcp_s;
    fail a 500 "Wrong reservation tokens (internal error)"%string
  else
    family ← get_ioa_socket_address_family a (rs_s r);
    a ← (if decide (family = AF_INET6 \/ client_family client = AF_INET6) then set_do_not_use_df a (rs_s r) else Some a);
    so ← get_socket a (rs_s r);
    '(res, a) ← (if decide (so_type so <> TCP_SOCKET) then register_callback_on_ioa_socket a (rs_s r) else Some (0, a));
    if decide (res < 0) then
      a ← IOA_CLOSE_SOCKET a (rs_s r);
      let a := set_relay_session a index (mk_relay 0 (rs_expiration_time r) (rs_lifetime_ev r)) in
      a ← IOA_CLOSE_SOCKET a rtcp_s;
      fail a 500 "Wrong initialization (internal error)"%string
    else
      let lifetime := relay_lifetime server lifetime in
      let '(ev, e) := set_ioa_timer (relay_engine a) (int_of_time lifetime) (ALLOC_INDEX index) timer in
      a ← set_allocation_lifetime_ev (set_relay_engine a e) (u32 (ctime server + lifetime)) ev family;
      a ← set_ioa_socket_session a (rs_s r) true;
      Some (0, a, out).

Definition create_relay_connection (server : turn_turnserver) (client : option client_socket) (a : allocation) (ans : relay_answers)
    (lifetime address_family in_reservation_token : Z) (out : relay_out) : option (Z * allocation * relay_out) :=
  if negb (client_open client) then Some (0, a, out) else
  '(found, a, out) ← relay_socket_of server client a (ra_sockets ans) address_family in_reservation_token out;
  match found with
  | None => Some (-1, a, out)
  | Some (index, rtcp_s) => start_relay server client a (ra_timer ans) lifetime index rtcp_s out
  end.

(** ** Refreshing it, and its end *)

Definition refresh_relay_connection (server : turn_turnserver) (a : allocation) (timer : bool) (lifetime family : Z)
  : option (Z * allocation) :=
  if negb (is_valid a) then Some (-1, a) else
  let lifetime := if lifetime <? 1 then 1 else lifetime in
  let '(ev, e) := set_ioa_timer (relay_engine a) (int_of_time lifetime) (ALLOC_INDEX family) timer in
  a ← set_allocation_lifetime_ev (set_relay_engine a e) (u32 (ctime server + lifetime)) ev family;
  Some (0, a).

(** A timer of a relay session fires.  The flag says that the session has to be shut down. *)
Definition client_ss_allocation_timeout_handler (a : allocation) (index : bool) : option (allocation * bool) :=
  let r := if index then relay6 a else relay4 a in
  if decide (rs_s r = 0) then Some (a, false) else
  so ← get_socket a (rs_s r);
  if negb (so_session so) then Some (a, false) else
  family ← get_ioa_socket_address_family a (rs_s r);
  a ← set_allocation_family_invalid a family;
  Some (a, bool_decide (rs_s (relay4 a) = 0 /\ rs_s (relay6 a) = 0)).

Definition relay_timer_event (a : allocation) (th : Z) : option (allocation * bool) :=
  index ← timers (relay_engine a) !! th; client_ss_allocation_timeout_handler a index.
