(* ===== verification/RelaySessionFacts.v ===== *)
(** * The relay sockets and their timers

    Every relay socket is open and of its family, every pending timer belongs to a relay
    socket and ends it; creating, refreshing and ending a relay keeps this, so no socket is
    used after it was closed and no timer outlives its relay. *)

From S2P Require Import Prelude CString IoAddr StunHeader StunAttr StunFields StunFieldsFacts IoTimer Session SessionFacts HandlerFacts Auth AuthFacts RelaySession.
From stdpp Require Import gmap.
#[global] Open Scope Z_scope.

Definition relay_at (a : allocation) (i : bool) : relay_endpoint_session := if i then relay6 a else relay4 a.
Definition family_of (i : bool) : Z := if i then AF_INET6 else AF_INET.

Lemma relay_at_family a f : get_relay_session a f = relay_at a (ALLOC_INDEX f).
Proof. done. Qed.

Lemma index_family i : ALLOC_INDEX (family_of i) = i.
Proof. by destruct i. Qed.

(** Its local address is an Internet address. *)
Definition local_ok (so : ioa_socket) : Prop := wf_addr (so_local so) /\ inet_addr (so_local so).

Record relay_ok (a : allocation) : Prop := {
  ro_engine : engine_ok (relay_engine a);
  ro_next : 0 < next_socket a;
  ro_handle s so : sockets a !! s = Some so -> 0 < s < next_socket a;
  ro_local s so : sockets a !! s = Some so -> local_ok so;
  ro_socket i : rs_s (relay_at a i) <> 0 ->
    exists so, sockets a !! rs_s (relay_at a i) = Some so /\ so_family so = family_of i /\ so_session so = true;
  ro_timer i : rs_lifetime_ev (relay_at a i) <> 0 -> timers (relay_engine a) !! rs_lifetime_ev (relay_at a i) = Some i;
  ro_idle i : rs_s (relay_at a i) = 0 -> rs_lifetime_ev (relay_at a i) = 0;
  ro_held h i : timers (relay_engine a) !! h = Some i -> rs_lifetime_ev (relay_at a i) = h;
  ro_reserved t s : rtcp_map a !! t = Some s ->
    exists so i, sockets a !! s = Some so /\ so_family so = family_of i /\ so_session so = false /\ so_reading so = false /\ so_tobeclosed so = false;
  ro_unique t t' s : rtcp_map a !! t = Some s -> rtcp_map a !! t' = Some s -> t = t'
}.

Lemma init_relay_ok : relay_ok init_allocation.
Proof.
  split; cbn; try done; try apply no_timers_ok.
  all: try (intros; exfalso; by eapply lookup_empty_Some). all: intros []; done.
Qed.

(** What is not about sockets. *)
Definition same_status (a a' : allocation) : Prop :=
  is_valid a' = is_valid a /\ al_tid a' = al_tid a /\ failure4 a' = failure4 a /\ failure6 a' = failure6 a.

(** A relay with its timer. *)
Definition relay_up (a : allocation) (i : bool) (expiration : Z) : Prop :=
  let r := relay_at a i in rs_s r <> 0 /\ rs_expiration_time r = expiration /\ timers (relay_engine a) !! rs_lifetime_ev r = Some i.

Definition relay_down (a : allocation) (i : bool) : Prop := rs_s (relay_at a i) = 0.

(** The lifetimes of the server are numbers of seconds. *)
Record lifetimes_ok (server : turn_turnserver) : Prop := {
  lt_max : 0 < max_allocate_lifetime server < 2 ^ 31;
  lt_time : 0 <= ctime server
}.

Lemma relay_lifetime_range server t :
  lifetimes_ok server -> 0 <= t -> 0 < relay_lifetime server t < 2 ^ 31.
Proof.
  intros [Hm _] Ht. unfold relay_lifetime. rewrite (wrap_small 32) by lia. unfold STUN_DEFAULT_ALLOCATE_LIFETIME. repeat case_match; lia.
Qed.

Lemma int_of_small t : 0 <= t < 2 ^ 31 -> int_of_time t = t.
Proof. intros H. unfold int_of_time. rewrite (proj2 (Z.ltb_lt _ _)) by lia. done. Qed.

(** ** The end of a relay *)

(** The relay of a family after its end. *)
Definition closed_relay (a : allocation) (i : bool) (e : ioa_engine bool) : allocation :=
  set_relay_session (set_relay_engine (set_sockets a (next_socket a) (delete (rs_s (relay_at a i)) (sockets a)) (rtcp_map a)) e) (family_of i)
    (mk_relay 0 (rs_expiration_time (relay_at a i)) 0).

Lemma relay_at_set a i j r : relay_at (set_relay_session a (family_of i) r) j = if decide (i = j) then r else relay_at a j.
Proof. by destruct i, j. Qed.

Lemma closed_relay_ok a i e :
  relay_ok a -> engine_ok e -> timers e = delete (rs_lifetime_ev (relay_at a i)) (timers (relay_engine a)) -> rs_s (relay_at a i) <> 0 ->
  relay_ok (closed_relay a i e).
Proof.
  intros Ha He Et Hs. destruct (ro_socket a Ha i Hs) as (so & Hso & Hf & Hss). unfold closed_relay.
  set (b := set_relay_engine _ _). assert (forall j, relay_at b j = relay_at a j) as Eb by (by intros []).
  split; cbn [relay_engine next_socket sockets rtcp_map set_relay_session].
  - exact He.
  - apply Ha.
  - intros s so'. cbn. intros H%lookup_delete_Some. by apply (ro_handle a Ha s so'), H.
  - intros s so'. cbn. intros H%lookup_delete_Some. by apply (ro_local a Ha s so'), H.
  - intros j. rewrite relay_at_set, Eb. case_decide as E; [done|]. intros Hj. destruct (ro_socket a Ha j Hj) as (so' & H1 & H2 & H3). exists so'.
    split; [|done]. cbn. rewrite lookup_delete_ne; [done|]. intros Eh. rewrite Eh, H1 in Hso. injection Hso as <-. rewrite H2 in Hf. by destruct i, j.
  - intros j. rewrite relay_at_set, Eb. case_decide as E; [done|]. intros Hj. pose proof (ro_timer a Ha j Hj) as Hth. cbn. rewrite Et.
    rewrite lookup_delete_ne; [done|]. intros Eh. pose proof (ro_held a Ha _ _ Hth) as H1.
    destruct (decide (rs_lifetime_ev (relay_at a i) = 0)) as [E0|Hne]; [congruence|]. pose proof (ro_timer a Ha i Hne) as H2. rewrite Eh, Hth in H2. by injection H2 as ->.
  - intros j. rewrite relay_at_set, Eb. case_decide; [done|]. apply (ro_idle a Ha).
  - intros h j. cbn. rewrite Et. intros [Hne Hh]%lookup_delete_Some. pose proof (ro_held a Ha h j Hh) as H. rewrite relay_at_set, Eb.
    case_decide as E; [|done]. subst j. by destruct Hne.
  - intros t s Ht. destruct (ro_reserved a Ha t s Ht) as (so' & j & H1 & H2 & H3 & H4). exists so', j. split; [|done].
    cbn. rewrite lookup_delete_ne; [done|]. intros Eh. rewrite Eh, H1 in Hso. injection Hso as <-. congruence.
  - apply (ro_unique a Ha).
Qed.

Lemma del_timer_ok a i :
  relay_ok a -> exists e, IOA_EVENT_DEL (relay_engine a) (rs_lifetime_ev (relay_at a i)) = Some e /\ engine_ok e /\
    next_timer e = next_timer (relay_engine a) /\ timers e = delete (rs_lifetime_ev (relay_at a i)) (timers (relay_engine a)).
Proof. intros Ha. apply event_del_spec; [apply Ha|]. intros Hne. exists i. by apply (ro_timer a Ha). Qed.

(** Closing the socket, which the session is taken from first. *)
Lemma family_invalid_ok a i :
  relay_ok a -> rs_s (relay_at a i) <> 0 ->
  exists a', set_allocation_family_invalid a (family_of i) = Some a' /\ relay_ok a' /\ same_status a a' /\ relay_down a' i /\
    relay_at a' (negb i) = relay_at a (negb i) /\ sockets a' = delete (rs_s (relay_at a i)) (sockets a) /\ rtcp_map a' = rtcp_map a.
Proof.
  intros Ha Hs. destruct (ro_socket a Ha i Hs) as (so & Hso & Hf & Hss). unfold set_allocation_family_invalid.
  rewrite relay_at_family, index_family, decide_False by done. unfold get_socket at 1. rewrite Hso. mred. rewrite Hss.
  unfold set_ioa_socket_session, set_socket, IOA_CLOSE_SOCKET, get_socket. cbn [sockets set_sockets]. rewrite Hso. mred. rewrite decide_False by done.
  cbn [sockets set_sockets]. rewrite lookup_insert_eq. mred. cbn [relay_engine set_sockets].
  destruct (del_timer_ok a i Ha) as (e & -> & He & _ & Et). mred. eexists. split; [done|].
  assert (delete (rs_s (relay_at a i)) (<[rs_s (relay_at a i) := mk_socket (so_family so) (so_type so) (so_local so) (so_tobeclosed so) (so_no_df so) false (so_reading so)]> (sockets a))
    = delete (rs_s (relay_at a i)) (sockets a)) as -> by (by rewrite delete_insert_eq).
  split; [apply (closed_relay_ok a i e Ha He Et Hs)|]. split_and!; by destruct i.
Qed.

(** The timer of a relay closes it. *)
Lemma relay_timer_ok a th :
  relay_ok a -> is_Some (timers (relay_engine a) !! th) ->
  exists i a' shut, timers (relay_engine a) !! th = Some i /\ relay_timer_event a th = Some (a', shut) /\ relay_ok a' /\ same_status a a' /\
    relay_down a' i /\ relay_at a' (negb i) = relay_at a (negb i) /\ (shut = true <-> relay_down a (negb i)) /\
    sockets a' = delete (rs_s (relay_at a i)) (sockets a) /\ rtcp_map a' = rtcp_map a.
Proof.
  intros Ha [i Hi]. pose proof (ro_held a Ha _ _ Hi) as Hev. pose proof (ro_engine a Ha) as [_ Hpos]. specialize (Hpos _ _ Hi).
  assert (rs_s (relay_at a i) <> 0) as Hs by (intros E; pose proof (ro_idle a Ha i E); lia).
  destruct (family_invalid_ok a i Ha Hs) as (a' & Hrun & Ha' & Hst & Hdown & Hother & Hsock & Hres).
  exists i, a', (bool_decide (rs_s (relay4 a') = 0 /\ rs_s (relay6 a') = 0)). split; [done|]. unfold relay_timer_event. rewrite Hi. mred.
  unfold client_ss_allocation_timeout_handler. fold (relay_at a i). rewrite decide_False by done.
  destruct (ro_socket a Ha i Hs) as (so & Hso & Hf & Hss). unfold get_ioa_socket_address_family, get_socket. rewrite Hso. mred. rewrite Hss. cbn [negb].
  rewrite decide_False by done. mred. rewrite Hf, Hrun. mred. split; [done|]. split; [done|]. split; [done|]. split; [done|]. split; [done|]. split; [|done].
  rewrite bool_decide_eq_true. unfold relay_down in *. rewrite <- Hother. destruct i; cbn in *; split; try tauto.
Qed.

(** ** Timers that are set *)

Definition timers_ok (a : allocation) : Prop :=
  engine_ok (relay_engine a) /\
  (forall i, rs_lifetime_ev (relay_at a i) <> 0 -> timers (relay_engine a) !! rs_lifetime_ev (relay_at a i) = Some i) /\
  (forall h i, timers (relay_engine a) !! h = Some i -> rs_lifetime_ev (relay_at a i) = h).

Lemma relay_timers a : relay_ok a -> timers_ok a.
Proof. intros Ha. split; [apply Ha|]. split; [apply (ro_timer a Ha)|apply (ro_held a Ha)]. Qed.

(** A new timer replaces that of a relay. *)
Lemma lifetime_ev_ok a i exp secs (ok : bool) :
  timers_ok a -> 0 < secs ->
  exists ev e e', set_ioa_timer (relay_engine a) secs i ok = (ev, e) /\
    let a' := set_relay_session (set_relay_engine a e') (family_of i) (mk_relay (rs_s (relay_at a i)) exp ev) in
    set_allocation_lifetime_ev (set_relay_engine a e) exp ev (family_of i) = Some a' /\ timers_ok a' /\
    (ok = true -> timers e' !! ev = Some i).
Proof.
  intros (He & Hev & Hheld) Hs. destruct ok.
  - destruct (set_timer_spec (relay_engine a) secs i He Hs) as (ev & e & Hset & He1 & Hpos & Hfree & Et). rewrite Hset.
    destruct (event_del_spec e (rs_lifetime_ev (relay_at a i)) He1) as (e' & Hdel & He' & _ & Et').
    { intros Hne. rewrite Et. exists i. rewrite lookup_insert_ne; [by apply Hev|]. intros E. rewrite E, Hev in Hfree by done. done. }
    exists ev, e, e'. split; [done|]. cbn zeta. assert (timers e' !! ev = Some i) as Hevi.
    { rewrite Et', lookup_delete_ne; [by rewrite Et, lookup_insert_eq|]. intros E. destruct (decide (rs_lifetime_ev (relay_at a i) = 0)); [lia|].
      rewrite <- E, Hev in Hfree by done. done. }
    split; [|split; [|done]].
    + unfold set_allocation_lifetime_ev. rewrite relay_at_family, index_family. assert (relay_at (set_relay_engine a e) i = relay_at a i) as -> by (by destruct i).
      cbn [relay_engine set_relay_engine]. rewrite Hdel. mred. by destruct i.
    + split; [exact He'|]. split.
      * intros j. rewrite relay_at_set. cbn [relay_engine set_relay_session set_relay_engine]. case_decide as E; [subst j; done|].
        assert (relay_at (set_relay_engine a e') j = relay_at a j) as -> by (by destruct j). intros Hj. pose proof (Hev j Hj) as H.
        rewrite Et', lookup_delete_ne, Et, lookup_insert_ne; [done| |]; intros Ee; [by rewrite Ee, H in Hfree|].
        destruct (decide (rs_lifetime_ev (relay_at a i) = 0)) as [E0|Hne]; [congruence|]. pose proof (Hev i Hne) as H'. rewrite Ee, H in H'. by injection H' as ->.
      * intros h j. cbn [relay_engine set_relay_session set_relay_engine]. rewrite Et', Et. intros [Hne Hh]%lookup_delete_Some. rewrite relay_at_set.
        assert (relay_at (set_relay_engine a e') j = relay_at a j) as -> by (by destruct j).
        apply lookup_insert_Some in Hh as [[<- <-]|[Hne' Hh]]; [by rewrite decide_True|]. case_decide as E; [|by apply Hheld]. subst j. destruct Hne. by apply Hheld.
  - unfold set_ioa_timer. rewrite andb_false_r. destruct (event_del_spec (relay_engine a) (rs_lifetime_ev (relay_at a i)) He) as (e' & Hdel & He' & _ & Et').
    { intros Hne. exists i. by apply Hev. }
    exists 0, (relay_engine a), e'. split; [done|]. cbn zeta. split; [|split; [|done]].
    + unfold set_allocation_lifetime_ev. rewrite relay_at_family, index_family. assert (relay_at (set_relay_engine a (relay_engine a)) i = relay_at a i) as -> by (by destruct i).
      cbn [relay_engine set_relay_engine]. rewrite Hdel. mred. by destruct i.
    + split; [exact He'|]. split.
      * intros j. rewrite relay_at_set. cbn [relay_engine set_relay_session set_relay_engine]. case_decide as E; [done|].
        assert (relay_at (set_relay_engine a e') j = relay_at a j) as -> by (by destruct j). intros Hj. pose proof (Hev j Hj) as H.
        rewrite Et', lookup_delete_ne; [done|]. intros Ee.
        destruct (decide (rs_lifetime_ev (relay_at a i) = 0)) as [E0|Hne]; [congruence|]. pose proof (Hev i Hne) as H'. rewrite Ee, H in H'. by injection H' as ->.
      * intros h j. cbn [relay_engine set_relay_session set_relay_engine]. rewrite Et'. intros [Hne Hh]%lookup_delete_Some. rewrite relay_at_set.
        assert (relay_at (set_relay_engine a e') j = relay_at a j) as -> by (by destruct j). case_decide as E; [|by apply Hheld]. subst j. destruct Hne. by apply Hheld.
Qed.

Definition refresh_lifetime (lifetime : Z) : Z := if lifetime <? 1 then 1 else lifetime.

(** A valid allocation is refreshed: the relay ends after the given time. *)
Lemma relay_refresh_ok server a i lifetime ok :
  relay_ok a -> is_valid a = true -> rs_s (relay_at a i) <> 0 -> 0 <= lifetime < 2 ^ 31 ->
  exists a', refresh_relay_connection server a ok lifetime (family_of i) = Some (0, a') /\ relay_ok a' /\ same_status a a' /\
    relay_at a' (negb i) = relay_at a (negb i) /\ sockets a' = sockets a /\ next_socket a' = next_socket a /\ rtcp_map a' = rtcp_map a /\
    rs_s (relay_at a' i) = rs_s (relay_at a i) /\
    (ok = true -> relay_up a' i (u32 (ctime server + refresh_lifetime lifetime))).
Proof.
  intros Ha Hv Hs Hl. unfold refresh_relay_connection. rewrite Hv. cbn [negb]. fold (refresh_lifetime lifetime). set (t := refresh_lifetime lifetime).
  assert (0 < t < 2 ^ 31) as Ht by (unfold t, refresh_lifetime; case_match; lia). rewrite int_of_small, index_family by lia.
  destruct (lifetime_ev_ok a i (u32 (ctime server + t)) t ok (relay_timers a Ha)) as (ev & e & e' & -> & -> & (He & Hev & Hheld) & Hok); [lia|]. mred.
  set (a' := set_relay_session _ _ _) in *. exists a'. split; [done|].
  assert (forall j, rs_s (relay_at a' j) = rs_s (relay_at a j)) as Es.
  { intros j. unfold a'. rewrite relay_at_set. assert (relay_at (set_relay_engine a e') j = relay_at a j) as -> by (by destruct j). case_decide as E; [by subst j|done]. }
  split; [|split; [by split_and!|]].
  - split; try done; try apply Ha.
    + intros j. rewrite Es. apply (ro_socket a Ha).
    + intros j. rewrite Es. intros E. unfold a'. rewrite relay_at_set. case_decide as Ej; [by subst j|].
      assert (relay_at (set_relay_engine a e') j = relay_at a j) as -> by (by destruct j). by apply (ro_idle a Ha).
  - assert (relay_at a' i = mk_relay (rs_s (relay_at a i)) (u32 (ctime server + t)) ev) as Ei by (unfold a'; rewrite relay_at_set; by rewrite decide_True).
    split; [by destruct i|]. do 3 (split; [done|]). split; [apply Es|]. intros E. unfold relay_up. rewrite Ei. cbn [rs_s rs_expiration_time rs_lifetime_ev].
    split; [done|]. split; [done|]. by apply Hok.
Qed.

(** ** A new relay *)

(** A socket of the engine that neither the session nor a reservation holds. *)
Definition spare (a : allocation) (i : bool) (h : Z) : Prop :=
  exists so, sockets a !! h = Some so /\ so_family so = family_of i /\ so_session so = false /\ so_reading so = false /\
    forall t, rtcp_map a !! t <> Some h.

(** It becomes the socket of a relay. *)
Lemma give_socket_ok b i h so exp ev e :
  relay_ok b -> relay_down b i -> spare b i h -> so_family so = family_of i -> so_session so = true -> local_ok so ->
  let a := set_relay_session (set_relay_engine (set_sockets b (next_socket b) (<[h := so]> (sockets b)) (rtcp_map b)) e) (family_of i) (mk_relay h exp ev) in
  timers_ok a -> relay_ok a.
Proof.
  intros Hb Hdown (so0 & Hso & Hf & Hss & _ & Hres) Hf' Hss' Hloc a (He & Hev & Hheld). pose proof (ro_handle b Hb h so0 Hso) as Hh.
  assert (forall j, relay_at a j = if decide (i = j) then mk_relay h exp ev else relay_at b j) as Er.
  { intros j. unfold a. rewrite relay_at_set. by destruct j. }
  split; try done.
  - apply Hb.
  - intros s so'. cbn. intros [[<- _]|[_ H]]%lookup_insert_Some; [done|by apply (ro_handle b Hb s so')].
  - intros s so'. cbn. intros [[_ <-]|[_ H]]%lookup_insert_Some; [done|by apply (ro_local b Hb s so')].
  - intros j. rewrite Er. case_decide as E; [subst j; intros _; exists so; cbn; by rewrite lookup_insert_eq|].
    intros Hj. destruct (ro_socket b Hb j Hj) as (so' & H1 & H2 & H3). exists so'. split; [|done]. cbn. rewrite lookup_insert_ne; [done|]. intros E'. rewrite <- E', Hso in H1.
    injection H1 as <-. congruence.
  - intros j. rewrite Er. case_decide as E; [cbn; lia|]. apply (ro_idle b Hb).
  - intros t s Ht. cbn in Ht. destruct (ro_reserved b Hb t s Ht) as (so' & j & H1 & H2). exists so', j. split; [|done]. cbn. rewrite lookup_insert_ne; [done|].
    intros E. subst s. by destruct (Hres t).
  - apply Hb.
Qed.

Definition with_df (so : ioa_socket) : ioa_socket :=
  mk_socket (so_family so) (so_type so) (so_local so) (so_tobeclosed so) true (so_session so) (so_reading so).

(** The socket at the end of [start_relay]. *)
Definition started (so : ioa_socket) (df : bool) : ioa_socket :=
  mk_socket (so_family so) (so_type so) (so_local so) (so_tobeclosed so) (df || so_no_df so) true
    (if decide (so_type so <> TCP_SOCKET) then true else so_reading so).

Lemma start_relay_ok server client b i h rtcp_s out lifetime timer :
  relay_ok b -> relay_down b i -> spare b i h -> (rtcp_s = 0 \/ ro_token out <> 0) -> lifetimes_ok server -> 0 <= lifetime ->
  exists a', start_relay server client (set_relay_session b (family_of i) (mk_relay h 0 0)) timer lifetime (family_of i) rtcp_s out = Some (0, a', out) /\
    relay_ok a' /\ same_status b a' /\ relay_at a' (negb i) = relay_at b (negb i) /\ rs_s (relay_at a' i) = h /\ rtcp_map a' = rtcp_map b /\
    (exists so df, sockets b !! h = Some so /\ sockets a' = <[h := started so df]> (sockets b)) /\
    (timer = true -> relay_up a' i (u32 (ctime server + relay_lifetime server lifetime))).
Proof.
  intros Hb Hdown Hsp Hrtcp Hlt Hl. pose proof Hsp as (so & Hso & Hf & Hss & Hrd & _). pose proof (ro_handle b Hb h so Hso) as Hh.
  set (a1 := set_relay_session b _ _). assert (relay_at a1 i = mk_relay h 0 0) as Er1 by (unfold a1; rewrite relay_at_set; by rewrite decide_True).
  unfold start_relay. rewrite relay_at_family, index_family, Er1. cbn [rs_s rs_expiration_time rs_lifetime_ev]. rewrite decide_False by lia.
  rewrite decide_False by tauto. unfold get_ioa_socket_address_family. rewrite decide_False by lia.
  assert (get_socket a1 h = Some so) as -> by done. mred. rewrite Hf.
  set (df := bool_decide (family_of i = AF_INET6 \/ client_family client = AF_INET6)).
  set (so2 := mk_socket (so_family so) (so_type so) (so_local so) (so_tobeclosed so) (df || so_no_df so) false (so_reading so)).
  assert (exists s2, (if decide (family_of i = AF_INET6 \/ client_family client = AF_INET6) then set_do_not_use_df a1 h else Some a1)
      = Some (set_sockets a1 (next_socket b) s2 (rtcp_map b)) /\ s2 = <[h := so2]> (sockets b)) as (s2 & -> & Es2).
  { unfold so2, df. destruct (decide _) as [Hd|Hd]; [rewrite bool_decide_true by done|rewrite bool_decide_false by done].
    - eexists. split; [|reflexivity]. unfold set_do_not_use_df, set_socket, get_socket. assert (sockets a1 !! h = Some so) as -> by done. mred. do 3 f_equal. cbn [orb]. by rewrite Hss.
    - exists (sockets b). split; [by destruct b, i|]. rewrite insert_id; [done|]. rewrite Hso. cbn. f_equal. destruct so; cbn in *. by subst. }
  mred. assert (get_socket (set_sockets a1 (next_socket b) s2 (rtcp_map b)) h = Some so2) as Hs2 by (unfold get_socket; cbn; by rewrite Es2, lookup_insert_eq).
  rewrite Hs2. mred. set (so3 := mk_socket (so_family so) (so_type so) (so_local so) (so_tobeclosed so) (df || so_no_df so) false (if decide (so_type so <> TCP_SOCKET) then true else so_reading so)).
  assert (exists s3, (if decide (so_type so2 <> TCP_SOCKET) then register_callback_on_ioa_socket (set_sockets a1 (next_socket b) s2 (rtcp_map b)) h
      else Some (0, set_sockets a1 (next_socket b) s2 (rtcp_map b))) = Some (0, set_sockets a1 (next_socket b) s3 (rtcp_map b)) /\ s3 = <[h := so3]> (sockets b)) as (s3 & -> & Es3).
  { unfold so3. cbn [so2 so_type]. destruct (decide _) as [Ht|Ht]; [|by exists s2].
    eexists. unfold register_callback_on_ioa_socket, set_socket. rewrite Hs2. mred. replace (so_reading so2) with false by done. mred.
    split; [reflexivity|]. rewrite Es2. cbn. by rewrite insert_insert_eq. }
  mred. rewrite decide_False by lia. set (b3 := set_sockets a1 (next_socket b) s3 (rtcp_map b)).
  pose proof (relay_lifetime_range server lifetime Hlt Hl) as Hr. rewrite int_of_small by lia.
  assert (forall j, relay_at b3 j = if decide (i = j) then mk_relay h 0 0 else relay_at b j) as Eb3.
  { intros j. unfold b3, a1. pose proof (relay_at_set b i j (mk_relay h 0 0)) as <-. by destruct j. }
  assert (timers_ok b3) as Ht3.
  { destruct (relay_timers b Hb) as (T1 & T2 & T3). split; [exact T1|]. split.
    - intros j. rewrite Eb3. case_decide; [done|]. apply T2.
    - intros h' j Hj. rewrite Eb3. case_decide as E; [|by apply T3]. subst j. pose proof (T3 h' i Hj) as E. rewrite (ro_idle b Hb i Hdown) in E. subst h'.
      destruct T1 as [_ T1]. specialize (T1 _ _ Hj). lia. }
  destruct (lifetime_ev_ok b3 i (u32 (ctime server + relay_lifetime server lifetime)) (relay_lifetime server lifetime) timer Ht3)
    as (ev & e & e' & -> & -> & Ht4 & Hev); [lia|]. mred. rewrite Eb3, decide_True in Ht4 |- * by done. cbn [rs_s] in *.
  match goal with |- context [set_ioa_socket_session ?x] => set (b4 := x) in * end.
  unfold set_ioa_socket_session, set_socket, get_socket. assert (sockets b4 !! h = Some so3) as -> by (cbn; by rewrite Es3, lookup_insert_eq). mred.
  eexists. split; [reflexivity|]. set (a' := set_sockets _ _ _ _).
  assert (a' = set_relay_session (set_relay_engine (set_sockets b (next_socket b) (<[h := started so df]> (sockets b)) (rtcp_map b)) e') (family_of i)
    (mk_relay h (u32 (ctime server + relay_lifetime server lifetime)) ev)) as Ea.
  { unfold a', b4, b3, a1, started. cbn. rewrite Es3, insert_insert_eq. by destruct i. }
  assert (timers_ok a') as Ht5 by (split; [apply Ht4|]; split; intros; apply Ht4; done).
  split; [rewrite Ea; apply give_socket_ok; try done; [by apply (ro_local b Hb h so)|by rewrite <- Ea]|]. rewrite Ea. split; [by split_and!|].
  split; [by destruct i|]. split; [by destruct i|]. split; [done|]. split; [by exists so, df|].
  intros Hok. unfold relay_up. rewrite relay_at_set, decide_True by done. cbn [rs_s rs_expiration_time rs_lifetime_ev]. split; [lia|]. split; [done|]. by apply Hev.
Qed.

(** ** What the engine answers *)

Definition new_socket_ok (f : Z) (so : ioa_socket) : Prop :=
  so_family so = f /\ so_session so = false /\ so_reading so = false /\ so_tobeclosed so = false /\ local_ok so.

Definition error_code_ok (e : Z) : Prop := 300 <= e < 700.

(** [create_relay_ioa_sockets] gives open sockets of the family, and a token with a second
    one; or no socket. *)
Record answer_ok (f : Z) (ans : socket_answer) : Prop := {
  an_failed : an_res ans < 0 -> an_rtp ans = None /\ an_rtcp ans = None /\ (an_err ans = 0 \/ error_code_ok (an_err ans)) /\ phrase_ok (an_reason ans);
  an_done : 0 <= an_res ans -> (exists so, an_rtp ans = Some so /\ new_socket_ok f so) /\ an_err ans = 0 /\ an_reason ans = None;
  an_second so : an_rtcp ans = Some so -> new_socket_ok f so /\ an_token ans <> 0
}.

(** An error with its reason. *)
Definition out_error (o : relay_out) : Prop := error_code_ok (ro_err o) /\ exists r, ro_reason o = Some r /\ phrase_ok (Some r).

Lemma out_error_str t e s : error_code_ok e -> forallb (fun c => negb (c =? 0)) (str_bytes s) = true -> out_error (mk_relay_out t e (Some (cstr s))).
Proof. intros He Hs. split; [done|]. exists (cstr s). split; [done|]. by apply phrase_cstr, str_nonzero. Qed.

(** One more socket of the engine. *)
Lemma open_socket_ok a i so :
  relay_ok a -> new_socket_ok (family_of i) so ->
  exists a', open_socket a (Some so) = (next_socket a, a') /\ relay_ok a' /\ spare a' i (next_socket a) /\ same_status a a' /\
    (forall j, relay_at a' j = relay_at a j) /\ (forall j h, spare a j h -> spare a' j h) /\ next_socket a' = next_socket a + 1 /\
    sockets a' = <[next_socket a := so]> (sockets a) /\ rtcp_map a' = rtcp_map a.
Proof.
  intros Ha (Hf & Hss & Hrd & Htb & Hloc). pose proof (ro_next a Ha) as Hn. eexists. split; [done|]. set (a' := set_sockets _ _ _ _).
  assert (sockets a !! next_socket a = None) as Hfree by (destruct (sockets a !! next_socket a) eqn:E; [pose proof (ro_handle a Ha _ _ E); lia|done]).
  assert (forall s so', sockets a !! s = Some so' -> sockets a' !! s = Some so') as Hkeep.
  { intros s so' H. cbn. rewrite lookup_insert_ne; [done|]. intros E. by rewrite <- E, Hfree in H. }
  assert (forall j, relay_at a' j = relay_at a j) as Er by (by intros []).
  split; [|split; [|split; [by split_and!|split; [done|split]]]].
  - split; try apply Ha; try (intros j; rewrite Er; apply Ha); cbn [next_socket set_sockets a'].
    + lia.
    + intros s so'. cbn. intros [[<- _]|[_ H]]%lookup_insert_Some; [lia|]. pose proof (ro_handle a Ha s so' H). lia.
    + intros s so'. cbn. intros [[_ <-]|[_ H]]%lookup_insert_Some; [done|]. by apply (ro_local a Ha s so').
    + intros j. rewrite Er. intros Hj. destruct (ro_socket a Ha j Hj) as (so' & H1 & H2). exists so'. split; [by apply Hkeep|done].
    + intros t s Ht. destruct (ro_reserved a Ha t s Ht) as (so' & j & H1 & H2). exists so', j. split; [by apply Hkeep|done].
  - exists so. split; [cbn; by rewrite lookup_insert_eq|]. split_and!; try done. intros t Ht. destruct (ro_reserved a Ha t _ Ht) as (so' & j & H1 & _). congruence.
  - intros j h (so' & H1 & H2). exists so'. split; [by apply Hkeep|done].
  - done.
Qed.

(** A spare socket is reserved. *)
Lemma reserve_ok a i h t :
  relay_ok a -> spare a i h -> (forall so, sockets a !! h = Some so -> so_tobeclosed so = false) ->
  let a' := set_sockets a (next_socket a) (sockets a) (<[t := h]> (rtcp_map a)) in
  relay_ok a' /\ (forall j h', h' <> h -> spare a j h' -> spare a' j h').
Proof.
  intros Ha (so & Hso & Hf & Hss & Hrd & Hno) Hopen a'. split.
  - split; try apply Ha; cbn.
    + intros t' s [[<- <-]|[_ H]]%lookup_insert_Some; [exists so, i; split_and!; try done; by apply Hopen|]. by apply (ro_reserved a Ha t').
    + intros t1 t2 s [[<- <-]|[_ H1]]%lookup_insert_Some [[<- E]|[_ H2]]%lookup_insert_Some; [done|by destruct (Hno t2)|subst s; by destruct (Hno t1)|].
      by apply (ro_unique a Ha t1 t2 s).
  - intros j h' Hne (so' & H1 & H2 & H3 & H4 & H5). exists so'. split_and!; try done. cbn. intros t'. destruct (decide (t = t')) as [<-|]; [rewrite lookup_insert_eq; congruence|].
    rewrite lookup_insert_ne by done. apply H5.
Qed.

(** A reservation is claimed. *)
Lemma claim_ok a t h :
  relay_ok a -> rtcp_map a !! t = Some h ->
  let a' := set_sockets a (next_socket a) (sockets a) (delete t (rtcp_map a)) in
  relay_ok a' /\ exists i, spare a' i h.
Proof.
  intros Ha Ht a'. destruct (ro_reserved a Ha t h Ht) as (so & i & H1 & H2 & H3 & H4 & H5). split.
  - split; try apply Ha; cbn.
    + intros t' s [_ H]%lookup_delete_Some. by apply (ro_reserved a Ha t').
    + intros t1 t2 s [_ K1]%lookup_delete_Some [_ K2]%lookup_delete_Some. by apply (ro_unique a Ha t1 t2 s).
  - exists i, so. split_and!; try done. cbn. intros t' [Hne E]%lookup_delete_Some. apply Hne. by apply (ro_unique a Ha t t' h).
Qed.

(** ** Creating a relay *)

Definition relays_kept (a a' : allocation) : Prop :=
  forall j, rs_s (relay_at a' j) = rs_s (relay_at a j) /\ (rs_s (relay_at a j) <> 0 -> relay_at a' j = relay_at a j).

Lemma close_none a : IOA_CLOSE_SOCKET a 0 = Some a.
Proof. done. Qed.

Lemma reset_relay_ok a i : relay_ok a -> relay_down a i -> relay_ok (set_relay_session a (family_of i) no_relay).
Proof.
  intros Ha Hd. pose proof (ro_idle a Ha i Hd) as He.
  assert (forall j, rs_s (relay_at (set_relay_session a (family_of i) no_relay) j) = rs_s (relay_at a j) /\
    rs_lifetime_ev (relay_at (set_relay_session a (family_of i) no_relay) j) = rs_lifetime_ev (relay_at a j)) as Hk.
  { intros j. rewrite relay_at_set. case_decide as E; [subst j; by rewrite Hd, He|done]. }
  split; try apply Ha.
  - intros j. destruct (Hk j) as [-> _]. apply (ro_socket a Ha).
  - intros j. destruct (Hk j) as [_ ->]. apply (ro_timer a Ha).
  - intros j. destruct (Hk j) as [-> ->]. apply (ro_idle a Ha).
  - intros h j. destruct (Hk j) as [_ ->]. apply (ro_held a Ha).
Qed.

(** What [relay_socket_of] found: a socket for the relay of one family. *)
Definition socket_found (a : allocation) (out : relay_out) (i : bool) (rtcp_s : Z) (a1 : allocation) (out1 : relay_out) : Prop :=
  exists b h, a1 = set_relay_session b (family_of i) (mk_relay h 0 0) /\ relay_ok b /\ relay_down b i /\ spare b i h /\ same_status a b /\
    relay_at b (negb i) = relay_at a (negb i) /\ (rtcp_s = 0 \/ ro_token out1 <> 0) /\ ro_err out1 = ro_err out /\ ro_reason out1 = ro_reason out.

Definition socket_refused (a a1 : allocation) (out1 : relay_out) : Prop :=
  relay_ok a1 /\ same_status a a1 /\ relays_kept a a1 /\ out_error out1.

Section create.
Context (server : turn_turnserver) (client : option client_socket) (Hlt : lifetimes_ok server).

Lemma reserved_socket_ok a ans af token out :
  relay_ok a -> (forall i, relay_down a i) -> token <> 0 ->
  (exists i a1, relay_socket_of server client a ans af token out = Some (Some (family_of i, 0), a1, out) /\ socket_found a out i 0 a1 out) \/
  exists a1 out1, relay_socket_of server client a ans af token out = Some (None, a1, out1) /\ socket_refused a a1 out1.
Proof.
  intros Ha Hd Ht. unfold relay_socket_of. rewrite decide_True by done. unfold get_ioa_socket_from_reservation.
  destruct (rtcp_map a !! token) as [h|] eqn:Eh; [left|right].
  - destruct (claim_ok a token h Ha Eh) as (Hb & i & Hsp). set (b := set_sockets _ _ _ _) in *.
    destruct (ro_reserved a Ha token h Eh) as (so & i' & Hso & Hf & _ & _ & Htb). pose proof (ro_handle a Ha h so Hso) as Hpos. rewrite (decide_False (P := h = 0)) by lia.
    assert (i' = i) as -> by (destruct Hsp as (so' & H1 & H2 & _); cbn in H1; rewrite Hso in H1; injection H1 as <-; rewrite Hf in H2; by destruct i, i').
    unfold ioa_socket_tobeclosed, get_ioa_socket_address_family. rewrite (decide_False (P := h = 0)) by lia. assert (get_socket b h = Some so) as -> by done. mred. rewrite Htb.
    rewrite Hf. mred. rewrite (decide_False (P := h = 0)) by lia. mred. rewrite ?Hf, relay_at_family, index_family.
    assert (relay_at b i = relay_at a i) as Er by (by destruct i). rewrite Er. rewrite (Hd i). rewrite decide_True by lia. cbn. mred.
    exists i, (set_relay_session b (family_of i) (mk_relay h 0 0)). split; [by destruct i|]. exists b, h. split; [done|]. split; [done|].
    split; [unfold relay_down; rewrite Er; apply Hd|]. split; [done|]. split; [done|]. split; [by destruct i|]. by split_and!; [left|..].
  - rewrite decide_True by done. eexists _, _. split; [done|]. split; [done|]. split; [done|]. split; [done|]. by apply out_error_str.
Qed.

Lemma new_sockets_ok a i ans af out :
  relay_ok a -> relay_down a i -> get_family af (default_relays server) client = family_of i -> answer_ok (family_of i) ans ->
  (exists rtcp_s a1 out1, relay_socket_of server client a ans af 0 out = Some (Some (family_of i, rtcp_s), a1, out1) /\ socket_found a out i rtcp_s a1 out1) \/
  exists a1 out1, relay_socket_of server client a ans af 0 out = Some (None, a1, out1) /\ (ro_err out = 0 -> phrase_ok (ro_reason out) -> socket_refused a a1 out1).
Proof.
  intros Ha Hd Hfam [Hfail Hdone Hsecond]. unfold relay_socket_of. rewrite decide_False by lia. rewrite Hfam, relay_at_family, index_family. rewrite (Hd : rs_s (relay_at a i) = 0).
  rewrite close_none. mred. destruct (decide (an_res ans < 0)) as [Hneg|Hpos]; [right|left].
  - destruct (Hfail Hneg) as (-> & -> & Herr & Hre). cbn [open_socket]. rewrite !close_none. mred. rewrite close_none. mred. eexists _, _. split; [done|].
    intros Eo Hout. assert (set_relay_session (set_relay_session a (family_of i) (mk_relay 0 0 0)) (family_of i) no_relay = set_relay_session a (family_of i) no_relay) as -> by (by destruct i).
    split; [by apply reset_relay_ok|]. split; [done|]. split.
    + intros j. rewrite relay_at_set. case_decide as E; [subst j; by rewrite Hd|done].
    + rewrite Eo. split; cbn [ro_err ro_reason].
      * destruct Herr as [->|Herr]; [done|]. unfold error_code_ok in *. repeat case_decide; lia.
      * destruct (an_reason ans) as [r|]; [by exists r|]. destruct (ro_reason out) as [r|]; [by exists r|]. eexists. split; [done|]. apply phrase_cstr, str_nonzero. done.
  - destruct Hdone as ((so & -> & Hso) & -> & ->); [lia|].
    destruct (open_socket_ok a i so Ha Hso) as (b & -> & Hb & Hsp & Hst & Hr & Hkeep & Hn & Hs & Hm). clear Hso.
    assert (match ro_reason out with Some r => Some r | None => None end = ro_reason out) as Ereason by (by destruct (ro_reason out)).
    destruct (an_rtcp ans) as [so2|] eqn:E2.
    + destruct (Hsecond so2 eq_refl) as [Hso2 Htok]. destruct (open_socket_ok b i so2 Hb Hso2) as (c & -> & Hc & Hsp2 & Hst2 & Hr2 & Hkeep2 & Hn2 & Hs2 & Hm2).
      pose proof (ro_next a Ha). rewrite (decide_True (P := next_socket b <> 0 /\ an_token ans <> 0)) by (split; [lia|done]). rewrite (decide_False (P := an_token ans = 0)) by done.
      destruct (reserve_ok c i (next_socket b) (an_token ans) Hc Hsp2) as [Hd' Hkeep3].
      { intros so' H'. rewrite Hs2, lookup_insert_eq in H'. injection H' as <-. apply Hso2. }
      eexists _, _, _. split; [reflexivity|]. eexists (set_sockets c (next_socket c) (sockets c) (<[an_token ans := next_socket b]> (rtcp_map c))), (next_socket a).
      split; [by destruct i|]. split; [exact Hd'|]. assert (forall j, relay_at (set_sockets c (next_socket c) (sockets c) (<[an_token ans:=next_socket b]> (rtcp_map c))) j = relay_at a j) as Er
        by (intros j; rewrite <- Hr, <- Hr2; by destruct j).
      split; [unfold relay_down; rewrite Er; apply Hd|]. split; [apply Hkeep3; [lia|by apply Hkeep2]|].
      split; [unfold same_status in *; cbn; intuition congruence|]. split; [by rewrite Er|]. split; [by right|]. by split.
    + cbn [open_socket]. rewrite (decide_False (P := 0 <> 0 /\ an_token ans <> 0)) by tauto. eexists _, _, _. split; [reflexivity|].
      exists b, (next_socket a). split; [done|]. split; [done|]. split; [unfold relay_down; rewrite Hr; apply Hd|]. split; [done|]. split; [done|].
      split; [done|]. split; [by left|]. by split.
Qed.

(** A relay was made, or none and there is an error with its reason. *)
Definition relay_made (a : allocation) (timer : bool) (lifetime : Z) (i : bool) (a' : allocation) : Prop :=
  relay_at a' (negb i) = relay_at a (negb i) /\ rs_s (relay_at a' i) <> 0 /\
  (timer = true -> relay_up a' i (u32 (ctime server + relay_lifetime server lifetime))).

Lemma create_relay_ok a i ans lifetime af token out :
  client_open client = true -> relay_ok a -> relay_down a i -> (token <> 0 -> relay_down a (negb i)) -> 0 <= lifetime ->
  get_family af (default_relays server) client = family_of i -> answer_ok (family_of i) (ra_sockets ans) -> ro_err out = 0 -> phrase_ok (ro_reason out) ->
  exists res a' out', create_relay_connection server client a ans lifetime af token out = Some (res, a', out') /\ relay_ok a' /\ same_status a a' /\
    (res = 0 /\ (exists j, (token = 0 -> j = i) /\ relay_made a (ra_timer ans) lifetime j a') /\ ro_err out' = 0 /\ ro_reason out' = ro_reason out \/
     res = -1 /\ relays_kept a a' /\ out_error out').
Proof.
  intros Hcl Ha Hd Hd' Hl Hfam Hans Ho Hre. unfold create_relay_connection. rewrite Hcl. cbn [negb].
  assert (forall i rtcp_s a1 out1, socket_found a out i rtcp_s a1 out1 ->
    exists a', start_relay server client a1 (ra_timer ans) lifetime (family_of i) rtcp_s out1 = Some (0, a', out1) /\ relay_ok a' /\ same_status a a' /\
      relay_made a (ra_timer ans) lifetime i a' /\ ro_err out1 = 0 /\ ro_reason out1 = ro_reason out) as Hstart.
  { intros i' rtcp_s a1 out1 (b & h & -> & Hb & Hbd & Hsp & Hst & Hoth & Hrt & He & Hr).
    destruct (start_relay_ok server client b i' h rtcp_s out1 lifetime (ra_timer ans) Hb Hbd Hsp Hrt Hlt Hl) as (a' & E & Ha' & Hst' & Hoth' & Hh & _ & _ & Hup).
    exists a'. split; [exact E|]. split; [done|]. split; [unfold same_status in *; intuition congruence|]. split; [|by split; congruence].
    split; [congruence|]. split; [|exact Hup]. rewrite Hh. destruct Hsp as (so & Hso & _). pose proof (ro_handle b Hb h so Hso). lia. }
  destruct (decide (token = 0)) as [->|Ht].
  - destruct (new_sockets_ok a i (ra_sockets ans) af out Ha Hd Hfam Hans) as [(rtcp_s & a1 & out1 & -> & Hf)|(a1 & out1 & -> & Hno)]; mred.
    + destruct (Hstart i rtcp_s a1 out1 Hf) as (a' & -> & Ha' & Hst & Hmade & He & Hr). eexists _, _, _. split; [done|]. split; [done|]. split; [done|]. left.
      split; [done|]. split; [by exists i|]. by split.
    + destruct (Hno Ho Hre) as (H1 & H2 & H3 & H4). eexists _, _, _. split; [done|]. split; [done|]. split; [done|]. by right.
  - assert (forall j, relay_down a j) as Hall by (intros j; destruct (decide (j = i)) as [->|Hne]; [done|]; replace j with (negb i) by (by destruct i, j); auto).
    destruct (reserved_socket_ok a (ra_sockets ans) af token out Ha Hall Ht) as [(j & a1 & -> & Hf)|(a1 & out1 & -> & H1 & H2 & H3 & H4)]; mred.
    + destruct (Hstart j 0 a1 out Hf) as (a' & -> & Ha' & Hst & Hmade & He & Hr). eexists _, _, _. split; [done|]. split; [done|]. split; [done|]. left.
      split; [done|]. split; [by exists j|]. by split.
    + eexists _, _, _. split; [done|]. split; [done|]. split; [done|]. by right.
Qed.

End create.
