(* ===== verification/Allocate.v ===== *)
(** * Allocate and Refresh [server/ns_turn_server.c]

    The session as the handlers see it, and the two requests that make, keep and end its
    relay sockets.  Statistics and log messages have no counterpart. *)

From S2P Require Import Prelude CString IoAddr MsgAddr StunHeader StunAttr StunFields Integrity IoTimer Permission Session AttrWalk Handlers Auth RelaySession.
From stdpp Require Import gmap.
#[global] Open Scope Z_scope.

(** ** The session *)

(** The members that the handlers change besides the credentials and the allocation.
    [mobile_map] holds the keys of the server's map of mobile sessions. *)
Record session_vars := mk_vars {
  sv_tcp_relay : bool;
  sv_mobile : bool;
  sv_quota_used : bool;
  sv_bps : Z;
  sv_mobile_id : Z;
  sv_s_mobile_id : list Z;
  sv_mobile_map : gset Z;
  sv_origin_set : bool;
  sv_origin : list Z;
  sv_to_be_closed : bool;
  sv_enforce_fingerprints : Z
}.

Record ts_ur_super_session := mk_ss {
  us_auth : auth_state;
  us_alloc : allocation;
  us_tables : tables;
  us_client : option client_socket;
  us_vars : session_vars
}.

Definition set_alloc (ss : ts_ur_super_session) (a : allocation) : ts_ur_super_session :=
  mk_ss (us_auth ss) a (us_tables ss) (us_client ss) (us_vars ss).
Definition set_auth (ss : ts_ur_super_session) (au : auth_state) : ts_ur_super_session :=
  mk_ss au (us_alloc ss) (us_tables ss) (us_client ss) (us_vars ss).
Definition set_vars (ss : ts_ur_super_session) (v : session_vars) : ts_ur_super_session :=
  mk_ss (us_auth ss) (us_alloc ss) (us_tables ss) (us_client ss) v.

Definition set_relay_kind (v : session_vars) (tcp mobile : bool) : session_vars :=
  mk_vars tcp mobile (sv_quota_used v) (sv_bps v) (sv_mobile_id v) (sv_s_mobile_id v) (sv_mobile_map v) (sv_origin_set v) (sv_origin v)
    (sv_to_be_closed v) (sv_enforce_fingerprints v).
Definition set_quota (v : session_vars) (used : bool) (bps : Z) : session_vars :=
  mk_vars (sv_tcp_relay v) (sv_mobile v) used bps (sv_mobile_id v) (sv_s_mobile_id v) (sv_mobile_map v) (sv_origin_set v) (sv_origin v)
    (sv_to_be_closed v) (sv_enforce_fingerprints v).

Definition delete_session_from_mobile_map (v : session_vars) : session_vars :=
  if decide (sv_mobile_id v = 0) then v else
  mk_vars (sv_tcp_relay v) (sv_mobile v) (sv_quota_used v) (sv_bps v) 0 [] (sv_mobile_map v ∖ {[sv_mobile_id v]}) (sv_origin_set v) (sv_origin v)
    (sv_to_be_closed v) (sv_enforce_fingerprints v).

(** What the server asks of others: the user's quota, and the bandwidth quota with the limit of
    the realm. *)
Record quotas := mk_quotas {
  chquotacb : option (list Z -> bool -> list Z -> bool);
  allocate_bps_func : option (Z -> Z);
  realm_max_bps : Z
}.

(** The flag is the success. *)
Definition inc_quota (server : turn_turnserver) (q : quotas) (ss : ts_ur_super_session) (usname : list Z) : bool * ts_ur_super_session :=
  let au := us_auth ss in
  let v := us_vars ss in
  match chquotacb q with
  | None => (true, ss)
  | Some granted =>
    if sv_quota_used v then (true, ss)
    else if bool_decide (ct server = TURN_CREDENTIALS_LONG_TERM) && negb (sv_origin_set v) then (false, ss)
    else if granted usname (ss_oauth au) (auth_realm au) then
      (true, set_vars (set_auth ss (set_username au usname (hmackey_set au))) (set_quota v true (sv_bps v)))
    else (false, ss)
  end.

(** ** The attributes of an Allocate request *)

Record allocate_request := mk_allocate {
  aq_transport : Z;
  aq_lifetime : Z;
  aq_even_port : Z;
  aq_dont_fragment : bool;
  aq_token : Z;
  aq_af4 : Z;
  aq_af6 : Z;
  aq_username : list Z;
  aq_bps : Z;
  aq_mobile : bool;
  aq_tcp : bool
}.

(** The error code and the reason, and the unknown attributes. *)
Record request_error := mk_error { er_code : Z; er_reason : option (list Z); er_unknown : list Z }.
Definition set_error (e : request_error) (code : Z) (reason : string) : request_error :=
  mk_error code (Some (cstr reason)) (er_unknown e).
Definition set_error_code (e : request_error) (code : Z) : request_error := mk_error code (er_reason e) (er_unknown e).
Definition add_unknown (e : request_error) (attr_type : Z) : request_error :=
  mk_error (er_code e) (er_reason e) (er_unknown e ++ [nswap16 attr_type]).
Definition default_unknown (e : request_error) (attr_type : Z) : request_error :=
  mk_error (er_code e) (er_reason e) (default_attr attr_type (er_unknown e)).
Definition no_error : request_error := mk_error 0 None [].

Definition get_transport_value (b : Z) : Z :=
  if decide (b = STUN_ATTRIBUTE_TRANSPORT_UDP_VALUE \/ b = STUN_ATTRIBUTE_TRANSPORT_TCP_VALUE) then b else 0.

Definition aq_set_transport (q : allocate_request) (t : Z) (tcp : bool) : allocate_request :=
  mk_allocate t (aq_lifetime q) (aq_even_port q) (aq_dont_fragment q) (aq_token q) (aq_af4 q) (aq_af6 q) (aq_username q) (aq_bps q) (aq_mobile q) tcp.
Definition aq_set_lifetime (q : allocate_request) (t : Z) : allocate_request :=
  mk_allocate (aq_transport q) t (aq_even_port q) (aq_dont_fragment q) (aq_token q) (aq_af4 q) (aq_af6 q) (aq_username q) (aq_bps q) (aq_mobile q) (aq_tcp q).
Definition aq_set_even_port (q : allocate_request) (p : Z) : allocate_request :=
  mk_allocate (aq_transport q) (aq_lifetime q) p (aq_dont_fragment q) (aq_token q) (aq_af4 q) (aq_af6 q) (aq_username q) (aq_bps q) (aq_mobile q) (aq_tcp q).
Definition aq_set_df (q : allocate_request) : allocate_request :=
  mk_allocate (aq_transport q) (aq_lifetime q) (aq_even_port q) true (aq_token q) (aq_af4 q) (aq_af6 q) (aq_username q) (aq_bps q) (aq_mobile q) (aq_tcp q).
Definition aq_set_token (q : allocate_request) (t : Z) : allocate_request :=
  mk_allocate (aq_transport q) (aq_lifetime q) (aq_even_port q) (aq_dont_fragment q) t (aq_af4 q) (aq_af6 q) (aq_username q) (aq_bps q) (aq_mobile q) (aq_tcp q).
Definition aq_set_families (q : allocate_request) (af4 af6 : Z) : allocate_request :=
  mk_allocate (aq_transport q) (aq_lifetime q) (aq_even_port q) (aq_dont_fragment q) (aq_token q) af4 af6 (aq_username q) (aq_bps q) (aq_mobile q) (aq_tcp q).
Definition aq_set_username (q : allocate_request) (u : list Z) : allocate_request :=
  mk_allocate (aq_transport q) (aq_lifetime q) (aq_even_port q) (aq_dont_fragment q) (aq_token q) (aq_af4 q) (aq_af6 q) u (aq_bps q) (aq_mobile q) (aq_tcp q).
Definition aq_set_bps (q : allocate_request) (b : Z) : allocate_request :=
  mk_allocate (aq_transport q) (aq_lifetime q) (aq_even_port q) (aq_dont_fragment q) (aq_token q) (aq_af4 q) (aq_af6 q) (aq_username q) b (aq_mobile q) (aq_tcp q).
Definition aq_set_mobile (q : allocate_request) : allocate_request :=
  mk_allocate (aq_transport q) (aq_lifetime q) (aq_even_port q) (aq_dont_fragment q) (aq_token q) (aq_af4 q) (aq_af6 q) (aq_username q) (aq_bps q) true (aq_tcp q).

Section attributes.
Context (server : turn_turnserver) (client : option client_socket) (buf : list Z).

(** The user name comes before the switch, which skips it. *)
Definition username_attr (sar : Z) (e : request_error) (q : allocate_request) : option (request_error * allocate_request) :=
  value ← stun_attr_get_value buf (Some sar);
  match value with
  | None => Some (e, q)
  | Some value =>
    ulen ← stun_attr_get_len buf (Some sar);
    if decide (ulen >= STUN_MAX_USERNAME_SIZE + 1) then Some (set_error e 400 "User name is too long", q) else
    v ← slice buf value ulen;
    Some (if is_secure_string (until_nul v) true then (e, aq_set_username q (until_nul v))
          else (set_error_code e 400, aq_set_username q []))
  end.

Definition transport_attr (sar : Z) (e : request_error) (q : allocate_request) : option (request_error * allocate_request) :=
  len ← stun_attr_get_len buf (Some sar);
  if decide (len <> 4) then Some (set_error e 400 "Wrong Transport Field", q)
  else if decide (aq_transport q <> 0) then Some (set_error e 400 "Duplicate Transport Fields", q)
  else
    value ← stun_attr_get_value buf (Some sar);
    match value with
    | None => Some (set_error e 400 "Wrong Transport Data", q)
    | Some value =>
      b ← ld8 buf value;
      let transport := get_transport_value b in
      let e := if decide (transport = 0) then set_error_code e 442 else e in
      let q := aq_set_transport q transport (aq_tcp q) in
      Some (if bool_decide (transport = STUN_ATTRIBUTE_TRANSPORT_TCP_VALUE) && no_tcp_relay server then
              (set_error e 442 "TCP Transport is not allowed by the TURN Server configuration", q)
            else if bool_decide (transport = STUN_ATTRIBUTE_TRANSPORT_UDP_VALUE) && no_udp_relay server then
              (set_error e 442 "UDP Transport is not allowed by the TURN Server configuration", q)
            else match client with
                 | None => (e, q)
                 | Some c =>
                   if bool_decide (transport = STUN_ATTRIBUTE_TRANSPORT_TCP_VALUE) && negb (is_stream_socket (cl_type c)) then
                     (set_error e 400 "Wrong Transport Data", q)
                   else (e, aq_set_transport q transport (bool_decide (transport = STUN_ATTRIBUTE_TRANSPORT_TCP_VALUE)))
                 end)
    end.

Definition lifetime_attr (sar : Z) (e : request_error) : option (request_error * option Z) :=
  len ← stun_attr_get_len buf (Some sar);
  if decide (len <> 4) then Some (set_error e 400 "Wrong Lifetime Field", None) else
  value ← stun_attr_get_value buf (Some sar);
  match value with
  | None => Some (set_error e 400 "Wrong Lifetime Data", None)
  | Some value => v ← ld32 buf value; Some (e, Some (nswap32 v))
  end.

Definition token_attr (sar : Z) (e : request_error) (q : allocate_request) : option (request_error * allocate_request) :=
  len ← stun_attr_get_len buf (Some sar);
  if decide (len <> 8) then Some (set_error e 400 "Wrong Format of Reservation Token", q)
  else if decide (aq_af4 q <> 0 \/ aq_af6 q <> 0) then
    Some (set_error e 400 "Address family attribute can not be used with reservation token request", q)
  else if decide (aq_even_port q >= 0) then Some (set_error e 400 "Reservation Token cannot be used in this request with even port", q)
  else if decide (aq_token q <> 0) then Some (set_error e 400 "Reservation Token cannot be used in this request", q)
  else t ← stun_attr_get_reservation_token_value buf (Some sar); Some (e, aq_set_token q t).

(** [additional]: the type is ADDITIONAL-ADDRESS-FAMILY. *)
Definition family_attr (additional : bool) (sar : Z) (e : request_error) (q : allocate_request) : option (request_error * allocate_request) :=
  if additional && bool_decide (aq_even_port q > 0) then Some (set_error e 400 "Even Port cannot be used with Dual Allocation", q)
  else if decide (aq_token q <> 0) then
    Some (set_error e 400 "Address family attribute can not be used with reservation token request", q)
  else if decide (aq_af4 q <> 0 \/ aq_af6 q <> 0) then
    Some (set_error e 400 "Extra address family attribute can not be used in the request", q)
  else
    af_req ← stun_get_requested_address_family buf (Some sar);
    Some (if decide (af_req = FAMILY_VALUE_IPV4) then
            if additional then (set_error e 400 "Invalid value of the additional address family attribute", q)
            else (e, aq_set_families q af_req (aq_af6 q))
          else if decide (af_req = FAMILY_VALUE_IPV6) then
            (e, aq_set_families q (if additional then FAMILY_VALUE_IPV4 else aq_af4 q) af_req)
          else (set_error_code e 440, q)).

(** One round of the loop. *)
Definition allocate_attr (sar : Z) (s : request_error * allocate_request) : option (request_error * allocate_request) :=
  let '(e, q) := s in
  attr_type ← stun_attr_get_type buf (Some sar);
  if decide (attr_type = STUN_ATTRIBUTE_USERNAME) then username_attr sar e q
  else if decide (attr_type ∈ SKIP_ATTRIBUTES) then Some (e, q)
  else if decide (attr_type = STUN_ATTRIBUTE_NEW_BANDWIDTH) then
    bps ← stun_attr_get_bandwidth buf (Some sar); Some (e, aq_set_bps q bps)
  else if decide (attr_type = STUN_ATTRIBUTE_MOBILITY_TICKET) then
    if negb (mobility server) then Some (set_error e 405 "Mobility Forbidden", q) else
    len ← stun_attr_get_len buf (Some sar);
    Some (if decide (len <> 0) then (set_error e 400 "Wrong Mobility Field", q) else (e, aq_set_mobile q))
  else if decide (attr_type = STUN_ATTRIBUTE_REQUESTED_TRANSPORT) then transport_attr sar e q
  else if decide (attr_type = STUN_ATTRIBUTE_DONT_FRAGMENT) then
    Some (if dont_fragment server then e else add_unknown e attr_type, aq_set_df q)
  else if decide (attr_type = STUN_ATTRIBUTE_LIFETIME) then
    '(e, t) ← lifetime_attr sar e; Some (e, match t with Some t => aq_set_lifetime q t | None => q end)
  else if decide (attr_type = STUN_ATTRIBUTE_EVEN_PORT) then
    if decide (aq_token q <> 0) then Some (set_error e 400 "Even Port and Reservation Token cannot be used together", q) else
    p ← stun_attr_get_even_port buf (Some sar);
    let q := aq_set_even_port q p in
    Some (if decide (p <> 0 /\ aq_af4 q <> 0 /\ aq_af6 q <> 0) then (set_error e 400 "Even Port cannot be used with Dual Allocation", q)
          else (e, q))
  else if decide (attr_type = STUN_ATTRIBUTE_RESERVATION_TOKEN) then token_attr sar e q
  else if decide (attr_type = STUN_ATTRIBUTE_ADDITIONAL_ADDRESS_FAMILY) then family_attr true sar e q
  else if decide (attr_type = STUN_ATTRIBUTE_REQUESTED_ADDRESS_FAMILY) then family_attr false sar e q
  else Some (default_unknown e attr_type, q).

End attributes.

(** ** Allocate *)

(** The address of a relay socket that the client is told. *)
Definition relayed_addr (server : turn_turnserver) (a : allocation) (family : Z) : option (option ioa_addr) :=
  if get_relay_session_failure a family then Some (Some addr_set_any) else
  local ← get_local_addr_from_ioa_socket a (rs_s (get_relay_session a family));
  Some (match local with
        | None => None
        | Some l => Some (match external_ip server with Some ext => addr_set_port ext (addr_get_port (Some l)) | None => l end)
        end).

(** The success response; [None] inside when there is no address. *)
Definition allocate_success (server : turn_turnserver) (ss : ts_ur_super_session) (tid nbh rnd : list Z)
    (lifetime : allocation -> ioa_addr -> Z) (token : Z) : option (option (list Z * Z)) :=
  let a := us_alloc ss in
  addr1 ← relayed_addr server a AF_INET;
  addr2 ← relayed_addr server a AF_INET6;
  match (match addr1 with Some x => Some x | None => addr2 end) with
  | None => Some None
  | Some first =>
    '(_, buf, len) ← stun_set_allocate_response_str (addr_mapping server) nbh (Some tid) addr1 addr2
                       (match us_client ss with Some c => cl_remote c | None => None end) (lifetime a first)
                       (u32 (max_allocate_lifetime server)) 0 None token (Some (sv_s_mobile_id (us_vars ss) ++ [0])) rnd;
    Some (Some (buf, len))
  end.

(** The answers to the calls that open relay sockets, by address family. *)
Definition answers := Z -> relay_answers.

Record allocate_reply := mk_allocate_reply {
  al_error : request_error;
  al_response : list Z * Z;
  al_session : ts_ur_super_session
}.

(** The families that are relayed, when there was no error so far. *)
Definition default_families (server : turn_turnserver) (c : option client_socket) (af4 af6 : Z) : Z * Z :=
  if decide (af4 <> 0 \/ af6 <> 0) then (af4, af6) else
  match allocation_default_address_family server with
  | ALLOCATION_DEFAULT_ADDRESS_FAMILY_KEEP => if decide (client_family c = AF_INET6) then (0, FAMILY_VALUE_IPV6) else (FAMILY_VALUE_IPV4, 0)
  | ALLOCATION_DEFAULT_ADDRESS_FAMILY_IPV6 => (0, FAMILY_VALUE_IPV6)
  | ALLOCATION_DEFAULT_ADDRESS_FAMILY_IPV4 => (FAMILY_VALUE_IPV4, 0)
  end.

(** One call of [create_relay_connection], with what follows a failure. *)
Definition create_one (server : turn_turnserver) (c : option client_socket) (a : allocation) (ans : answers) (lifetime af token : Z)
    (family code : Z) (out : relay_out) : option (allocation * relay_out) :=
  '(res, a, out) ← create_relay_connection server c a (ans af) lifetime af token out;
  Some (if decide (res < 0) then
          (set_relay_session_failure a family, mk_relay_out (ro_token out) (if decide (ro_err out = 0) then code else ro_err out) (ro_reason out))
        else (a, out)).

(** The relay sockets of a request; the variables [err_code4] and [err_code6] last. *)
Definition create_relays (server : turn_turnserver) (c : option client_socket) (a : allocation) (ans : answers)
    (lifetime af4 af6 token : Z) (e : request_error) : option (allocation * Z * request_error * Z * Z) :=
  let out := mk_relay_out 0 (er_code e) (er_reason e) in
  if decide (af4 = 0 /\ af6 <> 0) then
    '(a, out) ← create_one server c a ans lifetime af6 token AF_INET6 437 out;
    Some (a, ro_token out, mk_error (ro_err out) (ro_reason out) (er_unknown e), 0, 0)
  else if decide (af4 <> 0 /\ af6 = 0) then
    '(a, out) ← create_one server c a ans lifetime af4 token AF_INET 437 out;
    Some (a, ro_token out, mk_error (ro_err out) (ro_reason out) (er_unknown e), 0, 0)
  else
    '(a, out4) ← create_one server c a ans lifetime af4 token AF_INET 440 (mk_relay_out 0 0 None);
    '(a, out6) ← create_one server c a ans lifetime af6 token AF_INET6 440 (mk_relay_out (ro_token out4) 0 None);
    let e := if decide (ro_err out4 <> 0 /\ ro_err out6 <> 0) then
               match ro_reason out4, ro_reason out6 with
               | Some _, _ => mk_error (ro_err out4) (ro_reason out4) (er_unknown e)
               | None, Some _ => mk_error (ro_err out6) (ro_reason out6) (er_unknown e)
               | None, None => mk_error (ro_err out4) (er_reason e) (er_unknown e)
               end
             else e in
    Some (a, ro_token out6, e, ro_err out4, ro_err out6).

(** The bandwidth quota. *)
Definition allocate_bandwidth (q : quotas) (ss : ts_ur_super_session) (bps : Z) (e : request_error) : ts_ur_super_session * request_error :=
  match allocate_bps_func q with
  | None => (ss, e)
  | Some f =>
    let max_bps := realm_max_bps q in
    let bps := if decide (max_bps <> 0 /\ (bps = 0 \/ bps > max_bps)) then max_bps else bps in
    if decide (bps <> 0 /\ sv_bps (us_vars ss) = 0) then
      (set_vars ss (set_quota (us_vars ss) (sv_quota_used (us_vars ss)) (f bps)),
       if decide (f bps = 0) then set_error e 486 "Allocation Bandwidth Quota Reached" else e)
    else (ss, e)
  end.

(** What the configuration forbids. *)
Definition allocate_policy (server : turn_turnserver) (r : allocate_request) (e : request_error) : request_error :=
  let dual := bool_decide (aq_af4 r <> 0) && bool_decide (aq_af6 r <> 0) in
  let e := if dual && bool_decide (is_Some (external_ip server)) then
             set_error e 440 "Dual allocation cannot be supported in the current server configuration" else e in
  let e := if dual && bool_decide (aq_even_port r > 0) then
             set_error e 440 "Dual allocation cannot be supported with even-port functionality" else e in
  if is_draining server then set_error e 403 "Server is draining, then will shutdown, please try another server" else e.

(** The success response with the bandwidth. *)
Definition allocate_granted (server : turn_turnserver) (ss : ts_ur_super_session) (tid nbh rnd : list Z) (lifetime token : Z)
  : option (option (list Z * Z)) :=
  response ← allocate_success server ss tid nbh rnd (fun _ _ => lifetime) token;
  match response with
  | None => Some None
  | Some (buf, len) =>
    if decide (sv_bps (us_vars ss) = 0) then Some (Some (buf, len)) else
    '(_, buf, len) ← stun_attr_add_bandwidth_str buf len (sv_bps (us_vars ss)); Some (Some (buf, len))
  end.

(** A request that passed its checks.  The response if there is one, and the two error codes
    of its families. *)
Definition allocate_relays (server : turn_turnserver) (q : quotas) (ss : ts_ur_super_session) (ans : answers) (r : allocate_request)
    (tid nbh rnd : list Z) (e : request_error) : option (option (list Z * Z) * ts_ur_super_session * request_error * Z * Z) :=
  let ss := if mobility server && negb (sv_mobile (us_vars ss)) then set_vars ss (delete_session_from_mobile_map (us_vars ss)) else ss in
  let lifetime := stun_adjust_allocate_lifetime (aq_lifetime r) (u32 (max_allocate_lifetime server)) (max_session_time_auth (us_auth ss)) in
  let '(granted, ss) := inc_quota server q ss (aq_username r) in
  if negb granted then Some (None, ss, set_error_code e 486, 0, 0) else
  let '(ss, e) := allocate_bandwidth q ss (aq_bps r) e in
  let e := allocate_policy server r e in
  '(a, token, e, err4, err6) ← (if er_code e =? 0 then
                                  let '(af4, af6) := default_families server (us_client ss) (aq_af4 r) (aq_af6 r) in
                                  create_relays server (us_client ss) (us_alloc ss) ans lifetime af4 af6 (aq_token r) e
                                else Some (us_alloc ss, 0, e, 0, 0));
  if negb (er_code e =? 0) then
    Some (None, set_alloc ss a, match er_reason e with Some _ => e | None => set_error e (er_code e) "Cannot create relay endpoint(s)" end, err4, err6)
  else
    let ss := set_alloc ss (set_allocation_valid a true tid) in
    response ← allocate_granted server ss tid nbh rnd lifetime token;
    Some (response, ss, e, err4, err6).

(** What was decided so far is answered. *)
Definition allocate_answer (server : turn_turnserver) (ss : ts_ur_super_session) (response : option (list Z * Z)) (e : request_error)
    (err4 err6 : Z) (tid nbh rnd : list Z) : option allocate_reply :=
  '(buf, len, e) ← (match response with
                    | Some (buf, len) => Some (buf, len, e)
                    | None =>
                      let e := if er_code e =? 0 then set_error_code e 437 else e in
                      '(_, buf, len) ← stun_set_allocate_response_str (addr_mapping server) nbh (Some tid) None None None 0
                                         (u32 (max_allocate_lifetime server)) (er_code e) (er_reason e) 0
                                         (Some (sv_s_mobile_id (us_vars ss) ++ [0])) rnd;
                      Some (buf, len, e)
                    end);
  '(buf, len) ← (if bool_decide (er_code e = 0) && bool_decide (err4 <> 0) then
                   '(_, buf, len) ← stun_attr_add_address_error_code buf len FAMILY_VALUE_IPV4 err4; Some (buf, len)
                 else Some (buf, len));
  '(buf, len) ← (if bool_decide (er_code e = 0) && bool_decide (err6 <> 0) then
                   '(_, buf, len) ← stun_attr_add_address_error_code buf len FAMILY_VALUE_IPV6 err6; Some (buf, len)
                 else Some (buf, len));
  Some (mk_allocate_reply e (buf, len) ss).

(** The loop over the attributes. *)
Definition read_allocate_request (server : turn_turnserver) (ss : ts_ur_super_session) (buf : list Z) (len : Z)
  : option (request_error * allocate_request) :=
  attr_walk buf len (fun s => keep_reading (er_code s.1) (er_unknown s.1)) (allocate_attr server (us_client ss) buf)
    (no_error, mk_allocate 0 0 (-1) false 0 0 0 [] 0 (sv_mobile (us_vars ss)) (sv_tcp_relay (us_vars ss))).

(** The checks after the loop. *)
Definition allocate_checks (e : request_error) (r : allocate_request) : request_error :=
  if decide (aq_transport r = 0) then
    match er_reason e with Some _ => set_error_code e 400 | None => set_error e 400 "Transport field missed or wrong" end
  else if decide (er_unknown e <> []) then set_error_code e 420
  else if negb (er_code e =? 0) then e
  else if bool_decide (aq_transport r = STUN_ATTRIBUTE_TRANSPORT_TCP_VALUE) &&
          (aq_dont_fragment r || bool_decide (aq_token r <> 0) || bool_decide (aq_even_port r <> -1)) then
    match er_reason e with
    | Some _ => set_error_code e 400
    | None => set_error e 400 "Request parameters are incompatible with TCP transport"
    end
  else e.

Definition handle_turn_allocate (server : turn_turnserver) (q : quotas) (ss : ts_ur_super_session) (ans : answers)
    (buf : list Z) (len : Z) (tid nbh rnd : list Z) : option allocate_reply :=
  let a := us_alloc ss in
  if is_valid a then
    if negb (stun_tid_equals tid (al_tid a)) then
      allocate_answer server ss None (set_error no_error 437 "Wrong TID") 0 0 tid nbh rnd
    else
      response ← allocate_success server ss tid nbh rnd
                   (fun a first => u32 (rs_expiration_time (get_relay_session a (sa_family first)) - ctime server)) 0;
      allocate_answer server ss response no_error 0 0 tid nbh rnd
  else
    '(e, r) ← read_allocate_request server ss buf len;
    let ss := set_vars ss (set_relay_kind (us_vars ss) (aq_tcp r) (aq_mobile r)) in
    let e := allocate_checks e r in
    if negb (er_code e =? 0) then allocate_answer server ss None e 0 0 tid nbh rnd
    else
      '(response, ss, e, err4, err6) ← allocate_relays server q ss ans r tid nbh rnd e;
      allocate_answer server ss response e err4 err6 tid nbh rnd.
