(* ===== verification/AllocateFacts.v ===== *)
(** * What the Allocate handler does with received bytes

    On any bytes the attributes are read without a fault; a request is refused, or relay
    sockets are opened with their timers; and there is always a response, which is a
    well-formed message of the transaction. *)

From S2P Require Import Prelude CString IoAddr MsgAddr StunHeader StunAttr StunFields StunFieldsFacts Integrity IoTimer PermLink Session SessionFacts AttrWalk Handlers HandlerFacts Auth AuthFacts RelaySession RelaySessionFacts Allocate.
From stdpp Require Import gmap.
#[global] Open Scope Z_scope.

(** ** Reading attributes in place *)

Section reads.
Context (buf : list Z) (len : Z) (l : list sattr) (g : list Z) (Hb : is_bytes buf) (Hf : framed buf len l g).
Context (o : Z) (a : sattr) (Hin : (o, a) ∈ attr_offs 20 l).

Lemma attr_place : 0 <= o + 4 /\ o + 4 + zlen (at_val a) <= zlen buf.
Proof. destruct (framed_read _ _ _ _ _ _ Hf Hin) as (_ & _ & _ & Hs & _). apply slice_Some in Hs. lia. Qed.

Lemma read_value n : (0 < n)%nat -> Z.of_nat n <= zlen (at_val a) -> exists v, ld n buf (o + 4) = Some v /\ 0 <= v < 2 ^ (8 * Z.of_nat n).
Proof. intros Hn Hl. destruct attr_place. apply ld_is_Some; [done|lia|lia]. Qed.

Lemma even_port_ok : exists p, stun_attr_get_even_port buf (Some o) = Some p /\ (p = 0 \/ p = 1).
Proof.
  destruct (framed_read _ _ _ _ _ _ Hf Hin) as (_ & _ & Rv & _). unfold stun_attr_get_even_port. rewrite Rv. mred. case_decide; [exists 0; auto|].
  destruct (read_value 1) as (v & -> & _); [lia|lia|]. mred. eexists. split; [done|]. case_decide; auto.
Qed.

Lemma bandwidth_ok : exists b, stun_attr_get_bandwidth buf (Some o) = Some b /\ 0 <= b < 2 ^ 32.
Proof.
  destruct (framed_read _ _ _ _ _ _ Hf Hin) as (_ & Rl & Rv & _). unfold stun_attr_get_bandwidth. rewrite Rv. mred. case_decide; [exists 0; split; [done|lia]|].
  rewrite Rl. mred. case_decide; [|exists 0; split; [done|lia]]. destruct (read_value 4) as (v & -> & _); [lia|lia|]. mred. eexists. split; [done|]. apply (wrap_range 32). lia.
Qed.

Lemma token_value_ok : exists t, stun_attr_get_reservation_token_value buf (Some o) = Some t /\ 0 <= t < 2 ^ 64.
Proof.
  destruct (framed_read _ _ _ _ _ _ Hf Hin) as (_ & Rl & Rv & _). unfold stun_attr_get_reservation_token_value. rewrite Rv. mred. case_decide; [exists 0; split; [done|lia]|].
  rewrite Rl. mred. case_decide; [|exists 0; split; [done|lia]]. destruct (read_value 8) as (v & -> & _); [lia|lia|]. mred. eexists. split; [done|]. apply (nswap_range 8).
Qed.

Lemma family_value_ok : exists f, stun_get_requested_address_family buf (Some o) = Some f.
Proof.
  destruct (framed_read _ _ _ _ _ _ Hf Hin) as (_ & Rl & _). pose proof attr_place as [H1 H2]. unfold stun_get_requested_address_family.
  unfold stun_attr_get_len in Rl. destruct (ld16 buf (o + 2)) as [v|] eqn:Ev; [|done]. mred. case_decide as E; [by eexists|].
  assert (nswap16 v = 4) as E4 by lia. cbn [mbind option_bind] in Rl. assert (zlen (at_val a) = 4) as El.
  { injection Rl as Rl. rewrite <- Rl. exact E4. }
  destruct (read_value 1) as (b & -> & _); [lia|lia|]. mred. case_decide; by eexists.
Qed.

End reads.

(** ** The loop over the attributes *)

Definition fine_error (e : request_error) : Prop := (er_code e = 0 \/ error_code_ok (er_code e)) /\ phrase_ok (er_reason e).

Lemma fine_no_error : fine_error no_error.
Proof. split; [by left|apply no_phrase]. Qed.

Lemma fine_set e code s : error_code_ok code -> forallb (fun c => negb (c =? 0)) (str_bytes s) = true -> fine_error (set_error e code s).
Proof. intros Hc Hs. split; [by right|]. by apply phrase_cstr, str_nonzero. Qed.

Lemma fine_code e code : error_code_ok code -> fine_error e -> fine_error (set_error_code e code).
Proof. intros Hc [_ He]. by split; [right|]. Qed.

(** What is known of the variables of a request. *)
Record request_ok (q : allocate_request) : Prop := {
  rq_lifetime : 0 <= aq_lifetime q < 2 ^ 32;
  rq_af4 : aq_af4 q = 0 \/ aq_af4 q = FAMILY_VALUE_IPV4;
  rq_af6 : aq_af6 q = 0 \/ aq_af6 q = FAMILY_VALUE_IPV6;
  rq_token : 0 <= aq_token q < 2 ^ 64 /\ (aq_token q <> 0 -> aq_af4 q = 0 /\ aq_af6 q = 0);
  rq_username : name_ok STUN_MAX_USERNAME_SIZE (aq_username q);
  rq_bps : 0 <= aq_bps q < 2 ^ 32
}.

Definition loop_ok (s : request_error * allocate_request) : Prop := fine_error s.1 /\ request_ok s.2.

Ltac loop_fine := first [done | apply fine_set; [split; lia|reflexivity] | apply fine_code; [split; lia|done]].

Section loop.
Context (server : turn_turnserver) (client : option client_socket).
Context (buf : list Z) (len : Z) (l : list sattr) (g : list Z) (Hb : is_bytes buf) (Hf : framed buf len l g).
Context (o : Z) (a : sattr) (Hin : (o, a) ∈ attr_offs 20 l).

Lemma username_attr_ok e q : loop_ok (e, q) -> exists s, username_attr buf o e q = Some s /\ loop_ok s.
Proof.
  intros [He Hq]. cbn in He, Hq. unfold username_attr. destruct (framed_read _ _ _ _ _ _ Hf Hin) as (_ & Rl & Rv & Rs & Hwf). rewrite Rv. mred.
  case_decide; [by eexists|]. rewrite Rl. mred. case_decide; [eexists; split; [done|]; split; [loop_fine|done]|]. rewrite Rs. mred. eexists. split; [done|].
  destruct Hwf as (_ & _ & Hbv & _). destruct (is_secure_string _ true); (split; [loop_fine|]); destruct Hq; split; try done; cbn.
  - apply until_nul_ok; [done|unfold STUN_MAX_USERNAME_SIZE in *; lia].
  - split; [constructor|]. split; [constructor|done].
Qed.

Lemma transport_attr_ok e q : loop_ok (e, q) -> exists s, transport_attr server client buf o e q = Some s /\ loop_ok s.
Proof.
  intros [He Hq]. cbn in He, Hq. unfold transport_attr. destruct (framed_read _ _ _ _ _ _ Hf Hin) as (_ & Rl & Rv & _). rewrite Rl. mred.
  destruct (decide (zlen (at_val a) <> 4)); [eexists; split; [done|]; split; [loop_fine|done]|].
  destruct (decide (aq_transport q <> 0)); [eexists; split; [done|]; split; [loop_fine|done]|]. rewrite Rv. mred.
  destruct (decide (zlen (at_val a) < 1)); [eexists; split; [done|]; split; [loop_fine|done]|]. destruct (read_value buf len l g Hb Hf o a Hin 1) as (b & -> & _); [lia|lia|]. mred.
  eexists. split; [done|]. set (t := get_transport_value b). set (e' := if decide (t = 0) then _ else e). assert (fine_error e') as He' by (unfold e'; case_decide; loop_fine).
  assert (forall tcp, request_ok (aq_set_transport q t tcp)) as Hq' by (intros tcp; by destruct Hq). repeat case_match; (split; [loop_fine|apply Hq']).
Qed.

Lemma lifetime_attr_ok e : fine_error e -> exists e' t, lifetime_attr buf o e = Some (e', t) /\ fine_error e' /\ forall v, t = Some v -> 0 <= v < 2 ^ 32.
Proof.
  intros He. unfold lifetime_attr. destruct (framed_read _ _ _ _ _ _ Hf Hin) as (_ & Rl & Rv & _). rewrite Rl. mred.
  destruct (decide (zlen (at_val a) <> 4)); [eexists _, None; split; [done|]; split; [loop_fine|done]|]. rewrite Rv. mred.
  destruct (decide (zlen (at_val a) < 1)); [eexists _, None; split; [done|]; split; [loop_fine|done]|].
  destruct (read_value buf len l g Hb Hf o a Hin 4) as (v & -> & _); [lia|lia|]. mred. eexists _, (Some _). split; [done|]. split; [done|].
  intros v' [= <-]. apply (nswap_range 4).
Qed.

Lemma token_attr_ok e q : loop_ok (e, q) -> exists s, token_attr buf o e q = Some s /\ loop_ok s.
Proof.
  intros [He Hq]. cbn in He, Hq. unfold token_attr. destruct (framed_read _ _ _ _ _ _ Hf Hin) as (_ & Rl & _). rewrite Rl. mred.
  destruct (decide (zlen (at_val a) <> 8)); [eexists; split; [done|]; split; [loop_fine|done]|].
  destruct (decide (aq_af4 q <> 0 \/ aq_af6 q <> 0)) as [|Hno]; [eexists; split; [done|]; split; [loop_fine|done]|].
  destruct (decide (aq_even_port q >= 0)); [eexists; split; [done|]; split; [loop_fine|done]|].
  destruct (decide (aq_token q <> 0)); [eexists; split; [done|]; split; [loop_fine|done]|]. destruct (token_value_ok buf len l g Hb Hf o a Hin) as (t & -> & Ht). mred.
  eexists. split; [done|]. split; [done|]. destruct Hq. split; try done. cbn. split; [done|]. intros _. lia.
Qed.

Lemma family_attr_ok additional e q : loop_ok (e, q) -> exists s, family_attr buf additional o e q = Some s /\ loop_ok s.
Proof.
  intros [He Hq]. cbn in He, Hq. unfold family_attr. case_match; [eexists; split; [done|]; split; [loop_fine|done]|].
  destruct (decide (aq_token q <> 0)) as [|Hno]; [eexists; split; [done|]; split; [loop_fine|done]|].
  destruct (decide (aq_af4 q <> 0 \/ aq_af6 q <> 0)); [eexists; split; [done|]; split; [loop_fine|done]|]. destruct (family_value_ok buf len l g Hb Hf o a Hin) as (f & ->). mred.
  eexists. split; [done|]. destruct Hq as [H1 H2 H3 [H4 H4'] H5 H6]. repeat case_match; (split; [loop_fine|]); split; try done; cbn; try tauto.
Qed.

Lemma allocate_attr_ok s : loop_ok s -> er_code s.1 = 0 -> exists s', allocate_attr server client buf o s = Some s' /\ loop_ok s'.
Proof.
  intros Hs H0. destruct s as [e q]. pose proof Hs as [He Hq]. cbn in He, Hq, H0. unfold allocate_attr.
  destruct (framed_read _ _ _ _ _ _ Hf Hin) as (Rt & Rl & _). rewrite Rt. mred.
  case_decide; [by apply username_attr_ok|]. case_decide; [by eexists|]. case_decide.
  { destruct (bandwidth_ok buf len l g Hb Hf o a Hin) as (b & -> & Hbps). mred. eexists. split; [done|]. split; [done|]. by destruct Hq. }
  case_decide. { destruct (mobility server); cbn [negb]; [|eexists; split; [done|]; split; [loop_fine|done]]. rewrite Rl. mred. eexists. split; [done|].
    case_decide; (split; [loop_fine|]); [done|by destruct Hq]. }
  case_decide; [by apply transport_attr_ok|]. case_decide. { eexists. split; [done|]. split; [|by destruct Hq]. by case_match. }
  case_decide. { destruct (lifetime_attr_ok e He) as (e' & t & -> & He' & Ht). mred. eexists. split; [done|]. split; [done|]. destruct t as [t|]; [|done].
    specialize (Ht t eq_refl). by destruct Hq. }
  case_decide. { case_decide; [eexists; split; [done|]; split; [loop_fine|done]|]. destruct (even_port_ok buf len l g Hb Hf o a Hin) as (p & -> & _). mred.
    eexists. split; [done|]. case_decide; (split; [loop_fine|by destruct Hq]). }
  case_decide; [by apply token_attr_ok|]. case_decide; [by apply family_attr_ok|]. case_decide; [by apply family_attr_ok|]. by eexists.
Qed.

End loop.

Lemma read_allocate_request_ok server ss buf len :
  received buf len -> exists e q, read_allocate_request server ss buf len = Some (e, q) /\ fine_error e /\ request_ok q.
Proof.
  intros [Hb Hlen]. unfold read_allocate_request.
  destruct (attr_walk_inv (fun s : request_error * allocate_request => keep_reading (er_code s.1) (er_unknown s.1)) (allocate_attr server (us_client ss) buf) loop_ok buf len
    (no_error, mk_allocate 0 0 (-1) false 0 0 0 [] 0 (sv_mobile (us_vars ss)) (sv_tcp_relay (us_vars ss))) Hb Hlen) as ([e q] & -> & He & Hq).
  - split; [apply fine_no_error|]. split; cbn; auto; try lia. split; [constructor|]. split; [constructor|done].
  - intros l g o a s Hf Hin Hc Hs. apply (allocate_attr_ok server (us_client ss) buf len l g Hb Hf o a Hin s Hs).
    unfold keep_reading in Hc. by apply andb_true_iff in Hc as [Hc%Z.eqb_eq _].
  - by exists e, q.
Qed.

Lemma allocate_checks_ok e q : fine_error e -> fine_error (allocate_checks e q).
Proof.
  intros He. unfold allocate_checks. assert (forall s, forallb (fun c => negb (c =? 0)) (str_bytes s) = true ->
    fine_error match er_reason e with Some _ => set_error_code e 400 | None => set_error e 400 s end) as H by (intros s Hs; case_match; loop_fine || by apply fine_set; [split; lia|]).
  repeat case_match; try done; first [by apply H | loop_fine].
Qed.

(** ** The response *)

(** Addresses that can be written. *)
Definition sendable (a : ioa_addr) : Prop := wf_addr a /\ encodable a.
Definition mapping_fit (m : mapping) : Prop := Forall (fun p => wf_addr p.1 /\ inet_addr p.1) m.

Lemma any_sendable : sendable addr_set_any.
Proof.
  split; [|by left]. unfold wf_addr, addr_set_any. cbn. split_and!; try done. apply (bool_decide_unpack _). by vm_compute.
Qed.

Lemma inet_sendable a : wf_addr a -> inet_addr a -> sendable a.
Proof. split; [done|by right]. Qed.

Lemma shown_addr m a : mapping_fit m -> sendable a -> sendable (map_addr_from_private_to_public m a).
Proof.
  intros Hm [Hw He]. destruct (map_private_to_public_cases m a) as [(i & p & Hi & _ & ->)|[-> _]]; [|done].
  destruct (Forall_lookup_1 _ _ _ _ Hm Hi) as [Hpw Hpi]. split; [|right; unfold inet_addr, addr_set_port in *; by rewrite decide_True].
  unfold addr_set_port. case_decide; [|done]. destruct Hpw as (H1 & _ & H3 & H4 & H5 & H6).
  exact (conj H1 (conj (nswap_range 2 _) (conj H3 (conj H4 (conj H5 H6))))).
Qed.

(** The attribute of an address. *)
Definition shown (m : mapping) (t : Z) (tid : list Z) (a : option ioa_addr) : list sattr :=
  match a with Some a => [addr_attr t tid (map_addr_from_private_to_public m a)] | None => [] end.

Lemma add_opt_addr_ok m k buf len ty ck tid l t a :
  mapping_fit m -> built_le k buf len ty ck tid l -> is_bytes tid -> (forall x, a = Some x -> sendable x) -> k + 27 < MAX_STUN_MESSAGE_SIZE ->
  exists buf' len', add_opt_addr m buf len t a = Some (true, buf', len') /\ built_le (k + 27) buf' len' ty ck tid (l ++ shown m t tid a).
Proof.
  intros Hm [Hb Hk] Ht Ha Hroom. destruct a as [a|]; cbn [add_opt_addr shown]; [|exists buf, len; rewrite app_nil_r; split; [done|split; [done|lia]]].
  destruct (shown_addr m a Hm (Ha a eq_refl)) as [Hw He]. destruct (built_add_addr m buf len ty ck tid l t a Hb Ht Hw He) as (buf' & -> & Hb'); [lia|].
  eexists _, _. split; [done|]. split; [exact Hb'|]. unfold addr_attr in *. set (w := wire_addr _ _ _ _) in *.
  assert (length tid = 12%nat) as Htl by (by destruct Hb as [(_ & ? & _) _]).
  pose proof (length_wire_le20 (map_addr_from_private_to_public m a) (is_xor_type t) STUN_MAGIC_COOKIE tid Hw) as Hl. fold w in Hl.
  pose proof (msg_len_add l t w) as Hadd. destruct Hadd as [_ Hadd]; [by apply wire_addr_bytes|lia|]. lia.
Qed.

Lemma success_built_le m tid nbh rnd :
  response_room tid nbh rnd -> 0 <= m < 4096 ->
  exists buf, stun_init_success_response_str m nbh (Some tid) rnd = Some (buf, 20) /\ built_le 20 buf 20 (stun_make_success_response m) STUN_MAGIC_COOKIE tid [].
Proof.
  intros (Ht & Hn & Hr) Hm. destruct (built_init Success m nbh rnd Hn Hr Hm) as (b & Hinit & Hb).
  destruct (built_set_tid _ _ _ _ _ _ tid Hb Ht) as (b' & Hset & Hb'). exists b'. unfold stun_init_success_response_str.
  change (stun_make_success_response m) with (make_class Success m). rewrite Hinit. mred. rewrite Hset. mred. split; [done|]. split; [done|by vm_compute].
Qed.

Definition shown_lifetime (lifetime max_lifetime : Z) : Z :=
  if decide (lifetime < 1) then STUN_DEFAULT_ALLOCATE_LIFETIME else if decide (lifetime > max_lifetime) then max_lifetime else lifetime.

(** What a success response of Allocate says. *)
Definition allocate_attrs (m : mapping) (tid : list Z) (addr1 addr2 client : option ioa_addr) (lifetime max_lifetime token : Z) (mobile_id : list Z)
  : list sattr :=
  shown m STUN_ATTRIBUTE_XOR_RELAYED_ADDRESS tid addr1 ++ shown m STUN_ATTRIBUTE_XOR_RELAYED_ADDRESS tid addr2 ++
  shown m STUN_ATTRIBUTE_XOR_MAPPED_ADDRESS tid client ++
  (if decide (token <> 0) then [new_attr STUN_ATTRIBUTE_RESERVATION_TOKEN (le_bytes 8 (nswap64 token))] else []) ++
  new_attr STUN_ATTRIBUTE_LIFETIME (be_bytes 4 (shown_lifetime lifetime max_lifetime)) ::
  (if decide (mobile_id = []) then [] else [new_attr STUN_ATTRIBUTE_MOBILITY_TICKET mobile_id]).

Lemma allocate_response_ok m nbh tid rnd addr1 addr2 client lifetime max token mobile_id :
  response_room tid nbh rnd -> mapping_fit m -> is_bytes tid ->
  (forall x, addr1 = Some x -> sendable x) -> (forall x, addr2 = Some x -> sendable x) -> (forall x, client = Some x -> sendable x) -> name_ok 32 mobile_id ->
  exists buf len, stun_set_allocate_response_str m nbh (Some tid) addr1 addr2 client lifetime max 0 None token (Some (mobile_id ++ [0])) rnd = Some (true, buf, len) /\
    built_le 170 buf len (stun_make_success_response STUN_METHOD_ALLOCATE) STUN_MAGIC_COOKIE tid
      (allocate_attrs m tid addr1 addr2 client lifetime max token mobile_id).
Proof.
  intros Hroom Hm Htid H1 H2 Hc (Hmb & Hmn & Hml). unfold stun_set_allocate_response_str, allocate_attrs. rewrite decide_True by done.
  destruct (success_built_le STUN_METHOD_ALLOCATE tid nbh rnd Hroom) as (b0 & -> & B0); [done|]. mred.
  destruct (add_opt_addr_ok m _ _ _ _ _ _ _ STUN_ATTRIBUTE_XOR_RELAYED_ADDRESS addr1 Hm B0 Htid H1) as (b1 & n1 & -> & B1); [done|]. unfold add_then at 1. mred.
  destruct (add_opt_addr_ok m _ _ _ _ _ _ _ STUN_ATTRIBUTE_XOR_RELAYED_ADDRESS addr2 Hm B1 Htid H2) as (b2 & n2 & -> & B2); [done|]. unfold add_then at 1. mred.
  destruct (add_opt_addr_ok m _ _ _ _ _ _ _ STUN_ATTRIBUTE_XOR_MAPPED_ADDRESS client Hm B2 Htid Hc) as (b3 & n3 & -> & B3); [done|]. unfold add_then at 1. mred.
  set (l3 := (_ ++ _) ++ _) in B3.
  assert (exists b4 n4, (if decide (token <> 0) then
      '(_, buf, len) ← stun_attr_add_str b3 n3 STUN_ATTRIBUTE_RESERVATION_TOKEN (Some (le_bytes 8 (nswap64 token))) 8; Some (buf, len) else Some (b3, n3)) = Some (b4, n4) /\
    built_le 120 b4 n4 (stun_make_success_response STUN_METHOD_ALLOCATE) STUN_MAGIC_COOKIE tid
      (l3 ++ if decide (token <> 0) then [new_attr STUN_ATTRIBUTE_RESERVATION_TOKEN (le_bytes 8 (nswap64 token))] else [])) as (b4 & n4 & -> & B4).
  { case_decide; [|exists b3, n3; rewrite app_nil_r; split; [done|]; destruct B3; split; [done|lia]].
    destruct (built_le_add _ _ _ _ _ _ _ STUN_ATTRIBUTE_RESERVATION_TOKEN (le_bytes 8 (nswap64 token)) 8 B3) as (b4 & n4 & -> & B4);
      [apply le_bytes_bytes|by rewrite length_le_bytes|done|]. mred. exists b4, n4. split; [done|]. destruct B4; split; [done|lia]. }
  mred. rewrite nswap_le_bytes_be. fold (shown_lifetime lifetime max).
  destruct (built_le_add _ _ _ _ _ _ _ STUN_ATTRIBUTE_LIFETIME (be_bytes 4 (shown_lifetime lifetime max)) 4 B4) as (b5 & n5 & -> & B5);
    [apply be_bytes_bytes|by rewrite length_be_bytes|done|]. unfold add_then at 1. mred. rewrite (strlen_app mobile_id []) by done. mred.
  unfold l3 in B5. rewrite <- !(assoc_L (++)) in B5. cbn [app] in B5.
  destruct (decide (zlen mobile_id = 0)) as [E|E].
  { assert (mobile_id = []) as -> by (by apply length_zero_iff_nil; lia). rewrite (decide_True (P := @nil Z = [])) by done. eexists _, _. split; [done|]. destruct B5; split; [done|lia]. }
  rewrite (decide_False (P := mobile_id = [])) by (intros ->; done).
  destruct (built_add _ _ _ _ _ _ STUN_ATTRIBUTE_MOBILITY_TICKET (mobile_id ++ [0]) (zlen mobile_id) (proj1 B5)) as (b6 & E6 & B6).
  - apply Forall_app_2; [done|by repeat constructor].
  - rewrite length_app. cbn [length]. lia.
  - destruct B5 as [_ B5]. unfold MAX_STUN_MESSAGE_SIZE. lia.
  - rewrite Nat2Z.id, take_app_length in E6, B6. rewrite <- !(assoc_L (++)) in E6, B6. cbn [app] in E6, B6.
    rewrite E6. unfold add_then. mred. eexists _, _. split; [done|]. split; [exact B6|]. destruct B5 as [_ B5].
    pose proof (msg_len_add (shown m STUN_ATTRIBUTE_XOR_RELAYED_ADDRESS tid addr1 ++ shown m STUN_ATTRIBUTE_XOR_RELAYED_ADDRESS tid addr2 ++
      shown m STUN_ATTRIBUTE_XOR_MAPPED_ADDRESS tid client ++ (if decide (token <> 0) then [new_attr STUN_ATTRIBUTE_RESERVATION_TOKEN (le_bytes 8 (nswap64 token))] else []) ++
      [new_attr STUN_ATTRIBUTE_LIFETIME (be_bytes 4 (shown_lifetime lifetime max))]) STUN_ATTRIBUTE_MOBILITY_TICKET mobile_id Hmb) as Hadd.
    rewrite <- !(assoc_L (++)) in Hadd. cbn [app] in Hadd. lia.
Qed.
