(* ===== verification/AllocateDone.v ===== *)
(** * The outcomes of an Allocate request

    A request is refused and opens nothing, or is a retransmission and changes nothing, or
    makes the allocation: its relay sockets are open and their timers are set to the
    lifetime. *)

From S2P Require Import Prelude CString IoAddr MsgAddr StunHeader StunAttr StunFields StunFieldsFacts Integrity IoTimer PermLink Session SessionFacts AttrWalk Handlers HandlerFacts Auth AuthFacts RelaySession RelaySessionFacts Allocate AllocateFacts.
From stdpp Require Import gmap.
#[global] Open Scope Z_scope.

(** ** The relay sockets of a request *)

Definition family_code (i : bool) : Z := if i then FAMILY_VALUE_IPV6 else FAMILY_VALUE_IPV4.

Definition answers_ok (ans : answers) : Prop := forall i, answer_ok (family_of i) (ra_sockets (ans (family_code i))).

Lemma get_family_code i d c : get_family (family_code i) d c = family_of i.
Proof. by destruct i. Qed.

(** A relay is down, or it ends at the given time. *)
Definition relay_fits (a : allocation) (i timer : bool) (expiration : Z) : Prop :=
  relay_down a i \/ rs_s (relay_at a i) <> 0 /\ (timer = true -> relay_up a i expiration).

Lemma relay_up_frame a a' i t : relay_ok a -> relay_ok a' -> relay_at a' i = relay_at a i -> relay_up a i t -> relay_up a' i t.
Proof.
  intros Ha Ha' E (H1 & H2 & H3). unfold relay_up. rewrite E. split; [done|]. split; [done|]. rewrite <- E. apply (ro_timer a' Ha').
  rewrite E. destruct (ro_engine a Ha) as [_ Hp]. specialize (Hp _ _ H3). lia.
Qed.

Lemma down_frame a a' i : relay_at a' i = relay_at a i -> relay_down a i -> relay_down a' i.
Proof. unfold relay_down. by intros ->. Qed.

Lemma set_failure_ok a f : relay_ok a -> relay_ok (set_relay_session_failure a f) /\ forall i, relay_at (set_relay_session_failure a f) i = relay_at a i.
Proof. intros Ha. split; [|by intros []]. destruct Ha. by split. Qed.

Definition outcome_code (e : Z) : Prop := e = 0 \/ error_code_ok e.

Section relays.
Context (server : turn_turnserver) (client : option client_socket) (ans : answers) (Hlt : lifetimes_ok server).
Context (Hcl : client_open client = true) (Hans : answers_ok ans) (lifetime : Z) (Hl : 0 <= lifetime).

Definition expires : Z := u32 (ctime server + relay_lifetime server lifetime).

(** One of them. *)
Lemma create_one_ok a i token code out :
  relay_ok a -> relay_down a i -> (token <> 0 -> relay_down a (negb i)) -> ro_err out = 0 -> phrase_ok (ro_reason out) -> error_code_ok code ->
  exists a' out', create_one server client a ans lifetime (family_code i) token (family_of i) code out = Some (a', out') /\ relay_ok a' /\
    is_valid a' = is_valid a /\ al_tid a' = al_tid a /\
    (ro_err out' = 0 /\ ro_reason out' = ro_reason out /\ failure4 a' = failure4 a /\ failure6 a' = failure6 a /\
       (exists j, (token = 0 -> j = i) /\ relay_at a' (negb j) = relay_at a (negb j) /\ rs_s (relay_at a' j) <> 0 /\
          (ra_timer (ans (family_code i)) = true -> relay_up a' j expires)) \/
     out_error out' /\ relays_kept a a').
Proof.
  intros Ha Hd Hd' Ho Hre Hcode. unfold create_one.
  destruct (create_relay_ok server client Hlt a i (ans (family_code i)) lifetime (family_code i) token out Hcl Ha Hd Hd' Hl (get_family_code i _ _) (Hans i) Ho Hre)
    as (res & a1 & out1 & -> & Ha1 & (Hv & Ht & Hf4 & Hf6) & [(-> & (j & Hj & Hr & Hs & Hup) & He & Hr1)|(-> & Hkept & Hout)]); mred.
  - rewrite decide_False by lia. exists a1, out1. split; [done|]. split; [done|]. split; [done|]. split; [done|]. left. do 4 (split; [done|]). exists j.
    split; [done|]. split; [done|]. split; [done|exact Hup].
  - rewrite decide_True by lia. destruct (set_failure_ok a1 (family_of i) Ha1) as [Ha2 Hr2]. eexists _, _. split; [done|]. split; [done|]. split; [done|]. split; [done|].
    right. destruct Hout as [Hc (r & Hr & Hp)]. split.
    + split; cbn; [rewrite decide_False; [done|unfold error_code_ok in Hc; lia]|by exists r].
    + intros k. rewrite Hr2. apply Hkept.
Qed.

Lemma kept_down a a' : relays_kept a a' -> (forall i, relay_down a i) -> forall i, relay_down a' i.
Proof. intros Hk Hd i. unfold relay_down. destruct (Hk i) as [-> _]. apply Hd. Qed.

(** What was opened, with the codes of the two families. *)
Record relays_opened (a a' : allocation) (e e' : request_error) (err4 err6 : Z) (timers : bool) : Prop := {
  op_relay : relay_ok a';
  op_valid : is_valid a' = is_valid a;
  op_tid : al_tid a' = al_tid a;
  op_error : fine_error e';
  op_unknown : er_unknown e' = er_unknown e;
  op_codes : outcome_code err4 /\ outcome_code err6;
  op_failed : er_code e' <> 0 -> is_Some (er_reason e') /\ forall i, relay_down a' i;
  op_done : er_code e' = 0 -> (exists i, rs_s (relay_at a' i) <> 0) /\ forall i, relay_fits a' i timers expires;
  op_clean : er_code e' = 0 -> err4 = 0 -> err6 = 0 -> failure4 a' = failure4 a /\ failure6 a' = failure6 a
}.

Lemma out_error_fine o u : out_error o -> fine_error (mk_error (ro_err o) (ro_reason o) u) /\ ro_err o <> 0 /\ is_Some (ro_reason o).
Proof. intros [Hc (r & -> & Hp)]. split; [split; [by right|done]|]. split; [unfold error_code_ok in Hc; lia|by eexists]. Qed.

(** One family. *)
Lemma create_single_ok a i token e :
  relay_ok a -> (forall j, relay_down a j) -> fine_error e -> er_code e = 0 ->
  exists a' out, create_one server client a ans lifetime (family_code i) token (family_of i) 437 (mk_relay_out 0 (er_code e) (er_reason e)) = Some (a', out) /\
    relays_opened a a' e (mk_error (ro_err out) (ro_reason out) (er_unknown e)) 0 0 (ra_timer (ans (family_code i))).
Proof.
  intros Ha Hd [_ Hre] He0. destruct (create_one_ok a i token 437 (mk_relay_out 0 (er_code e) (er_reason e)) Ha (Hd i) (fun _ => Hd (negb i)) He0 Hre)
    as (a' & out & -> & Ha' & Hv & Ht & [(He & Hr & Hf4 & Hf6 & j & _ & Hother & Hs & Hup)|(Hout & Hkept)]); [split; lia|exists a', out..].
  - split; [done|]. split; try done; cbn.
    + split; [by left|]. cbn. by rewrite Hr.
    + by split; left.
    + intros _. split; [by exists j|]. intros k. destruct (decide (k = j)) as [->|Hne]; [right; split; [done|exact Hup]|].
      left. replace k with (negb j) by (by destruct k, j). apply (down_frame a); [done|apply Hd].
  - split; [done|]. destruct (out_error_fine out (er_unknown e) Hout) as (H1 & H2 & H3). split; try done; cbn; try by split; left.
    intros _. split; [done|]. by apply (kept_down a).
Qed.

(** How one call ends. *)
Definition one_done (a a' : allocation) (i : bool) (out out' : relay_out) : Prop :=
  ro_err out' = 0 /\ ro_reason out' = ro_reason out /\ failure4 a' = failure4 a /\ failure6 a' = failure6 a /\
    (exists j, (0 = 0 -> j = i) /\ relay_at a' (negb j) = relay_at a (negb j) /\ rs_s (relay_at a' j) <> 0 /\
       (ra_timer (ans (family_code i)) = true -> relay_up a' j expires)) \/
  out_error out' /\ relays_kept a a'.

Lemma one_fits a a' i out out' :
  one_done a a' i out out' -> relay_down a i ->
  relay_fits a' i (ra_timer (ans (family_code i))) expires /\ (ro_err out' = 0 -> rs_s (relay_at a' i) <> 0) /\ (ro_err out' <> 0 -> relay_down a' i).
Proof.
  intros [(E0 & _ & _ & _ & j & Hj & _ & Hs & Hup)|(Hout & Hk)] Hd.
  - rewrite (Hj eq_refl) in Hs, Hup. split; [by right|]. by split.
  - assert (relay_down a' i) as Hdn by (unfold relay_down; destruct (Hk i) as [-> _]; exact Hd). split; [by left|]. split; [|done].
    intros E0. destruct Hout as [Hc _]. unfold error_code_ok in Hc. lia.
Qed.

(** The other call keeps it. *)
Lemma one_keeps a a' i out out' :
  one_done a a' i out out' -> rs_s (relay_at a' (negb i)) = rs_s (relay_at a (negb i)) /\
    (rs_s (relay_at a (negb i)) <> 0 -> relay_at a' (negb i) = relay_at a (negb i)).
Proof.
  intros [(_ & _ & _ & _ & j & Hj & Hother & _)|(_ & Hk)]; [|apply Hk]. rewrite (Hj eq_refl) in Hother. by rewrite Hother.
Qed.

(** Both families. *)
Lemma create_dual_ok a e :
  relay_ok a -> (forall j, relay_down a j) -> fine_error e -> er_code e = 0 ->
  exists a' token e' err4 err6, create_relays server client a ans lifetime FAMILY_VALUE_IPV4 FAMILY_VALUE_IPV6 0 e = Some (a', token, e', err4, err6) /\
    relays_opened a a' e e' err4 err6 (ra_timer (ans FAMILY_VALUE_IPV4) && ra_timer (ans FAMILY_VALUE_IPV6)).
Proof.
  intros Ha Hd He He0. unfold create_relays. rewrite !decide_False by (unfold FAMILY_VALUE_IPV4, FAMILY_VALUE_IPV6; lia).
  destruct (create_one_ok a false 0 440 (mk_relay_out 0 0 None) Ha (Hd false)) as (a1 & out4 & E4 & Ha1 & Hv1 & Ht1 & H1); [done|done|apply no_phrase|split; lia|].
  cbn [family_code family_of] in E4. rewrite E4. mred. change (one_done a a1 false (mk_relay_out 0 0 None) out4) in H1.
  destruct (one_keeps _ _ _ _ _ H1) as [Hd1 _]. cbn [negb] in Hd1. rewrite (Hd true) in Hd1.
  destruct (create_one_ok a1 true 0 440 (mk_relay_out (ro_token out4) 0 None) Ha1 Hd1) as (a2 & out6 & E6 & Ha2 & Hv2 & Ht2 & H2); [done|done|apply no_phrase|split; lia|].
  cbn [family_code family_of] in E6. rewrite E6. mred. change (one_done a1 a2 true (mk_relay_out (ro_token out4) 0 None) out6) in H2.
  eexists a2, _, _, _, _. split; [done|].
  destruct (one_fits _ _ _ _ _ H1 (Hd false)) as (F4 & G4 & K4). destruct (one_fits _ _ _ _ _ H2 Hd1) as (F6 & G6 & K6).
  destruct (one_keeps _ _ _ _ _ H2) as [Es Er]. cbn [negb family_code] in *.
  assert (outcome_code (ro_err out4)) as Hc4 by (destruct H1 as [(-> & _)|([Hc _] & _)]; [by left|by right]).
  assert (outcome_code (ro_err out6)) as Hc6 by (destruct H2 as [(-> & _)|([Hc _] & _)]; [by left|by right]).
  assert (ro_err out4 <> 0 -> is_Some (ro_reason out4) /\ phrase_ok (ro_reason out4)) as Hr4.
  { destruct H1 as [(-> & _)|([_ (r & -> & Hp)] & _)]; [done|]. by split; [eexists|]. }
  assert (relay_fits a2 false (ra_timer (ans FAMILY_VALUE_IPV4)) expires) as F4'.
  { destruct F4 as [Hdn|[Hs Hup]]; [left; unfold relay_down in *; by rewrite Es|]. right. rewrite Es. split; [done|]. intros Ht. apply (relay_up_frame a1); auto. }
  assert (forall i (b : bool), relay_fits a2 i b expires -> forall c, relay_fits a2 i (b && c) expires /\ relay_fits a2 i (c && b) expires) as Hw.
  { intros i b [Hdn|[Hs Hup]] c; [split; by left|]. split; right; (split; [done|]); intros Hbc; apply Hup; by destruct b, c. }
  split; try done; try congruence.
  - case_decide as E; [|done]. destruct E as [E E']. destruct (Hr4 E) as [(r & ->) Hp]. split; [|exact Hp]. destruct Hc4; [done|by right].
  - case_decide as E; [|done]. destruct E as [E E']. destruct (Hr4 E) as [(r & ->) _]. done.
  - case_decide as E; [|done]. destruct E as [E E']. destruct (Hr4 E) as [(r & Er4) _]. rewrite Er4. cbn [er_code er_reason]. intros _. split; [by eexists|].
    intros []; [by apply K6|]. unfold relay_down. rewrite Es. by apply K4.
  - case_decide as E.
    + destruct E as [E E']. destruct (Hr4 E) as [(r & ->) _]. done.
    + intros _. split; [|intros []; [apply (Hw true _ F6)|apply (Hw false _ F4')]].
      destruct (decide (ro_err out4 = 0)) as [E4'|E4']; [exists false; rewrite Es; by apply G4|]. exists true. apply G6.
      destruct (decide (ro_err out6 = 0)); [done|]. by destruct E.
  - intros _ E4' E6'. destruct H1 as [(_ & _ & P4 & P6 & _)|([Hc _] & _)]; [|unfold error_code_ok in Hc; lia].
    destruct H2 as [(_ & _ & Q4 & Q6 & _)|([Hc _] & _)]; [split; congruence|unfold error_code_ok in Hc; lia].
Qed.

(** Every timer of the request is set. *)
Definition timers_set : bool := ra_timer (ans FAMILY_VALUE_IPV4) && ra_timer (ans FAMILY_VALUE_IPV6).

Lemma opened_weaken a a' e e' err4 err6 t t' :
  (t' = true -> t = true) -> relays_opened a a' e e' err4 err6 t -> relays_opened a a' e e' err4 err6 t'.
Proof.
  intros Ht []. split; try done. intros H0. destruct (op_done0 H0) as [Hex Hall]. split; [done|]. intros i. destruct (Hall i) as [Hd|[Hs Hup]]; [by left|right; auto].
Qed.

Lemma create_relays_ok a q e :
  relay_ok a -> (forall j, relay_down a j) -> request_ok q -> fine_error e -> er_code e = 0 ->
  exists af4 af6 a' token e' err4 err6, default_families server client (aq_af4 q) (aq_af6 q) = (af4, af6) /\
    create_relays server client a ans lifetime af4 af6 (aq_token q) e = Some (a', token, e', err4, err6) /\ relays_opened a a' e e' err4 err6 timers_set.
Proof.
  intros Ha Hd Hq He He0.
  assert (forall i, exists a' token e' err4 err6, create_relays server client a ans lifetime (if i : bool then 0 else FAMILY_VALUE_IPV4) (if i then FAMILY_VALUE_IPV6 else 0) (aq_token q) e
      = Some (a', token, e', err4, err6) /\ relays_opened a a' e e' err4 err6 timers_set) as Hone.
  { intros i. destruct (create_single_ok a i (aq_token q) e Ha Hd He He0) as (a' & out & E & Hop). eexists a', _, _, 0, 0. split.
    - unfold create_relays. destruct i; cbn [family_code family_of] in E.
      + rewrite decide_True by (split; [done|unfold FAMILY_VALUE_IPV6; lia]). rewrite E. mred. done.
      + rewrite decide_False by (unfold FAMILY_VALUE_IPV4; lia). rewrite decide_True by (split; [unfold FAMILY_VALUE_IPV4; lia|done]). rewrite E. mred. done.
    - eapply opened_weaken; [|exact Hop]. unfold timers_set. intros [H4 H6]%andb_true_iff. by destruct i. }
  unfold default_families. destruct (decide (aq_af4 q <> 0 \/ aq_af6 q <> 0)) as [Hsome|Hnone].
  - destruct (rq_af4 q Hq) as [E4|E4], (rq_af6 q Hq) as [E6|E6]; rewrite E4, E6; [lia|..].
    + destruct (Hone true) as (a' & token & e' & err4 & err6 & H). by exists 0, FAMILY_VALUE_IPV6, a', token, e', err4, err6.
    + destruct (Hone false) as (a' & token & e' & err4 & err6 & H). by exists FAMILY_VALUE_IPV4, 0, a', token, e', err4, err6.
    + assert (aq_token q = 0) as ->.
      { destruct (decide (aq_token q = 0)) as [|Ht]; [done|]. destruct (rq_token q Hq) as [_ Htok]. destruct (Htok Ht) as [H4 _]. rewrite E4 in H4. done. }
      destruct (create_dual_ok a e Ha Hd He He0) as (a' & token & e' & err4 & err6 & H & Hop). exists FAMILY_VALUE_IPV4, FAMILY_VALUE_IPV6, a', token, e', err4, err6. split; [done|]. by split.
  - destruct (Hone true) as (a4 & t4 & e4 & x4 & y4 & H4), (Hone false) as (a6 & t6 & e6 & x6 & y6 & H6).
    destruct (allocation_default_address_family server).
    + exists FAMILY_VALUE_IPV4, 0, a6, t6, e6, x6, y6. by split.
    + exists 0, FAMILY_VALUE_IPV6, a4, t4, e4, x4, y4. by split.
    + case_decide; [exists 0, FAMILY_VALUE_IPV6, a4, t4, e4, x4, y4|exists FAMILY_VALUE_IPV4, 0, a6, t6, e6, x6, y6]; by split.
Qed.

End relays.

(** ** The session *)

Record session_ok (ss : ts_ur_super_session) : Prop := {
  so_relay : relay_ok (us_alloc ss);
  so_unused : is_valid (us_alloc ss) = false -> forall i, relay_down (us_alloc ss) i;
  so_remote c x : us_client ss = Some c -> cl_remote c = Some x -> sendable x;
  so_mobile_id : name_ok 32 (sv_s_mobile_id (us_vars ss));
  so_auth : auth_ok (us_auth ss);
  so_max_time : 0 <= max_session_time_auth (us_auth ss) < 2 ^ 32
}.

Record alloc_server (server : turn_turnserver) : Prop := {
  ss_lifetimes : lifetimes_ok server;
  ss_mapping : mapping_fit (addr_mapping server);
  ss_external x : external_ip server = Some x -> sendable x
}.

Lemma set_port_sendable x p : sendable x -> sendable (addr_set_port x p).
Proof.
  intros [(H1 & H2 & H3 & H4 & H5 & H6) He]. unfold addr_set_port. case_decide; [|by split].
  split; [exact (conj H1 (conj (nswap_range 2 _) (conj H3 (conj H4 (conj H5 H6)))))|exact He].
Qed.

(** The address the client is told. *)
Lemma relayed_addr_ok server a i :
  alloc_server server -> relay_ok a ->
  exists x, relayed_addr server a (family_of i) = Some x /\ (forall y, x = Some y -> sendable y) /\ (rs_s (relay_at a i) <> 0 -> is_Some x).
Proof.
  intros Hs Ha. unfold relayed_addr. destruct (get_relay_session_failure a (family_of i)).
  { eexists. split; [done|]. split; [|by eexists]. intros y [= <-]. apply any_sendable. }
  rewrite relay_at_family, index_family. unfold get_local_addr_from_ioa_socket. case_decide as E; [mred; eexists; split; [done|]; by split|].
  destruct (ro_socket a Ha i E) as (so & Hso & _). destruct (ro_local a Ha _ _ Hso) as [Hw Hi]. unfold get_socket. rewrite Hso. mred. eexists. split; [done|].
  split; [|by eexists]. intros y [= <-]. destruct (external_ip server) as [ext|] eqn:Ee; [|by apply inet_sendable].
  apply set_port_sendable. by apply (ss_external server Hs).
Qed.

(** Responses. *)
Definition success_reply (m : mapping) (tid : list Z) (addr1 addr2 client : option ioa_addr) (max lifetime token : Z) (mobile_id : list Z) (extra : list sattr)
    (response : list Z * Z) : Prop :=
  built_le 1300 response.1 response.2 (stun_make_success_response STUN_METHOD_ALLOCATE) STUN_MAGIC_COOKIE tid
    (allocate_attrs m tid addr1 addr2 client lifetime max token mobile_id ++ extra).

Definition error_reply (m err : Z) (tid : list Z) (response : list Z * Z) : Prop :=
  exists reason, reason_ok reason /\
    built_le 560 response.1 response.2 (stun_make_error_response m) STUN_MAGIC_COOKIE tid
      [new_attr STUN_ATTRIBUTE_ERROR_CODE (error_value 0 err (take 508 (effective_reason err reason)))].

Lemma allocate_success_ok server ss tid nbh rnd lifetime token :
  alloc_server server -> session_ok ss -> response_room tid nbh rnd -> is_bytes tid ->
  exists addr1 addr2, relayed_addr server (us_alloc ss) AF_INET = Some addr1 /\ relayed_addr server (us_alloc ss) AF_INET6 = Some addr2 /\
    match addr1, addr2 with
    | None, None => allocate_success server ss tid nbh rnd lifetime token = Some None
    | _, _ => exists first response, allocate_success server ss tid nbh rnd lifetime token = Some (Some response) /\
        built_le 170 response.1 response.2 (stun_make_success_response STUN_METHOD_ALLOCATE) STUN_MAGIC_COOKIE tid
          (allocate_attrs (addr_mapping server) tid addr1 addr2 (match us_client ss with Some c => cl_remote c | None => None end)
             (lifetime (us_alloc ss) first) (u32 (max_allocate_lifetime server)) token (sv_s_mobile_id (us_vars ss)))
    end.
Proof.
  intros Hs Hss Hroom Htid. pose proof (so_relay ss Hss) as Ha.
  destruct (relayed_addr_ok server (us_alloc ss) false Hs Ha) as (addr1 & E1 & A1 & _). destruct (relayed_addr_ok server (us_alloc ss) true Hs Ha) as (addr2 & E2 & A2 & _).
  cbn [family_of] in E1, E2. exists addr1, addr2. split; [done|]. split; [done|]. unfold allocate_success. rewrite E1, E2. mred.
  set (client := match us_client ss with Some c => cl_remote c | None => None end).
  assert (forall x, client = Some x -> sendable x) as Hc.
  { intros x. unfold client. destruct (us_client ss) as [c|] eqn:Ec; [|done]. by apply (so_remote ss Hss c). }
  assert (forall t, exists response, ('(_, buf, len) ← stun_set_allocate_response_str (addr_mapping server) nbh (Some tid) addr1 addr2 client t
      (u32 (max_allocate_lifetime server)) 0 None token (Some (sv_s_mobile_id (us_vars ss) ++ [0])) rnd; Some (Some (buf, len))) = Some (Some response) /\
    built_le 170 response.1 response.2 (stun_make_success_response STUN_METHOD_ALLOCATE) STUN_MAGIC_COOKIE tid
      (allocate_attrs (addr_mapping server) tid addr1 addr2 client t (u32 (max_allocate_lifetime server)) token (sv_s_mobile_id (us_vars ss)))) as Hresp.
  { intros t. destruct (allocate_response_ok (addr_mapping server) nbh tid rnd addr1 addr2 client t (u32 (max_allocate_lifetime server)) token
      (sv_s_mobile_id (us_vars ss)) Hroom (ss_mapping server Hs) Htid A1 A2 Hc (so_mobile_id ss Hss)) as (buf & len & -> & Hb). mred. by exists (buf, len). }
  destruct addr1 as [x1|]; [|destruct addr2 as [x2|]; [|done]].
  - destruct (Hresp (lifetime (us_alloc ss) x1)) as (r & Hr & Hb). exists x1, r. destruct addr2; by split.
  - destruct (Hresp (lifetime (us_alloc ss) x2)) as (r & Hr & Hb). by exists x2, r.
Qed.

Lemma address_error_ok k buf len ty ck tid l family code :
  built_le k buf len ty ck tid l -> k + 600 < MAX_STUN_MESSAGE_SIZE ->
  exists b buf' len' v, stun_attr_add_address_error_code buf len family code = Some (b, buf', len') /\
    built_le (k + 523) buf' len' ty ck tid (l ++ [new_attr STUN_ATTRIBUTE_ADDRESS_ERROR_CODE v]).
Proof.
  intros [Hb Hk] Hroom. unfold stun_attr_add_address_error_code, cstr. rewrite error_avalue_spec by apply default_reason_nonzero. mred.
  set (txt := take 508 _). assert (length txt <= 508)%nat by (unfold txt; rewrite length_take; lia). assert (is_bytes txt) by (apply Forall_take, str_bytes_bytes).
  pose proof (Z.mod_pos_bound (- zlen txt) 4) as Hmod. set (av := (_ ++ txt) ++ _). set (alen := 4 + zlen txt + _).
  assert (is_bytes av) as Hav.
  { unfold av. repeat apply Forall_app_2; [|done|by apply Forall_replicate]. repeat constructor; (apply wrap_byte || done). }
  destruct (built_add _ _ _ _ _ _ STUN_ATTRIBUTE_ADDRESS_ERROR_CODE av alen Hb Hav) as (buf' & H1 & H2);
    [unfold alen, av; autorewrite with lens; zlia|unfold alen; zlia|]. set (v := take (Z.to_nat alen) av) in *.
  exists true, buf', (msg_len (l ++ [new_attr STUN_ATTRIBUTE_ADDRESS_ERROR_CODE v])), v. split; [exact H1|]. split; [exact H2|].
  assert (is_bytes v) as Hv by (by apply Forall_take). assert (zlen v <= 516) as Hvl by (unfold v; rewrite length_take; unfold alen; zlia).
  pose proof (msg_len_add l STUN_ATTRIBUTE_ADDRESS_ERROR_CODE v Hv) as Hadd. lia.
Qed.

(** The answer to a request that was refused. *)
Lemma refused_answer_ok server ss e err4 err6 tid nbh rnd :
  fine_error e -> response_room tid nbh rnd ->
  let code := if decide (er_code e = 0) then 437 else er_code e in
  exists response, allocate_answer server ss None e err4 err6 tid nbh rnd = Some (mk_allocate_reply (set_error_code e code) response ss) /\
    error_reply STUN_METHOD_ALLOCATE code tid response /\ error_code_ok code.
Proof.
  intros [Hc (p & Hp & Hre)] (Ht & Hn & Hr) code. unfold allocate_answer.
  assert ((if er_code e =? 0 then set_error_code e 437 else e) = set_error_code e code) as ->.
  { unfold code. destruct (Z.eqb_spec (er_code e) 0); [by rewrite decide_True|]. rewrite decide_False by done. by destruct e. }
  assert (error_code_ok code) as Hcode by (unfold code; case_decide; [split; lia|destruct Hc; done]).
  unfold stun_set_allocate_response_str. cbn [er_code er_reason set_error_code].
  rewrite (decide_False (P := code = 0)) by (unfold error_code_ok in Hcode; lia). rewrite (wrap_small 16) by (unfold error_code_ok in Hcode; lia). rewrite Hp.
  destruct (error_built STUN_METHOD_ALLOCATE nbh code p tid rnd Hn Hr Ht) as (buf & len & -> & Hb); [done|done|]. mred.
  rewrite (bool_decide_false (code = 0)) by (unfold error_code_ok in Hcode; lia). cbn [andb]. mred. exists (buf, len). split; [done|]. split; [|done]. by exists p.
Qed.

(** The answer to a request that was granted. *)
Lemma granted_answer_ok server ss e response err4 err6 tid nbh rnd l :
  er_code e = 0 -> built_le 200 response.1 response.2 (stun_make_success_response STUN_METHOD_ALLOCATE) STUN_MAGIC_COOKIE tid l ->
  exists response' extra, allocate_answer server ss (Some response) e err4 err6 tid nbh rnd = Some (mk_allocate_reply e response' ss) /\
    built_le 1300 response'.1 response'.2 (stun_make_success_response STUN_METHOD_ALLOCATE) STUN_MAGIC_COOKIE tid (l ++ extra) /\
    (err4 = 0 -> err6 = 0 -> extra = []) /\ Forall (fun b => at_type b = STUN_ATTRIBUTE_ADDRESS_ERROR_CODE) extra.
Proof.
  intros H0 Hb. destruct response as [buf len]. cbn [fst snd] in Hb. unfold allocate_answer. mred. rewrite H0, bool_decide_true by done. cbn [andb].
  assert (exists b1 n1 x1, (if bool_decide (err4 <> 0) then '(_, buf, len) ← stun_attr_add_address_error_code buf len FAMILY_VALUE_IPV4 err4; Some (buf, len)
      else Some (buf, len)) = Some (b1, n1) /\ built_le 723 b1 n1 (stun_make_success_response STUN_METHOD_ALLOCATE) STUN_MAGIC_COOKIE tid (l ++ x1) /\ (err4 = 0 -> x1 = []) /\
      Forall (fun b => at_type b = STUN_ATTRIBUTE_ADDRESS_ERROR_CODE) x1) as (b1 & n1 & x1 & -> & B1 & X1 & T1).
  { case_bool_decide; [|exists buf, len, []; rewrite app_nil_r; split; [done|]; split; [|by split]; destruct Hb; split; [done|lia]].
    destruct (address_error_ok _ _ _ _ _ _ _ FAMILY_VALUE_IPV4 err4 Hb) as (b & b1 & n1 & v & -> & B1); [done|]. mred. exists b1, n1, [new_attr STUN_ATTRIBUTE_ADDRESS_ERROR_CODE v].
    split; [done|]. split; [exact B1|]. split; [done|by repeat constructor]. }
  mred.
  assert (exists b2 n2 x2, (if bool_decide (err6 <> 0) then '(_, buf, len) ← stun_attr_add_address_error_code b1 n1 FAMILY_VALUE_IPV6 err6; Some (buf, len)
      else Some (b1, n1)) = Some (b2, n2) /\ built_le 1300 b2 n2 (stun_make_success_response STUN_METHOD_ALLOCATE) STUN_MAGIC_COOKIE tid (l ++ x1 ++ x2) /\ (err6 = 0 -> x2 = []) /\
      Forall (fun b => at_type b = STUN_ATTRIBUTE_ADDRESS_ERROR_CODE) x2) as (b2 & n2 & x2 & -> & B2 & X2 & T2).
  { case_bool_decide; [|exists b1, n1, []; rewrite app_nil_r; split; [done|]; split; [|by split]; destruct B1; split; [done|lia]].
    destruct (address_error_ok _ _ _ _ _ _ _ FAMILY_VALUE_IPV6 err6 B1) as (b & b2 & n2 & v & -> & B2); [done|]. mred.
    exists b2, n2, [new_attr STUN_ATTRIBUTE_ADDRESS_ERROR_CODE v]. split; [done|]. rewrite (assoc_L (++)).
    split; [|split; [done|by repeat constructor]]. destruct B2 as [B2 ?]. split; [exact B2|lia]. }
  mred. exists (b2, n2), (x1 ++ x2). split; [done|]. split; [exact B2|]. split; [|by apply Forall_app]. intros E4 E6. by rewrite (X1 E4), (X2 E6).
Qed.
