(* ===== verification/AllocateMain.v ===== *)
(** * Allocate, from the request to the response

    The handler is total: on any received bytes it answers with a message of the
    transaction, and the answer says what was done to the session. *)

From S2P Require Import Prelude CString IoAddr MsgAddr StunHeader StunAttr StunFields StunFieldsFacts Integrity IoTimer Permission PermFacts PermLink Session SessionFacts AttrWalk Handlers HandlerFacts Auth AuthFacts AuthClient RelaySession RelaySessionFacts Allocate AllocateFacts AllocateDone RelaySystem.
From stdpp Require Import gmap.
#[global] Open Scope Z_scope.

(** ** The quotas *)

(** What the quotas and the checks leave alone. *)
Definition same_core (ss ss' : ts_ur_super_session) : Prop :=
  us_alloc ss' = us_alloc ss /\ us_client ss' = us_client ss /\ us_tables ss' = us_tables ss /\
  max_session_time_auth (us_auth ss') = max_session_time_auth (us_auth ss).

Lemma same_core_trans a b c : same_core a b -> same_core b c -> same_core a c.
Proof. unfold same_core. intuition congruence. Qed.

Lemma session_ok_core ss ss' :
  session_ok ss -> same_core ss ss' -> auth_ok (us_auth ss') -> name_ok 32 (sv_s_mobile_id (us_vars ss')) -> session_ok ss'.
Proof. intros [H1 H2 H3 H4 H5 H6] (Ea & Ec & _ & Et) Hau Hm. split; rewrite ?Ea, ?Ec, ?Et; auto. Qed.

Lemma set_vars_ok ss v : session_ok ss -> name_ok 32 (sv_s_mobile_id v) -> session_ok (set_vars ss v) /\ same_core ss (set_vars ss v).
Proof. intros Hss Hm. assert (same_core ss (set_vars ss v)) as H by done. split; [|done]. apply (session_ok_core ss); [done|done|apply Hss|done]. Qed.

Lemma inc_quota_ok server q ss u :
  session_ok ss -> name_ok STUN_MAX_USERNAME_SIZE u ->
  exists granted ss', inc_quota server q ss u = (granted, ss') /\ session_ok ss' /\ same_core ss ss'.
Proof.
  intros Hss Hu. unfold inc_quota. assert (session_ok ss /\ same_core ss ss) as H0 by done.
  destruct (chquotacb q) as [ask|]; [|by eexists _, _]. destruct (sv_quota_used _); [by eexists _, _|]. case_match; [by eexists _, _|].
  case_match; [|by eexists _, _]. eexists _, _. split; [done|]. set (ss' := set_vars _ _). assert (same_core ss ss') as Hc by done.
  split; [|done]. apply (session_ok_core ss); [done|done| |apply Hss]. destruct (so_auth ss Hss). by split.
Qed.

Lemma allocate_bandwidth_ok q ss bps e :
  session_ok ss -> fine_error e ->
  exists ss' e', allocate_bandwidth q ss bps e = (ss', e') /\ session_ok ss' /\ same_core ss ss' /\ fine_error e'.
Proof.
  intros Hss He. unfold allocate_bandwidth. destruct (allocate_bps_func q) as [f|]; [|by eexists _, _]. case_decide; [|by eexists _, _].
  eexists _, _. split; [done|]. destruct (set_vars_ok ss (set_quota (us_vars ss) (sv_quota_used (us_vars ss))
    (f (if decide (realm_max_bps q <> 0 /\ (bps = 0 \/ bps > realm_max_bps q)) then realm_max_bps q else bps))) Hss (so_mobile_id ss Hss)) as [H1 H2].
  split; [exact H1|]. split; [exact H2|]. match goal with |- fine_error (if decide ?P then _ else _) => destruct (decide P) end; [|done].
  apply fine_set; [split; lia|done].
Qed.

Lemma allocate_policy_ok server r e : fine_error e -> fine_error (allocate_policy server r e).
Proof. intros He. unfold allocate_policy. repeat case_match; first [done | apply fine_set; [split; lia|done]]. Qed.

Lemma forget_mobile_ok server ss :
  session_ok ss ->
  let ss' := if mobility server && negb (sv_mobile (us_vars ss)) then set_vars ss (delete_session_from_mobile_map (us_vars ss)) else ss in
  session_ok ss' /\ same_core ss ss'.
Proof.
  intros Hss ss'. unfold ss'. case_match; [|done]. apply set_vars_ok; [done|]. unfold delete_session_from_mobile_map.
  case_decide; [apply Hss|]. cbn. split; [constructor|]. split; [constructor|done].
Qed.

(** ** The lifetime *)

(** The lifetime that is granted. *)
Definition granted_lifetime (server : turn_turnserver) (ss : ts_ur_super_session) (requested : Z) : Z :=
  relay_lifetime server (stun_adjust_allocate_lifetime requested (u32 (max_allocate_lifetime server)) (max_session_time_auth (us_auth ss))).

Lemma adjusted_positive server requested max :
  lifetimes_ok server -> 0 <= requested -> 0 <= max -> 1 <= stun_adjust_allocate_lifetime requested (u32 (max_allocate_lifetime server)) max.
Proof.
  intros [Hm _] Hr Hmax. rewrite (wrap_small 32) by lia. unfold stun_adjust_allocate_lifetime, STUN_DEFAULT_ALLOCATE_LIFETIME, STUN_MIN_ALLOCATE_LIFETIME.
  repeat case_decide; lia.
Qed.

(** Between one second and the maximum of the server, and no more than the user's. *)
Lemma granted_range server ss requested :
  lifetimes_ok server -> session_ok ss -> 0 <= requested ->
  1 <= granted_lifetime server ss requested <= max_allocate_lifetime server /\
  (max_session_time_auth (us_auth ss) <> 0 -> granted_lifetime server ss requested <= max_session_time_auth (us_auth ss)).
Proof.
  intros Hl Hss Hr. pose proof (so_max_time ss Hss) as Hmax. set (m := max_session_time_auth _) in *.
  pose proof (adjusted_positive server requested m Hl Hr) as H1. unfold granted_lifetime, relay_lifetime. fold m. destruct Hl as [Hm _].
  rewrite (wrap_small 32) in * by lia. specialize (H1 ltac:(lia)). set (t := stun_adjust_allocate_lifetime _ _ _) in *.
  rewrite (proj2 (Z.ltb_ge _ _)) by lia. assert (m <> 0 -> t <= m).
  { unfold t, stun_adjust_allocate_lifetime. repeat case_decide; lia. }
  destruct (Z.ltb_spec (max_allocate_lifetime server) t); lia.
Qed.

Lemma shown_granted server ss requested :
  lifetimes_ok server ->
  shown_lifetime (stun_adjust_allocate_lifetime requested (u32 (max_allocate_lifetime server)) (max_session_time_auth (us_auth ss))) (u32 (max_allocate_lifetime server))
    = granted_lifetime server ss requested.
Proof.
  intros _. unfold shown_lifetime, granted_lifetime, relay_lifetime. set (t := stun_adjust_allocate_lifetime _ _ _).
  destruct (Z.ltb_spec t 1); [by rewrite decide_True|]. rewrite decide_False by lia. destruct (Z.ltb_spec (u32 (max_allocate_lifetime server)) t); [by rewrite decide_True by lia|by rewrite decide_False by lia].
Qed.

(** ** The relay sockets and the response *)

Lemma bandwidth_built k buf len ty ck tid l bps :
  built_le k buf len ty ck tid l -> k + 11 < MAX_STUN_MESSAGE_SIZE ->
  exists buf' len' v, stun_attr_add_bandwidth_str buf len bps = Some (true, buf', len') /\
    built_le (k + 11) buf' len' ty ck tid (l ++ [new_attr STUN_ATTRIBUTE_NEW_BANDWIDTH v]).
Proof.
  intros Hb Hk. destruct (built_le_add k buf len ty ck tid l STUN_ATTRIBUTE_NEW_BANDWIDTH (le_bytes 4 (nswap32 (u32 (Z.shiftr bps 7)))) 4 Hb)
    as (b & n & E & H); [apply le_bytes_bytes|by rewrite length_le_bytes|lia|]. exists b, n, (le_bytes 4 (nswap32 (u32 (Z.shiftr bps 7)))). split; [exact E|].
  by replace (k + 11) with (k + 4 + 7) by lia.
Qed.

(** A relay is open and, when the engine gave it a timer, it ends at the time given. *)
Record allocation_made (a' : allocation) (tid : list Z) (timer : bool) (expiration : Z) : Prop := {
  am_valid : is_valid a' = true;
  am_tid : al_tid a' = tid;
  am_open : exists i, rs_s (relay_at a' i) <> 0;
  am_relays i : relay_fits a' i timer expiration
}.

(** Neither relay is open. *)
Definition allocation_none (a' : allocation) : Prop := is_valid a' = false /\ forall i, relay_down a' i.

Section make.
Context (server : turn_turnserver) (Hs : alloc_server server).

(** The answer of a handler that made the allocation. *)
Definition told (ss' : ts_ur_super_session) (tid : list Z) (lifetime token : Z) (extra : list sattr) (response : list Z * Z) : Prop :=
  exists addr1 addr2, relayed_addr server (us_alloc ss') AF_INET = Some addr1 /\ relayed_addr server (us_alloc ss') AF_INET6 = Some addr2 /\
    success_reply (addr_mapping server) tid addr1 addr2 (match us_client ss' with Some c => cl_remote c | None => None end)
      (u32 (max_allocate_lifetime server)) lifetime token (sv_s_mobile_id (us_vars ss')) extra response.

Lemma made_ok a' tid : relay_ok a' -> relay_ok (set_allocation_valid a' true tid) /\ forall i, relay_at (set_allocation_valid a' true tid) i = relay_at a' i.
Proof. intros Ha. split; [|by intros []]. destruct Ha. by split. Qed.

Lemma fits_valid a' tid i timer t : relay_ok a' -> relay_fits a' i timer t -> relay_fits (set_allocation_valid a' true tid) i timer t.
Proof.
  intros Ha [Hd|[H1 H2]]; destruct (made_ok a' tid Ha) as [Hb Hr]; [left; unfold relay_down; by rewrite Hr|right; rewrite Hr; split; [done|]].
  intros Ht. apply (relay_up_frame a'); auto.
Qed.

(** The success response of a valid session with an open relay. *)
Lemma success_made ss' tid nbh rnd lifetime token :
  session_ok ss' -> response_room tid nbh rnd -> is_bytes tid -> (exists i, rs_s (relay_at (us_alloc ss') i) <> 0) ->
  exists first response, allocate_success server ss' tid nbh rnd lifetime token = Some (Some response) /\
    exists addr1 addr2, relayed_addr server (us_alloc ss') AF_INET = Some addr1 /\ relayed_addr server (us_alloc ss') AF_INET6 = Some addr2 /\
      built_le 170 response.1 response.2 (stun_make_success_response STUN_METHOD_ALLOCATE) STUN_MAGIC_COOKIE tid
        (allocate_attrs (addr_mapping server) tid addr1 addr2 (match us_client ss' with Some c => cl_remote c | None => None end)
           (lifetime (us_alloc ss') first) (u32 (max_allocate_lifetime server)) token (sv_s_mobile_id (us_vars ss'))).
Proof.
  intros Hss Hroom Htid [i Hi]. pose proof (so_relay ss' Hss) as Ha.
  destruct (allocate_success_ok server ss' tid nbh rnd lifetime token Hs Hss Hroom Htid) as (addr1 & addr2 & E1 & E2 & H).
  destruct (relayed_addr_ok server (us_alloc ss') i Hs Ha) as (x & Ex & _ & Hx). specialize (Hx Hi).
  destruct addr1 as [x1|], addr2 as [x2|]; [..|exfalso; destruct i; cbn [family_of] in Ex; destruct Hx; congruence].
  all: destruct H as (first & response & E & Hb); exists first, response; (split; [exact E|]); eexists _, _; (split; [exact E1|]); by split.
Qed.

Context (q : quotas) (ans : answers) (Hans : answers_ok ans).

Definition relays_outcome (ss ss' : ts_ur_super_session) (r : allocate_request) (tid : list Z) (response : option (list Z * Z)) (e' : request_error) (err4 err6 : Z) : Prop :=
  (response = None /\ fine_error e' /\ er_code e' <> 0 /\ allocation_none (us_alloc ss')) \/
  (exists response' token v, response = Some response' /\ er_code e' = 0 /\
     allocation_made (us_alloc ss') tid (timers_set ans) (u32 (ctime server + granted_lifetime server ss (aq_lifetime r))) /\
     exists addr1 addr2, relayed_addr server (us_alloc ss') AF_INET = Some addr1 /\ relayed_addr server (us_alloc ss') AF_INET6 = Some addr2 /\
       built_le 181 response'.1 response'.2 (stun_make_success_response STUN_METHOD_ALLOCATE) STUN_MAGIC_COOKIE tid
         (allocate_attrs (addr_mapping server) tid addr1 addr2 (match us_client ss' with Some c => cl_remote c | None => None end)
           (granted_lifetime server ss (aq_lifetime r)) (u32 (max_allocate_lifetime server)) token (sv_s_mobile_id (us_vars ss')) ++
          (if decide (sv_bps (us_vars ss') = 0) then [] else [new_attr STUN_ATTRIBUTE_NEW_BANDWIDTH v]))).

Lemma attrs_granted tid addr1 addr2 client ss requested token mid :
  lifetimes_ok server -> session_ok ss -> 0 <= requested ->
  allocate_attrs (addr_mapping server) tid addr1 addr2 client
    (stun_adjust_allocate_lifetime requested (u32 (max_allocate_lifetime server)) (max_session_time_auth (us_auth ss))) (u32 (max_allocate_lifetime server)) token mid =
  allocate_attrs (addr_mapping server) tid addr1 addr2 client (granted_lifetime server ss requested) (u32 (max_allocate_lifetime server)) token mid.
Proof.
  intros Hl Hss Hr. destruct (granted_range server ss requested Hl Hss Hr) as [Hg _]. destruct Hl as [Hm Ht]. unfold allocate_attrs.
  rewrite shown_granted by done. assert (shown_lifetime (granted_lifetime server ss requested) (u32 (max_allocate_lifetime server)) = granted_lifetime server ss requested) as ->; [|done].
  unfold shown_lifetime. rewrite decide_False by lia. apply decide_False. rewrite (wrap_small 32); lia.
Qed.

Lemma allocate_granted_ok ss' tid nbh rnd lifetime token :
  session_ok ss' -> response_room tid nbh rnd -> is_bytes tid -> (exists i, rs_s (relay_at (us_alloc ss') i) <> 0) ->
  exists response v, allocate_granted server ss' tid nbh rnd lifetime token = Some (Some response) /\
    exists addr1 addr2, relayed_addr server (us_alloc ss') AF_INET = Some addr1 /\ relayed_addr server (us_alloc ss') AF_INET6 = Some addr2 /\
      built_le 181 response.1 response.2 (stun_make_success_response STUN_METHOD_ALLOCATE) STUN_MAGIC_COOKIE tid
        (allocate_attrs (addr_mapping server) tid addr1 addr2 (match us_client ss' with Some c => cl_remote c | None => None end)
           lifetime (u32 (max_allocate_lifetime server)) token (sv_s_mobile_id (us_vars ss')) ++
         (if decide (sv_bps (us_vars ss') = 0) then [] else [new_attr STUN_ATTRIBUTE_NEW_BANDWIDTH v])).
Proof.
  intros Hss Hroom Htid Hopen. unfold allocate_granted.
  destruct (success_made ss' tid nbh rnd (fun _ _ => lifetime) token Hss Hroom Htid Hopen) as (first & [buf len] & -> & addr1 & addr2 & E1 & E2 & Hb). mred.
  destruct (decide (sv_bps (us_vars ss') = 0)).
  - exists (buf, len), []. split; [done|]. exists addr1, addr2. split; [done|]. split; [done|]. rewrite app_nil_r. destruct Hb as [Hb ?]. split; [exact Hb|lia].
  - destruct (bandwidth_built 170 buf len _ _ _ _ (sv_bps (us_vars ss')) Hb) as (buf' & len' & v & -> & Hb'); [done|]. mred.
    exists (buf', len'), v. split; [done|]. exists addr1, addr2. split; [done|]. by split.
Qed.

Lemma set_alloc_ok ss a' :
  session_ok ss -> relay_ok a' -> (is_valid a' = false -> forall i, relay_down a' i) -> session_ok (set_alloc ss a').
Proof. intros [] Ha Hu. by split. Qed.

(** The end of the handler when the relay sockets were opened. *)
Lemma relays_done ss ss3 r a' token e4 e5 err4 err6 tid nbh rnd :
  let lt := stun_adjust_allocate_lifetime (aq_lifetime r) (u32 (max_allocate_lifetime server)) (max_session_time_auth (us_auth ss)) in
  session_ok ss -> session_ok ss3 -> request_ok r -> response_room tid nbh rnd -> is_bytes tid ->
  relays_opened server lt (us_alloc ss) a' e4 e5 err4 err6 (timers_set ans) -> er_code e5 = 0 ->
  let ss' := set_alloc ss3 (set_allocation_valid a' true tid) in
  exists response, allocate_granted server ss' tid nbh rnd lt token = Some (Some response) /\ session_ok ss' /\ relays_outcome ss ss' r tid (Some response) e5 err4 err6.
Proof.
  intros lt Hss H3 Hr Hroom Htid [] E5 ss'. destruct (op_done E5) as [[i Hi] Hfit]. destruct (made_ok a' tid op_relay) as [Hb Hrel].
  assert (session_ok ss') as Hss' by (by apply set_alloc_ok).
  destruct (allocate_granted_ok ss' tid nbh rnd lt token Hss' Hroom Htid) as (response & v & E & addr1 & addr2 & E1 & E2 & Hbuilt); [exists i; by rewrite Hrel|].
  exists response. split; [exact E|]. split; [exact Hss'|]. right. exists response, token, v. split; [done|]. split; [done|]. split.
  - split; [done|done|exists i; cbn [us_alloc ss' set_alloc]; by rewrite Hrel|]. intros j. apply fits_valid; [done|]. apply Hfit.
  - exists addr1, addr2. split; [exact E1|]. split; [exact E2|]. unfold lt in Hbuilt. rewrite attrs_granted in Hbuilt; [exact Hbuilt|apply Hs|done|apply Hr].
Qed.

Lemma allocate_relays_ok ss r tid nbh rnd e :
  session_ok ss -> is_valid (us_alloc ss) = false -> client_open (us_client ss) = true -> request_ok r -> fine_error e -> er_code e = 0 ->
  response_room tid nbh rnd -> is_bytes tid ->
  exists response ss' e' err4 err6, allocate_relays server q ss ans r tid nbh rnd e = Some (response, ss', e', err4, err6) /\ session_ok ss' /\
    us_client ss' = us_client ss /\ us_tables ss' = us_tables ss /\ relays_outcome ss ss' r tid response e' err4 err6.
Proof.
  intros Hss Hinv Hopen Hr He He0 Hroom Htid. unfold allocate_relays. cbv zeta. destruct (forget_mobile_ok server ss Hss) as [H1 C1].
  set (ss1 := if mobility server && _ then _ else ss) in *. destruct (inc_quota_ok server q ss1 (aq_username r) H1 (rq_username r Hr)) as (granted & ss2 & -> & H2 & C2).
  pose proof (same_core_trans _ _ _ C1 C2) as C. assert (forall ss', same_core ss ss' -> allocation_none (us_alloc ss')) as Hnone.
  { intros ss' (-> & _). split; [done|]. by apply so_unused. }
  destruct granted; cbn [negb].
  2: { eexists _, _, _, _, _. split; [done|]. split; [done|]. split; [apply C|]. split; [apply C|]. left. split; [done|].
       split; [apply fine_code; [split; lia|done]|]. split; [done|]. by apply Hnone. }
  destruct (allocate_bandwidth_ok q ss2 (aq_bps r) e H2 He) as (ss3 & e3 & -> & H3 & C3 & He3). pose proof (same_core_trans _ _ _ C C3) as C'. clear C1 C2 C3 C.
  pose proof (allocate_policy_ok server r e3 He3) as He4. set (e4 := allocate_policy server r e3) in *.
  assert (forall t, max_session_time_auth (us_auth ss1) = t -> max_session_time_auth (us_auth ss) = t) as Ht.
  { intros t <-. unfold ss1. by case_match. }
  rewrite <- (Ht _ eq_refl). clear Ht. set (lt := stun_adjust_allocate_lifetime _ _ _).
  destruct (Z.eqb_spec (er_code e4) 0) as [E0|E0].
  2: { mred. rewrite (proj2 (Z.eqb_neq _ _)) by done. cbn [negb]. eexists _, _, _, _, _. split; [done|].
       assert (set_alloc ss3 (us_alloc ss3) = ss3) as -> by (by destruct ss3). split; [done|]. split; [apply C'|]. split; [apply C'|]. left. split; [done|].
       assert (error_code_ok (er_code e4)) as Hc by (destruct He4 as [[]]; [done|done]).
       split; [by case_match; [|apply fine_set]|]. split; [by case_match|]. by apply Hnone. }
  destruct C' as (Ca & Cc & Ct & Cm). pose proof (so_relay ss Hss) as Ha. pose proof (so_unused ss Hss Hinv) as Hdown. pose proof (ss_lifetimes server Hs) as Hlt.
  pose proof (adjusted_positive server (aq_lifetime r) _ Hlt (proj1 (rq_lifetime r Hr)) (proj1 (so_max_time ss Hss))) as Hlt1. fold lt in Hlt1.
  rewrite Ca, Cc. assert (0 <= lt) as Hlt0 by lia.
  destruct (create_relays_ok server (us_client ss) ans Hlt Hopen Hans lt Hlt0 (us_alloc ss) r e4 Ha Hdown Hr He4 E0)
    as (af4 & af6 & a' & token & e5 & err4 & err6 & -> & -> & []). mred.
  destruct (Z.eqb_spec (er_code e5) 0) as [E5|E5]; cbn [negb].
  - destruct (relays_done ss ss3 r a' token e4 e5 err4 err6 tid nbh rnd Hss H3 Hr Hroom Htid) as (response & Eg & Hss' & Hout); [done|done|].
    fold lt in Eg. rewrite Eg. mred.
    eexists _, _, _, _, _. split; [done|]. split; [exact Hss'|]. split; [done|]. split; [done|exact Hout].
  - destruct (op_failed E5) as [[reason Hre] Hdn]. rewrite Hre. eexists _, _, _, _, _. split; [done|]. split; [apply set_alloc_ok; [done|done|by intros _]|].
    split; [done|]. split; [done|]. left. split; [done|]. split; [done|]. split; [done|]. split; [cbn; congruence|done].
Qed.

End make.

(** ** The handler *)

Definition extra_attrs (extra : list sattr) : Prop :=
  Forall (fun b => at_type b = STUN_ATTRIBUTE_NEW_BANDWIDTH \/ at_type b = STUN_ATTRIBUTE_ADDRESS_ERROR_CODE) extra.

(** A request that is refused leaves no relay open; one for a valid allocation changes nothing. *)
Definition request_refused (ss : ts_ur_super_session) (tid : list Z) (reply : allocate_reply) : Prop :=
  let code := er_code (al_error reply) in
  error_code_ok code /\ error_reply STUN_METHOD_ALLOCATE code tid (al_response reply) /\
  (if is_valid (us_alloc ss) then al_session reply = ss else allocation_none (us_alloc (al_session reply))).

(** The answer to a request that is sent again. *)
Definition request_repeated (server : turn_turnserver) (ss : ts_ur_super_session) (tid : list Z) (reply : allocate_reply) : Prop :=
  er_code (al_error reply) = 0 /\ is_valid (us_alloc ss) = true /\ al_tid (us_alloc ss) = tid /\ al_session reply = ss /\
  exists i, told server ss tid (u32 (rs_expiration_time (relay_at (us_alloc ss) i) - ctime server)) 0 [] (al_response reply).

(** An allocation is made. *)
Definition request_granted (server : turn_turnserver) (ans : answers) (ss : ts_ur_super_session) (tid : list Z) (reply : allocate_reply) : Prop :=
  er_code (al_error reply) = 0 /\ is_valid (us_alloc ss) = false /\
  exists lifetime token extra, 1 <= lifetime <= max_allocate_lifetime server /\
    (max_session_time_auth (us_auth ss) <> 0 -> lifetime <= max_session_time_auth (us_auth ss)) /\
    allocation_made (us_alloc (al_session reply)) tid (timers_set ans) (u32 (ctime server + lifetime)) /\
    extra_attrs extra /\ told server (al_session reply) tid lifetime token extra (al_response reply).

Section handler.
Context (server : turn_turnserver) (Hs : alloc_server server) (q : quotas) (ans : answers) (Hans : answers_ok ans).
Context (tid nbh rnd : list Z) (Hroom : response_room tid nbh rnd) (Htid : is_bytes tid).

Lemma refused_answered ss ss' e err4 err6 :
  fine_error e -> (if is_valid (us_alloc ss) then ss' = ss else allocation_none (us_alloc ss')) ->
  exists reply, allocate_answer server ss' None e err4 err6 tid nbh rnd = Some reply /\ al_session reply = ss' /\ request_refused ss tid reply.
Proof.
  intros He Hss. destruct (refused_answer_ok server ss' e err4 err6 tid nbh rnd He Hroom) as (response & -> & Hr & Hc).
  eexists. split; [done|]. split; [done|]. split; [exact Hc|]. split; [exact Hr|exact Hss].
Qed.

Lemma told_answered ss' e response err4 err6 lifetime token extra :
  er_code e = 0 -> extra_attrs extra ->
  (exists addr1 addr2, relayed_addr server (us_alloc ss') AF_INET = Some addr1 /\ relayed_addr server (us_alloc ss') AF_INET6 = Some addr2 /\
     built_le 200 response.1 response.2 (stun_make_success_response STUN_METHOD_ALLOCATE) STUN_MAGIC_COOKIE tid
       (allocate_attrs (addr_mapping server) tid addr1 addr2 (match us_client ss' with Some c => cl_remote c | None => None end)
          lifetime (u32 (max_allocate_lifetime server)) token (sv_s_mobile_id (us_vars ss')) ++ extra)) ->
  exists reply extra', allocate_answer server ss' (Some response) e err4 err6 tid nbh rnd = Some reply /\ al_error reply = e /\ al_session reply = ss' /\
    extra_attrs (extra ++ extra') /\ (err4 = 0 -> err6 = 0 -> extra' = []) /\ told server ss' tid lifetime token (extra ++ extra') (al_response reply).
Proof.
  intros He Hx (addr1 & addr2 & E1 & E2 & Hb). destruct (granted_answer_ok server ss' e response err4 err6 tid nbh rnd _ He Hb) as (response' & x & -> & Hb' & Hx0 & Hxt).
  eexists _, x. split; [done|]. split; [done|]. split; [done|]. split; [apply Forall_app; split; [done|eapply Forall_impl; [exact Hxt|by right]]|]. split; [done|].
  exists addr1, addr2. split; [exact E1|]. split; [exact E2|]. unfold success_reply. cbn [al_response]. by rewrite (assoc_L (++)).
Qed.

Lemma valid_answered ss buf len :
  session_ok ss -> is_valid (us_alloc ss) = true ->
  exists reply, handle_turn_allocate server q ss ans buf len tid nbh rnd = Some reply /\ al_session reply = ss /\
    (request_refused ss tid reply \/ request_repeated server ss tid reply).
Proof.
  intros Hss Hv. unfold handle_turn_allocate. rewrite Hv. assert (if is_valid (us_alloc ss) then ss = ss else allocation_none (us_alloc ss)) as Hsame by (by rewrite Hv).
  unfold stun_tid_equals. case_bool_decide as Et; cbn [negb].
  - set (lt := fun (a : allocation) (first : ioa_addr) => u32 _).
    destruct (allocate_success_ok server ss tid nbh rnd lt 0 Hs Hss Hroom Htid) as (addr1 & addr2 & E1 & E2 & H).
    assert ((addr1 = None /\ addr2 = None) \/ exists first response, allocate_success server ss tid nbh rnd lt 0 = Some (Some response) /\
      built_le 170 response.1 response.2 (stun_make_success_response STUN_METHOD_ALLOCATE) STUN_MAGIC_COOKIE tid
        (allocate_attrs (addr_mapping server) tid addr1 addr2 (match us_client ss with Some c => cl_remote c | None => None end)
           (lt (us_alloc ss) first) (u32 (max_allocate_lifetime server)) 0 (sv_s_mobile_id (us_vars ss)))) as [[-> ->]|(first & response & -> & Hb)]
      by (destruct addr1 as [?|], addr2 as [?|]; first [by left | right; exact H]).
    + cbn in H. rewrite H. mred. destruct (refused_answered ss ss no_error 0 0 fine_no_error Hsame) as (reply & -> & H1 & H2). exists reply. split; [done|]. split; [done|by left].
    + mred. destruct (told_answered ss no_error response 0 0 (lt (us_alloc ss) first) 0 [] eq_refl (List.Forall_nil _)) as (reply & x & -> & H1 & H2 & _ & Hx & Ht).
      { exists addr1, addr2. split; [exact E1|]. split; [exact E2|]. rewrite app_nil_r. destruct Hb as [Hb ?]. split; [exact Hb|lia]. }
      exists reply. split; [done|]. split; [done|]. right. split; [by rewrite H1|]. split; [done|]. split; [done|]. split; [done|].
      rewrite (Hx eq_refl eq_refl) in Ht. by exists (ALLOC_INDEX (sa_family first)).
  - destruct (refused_answered ss ss (set_error no_error 437 "Wrong TID") 0 0) as (reply & -> & H1 & H2); [by apply fine_set; [split; lia|]|done|].
    exists reply. split; [done|]. split; [done|by left].
Qed.

(** C1 An Allocate request is always answered with a well-formed message of its transaction, and the
    answer says what was done: an error leaves no relay open, or a valid allocation unchanged;
    the request that made the allocation, sent again, changes nothing; and a success makes
    the allocation valid, with an open relay whose timer ends it after the lifetime that the
    client is told, which is at least one second and at most the limits of the server and
    of the user. *)
Theorem allocate_answered ss buf len :
  session_ok ss -> client_open (us_client ss) = true -> received buf len ->
  exists reply, handle_turn_allocate server q ss ans buf len tid nbh rnd = Some reply /\ session_ok (al_session reply) /\
    us_client (al_session reply) = us_client ss /\ us_tables (al_session reply) = us_tables ss /\
    (request_refused ss tid reply \/ request_repeated server ss tid reply \/ request_granted server ans ss tid reply).
Proof.
  intros Hss Hopen Hrec. destruct (is_valid (us_alloc ss)) eqn:Ev.
  { destruct (valid_answered ss buf len Hss Ev) as (reply & E & Er & H). exists reply. rewrite Er. split; [done|]. do 3 (split; [done|]). tauto. }
  unfold handle_turn_allocate. rewrite Ev. destruct (read_allocate_request_ok server ss buf len Hrec) as (e & r & -> & He & Hr). mred.
  set (ss1 := set_vars ss _). destruct (set_vars_ok ss (set_relay_kind (us_vars ss) (aq_tcp r) (aq_mobile r)) Hss (so_mobile_id ss Hss)) as [Hss1 _]. fold ss1 in Hss1.
  pose proof (allocate_checks_ok e r He) as He1. destruct (Z.eqb_spec (er_code (allocate_checks e r)) 0) as [E0|E0]; cbn [negb].
  - destruct (allocate_relays_ok server Hs q ans Hans ss1 r tid nbh rnd _ Hss1 Ev Hopen Hr He1 E0 Hroom Htid)
      as (response & ss' & e' & err4 & err6 & -> & Hss' & Hc & Ht & [(-> & He' & _ & Hn)|(response' & token & v & -> & He' & Hmade & Hbuilt)]); mred.
    + destruct (refused_answered ss ss' e' err4 err6 He') as (reply & -> & Er & H); [by rewrite Ev|]. exists reply. rewrite Er. split; [done|].
      do 3 (split; [done|]). by left.
    + destruct Hbuilt as (addr1 & addr2 & E1 & E2 & Hb).
      destruct (told_answered ss' e' response' err4 err6 (granted_lifetime server ss (aq_lifetime r)) token
        (if decide (sv_bps (us_vars ss') = 0) then [] else [new_attr STUN_ATTRIBUTE_NEW_BANDWIDTH v]) He') as (reply & x & -> & Ee & Er & Hx & _ & Htold).
      { case_decide; repeat constructor; done. }
      { exists addr1, addr2. split; [exact E1|]. split; [exact E2|]. destruct Hb as [Hb Hle]. split; [exact Hb|apply (Z.le_trans _ 181); [exact Hle|lia]]. }
      destruct (granted_range server ss (aq_lifetime r) (ss_lifetimes server Hs) Hss (proj1 (rq_lifetime r Hr))) as [Hg1 Hg2].
      exists reply. rewrite Er. split; [done|]. do 3 (split; [done|]). right. right. split; [by rewrite Ee|]. split; [done|].
      eexists _, token, _. rewrite Er. split; [exact Hg1|]. split; [exact Hg2|]. split; [exact Hmade|]. split; [exact Hx|exact Htold].
  - destruct (refused_answered ss ss1 (allocate_checks e r) 0 0 He1) as (reply & -> & Er & H).
    { rewrite Ev. split; [done|]. by apply so_unused. }
    exists reply. rewrite Er. split; [done|]. do 3 (split; [done|]). by left.
Qed.

End handler.

(** ** Examples *)

Definition allocate_bytes : list Z :=
  hdr (stun_make_request STUN_METHOD_ALLOCATE) 16 STUN_MAGIC_COOKIE (replicate 12 5) ++
  be_bytes 2 STUN_ATTRIBUTE_REQUESTED_TRANSPORT ++ be_bytes 2 4 ++ [STUN_ATTRIBUTE_TRANSPORT_UDP_VALUE; 0; 0; 0] ++
  be_bytes 2 STUN_ATTRIBUTE_LIFETIME ++ be_bytes 2 4 ++ be_bytes 4 1800.
Definition plain_vars : session_vars := mk_vars false false false 0 0 [] ∅ false [] false 0.
Definition plain_client : client_socket := mk_client UDP_SOCKET AF_INET (v4 192 0 2 1 3478) (Some (v4 198 51 100 9 5000)) false.
Definition plain_ss : ts_ur_super_session := mk_ss fresh_auth init_allocation init_tables (Some plain_client) plain_vars.
Definition open_quotas : quotas := mk_quotas None None 0.
Definition relay_socket (i : bool) : ioa_socket :=
  mk_socket (family_of i) UDP_SOCKET (if i then v6 (replicate 16 7) 50000 else v4 192 0 2 1 50000) false false false false.
Definition given_socket (af : Z) : relay_answers := mk_relay_answers (mk_answer 0 (Some (relay_socket (bool_decide (af = FAMILY_VALUE_IPV6)))) None 0 0 None) true.
Definition no_socket (af : Z) : relay_answers := mk_relay_answers (mk_answer (-1) None None 0 0 None) true.

Lemma plain_ss_ok : session_ok plain_ss.
Proof.
  split; cbn; [apply init_relay_ok|by intros _ []| | |apply fresh_auth_ok|done].
  - intros c x [= <-] [= <-]. apply inet_sendable; [apply (bool_decide_unpack _); by vm_compute|by left].
  - split; [constructor|]. split; [constructor|done].
Qed.

Lemma plain_alloc_server : alloc_server plain_server.
Proof. split; [by split|constructor|done]. Qed.

Lemma given_socket_ok : answers_ok given_socket.
Proof.
  intros i. split; cbn; [lia| |done]. intros _. split; [|done]. eexists. split; [done|]. destruct i; (split; [done|]); (split; [done|]); (split; [done|]); (split; [done|]).
  all: split; [apply (bool_decide_unpack _); by vm_compute|]. all: by (left + right).
Qed.

Lemma allocate_answered_witness :
  exists reply, handle_turn_allocate plain_server open_quotas plain_ss given_socket allocate_bytes 36 (replicate 12 5) (replicate (Z.to_nat 65507) 0) (replicate 12 9)
      = Some reply /\ session_ok (al_session reply).
Proof.
  destruct (allocate_answered plain_server plain_alloc_server open_quotas given_socket given_socket_ok (replicate 12 5) (replicate (Z.to_nat 65507) 0) (replicate 12 9)
    example_room (bytes_dec (replicate 12 5) eq_refl) plain_ss allocate_bytes 36 plain_ss_ok eq_refl) as (reply & H1 & H2 & _); [by apply received_dec|].
  exact (ex_intro _ reply (conj H1 H2)).
Defined.

(** The request above is granted: an IPv4 relay for 1800 seconds. *)
Definition example_reply (ss : ts_ur_super_session) (ans : answers) : option allocate_reply :=
  handle_turn_allocate plain_server open_quotas ss ans allocate_bytes 36 (replicate 12 5) (replicate 600 0) (replicate 12 9).

Example allocate_granted_example :
  (fun r => (er_code (al_error r), is_valid (us_alloc (al_session r)), relay4 (us_alloc (al_session r)), (al_response r).2)) <$> example_reply plain_ss given_socket
    = Some (0, true, mk_relay 1 2800 1, 52).
Proof. vm_compute. reflexivity. Qed.

(** A failure is remembered for ever: after an Allocate that could not open its socket, the
    same request succeeds, and the client is told the relayed address 0.0.0.0, port 0, of
    family 0, and not that of its socket. *)
Lemma failure_is_remembered server a i : get_relay_session_failure a (family_of i) = true -> relayed_addr server a (family_of i) = Some (Some addr_set_any).
Proof. intros H. unfold relayed_addr. by rewrite H. Qed.

Example failure_remembered_example :
  (r1 ← example_reply plain_ss no_socket; r2 ← example_reply (al_session r1) given_socket;
   Some (er_code (al_error r1), er_code (al_error r2), rs_s (relay4 (us_alloc (al_session r2))), relayed_addr plain_server (us_alloc (al_session r2)) AF_INET))
    = Some (508, 0, 1, Some (Some addr_set_any)).
Proof. vm_compute. reflexivity. Qed.
