(* ===== verification/OpusPacket.v ===== *)
(** * Opus packets [src/opus.c, src/opus_decoder.c of opus-main]

    A packet is one byte that says how it was coded (the TOC) and up to 48 frames, whose
    lengths are known from the length of the packet or written in it.  A pointer into the
    buffer is its offset; the length that the caller gives is not trusted to be the size of
    the buffer. *)

From S2P Require Import Prelude.

Definition OPUS_OK : Z := 0.
Definition OPUS_BAD_ARG : Z := -1.
Definition OPUS_BUFFER_TOO_SMALL : Z := -2.
Definition OPUS_INTERNAL_ERROR : Z := -3.
Definition OPUS_INVALID_PACKET : Z := -4.

(** The conversion to [opus_int16]. *)
Definition i16 (x : Z) : Z := (x + 2 ^ 15) mod 2 ^ 16 - 2 ^ 15.

(** [celt_assert] of [celt/arch.h]. *)
Definition celt_assert (b : bool) : option () := if b then Some () else None.

(** ** Lengths of frames *)

(** The number of bytes written, and the buffer. *)
Definition encode_size (size : Z) (buf : list Z) (data : Z) : option (Z * list Z) :=
  if decide (size < 252) then buf ← st8 buf data size; Some (1, buf) else
  let d0 := 252 + Z.land size 3 in
  buf ← st8 buf data d0;
  buf ← st8 buf (data + 1) (Z.shiftr (size - d0) 2);
  Some (2, buf).

(** The number of bytes read and the length, or twice -1. *)
Definition parse_size (buf : list Z) (data len : Z) : option (Z * Z) :=
  if decide (len < 1) then Some (-1, -1) else
  d0 ← ld8 buf data;
  if decide (d0 < 252) then Some (1, d0)
  else if decide (len < 2) then Some (-1, -1)
  else d1 ← ld8 buf (data + 1); Some (2, 4 * d1 + d0).

(** ** What the first byte says *)

Definition opus_packet_get_samples_per_frame (buf : list Z) (data Fs : Z) : option Z :=
  toc ← ld8 buf data;
  let audiosize := Z.land (Z.shiftr toc 3) 3 in
  if negb (Z.land toc 0x80 =? 0) then x ← int_chk (Z.shiftl Fs audiosize); Some (Z.quot x 400)
  else if Z.land toc 0x60 =? 0x60 then Some (if negb (Z.land toc 8 =? 0) then Z.quot Fs 50 else Z.quot Fs 100)
  else if decide (audiosize = 3) then x ← int_chk (Fs * 60); Some (Z.quot x 1000)
  else x ← int_chk (Z.shiftl Fs audiosize); Some (Z.quot x 100).

Definition MODE_SILK_ONLY : Z := 1000.
Definition MODE_HYBRID : Z := 1001.
Definition MODE_CELT_ONLY : Z := 1002.

Definition opus_packet_get_mode (buf : list Z) (data : Z) : option Z :=
  toc ← ld8 buf data;
  Some (if negb (Z.land toc 0x80 =? 0) then MODE_CELT_ONLY
        else if Z.land toc 0x60 =? 0x60 then MODE_HYBRID else MODE_SILK_ONLY).

Definition OPUS_BANDWIDTH_NARROWBAND : Z := 1101.
Definition OPUS_BANDWIDTH_MEDIUMBAND : Z := 1102.
Definition OPUS_BANDWIDTH_WIDEBAND : Z := 1103.
Definition OPUS_BANDWIDTH_SUPERWIDEBAND : Z := 1104.
Definition OPUS_BANDWIDTH_FULLBAND : Z := 1105.

Definition opus_packet_get_bandwidth (buf : list Z) (data : Z) : option Z :=
  toc ← ld8 buf data;
  Some (if negb (Z.land toc 0x80 =? 0) then
          let bandwidth := OPUS_BANDWIDTH_MEDIUMBAND + Z.land (Z.shiftr toc 5) 3 in
          if decide (bandwidth = OPUS_BANDWIDTH_MEDIUMBAND) then OPUS_BANDWIDTH_NARROWBAND else bandwidth
        else if Z.land toc 0x60 =? 0x60 then
          if negb (Z.land toc 0x10 =? 0) then OPUS_BANDWIDTH_FULLBAND else OPUS_BANDWIDTH_SUPERWIDEBAND
        else OPUS_BANDWIDTH_NARROWBAND + Z.land (Z.shiftr toc 5) 3).

Definition opus_packet_get_nb_channels (buf : list Z) (data : Z) : option Z :=
  toc ← ld8 buf data; Some (if negb (Z.land toc 4 =? 0) then 2 else 1).

Definition opus_packet_get_nb_frames (buf : list Z) (data len : Z) : option Z :=
  if decide (len < 1) then Some OPUS_BAD_ARG else
  toc ← ld8 buf data;
  let count := Z.land toc 3 in
  if decide (count = 0) then Some 1
  else if decide (count <> 3) then Some 2
  else if decide (len < 2) then Some OPUS_INVALID_PACKET
  else ch ← ld8 buf (data + 1); Some (Z.land ch 0x3F).

Definition opus_packet_get_nb_samples (buf : list Z) (data len Fs : Z) : option Z :=
  count ← opus_packet_get_nb_frames buf data len;
  if decide (count < 0) then Some count else
  spf ← opus_packet_get_samples_per_frame buf data Fs;
  samples ← int_chk (count * spf);
  x ← int_chk (samples * 25);
  y ← int_chk (Fs * 3);
  Some (if decide (x > y) then OPUS_INVALID_PACKET else samples).

(** ** Parsing *)

(** The loop over the lengths of the padding: a byte of 255 stands for 254 and another byte
    follows. *)
Fixpoint padding_loop (fuel : nat) (buf : list Z) (data len pad : Z) : option (option (Z * Z * Z)) :=
  match fuel with
  | O => None
  | S fuel =>
    if decide (len <= 0) then Some None else
    p ← ld8 buf data;
    let tmp := if decide (p = 255) then 254 else p in
    let len := len - 1 - tmp in
    if decide (p = 255) then padding_loop fuel buf (data + 1) len (pad + tmp)
    else Some (Some (data + 1, len, pad + tmp))
  end.

(** The lengths of all frames but the last. *)
Fixpoint vbr_loop (n : nat) (buf : list Z) (data len last_size : Z) : option (option (list Z * Z * Z * Z)) :=
  match n with
  | O => Some (Some ([], data, len, last_size))
  | S n =>
    '(bytes, size) ← parse_size buf data len;
    let len := len - bytes in
    if decide (size < 0 \/ size > len) then Some None else
    r ← vbr_loop n buf (data + bytes) len (last_size - (bytes + size));
    Some ('(sizes, data, len, last_size) ← r; Some (size :: sizes, data, len, last_size))
  end.

(** The variables after the header: [hd_sizes] holds the first lengths, as far as they were
    stored. *)
Record header := mk_header {
  hd_count : Z;
  hd_cbr : bool;
  hd_data : Z;
  hd_len : Z;
  hd_last_size : Z;
  hd_pad : Z;
  hd_sizes : list Z
}.

(** The fourth code: the number of frames, the padding and the lengths. *)
Definition parse_code3 (buf : list Z) (data len framesize : Z) (self_delimited : bool) : option (option header) :=
  if decide (len < 1) then Some None else
  ch ← ld8 buf data;
  let count := Z.land ch 0x3F in
  x ← int_chk (framesize * count);
  if decide (count <= 0 \/ x > 5760) then Some None else
  let last_size := len in
  let data := data + 1 in
  let len := len - 1 in
  r ← (if negb (Z.land ch 0x40 =? 0) then padding_loop (S (Z.to_nat len)) buf data len 0 else Some (Some (data, len, 0)));
  match r with
  | None => Some None
  | Some (data, len, pad) =>
    if decide (len < 0) then Some None else
    if negb (Z.land ch 0x80 =? 0) then
      r ← vbr_loop (Z.to_nat (count - 1)) buf data len len;
      match r with
      | None => Some None
      | Some (sizes, data, len, last_size) =>
        if decide (last_size < 0) then Some None else Some (Some (mk_header count false data len last_size pad sizes))
      end
    else if self_delimited then Some (Some (mk_header count true data len last_size pad []))
    else
      let last_size := Z.quot len count in
      if decide (last_size * count <> len) then Some None else
      Some (Some (mk_header count true data len last_size pad (replicate (Z.to_nat (count - 1)) (i16 last_size))))
  end.

Definition parse_header (buf : list Z) (data len : Z) (self_delimited : bool) : option (option header) :=
  framesize ← opus_packet_get_samples_per_frame buf data 48000;
  toc ← ld8 buf data;
  let data := data + 1 in
  let len := len - 1 in
  let code := Z.land toc 3 in
  if decide (code = 0) then Some (Some (mk_header 1 false data len len 0 []))
  else if decide (code = 1) then
    if self_delimited then Some (Some (mk_header 2 true data len len 0 []))
    else if negb (Z.land len 1 =? 0) then Some None
    else Some (Some (mk_header 2 true data len (Z.quot len 2) 0 [i16 (Z.quot len 2)]))
  else if decide (code = 2) then
    '(bytes, size) ← parse_size buf data len;
    let len := len - bytes in
    if decide (size < 0 \/ size > len) then Some None
    else Some (Some (mk_header 2 false (data + bytes) len (len - size) 0 [size]))
  else parse_code3 buf data len framesize self_delimited.

(** The position of the frames and the size of each. *)
Definition parse_sizes (buf : list Z) (h : header) (self_delimited : bool) : option (option (Z * list Z)) :=
  let n := Z.to_nat (hd_count h - 1) in
  if self_delimited then
    '(bytes, size) ← parse_size buf (hd_data h) (hd_len h);
    let len := hd_len h - bytes in
    if decide (size < 0 \/ size > len) then Some None else
    let data := hd_data h + bytes in
    if hd_cbr h then
      Some (if decide (size * hd_count h > len) then None else Some (data, replicate n size ++ [size]))
    else
      Some (if decide (bytes + size > hd_last_size h) then None else Some (data, hd_sizes h ++ [size]))
  else
    Some (if decide (hd_last_size h > 1275) then None else Some (hd_data h, hd_sizes h ++ [i16 (hd_last_size h)])).

(** What the caller gets through the pointers. *)
Record parsed := mk_parsed {
  pk_toc : Z;
  pk_frames : list Z;
  pk_size : list Z;
  pk_payload_offset : Z;
  pk_packet_offset : Z;
  pk_padding : Z;
  pk_padding_len : Z
}.

(** The loop that places the frames: each pointer, and the one after the last. *)
Fixpoint frame_pointers (data : Z) (sizes : list Z) : list Z * Z :=
  match sizes with
  | [] => ([], data)
  | size :: sizes => let '(fs, e) := frame_pointers (data + size) sizes in (data :: fs, e)
  end.

(** The error, or the number of frames with what was stored. *)
Definition opus_packet_parse_impl (buf : list Z) (data len : Z) (self_delimited : bool) : option (Z + Z * parsed) :=
  if decide (len < 0) then Some (inl OPUS_BAD_ARG)
  else if decide (len = 0) then Some (inl OPUS_INVALID_PACKET)
  else
    h ← parse_header buf data len self_delimited;
    match h with
    | None => Some (inl OPUS_INVALID_PACKET)
    | Some h =>
      s ← parse_sizes buf h self_delimited;
      match s with
      | None => Some (inl OPUS_INVALID_PACKET)
      | Some (data', sizes) =>
        toc ← ld8 buf data;
        let '(frames, e) := frame_pointers data' sizes in
        Some (inr (hd_count h, mk_parsed toc frames sizes (data' - data) (hd_pad h + (e - data)) e (hd_pad h)))
      end
    end.

Definition opus_packet_parse (buf : list Z) (data len : Z) : option (Z + Z * parsed) := opus_packet_parse_impl buf data len false.

(** Whether the first frame carries redundant data: an error, or a flag. *)
Definition opus_packet_has_lbrr (buf : list Z) (data len : Z) : option Z :=
  packet_mode ← opus_packet_get_mode buf data;
  if decide (packet_mode = MODE_CELT_ONLY) then Some 0 else
  packet_frame_size ← opus_packet_get_samples_per_frame buf data 48000;
  let nb_frames := if decide (packet_frame_size > 960) then Z.quot packet_frame_size 960 else 1 in
  channels ← opus_packet_get_nb_channels buf data;
  r ← opus_packet_parse buf data len;
  match r with
  | inl e => Some e
  | inr (_, p) =>
    if decide (head (pk_size p) = Some 0) then Some 0 else
    f ← head (pk_frames p);
    b ← ld8 buf f;
    let lbrr := Z.land (Z.shiftr b (7 - nb_frames)) 1 in
    Some (if decide (channels = 2) then
            if negb (lbrr =? 0) || negb (Z.land (Z.shiftr b (6 - 2 * nb_frames)) 1 =? 0) then 1 else 0
          else lbrr)
  end.
