(* ===== verification/OpusPacketFacts.v ===== *)
(** * The packets of Opus, and their parser

    The packets as data, their bytes, and the proof that the parser accepts exactly these
    bytes and finds the frames. *)

From S2P Require Import Prelude OpusPacket.

(** ** Packets *)

(** [pt_pad]: the number of bytes of 255 and the last byte of the length of the padding. *)
Record packet := mk_packet {
  pt_toc : Z;
  pt_vbr : bool;
  pt_pad : option (nat * Z);
  pt_frames : list (list Z);
  pt_padding : list Z
}.

Definition pt_code (p : packet) : Z := Z.land (pt_toc p) 3.
Definition pt_count (p : packet) : Z := zlen (pt_frames p).

Definition size_bytes (n : Z) : list Z := if decide (n < 252) then [n] else [252 + n mod 4; (n - 252) / 4].
Definition sizes_bytes (ns : list Z) : list Z := concat (size_bytes <$> ns).

Definition pad_bytes (p : option (nat * Z)) : list Z := match p with None => [] | Some (k, r) => replicate k 255 ++ [r] end.
Definition pad_amount (p : option (nat * Z)) : Z := match p with None => 0 | Some (k, r) => 254 * Z.of_nat k + r end.

(** The byte with the number of frames. *)
Definition count_byte (count : Z) (pad : option (nat * Z)) (vbr : bool) : Z :=
  count + (match pad with None => 0 | Some _ => 64 end) + (if vbr then 128 else 0).

(** [first]: the sizes of all frames but the last. *)
Definition header_of (toc : Z) (vbr : bool) (pad : option (nat * Z)) (count : Z) (first : list Z) : list Z :=
  if decide (Z.land toc 3 < 2) then [toc]
  else if decide (Z.land toc 3 = 2) then toc :: sizes_bytes first
  else toc :: count_byte count pad vbr :: pad_bytes pad ++ (if vbr then sizes_bytes first else []).

Definition packet_sizes (p : packet) : list Z := (fun f => zlen f) <$> pt_frames p.
Definition last_size (ns : list Z) : Z := List.last ns 0.
Definition header_bytes (p : packet) : list Z := header_of (pt_toc p) (pt_vbr p) (pt_pad p) (pt_count p) (removelast (packet_sizes p)).
Definition last_size_bytes (p : packet) : list Z := size_bytes (last_size (packet_sizes p)).

Definition packet_bytes (self_delimited : bool) (p : packet) : list Z :=
  header_bytes p ++ (if self_delimited then last_size_bytes p else []) ++ concat (pt_frames p) ++ pt_padding p.

Definition same_size (ns : list Z) : Prop := exists n, Forall (fun m => m = n) ns.
Definition frame_ok (f : list Z) : Prop := is_bytes f /\ zlen f <= 1275.

(** The samples of a frame at 48 kHz. *)
Definition frame_samples (toc : Z) : Z :=
  let a := Z.land (Z.shiftr toc 3) 3 in
  if negb (Z.land toc 0x80 =? 0) then 120 * 2 ^ a
  else if Z.land toc 0x60 =? 0x60 then (if negb (Z.land toc 8 =? 0) then 960 else 480)
  else if decide (a = 3) then 2880 else 480 * 2 ^ a.

Record packet_ok (p : packet) : Prop := {
  po_toc : is_byte (pt_toc p);
  po_frames : Forall frame_ok (pt_frames p);
  po_padding : is_bytes (pt_padding p);
  po_code0 : pt_code p = 0 -> pt_count p = 1;
  po_code1 : pt_code p = 1 -> pt_count p = 2 /\ same_size (packet_sizes p);
  po_code2 : pt_code p = 2 -> pt_count p = 2;
  po_code3 : pt_code p = 3 -> 1 <= pt_count p /\ frame_samples (pt_toc p) * pt_count p <= 5760 /\ (pt_vbr p = false -> same_size (packet_sizes p));
  po_pad : match pt_pad p with None => True | Some (_, r) => 0 <= r < 255 end /\ zlen (pt_padding p) = pad_amount (pt_pad p);
  po_plain : pt_code p <> 3 -> pt_pad p = None /\ (pt_vbr p = true <-> pt_code p = 2)
}.

(** What the parser tells about a packet at an offset. *)
Definition frames_at (self_delimited : bool) (p : packet) (data : Z) : Z :=
  data + zlen (header_bytes p) + (if self_delimited then zlen (last_size_bytes p) else 0).

Definition parsed_of (self_delimited : bool) (p : packet) (data : Z) : Z * parsed :=
  let o := frames_at self_delimited p data in
  (pt_count p, mk_parsed (pt_toc p) (frame_pointers o (packet_sizes p)).1 (packet_sizes p) (o - data) (zlen (packet_bytes self_delimited p))
     (o + zlen (concat (pt_frames p))) (zlen (pt_padding p))).

(** ** Lengths *)

Lemma size_bytes_bytes n : 0 <= n <= 1275 -> is_bytes (size_bytes n).
Proof. intros H. unfold size_bytes. case_decide; repeat constructor; unfold is_byte; zlia. Qed.

Lemma length_size_bytes n : zlen (size_bytes n) = if decide (n < 252) then 1 else 2.
Proof. unfold size_bytes. by case_decide. Qed.

Lemma land3 x : Z.land x 3 = x mod 4.
Proof. change 3 with (Z.ones 2). rewrite Z.land_ones by lia. done. Qed.

(** The bytes of the buffer from an offset. *)
Definition bytes_at (buf : list Z) (o : Z) (l : list Z) : Prop := exists a c, buf = a ++ l ++ c /\ zlen a = o.

Lemma bytes_at_app buf o l1 l2 : bytes_at buf o (l1 ++ l2) <-> bytes_at buf o l1 /\ bytes_at buf (o + zlen l1) l2.
Proof.
  split.
  - intros (a & c & -> & <-). split; [exists a, (l2 ++ c); by rewrite <- !(assoc_L (++))|exists (a ++ l1), c]. rewrite length_app. split; [by rewrite <- !(assoc_L (++))|lia].
  - intros [(a & c & -> & Ha) (a' & c' & E & Ha')]. exists a, c'. split; [|done]. rewrite <- (assoc_L (++)).
    assert (length a' = length (a ++ l1)) as Hl by (rewrite length_app; lia). rewrite (assoc_L (++)) in E. apply app_inj_1 in E as [Ha'' Ec]; [|lia].
    by rewrite Ec.
Qed.

Lemma bytes_at_ld8 buf o b l : bytes_at buf o (b :: l) -> is_byte b -> ld8 buf o = Some b.
Proof.
  intros (a & c & -> & <-) Hb. change ((b :: l) ++ c) with ([b] ++ (l ++ c)). rewrite (ld_app 1 a [b] (l ++ c)) by done. cbn. f_equal. lia.
Qed.

Lemma bytes_at_tail buf o b l : bytes_at buf o (b :: l) -> bytes_at buf (o + 1) l.
Proof. intros H. by apply (bytes_at_app buf o [b] l) in H as [_ H]. Qed.

Lemma bytes_at_slice buf o l : bytes_at buf o l <-> slice buf o (zlen l) = Some l.
Proof.
  split.
  - intros (a & c & -> & <-). by apply slice_app.
  - intros H. apply slice_split in H as (a & c & -> & Ha & _). exists a, c. split; [done|lia].
Qed.

(** ** Reading a length *)

Lemma parse_size_complete buf o len n l :
  bytes_at buf o (size_bytes n ++ l) -> 0 <= n <= 1275 -> zlen (size_bytes n) <= len ->
  parse_size buf o len = Some (zlen (size_bytes n), n).
Proof.
  intros H Hn. pose proof (length_size_bytes n) as Hl. unfold parse_size, size_bytes in *. intros Hlen. destruct (decide (n < 252)) as [Hs|Hs]; cbn [app length] in *.
  - rewrite decide_False by lia. rewrite (bytes_at_ld8 _ _ _ _ H) by (unfold is_byte; lia). mred. by rewrite decide_True by lia.
  - rewrite decide_False by lia. rewrite (bytes_at_ld8 _ _ _ _ H) by (unfold is_byte; zlia). mred. rewrite decide_False by zlia. rewrite decide_False by lia.
    apply bytes_at_tail in H. rewrite (bytes_at_ld8 _ _ _ _ H) by (unfold is_byte; zlia). mred. do 2 f_equal. zlia.
Qed.

Lemma parse_size_sound buf o len l :
  bytes_at buf o l -> is_bytes l -> len <= zlen l ->
  exists bytes n, parse_size buf o len = Some (bytes, n) /\
    (bytes = -1 /\ n = -1 \/ 0 <= n <= 1275 /\ bytes = zlen (size_bytes n) /\ bytes <= len /\ exists l', l = size_bytes n ++ l').
Proof.
  intros H Hb Hlen. unfold parse_size. case_decide as E1; [eexists _, _; split; [done|by left]|]. destruct l as [|b0 l]; [cbn in *; lia|]. inversion Hb as [|? ? Hb0 Hb']; subst.
  rewrite (bytes_at_ld8 _ _ _ _ H Hb0). mred. unfold is_byte in Hb0. case_decide as E2.
  - eexists _, _. split; [done|]. right. rewrite length_size_bytes. unfold size_bytes. rewrite !decide_True by lia. split; [lia|]. split; [done|]. split; [lia|]. by exists l.
  - case_decide as E3; [eexists _, _; split; [done|by left]|]. destruct l as [|b1 l]; [cbn in *; lia|]. inversion Hb' as [|? ? Hb1 _]; subst. apply bytes_at_tail in H.
    rewrite (bytes_at_ld8 _ _ _ _ H Hb1). mred. unfold is_byte in Hb1. eexists _, _. split; [done|]. right. rewrite length_size_bytes. unfold size_bytes.
    rewrite decide_False by lia. rewrite decide_False by lia. split; [lia|]. split; [done|]. split; [lia|]. exists l. cbn [app]. f_equal; [zlia|]. f_equal. zlia.
Qed.

(** ** The loops *)

Lemma padding_loop_complete k r buf o len pad l fuel :
  bytes_at buf o (replicate k 255 ++ r :: l) -> 0 <= r < 255 -> 255 * Z.of_nat k + 1 + r <= len -> (k < fuel)%nat ->
  padding_loop fuel buf o len pad = Some (Some (o + Z.of_nat k + 1, len - 255 * Z.of_nat k - 1 - r, pad + 254 * Z.of_nat k + r)).
Proof.
  intros H Hr. revert o len pad fuel H. induction k as [|k IH]; intros o len pad fuel H Hlen Hf; (destruct fuel as [|fuel]; [lia|]); cbn [padding_loop replicate app] in *;
    rewrite decide_False by lia.
  - rewrite (bytes_at_ld8 _ _ _ _ H) by (unfold is_byte; lia). mred. rewrite !(decide_False (P := r = 255)) by lia. do 2 f_equal. f_equal; [f_equal|]; lia.
  - rewrite (bytes_at_ld8 _ _ _ _ H) by (unfold is_byte; lia). mred. rewrite !(decide_True (P := 255 = 255)) by lia. rewrite IH; [|by apply bytes_at_tail in H|lia|lia].
    do 2 f_equal. f_equal; [f_equal|]; lia.
Qed.

Lemma padding_loop_sound buf o len pad l fuel :
  bytes_at buf o l -> is_bytes l -> len <= zlen l -> (Z.to_nat len < fuel)%nat ->
  exists r, padding_loop fuel buf o len pad = Some r /\
    match r with
    | None => True
    | Some (o', len', pad') => exists k c l', l = replicate k 255 ++ c :: l' /\ 0 <= c < 255 /\ o' = o + Z.of_nat k + 1 /\
        len' = len - 255 * Z.of_nat k - 1 - c /\ pad' = pad + 254 * Z.of_nat k + c
    end.
Proof.
  revert o len pad l. induction fuel as [|fuel IH]; intros o len pad l H Hb Hlen Hf; [lia|]. cbn [padding_loop]. case_decide as E; [by exists None|].
  destruct l as [|b l]; [cbn in *; lia|]. inversion Hb as [|? ? Hb0 Hb']; subst. rewrite (bytes_at_ld8 _ _ _ _ H Hb0). mred. unfold is_byte in Hb0. cbn [length] in Hlen.
  destruct (decide (b = 255)) as [->|Hne].
  - destruct (IH (o + 1) (len - 1 - 254) (pad + 254) l) as (r & -> & Hr); [by apply bytes_at_tail in H|done|lia|lia|]. exists r. split; [done|]. destruct r as [[[o' len'] pad']|]; [|done].
    destruct Hr as (k & c & l' & -> & Hc & -> & -> & ->). exists (S k), c, l'. split; [done|]. split; [done|]. split; [lia|]. split; lia.
  - eexists. split; [done|]. exists 0%nat, b, l. split; [done|]. split; [lia|]. split; [lia|]. split; lia.
Qed.

Definition sum (ns : list Z) : Z := foldr Z.add 0 ns.
Definition sizes_ok (ns : list Z) : Prop := Forall (fun n => 0 <= n <= 1275) ns.

Lemma sum_app l1 l2 : sum (l1 ++ l2) = sum l1 + sum l2.
Proof. unfold sum. induction l1; cbn; lia. Qed.

Lemma sum_nonneg ns : sizes_ok ns -> 0 <= sum ns.
Proof. unfold sum. induction 1; cbn; lia. Qed.

Lemma size_bytes_pos n : 1 <= zlen (size_bytes n).
Proof. rewrite length_size_bytes. case_decide; lia. Qed.

Lemma vbr_loop_complete ns buf o len last l :
  bytes_at buf o (sizes_bytes ns ++ l) -> sizes_ok ns -> zlen (sizes_bytes ns) + sum ns <= len ->
  vbr_loop (length ns) buf o len last =
    Some (Some (ns, o + zlen (sizes_bytes ns), len - zlen (sizes_bytes ns), last - zlen (sizes_bytes ns) - sum ns)).
Proof.
  intros H Hns. revert o len last H. induction Hns as [|n ns Hn Hns IH]; intros o len last H Hlen; cbn [vbr_loop length].
  - cbn. do 2 f_equal. f_equal; [f_equal; [f_equal|]|]; lia.
  - unfold sizes_bytes in *. cbn [fmap list_fmap concat sum foldr] in *. fold (sum ns) in *. pose proof (sum_nonneg ns Hns). rewrite length_app in Hlen |- *. pose proof (size_bytes_pos n).
    rewrite <- (assoc_L (++)) in H. rewrite (parse_size_complete _ _ _ _ _ H Hn) by lia. mred. rewrite decide_False by lia.
    apply bytes_at_app in H as [_ H]. rewrite IH; [|done|lia]. mred. do 2 f_equal. f_equal; [f_equal; [f_equal|]|]; lia.
Qed.

Lemma vbr_loop_sound k buf o len last l :
  bytes_at buf o l -> is_bytes l -> len <= zlen l ->
  exists r, vbr_loop k buf o len last = Some r /\
    match r with
    | None => True
    | Some (ns, o', len', last') => exists l', length ns = k /\ sizes_ok ns /\ l = sizes_bytes ns ++ l' /\ o' = o + zlen (sizes_bytes ns) /\
        len' = len - zlen (sizes_bytes ns) /\ last' = last - zlen (sizes_bytes ns) - sum ns
    end.
Proof.
  revert o len last l. induction k as [|k IH]; intros o len last l H Hb Hlen; cbn [vbr_loop].
  - eexists. split; [done|]. exists l. split; [done|]. split; [constructor|]. split; [done|]. cbn. lia.
  - destruct (parse_size_sound _ _ _ _ H Hb Hlen) as (bytes & n & -> & Hn). mred. case_decide as E; [by exists None|].
    destruct Hn as [[-> ->]|(Hn & -> & Hle & l' & ->)]; [lia|]. apply bytes_at_app in H as [_ H]. apply Forall_app in Hb as [_ Hb]. rewrite length_app in Hlen.
    destruct (IH (o + zlen (size_bytes n)) (len - zlen (size_bytes n)) (last - (zlen (size_bytes n) + n)) l' H Hb) as (r & -> & Hr); [lia|]. mred.
    destruct r as [[[[ns o'] len'] last']|]; [|by exists None]. mred. eexists. split; [done|]. destruct Hr as (l'' & Hk & Hns & -> & -> & -> & ->). exists l''.
    split; [cbn; lia|]. split; [by constructor|]. unfold sizes_bytes. cbn [fmap list_fmap concat sum foldr]. fold (sum ns). rewrite length_app, <- (assoc_L (++)).
    split; [done|]. unfold sizes_bytes. lia.
Qed.

(** ** The header *)

Lemma samples_ok buf data toc l :
  bytes_at buf data (toc :: l) -> is_byte toc -> opus_packet_get_samples_per_frame buf data 48000 = Some (frame_samples toc).
Proof.
  intros H Ht. unfold opus_packet_get_samples_per_frame. rewrite (bytes_at_ld8 _ _ _ _ H Ht). mred. clear H.
  set (P := fun toc => bool_decide ((let audiosize := Z.land (Z.shiftr toc 3) 3 in
    if negb (Z.land toc 0x80 =? 0) then x ← int_chk (Z.shiftl 48000 audiosize); Some (Z.quot x 400)
    else if Z.land toc 0x60 =? 0x60 then Some (if negb (Z.land toc 8 =? 0) then Z.quot 48000 50 else Z.quot 48000 100)
    else if decide (audiosize = 3) then x ← int_chk (48000 * 60); Some (Z.quot x 1000)
    else x ← int_chk (Z.shiftl 48000 audiosize); Some (Z.quot x 100)) = Some (frame_samples toc))).
  assert (P toc = true) as HP by (apply (checkZ_spec 256); [by vm_compute|exact Ht]). by apply bool_decide_eq_true in HP.
Qed.

Lemma frame_samples_range toc : is_byte toc -> 120 <= frame_samples toc <= 2880.
Proof.
  intros Ht. set (P := fun t => (120 <=? frame_samples t) && (frame_samples t <=? 2880)).
  assert (P toc = true) as HP by (apply (checkZ_spec 256); [by vm_compute|exact Ht]). unfold P in HP. lia.
Qed.

Lemma count_byte_split ch :
  is_byte ch -> ch = Z.land ch 0x3F + (if negb (Z.land ch 0x40 =? 0) then 64 else 0) + (if negb (Z.land ch 0x80 =? 0) then 128 else 0).
Proof.
  intros Ht. set (P := fun ch => ch =? Z.land ch 0x3F + (if negb (Z.land ch 0x40 =? 0) then 64 else 0) + (if negb (Z.land ch 0x80 =? 0) then 128 else 0)).
  assert (P ch = true) as HP by (apply (checkZ_spec 256); [by vm_compute|exact Ht]). unfold P in HP. lia.
Qed.

Lemma count_byte_read count pad vbr :
  0 <= count < 64 -> let ch := count_byte count pad vbr in
  is_byte ch /\ Z.land ch 0x3F = count /\ negb (Z.land ch 0x40 =? 0) = bool_decide (is_Some pad) /\ negb (Z.land ch 0x80 =? 0) = vbr.
Proof.
  intros Hc ch. set (P := fun a b count => let ch := count + a + b in (0 <=? ch) && (ch <? 256) && (Z.land ch 0x3F =? count) &&
    Bool.eqb (negb (Z.land ch 0x40 =? 0)) (a =? 64) && Bool.eqb (negb (Z.land ch 0x80 =? 0)) (b =? 128)).
  assert (forall a b, checkZ 64 (P a b) = true -> let ch := count + a + b in
    is_byte ch /\ Z.land ch 0x3F = count /\ negb (Z.land ch 0x40 =? 0) = (a =? 64) /\ negb (Z.land ch 0x80 =? 0) = (b =? 128)) as H.
  { intros a b Hab. pose proof (checkZ_spec 64 _ count Hab Hc) as HP. unfold P in HP. rewrite !andb_true_iff, !eqb_true_iff in HP. cbn zeta. unfold is_byte.
    destruct HP as ((((H1 & H2) & H3) & H4) & H5). split; [lia|]. split; [lia|]. by split. }
  unfold ch, count_byte. destruct pad as [x|], vbr; first [apply (H 64 128) | apply (H 64 0) | apply (H 0 128) | apply (H 0 0)]; by vm_compute.
Qed.

(** The variables after the header, for the rest [l'] of the packet. *)
Record header_fits (self_delimited : bool) (toc : Z) (vbr : bool) (pad : option (nat * Z)) (first l' : list Z) (h : header) : Prop := {
  hf_pad_ok : match pad with None => True | Some (_, r) => 0 <= r < 255 end;
  hf_pad : hd_pad h = pad_amount pad;
  hf_len : hd_len h = zlen l' - pad_amount pad /\ 0 <= hd_len h;
  hf_count : (Z.land toc 3 = 0 -> hd_count h = 1) /\ (Z.land toc 3 = 1 -> hd_count h = 2) /\ (Z.land toc 3 = 2 -> hd_count h = 2) /\
    (Z.land toc 3 = 3 -> 1 <= hd_count h /\ frame_samples toc * hd_count h <= 5760);
  hf_plain : Z.land toc 3 <> 3 -> pad = None /\ (vbr = true <-> Z.land toc 3 = 2);
  hf_vbr : hd_cbr h = false -> hd_count h = zlen first + 1 /\ sizes_ok first /\ hd_sizes h = first /\ hd_last_size h = hd_len h - sum first /\
    0 <= hd_last_size h /\ (vbr = false -> Z.land toc 3 = 0);
  hf_cbr : hd_cbr h = true -> vbr = false /\ Z.land toc 3 <> 0 /\ (self_delimited = false ->
    hd_last_size h * hd_count h = hd_len h /\ hd_sizes h = replicate (Z.to_nat (hd_count h - 1)) (i16 (hd_last_size h)))
}.

Lemma pad_amount_pos pad : match pad with None => True | Some (_, r) => 0 <= r < 255 end -> 0 <= pad_amount pad.
Proof. destruct pad as [[k r]|]; cbn; lia. Qed.

Lemma length_pad_bytes k r : zlen (pad_bytes (Some (k, r))) = Z.of_nat k + 1.
Proof. cbn. rewrite length_app, length_replicate. cbn. lia. Qed.

Section code3.
Context (buf : list Z) (o : Z) (l : list Z) (toc : Z) (self_delimited : bool).
Context (Hbuf : bytes_at buf o l) (Ht : is_byte toc) (H3 : Z.land toc 3 = 3).

Lemma pad_stage_sound flag ch l1 :
  l = ch :: l1 -> is_bytes l1 ->
  exists r, (if flag : bool then padding_loop (S (Z.to_nat (zlen l - 1))) buf (o + 1) (zlen l - 1) 0 else Some (Some (o + 1, zlen l - 1, 0))) = Some r /\
    match r with
    | None => True
    | Some (o', len', pad') => exists pad l2, l1 = pad_bytes pad ++ l2 /\ (flag = bool_decide (is_Some pad)) /\
        match pad with None => True | Some (_, c) => 0 <= c < 255 end /\ o' = o + 1 + zlen (pad_bytes pad) /\ len' = zlen l2 - pad_amount pad /\ pad' = pad_amount pad
    end.
Proof.
  intros -> Hb. cbn [length]. pose proof (bytes_at_tail _ _ _ _ Hbuf) as Hb1. destruct flag.
  - destruct (padding_loop_sound buf (o + 1) (Z.of_nat (S (length l1)) - 1) 0 l1 (S (Z.to_nat (Z.of_nat (S (length l1)) - 1))) Hb1 Hb) as (r & -> & Hr); [lia|lia|].
    exists r. split; [done|]. destruct r as [[[o' len'] pad']|]; [|done]. destruct Hr as (k & c & l2 & -> & Hc & -> & -> & ->). exists (Some (k, c)), l2.
    rewrite length_pad_bytes, length_app, length_replicate. cbn [pad_bytes pad_amount length]. rewrite <- (assoc_L (++)). split; [done|]. split; [done|]. split; [done|]. split; [lia|]. split; lia.
  - eexists. split; [done|]. exists None, l1. cbn. split; [done|]. split; [done|]. split; [done|]. split; lia.
Qed.

Lemma parse_code3_sound :
  is_bytes l -> exists r, parse_code3 buf o (zlen l) (frame_samples toc) self_delimited = Some r /\
    match r with
    | None => True
    | Some h => exists vbr pad first l', l = count_byte (hd_count h) pad vbr :: (pad_bytes pad ++ if vbr then sizes_bytes first else []) ++ l' /\
        hd_data h = o + 1 + zlen (pad_bytes pad ++ if vbr then sizes_bytes first else []) /\ header_fits self_delimited toc vbr pad first l' h
    end.
Proof.
  intros Hb. unfold parse_code3. case_decide as E1; [by exists None|]. pose proof (frame_samples_range toc Ht) as Hfs.
  assert (exists ch l1, l = ch :: l1) as (ch & l1 & El) by (destruct l as [|ch l1]; [cbn in E1; lia|by eexists _, _]). pose proof Hbuf as Hb0. rewrite El in Hb, Hb0.
  inversion Hb as [|? ? Hch Hb1]; subst x l0. rewrite (bytes_at_ld8 _ _ _ _ Hb0 Hch). mred. pose proof (count_byte_split ch Hch) as Hsplit.
  set (count := Z.land ch 0x3F) in *. assert (0 <= count < 64) as Hcount by (unfold count; change 0x3F with (Z.ones 6); rewrite Z.land_ones by lia; apply Z.mod_pos_bound; lia).
  rewrite int_chk_ok by nia. mred. case_decide as E2; [by exists None|]. destruct (pad_stage_sound (negb (Z.land ch 0x40 =? 0)) ch l1 El Hb1) as (r & -> & Hr). mred.
  destruct r as [[[o' len'] pad']|]; [|by exists None]. destruct Hr as (pad & l2 & El1 & Eflag & Hpad & -> & -> & ->). rewrite Eflag in Hsplit.
  case_decide as E3; [by exists None|]. rewrite El1 in Hb1, Hb0. apply Forall_app in Hb1 as [_ Hb2]. apply bytes_at_tail, bytes_at_app in Hb0 as [_ Hbuf2].
  pose proof (pad_amount_pos pad Hpad) as Hpos.
  assert (forall vbr, ch = count + (if bool_decide (is_Some pad) then 64 else 0) + (if vbr : bool then 128 else 0) -> ch = count_byte count pad vbr) as Hcb.
  { intros vbr E. unfold count_byte. destruct pad; exact E. }
  assert ((Z.land toc 3 = 0 -> count = 1) /\ (Z.land toc 3 = 1 -> count = 2) /\ (Z.land toc 3 = 2 -> count = 2) /\
    (Z.land toc 3 = 3 -> 1 <= count /\ frame_samples toc * count <= 5760)) as Hcnt by (split_and!; lia).
  assert (forall vbr, Z.land toc 3 <> 3 -> pad = None /\ (vbr = true <-> Z.land toc 3 = 2)) as Hplain by done.
  destruct (negb (Z.land ch 0x80 =? 0)).
  - destruct (vbr_loop_sound (Z.to_nat (count - 1)) buf _ (zlen l2 - pad_amount pad) (zlen l2 - pad_amount pad) l2 Hbuf2 Hb2) as (r & -> & Hr); [lia|]. mred.
    destruct r as [[[[ns o'] len'] last']|]; [|by exists None]. destruct Hr as (l3 & Hk & Hns & El2 & -> & -> & ->). case_decide as E4; [by exists None|].
    pose proof (sum_nonneg ns Hns) as Hsum. eexists. split; [done|]. exists true, pad, ns, l3. cbn [hd_count hd_data]. split; [|split].
    + rewrite El, <- (Hcb true Hsplit), El1, El2. by rewrite (assoc_L (++)).
    + rewrite length_app. lia.
    + split; cbn [hd_pad hd_len hd_count hd_cbr hd_sizes hd_last_size]; try done; [rewrite El2, length_app in *; lia|]. intros _. rewrite El2, length_app in *. split_and!; try done; lia.
  - destruct self_delimited.
    + eexists. split; [done|]. exists false, pad, [], l2. cbn [hd_count hd_data]. rewrite app_nil_r. split; [by rewrite El, <- (Hcb false Hsplit), El1|]. split; [done|].
      split; cbn [hd_pad hd_len hd_count hd_cbr hd_sizes hd_last_size]; try done; [lia|]. intros _. split_and!; done || lia.
    + case_decide as E5; [by exists None|]. eexists. split; [done|]. exists false, pad, [], l2. cbn [hd_count hd_data]. rewrite app_nil_r.
      split; [by rewrite El, <- (Hcb false Hsplit), El1|]. split; [done|].
      split; cbn [hd_pad hd_len hd_count hd_cbr hd_sizes hd_last_size]; try done; [lia|]. intros _. split; [done|]. split; [lia|]. intros _. split; [|done]. lia.
Qed.

End code3.

Lemma land3_cases toc : Z.land toc 3 = 0 \/ Z.land toc 3 = 1 \/ Z.land toc 3 = 2 \/ Z.land toc 3 = 3.
Proof. rewrite land3. pose proof (Z.mod_pos_bound toc 4). lia. Qed.

Lemma land1 x : Z.land x 1 = x mod 2.
Proof. change 1 with (Z.ones 1). rewrite Z.land_ones by lia. done. Qed.

Lemma header_of_code3 toc vbr pad count first :
  Z.land toc 3 = 3 -> header_of toc vbr pad count first = toc :: count_byte count pad vbr :: (pad_bytes pad ++ if vbr then sizes_bytes first else []).
Proof. intros H. unfold header_of. rewrite H. done. Qed.

Ltac fits :=
  cbn [hd_pad hd_len hd_count hd_cbr hd_sizes hd_last_size pad_amount sum foldr]; try done; try lia; intros; split_and?;
  intros; try done; try lia; try (by repeat constructor).

(** The header is read, or the packet refused. *)
Lemma parse_header_sound buf data l self_delimited :
  bytes_at buf data l -> is_bytes l -> 1 <= zlen l ->
  exists r, parse_header buf data (zlen l) self_delimited = Some r /\
    match r with
    | None => True
    | Some h => exists toc vbr pad first l', l = header_of toc vbr pad (hd_count h) first ++ l' /\ is_byte toc /\ hd_data h = data + (zlen l - zlen l') /\
        header_fits self_delimited toc vbr pad first l' h
    end.
Proof.
  intros H Hb Hl. destruct l as [|toc l]; [cbn in Hl; lia|]. inversion Hb as [|? ? Ht Hb1]; subst. unfold parse_header. rewrite (samples_ok _ _ _ _ H Ht). mred.
  rewrite (bytes_at_ld8 _ _ _ _ H Ht). mred. apply bytes_at_tail in H. cbn [length]. replace (Z.of_nat (S (length l)) - 1) with (zlen l) by lia.
  destruct (land3_cases toc) as [E|[E|[E|E]]]; rewrite E.
  - rewrite decide_True by done. eexists. split; [done|]. exists toc, false, None, [], l. cbn [hd_count hd_data]. unfold header_of. rewrite E. cbn [app].
    split; [done|]. split; [done|]. split; [cbn; lia|]. split; rewrite ?E; fits.
  - rewrite decide_False by done. rewrite decide_True by done. assert (header_of toc false None 2 [] = [toc]) as Eh by (unfold header_of; by rewrite E).
    destruct self_delimited; [|rewrite land1; destruct (negb (zlen l mod 2 =? 0)) eqn:Ep; [by exists None|]].
    all: eexists; split; [done|]; exists toc, false, None, [], l; cbn [hd_count hd_data]; rewrite Eh; (split; [done|]); (split; [done|]); (split; [cbn; lia|]).
    all: split; rewrite ?E; fits. split; [|done]. apply negb_false_iff, Z.eqb_eq in Ep. rewrite Z.quot_div_nonneg by lia. zlia.
  - rewrite !decide_False by done. rewrite decide_True by done. destruct (parse_size_sound buf (data + 1) (zlen l) l H Hb1) as (bytes & n & -> & Hn); [lia|]. mred.
    case_decide as E1; [by exists None|]. destruct Hn as [[-> ->]|(Hn & -> & Hle & l' & ->)]; [lia|]. eexists. split; [done|]. rewrite length_app in *.
    exists toc, true, None, [n], l'. cbn [hd_count hd_data]. unfold header_of. rewrite E. rewrite decide_False by lia. rewrite decide_True by done.
    unfold sizes_bytes. cbn [fmap list_fmap concat]. rewrite app_nil_r. split; [done|]. split; [done|]. split; [lia|].
    split; rewrite ?E; fits. by apply Forall_singleton.
  - rewrite !decide_False by done. destruct (parse_code3_sound buf (data + 1) l toc self_delimited H Ht E Hb1) as (r & -> & Hr). exists r. split; [done|].
    destruct r as [h|]; [|done]. destruct Hr as (vbr & pad & first & l' & El & Ed & Hf). exists toc, vbr, pad, first, l'. rewrite header_of_code3 by done.
    split; [by rewrite El|]. split; [done|]. split; [|exact Hf]. rewrite Ed, El. cbn [length app]. rewrite !length_app. lia.
Qed.

(** ** The sizes *)

Lemma removelast_app_last {A} (l : list A) d : l <> [] -> removelast l ++ [List.last l d] = l.
Proof. intros H. symmetry. by apply app_removelast_last. Qed.

Lemma removelast_snoc {A} (l : list A) x : removelast (l ++ [x]) = l.
Proof. rewrite removelast_app by done. cbn. apply app_nil_r. Qed.

Lemma last_snoc (ns : list Z) n : last_size (ns ++ [n]) = n.
Proof. unfold last_size. apply last_last. Qed.

Lemma i16_small x : 0 <= x <= 1275 -> i16 x = x.
Proof. intros H. unfold i16. rewrite Z.mod_small; lia. Qed.

Lemma sum_replicate k n : sum (replicate k n) = Z.of_nat k * n.
Proof. unfold sum. induction k; cbn [replicate foldr]; lia. Qed.

Lemma all_same (ns : list Z) n : Forall (fun m => m = n) ns -> ns = replicate (length ns) n.
Proof. induction 1 as [|x xs -> _ IH]; cbn; [done|]. by rewrite <- IH. Qed.

Lemma sizes_ok_replicate k n : 0 <= n <= 1275 -> sizes_ok (replicate k n).
Proof. intros H. by apply Forall_replicate. Qed.

(** What [parse_sizes] finds in the rest of the packet. *)
Definition sizes_found (self_delimited : bool) (h : header) (pad : option (nat * Z)) (first l' : list Z) (o : Z) (ns : list Z) : Prop :=
  exists l'', l' = (if self_delimited then size_bytes (last_size ns) else []) ++ l'' /\ o = hd_data h + (zlen l' - zlen l'') /\
    zlen ns = hd_count h /\ sizes_ok ns /\ (if hd_cbr h then same_size ns else removelast ns = first) /\
    sum ns + pad_amount pad <= zlen l'' /\ (self_delimited = false -> sum ns + pad_amount pad = zlen l'').

Section sizes.
Context (buf : list Z) (self_delimited : bool) (toc : Z) (vbr : bool) (pad : option (nat * Z)) (first l' : list Z) (h : header).
Context (Hf : header_fits self_delimited toc vbr pad first l' h) (Hbuf : bytes_at buf (hd_data h) l').

Lemma count_pos : 1 <= hd_count h.
Proof. destruct (hf_count _ _ _ _ _ _ _ Hf) as (H0 & H1 & H2 & H3). destruct (land3_cases toc) as [E|[E|[E|E]]]; [specialize (H0 E)|specialize (H1 E)|specialize (H2 E)|specialize (H3 E)]; lia. Qed.

Lemma same_size_replicate k n : same_size (replicate k n ++ [n]).
Proof. exists n. apply Forall_app. split; [by apply Forall_replicate|by apply Forall_singleton]. Qed.

Lemma parse_sizes_sound :
  is_bytes l' -> exists r, parse_sizes buf h self_delimited = Some r /\ match r with None => True | Some (o, ns) => sizes_found self_delimited h pad first l' o ns end.
Proof.
  intros Hb. pose proof count_pos as Hc. destruct (hf_len _ _ _ _ _ _ _ Hf) as [Hlen Hpos]. pose proof (pad_amount_pos pad (hf_pad_ok _ _ _ _ _ _ _ Hf)) as Hpad.
  unfold parse_sizes. destruct self_delimited.
  - destruct (parse_size_sound buf (hd_data h) (hd_len h) l' Hbuf Hb) as (bytes & n & -> & Hn); [lia|]. mred. case_decide as E1; [by exists None|].
    destruct Hn as [[-> ->]|(Hn & -> & Hle & l2 & El)]; [lia|]. rewrite El, length_app in Hlen. destruct (hd_cbr h) eqn:Ec.
    + eexists. split; [done|]. case_decide as E2; [done|]. exists l2. rewrite last_snoc, Ec, sum_app, sum_replicate, length_app, length_replicate, El. cbn [length sum foldr]. rewrite length_app.
      split; [done|]. split; [lia|]. split; [lia|]. split; [apply Forall_app; split; [by apply sizes_ok_replicate|by apply Forall_singleton]|].
      split; [apply same_size_replicate|]. split; [|done]. rewrite Z2Nat.id by lia. lia.
    + eexists. split; [done|]. case_decide as E2; [done|]. destruct (hf_vbr _ _ _ _ _ _ _ Hf Ec) as (Hk & Hok & Hs & Hlast & Hl0 & _). rewrite Hs in *. exists l2.
      rewrite last_snoc, Ec, sum_app, length_app, El, removelast_snoc. cbn [length sum foldr]. rewrite length_app.
      split; [done|]. split; [lia|]. split; [lia|]. split; [apply Forall_app; split; [done|by apply Forall_singleton]|]. split; [done|]. split; [lia|done].
  - eexists. split; [done|]. case_decide as E1; [done|]. destruct (hd_cbr h) eqn:Ec.
    + destruct (hf_cbr _ _ _ _ _ _ _ Hf Ec) as (_ & _ & Hcbr). destruct (Hcbr eq_refl) as [Hlast Hs]. rewrite Hs. assert (0 <= hd_last_size h <= 1275) as Hr by nia.
      rewrite i16_small by done. exists l'. rewrite Ec, sum_app, sum_replicate, length_app, length_replicate. cbn [length sum foldr].
      split; [done|]. split; [lia|]. split; [lia|]. split; [apply Forall_app; split; [by apply sizes_ok_replicate|by apply Forall_singleton]|].
      split; [apply same_size_replicate|]. rewrite Z2Nat.id by lia. split; [|intros _]; lia.
    + destruct (hf_vbr _ _ _ _ _ _ _ Hf Ec) as (Hk & Hok & Hs & Hlast & Hl0 & _). rewrite Hs, i16_small by lia. exists l'.
      rewrite Ec, sum_app, length_app, removelast_snoc. cbn [length sum foldr].
      split; [done|]. split; [lia|]. split; [lia|]. split; [apply Forall_app; split; [done|by apply Forall_singleton; lia]|]. split; [done|]. split; [|intros _]; lia.
Qed.

Lemma parse_sizes_complete ns l'' :
  l' = (if self_delimited then size_bytes (last_size ns) else []) ++ l'' -> zlen ns = hd_count h -> sizes_ok ns ->
  (if hd_cbr h then same_size ns else removelast ns = first) -> sum ns + pad_amount pad <= zlen l'' -> (self_delimited = false -> sum ns + pad_amount pad = zlen l'') ->
  parse_sizes buf h self_delimited = Some (Some (hd_data h + (zlen l' - zlen l''), ns)).
Proof.
  intros El Hk Hok Hns Hsum Hexact. pose proof count_pos as Hc. destruct (hf_len _ _ _ _ _ _ _ Hf) as [Hlen Hpos].
  assert (ns <> []) as Hne by (intros ->; cbn in Hk; lia). pose proof (removelast_app_last ns 0 Hne) as Esplit. fold (last_size ns) in Esplit.
  set (n := last_size ns) in *. set (fs := removelast ns) in *. clearbody n fs. rewrite <- Esplit in Hok, Hsum, Hexact, Hk. apply Forall_app in Hok as [Hfs Hn]. apply Forall_inv in Hn.
  rewrite sum_app in Hsum, Hexact. cbn [sum foldr] in Hsum, Hexact. fold (sum fs) in *. rewrite length_app in Hk. cbn [length] in Hk. pose proof (sum_nonneg fs Hfs) as Hfs0.
  assert (hd_cbr h = true -> fs = replicate (Z.to_nat (hd_count h - 1)) n) as Hcbr.
  { intros Ec. rewrite Ec in Hns. destruct Hns as [m Hm]. rewrite <- Esplit in Hm. apply Forall_app in Hm as [Hm Hmn]. apply Forall_inv in Hmn. subst m.
    replace (Z.to_nat (hd_count h - 1)) with (length fs) by lia. by apply all_same. }
  unfold parse_sizes. destruct self_delimited.
  - rewrite El in Hbuf. pose proof (length_app (size_bytes n) l'') as Hl. rewrite <- El in Hl. pose proof (pad_amount_pos pad (hf_pad_ok _ _ _ _ _ _ _ Hf)).
    rewrite (parse_size_complete _ _ _ _ _ Hbuf Hn) by lia. mred. rewrite decide_False by lia. destruct (hd_cbr h) eqn:Ec.
    + rewrite (Hcbr eq_refl), sum_replicate, Z2Nat.id in Hsum by lia. rewrite decide_False by lia. rewrite <- (Hcbr eq_refl), Esplit. do 3 f_equal. lia.
    + destruct (hf_vbr _ _ _ _ _ _ _ Hf Ec) as (_ & _ & Hs & Hlast & _). rewrite Hs. rewrite <- Hns in *. rewrite decide_False by lia. rewrite Esplit. do 3 f_equal. lia.
  - specialize (Hexact eq_refl). cbn [app] in El. subst l''. rewrite Z.sub_diag, Z.add_0_r. destruct (hd_cbr h) eqn:Ec.
    + destruct (hf_cbr _ _ _ _ _ _ _ Hf Ec) as (_ & _ & H). destruct (H eq_refl) as [Hlast Hs]. rewrite (Hcbr eq_refl), sum_replicate, Z2Nat.id in Hexact by lia.
      assert (hd_last_size h = n) as En by nia. rewrite Hs, En, i16_small by done. rewrite decide_False by lia. by rewrite <- (Hcbr eq_refl), Esplit.
    + destruct (hf_vbr _ _ _ _ _ _ _ Hf Ec) as (_ & _ & Hs & Hlast & _). rewrite Hs. rewrite <- Hns in *. assert (hd_last_size h = n) as En by lia.
      rewrite En, i16_small by done. rewrite decide_False by lia. by rewrite Esplit.
Qed.

End sizes.

(** ** The header of a packet is read *)

(** What a packet promises about its header. *)
Record header_given (self_delimited : bool) (toc : Z) (vbr : bool) (pad : option (nat * Z)) (count : Z) (first l' : list Z) : Prop := {
  hg_toc : is_byte toc;
  hg_pad : match pad with None => True | Some (_, r) => 0 <= r < 255 end;
  hg_room : pad_amount pad <= zlen l';
  hg_count : (Z.land toc 3 = 0 -> count = 1) /\ (Z.land toc 3 = 1 -> count = 2) /\ (Z.land toc 3 = 2 -> count = 2) /\
    (Z.land toc 3 = 3 -> 1 <= count /\ frame_samples toc * count <= 5760);
  hg_plain : Z.land toc 3 <> 3 -> pad = None /\ (vbr = true <-> Z.land toc 3 = 2);
  hg_vbr : vbr = true \/ Z.land toc 3 = 0 -> count = zlen first + 1 /\ sizes_ok first /\ sum first + pad_amount pad <= zlen l';
  hg_cbr : vbr = false -> Z.land toc 3 <> 0 -> self_delimited = false -> exists n, zlen l' - pad_amount pad = n * count
}.

Lemma triple_eq (a b c a' b' c' : Z) : a = a' -> b = b' -> c = c' -> Some (Some (a, b, c)) = Some (Some (a', b', c')).
Proof. by intros -> -> ->. Qed.

Section header_complete.
Context (buf : list Z) (self_delimited : bool) (toc : Z) (vbr : bool) (pad : option (nat * Z)) (count : Z) (first l' : list Z).
Context (Hg : header_given self_delimited toc vbr pad count first l').

Lemma pad_stage_complete o l2 :
  bytes_at buf o (pad_bytes pad ++ l2) -> pad_amount pad <= zlen l2 ->
  let len := zlen (pad_bytes pad ++ l2) in
  (if bool_decide (is_Some pad) then padding_loop (S (Z.to_nat len)) buf o len 0 else Some (Some (o, len, 0)))
    = Some (Some (o + zlen (pad_bytes pad), zlen l2 - pad_amount pad, pad_amount pad)).
Proof.
  intros H Hroom. cbv zeta. pose proof (hg_pad _ _ _ _ _ _ _ Hg) as Hp. destruct pad as [[k r]|].
  - rewrite bool_decide_true by done. pose proof (length_pad_bytes k r) as Hl. rewrite length_app, Nat2Z.inj_add, Hl. cbn [pad_bytes pad_amount] in *. rewrite <- (assoc_L (++)) in H.
    rewrite (padding_loop_complete k r buf o _ 0 l2 _ H Hp) by lia. apply triple_eq; lia.
  - rewrite bool_decide_false by (by intros [? ?]). cbn [pad_bytes pad_amount app length]. apply triple_eq; lia.
Qed.

Lemma parse_code3_complete o :
  Z.land toc 3 = 3 -> let l := count_byte count pad vbr :: (pad_bytes pad ++ if vbr then sizes_bytes first else []) ++ l' in bytes_at buf o l ->
  exists h, parse_code3 buf o (zlen l) (frame_samples toc) self_delimited = Some (Some h) /\ header_fits self_delimited toc vbr pad first l' h /\
    hd_count h = count /\ hd_data h = o + (zlen l - zlen l').
Proof.
  intros H3 l Hbuf. pose proof (hg_count _ _ _ _ _ _ _ Hg) as (_ & _ & _ & Hc). specialize (Hc H3) as [Hc1 Hc2]. pose proof (frame_samples_range toc (hg_toc _ _ _ _ _ _ _ Hg)) as Hfs.
  destruct (count_byte_read count pad vbr) as (Hb & E1 & E2 & E3); [nia|]. pose proof (hg_pad _ _ _ _ _ _ _ Hg) as Hp. pose proof (pad_amount_pos pad Hp) as Hpos.
  pose proof (hg_room _ _ _ _ _ _ _ Hg) as Hroom.
  unfold parse_code3. rewrite decide_False by (unfold l; cbn [length]; lia). rewrite (bytes_at_ld8 _ _ _ _ Hbuf Hb). mred. rewrite E1, E2, E3. rewrite int_chk_ok by nia. mred.
  rewrite decide_False by lia. apply bytes_at_tail in Hbuf. rewrite <- (assoc_L (++)) in Hbuf. set (l2 := (if vbr then sizes_bytes first else []) ++ l') in *.
  assert (zlen l - 1 = zlen (pad_bytes pad ++ l2)) as El by (unfold l; cbn [length]; rewrite <- (assoc_L (++)); fold l2; lia).
  assert (zlen l2 = zlen (if vbr then sizes_bytes first else []) + zlen l') as El2 by (unfold l2; rewrite length_app; lia).
  rewrite El, (pad_stage_complete _ _ Hbuf) by lia. mred. rewrite decide_False by lia. apply bytes_at_app in Hbuf as [_ Hbuf].
  pose proof (hg_count _ _ _ _ _ _ _ Hg) as Hcount. pose proof (hg_plain _ _ _ _ _ _ _ Hg) as Hplain. rewrite length_app in El.
  destruct vbr.
  - destruct (hg_vbr _ _ _ _ _ _ _ Hg (or_introl eq_refl)) as (Hk & Hok & Hsum). replace (Z.to_nat (count - 1)) with (length first) by lia.
    pose proof (sum_nonneg first Hok). unfold l2 in Hbuf. rewrite (vbr_loop_complete first _ _ _ _ l' Hbuf Hok) by lia. mred. rewrite decide_False by lia.
    eexists. split; [done|]. split; [|split; [done|cbn [hd_data]; lia]]. split; fits; try tauto; split_and?; try done; try lia.
  - cbn [length] in El2. destruct self_delimited.
    + eexists. split; [done|]. split; [|split; [done|cbn [hd_data]; lia]]. split; fits; try tauto; split_and?; try done; try lia.
    + destruct (hg_cbr _ _ _ _ _ _ _ Hg eq_refl) as [n Hn]; [lia|done|]. replace (zlen l2 - pad_amount pad) with (n * count) by lia.
      rewrite Z.quot_mul by lia. rewrite decide_False by lia. eexists. split; [done|]. split; [|split; [done|cbn [hd_data]; lia]]. split; fits; try tauto; split_and?; try done; try nia.
Qed.

Lemma parse_header_complete data :
  let l := header_of toc vbr pad count first ++ l' in bytes_at buf data l ->
  exists h, parse_header buf data (zlen l) self_delimited = Some (Some h) /\ header_fits self_delimited toc vbr pad first l' h /\
    hd_count h = count /\ hd_data h = data + (zlen l - zlen l').
Proof.
  intros l H. pose proof (hg_toc _ _ _ _ _ _ _ Hg) as Ht. pose proof (hg_count _ _ _ _ _ _ _ Hg) as Hcount. pose proof (hg_plain _ _ _ _ _ _ _ Hg) as Hplain.
  pose proof (hg_room _ _ _ _ _ _ _ Hg) as Hroom.
  assert (exists l1, l = toc :: l1) as [l1 El] by (unfold l, header_of; repeat case_decide; by eexists). rewrite El in H. unfold parse_header. rewrite (samples_ok _ _ _ _ H Ht). mred.
  rewrite (bytes_at_ld8 _ _ _ _ H Ht). mred. rewrite El. cbn [length]. replace (Z.of_nat (S (length l1)) - 1) with (zlen l1) by lia. apply bytes_at_tail in H.
  destruct (land3_cases toc) as [E|[E|[E|E]]]; rewrite E.
  - destruct (Hplain ltac:(lia)) as [-> _]. unfold l, header_of in El. rewrite E in El. cbn in El. injection El as <-. rewrite decide_True by done. eexists. split; [done|].
    destruct (hg_vbr _ _ _ _ _ _ _ Hg (or_intror E)) as (Hk & Hok & Hsum). assert (count = 1) as -> by tauto. destruct first; [|cbn in Hk; lia].
    split; [|cbn [hd_count hd_data]; split; [done|lia]]. split; rewrite ?E; fits; try tauto. rewrite <- E. by apply Hplain; rewrite E.
  - destruct (Hplain ltac:(lia)) as [-> Hv]. unfold l, header_of in El. rewrite E in El. cbn in El. injection El as <-. rewrite decide_False by done. rewrite decide_True by done.
    assert (vbr = false) as Ev by (destruct vbr; [destruct Hv as [Hv _]; specialize (Hv eq_refl); lia|done]). assert (count = 2) as Ec by tauto.
    assert (self_delimited = false -> exists n, zlen l' = n * 2) as Hn.
    { intros Hsd. destruct (hg_cbr _ _ _ _ _ _ _ Hg Ev) as [n Hn]; [lia|done|]. exists n. cbn [pad_amount] in Hn. lia. }
    destruct self_delimited; [|destruct (Hn eq_refl) as [n En]; rewrite land1, En, Z.mod_mul by lia; cbn [Z.eqb negb]; rewrite Z.quot_mul by lia].
    all: eexists; (split; [done|]); (split; [|cbn [hd_count hd_data]; split; [done|lia]]); split; rewrite ?E; fits; try tauto; split_and?; try done; try lia. all: rewrite <- E; by apply Hplain; rewrite E.
  - destruct (Hplain ltac:(lia)) as [-> Hv]. assert (vbr = true) as Ev by tauto. destruct (hg_vbr _ _ _ _ _ _ _ Hg (or_introl Ev)) as (Hk & Hok & Hsum).
    assert (count = 2) as -> by tauto. destruct first as [|n [|]]; [cbn in Hk; lia| |cbn in Hk; lia]. inversion Hok as [|? ? Hn _]; subst x l0.
    unfold l, header_of in El. rewrite E in El. cbn in El. rewrite app_nil_r in El. injection El as <-. rewrite !decide_False by done. rewrite decide_True by done.
    cbn [sum foldr pad_amount] in Hsum. rewrite (parse_size_complete _ _ _ _ _ H Hn) by (rewrite length_app; lia). mred. rewrite length_app. rewrite decide_False by lia.
    eexists. split; [done|]. split; [|cbn [hd_count hd_data]; split; [done|lia]]. split; rewrite ?E; fits; try tauto; congruence.
  - unfold l in El. rewrite header_of_code3 in El by done. cbn [app] in El. injection El as <-. rewrite !decide_False by done.
    destruct (parse_code3_complete (data + 1) E H) as (h & -> & Hf & Hc & Hd). exists h. split; [done|]. split; [done|]. split; [done|]. rewrite Hd. lia.
Qed.

End header_complete.

(** ** The parser *)

Fixpoint cut (ns l : list Z) : list (list Z) :=
  match ns with [] => [] | n :: ns => take (Z.to_nat n) l :: cut ns (drop (Z.to_nat n) l) end.

Lemma cut_spec ns l :
  sizes_ok ns -> sum ns <= zlen l -> is_bytes l ->
  (fun f => zlen f) <$> cut ns l = ns /\ concat (cut ns l) = take (Z.to_nat (sum ns)) l /\ Forall frame_ok (cut ns l).
Proof.
  intros Hns. revert l. induction Hns as [|n ns Hn Hns IH]; intros l Hsum Hb; cbn [cut fmap list_fmap concat sum foldr] in *; [done|]. fold (sum ns) in *.
  pose proof (sum_nonneg ns Hns). destruct (IH (drop (Z.to_nat n) l)) as (H1 & H2 & H3); [rewrite length_drop; lia|by apply Forall_drop|].
  assert (zlen (take (Z.to_nat n) l) = n) as Hl by (rewrite length_take; lia). rewrite Hl, H1, H2, Z2Nat.inj_add by lia. split; [done|].
  split; [|constructor; [split; [by apply Forall_take|lia]|done]]. rewrite take_take_drop. done.
Qed.

Lemma sum_concat fs : sum ((fun f : list Z => zlen f) <$> fs) = zlen (concat fs).
Proof. induction fs as [|f fs IH]; cbn [fmap list_fmap concat sum foldr]; [done|]. fold (sum ((fun f : list Z => zlen f) <$> fs)). rewrite length_app. lia. Qed.

Lemma frame_pointers_spec buf o fs :
  bytes_at buf o (concat fs) ->
  (frame_pointers o ((fun f : list Z => zlen f) <$> fs)).2 = o + zlen (concat fs) /\
  Forall2 (fun x f => slice buf x (zlen f) = Some f) (frame_pointers o ((fun f : list Z => zlen f) <$> fs)).1 fs.
Proof.
  revert o. induction fs as [|f fs IH]; intros o H; cbn [fmap list_fmap concat frame_pointers]; [split; [cbn; lia|constructor]|].
  cbn [concat] in H. apply bytes_at_app in H as [H1 H2]. destruct (IH _ H2) as [E F]. destruct (frame_pointers (o + zlen f) _) as [ps e]. cbn [fst snd] in *.
  split; [rewrite length_app; lia|]. constructor; [by apply bytes_at_slice|done].
Qed.

Lemma packet_sizes_ok p : packet_ok p -> sizes_ok (packet_sizes p).
Proof. intros Hp. apply Forall_fmap. induction (po_frames p Hp) as [|f fs [_ Hf] _ IH]; constructor; [cbn; lia|done]. Qed.

Lemma packet_count p : packet_ok p -> zlen (packet_sizes p) = pt_count p /\ 1 <= pt_count p.
Proof.
  intros Hp. unfold packet_sizes, pt_count. rewrite length_fmap. split; [done|]. pose proof (po_code0 p Hp). pose proof (po_code1 p Hp). pose proof (po_code2 p Hp). pose proof (po_code3 p Hp).
  unfold pt_code, pt_count in *. destruct (land3_cases (pt_toc p)) as [E|[E|[E|E]]]; specialize_eqs E || idtac; rewrite E in *; lia.
Qed.

(** What a packet says of its header. *)
Lemma packet_given p self_delimited rest :
  packet_ok p -> (self_delimited = false -> rest = []) ->
  header_given self_delimited (pt_toc p) (pt_vbr p) (pt_pad p) (pt_count p) (removelast (packet_sizes p))
    ((if self_delimited then last_size_bytes p else []) ++ concat (pt_frames p) ++ pt_padding p ++ rest).
Proof.
  intros Hp Hrest. pose proof (packet_sizes_ok p Hp) as Hs. destruct (packet_count p Hp) as [Hk Hc]. destruct (po_pad p Hp) as [Hpad Hpl].
  pose proof (sum_concat (pt_frames p)) as Hsum. fold (packet_sizes p) in Hsum.
  assert (packet_sizes p <> []) as Hne by (intros E; rewrite E in Hk; cbn in Hk; lia). pose proof (removelast_app_last _ 0 Hne) as Esplit.
  rewrite <- Esplit in Hk, Hs, Hsum. rewrite length_app in Hk. apply Forall_app in Hs as [Hs1 Hs2]. apply Forall_inv in Hs2. rewrite sum_app in Hsum. cbn [sum foldr length] in *.
  fold (sum (removelast (packet_sizes p))) in Hsum. split.
  - apply Hp.
  - exact Hpad.
  - rewrite !length_app. lia.
  - pose proof (po_code0 p Hp). pose proof (po_code1 p Hp). pose proof (po_code2 p Hp). pose proof (po_code3 p Hp). unfold pt_code in *. tauto.
  - apply (po_plain p Hp).
  - intros _. rewrite !length_app. split; [lia|]. split; [done|]. lia.
  - intros Hv H0 Hsd. rewrite (Hrest Hsd), Hsd, app_nil_r. cbn [app]. rewrite length_app.
    replace (_ - _) with (zlen (concat (pt_frames p))) by lia. assert (same_size (packet_sizes p)) as [n Hn].
    { destruct (land3_cases (pt_toc p)) as [E|[E|[E|E]]]; [done|by apply (po_code1 p Hp)| |by apply (po_code3 p Hp)].
      destruct (po_plain p Hp) as [_ Hv']; [unfold pt_code; lia|]. unfold pt_code in Hv'. rewrite E in Hv'. destruct Hv' as [_ Hv']. by rewrite Hv' in Hv. }
    exists n. rewrite <- sum_concat. fold (packet_sizes p). rewrite (all_same _ _ Hn), sum_replicate. unfold packet_sizes. rewrite length_fmap. unfold pt_count. lia.
Qed.

Lemma parse_complete buf data self_delimited p rest :
  packet_ok p -> (self_delimited = false -> rest = []) -> bytes_at buf data (packet_bytes self_delimited p ++ rest) ->
  opus_packet_parse_impl buf data (zlen (packet_bytes self_delimited p ++ rest)) self_delimited = Some (inr (parsed_of self_delimited p data)).
Proof.
  intros Hp Hrest H. set (l' := (if self_delimited then last_size_bytes p else []) ++ concat (pt_frames p) ++ pt_padding p ++ rest).
  assert (packet_bytes self_delimited p ++ rest = header_bytes p ++ l') as El by (unfold packet_bytes, l'; by rewrite <- !(assoc_L (++))).
  rewrite El in *. pose proof (packet_given p self_delimited rest Hp Hrest) as Hg. fold l' in Hg. destruct (packet_count p Hp) as [Hk Hc]. destruct (po_pad p Hp) as [Hpad Hpl].
  assert (exists t, header_bytes p = pt_toc p :: t) as [t Et] by (unfold header_bytes, header_of; repeat case_decide; by eexists).
  destruct (parse_header_complete buf self_delimited _ _ _ _ _ _ Hg data H) as (h & Eh & Hf & Ec & Ed). fold (header_bytes p) in *.
  unfold opus_packet_parse_impl. rewrite decide_False by lia. rewrite decide_False by (rewrite Et; cbn; lia). rewrite Eh. mred.
  pose proof (bytes_at_app buf data (header_bytes p) l') as Happ. destruct (proj1 Happ H) as [H1 H2]. rewrite length_app in Ed.
  assert (bytes_at buf (hd_data h) l') as H2' by (by replace (hd_data h) with (data + zlen (header_bytes p)) by lia).
  pose proof (sum_concat (pt_frames p)) as Hsum. fold (packet_sizes p) in Hsum. set (l'' := concat (pt_frames p) ++ pt_padding p ++ rest) in *.
  rewrite (parse_sizes_complete buf self_delimited _ _ _ _ l' h Hf H2' (packet_sizes p) l''); [|done|congruence|by apply packet_sizes_ok| | |].
  - mred. rewrite Et in H1. rewrite (bytes_at_ld8 _ _ _ _ H1 (po_toc p Hp)). mred.
    replace (hd_data h + (zlen l' - zlen l'')) with (frames_at self_delimited p data) by (unfold frames_at, l'; rewrite length_app; destruct self_delimited; cbn [length]; lia).
    assert (bytes_at buf (frames_at self_delimited p data) (concat (pt_frames p))) as H3.
    { unfold l' in H2. apply bytes_at_app in H2 as [_ H2]. apply bytes_at_app in H2 as [H2 _]. unfold frames_at. destruct self_delimited; cbn [length] in *; [done|by replace (_ + 0) with (data + zlen (header_bytes p) + Z.of_nat 0) by lia]. }
    destruct (frame_pointers_spec _ _ _ H3) as [E _]. fold (packet_sizes p) in E. unfold parsed_of. destruct (frame_pointers (frames_at self_delimited p data) (packet_sizes p)) as [ps e]. cbn [fst snd] in *.
    rewrite Ec, (hf_pad _ _ _ _ _ _ _ Hf), E. do 3 f_equal. f_equal; [|lia]. unfold packet_bytes, frames_at. rewrite !length_app. destruct self_delimited; cbn [length]; lia.
  - destruct (hd_cbr h) eqn:Ecb; [|done]. destruct (hf_cbr _ _ _ _ _ _ _ Hf Ecb) as (Hv & H0 & _). destruct (land3_cases (pt_toc p)) as [E|[E|[E|E]]]; [done|by apply (po_code1 p Hp)| |by apply (po_code3 p Hp)].
    destruct (po_plain p Hp) as [_ Hv']; [unfold pt_code; lia|]. unfold pt_code in Hv'. rewrite E in Hv'. destruct Hv' as [_ Hv']. by rewrite Hv' in Hv.
  - unfold l''. rewrite !length_app. lia.
  - intros Hsd. unfold l''. rewrite (Hrest Hsd), app_nil_r, length_app. lia.
Qed.

Lemma header_of_first toc vbr pad count f1 f2 :
  (vbr = true -> f1 = f2) -> (Z.land toc 3 = 2 -> vbr = true) -> header_of toc vbr pad count f1 = header_of toc vbr pad count f2.
Proof. intros H H2. unfold header_of. destruct vbr; [by rewrite H|]. repeat case_decide; [done| |done]. by specialize (H2 ltac:(done)). Qed.

(** The packet behind what the parser found. *)
Lemma found_packet self_delimited toc vbr pad first l' h o ns :
  is_byte toc -> is_bytes l' -> header_fits self_delimited toc vbr pad first l' h -> sizes_found self_delimited h pad first l' o ns ->
  exists p rest, packet_ok p /\ (self_delimited = false -> rest = []) /\ header_of toc vbr pad (hd_count h) first ++ l' = packet_bytes self_delimited p ++ rest.
Proof.
  intros Ht Hb Hf (l'' & El & _ & Hk & Hns & Hfirst & Hsum & Hexact). pose proof (pad_amount_pos pad (hf_pad_ok _ _ _ _ _ _ _ Hf)) as Hpad. pose proof (sum_nonneg ns Hns) as Hs0.
  rewrite El in Hb. apply Forall_app in Hb as [_ Hb]. destruct (cut_spec ns l'' Hns ltac:(lia) Hb) as (Hcut & Hconcat & Hframes).
  set (pd := take (Z.to_nat (pad_amount pad)) (drop (Z.to_nat (sum ns)) l'')). set (p := mk_packet toc vbr pad (cut ns l'') pd).
  exists p, (drop (Z.to_nat (sum ns + pad_amount pad)) l''). assert (packet_sizes p = ns) as Esz by done.
  assert (pt_count p = hd_count h) as Ec by (rewrite <- Hk, <- Esz; unfold packet_sizes; by rewrite length_fmap).
  assert (hd_cbr h = true -> same_size ns) as Hcbr by (intros E; by rewrite E in Hfirst).
  assert (vbr = false -> Z.land toc 3 <> 0 -> hd_cbr h = true) as Hcbr1.
  { intros Hv H0. destruct (hd_cbr h) eqn:E; [done|]. destruct (hf_vbr _ _ _ _ _ _ _ Hf E) as (_ & _ & _ & _ & _ & H). by destruct (H0 (H Hv)). }
  split; [|split].
  - destruct (hf_count _ _ _ _ _ _ _ Hf) as (C0 & C1 & C2 & C3). split; rewrite ?Ec, ?Esz; unfold pt_code; cbn [pt_toc pt_frames pt_padding pt_vbr pt_pad p]; try done.
    + unfold pd. apply Forall_take, Forall_drop, Hb.
    + intros E. split; [by apply C1|]. apply Hcbr, Hcbr1; [|lia]. destruct (hf_plain _ _ _ _ _ _ _ Hf ltac:(lia)) as [_ Hv]. destruct vbr; [|done].
      destruct Hv as [Hv _]. specialize (Hv eq_refl). lia.
    + intros E. destruct (C3 E) as [C31 C32]. split; [done|]. split; [done|]. intros Hv. apply Hcbr, Hcbr1; [done|lia].
    + split; [apply (hf_pad_ok _ _ _ _ _ _ _ Hf)|]. unfold pd. rewrite length_take, length_drop. lia.
    + apply (hf_plain _ _ _ _ _ _ _ Hf).
  - intros Hsd. apply drop_ge. specialize (Hexact Hsd). lia.
  - unfold packet_bytes, header_bytes, last_size_bytes. rewrite Ec, Esz. cbn [pt_toc pt_vbr pt_pad pt_frames pt_padding p]. rewrite El, <- !(assoc_L (++)). f_equal.
    + apply header_of_first.
      * intros Hv. destruct (hd_cbr h) eqn:E; [|done]. destruct (hf_cbr _ _ _ _ _ _ _ Hf E) as [Hv' _]. by rewrite Hv in Hv'.
      * intros E. destruct (hf_plain _ _ _ _ _ _ _ Hf ltac:(lia)) as [_ Hv]. by apply Hv.
    + f_equal. rewrite Hconcat. unfold pd. rewrite Z2Nat.inj_add by lia. rewrite take_drop_at. by rewrite take_drop.
Qed.

Lemma parse_sound buf data l self_delimited :
  bytes_at buf data l -> is_bytes l ->
  exists r, opus_packet_parse_impl buf data (zlen l) self_delimited = Some r /\
    match r with
    | inl e => e = OPUS_INVALID_PACKET
    | inr _ => exists p rest, packet_ok p /\ (self_delimited = false -> rest = []) /\ l = packet_bytes self_delimited p ++ rest
    end.
Proof.
  intros H Hb. unfold opus_packet_parse_impl. rewrite decide_False by lia. case_decide as E0; [by eexists|].
  destruct (parse_header_sound buf data l self_delimited H Hb) as (r & -> & Hr); [lia|]. mred. destruct r as [h|]; [|by eexists].
  destruct Hr as (toc & vbr & pad & first & l' & El & Ht & Ed & Hf). assert (exists t, l = toc :: t) as [t Et].
  { rewrite El. unfold header_of. repeat case_decide; by eexists. }
  assert (bytes_at buf (hd_data h) l' /\ is_bytes l') as [H2 Hb2].
  { rewrite El in H, Hb. apply bytes_at_app in H as [_ H]. apply Forall_app in Hb as [_ Hb]. split; [|done]. rewrite Ed, El, length_app.
    by replace (_ + (_ - _)) with (data + zlen (header_of toc vbr pad (hd_count h) first)) by lia. }
  destruct (parse_sizes_sound buf self_delimited toc vbr pad first l' h Hf H2 Hb2) as (s & -> & Hs). mred. destruct s as [[o ns]|]; [|by eexists].
  rewrite Et in H. rewrite (bytes_at_ld8 _ _ _ _ H Ht). mred. destruct (frame_pointers o ns) as [fs e]. eexists. split; [done|]. cbn.
  rewrite El. by apply (found_packet self_delimited toc vbr pad first l' h o ns).
Qed.

(** C5 The parser accepts exactly the packets of the format and finds their frames.  On any bytes
    it returns without an access outside them; a packet, followed by more bytes only when it
    says its own length, is parsed to its frames, their sizes, its padding and its length, and
    everything else is refused as invalid. *)
Theorem opus_packet_parse_exact buf data l self_delimited :
  bytes_at buf data l -> is_bytes l ->
  exists r, opus_packet_parse_impl buf data (zlen l) self_delimited = Some r /\
    match r with
    | inl e => e = OPUS_INVALID_PACKET /\
        ~ exists p rest, packet_ok p /\ (self_delimited = false -> rest = []) /\ l = packet_bytes self_delimited p ++ rest
    | inr (count, k) => exists p rest, packet_ok p /\ (self_delimited = false -> rest = []) /\ l = packet_bytes self_delimited p ++ rest /\
        (count, k) = parsed_of self_delimited p data /\ Forall2 (fun x f => slice buf x (zlen f) = Some f) (pk_frames k) (pt_frames p)
    end.
Proof.
  intros H Hb. destruct (parse_sound buf data l self_delimited H Hb) as (r & E & Hr). exists r. split; [done|]. destruct r as [e|[count k]].
  - split; [done|]. intros (p & rest & Hp & Hrest & El). rewrite El in H, E. by rewrite (parse_complete buf data self_delimited p rest Hp Hrest H) in E.
  - destruct Hr as (p & rest & Hp & Hrest & El). exists p, rest. rewrite El in H, E. rewrite (parse_complete buf data self_delimited p rest Hp Hrest H) in E.
    assert ((count, k) = parsed_of self_delimited p data) as Ek by congruence. split; [done|]. split; [done|]. split; [done|]. split; [done|].
    unfold parsed_of in Ek. injection Ek as _ ->. cbn [pk_frames].
    apply frame_pointers_spec. unfold packet_bytes in H. rewrite <- !(assoc_L (++)) in H. apply bytes_at_app in H as [_ H]. apply bytes_at_app in H as [_ H].
    apply bytes_at_app in H as [H _]. unfold frames_at. destruct self_delimited; [exact H|]. by replace (_ + 0) with (data + zlen (header_bytes p) + 0) by lia.
Qed.

(** Two frames of different sizes, with a padding of three bytes. *)
Definition example_packet : packet := mk_packet 0x0B true (Some (0%nat, 3)) [[1; 2]; [3; 4; 5]] [0; 0; 0].

Lemma opus_packet_parse_exact_witness :
  exists k, opus_packet_parse_impl [9; 0x0B; 0xC2; 3; 2; 1; 2; 3; 4; 5; 0; 0; 0] 1 12 false = Some (inr (2, k)) /\ pk_size k = [2; 3] /\ pk_padding_len k = 3.
Proof.
  destruct (opus_packet_parse_exact [9; 0x0B; 0xC2; 3; 2; 1; 2; 3; 4; 5; 0; 0; 0] 1 [0x0B; 0xC2; 3; 2; 1; 2; 3; 4; 5; 0; 0; 0] false) as (r & E & _).
  - by exists [9], [].
  - apply (bool_decide_unpack _). by vm_compute.
  - assert (r = inr (2, mk_parsed 0x0B [5; 7] [2; 3] 4 12 10 3)) as -> by (vm_compute in E; by injection E).
    exact (ex_intro _ _ (conj E (conj eq_refl eq_refl))).
Defined.
