(* ===== verification/OpusExt.v ===== *)
(** * Extensions in the padding of a packet [src/extensions.c of opus-main]

    The padding of a packet may hold extensions: an identifier byte, a payload, and marks that
    move to the next frame or repeat the extensions of a frame for the frames after it.  The
    padding is a list of bytes and a pointer into it an offset; a failed assertion is [None],
    as an access outside the padding is. *)

From S2P Require Import Prelude OpusPacket.

(** ** Skipping *)

(** The loop that adds the bytes of a length: the length, the number of its bytes, the offset after
    it and the bytes that are left. *)
Fixpoint lacing_loop (fuel : nat) (d : list Z) (data len bytes header_size : Z) : option (option (Z * Z * Z * Z)) :=
  match fuel with
  | O => None
  | S fuel =>
    if decide (len < 1) then Some None else
    lacing ← ld8 d data;
    let r := (bytes + lacing, header_size + 1, data + 1, len - (lacing + 1)) in
    if decide (lacing = 255) then lacing_loop fuel d (data + 1) (len - (lacing + 1)) (bytes + lacing) (header_size + 1) else Some (Some r)
  end.

(** The offset, the bytes that are left and the size of the header; [None] inside is the result -1. *)
Definition skip_extension_payload (d : list Z) (data len id_byte trailing_short_len : Z) : option (option (Z * Z * Z)) :=
  let id := Z.shiftr id_byte 1 in
  let L := Z.land id_byte 1 in
  if (bool_decide (id = 0) && bool_decide (L = 1)) || bool_decide (id = 2) then Some (Some (data, len, 0))
  else if bool_decide (id > 0) && bool_decide (id < 32) then
    if decide (len < L) then Some None else Some (Some (data + L, len - L, 0))
  else if decide (L = 0) then
    if decide (len < trailing_short_len) then Some None else Some (Some (data + (len - trailing_short_len), trailing_short_len, 0))
  else
    r ← lacing_loop (S (Z.to_nat len)) d data len 0 0;
    match r with
    | None => Some None
    | Some (bytes, header_size, data, len) => if decide (len < 0) then Some None else Some (Some (data + bytes, len, header_size))
    end.

Definition skip_extension (d : list Z) (data len : Z) : option (option (Z * Z * Z)) :=
  if decide (len = 0) then Some (Some (data, 0, 0))
  else if decide (len < 1) then Some None
  else
    id_byte ← ld8 d data;
    r ← skip_extension_payload d (data + 1) (len - 1) id_byte 0;
    Some ('(data, len, header_size) ← r; Some (data, len, header_size + 1)).

(** ** The iterator *)

(** [last_long] is null when it is [None]. *)
Record OpusExtensionIterator := mk_iter {
  curr_data : Z;
  repeat_data : Z;
  last_long : option Z;
  src_data : Z;
  ext_size : Z;
  curr_len : Z;
  repeat_len : Z;
  src_len : Z;
  trailing_short_len : Z;
  nb_frames : Z;
  frame_max : Z;
  curr_frame : Z;
  repeat_frame : Z;
  repeat_l : Z
}.

(** The payload is given by its offset. *)
Record opus_extension_data := mk_ext { ext_id : Z; ext_frame : Z; ext_data : Z; ext_len : Z }.

Definition opus_extension_iterator_init (d : list Z) (nframes : Z) : option OpusExtensionIterator :=
  _ ← celt_assert (bool_decide (0 <= nframes <= 48));
  Some (mk_iter 0 0 None 0 (zlen d) (zlen d) 0 0 0 nframes nframes 0 0 0).

Definition opus_extension_iterator_reset (it : OpusExtensionIterator) : OpusExtensionIterator :=
  mk_iter 0 0 None (src_data it) (ext_size it) (ext_size it) (repeat_len it) (src_len it) 0 (nb_frames it) (frame_max it) 0 0 (repeat_l it).

Definition opus_extension_iterator_set_frame_max (it : OpusExtensionIterator) (n : Z) : OpusExtensionIterator :=
  mk_iter (curr_data it) (repeat_data it) (last_long it) (src_data it) (ext_size it) (curr_len it) (repeat_len it) (src_len it)
    (trailing_short_len it) (nb_frames it) n (curr_frame it) (repeat_frame it) (repeat_l it).

Definition set_curr (it : OpusExtensionIterator) (data len : Z) : OpusExtensionIterator :=
  mk_iter data (repeat_data it) (last_long it) (src_data it) (ext_size it) len (repeat_len it) (src_len it)
    (trailing_short_len it) (nb_frames it) (frame_max it) (curr_frame it) (repeat_frame it) (repeat_l it).
Definition set_src (it : OpusExtensionIterator) (data len frame : Z) : OpusExtensionIterator :=
  mk_iter (curr_data it) (repeat_data it) (last_long it) data (ext_size it) (curr_len it) (repeat_len it) len
    (trailing_short_len it) (nb_frames it) (frame_max it) (curr_frame it) frame (repeat_l it).
Definition set_frame (it : OpusExtensionIterator) (frame : Z) : OpusExtensionIterator :=
  mk_iter (curr_data it) (repeat_data it) (last_long it) (src_data it) (ext_size it) (curr_len it) (repeat_len it) (src_len it)
    (trailing_short_len it) (nb_frames it) (frame_max it) frame (repeat_frame it) (repeat_l it).
Definition set_last_long (it : OpusExtensionIterator) (l : option Z) (trailing : Z) : OpusExtensionIterator :=
  mk_iter (curr_data it) (repeat_data it) l (src_data it) (ext_size it) (curr_len it) (repeat_len it) (src_len it)
    trailing (nb_frames it) (frame_max it) (curr_frame it) (repeat_frame it) (repeat_l it).

(** What a call returns: the result, and the extension when the result is 1. *)
Definition answer : Type := Z * option opus_extension_data.

(** The end of [opus_extension_iterator_next_repeat]. *)
Definition end_repeat (it : OpusExtensionIterator) : OpusExtensionIterator :=
  let frame := if decide (repeat_l it = 0) then curr_frame it + 1 else curr_frame it in
  let len := if bool_decide (repeat_l it = 0) && bool_decide (frame >= nb_frames it) then 0 else curr_len it in
  mk_iter (curr_data it) (curr_data it) None (src_data it) (ext_size it) len (repeat_len it) (src_len it)
    (trailing_short_len it) (nb_frames it) (frame_max it) frame 0 (repeat_l it).

(** Its two loops, a round of either per unit of fuel. *)
Fixpoint repeat_loop (fuel : nat) (d : list Z) (it : OpusExtensionIterator) : option (OpusExtensionIterator * answer) :=
  match fuel with
  | O => None
  | S fuel =>
    if decide (repeat_frame it < nb_frames it) then
      if decide (src_len it > 0) then
        repeat_id_byte ← ld8 d (src_data it);
        r ← skip_extension d (src_data it) (src_len it);
        '(sdata, slen, _) ← r;
        let it := set_src it sdata slen (repeat_frame it) in
        if decide (repeat_id_byte <= 3) then repeat_loop fuel d it else
        let repeat_id_byte := if bool_decide (repeat_l it = 0) && bool_decide (repeat_frame it + 1 >= nb_frames it) && bool_decide (last_long it = Some (src_data it))
                              then Z.land repeat_id_byte (-2) else repeat_id_byte in
        let curr_data0 := curr_data it in
        r ← skip_extension_payload d (curr_data it) (curr_len it) repeat_id_byte (trailing_short_len it);
        match r with
        | None => Some (set_curr it (curr_data it) (-1), (OPUS_INVALID_PACKET, None))
        | Some (data, len, header_size) =>
          let it := set_curr it data len in
          _ ← celt_assert (bool_decide (curr_data it = ext_size it - curr_len it));
          if decide (repeat_frame it >= frame_max it) then repeat_loop fuel d it else
          Some (it, (1, Some (mk_ext (Z.shiftr repeat_id_byte 1) (repeat_frame it) (curr_data0 + header_size) (curr_data it - curr_data0 - header_size))))
        end
      else repeat_loop fuel d (set_src it (repeat_data it) (repeat_len it) (repeat_frame it + 1))
    else Some (end_repeat it, (0, None))
  end.

Definition repeat_fuel (it : OpusExtensionIterator) : nat :=
  Z.to_nat ((nb_frames it - repeat_frame it) * (repeat_len it + 1) + src_len it + 1).

Definition opus_extension_iterator_next_repeat (d : list Z) (it : OpusExtensionIterator) : option (OpusExtensionIterator * answer) :=
  _ ← celt_assert (bool_decide (repeat_frame it > 0));
  repeat_loop (repeat_fuel it) d it.

(** The loop of [opus_extension_iterator_next]. *)
Fixpoint next_loop (fuel : nat) (d : list Z) (it : OpusExtensionIterator) : option (OpusExtensionIterator * answer) :=
  match fuel with
  | O => None
  | S fuel =>
    if decide (curr_len it > 0) then
      let curr_data0 := curr_data it in
      b ← ld8 d curr_data0;
      let id := Z.shiftr b 1 in
      let L := Z.land b 1 in
      r ← skip_extension d (curr_data it) (curr_len it);
      match r with
      | None => Some (set_curr it (curr_data it) (-1), (OPUS_INVALID_PACKET, None))
      | Some (data, len, header_size) =>
        let it := set_curr it data len in
        _ ← celt_assert (bool_decide (curr_data it = ext_size it - curr_len it));
        if decide (id = 1) then
          diff ← (if decide (L = 0) then Some 1 else ld8 d (curr_data0 + 1));
          if decide (diff = 0) then next_loop fuel d it else
          let it := set_frame it (curr_frame it + diff) in
          if decide (curr_frame it >= nb_frames it) then Some (set_curr it (curr_data it) (-1), (OPUS_INVALID_PACKET, None)) else
          let it := if decide (curr_frame it >= frame_max it) then set_curr it (curr_data it) 0 else it in
          next_loop fuel d (mk_iter (curr_data it) (curr_data it) None (src_data it) (ext_size it) (curr_len it) (repeat_len it) (src_len it)
                              0 (nb_frames it) (frame_max it) (curr_frame it) (repeat_frame it) (repeat_l it))
        else if decide (id = 2) then
          let rlen := curr_data0 - repeat_data it in
          let it := mk_iter (curr_data it) (repeat_data it) (last_long it) (repeat_data it) (ext_size it) (curr_len it) rlen rlen
                      (trailing_short_len it) (nb_frames it) (frame_max it) (curr_frame it) (curr_frame it + 1) L in
          '(it, (ret, ext)) ← opus_extension_iterator_next_repeat d it;
          if decide (ret <> 0) then Some (it, (ret, ext)) else next_loop fuel d it
        else if decide (id > 2) then
          let it := if decide (id >= 32) then set_last_long it (Some (curr_data it)) 0 else set_last_long it (last_long it) (trailing_short_len it + L) in
          Some (it, (1, Some (mk_ext id (curr_frame it) (curr_data0 + header_size) (curr_data it - curr_data0 - header_size))))
        else next_loop fuel d it
      end
    else Some (it, (0, None))
  end.

Definition opus_extension_iterator_next (d : list Z) (it : OpusExtensionIterator) : option (OpusExtensionIterator * answer) :=
  if decide (curr_len it < 0) then Some (it, (OPUS_INVALID_PACKET, None)) else
  '(it, (ret, ext)) ← (if decide (repeat_frame it > 0) then opus_extension_iterator_next_repeat d it else Some (it, (0, None)));
  if decide (ret <> 0) then Some (it, (ret, ext))
  else if decide (curr_frame it >= frame_max it) then Some (it, (0, None))
  else next_loop (S (Z.to_nat (curr_len it))) d it.

(** ** Walking through all extensions *)

(** Enough for every walk: see [OpusExtFacts]. *)
Definition walk_fuel (d : list Z) : nat := Z.to_nat (zlen d * (49 * (zlen d + 1) + 1) + 1).

Fixpoint find_loop (fuel : nat) (d : list Z) (it : OpusExtensionIterator) (id : Z) : option (OpusExtensionIterator * answer) :=
  match fuel with
  | O => None
  | S fuel =>
    '(it, (ret, ext)) ← opus_extension_iterator_next d it;
    if decide (ret <= 0) then Some (it, (ret, None)) else
    e ← ext;
    if decide (ext_id e = id) then Some (it, (ret, ext)) else find_loop fuel d it id
  end.

Definition opus_extension_iterator_find (d : list Z) (it : OpusExtensionIterator) (id : Z) : option (OpusExtensionIterator * answer) :=
  find_loop (walk_fuel d) d it id.

Fixpoint count_loop (fuel : nat) (d : list Z) (it : OpusExtensionIterator) (count : Z) : option Z :=
  match fuel with
  | O => None
  | S fuel =>
    '(it, (ret, _)) ← opus_extension_iterator_next d it;
    if decide (ret > 0) then count_loop fuel d it (count + 1) else Some count
  end.

Definition opus_packet_extensions_count (d : list Z) (nframes : Z) : option Z :=
  it ← opus_extension_iterator_init d nframes; count_loop (walk_fuel d) d it 0.

(** [nb_frame_exts[frame]++]. *)
Definition increment (counts : list Z) (frame : Z) : option (list Z) :=
  if decide (frame < 0) then None else c ← counts !! Z.to_nat frame; Some (<[Z.to_nat frame := c + 1]> counts).

Fixpoint count_ext_loop (fuel : nat) (d : list Z) (it : OpusExtensionIterator) (count : Z) (nb_frame_exts : list Z) : option (Z * list Z) :=
  match fuel with
  | O => None
  | S fuel =>
    '(it, (ret, ext)) ← opus_extension_iterator_next d it;
    if decide (ret > 0) then
      e ← ext; counts ← increment nb_frame_exts (ext_frame e); count_ext_loop fuel d it (count + 1) counts
    else Some (count, nb_frame_exts)
  end.

(** The number of extensions and that of each frame. *)
Definition opus_packet_extensions_count_ext (d : list Z) (nframes : Z) : option (Z * list Z) :=
  it ← opus_extension_iterator_init d nframes;
  count_ext_loop (walk_fuel d) d it 0 (replicate (Z.to_nat nframes) 0).

Fixpoint parse_loop (fuel : nat) (d : list Z) (it : OpusExtensionIterator) (nb_extensions : Z) (extensions : list opus_extension_data)
  : option (Z * list opus_extension_data) :=
  match fuel with
  | O => None
  | S fuel =>
    '(it, (ret, ext)) ← opus_extension_iterator_next d it;
    if decide (ret <= 0) then Some (ret, extensions)
    else if decide (zlen extensions = nb_extensions) then Some (OPUS_BUFFER_TOO_SMALL, extensions)
    else e ← ext; parse_loop fuel d it nb_extensions (extensions ++ [e])
  end.

(** The result and what was stored. *)
Definition opus_packet_extensions_parse (d : list Z) (nb_extensions nframes : Z) : option (Z * list opus_extension_data) :=
  it ← opus_extension_iterator_init d nframes; parse_loop (walk_fuel d) d it nb_extensions [].

(** The sums of the numbers before each frame, and the total. *)
Fixpoint cumulate (nb_frame_exts : list Z) (prev_total : Z) : list Z :=
  match nb_frame_exts with [] => [prev_total] | n :: ns => prev_total :: cumulate ns (n + prev_total) end.

Fixpoint parse_ext_loop (fuel : nat) (d : list Z) (it : OpusExtensionIterator) (count : Z) (nb_frames_cum : list Z)
    (extensions : list opus_extension_data) : option (Z * Z * list opus_extension_data) :=
  match fuel with
  | O => None
  | S fuel =>
    '(it, (ret, ext)) ← opus_extension_iterator_next d it;
    if decide (ret <= 0) then Some (ret, count, extensions) else
    e ← ext;
    if decide (ext_frame e < 0) then None else
    idx ← nb_frames_cum !! Z.to_nat (ext_frame e);
    cum ← increment nb_frames_cum (ext_frame e);
    if decide (idx >= zlen extensions) then Some (OPUS_BUFFER_TOO_SMALL, zlen extensions, extensions) else
    next ← cum !! Z.to_nat (ext_frame e + 1);
    _ ← celt_assert (bool_decide (idx < next));
    if decide (idx < 0) then None else
    parse_ext_loop fuel d it (count + 1) cum (<[Z.to_nat idx := e]> extensions)
  end.

(** The array has the size that the caller tells; the result, the new size and the array. *)
Definition opus_packet_extensions_parse_ext (d : list Z) (extensions : list opus_extension_data) (nb_frame_exts : list Z) (nframes : Z)
  : option (Z * Z * list opus_extension_data) :=
  _ ← celt_assert (bool_decide (nframes <= 48));
  it ← opus_extension_iterator_init d nframes;
  parse_ext_loop (walk_fuel d) d it 0 (cumulate nb_frame_exts 0) extensions.
