(* ===== verification/OpusExtWalk.v ===== *)
(** * Walking the extensions of a packet

    On any bytes the iterator stays inside the padding and keeps its assertions: what is
    repeated was skipped before, so it is skipped again.  Each extension it returns lies in the
    padding and belongs to a frame of the packet, and the walk ends. *)

From S2P Require Import Prelude OpusPacket OpusPacketFacts OpusExt.

(** ** Skipping *)

Section skip.
Context (d : list Z) (Hd : is_bytes d).

Lemma read_byte o : 0 <= o < zlen d -> exists b, ld8 d o = Some b /\ is_byte b.
Proof. intros Ho. destruct (ld_is_Some 1 d o Hd) as (b & E & Hb); [lia|lia|]. by exists b. Qed.

(** What was read does not depend on the bytes after it. *)
Lemma lacing_ok fuel data len bytes hs :
  0 <= data -> data + len <= zlen d -> (Z.to_nat len < fuel)%nat ->
  exists r, lacing_loop fuel d data len bytes hs = Some r /\
    match r with
    | None => True
    | Some (bytes', hs', data', len') =>
      data < data' <= data + len /\ hs' = hs + (data' - data) /\ bytes <= bytes' /\ len' = len - (data' - data) - (bytes' - bytes) /\
      forall m fuel', (data' - data) + (bytes' - bytes) <= m -> (Z.to_nat m < fuel')%nat ->
        lacing_loop fuel' d data m bytes hs = Some (Some (bytes', hs', data', m - (data' - data) - (bytes' - bytes)))
    end.
Proof.
  revert data len bytes hs. induction fuel as [|fuel IH]; intros data len bytes hs H0 Hl Hf; [lia|]. cbn [lacing_loop]. case_decide as E; [by exists None|].
  destruct (read_byte data) as (b & Eb & Hb); [lia|]. rewrite Eb. mred. unfold is_byte in Hb. destruct (decide (b = 255)) as [->|Hne].
  - destruct (IH (data + 1) (len - (255 + 1)) (bytes + 255) (hs + 1)) as (r & -> & Hr); [lia|lia|lia|]. exists r. split; [done|].
    destruct r as [[[[bytes' hs'] data'] len']|]; [|done]. destruct Hr as (H1 & -> & H3 & -> & H5). split; [lia|]. split; [lia|]. split; [lia|]. split; [lia|].
    intros m fuel' Hm Hf'. destruct fuel' as [|fuel']; [lia|]. cbn [lacing_loop]. rewrite decide_False by lia. rewrite Eb. mred. rewrite decide_True by done.
    rewrite H5 by lia. do 3 f_equal. lia.
  - eexists. split; [done|]. cbn. split; [lia|]. split; [lia|]. split; [lia|]. split; [lia|]. intros m fuel' Hm Hf'. destruct fuel' as [|fuel']; [lia|]. cbn [lacing_loop].
    rewrite decide_False by lia. rewrite Eb. mred. rewrite decide_False by done. do 3 f_equal. lia.
Qed.

Lemma payload_ok data len b trailing :
  0 <= data -> 0 <= len -> data + len <= zlen d -> is_byte b -> 0 <= trailing ->
  exists r, skip_extension_payload d data len b trailing = Some r /\
    match r with
    | None => True
    | Some (data', len', h) => 0 <= h /\ data + h <= data' /\ 0 <= len' /\ data' + len' = data + len /\
        (Z.shiftr b 1 < 32 -> 3 <= Z.shiftr b 1 -> data' - data - h <= 1) /\
        (trailing < len' -> forall m t, data' - data <= m -> skip_extension_payload d data m b t = Some (Some (data', m - (data' - data), h)))
    end.
Proof.
  intros H0 Hl Hlen Hb Ht. unfold skip_extension_payload. set (id := Z.shiftr b 1). set (L := Z.land b 1).
  assert (0 <= L <= 1) as HL by (unfold L; rewrite land1; pose proof (Z.mod_pos_bound b 2); lia).
  case_match eqn:E1.
  { eexists. split; [done|]. cbn. split; [lia|]. split; [lia|]. split; [lia|]. split; [lia|]. split; [lia|]. intros _ m t Hm. apply triple_eq; lia. }
  case_match eqn:E2.
  { destruct (decide (len < L)); [by exists None|]. eexists. split; [done|]. cbn. split; [lia|]. split; [lia|]. split; [lia|]. split; [lia|]. split; [lia|]. intros _ m t Hm.
    rewrite decide_False by lia. apply triple_eq; lia. }
  assert (3 <= id -> 32 <= id) as Hid. { intros H3. apply andb_false_iff in E2 as [E2|E2]; apply bool_decide_eq_false in E2; lia. }
  destruct (decide (L = 0)) as [EL|EL].
  { destruct (decide (len < trailing)); [by exists None|]. eexists. split; [done|]. cbn. split; [lia|]. split; [lia|]. split; [lia|]. split; [lia|]. split; [lia|]. lia. }
  destruct (lacing_ok (S (Z.to_nat len)) data len 0 0 H0 Hlen) as (r & -> & Hr); [lia|]. mred. destruct r as [[[[bytes h] data'] len']|]; [|by exists None].
  destruct Hr as (H1 & -> & H3 & -> & H5). destruct (decide (len - (data' - data) - (bytes - 0) < 0)); [by exists None|]. eexists. split; [done|]. cbv beta iota. split; [lia|]. split; [lia|]. split; [lia|]. split; [lia|]. split; [lia|].
  intros _ m t Hm. rewrite H5 by lia. mred. rewrite decide_False by lia. apply triple_eq; lia.
Qed.

(** An extension between two offsets, which is skipped whatever comes after it. *)
Definition link (o o' : Z) : Prop :=
  o < o' /\ (exists b, ld8 d o = Some b /\ is_byte b /\ Z.shiftr b 1 <> 2) /\
  exists h, forall m, o' - o <= m -> skip_extension d o m = Some (Some (o', m - (o' - o), h)).

Lemma extension_ok data len :
  0 <= data -> 0 < len -> data + len <= zlen d ->
  exists b r, ld8 d data = Some b /\ is_byte b /\ skip_extension d data len = Some r /\
    match r with
    | None => True
    | Some (data', len', h) => 1 <= h /\ data + h <= data' /\ 0 <= len' /\ data' + len' = data + len /\ (Z.shiftr b 1 = 1 -> Z.land b 1 <> 0 -> data + 2 <= data') /\
        (Z.shiftr b 1 < 32 -> 3 <= Z.shiftr b 1 -> data' - data - h <= 1) /\ (0 < len' -> Z.shiftr b 1 <> 2 -> link data data')
    end.
Proof.
  intros H0 Hl Hlen. destruct (read_byte data) as (b & Eb & Hb); [lia|]. exists b. unfold skip_extension at 1. rewrite decide_False by lia. rewrite decide_False by lia. rewrite Eb. mred.
  destruct (payload_ok (data + 1) (len - 1) b 0) as (r & E & Hr); [lia|lia|lia|done|lia|]. rewrite E. mred. eexists. split; [done|]. split; [done|]. split; [done|].
  destruct r as [[[data' len'] h]|]; [|done]. mred. destruct Hr as (H1 & H2 & H3 & H4 & H5 & H6). split; [lia|]. split; [lia|]. split; [lia|]. split; [lia|].
  split; [|split; [lia|]].
  - intros Hid HL. unfold skip_extension_payload in E. rewrite Hid in E. rewrite (bool_decide_false (1 = 0)), (bool_decide_false (1 = 2)), (bool_decide_true (1 > 0)), (bool_decide_true (1 < 32)) in E by lia.
    cbn [andb orb] in E. case_decide; [done|]. injection E as <- _ _. assert (0 <= Z.land b 1) by (apply Z.land_nonneg; lia). lia.
  - intros Hpos Hid. split; [lia|]. split; [by exists b|]. exists (h + 1). intros m Hm. unfold skip_extension. rewrite decide_False by lia. rewrite decide_False by lia.
    rewrite Eb. mred. rewrite H6 by lia. mred. apply triple_eq; lia.
Qed.

(** Extensions one after the other. *)
Inductive chain : Z -> Z -> Prop :=
| chain_nil o : chain o o
| chain_cons o o' e : link o o' -> chain o' e -> chain o e.

Lemma chain_snoc o e e' : chain o e -> link e e' -> chain o e'.
Proof. induction 1 as [|o o1 e H1 _ IH]; intros H; [by eapply chain_cons; [|apply chain_nil]|]. eapply chain_cons; [exact H1|auto]. Qed.

Lemma chain_le o e : chain o e -> o <= e.
Proof. induction 1 as [|o o1 e [H1 _] _ IH]; lia. Qed.

End skip.

(** ** The iterator *)

Record iter_ok (d : list Z) (it : OpusExtensionIterator) : Prop := {
  io_size : ext_size it = zlen d;
  io_frames : 0 <= nb_frames it <= 48;
  io_curr : 0 <= repeat_data it <= curr_data it /\ curr_data it <= zlen d;
  io_trailing : 0 <= trailing_short_len it;
  io_len : -1 <= curr_len it /\ (0 < curr_len it \/ 0 < repeat_frame it -> 0 <= curr_len it -> curr_data it + curr_len it = zlen d);
  io_frame : 0 <= curr_frame it /\ (0 < curr_len it -> curr_frame it < nb_frames it);
  io_mode : 0 <= repeat_frame it <= nb_frames it;
  io_repeat : 0 < repeat_frame it -> 0 <= src_len it <= repeat_len it /\ src_data it + src_len it = repeat_data it + repeat_len it /\
    repeat_data it + repeat_len it <= curr_data it /\ chain d (repeat_data it) (repeat_data it + repeat_len it) /\
    chain d (src_data it) (repeat_data it + repeat_len it);
  io_chain : repeat_frame it = 0 -> 0 < curr_len it -> chain d (repeat_data it) (curr_data it)
}.

(** The extension that was returned. *)
Record ext_ok (d : list Z) (nb : Z) (e : opus_extension_data) : Prop := {
  eo_id : 3 <= ext_id e <= 127;
  eo_frame : 0 <= ext_frame e < nb;
  eo_data : 0 <= ext_data e /\ 0 <= ext_len e /\ ext_data e + ext_len e <= zlen d;
  eo_short : ext_id e < 32 -> ext_len e <= 1
}.

(** The rounds that are left of a repetition. *)
Definition rounds (it : OpusExtensionIterator) : Z := (nb_frames it - repeat_frame it) * (repeat_len it + 1) + src_len it.

(** What does not change. *)
Definition same_iter (it it' : OpusExtensionIterator) : Prop :=
  ext_size it' = ext_size it /\ nb_frames it' = nb_frames it /\ frame_max it' = frame_max it.

Definition answer_ok (d : list Z) (it : OpusExtensionIterator) (ans : answer) : Prop :=
  match ans with
  | (1, Some e) => ext_ok d (nb_frames it) e
  | (0, None) => True
  | (r, None) => r = OPUS_INVALID_PACKET
  | _ => False
  end.

Section iter.
Context (d : list Z) (Hd : is_bytes d).

Lemma id_range b : is_byte b -> 3 < b -> Z.shiftr b 1 <> 2 -> 3 <= Z.shiftr b 1 <= 127.
Proof. unfold is_byte. intros Hb H3. rewrite Z.shiftr_div_pow2 by lia. change (2 ^ 1) with 2. intros H2. zlia. Qed.

(** The bit that is cleared is not part of the identifier. *)
Lemma cleared b : is_byte b -> is_byte (Z.land b (-2)) /\ Z.shiftr (Z.land b (-2)) 1 = Z.shiftr b 1.
Proof.
  intros Hb. set (P := fun b => let c := Z.land b (-2) in (0 <=? c) && (c <? 256) && (Z.shiftr c 1 =? Z.shiftr b 1)).
  assert (P b = true) as H by (apply (checkZ_spec 256); [by vm_compute|exact Hb]). unfold P in H. unfold is_byte. lia.
Qed.

Lemma link_read o o' m : link d o o' -> o' - o <= m ->
  exists b h, ld8 d o = Some b /\ is_byte b /\ Z.shiftr b 1 <> 2 /\ skip_extension d o m = Some (Some (o', m - (o' - o), h)).
Proof. intros (_ & (b & Eb & Hb & H2) & h & H) Hm. exists b, h. split; [done|]. split; [done|]. split; [done|]. by apply H. Qed.

Lemma end_repeat_ok it : iter_ok d it -> 0 <= curr_len it -> iter_ok d (end_repeat it) /\ same_iter it (end_repeat it) /\ curr_len (end_repeat it) <= curr_len it.
Proof.
  intros [H1 H2 H3 H4 [H5 H5'] [H6 H6'] H7 H8 H9] Hl. unfold end_repeat. set (frame := if decide (repeat_l it = 0) then _ else _).
  assert (frame = curr_frame it \/ repeat_l it = 0 /\ frame = curr_frame it + 1) as Hfr by (unfold frame; case_decide; auto).
  destruct (bool_decide (repeat_l it = 0) && bool_decide (frame >= nb_frames it)) eqn:E.
  - split; [|split; [done|cbn; lia]]. split; cbn; try done; try lia; intros _ _; apply chain_nil.
  - apply andb_false_iff in E. rewrite !bool_decide_eq_false in E. split; [|split; [done|cbn; lia]]. split; cbn; try done; try lia; intros _ _; apply chain_nil.
Qed.

(** A round of the repetition. *)
Lemma set_src_ok it data len frame :
  iter_ok d it -> 0 < repeat_frame it -> 0 < frame <= nb_frames it -> 0 <= len <= repeat_len it -> data + len = repeat_data it + repeat_len it ->
  chain d data (repeat_data it + repeat_len it) -> iter_ok d (set_src it data len frame).
Proof.
  intros [H1 H2 H3 H4 [H5 H5'] H6 H7 H8 H9] Hr Hf Hl Hsum Hc. destruct (H8 Hr) as (_ & _ & Hend & Hch & _). split; cbn; try done; try lia.
Qed.

Lemma set_curr_ok it data len :
  iter_ok d it -> 0 < repeat_frame it -> curr_data it <= data -> 0 <= len <= curr_len it -> data + len = zlen d -> iter_ok d (set_curr it data len).
Proof. intros [H1 H2 H3 H4 [H5 H5'] H6 H7 H8 H9] Hr Hle Hl Hsum. split; cbn; try done; try lia. intros _. destruct (H8 Hr) as (? & ? & ? & ? & ?). split_and!; done || lia. Qed.

Lemma fail_ok it : iter_ok d it -> iter_ok d (set_curr it (curr_data it) (-1)).
Proof. intros [H1 H2 H3 H4 [H5 H5'] H6 H7 H8 H9]. split; cbn; try done; try lia. Qed.

Lemma repeat_loop_ok fuel it :
  iter_ok d it -> 0 < repeat_frame it -> 0 <= curr_len it -> rounds it < Z.of_nat fuel -> 0 <= frame_max it ->
  exists it' ans, repeat_loop fuel d it = Some (it', ans) /\ iter_ok d it' /\ same_iter it it' /\ answer_ok d it ans /\ curr_len it' <= curr_len it /\
    (ans.1 = 0 -> repeat_frame it' = 0 /\ 0 <= curr_len it') /\
    (ans.1 = 1 -> 0 < repeat_frame it' /\ 0 <= curr_len it' /\ repeat_len it' = repeat_len it /\ rounds it' < rounds it).
Proof.
  revert it. induction fuel as [|fuel IH]; intros it Hit Hr Hl Hfuel Hmax.
  { exfalso. destruct Hit as [_ H2 _ _ _ _ H7 H8 _]. destruct (H8 Hr) as (? & _). unfold rounds in Hfuel. nia. }
  cbn [repeat_loop]. pose proof (io_repeat d it Hit Hr) as (Hs & Hsum & Hend & Hch & Hsrc). destruct (decide (repeat_frame it < nb_frames it)) as [Hlt|Hge].
  2: { destruct (end_repeat_ok it Hit Hl) as (H1 & H2 & H3). eexists _, _. split; [done|]. split; [done|]. split; [done|]. split; [done|]. split; [done|]. split; [|done].
       intros _. split; [done|]. unfold end_repeat. cbn. case_match; lia. }
  destruct (decide (src_len it > 0)) as [Hpos|Hzero].
  2: { destruct (IH (set_src it (repeat_data it) (repeat_len it) (repeat_frame it + 1))) as (it' & ans & -> & H1 & H2 & H3 & H4 & H5 & H6); try done.
       - apply set_src_ok; try done; lia.
       - cbn. lia.
       - unfold rounds in *. cbn. nia.
       - exists it', ans. split; [done|]. split; [done|]. split; [done|]. split; [done|]. split; [done|]. split; [done|]. intros E. destruct (H6 E) as (K1 & K2 & K3 & K4).
         split; [done|]. split; [done|]. split; [done|]. unfold rounds in *. cbn in K4. nia. }
  inversion Hsrc as [o E1 E2|o o' e Hlink Hrest]; subst; [lia|]. pose proof (chain_le _ _ _ Hrest) as Hle. destruct (link_read _ _ (src_len it) Hlink) as (b & h & Eb & Hb & H2b & Esk); [lia|].
  assert (src_data it < o') as Hlt' by (by destruct Hlink). rewrite Eb. mred. rewrite Esk. mred. set (it1 := set_src it o' (src_len it - (o' - src_data it)) (repeat_frame it)).
  assert (iter_ok d it1) as Hit1 by (apply set_src_ok; try done; lia). assert (rounds it1 < rounds it) as Hless by (unfold rounds; cbn; lia).
  assert (forall it2, iter_ok d it2 -> same_iter it it2 -> 0 < repeat_frame it2 -> 0 <= curr_len it2 <= curr_len it -> repeat_len it2 = repeat_len it -> rounds it2 = rounds it1 ->
    exists it' ans, repeat_loop fuel d it2 = Some (it', ans) /\ iter_ok d it' /\ same_iter it it' /\ answer_ok d it ans /\ curr_len it' <= curr_len it /\
    (ans.1 = 0 -> repeat_frame it' = 0 /\ 0 <= curr_len it') /\
    (ans.1 = 1 -> 0 < repeat_frame it' /\ 0 <= curr_len it' /\ repeat_len it' = repeat_len it /\ rounds it' < rounds it)) as Hgo.
  { intros it2 K1 (K2 & K2' & K2'') K3 K4 K5 K6. destruct (IH it2 K1 K3) as (it' & ans & -> & H1 & (H2 & H2' & H2'') & H3 & H4 & H5 & H6); [lia|lia|by rewrite K2''|].
    exists it', ans. split; [done|]. split; [done|]. split; [split; [congruence|split; congruence]|]. split; [unfold answer_ok in *; by rewrite K2' in H3|].
    split; [lia|]. split; [done|]. intros E. destruct (H6 E) as (P1 & P2 & P3 & P4). split; [done|]. split; [done|]. split; [congruence|lia]. }
  destruct (decide (b <= 3)) as [Hb3|Hb3]; [apply Hgo; try done; cbn; lia|].
  set (b' := if _ && _ then _ else b). destruct (cleared b Hb) as [Hc1 Hc2]. assert (is_byte b' /\ Z.shiftr b' 1 = Z.shiftr b 1) as [Hb' Eid] by (unfold b'; case_match; by split).
  destruct (io_len d it Hit) as [_ Hcl]. destruct (io_curr d it Hit) as [Hcd _].
  change (skip_extension_payload d (curr_data it1) (curr_len it1) b' (trailing_short_len it1)) with (skip_extension_payload d (curr_data it) (curr_len it) b' (trailing_short_len it)).
  destruct (payload_ok d Hd (curr_data it) (curr_len it) b' (trailing_short_len it)) as (r & -> & Hp); [lia|done|lia|done|apply (io_trailing d it Hit)|]. mred.
  destruct r as [[[data' len'] h']|].
  2: { eexists _, _. split; [done|]. split; [by apply fail_ok|]. split; [done|]. split; [done|]. split; [cbn; cbn in Hl; lia|]. by split. }
  destruct Hp as (P1 & P2 & P3 & P4 & P5 & _). set (it2 := set_curr it1 data' len'). assert (iter_ok d it2) as Hit2 by (apply set_curr_ok; unfold it1; try done; cbn; lia).
  unfold celt_assert. rewrite bool_decide_true by (cbn; rewrite (io_size d it Hit); lia). mred. destruct (decide (repeat_frame it2 >= frame_max it2)); [apply Hgo; try done; cbn; lia|].
  eexists _, _. split; [done|]. split; [done|]. split; [done|]. cbn in *. split; [|split; [lia|split; [done|intros _; split; [done|split; [lia|split; [done|exact Hless]]]]]].
  rewrite Eid in *. pose proof (id_range b Hb ltac:(lia) H2b) as Hid. split; cbn; lia.
Qed.

(** A bound on the calls that are left. *)
Definition weight (it : OpusExtensionIterator) : Z :=
  curr_len it * (49 * (zlen d + 1) + 1) + (if decide (0 < repeat_frame it) then rounds it else 0).

Lemma rounds_range it : iter_ok d it -> 0 < repeat_frame it -> 0 <= rounds it <= 49 * (zlen d + 1).
Proof.
  intros [_ H2 [H3 H3'] _ _ _ H7 H8 _] Hr. destruct (H8 Hr) as (Hs & Hsum & Hend & _). unfold rounds. nia.
Qed.

(** An extension is past: the rest is less. *)
Lemma weight_step it it' : iter_ok d it' -> 0 <= curr_len it' < curr_len it -> (0 < repeat_frame it -> 0 <= rounds it) -> weight it' < weight it.
Proof.
  intros Hit Hl Hr. unfold weight. destruct (decide (0 < repeat_frame it')) as [H|H].
  - pose proof (rounds_range it' Hit H). destruct (decide (0 < repeat_frame it)) as [H'|H']; [specialize (Hr H')|]; nia.
  - destruct (decide (0 < repeat_frame it)) as [H'|H']; [specialize (Hr H')|]; nia.
Qed.

Lemma same_iter_trans a b c : same_iter a b -> same_iter b c -> same_iter a c.
Proof. unfold same_iter. intuition congruence. Qed.

Lemma answer_ok_same it it' ans : nb_frames it' = nb_frames it -> answer_ok d it' ans -> answer_ok d it ans.
Proof. unfold answer_ok. by intros ->. Qed.

(** What a call of the iterator does. *)
Definition next_spec (it : OpusExtensionIterator) (r : option (OpusExtensionIterator * answer)) : Prop :=
  exists it' ans, r = Some (it', ans) /\ iter_ok d it' /\ same_iter it it' /\ answer_ok d it ans /\ (ans.1 = 1 -> 0 <= curr_len it' /\ weight it' < weight it).

Lemma next_spec_from it it1 r : same_iter it it1 -> weight it1 <= weight it -> next_spec it1 r -> next_spec it r.
Proof.
  intros Hs Hw (it' & ans & -> & H1 & H2 & H3 & H4). exists it', ans. split; [done|]. split; [done|]. split; [by eapply same_iter_trans|].
  split; [by eapply answer_ok_same; [apply Hs|]|]. intros E. destruct (H4 E). split; [done|lia].
Qed.

Lemma next_loop_ok fuel it :
  iter_ok d it -> repeat_frame it = 0 -> 0 <= curr_len it < Z.of_nat fuel -> 0 <= frame_max it -> next_spec it (next_loop fuel d it).
Proof.
  revert it. induction fuel as [|fuel IH]; intros it Hit Hr Hl Hmax; [lia|]. cbn [next_loop]. destruct (decide (curr_len it > 0)) as [Hpos|Hz].
  2: { exists it, (0, None). by split_and!. }
  destruct (io_curr d it Hit) as [Hc0 Hc1]. destruct (io_len d it Hit) as [_ Hsum]. specialize (Hsum ltac:(lia) ltac:(lia)).
  destruct (io_frame d it Hit) as [Hf0 Hf1]. specialize (Hf1 ltac:(lia)). pose proof (io_chain d it Hit Hr ltac:(lia)) as Hch.
  destruct (extension_ok d Hd (curr_data it) (curr_len it)) as (b & r & Eb & Hb & Esk & Hx); [lia|lia|lia|]. rewrite Eb. mred. rewrite Esk. mred.
  destruct r as [[[data' len'] h]|].
  2: { eexists _, _. split; [done|]. split; [by apply fail_ok|]. by split_and!. }
  destruct Hx as (X1 & X2 & X3 & X4 & X5 & X6 & X7). unfold celt_assert. rewrite bool_decide_true by (cbn; rewrite (io_size d it Hit); lia). mred.
  cbn [curr_data curr_len set_curr]. pose proof Hit as [I1 I2 I3 I4 [I5 I5'] I6 I7 I8 I9].
  assert (forall it1, iter_ok d it1 -> repeat_frame it1 = 0 -> same_iter it it1 -> 0 <= curr_len it1 <= len' -> next_spec it (next_loop fuel d it1)) as Hgo.
  { intros it1 K1 K2 K3 K4. apply (next_spec_from it it1); [done| |apply IH; try done; [lia|destruct K3 as (_ & _ & ->); done]].
    assert (weight it1 < weight it); [|lia]. apply weight_step; [done|lia|lia]. }
  destruct (decide (Z.shiftr b 1 = 1)) as [E1|E1].
  { assert (exists diff, (if decide (Z.land b 1 = 0) then Some 1 else ld8 d (curr_data it + 1)) = Some diff /\ 0 <= diff) as (diff & -> & Hdiff).
    { case_decide as EL; [by exists 1|]. specialize (X5 E1 EL). destruct (read_byte d Hd (curr_data it + 1)) as (c & Ec & Hc); [lia|]. exists c. unfold is_byte in Hc. split; [done|lia]. }
    mred. destruct (decide (diff = 0)).
    { apply Hgo; try done; cbn; try lia. split; cbn; try done; try lia. intros _ Hp. eapply chain_snoc; [exact Hch|]. apply X7; lia. }
    cbn [curr_frame nb_frames frame_max set_frame set_curr]. destruct (decide (curr_frame it + diff >= nb_frames it)).
    { eexists _, _. split; [done|]. split; [split; cbn; try done; lia|]. by split_and!. }
    destruct (decide (curr_frame it + diff >= frame_max it)); apply Hgo; try done; cbn; try lia; split; cbn; try done; try lia; intros _ _; apply chain_nil. }
  destruct (decide (Z.shiftr b 1 = 2)) as [E2|E2].
  { set (it1 := mk_iter _ _ _ _ _ _ _ _ _ _ _ _ _ _). assert (iter_ok d it1) as Hit1.
    { split; cbn; try done; try lia. intros _. split; [lia|]. split; [lia|]. split; [lia|]. by replace (repeat_data it + (curr_data it - repeat_data it)) with (curr_data it) by lia. }
    assert (rounds it1 <= 49 * (zlen d + 1) /\ 0 <= rounds it1) as Hrounds by (split; apply rounds_range; try done; cbn; lia).
    unfold opus_extension_iterator_next_repeat, celt_assert. rewrite bool_decide_true by (cbn; lia). mred.
    destruct (repeat_loop_ok (repeat_fuel it1) it1 Hit1) as (it2 & [ret ext] & -> & R1 & R2 & R3 & R4 & R5 & R6); [cbn; lia|done|unfold repeat_fuel; fold (rounds it1); lia|done|].
    mred. cbn [fst] in *. case_decide as Er.
    - eexists _, _. split; [done|]. split; [done|]. split; [done|]. split; [by apply (answer_ok_same it it1)|]. intros E. destruct (R6 E) as (Q1 & Q2 & Q3 & Q4). split; [done|].
      apply weight_step; [done|cbn in R4; lia|lia].
    - destruct R5 as [Q1 Q2]; [lia|]. by apply Hgo. }
  destruct (decide (Z.shiftr b 1 > 2)) as [E3|E3].
  { assert (Z.shiftr b 1 <= 127) as Hid by (rewrite Z.shiftr_div_pow2 by lia; unfold is_byte in Hb; change (2 ^ 1) with 2; zlia).
    set (it1 := if decide (Z.shiftr b 1 >= 32) then _ else _). assert (0 <= Z.land b 1) as HL by (apply Z.land_nonneg; lia).
    assert (iter_ok d it1 /\ same_iter it it1 /\ curr_len it1 = len' /\ curr_data it1 = data' /\ curr_frame it1 = curr_frame it) as (K1 & K2 & K3 & K4 & K5).
    { unfold it1. case_decide; (split; [|done]); split; cbn; try done; try lia; intros _ Hp; (eapply chain_snoc; [exact Hch|]); apply X7; lia. }
    eexists it1, _. split; [done|]. split; [done|]. split; [done|]. rewrite K4, K5. split; [split; cbn; lia|]. intros _. split; [lia|]. apply weight_step; [done|lia|lia]. }
  apply Hgo; try done; cbn; try lia. split; cbn; try done; try lia. intros _ Hp. eapply chain_snoc; [exact Hch|]. by apply X7.
Qed.

End iter.

(** * The functions that walk through all extensions

    On any bytes the extensions of a padding are one list: counting it, counting it frame by
    frame, looking for an identifier and extracting it in the order of the bytes or of the
    frames all end, and agree on it. *)

(** The extensions that a walk returns, and the result that ends it. *)
Inductive walks (d : list Z) : OpusExtensionIterator -> list opus_extension_data -> Z -> Prop :=
| walks_end it it' ret : opus_extension_iterator_next d it = Some (it', (ret, None)) -> ret <= 0 -> walks d it [] ret
| walks_step it it' e es ret :
    opus_extension_iterator_next d it = Some (it', (1, Some e)) -> walks d it' es ret -> walks d it (e :: es) ret.

(** The extensions of a frame, in their order. *)
Definition by_frame (f : nat) (es : list opus_extension_data) : list opus_extension_data :=
  filter (fun e => ext_frame e = Z.of_nat f) es.
Definition in_frame_order (nb : nat) (es : list opus_extension_data) : list opus_extension_data :=
  concat ((fun f => by_frame f es) <$> seq 0 nb).
Definition frame_counts (nb : nat) (es : list opus_extension_data) : list Z :=
  (fun f => zlen (by_frame f es)) <$> seq 0 nb.

Section walk.
Context (d : list Z) (Hd : is_bytes d).

Lemma scaled_le x y : x <= y -> x * (49 * (zlen d + 1) + 1) <= y * (49 * (zlen d + 1) + 1).
Proof. intros H. apply Z.mul_le_mono_nonneg_r; [lia|done]. Qed.

Lemma next_ok it : iter_ok d it -> 0 <= frame_max it -> next_spec d it (opus_extension_iterator_next d it).
Proof.
  intros Hit Hmax. unfold opus_extension_iterator_next. destruct (decide (curr_len it < 0)).
  { exists it, (OPUS_INVALID_PACKET, None). by split_and!. }
  assert (forall it1, iter_ok d it1 -> repeat_frame it1 = 0 -> 0 <= curr_len it1 -> same_iter it it1 -> weight d it1 <= weight d it ->
    next_spec d it (if decide (curr_frame it1 >= frame_max it1) then Some (it1, (0, None)) else next_loop (S (Z.to_nat (curr_len it1))) d it1)) as Hgo.
  { intros it1 H1 H2 H3 H4 H5. apply (next_spec_from d it it1); [done..|]. destruct (decide (curr_frame it1 >= frame_max it1)).
    - exists it1, (0, None). by split_and!.
    - apply next_loop_ok; try done; [lia|]. by destruct H4 as (_ & _ & ->). }
  destruct (decide (repeat_frame it > 0)) as [Hr|Hr].
  - unfold opus_extension_iterator_next_repeat, celt_assert. rewrite bool_decide_true by lia. mred.
    destruct (repeat_loop_ok d Hd (repeat_fuel it) it Hit) as (it1 & [ret ext] & -> & R1 & R2 & R3 & R4 & R5 & R6); [lia|lia|unfold repeat_fuel; fold (rounds it); pose proof (rounds_range d it Hit ltac:(lia)); lia|lia|].
    mred. cbn [fst] in *. destruct (decide (ret <> 0)) as [Hret|Hret].
    + exists it1, (ret, ext). split_and!; try done. cbn [fst]. intros ->. destruct (R6 eq_refl) as (Q1 & Q2 & Q3 & Q4). split; [done|].
      unfold weight. rewrite !decide_True by lia.
      pose proof (scaled_le _ _ R4). lia.
    + destruct R5 as [Q1 Q2]; [lia|]. apply Hgo; try done. unfold weight. rewrite (decide_False (P := 0 < repeat_frame it1)) by lia. rewrite decide_True by lia.
      pose proof (rounds_range d it Hit ltac:(lia)). pose proof (scaled_le _ _ R4). lia.
  - mred. apply Hgo; try done; try lia. destruct (io_mode d it Hit). lia.
Qed.

Lemma weight_nonneg it : iter_ok d it -> 0 <= curr_len it -> 0 <= weight d it.
Proof. intros Hit Hl. unfold weight. case_decide as H; [pose proof (rounds_range d it Hit H)|]; nia. Qed.

(** Every walk ends. *)
Lemma walks_exists n it :
  iter_ok d it -> 0 <= frame_max it -> weight d it <= Z.of_nat n ->
  exists es ret, walks d it es ret /\ Forall (ext_ok d (nb_frames it)) es /\ (length es <= n)%nat /\ (ret = 0 \/ ret = OPUS_INVALID_PACKET).
Proof.
  revert it. induction n as [|n IH]; intros it Hit Hmax Hw; destruct (next_ok it Hit Hmax) as (it' & [ret ext] & E & H1 & (_ & Hnb & Hmx) & H3 & H4); cbn [fst] in H4.
  all: assert (ret = 1 \/ ext = None /\ (ret = 0 \/ ret = OPUS_INVALID_PACKET)) as [->|(-> & Hret)] by (unfold answer_ok in H3; repeat case_match; intuition (subst; auto)).
  2, 4: exists [], ret; split; [eapply walks_end; [exact E|]; unfold OPUS_INVALID_PACKET in Hret; lia|]; split; [constructor|]; by split; [cbn; lia|].
  - destruct (H4 eq_refl) as [H5 H6]. pose proof (weight_nonneg it' H1 H5). lia.
  - destruct (H4 eq_refl) as [H5 H6]. destruct ext as [e|]; [|done]. destruct (IH it') as (es & ret & W & F & L & R); [done|by rewrite Hmx|lia|].
    exists (e :: es), ret. split; [by eapply walks_step|]. split; [constructor; [done|by rewrite Hnb in F]|]. split; [cbn; lia|done].
Qed.

(** The iterator of a padding. *)
Definition first (nb : Z) : OpusExtensionIterator := mk_iter 0 0 None 0 (zlen d) (zlen d) 0 0 0 nb nb 0 0 0.

Lemma first_walks nb :
  0 <= nb <= 48 ->
  exists es ret, walks d (first nb) es ret /\ Forall (ext_ok d nb) es /\ (length es < walk_fuel d)%nat /\ (ret = 0 \/ ret = OPUS_INVALID_PACKET).
Proof.
  intros Hnb. destruct (decide (nb = 0)) as [->|Hne].
  - exists [], 0. split; [|split; [constructor|split; [unfold walk_fuel; cbn; lia|by left]]].
    apply (walks_end d _ (first 0)); [|lia]. unfold opus_extension_iterator_next. cbn. rewrite decide_False by lia. done.
  - assert (iter_ok d (first nb)) as Hit by (split; cbn; try done; try lia; intros _ _; apply chain_nil).
    destruct (walks_exists (Z.to_nat (weight d (first nb))) (first nb) Hit) as (es & ret & W & F & L & R); [cbn; lia|pose proof (weight_nonneg _ Hit); cbn in *; lia|].
    exists es, ret. split; [done|]. split; [done|]. split; [|done]. unfold walk_fuel. unfold weight in L. cbn [curr_len repeat_frame first] in L. rewrite decide_False in L by lia. lia.
Qed.

(** ** Counting and extracting in the order of the bytes *)

Lemma count_walks fuel it es ret c : walks d it es ret -> (length es < fuel)%nat -> count_loop fuel d it c = Some (c + zlen es).
Proof.
  intros W. revert fuel c. induction W as [it it' ret E Hret|it it' e es ret E _ IH]; intros [|fuel] c Hf; cbn in Hf; try lia; cbn [count_loop]; rewrite E; mred.
  - rewrite decide_False by lia. f_equal. cbn. lia.
  - rewrite decide_True by lia. rewrite IH by lia. f_equal. autorewrite with lens. lia.
Qed.

Lemma parse_walks fuel it es ret cap acc :
  walks d it es ret -> (length es < fuel)%nat -> zlen acc <= cap ->
  parse_loop fuel d it cap acc =
    Some (if decide (zlen acc + zlen es <= cap) then (ret, acc ++ es) else (OPUS_BUFFER_TOO_SMALL, acc ++ take (Z.to_nat (cap - zlen acc)) es)).
Proof.
  intros W. revert fuel acc. induction W as [it it' ret E Hret|it it' e es ret E _ IH]; intros [|fuel] acc Hf Hc; cbn in Hf; try lia; cbn [parse_loop]; rewrite E; mred.
  - rewrite decide_True by lia. rewrite decide_True by (cbn; lia). by rewrite app_nil_r.
  - rewrite decide_False by lia. case_decide as Efull.
    + rewrite decide_False by (autorewrite with lens; lia). replace (cap - zlen acc) with 0 by lia. by rewrite app_nil_r.
    + mred. assert (zlen (acc ++ [e]) = zlen acc + 1) as El by (by autorewrite with lens). assert (zlen (e :: es) = zlen es + 1) as El' by (autorewrite with lens; lia).
      rewrite IH, El, El' by lia. f_equal. repeat case_decide; try lia; rewrite <- app_assoc; [done|]. f_equal. f_equal.
      replace (Z.to_nat (cap - zlen acc)) with (S (Z.to_nat (cap - (zlen acc + 1)))) by lia. done.
Qed.

Lemma find_walks fuel it es ret id :
  walks d it es ret -> (length es < fuel)%nat ->
  exists it', find_loop fuel d it id = Some (it', match list_find (fun e => ext_id e = id) es with Some (_, e) => (1, Some e) | None => (ret, None) end).
Proof.
  intros W. revert fuel. induction W as [it it' ret E Hret|it it' e es ret E _ IH]; intros [|fuel] Hf; cbn in Hf; try lia; cbn [find_loop]; rewrite E; mred.
  - rewrite decide_True by lia. by exists it'.
  - rewrite decide_False by lia. mred. cbn [list_find]. case_decide; [by exists it'|]. destruct (IH fuel) as [it1 ->]; [lia|]. exists it1. by destruct (list_find _ es) as [[]|].
Qed.

End walk.

(** ** Frame order *)

Lemma by_frame_app f p q : by_frame f (p ++ q) = by_frame f p ++ by_frame f q.
Proof. apply list.filter_app. Qed.

Lemma frame_order_S n es : in_frame_order (S n) es = in_frame_order n es ++ by_frame n es.
Proof. unfold in_frame_order. by rewrite seq_S, fmap_app, concat_app; cbn; rewrite app_nil_r. Qed.

(** The extensions of a frame stand before those of the later ones. *)
Lemma frame_order_before f g es : (f < g)%nat -> (length (in_frame_order f es) + length (by_frame f es) <= length (in_frame_order g es))%nat.
Proof. induction 1 as [|g _ IH]; rewrite frame_order_S, length_app; lia. Qed.

Lemma by_frame_prefix f p e q : ext_frame e = Z.of_nat f -> (length (by_frame f p) < length (by_frame f (p ++ e :: q)))%nat.
Proof. intros E. rewrite by_frame_app, length_app. unfold by_frame. rewrite (list.filter_cons_True _ e) by done. cbn. lia. Qed.

Lemma frame_order_perm n es : Forall (fun e => 0 <= ext_frame e) es -> in_frame_order n es ≡ₚ filter (fun e => ext_frame e < Z.of_nat n) es.
Proof.
  intros Hes. induction n as [|n IH].
  - induction Hes as [|e es He _ IH']; [done|]. rewrite list.filter_cons_False by lia. done.
  - rewrite frame_order_S, IH. clear IH. induction Hes as [|e es He _ IH']; [done|]. unfold by_frame in *. rewrite !list.filter_cons. destruct (decide (ext_frame e = Z.of_nat n)).
    + rewrite decide_False, decide_True by lia. rewrite <- Permutation_middle. by rewrite IH'.
    + destruct (decide (ext_frame e < Z.of_nat n)); [rewrite decide_True by lia; cbn; by rewrite IH'|rewrite decide_False by lia; done].
Qed.

Lemma frame_order_all nb es : Forall (fun e => 0 <= ext_frame e < Z.of_nat nb) es -> in_frame_order nb es ≡ₚ es.
Proof.
  intros Hes. rewrite frame_order_perm by (eapply Forall_impl; [|exact Hes]; cbn; lia). induction Hes as [|e es He _ IH]; [done|]. rewrite list.filter_cons_True by lia. by rewrite IH.
Qed.

(** One more in a table of a number per frame. *)
Lemma increment_table (k : nat -> Z) n f :
  (f < n)%nat -> increment (k <$> seq 0 n) (Z.of_nat f) = Some ((fun g => if decide (g = f) then k g + 1 else k g) <$> seq 0 n).
Proof.
  intros Hf. unfold increment. rewrite decide_False by lia. rewrite Nat2Z.id. rewrite list_lookup_fmap, lookup_seq_lt by lia. mred. f_equal. apply list_eq. intros i.
  destruct (decide (i < n)%nat) as [Hi|Hi].
  - rewrite (list_lookup_fmap _ (seq 0 n) i), lookup_seq_lt by done. cbn. destruct (decide (i = f)) as [->|Hne].
    + rewrite list_lookup_insert_eq by (by rewrite length_fmap, length_seq). done.
    + rewrite list_lookup_insert_ne by done. by rewrite list_lookup_fmap, lookup_seq_lt.
  - rewrite !lookup_ge_None_2; [done|..]; rewrite ?length_insert, length_fmap, length_seq; lia.
Qed.

Lemma zlen_by_frame f e es : zlen (by_frame f (e :: es)) = (if decide (ext_frame e = Z.of_nat f) then 1 else 0) + zlen (by_frame f es).
Proof. unfold by_frame. rewrite list.filter_cons. case_decide; cbn [length]; lia. Qed.

Lemma const_table {A} (x : A) j n : (fun _ : nat => x) <$> seq j n = replicate n x.
Proof. revert j. induction n as [|n IH]; intros j; [done|]. cbn. f_equal. apply IH. Qed.

Lemma fmap_same {A} (k k' : nat -> A) n : (forall f, (f < n)%nat -> k f = k' f) -> k <$> seq 0 n = k' <$> seq 0 n.
Proof. intros H. apply list_fmap_ext. intros i f Hi. apply H. apply lookup_seq in Hi. lia. Qed.

Lemma cumulate_table (k : nat -> Z) (c : nat -> Z) j n :
  (forall f, c (S f) = k f + c f) -> cumulate (k <$> seq j n) (c j) = c <$> seq j (S n).
Proof. intros H. revert j. induction n as [|n IH]; intros j; [done|]. cbn. f_equal. rewrite <- H. exact (IH (S j)). Qed.

Lemma count_ext_walks d fuel it es ret c k nb :
  walks d it es ret -> (length es < fuel)%nat -> Forall (fun e => 0 <= ext_frame e < Z.of_nat nb) es ->
  count_ext_loop fuel d it c (k <$> seq 0 nb) = Some (c + zlen es, (fun f => k f + zlen (by_frame f es)) <$> seq 0 nb).
Proof.
  intros W. revert fuel c k. induction W as [it it' ret E Hret|it it' e es ret E _ IH]; intros [|fuel] c k Hf Hes; cbn in Hf; try lia; cbn [count_ext_loop]; rewrite E; mred.
  - rewrite decide_False by lia. f_equal. f_equal; [cbn; lia|]. apply fmap_same. intros f _. cbn. lia.
  - apply list.Forall_cons in Hes as [He Hes]. rewrite decide_True by lia. replace (ext_frame e) with (Z.of_nat (Z.to_nat (ext_frame e))) by lia.
    rewrite increment_table by lia. mred. rewrite IH by (done || lia). f_equal. f_equal; [cbn [length]; lia|]. apply fmap_same. intros f _. rewrite zlen_by_frame. repeat case_decide; lia.
Qed.

(** *** Extracting in the order of the frames *)

Section order.
Context (d : list Z) (nb : nat) (es : list opus_extension_data).
Context (Hes : Forall (fun e => 0 <= ext_frame e < Z.of_nat nb) es).

Definition start (f : nat) : Z := zlen (in_frame_order f es).

Lemma start_S f : start (S f) = start f + zlen (by_frame f es).
Proof. unfold start. rewrite frame_order_S, length_app. lia. Qed.

Lemma start_nb : start nb = zlen es.
Proof. unfold start. by rewrite (frame_order_all nb es Hes). Qed.

(** The array after the extensions [p] were stored in [a0]. *)
Record stored (a0 p a : list opus_extension_data) : Prop := {
  st_length : length a = length a0;
  st_rest : drop (length es) a = drop (length es) a0;
  st_at f i e : (f < nb)%nat -> by_frame f p !! i = Some e -> a !! (length (in_frame_order f es) + i)%nat = Some e;
  st_full f : (f < nb)%nat -> by_frame f p = [] \/ start f + zlen (by_frame f p) <= zlen a0
}.

Lemma stored_nil a0 : stored a0 [] a0.
Proof. split; [done|done|intros; by cbn in *|by left]. Qed.

(** One more is stored. *)
Lemma stored_step a0 p e q a f :
  es = p ++ e :: q -> ext_frame e = Z.of_nat f -> (f < nb)%nat -> start f + zlen (by_frame f p) < zlen a0 -> stored a0 p a ->
  stored a0 (p ++ [e]) (<[Z.to_nat (start f + zlen (by_frame f p)) := e]> a).
Proof.
  intros E Ef Hf Hroom [H1 H2 H3 H4]. unfold start in *. replace (Z.to_nat _) with (length (in_frame_order f es) + length (by_frame f p))%nat by lia.
  assert (length (by_frame f p) < length (by_frame f es))%nat as Hlt by (subst es; by apply by_frame_prefix).
  assert (forall g, by_frame g (p ++ [e]) = by_frame g p ++ if decide (f = g) then [e] else []) as Hby.
  { intros g. rewrite by_frame_app. f_equal. unfold by_frame. rewrite list.filter_cons. cbn. repeat case_decide; (done || lia). }
  assert (forall g, length (by_frame g p) <= length (by_frame g es))%nat as Hle by (intros g; rewrite E, by_frame_app, length_app; lia).
  pose proof (frame_order_before f nb es Hf) as Hbound. fold (start nb) in Hbound. pose proof start_nb as Hnb. unfold start in Hnb.
  split; [by rewrite length_insert|rewrite drop_insert_lt by lia; done|..].
  - intros g i e' Hg. rewrite Hby. intros Hi. destruct (decide (f = g)) as [<-|Hne].
    + destruct (decide (i = length (by_frame f p))) as [->|Hi'].
      * rewrite list_lookup_middle in Hi by done. injection Hi as <-. apply list_lookup_insert_eq. lia.
      * rewrite list_lookup_insert_ne by lia. apply H3; [done|]. rewrite lookup_app_l in Hi; [done|]. apply lookup_lt_Some in Hi. rewrite length_app in Hi. cbn in Hi. lia.
    + rewrite app_nil_r in Hi. pose proof (lookup_lt_Some _ _ _ Hi) as Hi'. specialize (Hle g). rewrite list_lookup_insert_ne; [by apply H3|].
      destruct (decide (f < g)%nat); [pose proof (frame_order_before f g es)|pose proof (frame_order_before g f es)]; lia.
  - intros g Hg. rewrite Hby, length_app. destruct (decide (f = g)) as [<-|Hne]; [right; unfold start; cbn [length]; lia|]. rewrite app_nil_r, Nat.add_0_r. by apply H4.
Qed.

(** The whole array. *)
Lemma stored_order a0 a : zlen es <= zlen a0 -> stored a0 es a -> a = in_frame_order nb es ++ drop (length es) a0.
Proof.
  intros Hl [H1 H2 H3 _]. rewrite <- H2, <- (take_drop (length es) a) at 1. f_equal. pose proof start_nb as Hnb. unfold start in Hnb.
  assert (forall n, (n <= nb)%nat -> take (length (in_frame_order n es)) a = in_frame_order n es) as Hn.
  { intros n. induction n as [|n IH]; intros Hn; [done|]. rewrite frame_order_S, length_app. specialize (IH ltac:(lia)).
    pose proof (frame_order_before n nb es ltac:(lia)) as Hle. rewrite <- IH at 2. apply list_eq. intros i.
    assert (length (take (length (in_frame_order n es)) a) = length (in_frame_order n es)) as Hlen by (rewrite length_take; lia).
    destruct (decide (i < length (in_frame_order n es))%nat); [|destruct (decide (i < length (in_frame_order n es) + length (by_frame n es))%nat)].
    - rewrite lookup_app_l by lia. by rewrite !lookup_take_lt by lia.
    - rewrite lookup_app_r by lia. rewrite lookup_take_lt by lia. rewrite Hlen. destruct (lookup_lt_is_Some_2 (by_frame n es) (i - length (in_frame_order n es))) as [e He]; [lia|].
      rewrite He. rewrite <- (H3 n _ e ltac:(lia) He). f_equal. lia.
    - rewrite lookup_take_ge by lia. symmetry. apply lookup_ge_None_2. rewrite length_app. lia. }
  specialize (Hn nb ltac:(lia)). by replace (length es) with (length (in_frame_order nb es)) by lia.
Qed.

Lemma full_array a0 a : stored a0 es a -> zlen es <= zlen a0.
Proof.
  intros [_ _ _ H4]. rewrite <- start_nb. assert (forall n, (n <= nb)%nat -> start n <= zlen a0) as H; [|by apply H].
  intros n. induction n as [|n IH]; intros Hn; [unfold start; cbn; lia|]. rewrite start_S. specialize (IH ltac:(lia)). destruct (H4 n ltac:(lia)) as [->|]; cbn [length]; lia.
Qed.

Lemma parse_ext_walks fuel it p rest ret a0 a :
  walks d it rest ret -> (length rest < fuel)%nat -> es = p ++ rest -> stored a0 p a ->
  exists a', parse_ext_loop fuel d it (zlen p) ((fun f => start f + zlen (by_frame f p)) <$> seq 0 (S nb)) a =
    Some (if decide (zlen es <= zlen a0) then (ret, zlen es, in_frame_order nb es ++ drop (length es) a0) else (OPUS_BUFFER_TOO_SMALL, zlen a0, a')).
Proof.
  intros W. revert fuel p a. induction W as [it it' ret E Hret|it it' e rest ret E _ IH]; intros [|fuel] p a Hf Eq Hst; cbn in Hf; try lia; cbn [parse_ext_loop]; rewrite E; mred.
  - exists a. rewrite app_nil_r in Eq. subst p. rewrite decide_True by lia. rewrite decide_True by exact (full_array a0 a Hst). by rewrite <- (stored_order a0 a) by (done || exact (full_array a0 a Hst)).
  - rewrite decide_False by lia. mred. assert (0 <= ext_frame e < Z.of_nat nb) as He by (rewrite Forall_forall in Hes; apply Hes; rewrite Eq; apply in_elt).
    rewrite decide_False by lia. destruct (Z_of_nat_complete (ext_frame e)) as [f Ef]; [lia|]. rewrite Ef, Nat2Z.id. rewrite list_lookup_fmap, lookup_seq_lt by lia. mred.
    rewrite increment_table by lia. mred. pose proof (st_length _ _ _ Hst) as Hlen. rewrite Hlen. cbn [Nat.add].
    pose proof (by_frame_prefix f p e rest Ef) as Hlt. rewrite <- Eq in Hlt. pose proof (start_S f) as HS.
    assert (forall g, start g <= zlen es) as Hstart.
    { intros g. unfold start. rewrite frame_order_perm by (eapply Forall_impl; [|exact Hes]; cbn; lia). apply inj_le, list.length_filter. }
    pose proof (Hstart (S f)). destruct (decide (start f + zlen (by_frame f p) >= zlen a0)).
    { exists a. by rewrite decide_False by lia. }
    replace (Z.to_nat (Z.of_nat f + 1)) with (S f) by lia. rewrite list_lookup_fmap, lookup_seq_lt by lia. mred. cbn [Nat.add]. rewrite (decide_False (P := S f = f)) by lia.
    unfold celt_assert. rewrite bool_decide_true by lia. mred. assert (0 <= start f) by (unfold start; lia). rewrite decide_False by lia.
    pose proof (stored_step a0 p e rest a f Eq Ef ltac:(lia) ltac:(lia) Hst) as Hst'. destruct (IH fuel (p ++ [e]) _ ltac:(lia) ltac:(by rewrite <- app_assoc) Hst') as [a' IHe].
    exists a'. rewrite <- IHe. f_equal; [autorewrite with lens; lia|]. apply fmap_same. intros g _. rewrite by_frame_app, length_app, Nat2Z.inj_add, zlen_by_frame. change (by_frame g []) with (@nil opus_extension_data).
    repeat case_decide; cbn [length]; lia.
Qed.

End order.

(** ** What the functions promise *)

Lemma init_first d nb : 0 <= nb <= 48 -> opus_extension_iterator_init d nb = Some (first d nb).
Proof. intros Hnb. unfold opus_extension_iterator_init, celt_assert. by rewrite bool_decide_true. Qed.

(** C10 On any bytes the walk through the extensions of a padding ends, reads only the padding and
    fails no assertion.  It finds a list of extensions, each with an identifier of an extension,
    a frame of the packet and a payload inside the padding.  [opus_packet_extensions_count]
    counts it, [opus_packet_extensions_parse] stores it, or as much of it as there is room for,
    and [opus_extension_iterator_find] returns the first of an identifier. *)
Theorem extensions_walked d nb :
  is_bytes d -> 0 <= nb <= 48 ->
  exists es ret, (ret = 0 \/ ret = OPUS_INVALID_PACKET) /\ Forall (ext_ok d nb) es /\
    opus_packet_extensions_count d nb = Some (zlen es) /\
    (forall cap, 0 <= cap ->
      opus_packet_extensions_parse d cap nb = Some (if decide (zlen es <= cap) then (ret, es) else (OPUS_BUFFER_TOO_SMALL, take (Z.to_nat cap) es))) /\
    (forall id, exists it', opus_extension_iterator_find d (first d nb) id =
      Some (it', match list_find (fun e => ext_id e = id) es with Some (_, e) => (1, Some e) | None => (ret, None) end)).
Proof.
  intros Hd Hnb. destruct (first_walks d Hd nb Hnb) as (es & ret & W & F & L & R). exists es, ret. split; [done|]. split; [done|].
  unfold opus_packet_extensions_count, opus_packet_extensions_parse. rewrite init_first by done. mred. split; [by rewrite (count_walks d _ _ _ _ _ W L)|]. split.
  - intros cap Hc. rewrite (parse_walks d _ _ _ _ cap [] W L Hc). cbn [app length]. by rewrite Z.add_0_l, Z.sub_0_r.
  - intros id. exact (find_walks d _ _ _ _ id W L).
Qed.

(** C14 The table that [opus_packet_extensions_count_ext] fills has the number of extensions of
    each frame; with it [opus_packet_extensions_parse_ext] stores the extensions that
    [opus_packet_extensions_parse] finds, sorted by their frames and in their order within a
    frame, leaves the rest of the array as it was, and keeps its assertions; an array that is
    too small is reported. *)
Theorem extensions_by_frame d nb :
  is_bytes d -> (nb <= 48)%nat ->
  exists es ret, opus_packet_extensions_parse d (zlen es) (Z.of_nat nb) = Some (ret, es) /\ (ret = 0 \/ ret = OPUS_INVALID_PACKET) /\
    opus_packet_extensions_count_ext d (Z.of_nat nb) = Some (zlen es, frame_counts nb es) /\ in_frame_order nb es ≡ₚ es /\
    forall a0, exists a', opus_packet_extensions_parse_ext d a0 (frame_counts nb es) (Z.of_nat nb) =
      Some (if decide (zlen es <= zlen a0) then (ret, zlen es, in_frame_order nb es ++ drop (length es) a0) else (OPUS_BUFFER_TOO_SMALL, zlen a0, a')).
Proof.
  intros Hd Hnb. destruct (first_walks d Hd (Z.of_nat nb)) as (es & ret & W & F & L & R); [lia|]. exists es, ret.
  assert (Forall (fun e => 0 <= ext_frame e < Z.of_nat nb) es) as Hes by (eapply Forall_impl; [|exact F]; by intros e []).
  unfold opus_packet_extensions_parse, opus_packet_extensions_count_ext, opus_packet_extensions_parse_ext. rewrite init_first by lia. mred.
  split; [rewrite (parse_walks d _ _ _ _ (zlen es) [] W L) by (cbn; lia); by rewrite decide_True by (cbn [length]; lia)|]. split; [done|]. split; [|split; [by apply frame_order_all|]].
  - rewrite Nat2Z.id. replace (replicate nb 0) with ((fun _ : nat => 0) <$> seq 0 nb) by apply const_table.
    by rewrite (count_ext_walks d _ _ _ _ 0 _ nb W L Hes).
  - intros a0. unfold celt_assert. rewrite bool_decide_true by lia. mred. unfold frame_counts.
    pose proof (cumulate_table (fun f => zlen (by_frame f es)) (start es) 0 nb ltac:(intros f; rewrite start_S; lia)) as Hcum. change (start es 0) with 0 in Hcum. rewrite Hcum.
    rewrite (fmap_same (start es) (fun f => start es f + zlen (by_frame f [])) (S nb)) by (intros; cbn; lia).
    destruct (parse_ext_walks d nb es Hes (walk_fuel d) (first d (Z.of_nat nb)) [] es ret a0 a0 W L eq_refl (stored_nil nb es a0)) as [a' E]. exists a'. exact E.
Qed.

(** ** A padding *)

(** A short extension with a payload and a long one, repeated for the second frame, then the separator of frames. *)
Definition example_padding : list Z := [7; 170; 67; 2; 1; 2; 5; 187; 1; 9; 2; 6].

Example example_walk :
  opus_packet_extensions_parse example_padding 8 2 =
    Some (0, [mk_ext 3 0 1 1; mk_ext 33 0 4 2; mk_ext 3 1 7 1; mk_ext 33 1 9 1; mk_ext 3 1 12 0]).
Proof. vm_compute. reflexivity. Qed.

Lemma extensions_walked_witness : is_bytes example_padding /\ exists n, opus_packet_extensions_count example_padding 2 = Some n.
Proof.
  assert (is_bytes example_padding) as Hd by (repeat constructor; unfold is_byte; lia).
  destruct (extensions_walked example_padding 2 Hd ltac:(lia)) as (es & _ & _ & _ & H & _). split; [exact Hd|]. exists (zlen es). exact H.
Defined.

Lemma extensions_by_frame_witness : is_bytes example_padding /\ exists n counts, opus_packet_extensions_count_ext example_padding 2 = Some (n, counts).
Proof.
  assert (is_bytes example_padding) as Hd by (repeat constructor; unfold is_byte; lia).
  destruct (extensions_by_frame example_padding 2 Hd ltac:(lia)) as (es & _ & _ & _ & H & _). split; [exact Hd|]. exists (zlen es), (frame_counts 2 es). exact H.
Defined.

(** An iterator that was told to return nothing of the frames from 1 on returns an extension of
    frame 1: the end of a repetition moves to the next frame inside the loop of
    [opus_extension_iterator_next], which does not look at [frame_max] there. *)
Example frame_max_passed :
  exists it it' e,
    it = opus_extension_iterator_set_frame_max (first [6; 4; 8] 3) 1 /\
    opus_extension_iterator_next [6; 4; 8] it = Some (it', (1, Some (mk_ext 3 0 1 0))) /\
    option_map snd (opus_extension_iterator_next [6; 4; 8] it') = Some (1, Some e) /\ ext_frame e = 1 /\ ext_frame e >= frame_max it.
Proof. eexists _, _, _. split; [reflexivity|]. split; [vm_compute; reflexivity|]. split; [vm_compute; reflexivity|]. split; [reflexivity|]. cbn. lia. Qed.
