(* ===== verification/OpusExtWrite.v ===== *)
(** * Writing extensions [src/extensions.c of opus-main]

    [opus_packet_extensions_generate] writes extensions in the order of their frames and uses
    the mark that repeats the extensions of a frame where the frames after it start in the same
    way.  Without a buffer it only counts the bytes. *)

From S2P Require Import Prelude OpusPacket.

(** Where bytes are read from: the buffer that is written, or another one. *)
Inductive src :=
| Here (o : Z)
| There (b : list Z) (o : Z).

Definition load (buf : list Z) (s : src) (n : Z) : option (list Z) :=
  match s with Here o => slice buf o n | There b o => slice b o n end.

(** [OPUS_COPY]: the areas must not overlap. *)
Definition OPUS_COPY (buf : list Z) (pos : Z) (s : src) (n : Z) : option (list Z) :=
  match s with
  | Here o => if decide (o < pos + n /\ pos < o + n) then None else x ← slice buf o n; splice buf pos x
  | There b o => x ← slice b o n; splice buf pos x
  end.

(** [OPUS_MOVE]. *)
Definition OPUS_MOVE (buf : list Z) (pos : Z) (s : src) (n : Z) : option (list Z) := x ← load buf s n; splice buf pos x.

(** An extension to be written. *)
Record extension := mk_extension { x_id : Z; x_frame : Z; x_data : src; x_len : Z }.

(** ** Errors

    A negative result ends the function, with what the buffer holds then. *)
Definition result (A : Type) : Type := option (Z * list Z + A).
Definition ret {A} (a : A) : result A := Some (inr a).
Definition fail {A} (e : Z) (buf : list Z) : result A := Some (inl (e, buf)).
Definition bind {A B} (m : result A) (k : A -> result B) : result B :=
  match m with None => None | Some (inl e) => Some (inl e) | Some (inr a) => k a end.
Notation "x <~ m ; k" := (bind m (fun x => k)) (at level 20, m at level 100, k at level 200, right associativity) : opus_scope.
Notation "' p <~ m ; k" := (bind m (fun x => match x with p => k end)) (at level 20, p pattern, m at level 100, k at level 200, right associativity) : opus_scope.
#[local] Open Scope opus_scope.
Definition defined {A} (m : option A) : result A := match m with None => None | Some a => ret a end.

(** ** One extension

    [data] is the offset of the area in the buffer, if there is one. *)

(** [if (data) data[pos] = b;] *)
Definition write_byte (data : option Z) (buf : list Z) (pos b : Z) : result (list Z) :=
  defined match data with None => Some buf | Some d => st8 buf (d + pos) (u8 b) end.

(** The bytes of 255 in front of a length. *)
Fixpoint write_255s (n : nat) (data : option Z) (buf : list Z) (pos : Z) : result (list Z * Z) :=
  match n with
  | O => ret (buf, pos)
  | S n => buf <~ write_byte data buf pos 255; write_255s n data buf (pos + 1)
  end.

Definition write_extension_payload (data : option Z) (buf : list Z) (len pos : Z) (ext : extension) (last : bool) : result (list Z * Z) :=
  _ <~ defined (celt_assert (bool_decide (x_id ext >= 3) && bool_decide (x_id ext <= 127)));
  if decide (x_id ext < 32) then
    if decide (x_len ext < 0 \/ x_len ext > 1) then fail OPUS_BAD_ARG buf else
    if decide (x_len ext > 0) then
      if decide (len - pos < x_len ext) then fail OPUS_BUFFER_TOO_SMALL buf else
      buf <~ (match data with None => ret buf | Some _ => b <~ defined (x ← load buf (x_data ext) 1; x !! 0%nat); write_byte data buf pos b end);
      ret (buf, pos + 1)
    else ret (buf, pos)
  else
    if decide (x_len ext < 0) then fail OPUS_BAD_ARG buf else
    let length_bytes := if last then 0 else 1 + x_len ext / 255 in
    if decide (len - pos < length_bytes + x_len ext) then fail OPUS_BUFFER_TOO_SMALL buf else
    '(buf, pos) <~ (if last then ret (buf, pos) else
      '(buf, pos) <~ write_255s (Z.to_nat (x_len ext / 255)) data buf pos;
      buf <~ write_byte data buf pos (x_len ext mod 255);
      ret (buf, pos + 1));
    buf <~ defined match data with None => Some buf | Some d => OPUS_COPY buf (d + pos) (x_data ext) (x_len ext) end;
    ret (buf, pos + x_len ext).

Definition write_extension (data : option Z) (buf : list Z) (len pos : Z) (ext : extension) (last : bool) : result (list Z * Z) :=
  if decide (len - pos < 1) then fail OPUS_BUFFER_TOO_SMALL buf else
  _ <~ defined (celt_assert (bool_decide (x_id ext >= 3) && bool_decide (x_id ext <= 127)));
  buf <~ write_byte data buf pos (Z.shiftl (x_id ext) 1 + (if decide (x_id ext < 32) then x_len ext else if last then 0 else 1));
  write_extension_payload data buf len (pos + 1) ext last.

(** ** The extensions of each frame

    The arrays of indices are lists with an element for each frame. *)

(** The loop that finds the first and the last extension of every frame; [None] inside is a bad
    argument. *)
Fixpoint index_loop (extensions : list extension) (i : nat) (frame_min_idx frame_max_idx : list nat) (nb_frames : nat) : option (option (list nat * list nat)) :=
  match extensions with
  | [] => Some (Some (frame_min_idx, frame_max_idx))
  | e :: extensions =>
    if decide (x_frame e < 0 \/ x_frame e >= Z.of_nat nb_frames) then Some None else
    if decide (x_id e < 3 \/ x_id e > 127) then Some None else
    let f := Z.to_nat (x_frame e) in
    mn ← frame_min_idx !! f;
    mx ← frame_max_idx !! f;
    index_loop extensions (S i) (<[f := Nat.min mn i]> frame_min_idx) (<[f := Nat.max mx (S i)]> frame_max_idx) nb_frames
  end.

(** ** Repetitions *)

(** Whether the frames from [g] on, [n] of them, have the extension [e] next. *)
Fixpoint can_repeat (n g : nat) (exts : list extension) (frame_repeat_idx frame_max_idx : list nat) (e : extension) : option bool :=
  match n with
  | O => Some true
  | S n =>
    r ← frame_repeat_idx !! g;
    m ← frame_max_idx !! g;
    if decide (m <= r)%nat then Some false else
    e' ← exts !! r;
    _ ← celt_assert (bool_decide (x_frame e' = Z.of_nat g));
    if decide (x_id e' <> x_id e) then Some false else
    if decide (x_id e' < 32 /\ x_len e' <> x_len e) then Some false else
    can_repeat n (S g) exts frame_repeat_idx frame_max_idx e
  end.

(** [for (j = ...; j < max && extensions[j].frame != g; j++);] with [n] the distance to [max]. *)
Fixpoint next_idx (n j g : nat) (exts : list extension) : option nat :=
  match n with
  | O => Some j
  | S n => e ← exts !! j; if decide (x_frame e <> Z.of_nat g) then next_idx n (S j) g exts else Some j
  end.

(** The repeat pointers of the frames from [g] on go to their next extension. *)
Fixpoint advance_loop (n g : nat) (exts : list extension) (frame_repeat_idx frame_max_idx : list nat) : option (list nat) :=
  match n with
  | O => Some frame_repeat_idx
  | S n =>
    r ← frame_repeat_idx !! g;
    m ← frame_max_idx !! g;
    j ← next_idx (m - (r + 1)) (r + 1) g exts;
    advance_loop n (S g) exts (<[g := j]> frame_repeat_idx) frame_max_idx
  end.

(** The loop over the extensions of frame [f] from index [i] on, [n] indices: the repeat pointers,
    the number of repeated extensions and the last long one in the last frame. *)
Fixpoint repeat_scan (n i f nb_frames : nat) (exts : list extension) (frame_repeat_idx frame_max_idx : list nat) (repeat_count : nat) (last_long_idx : option nat)
  : option (list nat * nat * option nat) :=
  match n with
  | O => Some (frame_repeat_idx, repeat_count, last_long_idx)
  | S n =>
    e ← exts !! i;
    if decide (x_frame e = Z.of_nat f) then
      ok ← can_repeat (nb_frames - (f + 1)) (f + 1) exts frame_repeat_idx frame_max_idx e;
      if (ok : bool) then
        last_long_idx ← (if decide (x_id e >= 32) then l ← frame_repeat_idx !! (nb_frames - 1)%nat; Some (Some l) else Some last_long_idx);
        frame_repeat_idx ← advance_loop (nb_frames - (f + 1)) (f + 1) exts frame_repeat_idx frame_max_idx;
        repeat_scan n (S i) f nb_frames exts (<[f := i]> frame_repeat_idx) frame_max_idx (S repeat_count) last_long_idx
      else Some (frame_repeat_idx, repeat_count, last_long_idx)
    else repeat_scan n (S i) f nb_frames exts frame_repeat_idx frame_max_idx repeat_count last_long_idx
  end.

(** ** The output *)

Record out_state := mk_out { o_buf : list Z; o_pos : Z; o_written : Z; o_curr_frame : Z; o_min_idx : list nat }.

(** The payloads of the extensions of frame [g] from index [j] on, [n] indices. *)
Fixpoint repeated_payloads (n j g : nat) (data : option Z) (len : Z) (exts : list extension) (last_long_idx : option nat) (last : bool)
    (buf : list Z) (pos written : Z) : result (list Z * Z * Z) :=
  match n with
  | O => ret (buf, pos, written)
  | S n =>
    e <~ defined (exts !! j);
    if decide (x_frame e = Z.of_nat g) then
      '(buf, pos) <~ write_extension_payload data buf len pos e (last && bool_decide (last_long_idx = Some j));
      repeated_payloads n (S j) g data len exts last_long_idx last buf pos (written + 1)
    else repeated_payloads n (S j) g data len exts last_long_idx last buf pos written
  end.

(** The frames from [g] on, [n] of them. *)
Fixpoint repeated_frames (n g : nat) (data : option Z) (len : Z) (exts : list extension) (frame_repeat_idx : list nat) (last_long_idx : option nat) (last : bool)
    (s : out_state) : result out_state :=
  match n with
  | O => ret s
  | S n =>
    j <~ defined (o_min_idx s !! g);
    r <~ defined (frame_repeat_idx !! g);
    '(buf, pos, written) <~ repeated_payloads (r - j) j g data len exts last_long_idx last (o_buf s) (o_pos s) (o_written s);
    repeated_frames n (S g) data len exts frame_repeat_idx last_long_idx last
      (mk_out buf pos written (o_curr_frame s) (<[g := Nat.max j r]> (o_min_idx s)))
  end.

(** The mark that repeats extensions, and their payloads. *)
Definition write_repeat (i f nb_frames : nat) (data : option Z) (len nb_extensions : Z) (exts : list extension) (frame_repeat_idx : list nat) (max_f : nat)
    (repeat_count : nat) (last_long_idx : option nat) (s : out_state) : result out_state :=
  let nb_repeated := Z.of_nat repeat_count * (Z.of_nat nb_frames - (Z.of_nat f + 1)) in
  let last := bool_decide (o_written s + nb_repeated = nb_extensions) || (bool_decide (last_long_idx = None) && bool_decide (max_f <= i + 1)%nat) in
  if decide (len - o_pos s < 1) then fail OPUS_BUFFER_TOO_SMALL (o_buf s) else
  buf <~ write_byte data (o_buf s) (o_pos s) (0x04 + (if last then 0 else 1));
  s <~ repeated_frames (nb_frames - (f + 1)) (f + 1) data len exts frame_repeat_idx last_long_idx last
         (mk_out buf (o_pos s + 1) (o_written s) (o_curr_frame s) (o_min_idx s));
  ret (mk_out (o_buf s) (o_pos s) (o_written s) (if last then o_curr_frame s + 1 else o_curr_frame s) (o_min_idx s)).

(** The separator in front of an extension of frame [f]. *)
Definition write_separator (f : nat) (data : option Z) (len : Z) (s : out_state) : result out_state :=
  if decide (Z.of_nat f <> o_curr_frame s) then
    let diff := Z.of_nat f - o_curr_frame s in
    if decide (len - o_pos s < 2) then fail OPUS_BUFFER_TOO_SMALL (o_buf s) else
    if decide (diff = 1) then
      buf <~ write_byte data (o_buf s) (o_pos s) 0x02;
      ret (mk_out buf (o_pos s + 1) (o_written s) (Z.of_nat f) (o_min_idx s))
    else
      buf <~ write_byte data (o_buf s) (o_pos s) 0x03;
      buf <~ write_byte data buf (o_pos s + 1) diff;
      ret (mk_out buf (o_pos s + 2) (o_written s) (Z.of_nat f) (o_min_idx s))
  else ret s.

(** The loop over the extensions of frame [f] from index [i] on, [n] indices. *)
Fixpoint frame_loop (n i f nb_frames : nat) (data : option Z) (len nb_extensions : Z) (exts : list extension) (frame_repeat_idx : list nat) (max_f : nat)
    (repeat_count : nat) (last_long_idx : option nat) (s : out_state) : result out_state :=
  match n with
  | O => ret s
  | S n =>
    e <~ defined (exts !! i);
    s <~ (if decide (x_frame e = Z.of_nat f) then
      s <~ write_separator f data len s;
      '(buf, pos) <~ write_extension data (o_buf s) len (o_pos s) e (bool_decide (o_written s = nb_extensions - 1));
      let s := mk_out buf pos (o_written s + 1) (o_curr_frame s) (o_min_idx s) in
      if decide ((0 < repeat_count)%nat /\ frame_repeat_idx !! f = Some i) then
        write_repeat i f nb_frames data len nb_extensions exts frame_repeat_idx max_f repeat_count last_long_idx s
      else ret s
    else ret s);
    frame_loop n (S i) f nb_frames data len nb_extensions exts frame_repeat_idx max_f repeat_count last_long_idx s
  end.

(** The frames from [f] on, [n] of them. *)
Fixpoint frames_loop (n f nb_frames : nat) (data : option Z) (len nb_extensions : Z) (exts : list extension) (frame_repeat_idx frame_max_idx : list nat)
    (s : out_state) : result out_state :=
  match n with
  | O => ret s
  | S n =>
    min_f <~ defined (o_min_idx s !! f);
    max_f <~ defined (frame_max_idx !! f);
    '(frame_repeat_idx, repeat_count, last_long_idx) <~ defined
      (if decide (f + 1 < nb_frames)%nat then repeat_scan (max_f - min_f) min_f f nb_frames exts frame_repeat_idx frame_max_idx 0 None
       else Some (frame_repeat_idx, O, None));
    s <~ frame_loop (max_f - min_f) min_f f nb_frames data len nb_extensions exts frame_repeat_idx max_f repeat_count last_long_idx s;
    frames_loop n (S f) nb_frames data len nb_extensions exts frame_repeat_idx frame_max_idx s
  end.

(** The new contents of the buffer, and the number of bytes. *)
Definition opus_packet_extensions_generate (data : option Z) (buf : list Z) (len : Z) (extensions : list extension) (nb_frames : Z) (pad : bool) : result (list Z * Z) :=
  _ <~ defined (celt_assert (bool_decide (len >= 0)));
  if decide (nb_frames > 48) then fail OPUS_BAD_ARG buf else
  let nb := Z.to_nat nb_frames in
  idx <~ defined (index_loop extensions 0 (replicate nb (length extensions)) (replicate nb O) nb);
  '(frame_min_idx, frame_max_idx) <~ match idx with None => fail OPUS_BAD_ARG buf | Some idx => ret idx end;
  s <~ frames_loop nb 0 nb data len (zlen extensions) extensions frame_min_idx frame_max_idx (mk_out buf 0 0 0 frame_min_idx);
  _ <~ defined (celt_assert (bool_decide (o_written s = zlen extensions)));
  if pad && bool_decide (o_pos s < len) then
    let padding := len - o_pos s in
    buf <~ defined match data with
      | None => Some (o_buf s)
      | Some d => buf ← OPUS_MOVE (o_buf s) (d + padding) (Here d) (o_pos s); splice buf d (replicate (Z.to_nat padding) 1)
      end;
    ret (buf, o_pos s + padding)
  else ret (o_buf s, o_pos s).
