(* ===== verification/OpusExtGen.v ===== *)
(** * The generator of extensions writes what it counted

    What a step of [opus_packet_extensions_generate] writes does not depend on the buffer: it
    succeeds where there is room for it, and the same bytes are counted without a buffer. *)

From S2P Require Import Prelude OpusPacket OpusPacketFacts OpusExt OpusExtWrite.
#[local] Open Scope opus_scope.

(** ** Steps that write *)

(** The buffer after [bs] is written at [pos] of the area. *)
Definition stores (data : option Z) (buf : list Z) (pos : Z) (bs : list Z) : list Z :=
  match data with None => buf | Some d => take (Z.to_nat (d + pos)) buf ++ bs ++ drop (Z.to_nat (d + pos + zlen bs)) buf end.

(** The area is inside the buffer. *)
Definition room (data : option Z) (len : Z) (buf : list Z) : Prop := match data with None => True | Some d => 0 <= d /\ d + len <= zlen buf end.

(** Only the area may have changed. *)
Definition spoiled (data : option Z) (len : Z) (buf buf' : list Z) : Prop :=
  match data with
  | None => buf' = buf
  | Some d => length buf' = length buf /\ take (Z.to_nat d) buf' = take (Z.to_nat d) buf /\ drop (Z.to_nat (d + len)) buf' = drop (Z.to_nat (d + len)) buf
  end.

Lemma spoiled_refl data len buf : spoiled data len buf buf.
Proof. by destruct data. Qed.

Lemma spoiled_trans data len b1 b2 b3 : spoiled data len b1 b2 -> spoiled data len b2 b3 -> spoiled data len b1 b3.
Proof. destruct data; cbn; [intros (-> & -> & ->); intros (-> & -> & ->); done|congruence]. Qed.

Lemma stores_nil data buf pos : stores data buf pos [] = buf.
Proof. destruct data as [d|]; [|done]. cbn. rewrite Z.add_0_r. apply take_drop. Qed.

Lemma length_stores data len buf pos bs : room data len buf -> 0 <= pos -> pos + zlen bs <= len -> length (stores data buf pos bs) = length buf.
Proof. destruct data as [d|]; [|done]. cbn. intros [H1 H2] H3 H4. rewrite !length_app, length_take, length_drop. lia. Qed.

Lemma stores_room data len buf pos bs : room data len buf -> 0 <= pos -> pos + zlen bs <= len -> room data len (stores data buf pos bs).
Proof. intros H1 H2 H3. pose proof (length_stores data len buf pos bs H1 H2 H3) as Hl. destruct data as [d|]; [|done]. cbn [room] in *. by rewrite Hl. Qed.

Lemma stores_spoiled data len buf pos bs : room data len buf -> 0 <= pos -> pos + zlen bs <= len -> spoiled data len buf (stores data buf pos bs).
Proof.
  intros H1 H2 H3. pose proof (length_stores data len buf pos bs H1 H2 H3) as Hl. destruct data as [d|]; [|done]. cbn [spoiled stores room] in *. split; [done|]. split.
  - rewrite take_app_le by (rewrite length_take; lia). rewrite take_take. f_equal. lia.
  - rewrite drop_app_ge by (rewrite length_take; lia). rewrite length_take. rewrite drop_app_ge by lia. rewrite drop_drop. f_equal. lia.
Qed.

Lemma stores_app data len buf pos b1 b2 :
  room data len buf -> 0 <= pos -> pos + zlen b1 + zlen b2 <= len -> stores data (stores data buf pos b1) (pos + zlen b1) b2 = stores data buf pos (b1 ++ b2).
Proof.
  destruct data as [d|]; [|done]. cbn [stores room]. intros [H1 H2] H3 H4. rewrite length_app. set (x := take (Z.to_nat (d + pos)) buf). assert (length x = Z.to_nat (d + pos)) as Hx by (unfold x; rewrite length_take; lia).
  rewrite (assoc_L (++) x b1). rewrite (take_app_length' (x ++ b1)) by (rewrite length_app; lia). rewrite (drop_app_ge (x ++ b1)) by (rewrite length_app; lia).
  rewrite drop_drop, <- !(assoc_L (++)). do 4 f_equal. rewrite length_app. lia.
Qed.

(** [f] writes [bs] if [need] bytes are left, and is too long otherwise. *)
Definition behaves {A} (f : option Z -> Z -> list Z -> Z -> result A) (need : Z) (bs : list Z) (K : list Z -> Z -> A) : Prop :=
  zlen bs <= need /\ forall data len buf pos, room data len buf -> 0 <= pos <= len ->
    if decide (pos + need <= len) then f data len buf pos = ret (K (stores data buf pos bs) (pos + zlen bs))
    else exists buf', f data len buf pos = fail OPUS_BUFFER_TOO_SMALL buf' /\ spoiled data len buf buf'.

Lemma behaves_ret {A} (K : list Z -> Z -> A) : behaves (fun _ _ buf pos => ret (K buf pos)) 0 [] K.
Proof. split; [done|]. intros data len buf pos _ Hp. rewrite decide_True by lia. by rewrite stores_nil, Z.add_0_r. Qed.

Lemma behaves_bind {A B} f (g : option Z -> Z -> A -> result B) n1 b1 K1 n2 b2 K2 :
  behaves f n1 b1 K1 -> behaves (fun data len buf pos => g data len (K1 buf pos)) n2 b2 K2 ->
  behaves (fun data len buf pos => x <~ f data len buf pos; g data len x) (Z.max n1 (zlen b1 + n2)) (b1 ++ b2) K2.
Proof.
  intros [H1 Hf] [H2 Hg]. split; [rewrite length_app; lia|]. intros data len buf pos Hr Hp. specialize (Hf data len buf pos Hr Hp). destruct (decide (pos + n1 <= len)) as [E1|E1].
  - rewrite Hf. cbn [bind ret]. specialize (Hg data len (stores data buf pos b1) (pos + zlen b1) ltac:(apply stores_room; (done || lia)) ltac:(lia)). destruct (decide (pos + zlen b1 + n2 <= len)) as [E2|E2].
    + rewrite decide_True by lia. rewrite Hg, (stores_app data len) by (done || lia). rewrite length_app. do 2 f_equal. lia.
    + rewrite decide_False by lia. destruct Hg as (buf' & -> & Hs). exists buf'. split; [done|]. eapply spoiled_trans; [|exact Hs]. apply stores_spoiled; (done || lia).
  - rewrite decide_False by lia. destruct Hf as (buf' & -> & Hs). by exists buf'.
Qed.

Lemma behaves_ext {A} (f g : option Z -> Z -> list Z -> Z -> result A) n b K : (forall data len buf pos, f data len buf pos = g data len buf pos) -> behaves g n b K -> behaves f n b K.
Proof. intros H [H1 H2]. split; [done|]. intros data len buf pos. rewrite H. apply H2. Qed.

(** ** One extension *)

(** An extension that can be written: a short one has at most one byte, and the payload is in a
    memory of its own. *)
Record ext_fine (e : extension) : Prop := {
  ef_id : 3 <= x_id e <= 127;
  ef_len : 0 <= x_len e /\ (x_id e < 32 -> x_len e <= 1);
  ef_data : exists b o bs, x_data e = There b o /\ slice b o (x_len e) = Some bs
}.

Lemma splice_stores d len buf pos bs : room (Some d) len buf -> 0 <= pos -> pos + zlen bs <= len -> splice buf (d + pos) bs = Some (stores (Some d) buf pos bs).
Proof. intros [H1 H2] H3 H4. unfold splice, stores. by rewrite decide_True by lia. Qed.

Lemma write_byte_stores data len buf pos b : room data len buf -> 0 <= pos -> pos + 1 <= len -> write_byte data buf pos b = ret (stores data buf pos [u8 b]).
Proof.
  intros H1 H2 H3. unfold write_byte. destruct data as [d|]; [|done]. unfold st. rewrite le_bytes_1 by (apply (wrap_range 8); lia).
  by rewrite (splice_stores d len) by (cbn [length]; (done || lia)).
Qed.

(** A byte without a test for room. *)
Lemma byte_behaves {A} (f : option Z -> Z -> list Z -> Z -> result A) b n bs K :
  behaves f n bs K ->
  behaves (fun data len buf pos => if decide (len - pos < n + 1) then fail OPUS_BUFFER_TOO_SMALL buf else buf <~ write_byte data buf pos b; f data len buf (pos + 1)) (n + 1) (u8 b :: bs) K.
Proof.
  intros [H1 Hf]. split; [cbn [length]; lia|]. intros data len buf pos Hr Hp. case_decide as E.
  - rewrite decide_False by lia. rewrite (write_byte_stores data len) by (done || lia). cbn [bind ret].
    specialize (Hf data len (stores data buf pos [u8 b]) (pos + 1) ltac:(apply stores_room; cbn [length]; (done || lia)) ltac:(lia)). rewrite decide_True in Hf by lia. rewrite Hf.
    pose proof (stores_app data len buf pos [u8 b] bs Hr ltac:(lia)) as Es. cbn [length app] in Es. rewrite <- Es by lia. cbn [length]. do 2 f_equal. lia.
  - rewrite decide_True by lia. exists buf. split; [done|apply spoiled_refl].
Qed.

Lemma write_255s_stores k data len buf pos : room data len buf -> 0 <= pos -> pos + Z.of_nat k <= len -> write_255s k data buf pos = ret (stores data buf pos (replicate k 255), pos + Z.of_nat k).
Proof.
  revert buf pos. induction k as [|k IH]; intros buf pos Hr Hp Hl; cbn [write_255s].
  - cbn [replicate]. rewrite stores_nil. unfold ret. do 3 f_equal. lia.
  - rewrite (write_byte_stores data len) by (done || lia). cbn [bind ret]. change (u8 255) with 255. rewrite IH; [|apply stores_room; cbn [length]; (done || lia)|lia|lia].
    pose proof (stores_app data len buf pos [255] (replicate k 255) Hr ltac:(lia)) as Es. rewrite length_replicate in Es. cbn [length app] in Es. cbn [replicate]. rewrite <- Es by lia. unfold ret. do 3 f_equal. lia.
Qed.

Definition length_coded (n : Z) (last : bool) : list Z := if last then [] else replicate (Z.to_nat (n / 255)) 255 ++ [n mod 255].

Lemma length_coded_stores n last data len buf pos :
  0 <= n -> room data len buf -> 0 <= pos -> pos + zlen (length_coded n last) <= len ->
  (if last then ret (buf, pos) else
     '(buf, pos) <~ write_255s (Z.to_nat (n / 255)) data buf pos;
     buf <~ write_byte data buf pos (n mod 255);
     ret (buf, pos + 1)) = ret (stores data buf pos (length_coded n last), pos + zlen (length_coded n last)).
Proof.
  intros Hn Hr Hp Hl. unfold length_coded in *. destruct last; [rewrite stores_nil; unfold ret; do 3 f_equal; cbn [length]; lia|]. rewrite length_app, length_replicate in *. cbn [length] in *.
  pose proof (Z.mod_pos_bound n 255 ltac:(lia)). rewrite (write_255s_stores _ data len) by (done || lia). cbn [bind ret]. rewrite (write_byte_stores data len); [|apply stores_room; rewrite ?length_replicate; (done || lia)|lia|lia].
  cbn [bind ret]. rewrite (wrap_small 8) by lia. pose proof (stores_app data len buf pos (replicate (Z.to_nat (n / 255)) 255) [n mod 255] Hr Hp) as E. rewrite length_replicate in E. cbn [length] in E. rewrite E by lia. unfold ret. do 3 f_equal. lia.
Qed.

Lemma payload_behaves e last : ext_fine e -> exists bs, behaves (fun data len buf pos => write_extension_payload data buf len pos e last) (zlen bs) bs pair.
Proof.
  intros [Hid [Hl Hs] (b & o & x & Hx & Hsl)]. pose proof (slice_length _ _ _ _ Hsl) as Hxl. unfold write_extension_payload. rewrite !bool_decide_true by lia. cbn [andb celt_assert defined bind ret].
  destruct (decide (x_id e < 32)) as [Esh|Elg].
  - specialize (Hs Esh). destruct (decide (x_len e > 0)) as [E|E].
    + destruct x as [|x0 [|? ?]]; cbn [length] in Hxl; [lia| |lia]. assert (x_len e = 1) as E1 by lia. rewrite E1 in *. exists [u8 x0]. split; [done|]. intros data len buf pos Hr Hp. cbn [length].
      rewrite (decide_False (P := 1 < 0 \/ 1 > 1)) by lia. case_decide as E2; [rewrite (decide_False (P := len - pos < 1)) by lia|rewrite (decide_True (P := len - pos < 1)) by lia; exists buf; split; [done|apply spoiled_refl]].
      rewrite Hx. cbn [load]. rewrite Hsl. mred. cbn [defined bind ret lookup list_lookup]. destruct data as [d|]; [|done]. cbn [defined bind ret].
      by rewrite (write_byte_stores (Some d) len) by (done || lia).
    + exists []. split; [done|]. intros data len buf pos Hr Hp. rewrite (decide_False (P := x_len e < 0 \/ _)) by lia. rewrite decide_True by (cbn; lia). rewrite stores_nil. unfold ret. do 3 f_equal. cbn. lia.
  - exists (length_coded (x_len e) last ++ x). split; [done|]. intros data len buf pos Hr Hp. rewrite (decide_False (P := x_len e < 0)) by lia. rewrite length_app, Nat2Z.inj_add, Hxl.
    assert ((if last then 0 else 1 + x_len e / 255) = zlen (length_coded (x_len e) last)) as ->.
    { unfold length_coded. destruct last; [done|]. rewrite length_app, length_replicate. cbn [length]. pose proof (Z.div_pos (x_len e) 255 ltac:(lia) ltac:(lia)). lia. }
    case_decide as E; [rewrite decide_False by lia|rewrite decide_True by lia; exists buf; split; [done|apply spoiled_refl]].
    rewrite (length_coded_stores _ last data len) by (done || lia). cbn [bind ret]. set (c := length_coded (x_len e) last) in *. assert (room data len (stores data buf pos c)) as Hr2 by (apply stores_room; (done || lia)).
    rewrite Hx. unfold OPUS_COPY. rewrite Hsl. mred. destruct data as [d|]; cbn [defined bind ret].
    + rewrite Z.add_assoc. rewrite <- (Z.add_assoc d), (splice_stores d len) by (done || lia). cbn [defined bind ret]. rewrite (stores_app (Some d) len) by (done || lia). unfold ret. do 3 f_equal. lia.
    + cbn [stores]. unfold ret. do 3 f_equal. lia.
Qed.

Lemma bind_assoc {A B C} (m : result A) (f : A -> result B) (g : B -> result C) : (y <~ (x <~ m; f x); g y) = (x <~ m; y <~ f x; g y).
Proof. by destruct m as [[[? ?]|?]|]. Qed.

(** Where the bytes are all that is needed. *)
Definition exact {A} (f : option Z -> Z -> list Z -> Z -> result A) (bs : list Z) (K : list Z -> Z -> A) : Prop := behaves f (zlen bs) bs K.

Lemma exact_bind {A B} f (g : option Z -> Z -> A -> result B) b1 K1 b2 K2 :
  exact f b1 K1 -> exact (fun data len buf pos => g data len (K1 buf pos)) b2 K2 -> exact (fun data len buf pos => x <~ f data len buf pos; g data len x) (b1 ++ b2) K2.
Proof. intros H1 H2. pose proof (behaves_bind _ _ _ _ _ _ _ _ H1 H2) as H. unfold exact. rewrite length_app. by replace (Z.of_nat (length b1 + length b2)) with (Z.max (zlen b1) (zlen b1 + zlen b2)) by lia. Qed.

Lemma exact_ext {A} (f g : option Z -> Z -> list Z -> Z -> result A) b K : (forall data len buf pos, f data len buf pos = g data len buf pos) -> exact g b K -> exact f b K.
Proof. apply behaves_ext. Qed.

Lemma exact_ret {A} (K : list Z -> Z -> A) : exact (fun _ _ buf pos => ret (K buf pos)) [] K.
Proof. apply behaves_ret. Qed.

Lemma exact_map {A B} f b K (h : A -> B) : exact f b K -> exact (fun data len buf pos => x <~ f data len buf pos; ret (h x)) b (fun buf pos => h (K buf pos)).
Proof. intros H. rewrite <- (app_nil_r b). apply (exact_bind f (fun _ _ x => ret (h x)) b K [] _ H). apply exact_ret. Qed.

Lemma extension_behaves e last : ext_fine e -> exists bs, 1 <= zlen bs /\ exact (fun data len buf pos => write_extension data buf len pos e last) bs pair.
Proof.
  intros He. destruct (payload_behaves e last He) as [bs Hp]. destruct He as [Hid [Hl Hs] _]. set (b := Z.shiftl (x_id e) 1 + (if decide (x_id e < 32) then x_len e else if last then 0 else 1)).
  exists (u8 b :: bs). split; [cbn [length]; lia|]. change (u8 b :: bs) with ([u8 b] ++ bs).
  apply (exact_ext _ (fun data len buf pos => '(buf, pos) <~ (if decide (len - pos < 1) then fail OPUS_BUFFER_TOO_SMALL buf else buf <~ write_byte data buf pos b; ret (buf, pos + 1)); write_extension_payload data buf len pos e last)).
  - intros data len buf pos. unfold write_extension. fold b. case_decide; [done|]. rewrite !bool_decide_true by lia. cbn [andb celt_assert defined bind ret]. rewrite bind_assoc. by destruct (write_byte data buf pos b) as [[[? ?]|?]|].
  - apply (exact_bind _ (fun data len x => let '(buf, pos) := x in write_extension_payload data buf len pos e last) _ pair); [|exact Hp].
    exact (byte_behaves (fun _ _ buf pos => ret (buf, pos)) b 0 [] pair (behaves_ret pair)).
Qed.

(** ** Counting the extensions of a frame *)

Section exts.
Context (exts : list extension) (Hfine : Forall ext_fine exts).

Definition in_frame (g : nat) (e : extension) : Prop := x_frame e = Z.of_nat g.
#[local] Instance in_frame_dec g e : Decision (in_frame g e).
Proof. unfold in_frame. apply _. Defined.

(** The extensions of frame [g] from index [a] up to [b]. *)
Definition cnt (g a b : nat) : Z := zlen (filter (in_frame g) (take (b - a) (drop a exts))).

Lemma cnt_nil g a b : (b <= a)%nat -> cnt g a b = 0.
Proof. intros H. unfold cnt. by replace (b - a)%nat with 0%nat by lia. Qed.

Lemma cnt_split g a b c : (a <= b <= c)%nat -> cnt g a c = cnt g a b + cnt g b c.
Proof.
  intros H. unfold cnt. replace (c - a)%nat with ((b - a) + (c - b))%nat by lia. rewrite <- take_take_drop, list.filter_app, length_app, drop_drop. replace (a + (b - a))%nat with b by lia. lia.
Qed.

Lemma cnt_step g a e : exts !! a = Some e -> cnt g a (S a) = if decide (x_frame e = Z.of_nat g) then 1 else 0.
Proof.
  intros E. unfold cnt. replace (S a - a)%nat with 1%nat by lia. rewrite (drop_S exts e a E). cbn [take]. rewrite list.filter_cons. unfold in_frame at 1. by repeat case_decide.
Qed.

Lemma cnt_none g a b : (forall i e, (a <= i < b)%nat -> exts !! i = Some e -> x_frame e <> Z.of_nat g) -> cnt g a b = 0.
Proof.
  intros H. destruct (decide (a <= b)%nat) as [Hab|]; [|apply cnt_nil; lia]. remember (b - a)%nat as n eqn:En. revert b H Hab En. induction n as [|n IH]; intros b H Hab En; [apply cnt_nil; lia|].
  rewrite (cnt_split g a (b - 1) b) by lia. rewrite (IH (b - 1)%nat); [|intros i e Hi; apply H; lia|lia|lia]. destruct (exts !! (b - 1)%nat) as [e|] eqn:E.
  - replace b with (S (b - 1)) at 2 by lia. rewrite (cnt_step g _ e E). rewrite decide_False; [done|]. apply (H (b - 1)%nat); [lia|done].
  - unfold cnt. rewrite drop_ge by (by apply lookup_ge_None). by rewrite take_nil.
Qed.

Lemma lookup_fine i : (i < length exts)%nat -> exists e, exts !! i = Some e /\ ext_fine e.
Proof. intros H. destruct (lookup_lt_is_Some_2 exts i H) as [e E]. exists e. split; [done|]. by apply (proj1 (Forall_lookup _ _) Hfine i e). Qed.

(** ** Repeated extensions *)

Lemma payloads_behave n j g lli last written :
  (j + n <= length exts)%nat ->
  exists bs, exact (fun data len buf pos => repeated_payloads n j g data len exts lli last buf pos written) bs (fun buf pos => (buf, pos, written + cnt g j (j + n))).
Proof.
  revert j written. induction n as [|n IH]; intros j written Hj; cbn [repeated_payloads].
  - exists []. rewrite cnt_nil, Z.add_0_r by lia. apply exact_ret.
  - destruct (lookup_fine j ltac:(lia)) as (e & E & He). rewrite E. cbn [defined bind ret]. rewrite (cnt_split g j (S j)) by lia. pose proof (cnt_step g j e E) as Hc. replace (j + S n)%nat with (S j + n)%nat by lia. destruct (decide (x_frame e = Z.of_nat g)) as [Ef|Ef]; rewrite Hc.
    + destruct (payload_behaves e (last && bool_decide (lli = Some j)) He) as [b1 H1]. destruct (IH (S j) (written + 1) ltac:(lia)) as [b2 H2]. exists (b1 ++ b2).
      rewrite Z.add_assoc. exact (exact_bind _ (fun data len x => let '(buf, pos) := x in repeated_payloads n (S j) g data len exts lli last buf pos (written + 1)) _ pair _ _ H1 H2).
    + destruct (IH (S j) written ltac:(lia)) as [b2 H2]. exists b2. by rewrite Z.add_0_l.
Qed.

(** The extensions below the index of each frame, the first frame being [k]. *)
Fixpoint tot (k : nat) (idx : list nat) : Z :=
  match idx with [] => 0 | m :: idx => cnt k 0 m + tot (S k) idx end.

Lemma tot_app k l1 l2 : tot k (l1 ++ l2) = tot k l1 + tot (k + length l1) l2.
Proof. revert k. induction l1 as [|m l1 IH]; intros k; cbn [app tot length]; [by rewrite Nat.add_0_r|]. rewrite IH. replace (S k + length l1)%nat with (k + S (length l1))%nat by lia. lia. Qed.

Lemma frames_behave n g lli last w c mins rep :
  (g + n)%nat = length mins -> length rep = length mins -> (forall h m r, (g <= h)%nat -> mins !! h = Some m -> rep !! h = Some r -> (m <= r <= length exts)%nat) ->
  exists bs, exact (fun data len buf pos => repeated_frames n g data len exts rep lli last (mk_out buf pos w c mins)) bs
    (fun buf pos => mk_out buf pos (w + tot g (drop g rep) - tot g (drop g mins)) c (take g mins ++ drop g rep)).
Proof.
  revert g w mins. induction n as [|n IH]; intros g w mins Hg Hl Hle; cbn [repeated_frames].
  - exists []. rewrite !(drop_ge _ g) by lia. rewrite take_ge, app_nil_r by lia. replace (w + tot g [] - tot g []) with w by lia. apply exact_ret.
  - destruct (lookup_lt_is_Some_2 mins g) as [m Em]; [lia|]. destruct (lookup_lt_is_Some_2 rep g) as [r Er]; [lia|]. cbn [o_min_idx o_buf o_pos o_written o_curr_frame]. rewrite Em, Er. cbn [defined bind ret]. pose proof (Hle g m r ltac:(lia) Em Er) as Hmr.
    destruct (payloads_behave (r - m) m g lli last w ltac:(lia)) as [b1 H1]. replace (m + (r - m))%nat with r in H1 by lia. replace (Nat.max m r) with r by lia.
    destruct (IH (S g) (w + cnt g m r) (<[g := r]> mins)) as [b2 H2].
    { rewrite length_insert. lia. } { by rewrite length_insert. } { intros h m' r' Hh Em' Er'. rewrite list_lookup_insert_ne in Em' by lia. apply (Hle h); (done || lia). }
    exists (b1 ++ b2). rewrite (drop_S mins m g Em), (drop_S rep r g Er). cbn [tot].
    replace (w + (cnt g 0 r + tot (S g) (drop (S g) rep)) - (cnt g 0 m + tot (S g) (drop (S g) mins))) with (w + cnt g m r + tot (S g) (drop (S g) rep) - tot (S g) (drop (S g) (<[g := r]> mins))) by (rewrite drop_insert_lt by lia; rewrite (cnt_split g 0 m r) by lia; lia).
    replace (take g mins ++ r :: drop (S g) rep) with (take (S g) (<[g := r]> mins) ++ drop (S g) rep).
    2: { rewrite (take_S_r _ _ r) by (apply list_lookup_insert_eq; lia). rewrite take_insert_ge by lia. by rewrite <- (assoc_L (++)). }
    exact (exact_bind _ (fun data len x => let '(buf, pos, written) := x in repeated_frames n (S g) data len exts rep lli last (mk_out buf pos written c (<[g := r]> mins))) _ _ _ _ H1 H2).
Qed.

Lemma repeat_behaves i f lli nbe max_f rc w c mins rep :
  (f < length mins)%nat -> length rep = length mins -> (forall h m r, (S f <= h)%nat -> mins !! h = Some m -> rep !! h = Some r -> (m <= r <= length exts)%nat) ->
  exists bs c', exact (fun data len buf pos => write_repeat i f (length mins) data len nbe exts rep max_f rc lli (mk_out buf pos w c mins)) bs
    (fun buf pos => mk_out buf pos (w + tot (S f) (drop (S f) rep) - tot (S f) (drop (S f) mins)) c' (take (S f) mins ++ drop (S f) rep)).
Proof.
  intros Hf Hl Hle. unfold write_repeat. cbn [o_buf o_pos o_written o_curr_frame o_min_idx]. cbv zeta. set (last := bool_decide _ || _). replace (length mins - (f + 1))%nat with (length mins - S f)%nat by lia. replace (f + 1)%nat with (S f) by lia.
  destruct (frames_behave (length mins - S f) (S f) lli last w c mins rep ltac:(lia) Hl Hle) as [b2 H2].
  exists ([u8 (0x04 + (if last then 0 else 1))] ++ b2), (if last then c + 1 else c).
  apply (exact_ext _ (fun data len buf pos => x <~ (if decide (len - pos < 0 + 1) then fail OPUS_BUFFER_TOO_SMALL buf else buf <~ write_byte data buf pos (0x04 + (if last then 0 else 1)); ret (buf, pos + 1));
    (let '(buf, pos) := x in s <~ repeated_frames (length mins - S f) (S f) data len exts rep lli last (mk_out buf pos w c mins); ret (mk_out (o_buf s) (o_pos s) (o_written s) (if last then o_curr_frame s + 1 else o_curr_frame s) (o_min_idx s))))).
  - intros data len buf pos. rewrite Z.add_0_l. case_decide; [done|]. rewrite bind_assoc. by destruct (write_byte data buf pos _) as [[[? ?]|?]|].
  - apply (exact_bind _ (fun data len x => let '(buf, pos) := x in s <~ repeated_frames (length mins - S f) (S f) data len exts rep lli last (mk_out buf pos w c mins); ret (mk_out (o_buf s) (o_pos s) (o_written s) (if last then o_curr_frame s + 1 else o_curr_frame s) (o_min_idx s))) _ pair).
    + exact (byte_behaves (fun _ _ buf pos => ret (buf, pos)) _ 0 [] pair (behaves_ret pair)).
    + apply (exact_map _ _ _ (fun s => mk_out (o_buf s) (o_pos s) (o_written s) (if last then o_curr_frame s + 1 else o_curr_frame s) (o_min_idx s)) H2).
Qed.

Lemma separator_behaves f w c mins :
  exists need bs c', need <= zlen bs + 1 /\ behaves (fun data len buf pos => write_separator f data len (mk_out buf pos w c mins)) need bs (fun buf pos => mk_out buf pos w c' mins).
Proof.
  unfold write_separator. cbn [o_buf o_pos o_written o_curr_frame o_min_idx]. destruct (decide (Z.of_nat f <> c)); [|exists 0, [], c; split; [done|apply behaves_ret]].
  destruct (decide (Z.of_nat f - c = 1)).
  - exists 2, [u8 2], (Z.of_nat f). split; [done|]. split; [done|]. intros data len buf pos Hr Hp. destruct (decide (len - pos < 2)); [rewrite decide_False by lia; exists buf; split; [done|apply spoiled_refl]|]. rewrite decide_True by lia.
    by rewrite (write_byte_stores data len) by (done || lia).
  - exists 2, [u8 3; u8 (Z.of_nat f - c)], (Z.of_nat f). split; [done|]. split; [done|]. intros data len buf pos Hr Hp. destruct (decide (len - pos < 2)); [rewrite decide_False by lia; exists buf; split; [done|apply spoiled_refl]|]. rewrite decide_True by lia.
    rewrite (write_byte_stores data len) by (done || lia). cbn [bind ret]. rewrite (write_byte_stores data len); [|apply stores_room; cbn [length]; (done || lia)|lia|lia]. cbn [bind ret].
    change [u8 3; u8 (Z.of_nat f - c)] with ([u8 3] ++ [u8 (Z.of_nat f - c)]). rewrite <- (stores_app data len) by (cbn [length]; (done || lia)). done.
Qed.

(** A separator and the extension behind it need no more room than their bytes. *)
Lemma separated_behaves f w c mins e nbe :
  ext_fine e ->
  exists bs c', exact (fun data len buf pos => s <~ write_separator f data len (mk_out buf pos w c mins); '(buf, pos) <~ write_extension data (o_buf s) len (o_pos s) e (bool_decide (o_written s = nbe - 1));
      ret (mk_out buf pos (o_written s + 1) (o_curr_frame s) (o_min_idx s))) bs (fun buf pos => mk_out buf pos (w + 1) c' mins).
Proof.
  intros He. destruct (separator_behaves f w c mins) as (need & b1 & c' & Hn & H1). destruct (extension_behaves e (bool_decide (w = nbe - 1)) He) as (b2 & Hb & H2).
  exists (b1 ++ b2), c'. unfold exact. rewrite length_app. replace (Z.of_nat (length b1 + length b2)) with (Z.max need (zlen b1 + zlen b2)) by lia.
  apply (behaves_bind _ (fun data len s => '(buf, pos) <~ write_extension data (o_buf s) len (o_pos s) e (bool_decide (o_written s = nbe - 1)); ret (mk_out buf pos (o_written s + 1) (o_curr_frame s) (o_min_idx s))) _ _ _ _ _ _ H1).
  eapply behaves_ext; [|exact (exact_map _ _ _ (fun x => mk_out x.1 x.2 (w + 1) c' mins) H2)].
  intros data len buf pos. cbn [o_buf o_pos o_written o_curr_frame o_min_idx]. by destruct (write_extension data buf len pos e _) as [[[? ?]|[? ?]]|].
Qed.

(** The extensions of frame [f] from index [i] on; the repeated ones of later frames follow the last
    one that is repeated. *)
Lemma loop_behaves n i f nbe max_f rc lli w c mins rep :
  (i + n <= length exts)%nat -> (f < length mins)%nat -> length rep = length mins -> (forall h m r, (S f <= h)%nat -> mins !! h = Some m -> rep !! h = Some r -> (m <= r <= length exts)%nat) ->
  exists bs w' c' mins', exact (fun data len buf pos => frame_loop n i f (length mins) data len nbe exts rep max_f rc lli (mk_out buf pos w c mins)) bs (fun buf pos => mk_out buf pos w' c' mins') /\
    (mins' = mins \/ mins' = take (S f) mins ++ drop (S f) rep) /\
    w' + tot (S f) (drop (S f) mins) = w + cnt f i (i + n) + tot (S f) (drop (S f) mins') /\
    ((0 < rc)%nat -> forall k e, (i <= k < i + n)%nat -> rep !! f = Some k -> exts !! k = Some e -> x_frame e = Z.of_nat f -> mins' = take (S f) mins ++ drop (S f) rep).
Proof.
  revert i w c mins. induction n as [|n IH]; intros i w c mins Hi Hf Hl Hle; cbn [frame_loop].
  { exists [], w, c, mins. split; [apply exact_ret|]. split; [by left|]. split; [rewrite cnt_nil by lia; lia|]. intros _ k e Hk. lia. }
  destruct (lookup_fine i ltac:(lia)) as (e & E & He). rewrite E. cbn [defined bind ret]. pose proof (cnt_step f i e E) as Hc. rewrite (cnt_split f i (S i)) by lia. rewrite Hc. replace (i + S n)%nat with (S i + n)%nat by lia.
  destruct (decide (x_frame e = Z.of_nat f)) as [Ef|Ef].
  2: { destruct (IH (S i) w c mins) as (bs & w' & c' & mins' & H1 & H2 & H3 & H4); [lia|done..|]. exists bs, w', c', mins'. split; [exact H1|]. split; [done|]. split; [lia|].
       intros Hrc k e' Hk Hrf Ek Hfr. destruct (decide (k = i)) as [->|]; [congruence|]. apply (H4 Hrc k e'); (done || lia). }
  destruct (separated_behaves f w c mins e nbe He) as (b1 & c1 & H1). set (mins1 := take (S f) mins ++ drop (S f) rep).
  assert (length mins1 = length mins /\ take (S f) mins1 = take (S f) mins /\ drop (S f) mins1 = drop (S f) rep) as (M1 & M2 & M3).
  { unfold mins1. rewrite length_app, length_take, length_drop. split; [lia|]. split; [by rewrite take_app_length' by (rewrite length_take; lia)|by rewrite drop_app_length' by (rewrite length_take; lia)]. }
  destruct (decide ((0 < rc)%nat /\ rep !! f = Some i)) as [[Hrc Hri]|Hno].
  - destruct (repeat_behaves i f lli nbe max_f rc (w + 1) c1 mins rep Hf Hl Hle) as (b2 & c2 & H2).
    destruct (IH (S i) (w + 1 + tot (S f) (drop (S f) rep) - tot (S f) (drop (S f) mins)) c2 mins1) as (b3 & w' & c' & mins' & H3 & H4 & H5 & _); [lia|lia|lia| |].
    { intros h m r Hh Em Er. assert (drop (S f) mins1 !! (h - S f)%nat = drop (S f) rep !! (h - S f)%nat) as Ed by (by rewrite M3). rewrite !lookup_drop in Ed. replace (S f + (h - S f))%nat with h in Ed by lia. rewrite Em, Er in Ed.
      destruct (lookup_lt_is_Some_2 mins h) as [m0 Em0]; [rewrite <- M1; by eapply lookup_lt_Some|]. pose proof (Hle h m0 r Hh Em0 Er). injection Ed as ->. lia. }
    assert (mins' = mins1) as -> by (destruct H4 as [->| ->]; [done|]; unfold mins1 at 2; by rewrite M2). exists (b1 ++ b2 ++ b3), w', c', mins1. split.
    + eapply exact_ext; [|exact (exact_bind _ (fun data len s => s <~ write_repeat i f (length mins) data len nbe exts rep max_f rc lli s; frame_loop n (S i) f (length mins) data len nbe exts rep max_f rc lli s) _ _ _ _ H1
        (exact_bind _ (fun data len s => frame_loop n (S i) f (length mins) data len nbe exts rep max_f rc lli s) _ _ _ _ H2 ltac:(rewrite M1 in H3; exact H3)))].
      intros data len buf pos. cbn [o_written]. destruct (write_separator f data len _) as [[[? ?]|s1]|]; [done| |done]. cbn [bind]. destruct (write_extension data _ len _ e _) as [[[? ?]|[? ?]]|]; [done| |done]. done.
    + split; [by right|]. split; [|done]. rewrite M3 in *. lia.
  - destruct (IH (S i) (w + 1) c1 mins) as (b2 & w' & c' & mins' & H2 & H3 & H4 & H5); [lia|done..|]. exists (b1 ++ b2), w', c', mins'. split.
    + eapply exact_ext; [|exact (exact_bind _ (fun data len s => frame_loop n (S i) f (length mins) data len nbe exts rep max_f rc lli s) _ _ _ _ H1 H2)].
      intros data len buf pos. cbn [o_written]. destruct (write_separator f data len _) as [[[? ?]|s1]|]; [done| |done]. cbn [bind]. destruct (write_extension data _ len _ e _) as [[[? ?]|[? ?]]|]; [done| |done]. done.
    + split; [done|]. split; [lia|]. intros Hrc k e' Hk Hrf Ek Hfr. destruct (decide (k = i)) as [->|]; [by destruct Hno|]. apply (H5 Hrc k e'); (done || lia).
Qed.

(** ** Finding what can be repeated *)

(** The pointers of the frames from [g] on are at extensions of their frames, or at the end. *)
Definition rep_ok (g : nat) (mx rep : list nat) : Prop :=
  forall h r m, (g <= h)%nat -> rep !! h = Some r -> mx !! h = Some m -> (r <= length exts)%nat /\ ((m <= r)%nat \/ exists e, exts !! r = Some e /\ x_frame e = Z.of_nat h).

Context (mx : list nat) (Hmx : Forall (fun m => (m <= length exts)%nat) mx).

Lemma both_some (rep : list nat) h : length rep = length mx -> (h < length mx)%nat -> exists r m, rep !! h = Some r /\ mx !! h = Some m /\ (m <= length exts)%nat.
Proof.
  intros Hl Hh. destruct (lookup_lt_is_Some_2 rep h) as [r Er]; [lia|]. destruct (lookup_lt_is_Some_2 mx h) as [m Em]; [lia|]. exists r, m. split; [done|]. split; [done|]. by apply (proj1 (Forall_lookup _ _) Hmx h m).
Qed.

Lemma can_repeat_returns n g rep e :
  length rep = length mx -> (g + n <= length mx)%nat -> rep_ok g mx rep ->
  exists b, can_repeat n g exts rep mx e = Some b /\ (b = true -> forall h r m, (g <= h < g + n)%nat -> rep !! h = Some r -> mx !! h = Some m -> (r < m)%nat).
Proof.
  intros Hl. revert g. induction n as [|n IH]; intros g Hg Hok; cbn [can_repeat]; [exists true; split; [done|]; intros _ h r m; lia|].
  destruct (both_some rep g Hl ltac:(lia)) as (r & m & Er & Em & Hm). rewrite Er, Em. mred. case_decide as E; [by exists false|]. destruct (Hok g r m ltac:(lia) Er Em) as [_ [|(e' & Ee & Hf)]]; [lia|]. rewrite Ee. mred.
  rewrite bool_decide_true by done. cbn [celt_assert]. mred. case_decide; [by exists false|]. case_decide; [by exists false|].
  destruct (IH (S g)) as (b & -> & Hb); [lia|intros h r' m' Hh; apply Hok; lia|]. exists b. split; [done|]. intros Hbt h r' m' Hh Er' Em'. destruct (decide (h = g)) as [->|]; [rewrite Er in Er'; rewrite Em in Em'; injection Er' as <-; injection Em' as <-; lia|].
  apply (Hb Hbt h); (done || lia).
Qed.

Lemma next_idx_returns n j g : (j + n <= length exts)%nat -> exists j', next_idx n j g exts = Some j' /\ (j <= j' <= j + n)%nat /\ (j' = (j + n)%nat \/ exists e, exts !! j' = Some e /\ x_frame e = Z.of_nat g).
Proof.
  revert j. induction n as [|n IH]; intros j Hj; cbn [next_idx]; [exists j; split; [done|]; split; [lia|left; lia]|]. destruct (lookup_fine j ltac:(lia)) as (e & E & _). rewrite E. mred. case_decide as Ef.
  - destruct (IH (S j) ltac:(lia)) as (j' & -> & H1 & H2). exists j'. split; [done|]. split; [lia|]. destruct H2 as [->|H2]; [left; lia|by right].
  - exists j. split; [done|]. split; [lia|]. right. exists e. split; [done|]. destruct (decide (x_frame e = Z.of_nat g)); [done|]. tauto.
Qed.

Lemma advance_returns n g rep :
  length rep = length mx -> (g + n = length mx)%nat -> rep_ok g mx rep -> (forall h r m, (g <= h)%nat -> rep !! h = Some r -> mx !! h = Some m -> (r < m)%nat) ->
  exists rep', advance_loop n g exts rep mx = Some rep' /\ length rep' = length mx /\ rep_ok g mx rep' /\ (forall h, (h < g)%nat -> rep' !! h = rep !! h) /\
    (forall h r r', rep !! h = Some r -> rep' !! h = Some r' -> (r <= r')%nat).
Proof.
  revert g rep. induction n as [|n IH]; intros g rep Hl Hg Hok Hlt; cbn [advance_loop].
  { exists rep. split; [done|]. split; [done|]. split; [done|]. split; [done|]. intros h r r' H1 H2. rewrite H1 in H2. injection H2 as ->. lia. }
  destruct (both_some rep g Hl ltac:(lia)) as (r & m & Er & Em & Hm). rewrite Er, Em. mred. pose proof (Hlt g r m ltac:(lia) Er Em) as Hrm.
  destruct (next_idx_returns (m - (r + 1)) (r + 1) g ltac:(lia)) as (j & -> & Hj & Hjf). mred.
  destruct (IH (S g) (<[g := j]> rep)) as (rep' & -> & H1 & H2 & H3 & H4).
  { by rewrite length_insert. } { lia. } { intros h r' m' Hh. rewrite list_lookup_insert_ne by lia. apply Hok. lia. } { intros h r' m' Hh. rewrite list_lookup_insert_ne by lia. apply Hlt. lia. }
  exists rep'. split; [done|]. split; [done|]. assert (rep' !! g = Some j) as Eg by (rewrite H3 by lia; apply list_lookup_insert_eq; lia). split; [|split].
  - intros h r' m' Hh Er' Em'. destruct (decide (h = g)) as [->|]; [|apply (H2 h); (done || lia)]. rewrite Eg in Er'. rewrite Em in Em'. injection Er' as <-. injection Em' as <-. split; [lia|]. destruct Hjf as [->|]; [left; lia|by right].
  - intros h Hh. rewrite H3 by lia. apply list_lookup_insert_ne. lia.
  - intros h r1 r' Eh Eh'. destruct (decide (h = g)) as [->|]; [rewrite Er in Eh; rewrite Eg in Eh'; injection Eh as <-; injection Eh' as <-; lia|]. apply (H4 h); [|done]. rewrite list_lookup_insert_ne by lia. done.
Qed.

(** The scan of a frame repeats nothing, or points to the last extension that is repeated. *)
Lemma scan_returns n i f rep rc lli :
  (i + n <= length exts)%nat -> (f < length mx)%nat -> length rep = length mx -> rep_ok (S f) mx rep ->
  exists rep' rc' lli', repeat_scan n i f (length mx) exts rep mx rc lli = Some (rep', rc', lli') /\ length rep' = length mx /\ rep_ok (S f) mx rep' /\
    (forall h r r', (S f <= h)%nat -> rep !! h = Some r -> rep' !! h = Some r' -> (r <= r')%nat) /\
    ((rc' = rc /\ rep' = rep) \/ (0 < rc')%nat /\ exists k e, (i <= k < i + n)%nat /\ rep' !! f = Some k /\ exts !! k = Some e /\ x_frame e = Z.of_nat f).
Proof.
  revert i rep rc lli. induction n as [|n IH]; intros i rep rc lli Hi Hf Hl Hok.
  all: assert (forall h r r', (S f <= h)%nat -> rep !! h = Some r -> rep !! h = Some r' -> (r <= r')%nat) as Hrefl by (intros h r r' _ H1 H2; rewrite H1 in H2; injection H2 as ->; lia).
  all: cbn [repeat_scan].
  { exists rep, rc, lli. split_and!; try done. by left. }
  destruct (lookup_fine i ltac:(lia)) as (e & E & _). rewrite E. mred. destruct (decide (x_frame e = Z.of_nat f)) as [Ef|Ef].
  2: { destruct (IH (S i) rep rc lli) as (rep' & rc' & lli' & -> & H1 & H2 & H3 & H4); [lia|done..|]. exists rep', rc', lli'. split_and!; try done. destruct H4 as [|(Hrc & k & e' & Hk & Hr)]; [by left|]. right. split; [done|]. exists k, e'. split; [lia|done]. }
  replace (f + 1)%nat with (S f) by lia. destruct (can_repeat_returns (length mx - S f) (S f) rep e Hl ltac:(lia) Hok) as (b & -> & Hb). mred. destruct b; [|exists rep, rc, lli; split_and!; try done; by left].
  assert (exists l, (if decide (x_id e >= 32) then l ← rep !! (length mx - 1)%nat; Some (Some l) else Some lli) = Some l) as [l ->].
  { case_decide; [|by eexists]. destruct (both_some rep (length mx - 1) Hl ltac:(lia)) as (r & _ & -> & _). mred. by eexists. }
  mred. destruct (advance_returns (length mx - S f) (S f) rep Hl ltac:(lia) Hok) as (rep1 & -> & A1 & A2 & A3 & A4).
  { intros h r m Hh Er Em. apply (Hb eq_refl h); [|done|done]. apply lookup_lt_Some in Em. lia. }
  mred. destruct (IH (S i) (<[f := i]> rep1) (S rc) l) as (rep' & rc' & lli' & -> & H1 & H2 & H3 & H4); [lia|done|by rewrite length_insert|intros h r m Hh; rewrite list_lookup_insert_ne by lia; by apply A2|].
  exists rep', rc', lli'. split; [done|]. split; [done|]. split; [done|]. split.
  - intros h r r' Hh Er Er'. destruct (both_some rep1 h A1) as (r1 & _ & Er1 & _); [apply lookup_lt_Some in Er; lia|]. pose proof (A4 h r r1 Er Er1). pose proof (H3 h r1 r' Hh ltac:(by rewrite list_lookup_insert_ne by lia) Er'). lia.
  - right. destruct H4 as [[-> ->]|(Hrc & k & e' & Hk & Hr)]; [|split; [done|]; exists k, e'; split; [lia|done]]. split; [lia|]. exists i, e. split; [lia|]. split; [apply list_lookup_insert_eq; lia|done].
Qed.

(** ** All frames *)

Local Abbreviation nb := (length mx).
Local Abbreviation all := (length exts).

Context (Hall : forall i e h m, exts !! i = Some e -> x_frame e = Z.of_nat h -> mx !! h = Some m -> (i < m)%nat).

Lemma frame_scan f min_f max_f rep :
  (f < nb)%nat -> length rep = nb -> rep_ok f mx rep -> (min_f <= all)%nat -> (max_f <= all)%nat ->
  exists rep' rc lli, (if decide (f + 1 < nb)%nat then repeat_scan (max_f - min_f) min_f f nb exts rep mx 0 None else Some (rep, O, None)) = Some (rep', rc, lli) /\ length rep' = nb /\ rep_ok (S f) mx rep' /\
    (forall h r r', (S f <= h)%nat -> rep !! h = Some r -> rep' !! h = Some r' -> (r <= r')%nat) /\
    (rep' = rep \/ (0 < rc)%nat /\ exists k e, (min_f <= k < min_f + (max_f - min_f))%nat /\ rep' !! f = Some k /\ exts !! k = Some e /\ x_frame e = Z.of_nat f).
Proof.
  intros Hf Hl Hok Hmin Hmax. assert (rep_ok (S f) mx rep) as Hok' by (intros h r m Hh; apply Hok; lia). case_decide.
  - destruct (scan_returns (max_f - min_f) min_f f rep 0 None ltac:(lia) Hf Hl Hok') as (rep' & rc & lli & -> & H1 & H2 & H3 & H4). exists rep', rc, lli. split_and!; try done. destruct H4 as [[_ ->]|]; [by left|by right].
  - exists rep, O, None. split_and!; try done; [|by left]. intros h r r' _ E1 E2. rewrite E1 in E2. injection E2 as ->. lia.
Qed.

Lemma frame_total f min_f max_f : mx !! f = Some max_f -> (min_f <= all)%nat -> cnt f 0 min_f + cnt f min_f (min_f + (max_f - min_f)) = cnt f 0 all.
Proof.
  intros Em Hmin. assert (max_f <= all)%nat as Hmax by (by apply (proj1 (Forall_lookup _ _) Hmx f)). rewrite <- (cnt_split f 0 min_f) by lia. rewrite (cnt_split f 0 (min_f + (max_f - min_f)) all) by lia.
  rewrite (cnt_none f (min_f + (max_f - min_f)) all); [lia|]. intros i e Hi E Hfr. pose proof (Hall i e f max_f E Hfr Em). lia.
Qed.

Lemma frames_loop_behaves n f nbe w c mins rep :
  (f + n)%nat = nb -> length mins = nb -> length rep = nb -> drop f mins = drop f rep -> rep_ok f mx rep -> w = tot 0 (replicate f all ++ drop f mins) ->
  exists bs w' c' mins', exact (fun data len buf pos => frames_loop n f nb data len nbe exts rep mx (mk_out buf pos w c mins)) bs (fun buf pos => mk_out buf pos w' c' mins') /\ w' = tot 0 (replicate nb all).
Proof.
  revert f w c mins rep. induction n as [|n IH]; intros f w c mins rep Hf Hlm Hlr Hd Hok Hw; cbn [frames_loop].
  { exists [], w, c, mins. split; [apply exact_ret|]. rewrite Hw, drop_ge, app_nil_r by lia. f_equal. f_equal. lia. }
  destruct (both_some rep f Hlr ltac:(lia)) as (min_f & max_f & Er & Em & Hmax). pose proof (f_equal (fun l : list nat => l !! 0%nat) Hd) as Emin. rewrite !lookup_drop, Nat.add_0_r, Er in Emin.
  destruct (Hok f min_f max_f ltac:(lia) Er Em) as [Hmin _]. cbn [o_min_idx]. rewrite Emin, Em. cbn [defined bind ret].
  destruct (frame_scan f min_f max_f rep ltac:(lia) Hlr Hok Hmin Hmax) as (rep' & rc & lli & -> & H1 & H2 & H3 & H4). cbn [defined bind ret].
  assert (forall h m, (S f <= h)%nat -> mins !! h = Some m -> rep !! h = Some m) as Hsame.
  { intros h m Hh. replace h with (f + (h - f))%nat by lia. rewrite <- !lookup_drop. by rewrite Hd. }
  destruct (loop_behaves (max_f - min_f) min_f f nbe max_f rc lli w c mins rep' ltac:(lia) ltac:(lia) ltac:(lia)) as (b1 & w1 & c1 & mins1 & B1 & B2 & B3 & B4).
  { intros h m r Hh E1 E2. destruct (both_some rep' h H1) as (r2 & m2 & E3 & E4 & _); [apply lookup_lt_Some in E1; lia|]. rewrite E2 in E3. injection E3 as <-. destruct (H2 h r m2 Hh E2 E4) as [Hr _]. pose proof (H3 h m r Hh (Hsame h m Hh E1) E2). lia. }
  assert (drop (S f) mins = drop (S f) rep) as Hd1 by (replace (S f) with (f + 1)%nat by lia; rewrite <- !drop_drop; by rewrite Hd).
  assert (length (take (S f) mins) = S f) as Hlt by (rewrite length_take; lia).
  assert (length mins1 = nb /\ drop (S f) mins1 = drop (S f) rep') as [L1 L2].
  { assert (forall l, length l = nb -> length (take (S f) mins ++ drop (S f) l) = nb /\ drop (S f) (take (S f) mins ++ drop (S f) l) = drop (S f) l) as Hglue.
    { intros l Hl. rewrite length_app, Hlt, length_drop. split; [lia|]. by rewrite drop_app_length' by lia. }
    destruct H4 as [->|(Hrc & k & e & Hk & Hrk & Ek & Hfr)]; [|rewrite (B4 Hrc k e Hk Hrk Ek Hfr); by apply Hglue]. destruct B2 as [->| ->]; [by split|]. by apply Hglue. }
  assert (w1 = tot 0 (replicate (S f) all ++ drop (S f) mins1)) as Hw1.
  { rewrite replicate_S_end, <- (assoc_L (++)). rewrite tot_app in Hw |- *. cbn [app tot]. rewrite (drop_S mins min_f f Emin) in Hw. cbn [tot] in Hw. rewrite length_replicate in *. rewrite Nat.add_0_l in *. pose proof (frame_total f min_f max_f Em Hmin). lia. }
  destruct (IH (S f) w1 c1 mins1 rep' ltac:(lia) L1 H1 L2 H2 Hw1) as (b2 & w2 & c2 & mins2 & I1 & I2). exists (b1 ++ b2), w2, c2, mins2. split; [|done].
  rewrite Hlm in B1. exact (exact_bind _ (fun data len s => frames_loop n (S f) nb data len nbe exts rep' mx s) _ _ _ _ B1 I1).
Qed.

End exts.

(** ** The first and the last extension of every frame *)

Definition in_packet (nb : nat) (e : extension) : Prop := 0 <= x_frame e < Z.of_nat nb.

#[export] Instance in_packet_dec nb e : Decision (in_packet nb e).
Proof. unfold in_packet. apply _. Defined.

(** What the loop knows of the first [i] extensions. *)
Record indexed (exts : list extension) (i : nat) (mn mx : list nat) (nb : nat) : Prop := {
  ix_length : length mn = nb /\ length mx = nb;
  ix_seen : forall j e h a b, (j < i)%nat -> exts !! j = Some e -> x_frame e = Z.of_nat h -> mn !! h = Some a -> mx !! h = Some b -> (a <= j < b)%nat;
  ix_first : forall h a b, mn !! h = Some a -> mx !! h = Some b -> (b <= i)%nat /\ (a = length exts \/ (a < length exts)%nat /\ exists e, exts !! a = Some e /\ x_frame e = Z.of_nat h)
}.

Lemma index_returns exts l i mn mx nb :
  indexed exts i mn mx nb -> drop i exts = l -> (i <= length exts)%nat -> Forall ext_fine exts ->
  if decide (Forall (in_packet nb) l) then exists mn' mx', index_loop l i mn mx nb = Some (Some (mn', mx')) /\ indexed exts (length exts) mn' mx' nb
  else index_loop l i mn mx nb = Some None.
Proof.
  intros Hix Hl Hi0 Hfine. revert i mn mx Hix Hl Hi0. induction l as [|e l IH]; intros i mn mx Hix Hl Hi0; cbn [index_loop].
  { rewrite decide_True by constructor. exists mn, mx. split; [done|]. apply (f_equal length) in Hl. rewrite length_drop in Hl. cbn in Hl. destruct Hix as [H1 H2 H3]. split; [done| |].
    - intros j e h a b Hj E. apply (H2 j e). apply lookup_lt_Some in E. lia. done.
    - intros h a b Ea Eb. destruct (H3 h a b Ea Eb). split; [lia|done]. }
  assert (exts !! i = Some e) as Ei by (apply (f_equal (fun l : list extension => l !! 0%nat)) in Hl; rewrite lookup_drop, Nat.add_0_r in Hl; done).
  destruct (decide (in_packet nb e)) as [Hp|Hp].
  2: { rewrite decide_False by (intros HF; by inversion HF). unfold in_packet in Hp. by rewrite decide_True by lia. }
  unfold in_packet in Hp. rewrite (decide_False (P := x_frame e < 0 \/ _)) by lia. destruct (proj1 (Forall_lookup _ _) Hfine i e Ei) as [Hid _ _]. rewrite (decide_False (P := x_id e < 3 \/ _)) by lia. set (f := Z.to_nat (x_frame e)).
  pose proof Hix as [[L1 L2] Hseen Hfirst]. destruct (lookup_lt_is_Some_2 mn f) as [a Ea]; [lia|]. destruct (lookup_lt_is_Some_2 mx f) as [b Eb]; [lia|]. rewrite Ea, Eb. mred.
  rewrite (decide_ext (Forall (in_packet nb) (e :: l)) (Forall (in_packet nb) l)) by (split; [by inversion 1|by constructor]).
  pose proof (lookup_lt_Some _ _ _ Ei) as Hi. apply IH; [|replace (S i) with (i + 1)%nat by lia; rewrite <- drop_drop, Hl; done|lia]. destruct (Hfirst f a b Ea Eb) as [Hb Ha]. split.
  - by rewrite !length_insert.
  - intros j e' h a' b' Hj E Hfr Ea' Eb'. destruct (decide (h = f)) as [->|Hne].
    + rewrite list_lookup_insert_eq in Ea', Eb' by lia. injection Ea' as <-. injection Eb' as <-. destruct (decide (j = i)) as [->|]; [lia|]. pose proof (Hseen j e' f a b ltac:(lia) E Hfr Ea Eb). lia.
    + rewrite list_lookup_insert_ne in Ea', Eb' by done. destruct (decide (j = i)) as [->|]; [|apply (Hseen j e' h); (done || lia)]. rewrite Ei in E. injection E as <-. unfold f in Hne. lia.
  - intros h a' b' Ea' Eb'. destruct (decide (h = f)) as [->|Hne].
    + rewrite list_lookup_insert_eq in Ea', Eb' by lia. injection Ea' as <-. injection Eb' as <-. split; [lia|]. right. split; [lia|]. destruct (decide (a <= i)%nat) as [Hai|Hai].
      * replace (Nat.min a i) with a by lia. destruct Ha as [->|[_ Ha]]; [lia|done].
      * replace (Nat.min a i) with i by lia. exists e. split; [done|]. unfold f. lia.
    + rewrite list_lookup_insert_ne in Ea', Eb' by done. destruct (Hfirst h a' b' Ea' Eb'). split; [lia|done].
Qed.

Lemma indexed_start exts nb : indexed exts 0 (replicate nb (length exts)) (replicate nb O) nb.
Proof. split; [by rewrite !length_replicate|intros; lia|]. intros h a b Ea Eb. apply lookup_replicate in Ea as [-> _]. apply lookup_replicate in Eb as [-> _]. split; [lia|by left]. Qed.

(** Nothing is below the first extension of a frame, and all of them are below the end. *)
Lemma tot_start exts mn mx nb k idx : indexed exts (length exts) mn mx nb -> drop k mn = idx -> tot exts k idx = 0.
Proof.
  intros Hix. revert k. induction idx as [|m idx IH]; intros k Hd; cbn [tot]; [done|]. pose proof (f_equal (fun l : list nat => l !! 0%nat) Hd) as Em. rewrite lookup_drop, Nat.add_0_r in Em. cbn in Em.
  rewrite IH by (replace (S k) with (k + 1)%nat by lia; rewrite <- drop_drop, Hd; done). rewrite cnt_none; [done|]. intros i e Hi E Hfr. destruct (ix_length _ _ _ _ _ Hix) as [L1 L2]. destruct (lookup_lt_is_Some_2 mx k) as [b Eb]; [apply lookup_lt_Some in Em; lia|].
  pose proof (ix_seen _ _ _ _ _ Hix i e k m b (lookup_lt_Some _ _ _ E) E Hfr Em Eb). lia.
Qed.

Lemma tot_replicate_app exts1 exts2 k n : tot (exts1 ++ exts2) k (replicate n (length (exts1 ++ exts2))) = tot exts1 k (replicate n (length exts1)) + tot exts2 k (replicate n (length exts2)).
Proof.
  revert k. induction n as [|n IH]; intros k; [done|]. cbn [replicate tot]. rewrite IH. unfold cnt. rewrite !Nat.sub_0_r, !drop_0, !take_ge by lia. rewrite list.filter_app, length_app. lia.
Qed.

Lemma tot_one e k n : tot [e] k (replicate n 1%nat) = if decide (Z.of_nat k <= x_frame e < Z.of_nat (k + n)) then 1 else 0.
Proof.
  revert k. induction n as [|n IH]; intros k; cbn [replicate tot]; [by rewrite decide_False by lia|]. rewrite IH, (cnt_step [e] k 0 e) by done. repeat case_decide; lia.
Qed.

Lemma tot_all exts nb : Forall (in_packet nb) exts -> tot exts 0 (replicate nb (length exts)) = zlen exts.
Proof.
  induction 1 as [|e exts He _ IH].
  - generalize 0%nat at 1. induction nb as [|nb IH]; intros k; [done|]. cbn [replicate tot length]. rewrite IH. done.
  - change (e :: exts) with ([e] ++ exts). rewrite tot_replicate_app, IH. cbn [length]. rewrite tot_one, decide_True by (unfold in_packet in He; lia). rewrite length_app. cbn [length]. lia.
Qed.

(** Everything is written once, and the bytes do not depend on where they are written. *)
Lemma generate_behaves exts nb :
  Forall ext_fine exts -> (nb <= 48)%nat -> Forall (in_packet nb) exts ->
  exists bs, forall data len buf, room data len buf -> 0 <= len ->
    if decide (zlen bs <= len) then opus_packet_extensions_generate data buf len exts (Z.of_nat nb) false = ret (stores data buf 0 bs, zlen bs)
    else exists buf', opus_packet_extensions_generate data buf len exts (Z.of_nat nb) false = fail OPUS_BUFFER_TOO_SMALL buf' /\ spoiled data len buf buf'.
Proof.
  intros Hfine Hnb Hin. pose proof (index_returns exts exts 0 _ _ nb (indexed_start exts nb) eq_refl ltac:(lia) Hfine) as Hix. rewrite decide_True in Hix by done. destruct Hix as (mn & mx & Eix & Hix).
  destruct (ix_length _ _ _ _ _ Hix) as [L1 L2].
  assert (Forall (fun m => (m <= length exts)%nat) mx) as Hmx.
  { apply Forall_lookup. intros h b Eb. destruct (lookup_lt_is_Some_2 mn h) as [a Ea]; [apply lookup_lt_Some in Eb; lia|]. by apply (ix_first _ _ _ _ _ Hix h a b). }
  assert (forall i e h m, exts !! i = Some e -> x_frame e = Z.of_nat h -> mx !! h = Some m -> (i < m)%nat) as Hall.
  { intros i e h b E Hfr Eb. destruct (lookup_lt_is_Some_2 mn h) as [a Ea]; [apply lookup_lt_Some in Eb; lia|]. by apply (ix_seen _ _ _ _ _ Hix i e h a b (lookup_lt_Some _ _ _ E) E Hfr Ea Eb). }
  assert (rep_ok exts 0 mx mn) as Hok.
  { intros h a b _ Ea Eb. destruct (ix_first _ _ _ _ _ Hix h a b Ea Eb) as [Hb [->|[Ha He]]]; (split; [lia|]); [by left|by right]. }
  destruct (frames_loop_behaves exts Hfine mx Hmx Hall nb 0 (zlen exts) 0 0 mn mn) as (bs & w & c & mins & [_ H] & Hw); [lia|lia|lia|done|done|symmetry; exact (tot_start exts mn mx nb 0 mn Hix eq_refl)|].
  exists bs. intros data len buf Hr Hl. specialize (H data len buf 0 Hr ltac:(lia)). rewrite Z.add_0_l in H. unfold opus_packet_extensions_generate. rewrite bool_decide_true by lia. cbn [celt_assert defined bind ret]. rewrite (decide_False (P := Z.of_nat nb > 48)) by lia.
  rewrite Nat2Z.id. cbv zeta. rewrite Eix. cbn [defined bind ret]. rewrite L2 in *. destruct (decide (zlen bs <= len)).
  - rewrite H. cbn [bind ret o_written o_buf o_pos]. rewrite Hw, tot_all by done. rewrite bool_decide_true by done. done.
  - destruct H as (buf' & -> & Hs). exists buf'. by split.
Qed.

(** C13 What the generator of extensions counts without a buffer is what it writes into one.  For
    extensions with payloads of the lengths that their identifiers allow it never fails an
    assertion or leaves the area: there are bytes such that every run with room for them, in
    any buffer or in none, gives exactly these bytes, also when there is just enough room;
    with less room it reports this and touches only the area; an extension of a frame that the
    packet does not have is a bad argument, before anything is written. *)
Theorem extensions_generated exts nb :
  Forall ext_fine exts -> (nb <= 48)%nat ->
  if decide (Forall (in_packet nb) exts) then
    exists bs, forall len, 0 <= len ->
      (forall buf, opus_packet_extensions_generate None buf len exts (Z.of_nat nb) false = if decide (zlen bs <= len) then ret (buf, zlen bs) else fail OPUS_BUFFER_TOO_SMALL buf) /\
      (forall pre area post, zlen area = len ->
        if decide (zlen bs <= len) then opus_packet_extensions_generate (Some (zlen pre)) (pre ++ area ++ post) len exts (Z.of_nat nb) false = ret (pre ++ bs ++ drop (length bs) area ++ post, zlen bs)
        else exists area', length area' = length area /\ opus_packet_extensions_generate (Some (zlen pre)) (pre ++ area ++ post) len exts (Z.of_nat nb) false = fail OPUS_BUFFER_TOO_SMALL (pre ++ area' ++ post))
  else forall data buf len, 0 <= len -> opus_packet_extensions_generate data buf len exts (Z.of_nat nb) false = fail OPUS_BAD_ARG buf.
Proof.
  intros Hfine Hnb. destruct (decide (Forall (in_packet nb) exts)) as [Hin|Hin].
  - destruct (generate_behaves exts nb Hfine Hnb Hin) as [bs H]. exists bs. intros len Hlen. split.
    + intros buf. specialize (H None len buf I Hlen). destruct (decide (zlen bs <= len)); [exact H|]. by destruct H as (buf' & -> & ->).
    + intros pre area post Ha. assert (room (Some (zlen pre)) len (pre ++ area ++ post)) as Hr by (cbn [room]; rewrite !length_app; lia). specialize (H _ len _ Hr Hlen). destruct (decide (zlen bs <= len)).
      * rewrite H. cbn [stores]. rewrite Z.add_0_r, Nat2Z.id, take_app_length. replace (Z.to_nat (zlen pre + zlen bs)) with (length pre + length bs)%nat by lia. rewrite drop_app_add', drop_app_le by lia. done.
      * destruct H as (buf' & -> & (H1 & H2 & H3)). exists (take (length area) (drop (length pre) buf')). rewrite !length_app in H1. split; [rewrite length_take, length_drop; lia|].
        rewrite Nat2Z.id, take_app_length in H2. replace (Z.to_nat (zlen pre + len)) with (length pre + length area)%nat in H3 by lia. rewrite drop_app_add', drop_app_length in H3 by done. unfold fail. do 3 f_equal.
        rewrite <- (take_drop (length pre) buf') at 1. rewrite H2, <- (take_drop_at (length pre) (length area) buf'), H3 at 1. done.
  - pose proof (index_returns exts exts 0 _ _ nb (indexed_start exts nb) eq_refl ltac:(lia) Hfine) as Hix. rewrite decide_False in Hix by done. intros data buf len Hl.
    unfold opus_packet_extensions_generate. rewrite bool_decide_true by lia. cbn [celt_assert defined bind ret]. rewrite decide_False by lia. rewrite Nat2Z.id. cbv zeta. by rewrite Hix.
Qed.

(** Two frames with the same extensions, the second of which is repeated by the mark. *)
Lemma extensions_generated_witness :
  let exts := [mk_extension 5 0 (There [7] 0) 1; mk_extension 40 0 (There [1; 2; 3] 0) 3; mk_extension 5 1 (There [8] 0) 1; mk_extension 40 1 (There [4; 5] 0) 2] in
  exists bs, opus_packet_extensions_generate None [] 20 exts 2 false = ret ([], zlen bs) /\
    opus_packet_extensions_generate (Some 1) (9 :: replicate 20 0 ++ [9]) 20 exts 2 false = ret (9 :: bs ++ drop (length bs) (replicate 20 0) ++ [9], zlen bs).
Proof.
  intros exts. assert (Forall ext_fine exts) as Hf.
  { unfold exts. repeat (apply Forall_cons_2; [split; [cbn; lia..|cbn; eexists _, _, _; by split]|]). by apply Forall_nil. }
  pose proof (extensions_generated exts 2 Hf ltac:(lia)) as H.
  rewrite decide_True in H by (repeat constructor; vm_compute; intuition congruence). destruct H as [bs H]. exists bs. destruct (H 20 ltac:(lia)) as [H1 H2].
  specialize (H1 []). specialize (H2 [9] (replicate 20 0) [9] eq_refl). destruct (decide (zlen bs <= 20)); [by split|]. vm_compute in H1. discriminate H1.
Defined.

(** The parser finds what was generated; the second frame repeats the extensions of the first one
    and has another one. *)
Example example_generated :
  match opus_packet_extensions_generate (Some 1) (9 :: replicate 16 0) 16
          [mk_extension 5 0 (There [7] 0) 1; mk_extension 5 1 (There [8] 0) 1; mk_extension 40 0 (There [1; 2; 3] 0) 3; mk_extension 40 1 (There [4; 5] 0) 2; mk_extension 40 1 (There [6] 0) 1] 2 false with
  | Some (inr (buf, n)) =>
    buf = [9; 11; 7; 81; 3; 1; 2; 3; 5; 8; 2; 4; 5; 2; 80; 6; 0] /\ n = 15 /\
    opus_packet_extensions_parse (take 15 (drop 1 buf)) 5 2 = Some (0, [mk_ext 5 0 1 1; mk_ext 40 0 4 3; mk_ext 5 1 8 1; mk_ext 40 1 10 2; mk_ext 40 1 14 1])
  | _ => False end.
Proof. vm_compute. repeat split. Qed.
