(* ===== verification/Repacketizer.v ===== *)
(** * The repacketizer [src/repacketizer.c of opus-main]

    Frames of several packets are collected by reference and written as one packet; adding and
    removing padding is the same with one packet, in place.  The packet that is written may lie
    in the buffer that the frames are in. *)

From S2P Require Import Prelude OpusPacket OpusExt OpusExtWrite.
#[local] Open Scope opus_scope.

(** The arrays of the structure hold the first [rp_nb_frames] elements. *)
Record OpusRepacketizer := mk_rp {
  rp_toc : Z;
  rp_nb_frames : Z;
  rp_frames : list src;
  rp_len : list Z;
  rp_framesize : Z;
  rp_paddings : list (option src);
  rp_padding_len : list Z;
  rp_padding_nb_frames : list Z
}.

Definition opus_repacketizer_init (rp : OpusRepacketizer) : OpusRepacketizer :=
  mk_rp (rp_toc rp) 0 [] [] (rp_framesize rp) [] [] [].

Definition opus_repacketizer_get_nb_frames (rp : OpusRepacketizer) : Z := rp_nb_frames rp.

(** A structure on the stack. *)
Definition no_repacketizer : OpusRepacketizer := mk_rp 0 0 [] [] 0 [] [] [].

(** ** Collecting frames *)

(** The packet is read at [data] in [mem]; [at_] makes a pointer of an offset. *)
Definition opus_repacketizer_cat_impl (rp : OpusRepacketizer) (mem : list Z) (at_ : Z -> src) (data len : Z) (self_delimited : bool)
  : option (Z * OpusRepacketizer) :=
  if decide (len < 1) then Some (OPUS_INVALID_PACKET, rp) else
  toc ← ld8 mem data;
  framesize ← opus_packet_get_samples_per_frame mem data 8000;
  let first := bool_decide (rp_nb_frames rp = 0) in
  if negb first && bool_decide (Z.land (rp_toc rp) 0xFC <> Z.land toc 0xFC) then Some (OPUS_INVALID_PACKET, rp) else
  let rp := if first then mk_rp toc (rp_nb_frames rp) (rp_frames rp) (rp_len rp) framesize (rp_paddings rp) (rp_padding_len rp) (rp_padding_nb_frames rp) else rp in
  curr_nb_frames ← opus_packet_get_nb_frames mem data len;
  if decide (curr_nb_frames < 1) then Some (OPUS_INVALID_PACKET, rp) else
  if decide ((curr_nb_frames + rp_nb_frames rp) * rp_framesize rp > 960) then Some (OPUS_INVALID_PACKET, rp) else
  r ← opus_packet_parse_impl mem data len self_delimited;
  match r with
  | inl err => Some (err, rp)
  | inr (count, p) =>
    if decide (count < 1) then Some (count, rp) else
    if decide (rp_nb_frames rp + count > 48) then None else
    let n := Z.to_nat curr_nb_frames in
    Some (OPUS_OK, mk_rp (rp_toc rp) (rp_nb_frames rp + curr_nb_frames) (rp_frames rp ++ (at_ <$> take n (pk_frames p))) (rp_len rp ++ take n (pk_size p)) (rp_framesize rp)
      (rp_paddings rp ++ Some (at_ (pk_padding p)) :: replicate (n - 1) None)
      (rp_padding_len rp ++ pk_padding_len p :: replicate (n - 1) 0)
      (rp_padding_nb_frames rp ++ count :: replicate (n - 1) 0))
  end.

(** The packet stays in a memory of its own. *)
Definition opus_repacketizer_cat (rp : OpusRepacketizer) (mem : list Z) (data len : Z) : option (Z * OpusRepacketizer) :=
  opus_repacketizer_cat_impl rp mem (There mem) data len false.

(** ** The extensions of the frames that are written *)

(** The padding of frame [i]. *)
Definition padding_of (buf : list Z) (rp : OpusRepacketizer) (i : nat) : option (list Z) :=
  p ← rp_paddings rp !! i;
  n ← rp_padding_len rp !! i;
  match p with None => if decide (n = 0) then Some [] else None | Some s => load buf s n end.

Definition src_add (s : src) (n : Z) : src := match s with Here o => Here (o + n) | There b o => There b (o + n) end.

(** The number of extensions of [n] frames from [i] on. *)
Fixpoint count_extensions (n i : nat) (buf : list Z) (rp : OpusRepacketizer) (total : Z) : option Z :=
  match n with
  | O => Some total
  | S n =>
    d ← padding_of buf rp i;
    nf ← rp_padding_nb_frames rp !! i;
    c ← opus_packet_extensions_count d nf;
    count_extensions n (S i) buf rp (if decide (c > 0) then total + c else total)
  end.

(** What is added to the list, with new frame numbers. *)
Definition renumbered (s : option src) (shift : Z) (e : opus_extension_data) : extension :=
  mk_extension (ext_id e) (ext_frame e + shift) (match s with Some s => src_add s (ext_data e) | None => There [] 0 end) (ext_len e).

(** The extensions themselves; [None] inside is an error of the parser. *)
Fixpoint gather_extensions (n i begin : nat) (buf : list Z) (rp : OpusRepacketizer) (total_ext_count : Z) (exts : list extension) : option (option (list extension)) :=
  match n with
  | O => Some (Some exts)
  | S n =>
    d ← padding_of buf rp i;
    nf ← rp_padding_nb_frames rp !! i;
    s ← rp_paddings rp !! i;
    '(r, es) ← opus_packet_extensions_parse d (total_ext_count - zlen exts) nf;
    if decide (r < 0) then Some None
    else gather_extensions n (S i) begin buf rp total_ext_count (exts ++ (renumbered s (Z.of_nat i - Z.of_nat begin) <$> es))
  end.

(** ** Writing a packet *)

(** [1 + (size >= 252)]: the bytes of a length. *)
Definition size_size (n : Z) : Z := 1 + (if decide (n >= 252) then 1 else 0).

(** [*ptr++ = b]. *)
Definition emit (buf : list Z) (ptr b : Z) : result (list Z * Z) := buf <~ defined (st8 buf ptr (u8 b)); ret (buf, ptr + 1).

Definition emit_size (buf : list Z) (ptr n : Z) : result (list Z * Z) := '(k, buf) <~ defined (encode_size n buf ptr); ret (buf, ptr + k).

Fixpoint emit_sizes (buf : list Z) (ptr : Z) (ns : list Z) : result (list Z * Z) :=
  match ns with [] => ret (buf, ptr) | n :: ns => '(buf, ptr) <~ emit_size buf ptr n; emit_sizes buf ptr ns end.

(** The codes 0 to 2; for more frames nothing is written yet. *)
Definition write_plain (rp : OpusRepacketizer) (lens : list Z) (buf : list Z) (data maxlen tot_size : Z) : result (list Z * Z * Z) :=
  let toc := Z.land (rp_toc rp) 0xFC in
  match lens with
  | [len0] =>
    let tot_size := tot_size + (len0 + 1) in
    if decide (tot_size > maxlen) then fail OPUS_BUFFER_TOO_SMALL buf else
    '(buf, ptr) <~ emit buf data toc; ret (buf, ptr, tot_size)
  | [len0; len1] =>
    if decide (len1 = len0) then
      let tot_size := tot_size + (2 * len0 + 1) in
      if decide (tot_size > maxlen) then fail OPUS_BUFFER_TOO_SMALL buf else
      '(buf, ptr) <~ emit buf data (Z.lor toc 1); ret (buf, ptr, tot_size)
    else
      let tot_size := tot_size + (len0 + len1 + 2 + (if decide (len0 >= 252) then 1 else 0)) in
      if decide (tot_size > maxlen) then fail OPUS_BUFFER_TOO_SMALL buf else
      '(buf, ptr) <~ emit buf data (Z.lor toc 2);
      '(buf, ptr) <~ emit_size buf ptr len0;
      ret (buf, ptr, tot_size)
  | _ => ret (buf, data, tot_size)
  end.

(** What code 3 leaves for the rest of the function. *)
Record code3 := mk_code3 { c3_buf : list Z; c3_ptr : Z; c3_tot_size : Z; c3_ext_begin : Z; c3_ext_len : Z; c3_ones_begin : Z; c3_ones_end : Z }.

(** The length of the padding: bytes of 255, then the rest. *)
Definition write_padding_length (buf : list Z) (data ptr maxlen tot_size pad_amount ext_len : Z) : result code3 :=
  if decide (pad_amount <> 0) then
    b <~ defined (ld8 buf (data + 1));
    buf <~ defined (st8 buf (data + 1) (Z.lor b 0x40));
    let nb_255s := Z.quot (pad_amount - 1) 255 in
    if decide (tot_size + ext_len + nb_255s + 1 > maxlen) then fail OPUS_BUFFER_TOO_SMALL buf else
    let ext_begin := tot_size + pad_amount - ext_len in
    '(buf, ptr) <~ write_255s (Z.to_nat nb_255s) (Some 0) buf ptr;
    '(buf, ptr) <~ emit buf ptr (pad_amount - 255 * nb_255s - 1);
    ret (mk_code3 buf ptr (tot_size + pad_amount) ext_begin ext_len (tot_size + nb_255s + 1) ext_begin)
  else ret (mk_code3 buf ptr tot_size 0 ext_len 0 0).

(** The first two bytes: with the buffer and the pointer, the size of the packet and whether the
    lengths differ. *)
Definition code3_head (rp : OpusRepacketizer) (lens : list Z) (buf : list Z) (data maxlen sd_size : Z) : result (list Z * Z * Z * bool) :=
  let toc := Z.land (rp_toc rp) 0xFC in
  let count := zlen lens in
  len0 <~ defined (head lens);
  let vbr := existsb (fun n => negb (n =? len0)) (tail lens) in
  let tot_size := sd_size + (if vbr then 2 + foldr (fun n t => size_size n + n + t) 0 (removelast lens) + List.last lens 0 else count * len0 + 2) in
  if decide (tot_size > maxlen) then fail OPUS_BUFFER_TOO_SMALL buf else
  '(buf, ptr) <~ emit buf data (Z.lor toc 3);
  '(buf, ptr) <~ emit buf ptr (if vbr then Z.lor count 0x80 else count);
  ret (buf, ptr, tot_size, vbr).

Definition write_code3 (rp : OpusRepacketizer) (lens : list Z) (buf : list Z) (data maxlen sd_size : Z) (pad : bool) (exts : list extension) : result code3 :=
  '(buf, ptr, tot_size, vbr) <~ code3_head rp lens buf data maxlen sd_size;
  ext_len <~ (if decide (zlen exts > 0) then '(_, n) <~ opus_packet_extensions_generate None buf (maxlen - tot_size) exts (zlen lens) false; ret n else ret 0);
  let pad_amount := if pad then maxlen - tot_size
    else if decide (zlen exts > 0) then ext_len + (if decide (ext_len = 0) then 1 else Z.quot (ext_len + 253) 254) else 0 in
  c <~ write_padding_length buf data ptr maxlen tot_size pad_amount ext_len;
  if vbr : bool then
    '(buf, ptr) <~ emit_sizes (c3_buf c) (c3_ptr c) (removelast lens);
    ret (mk_code3 buf ptr (c3_tot_size c) (c3_ext_begin c) (c3_ext_len c) (c3_ones_begin c) (c3_ones_end c))
  else ret c.

(** The frames are copied, each from where it was. *)
Fixpoint move_frames (buf : list Z) (ptr : Z) (frames : list src) (lens : list Z) : result (list Z * Z) :=
  match frames, lens with
  | f :: frames, n :: lens => buf <~ defined (OPUS_MOVE buf ptr f n); move_frames buf (ptr + n) frames lens
  | _, _ => ret (buf, ptr)
  end.

(** A loop that stores a byte from [from] up to [to_]. *)
Definition fill (buf : list Z) (from to_ b : Z) : option (list Z) := if decide (from < to_) then splice buf from (replicate (Z.to_nat (to_ - from)) b) else Some buf.

Definition opus_repacketizer_out_range_impl (rp : OpusRepacketizer) (begin end_ : Z) (buf : list Z) (data maxlen : Z) (self_delimited pad : bool)
    (extensions : list extension) : result (list Z * Z) :=
  if decide (begin < 0 \/ begin >= end_ \/ end_ > rp_nb_frames rp) then fail OPUS_BAD_ARG buf else
  let b := Z.to_nat begin in
  let count := Z.to_nat (end_ - begin) in
  let lens := take count (drop b (rp_len rp)) in
  let frames := take count (drop b (rp_frames rp)) in
  let sd_size := if self_delimited then size_size (List.last lens 0) else 0 in
  total_ext_count <~ defined (count_extensions count b buf rp (zlen extensions));
  g <~ defined (gather_extensions count b b buf rp total_ext_count extensions);
  exts <~ match g with None => fail OPUS_INTERNAL_ERROR buf | Some exts => ret exts end;
  '(buf, ptr, tot_size) <~ write_plain rp lens buf data maxlen sd_size;
  c <~ (if (2 <? Z.of_nat count) || (pad && (tot_size <? maxlen)) || (0 <? zlen exts)
        then write_code3 rp lens buf data maxlen sd_size pad exts
        else ret (mk_code3 buf ptr tot_size 0 0 0 0));
  '(buf, ptr) <~ (if self_delimited then emit_size (c3_buf c) (c3_ptr c) (List.last lens 0) else ret (c3_buf c, c3_ptr c));
  '(buf, ptr) <~ move_frames buf ptr frames lens;
  buf <~ (if decide (c3_ext_len c > 0) then
      '(buf, n) <~ defined (match opus_packet_extensions_generate (Some (data + c3_ext_begin c)) buf (c3_ext_len c) exts (Z.of_nat count) false with
                            | Some (inr r) => Some r | _ => None end);
      _ <~ defined (celt_assert (bool_decide (n = c3_ext_len c)));
      ret buf
    else ret buf);
  buf <~ defined (fill buf (data + c3_ones_begin c) (data + c3_ones_end c) 1);
  buf <~ (if pad && bool_decide (zlen exts = 0) then defined (fill buf ptr (data + maxlen) 0) else ret buf);
  ret (buf, c3_tot_size c).

(** What a caller sees: the result and the buffer. *)
Definition outcome (r : result (list Z * Z)) : option (Z * list Z) :=
  match r with None => None | Some (inl (e, buf)) => Some (e, buf) | Some (inr (buf, n)) => Some (n, buf) end.

Definition opus_repacketizer_out_range (rp : OpusRepacketizer) (begin end_ : Z) (buf : list Z) (data maxlen : Z) : option (Z * list Z) :=
  outcome (opus_repacketizer_out_range_impl rp begin end_ buf data maxlen false false []).

Definition opus_repacketizer_out (rp : OpusRepacketizer) (buf : list Z) (data maxlen : Z) : option (Z * list Z) :=
  outcome (opus_repacketizer_out_range_impl rp 0 (rp_nb_frames rp) buf data maxlen false false []).

(** ** Padding in place *)

Definition opus_packet_pad_impl (buf : list Z) (data len new_len : Z) (pad : bool) (extensions : list extension) : option (Z * list Z) :=
  if decide (len < 1) then Some (OPUS_BAD_ARG, buf) else
  if decide (len = new_len) then Some (OPUS_OK, buf) else
  if decide (len > new_len) then Some (OPUS_BAD_ARG, buf) else
  copy ← slice buf data len;
  '(r, rp) ← opus_repacketizer_cat (opus_repacketizer_init no_repacketizer) copy 0 len;
  if decide (r <> OPUS_OK) then Some (r, buf) else
  outcome (opus_repacketizer_out_range_impl rp 0 (rp_nb_frames rp) buf data new_len false pad extensions).

Definition opus_packet_pad (buf : list Z) (data len new_len : Z) : option (Z * list Z) :=
  '(r, buf) ← opus_packet_pad_impl buf data len new_len true [];
  Some (if decide (r > 0) then OPUS_OK else r, buf).

(** The loop that discards paddings. *)
Definition discard_paddings (rp : OpusRepacketizer) : OpusRepacketizer :=
  mk_rp (rp_toc rp) (rp_nb_frames rp) (rp_frames rp) (rp_len rp) (rp_framesize rp)
    ((fun _ => None) <$> rp_paddings rp) ((fun _ => 0) <$> rp_padding_len rp) (rp_padding_nb_frames rp).

Definition opus_packet_unpad (buf : list Z) (data len : Z) : option (Z * list Z) :=
  if decide (len < 1) then Some (OPUS_BAD_ARG, buf) else
  '(r, rp) ← opus_repacketizer_cat_impl (opus_repacketizer_init no_repacketizer) buf Here data len false;
  if decide (r < 0) then Some (r, buf) else
  '(r, buf) ← outcome (opus_repacketizer_out_range_impl (discard_paddings rp) 0 (rp_nb_frames rp) buf data len false false []);
  _ ← celt_assert (bool_decide (0 < r <= len));
  Some (r, buf).

(** ** Packets of several streams *)

(** The loop that seeks the last stream; an error, or the offset and the bytes left. *)
Fixpoint seek_last (n : nat) (buf : list Z) (data len : Z) : option (Z + Z * Z) :=
  match n with
  | O => Some (inr (data, len))
  | S n =>
    if decide (len <= 0) then Some (inl OPUS_INVALID_PACKET) else
    r ← opus_packet_parse_impl buf data len true;
    match r with
    | inl e => Some (inl e)
    | inr (_, p) => seek_last n buf (data + pk_packet_offset p) (len - pk_packet_offset p)
    end
  end.

Definition opus_multistream_packet_pad (buf : list Z) (data len new_len nb_streams : Z) : option (Z * list Z) :=
  if decide (len < 1) then Some (OPUS_BAD_ARG, buf) else
  if decide (len = new_len) then Some (OPUS_OK, buf) else
  if decide (len > new_len) then Some (OPUS_BAD_ARG, buf) else
  r ← seek_last (Z.to_nat (nb_streams - 1)) buf data len;
  match r with
  | inl e => Some (e, buf)
  | inr (data, len') => opus_packet_pad buf data len' (len' + (new_len - len))
  end.

(** The loop over the streams from [s] on, [n] of them. *)
Fixpoint unpad_loop (n : nat) (buf : list Z) (dst dst_len data len : Z) : option (Z * list Z) :=
  match n with
  | O => Some (dst_len, buf)
  | S n =>
    let self_delimited := match n with O => false | S _ => true end in
    if decide (len <= 0) then Some (OPUS_INVALID_PACKET, buf) else
    r ← opus_packet_parse_impl buf data len self_delimited;
    match r with
    | inl e => Some (e, buf)
    | inr (_, p) =>
      '(r, rp) ← opus_repacketizer_cat_impl (opus_repacketizer_init no_repacketizer) buf Here data (pk_packet_offset p) self_delimited;
      if decide (r < 0) then Some (r, buf) else
      '(r, buf) ← outcome (opus_repacketizer_out_range_impl (discard_paddings rp) 0 (rp_nb_frames rp) buf dst len self_delimited false []);
      if decide (r < 0) then Some (r, buf)
      else unpad_loop n buf (dst + r) (dst_len + r) (data + pk_packet_offset p) (len - pk_packet_offset p)
    end
  end.

Definition opus_multistream_packet_unpad (buf : list Z) (data len nb_streams : Z) : option (Z * list Z) :=
  if decide (len < 1) then Some (OPUS_BAD_ARG, buf) else
  unpad_loop (Z.to_nat nb_streams) buf data 0 data len.
