(* ===== verification/RepackOut.v ===== *)
(** * Filling a buffer from the left

    A buffer is what is left alone, what was written after it, and the old contents after that.
    The steps of the repacketizer that write bytes, and the frames that are moved inside the
    same buffer. *)

From S2P Require Import Prelude OpusPacket OpusPacketFacts OpusExt OpusExtWrite Repacketizer.
#[local] Open Scope opus_scope.

(** [h] written over the start of [old]. *)
Definition filled (pre h old : list Z) : list Z := (pre ++ h) ++ drop (length h) old.

Lemma filled_nil pre old : filled pre [] old = pre ++ old.
Proof. unfold filled. by rewrite app_nil_r. Qed.

Lemma length_filled pre h old : zlen h <= zlen old -> length (filled pre h old) = length (pre ++ old).
Proof. intros H. unfold filled. rewrite !length_app, length_drop. lia. Qed.

Lemma filled_splice pre h old s o :
  o = zlen pre + zlen h -> zlen h + zlen s <= zlen old -> splice (filled pre h old) o s = Some (filled pre (h ++ s) old).
Proof.
  intros -> Hl. unfold filled. rewrite (splice_next (pre ++ h) (drop (length h) old) _ s); [|rewrite length_app; lia|rewrite length_drop; lia].
  rewrite drop_drop, length_app, <- !(assoc_L (++)). done.
Qed.

(** Writing anew over what was written. *)
Lemma filled_again pre h1 h old : (length h1 <= length h)%nat -> zlen h1 <= zlen old -> filled pre h (h1 ++ drop (length h1) old) = filled pre h old.
Proof. intros Hl Ho. unfold filled. f_equal. rewrite drop_app_ge by lia. rewrite drop_drop. f_equal. lia. Qed.

Lemma filled_as_app pre h old : filled pre h old = pre ++ (h ++ drop (length h) old).
Proof. unfold filled. by rewrite (assoc_L (++)). Qed.

(** What is read behind the bytes that were written. *)
Lemma filled_slice pre h old o n : zlen pre + zlen h <= o -> zlen h <= zlen old -> slice (filled pre h old) o n = slice (pre ++ old) o n.
Proof.
  intros Ho Hl. unfold slice. rewrite length_filled by done. case_decide as E; [|done]. do 2 f_equal. unfold filled. rewrite length_app in E.
  rewrite drop_app_ge by (rewrite length_app; lia). rewrite (drop_app_ge pre) by lia. rewrite drop_drop. f_equal. rewrite length_app. lia.
Qed.

Lemma filled_bytes_at pre h old : bytes_at (filled pre h old) (zlen pre) h.
Proof. unfold filled. exists pre, (drop (length h) old). by rewrite <- (assoc_L (++)). Qed.

(** ** Single steps *)

Lemma st8_filled pre h old b o : o = zlen pre + zlen h -> zlen h < zlen old -> is_byte b -> st8 (filled pre h old) o b = Some (filled pre (h ++ [b]) old).
Proof. intros Ho Hl Hb. unfold st. rewrite le_bytes_1 by done. apply filled_splice; [done|]. cbn [length]. lia. Qed.

Lemma emit_filled pre h old b ptr :
  ptr = zlen pre + zlen h -> zlen h < zlen old -> is_byte b -> emit (filled pre h old) ptr b = ret (filled pre (h ++ [b]) old, ptr + 1).
Proof. intros Hp Hl Hb. unfold emit. rewrite wrap_small by exact Hb. rewrite (st8_filled _ _ _ _ _ Hp Hl Hb). done. Qed.

Lemma size_size_length n : size_size n = zlen (size_bytes n).
Proof. unfold size_size. rewrite length_size_bytes. repeat case_decide; lia. Qed.

Lemma emit_size_filled pre h old n ptr :
  ptr = zlen pre + zlen h -> zlen h + zlen (size_bytes n) <= zlen old -> 0 <= n <= 1275 ->
  emit_size (filled pre h old) ptr n = ret (filled pre (h ++ size_bytes n) old, ptr + zlen (size_bytes n)).
Proof.
  intros Hp Hl Hn. unfold emit_size, encode_size. unfold size_bytes in *. case_decide as E; cbn [length] in Hl.
  - rewrite (st8_filled _ _ _ _ _ Hp) by (unfold is_byte; lia). done.
  - rewrite land3. pose proof (Z.mod_pos_bound n 4 ltac:(lia)). rewrite (st8_filled _ _ _ _ _ Hp) by (unfold is_byte; lia). mred.
    rewrite Z.shiftr_div_pow2 by lia. change (2 ^ 2) with 4. replace ((n - (252 + n mod 4)) / 4) with ((n - 252) / 4) by zlia.
    rewrite (st8_filled pre (h ++ [252 + n mod 4]) old _ (ptr + 1)); [|rewrite length_app; cbn [length]; lia|rewrite length_app; cbn [length]; lia|unfold is_byte; zlia].
    mred. by rewrite <- (assoc_L (++)).
Qed.

Lemma emit_sizes_filled pre h old ns ptr :
  ptr = zlen pre + zlen h -> zlen h + zlen (sizes_bytes ns) <= zlen old -> sizes_ok ns ->
  emit_sizes (filled pre h old) ptr ns = ret (filled pre (h ++ sizes_bytes ns) old, ptr + zlen (sizes_bytes ns)).
Proof.
  intros Hp Hl Hns. revert h ptr Hp Hl. induction Hns as [|n ns Hn _ IH]; intros h ptr Hp Hl; cbn [emit_sizes].
  - change (sizes_bytes []) with (@nil Z). rewrite app_nil_r. unfold ret. do 3 f_equal. cbn [length]. lia.
  - unfold sizes_bytes in *. cbn [fmap list_fmap concat] in *. rewrite length_app in Hl. rewrite (emit_size_filled pre h old n ptr Hp) by (lia || exact Hn). cbn [bind ret].
    rewrite IH by (rewrite ?length_app; lia). rewrite <- (assoc_L (++)), length_app. unfold ret. do 3 f_equal. lia.
Qed.

Lemma write_255s_filled k pre h old ptr :
  ptr = zlen pre + zlen h -> zlen h + Z.of_nat k <= zlen old ->
  write_255s k (Some 0) (filled pre h old) ptr = ret (filled pre (h ++ replicate k 255) old, ptr + Z.of_nat k).
Proof.
  revert h ptr. induction k as [|k IH]; intros h ptr Hp Hl; cbn [write_255s].
  - cbn [replicate]. rewrite app_nil_r. unfold ret. do 3 f_equal. lia.
  - unfold write_byte. change (u8 255) with 255. rewrite (st8_filled pre h old 255 (0 + ptr)); [|lia|lia|unfold is_byte; lia]. cbn [defined bind ret].
    rewrite IH by (rewrite ?length_app; cbn [length]; lia). rewrite <- (assoc_L (++)). cbn [replicate app]. unfold ret. do 3 f_equal. lia.
Qed.

(** ** The frames *)

(** Every frame is where it was, or behind the place that it is moved to. *)
Fixpoint sourced (whole : list Z) (ptr : Z) (frames : list src) (fs : list (list Z)) : Prop :=
  match frames, fs with
  | [], [] => True
  | s :: frames, f :: fs => load whole s (zlen f) = Some f /\ match s with Here o => ptr <= o | There _ _ => True end /\ sourced whole (ptr + zlen f) frames fs
  | _, _ => False
  end.

Lemma move_frames_filled pre h old frames fs ptr :
  ptr = zlen pre + zlen h -> zlen h + zlen (concat fs) <= zlen old -> sourced (pre ++ old) ptr frames fs ->
  move_frames (filled pre h old) ptr frames ((fun f : list Z => zlen f) <$> fs) = ret (filled pre (h ++ concat fs) old, ptr + zlen (concat fs)).
Proof.
  revert h frames ptr. induction fs as [|f fs IH]; intros h frames ptr Hp Hl Hs; destruct frames as [|s frames]; try done; cbn [fmap list_fmap move_frames concat] in *.
  - rewrite app_nil_r. unfold ret. do 3 f_equal. cbn [length]. lia.
  - destruct Hs as (Hload & Hpos & Hs). rewrite length_app in Hl. unfold OPUS_MOVE.
    assert (load (filled pre h old) s (zlen f) = Some f) as ->. { destruct s as [o|b o]; [|done]. cbn [load] in *. rewrite filled_slice by lia. done. }
    mred. rewrite (filled_splice pre h old f ptr Hp) by lia. cbn [defined bind ret]. rewrite IH by (rewrite ?length_app; (done || lia)). rewrite <- (assoc_L (++)), length_app. unfold ret. do 3 f_equal. lia.
Qed.

(** * The packet that the repacketizer writes

    For frames whose paddings hold no extension the result is a packet of the format with these
    frames, in the shortest form or padded to the length that was asked for. *)

(** ** The packet *)

Definition config (toc : Z) : Z := Z.land toc 0xFC.
Definition sizes_of (fs : list (list Z)) : list Z := (fun f : list Z => zlen f) <$> fs.

(** Whether the lengths differ. *)
Definition differ (ns : list Z) : bool := match ns with [] => false | n :: ns => existsb (fun m => negb (m =? n)) ns end.

Definition code3_packet (toc : Z) (pad : option (nat * Z)) (fs : list (list Z)) : packet :=
  mk_packet (Z.lor (config toc) 3) (differ (sizes_of fs)) pad fs (replicate (Z.to_nat (pad_amount pad)) 0).

(** The shortest packet with these frames. *)
Definition shortest (toc : Z) (fs : list (list Z)) : packet :=
  match fs with
  | [_] => mk_packet (config toc) false None fs []
  | [f; g] => if decide (zlen g = zlen f) then mk_packet (Z.lor (config toc) 1) false None fs [] else mk_packet (Z.lor (config toc) 2) true None fs []
  | _ => code3_packet toc None fs
  end.

(** The number of bytes that the length of a padding takes, when [n] bytes are to be added. *)
Definition padding_form (n : Z) : option (nat * Z) := if decide (n = 0) then None else Some (Z.to_nat ((n - 1) / 255), (n - 1) mod 255).

(** The packet that is written into [maxlen] bytes. *)
Definition written (self_delimited pad : bool) (toc : Z) (fs : list (list Z)) (maxlen : Z) : packet :=
  if pad && bool_decide (zlen (packet_bytes self_delimited (shortest toc fs)) < maxlen)
  then code3_packet toc (padding_form (maxlen - zlen (packet_bytes self_delimited (code3_packet toc None fs)))) fs
  else shortest toc fs.

Lemma config_low toc c : is_byte toc -> 0 <= c < 4 -> is_byte (Z.lor (config toc) c) /\ Z.land (Z.lor (config toc) c) 3 = c /\ frame_samples (Z.lor (config toc) c) = frame_samples toc.
Proof.
  intros Ht Hc. set (P := fun c t => let x := Z.lor (config t) c in (0 <=? x) && (x <? 256) && (Z.land x 3 =? c) && (frame_samples x =? frame_samples t)).
  assert (P c toc = true) as HP.
  { apply (checkZ_spec 256); [|exact Ht]. assert (c = 0 \/ c = 1 \/ c = 2 \/ c = 3) as [->|[->|[->| ->]]] by lia; by vm_compute. }
  unfold P in HP. unfold is_byte. lia.
Qed.

Lemma config_plain toc : is_byte toc -> config toc = Z.lor (config toc) 0.
Proof. intros _. by rewrite Z.lor_0_r. Qed.

Lemma differ_spec ns : differ ns = false <-> same_size ns.
Proof.
  destruct ns as [|n ns]; cbn [differ]; [split; [intros _; by exists 0|done]|]. split.
  - intros H. exists n. constructor; [done|]. apply Forall_forall. intros m Hm. destruct (decide (m = n)) as [|Hne]; [done|]. exfalso.
    assert (existsb (fun m => negb (m =? n)) ns = true) as Ht; [|by rewrite H in Ht]. apply existsb_exists. exists m. split; [done|]. apply negb_true_iff, Z.eqb_neq, Hne.
  - intros [k Hk]. inversion Hk as [|? ? En Hns]; subst. apply not_true_is_false. intros Ht. apply existsb_exists in Ht as (m & Hm & Hne). rewrite Forall_forall in Hns. rewrite (Hns m) in Hne by done. lia.
Qed.

(** What the collected frames keep to. *)
Record frames_fit (toc : Z) (fs : list (list Z)) : Prop := {
  ff_toc : is_byte toc;
  ff_some : fs <> [];
  ff_frames : Forall frame_ok fs;
  ff_time : frame_samples toc * zlen fs <= 5760
}.

Lemma frames_fit_count toc fs : frames_fit toc fs -> 1 <= zlen fs <= 48.
Proof. intros [H1 H2 _ H4]. pose proof (frame_samples_range toc H1). destruct fs; [done|]. cbn [length] in *. nia. Qed.

Lemma code3_ok toc pad fs : frames_fit toc fs -> match pad with None => True | Some (_, r) => 0 <= r < 255 end -> packet_ok (code3_packet toc pad fs).
Proof.
  intros Hf Hp. pose proof (frames_fit_count _ _ Hf). destruct (config_low toc 3 (ff_toc _ _ Hf) ltac:(lia)) as (H1 & H2 & H3). pose proof (pad_amount_pos pad Hp).
  split; unfold pt_code, pt_count; cbn [code3_packet pt_toc pt_frames pt_padding pt_vbr pt_pad]; try lia; try done.
  - apply Hf.
  - apply Forall_replicate. by vm_compute.
  - intros _. rewrite H3. split; [lia|]. split; [apply Hf|]. intros Hv. by apply differ_spec.
  - rewrite length_replicate. split; [done|lia].
Qed.

Lemma shortest_ok toc fs : frames_fit toc fs -> packet_ok (shortest toc fs) /\ pt_frames (shortest toc fs) = fs /\ pt_padding (shortest toc fs) = [].
Proof.
  intros Hf. pose proof (ff_toc _ _ Hf) as Ht. unfold shortest. destruct fs as [|f [|g [|h fs]]]; try (split; [by apply code3_ok|by split]).
  - split; [|done]. destruct (config_low toc 0 Ht ltac:(lia)) as (H1 & H2 & H3). rewrite Z.lor_0_r in *.
    split; unfold pt_code, pt_count; cbn [pt_toc pt_frames pt_padding pt_vbr pt_pad length]; try lia; try done; try apply Hf. intros _. split; [done|]. split; [done|lia].
  - case_decide as E; (split; [|done]).
    + destruct (config_low toc 1 Ht ltac:(lia)) as (H1 & H2 & H3). split; unfold pt_code, pt_count; cbn [pt_toc pt_frames pt_padding pt_vbr pt_pad length]; try lia; try done; try apply Hf.
      * intros _. split; [done|]. exists (zlen f). unfold packet_sizes. cbn [pt_frames fmap list_fmap]. by repeat constructor.
      * intros _. split; [done|]. split; [done|lia].
    + destruct (config_low toc 2 Ht ltac:(lia)) as (H1 & H2 & H3). split; unfold pt_code, pt_count; cbn [pt_toc pt_frames pt_padding pt_vbr pt_pad length]; try lia; try done; try apply Hf.
Qed.

(** ** Its parts *)

Lemma sizes_of_ok fs : Forall frame_ok fs -> sizes_ok (sizes_of fs).
Proof. intros H. apply Forall_fmap. induction H as [|f fs [_ Hf] _ IH]; constructor; [cbn; lia|done]. Qed.

Lemma first_sizes_ok fs : Forall frame_ok fs -> sizes_ok (removelast (sizes_of fs)).
Proof.
  intros H. apply sizes_of_ok in H. destruct (sizes_of fs) as [|n ns] eqn:E; [done|]. rewrite <- (removelast_app_last (n :: ns) 0) in H by done. by apply Forall_app in H as [H _].
Qed.

Lemma loop_size ns : foldr (fun n t => size_size n + n + t) 0 ns = zlen (sizes_bytes ns) + sum ns.
Proof. induction ns as [|n ns IH]; [done|]. unfold sizes_bytes in *. cbn [foldr fmap list_fmap concat sum]. fold (sum ns). rewrite IH, length_app, size_size_length. lia. Qed.

Lemma sizes_split fs : fs <> [] -> sum (removelast (sizes_of fs)) + last_size (sizes_of fs) = zlen (concat fs).
Proof.
  intros Hne. rewrite <- sum_concat. fold (sizes_of fs). assert (sizes_of fs <> []) as H by (by destruct fs). rewrite <- (removelast_app_last _ 0 H) at 3. rewrite sum_app. unfold last_size. cbn. lia.
Qed.

Lemma same_sum n fs : same_size (sizes_of fs) -> head (sizes_of fs) = Some n -> zlen fs * n = zlen (concat fs).
Proof.
  intros [k Hk] Hh. rewrite <- sum_concat. fold (sizes_of fs). assert (n = k) as -> by (destruct fs; [done|]; cbn in Hh; injection Hh as <-; by inversion Hk). transitivity (sum (replicate (length (sizes_of fs)) k)); [|by rewrite <- (all_same _ _ Hk)].
  rewrite sum_replicate. unfold sizes_of. by rewrite length_fmap.
Qed.

(** The length of a packet. *)
Definition sd_bytes (self_delimited : bool) (p : packet) : list Z := if self_delimited then last_size_bytes p else [].

Lemma packet_length self_delimited p : zlen (packet_bytes self_delimited p) = zlen (header_bytes p) + zlen (sd_bytes self_delimited p) + zlen (concat (pt_frames p)) + zlen (pt_padding p).
Proof. unfold packet_bytes, sd_bytes. rewrite !length_app. lia. Qed.

Lemma count_byte_emitted count (vbr : bool) :
  0 <= count < 64 -> (if vbr then Z.lor count 0x80 else count) = count_byte count None vbr /\ Z.lor (count_byte count None vbr) 0x40 = count_byte count (Some (O, 0)) vbr.
Proof.
  intros Hc. set (P := fun c => (Z.lor c 128 =? c + 0 + 128) && (Z.lor (c + 0 + 128) 64 =? c + 64 + 128) && (Z.lor (c + 0 + 0) 64 =? c + 64 + 0)).
  assert (P count = true) as HP by (apply (checkZ_spec 64); [by vm_compute|done]). unfold P in HP. unfold count_byte. destruct vbr; lia.
Qed.

(** The length of [n] bytes of padding. *)
Lemma padding_form_spec n : 0 <= n -> match padding_form n with None => n = 0 | Some (k, r) => 0 < n /\ 0 <= r < 255 /\ n = 255 * Z.of_nat k + r + 1 /\ Z.of_nat k = (n - 1) / 255 end.
Proof.
  intros Hn. unfold padding_form. case_decide as E; [done|]. pose proof (Z.mod_pos_bound (n - 1) 255 ltac:(lia)). pose proof (Z.div_mod (n - 1) 255 ltac:(lia)). pose proof (Z.div_pos (n - 1) 255 ltac:(lia) ltac:(lia)). lia.
Qed.

Lemma length_padding_form n : 0 <= n -> zlen (pad_bytes (padding_form n)) + pad_amount (padding_form n) = n.
Proof. intros Hn. pose proof (padding_form_spec n Hn) as H. destruct (padding_form n) as [[k r]|]; [rewrite length_pad_bytes; cbn [pad_amount]|cbn]; lia. Qed.

Section packets.
Context (toc : Z) (fs : list (list Z)) (Hf : frames_fit toc fs).
Local Abbreviation lens := (sizes_of fs).

Lemma header_code3 pad : header_bytes (code3_packet toc pad fs) =
  Z.lor (config toc) 3 :: count_byte (zlen fs) pad (differ lens) :: (pad_bytes pad ++ if differ lens then sizes_bytes (removelast lens) else []).
Proof. destruct (config_low toc 3 (ff_toc _ _ Hf) ltac:(lia)) as (_ & H2 & _). unfold header_bytes. rewrite header_of_code3 by done. done. Qed.

(** The two bytes that code 3 starts with, and the size of the packet. *)
Definition code3_size : Z := 2 + (if differ lens then zlen (sizes_bytes (removelast lens)) else 0) + zlen (concat fs).

Lemma code3_length pad : zlen (header_bytes (code3_packet toc pad fs)) + zlen (concat fs) = code3_size + zlen (pad_bytes pad).
Proof. rewrite header_code3. unfold code3_size. cbn [length]. rewrite length_app. destruct (differ lens); cbn [length]; lia. Qed.

End packets.

Section header.
Context (toc : Z) (fs : list (list Z)) (Hf : frames_fit toc fs).
Local Abbreviation lens := (sizes_of fs).
Local Abbreviation code3_size := (code3_size fs).
Context (rp : OpusRepacketizer) (Hrp : rp_toc rp = toc).
Context (pre old : list Z) (data maxlen : Z) (Hdata : data = zlen pre) (Hroom : maxlen <= zlen old).

Lemma code3_start sd h1 :
  (length h1 <= 2)%nat -> zlen h1 <= zlen old -> 0 <= sd ->
  code3_head rp lens (filled pre h1 old) data maxlen sd =
  if decide (sd + code3_size > maxlen) then fail OPUS_BUFFER_TOO_SMALL (filled pre h1 old)
  else ret (filled pre [Z.lor (config toc) 3; count_byte (zlen fs) None (differ lens)] old, data + 2, sd + code3_size, differ lens).
Proof.
  intros Hh1 Hl1 Hsd. unfold code3_head. pose proof (frames_fit_count _ _ Hf) as Hc. pose proof (ff_some _ _ Hf) as Hne. destruct lens as [|n ns] eqn:El; [by destruct fs|]. cbn [head tail defined bind]. rewrite <- El. unfold ret at 1. cbn [bind].
  assert (existsb (fun m => negb (m =? n)) ns = differ lens) as -> by (by rewrite El).
  assert (sd + (if differ lens then 2 + foldr (fun n t => size_size n + n + t) 0 (removelast lens) + List.last lens 0 else zlen lens * n + 2) = sd + code3_size) as ->.
  { unfold RepackOut.code3_size. destruct (differ lens) eqn:Ed.
    - rewrite loop_size. pose proof (sizes_split fs Hne) as Hs. unfold last_size in Hs. lia.
    - pose proof (same_sum n fs (proj1 (differ_spec _) Ed) ltac:(by rewrite El)). unfold sizes_of at 1. rewrite length_fmap. lia. }
  case_decide as Em; [done|]. assert (zlen lens = zlen fs) as -> by (unfold sizes_of; by rewrite length_fmap).
  destruct (config_low toc 3 (ff_toc _ _ Hf) ltac:(lia)) as (H1 & _ & _). destruct (count_byte_emitted (zlen fs) (differ lens) ltac:(lia)) as [-> _].
  destruct (count_byte_read (zlen fs) None (differ lens) ltac:(lia)) as [Hb _]. assert (2 <= zlen old) by (unfold RepackOut.code3_size in Em; destruct (differ lens); lia).
  rewrite filled_as_app, <- filled_nil. rewrite Hrp. fold (config toc). assert (zlen (h1 ++ drop (length h1) old) = zlen old) as Hlo by (rewrite length_app, length_drop; lia).
  rewrite emit_filled by (cbn [length]; (done || lia)). cbn [bind ret app]. rewrite emit_filled by (cbn [length]; (done || lia)). cbn [bind ret app].
  rewrite filled_again by (cbn [length]; lia). unfold ret. do 5 f_equal. lia.
Qed.

Lemma write_padding_length_spec tot n vbr :
  0 <= n -> tot + n <= maxlen -> 2 + zlen (pad_bytes (padding_form n)) <= zlen old ->
  write_padding_length (filled pre [Z.lor (config toc) 3; count_byte (zlen fs) None vbr] old) data (data + 2) maxlen tot n 0 =
    ret (let h := Z.lor (config toc) 3 :: count_byte (zlen fs) (padding_form n) vbr :: pad_bytes (padding_form n) in
         mk_code3 (filled pre h old) (data + zlen h) (tot + n) (if decide (n = 0) then 0 else tot + n) 0
           (if decide (n = 0) then 0 else tot + zlen (pad_bytes (padding_form n))) (if decide (n = 0) then 0 else tot + n)).
Proof.
  intros Hn Ht Hl. pose proof (padding_form_spec n Hn) as Hform. unfold write_padding_length. pose proof (frames_fit_count _ _ Hf) as Hc.
  destruct (count_byte_emitted (zlen fs) vbr ltac:(lia)) as [_ Eor]. destruct (count_byte_read (zlen fs) None vbr ltac:(lia)) as [Hb0 _]. destruct (count_byte_read (zlen fs) (Some (O, 0)) vbr ltac:(lia)) as [Hb1 _].
  destruct (padding_form n) as [[k r]|] eqn:Ef; [|].
  2: { subst n. rewrite decide_False by lia. rewrite !(decide_True (P := 0 = 0)) by lia. unfold ret. cbn [pad_bytes length]. by rewrite Z.add_0_r. }
  rewrite length_pad_bytes in Hl |- *. destruct Hform as (Hpos & Hr & En & Ek). rewrite (decide_True (P := n <> 0)) by lia. rewrite !(decide_False (P := n = 0)) by lia.
  assert (ld8 (filled pre [Z.lor (config toc) 3; count_byte (zlen fs) None vbr] old) (data + 1) = Some (count_byte (zlen fs) None vbr)) as ->.
  { apply (bytes_at_ld8 _ _ _ []); [|exact Hb0]. pose proof (filled_bytes_at pre [Z.lor (config toc) 3; count_byte (zlen fs) None vbr] old) as H. rewrite Hdata. by apply bytes_at_tail in H. }
  cbn [defined bind ret]. rewrite Eor.
  assert (st8 (filled pre [Z.lor (config toc) 3; count_byte (zlen fs) None vbr] old) (data + 1) (count_byte (zlen fs) (Some (O, 0)) vbr) =
    Some (filled pre [Z.lor (config toc) 3; count_byte (zlen fs) (Some (k, r)) vbr] old)) as ->.
  { unfold st. rewrite le_bytes_1 by exact Hb1. unfold filled. cbn [length]. rewrite <- !(assoc_L (++)). cbn [app].
    change (pre ++ Z.lor (config toc) 3 :: count_byte (zlen fs) None vbr :: drop 2 old) with (pre ++ [Z.lor (config toc) 3] ++ [count_byte (zlen fs) None vbr] ++ drop 2 old).
    rewrite (assoc_L (++) pre). rewrite splice_app; [by rewrite <- (assoc_L (++))|rewrite length_app; cbn [length]; lia|done]. }
  cbn [defined bind ret]. rewrite Z.quot_div_nonneg by lia. rewrite <- Ek, Nat2Z.id. rewrite decide_False by lia.
  rewrite write_255s_filled by (cbn [length]; lia). cbn [bind ret app]. rewrite emit_filled; [|cbn [length]; rewrite length_replicate; lia|cbn [length]; rewrite length_replicate; lia|unfold is_byte; lia].
  cbn [bind ret app]. replace (n - 255 * Z.of_nat k - 1) with r by lia. cbn [pad_bytes length]. rewrite length_app, length_replicate. cbn [length]. do 2 f_equal; lia.
Qed.

(** The padding that is written. *)
Definition added (pad : bool) (sd : Z) : Z := if pad then maxlen - (sd + code3_size) else 0.

Lemma write_code3_spec sd h1 pad :
  (length h1 <= 2)%nat -> zlen h1 <= zlen old -> 0 <= sd ->
  write_code3 rp lens (filled pre h1 old) data maxlen sd pad [] =
  if decide (sd + code3_size > maxlen) then fail OPUS_BUFFER_TOO_SMALL (filled pre h1 old)
  else let n := added pad sd in let p := code3_packet toc (padding_form n) fs in
    ret (mk_code3 (filled pre (header_bytes p) old) (data + zlen (header_bytes p)) (sd + code3_size + n) (if decide (n = 0) then 0 else sd + code3_size + n) 0
           (if decide (n = 0) then 0 else sd + code3_size + zlen (pad_bytes (padding_form n))) (if decide (n = 0) then 0 else sd + code3_size + n)).
Proof.
  intros Hh1 Hl1 Hsd. unfold write_code3. rewrite code3_start by done. case_decide as Em; [done|]. cbn [bind ret]. change (zlen (@nil extension)) with 0. rewrite !(decide_False (P := 0 > 0)) by lia. cbn [bind ret].
  cbv zeta. set (n := added pad sd). assert (0 <= n) as Hn by (unfold n, added; destruct pad; lia). assert (sd + code3_size + n <= maxlen) as Hnm by (unfold n, added; destruct pad; lia).
  match goal with |- context [write_padding_length _ _ _ _ _ ?x 0] => replace x with n by (unfold n, added; destruct pad; [done|by rewrite decide_False by lia]) end.
  pose proof (length_padding_form n Hn) as Hform. pose proof (code3_length toc fs Hf (padding_form n)) as Hlen.
  assert (0 <= pad_amount (padding_form n)) as Hpa by (apply pad_amount_pos; pose proof (padding_form_spec n Hn); destruct (padding_form n) as [[k r]|]; [lia|done]).
  assert (2 + zlen (pad_bytes (padding_form n)) + (if differ lens then zlen (sizes_bytes (removelast lens)) else 0) <= zlen old) as Hfit by (unfold RepackOut.code3_size in Hnm; lia).
  rewrite (write_padding_length_spec (sd + code3_size) n (differ lens) Hn Hnm) by (destruct (differ lens); lia). cbn [bind ret]. rewrite (header_code3 toc fs Hf). destruct (differ lens) eqn:Ed; [|by rewrite app_nil_r].
  cbv zeta. cbn [c3_buf c3_ptr c3_tot_size c3_ext_begin c3_ext_len c3_ones_begin c3_ones_end].
  assert (sizes_ok (removelast lens)) as Hsz by (apply first_sizes_ok; apply Hf).
  rewrite emit_sizes_filled; [|lia|cbn [length]; lia|done]. cbn [bind ret app]. unfold ret. do 3 f_equal. cbn [length]. rewrite length_app. lia.
Qed.

Lemma write_plain_spec sd :
  0 <= sd ->
  write_plain rp lens (filled pre [] old) data maxlen sd =
  if decide (2 < zlen fs) then ret (filled pre [] old, data, sd)
  else let h := header_bytes (shortest toc fs) in let n := sd + zlen h + zlen (concat fs) in
    if decide (n > maxlen) then fail OPUS_BUFFER_TOO_SMALL (filled pre [] old) else ret (filled pre h old, data + zlen h, n).
Proof.
  intros Hsd. pose proof (ff_some _ _ Hf) as Hne. pose proof (ff_toc _ _ Hf) as Ht. pose proof (ff_frames _ _ Hf) as Hfr. unfold write_plain. rewrite Hrp. fold (config toc). unfold shortest.
  destruct fs as [|f [|g [|h t]]]; [done| | |by rewrite decide_True by (cbn [length]; lia)].
  - rewrite decide_False by (cbn [length]; lia). cbn [sizes_of fmap list_fmap]. destruct (config_low toc 0 Ht ltac:(lia)) as (H1 & H2 & _). rewrite Z.lor_0_r in *.
    assert (header_bytes (mk_packet (config toc) false None [f] []) = [config toc]) as Eh by (unfold header_bytes, header_of; cbn [pt_toc]; by rewrite decide_True by lia).
    rewrite Eh. cbn [concat length]. rewrite app_nil_r. cbv zeta. replace (sd + Z.of_nat 1 + zlen f) with (sd + (zlen f + 1)) by lia. case_decide; [done|].
    rewrite emit_filled; [|cbn [length]; lia|cbn [length]; lia|done]. cbn [bind ret app]. done.
  - rewrite decide_False by (cbn [length]; lia). cbn [sizes_of fmap list_fmap]. inversion Hfr as [|? ? [_ Hfl] Hfr']; subst. inversion Hfr' as [|? ? [_ Hgl] _]; subst. destruct (decide (zlen g = zlen f)) as [E|E].
    + destruct (config_low (rp_toc rp) 1 Ht ltac:(lia)) as (H1 & H2 & _).
      assert (header_bytes (mk_packet (Z.lor (config (rp_toc rp)) 1) false None [f; g] []) = [Z.lor (config (rp_toc rp)) 1]) as Eh by (unfold header_bytes, header_of; cbn [pt_toc]; by rewrite decide_True by lia).
      rewrite Eh. cbn [concat length]. rewrite app_nil_r, length_app. cbv zeta. replace (sd + Z.of_nat 1 + Z.of_nat (length f + length g)) with (sd + (2 * zlen f + 1)) by lia. case_decide; [done|].
      rewrite emit_filled; [|cbn [length]; lia|cbn [length]; lia|done]. cbn [bind ret app]. done.
    + destruct (config_low (rp_toc rp) 2 Ht ltac:(lia)) as (H1 & H2 & _).
      assert (header_bytes (mk_packet (Z.lor (config (rp_toc rp)) 2) true None [f; g] []) = Z.lor (config (rp_toc rp)) 2 :: size_bytes (zlen f)) as Eh.
      { unfold header_bytes, header_of. cbn [pt_toc]. rewrite decide_False by lia. rewrite decide_True by lia. cbn. by rewrite app_nil_r. }
      rewrite Eh. cbn [concat length]. rewrite app_nil_r, length_app. cbv zeta. pose proof (length_size_bytes (zlen f)) as Hsb.
      replace (sd + Z.of_nat (S (length (size_bytes (zlen f)))) + Z.of_nat (length f + length g)) with (sd + (zlen f + zlen g + 2 + (if decide (zlen f >= 252) then 1 else 0))) by (repeat case_decide; lia).
      match goal with |- context [decide (?n > maxlen)] => destruct (decide (n > maxlen)) as [|Em] end; [done|]. assert (zlen (size_bytes (zlen f)) + 1 <= zlen old) as Ho by (repeat case_decide; lia).
      rewrite emit_filled; [|cbn [length]; lia|cbn [length]; lia|done]. cbn [bind ret app]. rewrite emit_size_filled; [|cbn [length]; lia|cbn [length]; lia|lia]. cbn [bind ret app]. unfold ret. do 3 f_equal. f_equal. lia.
Qed.

End header.

(** * Writing a range of frames

    The stages of [opus_repacketizer_out_range_impl] put together: what it writes when the
    frames that are selected carry no extensions, from another buffer or in place. *)

(** ** Filling up *)

Lemma fill_none buf from to_ b : to_ <= from -> fill buf from to_ b = Some buf.
Proof. intros H. unfold fill. by rewrite decide_False by lia. Qed.

Lemma fill_filled pre h old from k b :
  from = zlen pre + zlen h -> zlen h + Z.of_nat k <= zlen old -> fill (filled pre h old) from (from + Z.of_nat k) b = Some (filled pre (h ++ replicate k b) old).
Proof.
  intros Hf Hk. unfold fill. case_decide as E.
  - replace (Z.to_nat (from + Z.of_nat k - from)) with k by lia. apply filled_splice; [done|]. rewrite length_replicate. lia.
  - assert (k = 0%nat) as -> by lia. cbn [replicate]. by rewrite app_nil_r.
Qed.

Lemma fill_over pre h old from k b1 b2 :
  from = zlen pre + zlen h -> fill (filled pre (h ++ replicate k b1) old) from (from + Z.of_nat k) b2 = Some (filled pre (h ++ replicate k b2) old).
Proof.
  intros Hf. unfold fill, filled. rewrite !length_app, !length_replicate. case_decide as E.
  - replace (Z.to_nat (from + Z.of_nat k - from)) with k by lia. rewrite !(assoc_L (++) pre h), <- !(assoc_L (++) (pre ++ h)).
    rewrite (splice_app (pre ++ h)); [done|rewrite length_app; lia|by rewrite !length_replicate].
  - assert (k = 0%nat) as -> by lia. done.
Qed.

(** Ones are written where the padding is, then zeros. *)
Lemma fill_padding (pad : bool) pre h old data ptr maxlen ob oe k :
  data = zlen pre -> ptr = data + zlen h -> zlen h + Z.of_nat k <= zlen old ->
  (k = 0%nat /\ ob = oe \/ ob = zlen h /\ oe = zlen h + Z.of_nat k) -> (if pad then maxlen = zlen h + Z.of_nat k else k = 0%nat) ->
  (buf ← fill (filled pre h old) (data + ob) (data + oe) 1; (if pad then fill buf ptr (data + maxlen) 0 else Some buf)) = Some (filled pre (h ++ replicate k 0) old).
Proof.
  intros Hd Hp Hl Ho Hm. destruct Ho as [[-> ->]|[-> ->]].
  - rewrite fill_none by lia. mred. cbn [replicate]. rewrite app_nil_r. destruct pad; [|done]. apply fill_none. lia.
  - replace (data + (zlen h + Z.of_nat k)) with (data + zlen h + Z.of_nat k) by lia. rewrite fill_filled by lia. mred. destruct pad.
    + subst ptr maxlen. replace (data + (zlen h + Z.of_nat k)) with (data + zlen h + Z.of_nat k) by lia. apply fill_over. lia.
    + subst k. done.
Qed.

Lemma bind_then3 {A B C D E} (m : result (A * B * C)) (k : A -> B -> C -> result D) (rest : D -> result E) :
  ('(a, b, c) <~ m; d <~ k a b c; rest d) = (d <~ ('(a, b, c) <~ m; k a b c); rest d).
Proof. by destruct m as [[[e buf]|[[a b] c]]|]. Qed.

Lemma outcome_fill (m : option (list Z)) (f : list Z -> option (list Z)) (pad : bool) (n : Z) :
  outcome (buf <~ defined m; buf <~ (if pad then defined (f buf) else ret buf); ret (buf, n)) = (buf ← (buf ← m; (if pad then f buf else Some buf)); Some (n, buf)).
Proof. destruct m as [buf|]; [|done]. cbn [defined bind ret]. mred. destruct pad; [|done]. by destruct (f buf). Qed.

Lemma last_size_range fs : Forall frame_ok fs -> fs <> [] -> 0 <= last_size (sizes_of fs) <= 1275.
Proof.
  intros H Hne. apply sizes_of_ok in H. assert (sizes_of fs <> []) as Hs by (by destruct fs). rewrite <- (removelast_app_last _ 0 Hs) in H. apply Forall_app in H as [_ H]. by inversion H.
Qed.

Lemma padding_amount n : 0 <= n -> 0 <= pad_amount (padding_form n).
Proof. intros Hn. apply pad_amount_pos. pose proof (padding_form_spec n Hn). destruct (padding_form n) as [[k r]|]; [lia|done]. Qed.

(** The header of the form without a number of frames. *)
Lemma plain_header toc fs : is_byte toc -> zlen fs <= 2 -> fs <> [] ->
  zlen (header_bytes (shortest toc fs)) = 1 + (if differ (sizes_of fs) then zlen (sizes_bytes (removelast (sizes_of fs))) else 0).
Proof.
  intros Ht Hc Hne. pose proof (config_low toc 0 Ht ltac:(lia)) as (_ & C0 & _). pose proof (config_low toc 1 Ht ltac:(lia)) as (_ & C1 & _). pose proof (config_low toc 2 Ht ltac:(lia)) as (_ & C2 & _). rewrite Z.lor_0_r in C0.
  unfold shortest, header_bytes, header_of. destruct fs as [|f [|g [|? ?]]]; [done| | |cbn [length] in Hc; lia]; cbn [sizes_of fmap list_fmap differ existsb].
  - cbn [pt_toc]. by rewrite decide_True by lia.
  - destruct (decide (zlen g = zlen f)) as [E|E]; cbn [pt_toc].
    + rewrite (proj2 (Z.eqb_eq _ _) E). cbn [negb orb]. by rewrite decide_True by lia.
    + rewrite (proj2 (Z.eqb_neq _ _) E). cbn [negb orb]. rewrite decide_False by lia. rewrite decide_True by lia. unfold packet_sizes. cbn [pt_frames fmap list_fmap removelast length]. lia.
Qed.

Section form.
Context (toc : Z) (fs : list (list Z)) (Hf : frames_fit toc fs).
Local Abbreviation lens := (sizes_of fs).
Context (maxlen : Z) (self_delimited pad : bool).
Local Abbreviation sd := (if self_delimited then size_size (List.last lens 0) else 0).
Local Abbreviation p := (written self_delimited pad toc fs maxlen).

Lemma sd_size q : pt_frames q = fs -> sd = zlen (sd_bytes self_delimited q).
Proof. intros H. unfold sd_bytes. destruct self_delimited; [|done]. rewrite size_size_length. unfold last_size_bytes, packet_sizes. by rewrite H. Qed.

Lemma size_of_code3 pd : zlen (pad_bytes pd) + pad_amount pd = zlen (pad_bytes pd) + zlen (pt_padding (code3_packet toc pd fs)) -> zlen (packet_bytes self_delimited (code3_packet toc pd fs)) = sd + code3_size fs + (zlen (pad_bytes pd) + pad_amount pd).
Proof. intros H. rewrite packet_length, <- (sd_size (code3_packet toc pd fs)) by done. pose proof (code3_length toc fs Hf pd). cbn [code3_packet pt_frames] in *. lia. Qed.

Lemma size_code3_none : zlen (packet_bytes self_delimited (code3_packet toc None fs)) = sd + code3_size fs.
Proof. rewrite size_of_code3 by done. cbn. lia. Qed.

Lemma size_code3_pad n : 0 <= n -> zlen (packet_bytes self_delimited (code3_packet toc (padding_form n) fs)) = sd + code3_size fs + n.
Proof.
  intros Hn. pose proof (padding_amount n Hn). rewrite size_of_code3 by (cbn [code3_packet pt_padding]; rewrite length_replicate; lia).
  by rewrite length_padding_form.
Qed.

Lemma many_shortest : 2 < zlen fs -> shortest toc fs = code3_packet toc None fs.
Proof. unfold shortest. destruct fs as [|? [|? [|? ?]]]; cbn [length]; (done || lia). Qed.

(** The fourth code takes one byte more than the others. *)
Lemma few_code3 : zlen fs <= 2 -> zlen (packet_bytes self_delimited (code3_packet toc None fs)) = zlen (packet_bytes self_delimited (shortest toc fs)) + 1.
Proof.
  intros Hc. rewrite size_code3_none. destruct (shortest_ok toc fs Hf) as (Hok & Hfr & Hpd). rewrite packet_length, <- (sd_size _ Hfr), Hfr, Hpd.
  rewrite plain_header by (done || apply Hf). unfold code3_size. destruct (differ lens); cbn [length]; lia.
Qed.

Lemma written_frames : pt_frames p = fs.
Proof. unfold written. destruct (pad && _); [done|]. apply (shortest_ok toc fs Hf). Qed.


Lemma code3_fits : zlen (packet_bytes self_delimited (shortest toc fs)) < maxlen -> zlen (packet_bytes self_delimited (code3_packet toc None fs)) <= maxlen.
Proof. intros H. destruct (decide (zlen fs <= 2)); [rewrite few_code3 by done; lia|]. rewrite <- many_shortest by lia. lia. Qed.

Lemma written_size :
  zlen (packet_bytes self_delimited (shortest toc fs)) <= maxlen -> zlen (packet_bytes self_delimited p) = if pad then maxlen else zlen (packet_bytes self_delimited (shortest toc fs)).
Proof.
  intros H. unfold written. destruct pad; [|done]. cbn [andb]. case_bool_decide as E; [|lia]. pose proof (code3_fits E). pose proof size_code3_none.
  rewrite size_code3_pad by lia. lia.
Qed.

Lemma written_ok : zlen (packet_bytes self_delimited (shortest toc fs)) <= maxlen -> packet_ok p.
Proof.
  intros H. unfold written. destruct pad; cbn [andb]; [|by apply shortest_ok]. case_bool_decide as E; [|by apply shortest_ok]. apply code3_ok; [done|].
  pose proof (code3_fits E). pose proof (padding_form_spec (maxlen - zlen (packet_bytes self_delimited (code3_packet toc None fs))) ltac:(lia)) as Hp. destruct (padding_form _) as [[k r]|]; [lia|done].
Qed.

Lemma written_padding : pt_padding p = replicate (length (pt_padding p)) 0.
Proof. unfold written. destruct (pad && _); [cbn [code3_packet pt_padding]; by rewrite length_replicate|]. destruct (shortest_ok toc fs Hf) as (_ & _ & ->). done. Qed.

Lemma few_header pd : zlen fs <= 2 -> zlen (header_bytes (shortest toc fs)) <= zlen (header_bytes (code3_packet toc pd fs)).
Proof.
  intros Hc. pose proof (few_code3 Hc) as H. destruct (shortest_ok toc fs Hf) as (_ & Hfr & Hpd). rewrite !packet_length in H. rewrite <- !(sd_size _) in H by done. rewrite Hfr, Hpd in H. cbn [code3_packet pt_frames pt_padding] in H.
  rewrite length_replicate in H. pose proof (code3_length toc fs Hf None) as H0. pose proof (code3_length toc fs Hf pd). cbn [code3_packet pad_bytes pad_amount length] in *. lia.
Qed.

End form.

Section out.
Context (toc : Z) (fs : list (list Z)) (Hf : frames_fit toc fs).
Local Abbreviation lens := (sizes_of fs).
Context (rp : OpusRepacketizer) (Hrp : rp_toc rp = toc).
Context (pre old : list Z) (data maxlen : Z) (Hdata : data = zlen pre) (Hroom : maxlen <= zlen old).
Context (self_delimited pad : bool).
Local Abbreviation sd := (if self_delimited then size_size (List.last lens 0) else 0).
Local Abbreviation p := (written self_delimited pad toc fs maxlen).

(** What the stages before the frames leave. *)
Record headed (c : code3) : Prop := {
  he_buf : c3_buf c = filled pre (header_bytes p) old;
  he_ptr : c3_ptr c = data + zlen (header_bytes p);
  he_size : c3_tot_size c = zlen (packet_bytes self_delimited p);
  he_ext : c3_ext_len c = 0;
  he_ones : length (pt_padding p) = 0%nat /\ c3_ones_begin c = c3_ones_end c \/
    c3_ones_begin c = c3_tot_size c - zlen (pt_padding p) /\ c3_ones_end c = c3_tot_size c
}.

Local Abbreviation head_stage := (
  '(buf, ptr, tot_size) <~ write_plain rp lens (filled pre [] old) data maxlen sd;
  (if (2 <? zlen fs) || (pad && (tot_size <? maxlen)) || (0 <? zlen (@nil extension))
   then write_code3 rp lens buf data maxlen sd pad []
   else ret (mk_code3 buf ptr tot_size 0 0 0 0))).

Lemma sd_pos : 0 <= sd.
Proof. destruct self_delimited; [|done]. rewrite size_size_length. lia. Qed.

Lemma code3_stage h1 :
  zlen h1 <= zlen (header_bytes p) -> sd + code3_size fs <= maxlen -> p = code3_packet toc (padding_form (added fs maxlen pad sd)) fs ->
  exists c, write_code3 rp lens (filled pre h1 old) data maxlen sd pad [] = ret c /\ headed c.
Proof.
  intros Hh Hm Ep. pose proof sd_pos. assert (0 <= added fs maxlen pad sd) as Hn by (unfold added; destruct pad; lia).
  assert (zlen (header_bytes p) <= zlen old) as Hho.
  { pose proof (packet_length self_delimited p) as Hpl. assert (zlen (packet_bytes self_delimited p) <= maxlen) by (rewrite Ep, (size_code3_pad toc fs Hf self_delimited) by done; unfold added; destruct pad; lia). lia. }
  assert (zlen (h1 ++ drop (length h1) old) = zlen old) as Hlo by (rewrite length_app, length_drop; lia).
  rewrite filled_as_app, <- filled_nil. rewrite (write_code3_spec toc fs Hf rp Hrp pre (h1 ++ drop (length h1) old) data maxlen Hdata) by (cbn [length]; (done || lia)). rewrite decide_False by lia. cbv zeta. eexists. split; [done|].
  rewrite <- Ep. split; cbn [c3_buf c3_ptr c3_tot_size c3_ext_len c3_ones_begin c3_ones_end]; try done.
  - apply filled_again; lia.
  - rewrite Ep, (size_code3_pad toc fs Hf self_delimited) by done. done.
  - pose proof (padding_amount _ Hn). rewrite Ep. cbn [code3_packet pt_padding]. pose proof (length_padding_form _ Hn) as Hlen. rewrite length_replicate. case_decide as E0; [left; split; [|done]|right; lia].
    rewrite E0 in Hlen |- *. cbn. lia.
Qed.

Lemma head_spec :
  if decide (zlen (packet_bytes self_delimited (shortest toc fs)) > maxlen) then head_stage = fail OPUS_BUFFER_TOO_SMALL (pre ++ old)
  else exists c, head_stage = ret c /\ headed c.
Proof.
  pose proof sd_pos as Hsd. destruct (shortest_ok toc fs Hf) as (Hok & Hfr & Hpd). pose proof (size_code3_none toc fs Hf self_delimited) as Hs3. rewrite (write_plain_spec toc fs Hf rp Hrp pre old data maxlen Hdata Hroom) by done.
  destruct (decide (2 < zlen fs)) as [Hc|Hc].
  - cbn [bind ret]. rewrite (proj2 (Z.ltb_lt 2 (zlen fs)) Hc). cbn [orb]. rewrite (many_shortest toc fs Hf Hc), Hs3. case_decide as E.
    + rewrite (write_code3_spec toc fs Hf rp Hrp pre old data maxlen Hdata Hroom) by (cbn; (done || lia)). rewrite decide_True by done. by rewrite filled_nil.
    + apply code3_stage; [cbn [length]; lia|lia|]. unfold written, added. rewrite (many_shortest toc fs Hf) by done. destruct pad; [|done]. cbn [andb]. rewrite Hs3. case_bool_decide as Eb; [done|].
      replace (maxlen - (sd + code3_size fs)) with 0 by lia. done.
  - assert (zlen (packet_bytes self_delimited (shortest toc fs)) = sd + zlen (header_bytes (shortest toc fs)) + zlen (concat fs)) as Hlen.
    { rewrite packet_length, <- (sd_size fs self_delimited _ Hfr), Hfr, Hpd. cbn [length]. lia. }
    cbv zeta. rewrite <- Hlen. case_decide as E; [by rewrite filled_nil|]. cbn [bind ret]. rewrite (proj2 (Z.ltb_ge 2 (zlen fs))) by lia. cbn [orb]. rewrite orb_false_r.
    destruct (pad && (zlen (packet_bytes self_delimited (shortest toc fs)) <? maxlen)) eqn:Ep.
    + apply andb_prop in Ep as [Epad Elt]. apply Z.ltb_lt in Elt. pose proof (code3_fits toc fs Hf maxlen self_delimited Elt). assert (p = code3_packet toc (padding_form (added fs maxlen pad sd)) fs) as Hp by (unfold written, added; rewrite Epad; cbn [andb]; rewrite bool_decide_true by lia; by rewrite Hs3).
      apply code3_stage; [|lia|done]. rewrite Hp. apply (few_header toc fs Hf self_delimited). lia.
    + eexists. split; [done|]. assert (p = shortest toc fs) as Eq by (unfold written; destruct pad; [cbn [andb] in Ep |- *; rewrite bool_decide_false by lia|]; done).
      split; rewrite ?Eq; cbn [c3_buf c3_ptr c3_tot_size c3_ext_len c3_ones_begin c3_ones_end]; try done. left. by rewrite Hpd.
Qed.

(** What is selected, and that it carries no extensions. *)
Record selected (begin end_ : Z) (frames : list src) : Prop := {
  se_range : 0 <= begin < end_ /\ end_ <= rp_nb_frames rp /\ zlen fs = end_ - begin;
  se_lens : take (Z.to_nat (end_ - begin)) (drop (Z.to_nat begin) (rp_len rp)) = lens;
  se_frames : take (Z.to_nat (end_ - begin)) (drop (Z.to_nat begin) (rp_frames rp)) = frames;
  se_source : zlen (packet_bytes self_delimited (shortest toc fs)) <= maxlen ->
    sourced (pre ++ old) (data + zlen (header_bytes p) + zlen (sd_bytes self_delimited p)) frames fs;
  se_count : count_extensions (Z.to_nat (end_ - begin)) (Z.to_nat begin) (pre ++ old) rp 0 = Some 0;
  se_gather : gather_extensions (Z.to_nat (end_ - begin)) (Z.to_nat begin) (Z.to_nat begin) (pre ++ old) rp 0 [] = Some (Some [])
}.

Lemma out_range_spec begin end_ frames :
  selected begin end_ frames ->
  outcome (opus_repacketizer_out_range_impl rp begin end_ (pre ++ old) data maxlen self_delimited pad []) =
  if decide (zlen (packet_bytes self_delimited (shortest toc fs)) > maxlen) then Some (OPUS_BUFFER_TOO_SMALL, pre ++ old)
  else Some (zlen (packet_bytes self_delimited p), filled pre (packet_bytes self_delimited p) old).
Proof.
  intros [Hr Hl Hfr Hs Hc Hg]. unfold opus_repacketizer_out_range_impl. rewrite decide_False by lia. cbv zeta. change (zlen (@nil extension)) with 0. rewrite Hc. cbn [defined bind ret]. rewrite Hg. cbn [defined bind ret].
  rewrite Hl, Hfr. change (zlen (@nil extension)) with 0. pose proof head_spec as Hh.
  assert (Z.of_nat (Z.to_nat (end_ - begin)) = zlen fs) as -> by lia. rewrite (filled_nil pre old) in Hh. change (zlen (@nil extension)) with 0 in Hh.
  rewrite bind_then3. destruct (decide (_ > maxlen)) as [E|E]; [by rewrite Hh|]. destruct Hh as (c & Hh & [Hb Hp Hz Hx Ho]). rewrite Hh. cbn [bind ret]. rewrite Hb, Hp. clear Hh.
  pose proof (written_frames toc fs Hf maxlen self_delimited pad) as Hwf. pose proof (packet_length self_delimited p) as Hlen. rewrite (written_size toc fs Hf maxlen self_delimited pad), Hwf in Hlen by lia.
  assert (zlen (header_bytes p) + zlen (sd_bytes self_delimited p) + zlen (concat fs) + zlen (pt_padding p) <= zlen old) as Hfit by (destruct pad; lia).
  assert ((if self_delimited then emit_size (filled pre (header_bytes p) old) (data + zlen (header_bytes p)) (List.last lens 0) else ret (filled pre (header_bytes p) old, data + zlen (header_bytes p))) =
    ret (filled pre (header_bytes p ++ sd_bytes self_delimited p) old, data + zlen (header_bytes p) + zlen (sd_bytes self_delimited p))) as ->.
  { unfold sd_bytes in *. destruct self_delimited; [|cbn [length]; rewrite app_nil_r; unfold ret; do 3 f_equal; lia]. unfold last_size_bytes, packet_sizes in *. rewrite Hwf in *. fold (sizes_of fs) in *.
    apply emit_size_filled; [lia|unfold last_size in *; lia|]. apply last_size_range; [apply Hf..]. }
  cbn [bind ret]. rewrite (move_frames_filled pre (header_bytes p ++ sd_bytes self_delimited p) old frames fs) by (rewrite ?length_app; (lia || apply Hs; lia)). cbn [bind ret]. rewrite Hx.
  rewrite decide_False by lia. cbn [bind ret]. rewrite Hz in *. rewrite (written_size toc fs Hf maxlen self_delimited pad) in Ho |- * by lia.
  pose proof (fill_padding pad pre ((header_bytes p ++ sd_bytes self_delimited p) ++ concat fs) old data
    (data + zlen (header_bytes p) + zlen (sd_bytes self_delimited p) + zlen (concat fs)) maxlen (c3_ones_begin c) (c3_ones_end c) (length (pt_padding p)) Hdata) as Hfill.
  rewrite !length_app in Hfill. rewrite bool_decide_true, andb_true_r by done. rewrite outcome_fill, Hfill; [|lia|lia|destruct Ho as [[??]|[??]]; [by left|right; lia]|destruct pad eqn:Ep; [lia|]].
  - mred. do 3 f_equal. rewrite <- (written_padding toc fs Hf maxlen self_delimited pad) by done. unfold packet_bytes. rewrite Hwf. unfold sd_bytes. by rewrite <- !(assoc_L (++)).
  - unfold written. cbn [andb]. destruct (shortest_ok toc fs Hf) as (_ & _ & ->). done.
Qed.

End out.
