(* ===== verification/RepackCat.v ===== *)
(** * Collecting frames

    What [opus_repacketizer_cat_impl] does with any bytes: the frames of a packet that fits to
    those before it are added, everything else is refused. *)

From S2P Require Import Prelude OpusPacket OpusPacketFacts OpusExt OpusExtWalk OpusExtWrite Repacketizer RepackOut.

(** ** Paddings without extensions *)

Definition quiet (d : list Z) (nframes : Z) : Prop :=
  opus_packet_extensions_count d nframes = Some 0 /\ opus_packet_extensions_parse d 0 nframes = Some (0, []).

#[export] Instance opus_extension_data_eq_dec : EqDecision opus_extension_data.
Proof. solve_decision. Defined.

#[export] Instance quiet_dec d nframes : Decision (quiet d nframes).
Proof. unfold quiet. apply _. Defined.

Lemma next_loop_end n d it : curr_len it <= 0 -> next_loop (S n) d it = Some (it, (0, None)).
Proof. intros H. cbn [next_loop]. by rewrite decide_False by lia. Qed.

Lemma zeros_walk k nb : 0 <= nb <= 48 -> walks (replicate k 0) (first (replicate k 0) nb) [] 0.
Proof.
  intros Hnb. destruct (decide (nb = 0)) as [->|Hne].
  { apply (walks_end _ _ (first (replicate k 0) 0)); [|lia]. unfold opus_extension_iterator_next. rewrite decide_False by (cbn; lia). done. }
  destruct k as [|k]; unfold first.
  { apply (walks_end _ _ (mk_iter 0 0 None 0 0 0 0 0 0 nb nb 0 0 0)); [|lia]. unfold opus_extension_iterator_next. cbn [curr_len repeat_frame curr_frame frame_max replicate length]. rewrite decide_False by lia. rewrite decide_False by lia. mred. rewrite (decide_False (P := 0 <> 0)) by tauto. cbn [curr_frame frame_max curr_len]. by rewrite decide_False by lia. }
  assert (ld8 (replicate (S k) 0) 0 = Some 0) as Hb by (apply (bytes_at_ld8 _ _ _ (replicate k 0)); [exists [], []; by rewrite app_nil_r|unfold is_byte; lia]).
  assert (zlen (replicate (S k) 0) = Z.of_nat k + 1) as Hl by (rewrite length_replicate; lia).
  eapply walks_end; [|done]. unfold opus_extension_iterator_next. rewrite Hl. cbn [curr_len repeat_frame curr_frame frame_max]. rewrite decide_False by lia. rewrite decide_False by lia. mred. rewrite (decide_False (P := 0 <> 0)) by tauto. cbn [curr_frame frame_max curr_len].
  rewrite decide_False by lia. assert (exists n, S (Z.to_nat (Z.of_nat k + 1)) = S n /\ n = S k) as (n & -> & En) by (exists (S k); lia). cbn [next_loop]; cbn [curr_len curr_data ext_size set_curr]. rewrite decide_True by lia. rewrite Hb. mred.
  assert (skip_extension (replicate (S k) 0) 0 (Z.of_nat k + 1) = Some (Some (Z.of_nat k + 1, 0, 1))) as ->.
  { unfold skip_extension. rewrite decide_False by lia. rewrite decide_False by lia. rewrite Hb. mred. unfold skip_extension_payload. change (Z.shiftr 0 1) with 0. change (Z.land 0 1) with 0.
    rewrite (bool_decide_true (0 = 0)), (bool_decide_false (0 = 1)), (bool_decide_false (0 = 2)), (bool_decide_false (0 > 0)) by lia. cbn [andb orb]. rewrite decide_True by lia. rewrite decide_False by lia. mred. do 4 f_equal. lia. }
  mred. unfold celt_assert. cbn [curr_data curr_len ext_size set_curr]. rewrite bool_decide_true by lia. mred. change (Z.shiftr 0 1) with 0. rewrite (decide_False (P := 0 = 1)), (decide_False (P := 0 = 2)), (decide_False (P := 0 > 2)) by lia. rewrite En. apply next_loop_end. by cbn [curr_len].
Qed.

Lemma zeros_quiet k nb : 0 <= nb <= 48 -> quiet (replicate k 0) nb.
Proof.
  intros Hnb. pose proof (zeros_walk k nb Hnb) as W. assert (0 < walk_fuel (replicate k 0%Z))%nat as Hf by (unfold walk_fuel; lia).
  unfold quiet, opus_packet_extensions_count, opus_packet_extensions_parse. rewrite init_first by done. mred. rewrite (count_walks _ _ _ _ _ 0 W) by (cbn; lia). split; [done|].
  rewrite (parse_walks _ _ _ _ _ 0 [] W) by (cbn; lia). done.
Qed.

(** ** The numbers of a packet *)

Lemma samples_8000 buf data toc l :
  bytes_at buf data (toc :: l) -> is_byte toc -> exists s, opus_packet_get_samples_per_frame buf data 8000 = Some s /\ 6 * s = frame_samples toc.
Proof.
  intros H Ht. unfold opus_packet_get_samples_per_frame. rewrite (bytes_at_ld8 _ _ _ _ H Ht). mred. clear H.
  set (P := fun toc => bool_decide ((let audiosize := Z.land (Z.shiftr toc 3) 3 in
    if negb (Z.land toc 0x80 =? 0) then x ← int_chk (Z.shiftl 8000 audiosize); Some (Z.quot x 400)
    else if Z.land toc 0x60 =? 0x60 then Some (if negb (Z.land toc 8 =? 0) then Z.quot 8000 50 else Z.quot 8000 100)
    else if decide (audiosize = 3) then x ← int_chk (8000 * 60); Some (Z.quot x 1000)
    else x ← int_chk (Z.shiftl 8000 audiosize); Some (Z.quot x 100)) = Some (frame_samples toc / 6)) && (frame_samples toc mod 6 =? 0)).
  assert (P toc = true) as HP by (apply (checkZ_spec 256); [by vm_compute|exact Ht]). unfold P in HP. apply andb_prop in HP as [H1 H2]. apply bool_decide_eq_true in H1. rewrite H1. eexists. split; [done|]. apply Z.eqb_eq in H2. zlia.
Qed.

Lemma header_first p : exists t, header_bytes p = pt_toc p :: t.
Proof. unfold header_bytes, header_of. repeat case_decide; by eexists. Qed.

Lemma nb_frames_spec buf data self_delimited p rest :
  packet_ok p -> bytes_at buf data (packet_bytes self_delimited p ++ rest) ->
  opus_packet_get_nb_frames buf data (zlen (packet_bytes self_delimited p ++ rest)) = Some (pt_count p).
Proof.
  intros Hp H. unfold packet_bytes in *. rewrite <- (assoc_L (++)) in *. set (l := (if self_delimited then last_size_bytes p else []) ++ _) in *. unfold opus_packet_get_nb_frames. pose proof (packet_count p Hp) as [_ Hc].
  pose proof (po_toc p Hp) as Ht. pose proof (po_code0 p Hp) as H0. pose proof (po_code1 p Hp) as H1. pose proof (po_code2 p Hp) as H2. pose proof (po_code3 p Hp) as H3. unfold pt_code in *.
  destruct (header_first p) as [t Et]. destruct (decide (Z.land (pt_toc p) 3 = 3)) as [E|E].
  - pose proof (frame_samples_range _ Ht). destruct (H3 E) as (C1 & C2 & _). destruct (count_byte_read (pt_count p) (pt_pad p) (pt_vbr p)) as (Hb & Hch & _); [nia|].
    unfold header_bytes in *. rewrite header_of_code3 in * by done. cbn [app length] in *. rewrite decide_False by lia. rewrite (bytes_at_ld8 _ _ _ _ H Ht). mred. rewrite E. rewrite decide_False by lia. rewrite decide_False by lia.
    rewrite decide_False by lia. apply bytes_at_tail in H. rewrite (bytes_at_ld8 _ _ _ _ H Hb). mred. by rewrite Hch.
  - rewrite Et in *. cbn [app length] in *. rewrite decide_False by lia. rewrite (bytes_at_ld8 _ _ _ _ H Ht). mred. destruct (decide (Z.land (pt_toc p) 3 = 0)) as [E0|E0]; [f_equal; symmetry; by apply H0|].
    rewrite decide_True by done. f_equal. destruct (land3_cases (pt_toc p)) as [E1|[E1|[E1|E1]]]; try done; [by destruct (H1 E1)|by rewrite (H2 E1)].
Qed.

(** ** What is collected *)

(** The structure with another first packet. *)
Definition with_toc (rp : OpusRepacketizer) (toc framesize : Z) : OpusRepacketizer :=
  mk_rp toc (rp_nb_frames rp) (rp_frames rp) (rp_len rp) framesize (rp_paddings rp) (rp_padding_len rp) (rp_padding_nb_frames rp).

(** The structure with the frames of a packet at [data] added. *)
Definition joined (rp : OpusRepacketizer) (at_ : Z -> src) (data : Z) (self_delimited : bool) (p : packet) : OpusRepacketizer :=
  let o := frames_at self_delimited p data in
  let n := (length (pt_frames p) - 1)%nat in
  mk_rp (if decide (rp_nb_frames rp = 0) then pt_toc p else rp_toc rp) (rp_nb_frames rp + pt_count p)
    (rp_frames rp ++ (at_ <$> (frame_pointers o (packet_sizes p)).1)) (rp_len rp ++ packet_sizes p)
    (if decide (rp_nb_frames rp = 0) then frame_samples (pt_toc p) / 6 else rp_framesize rp)
    (rp_paddings rp ++ Some (at_ (o + zlen (concat (pt_frames p)))) :: replicate n None)
    (rp_padding_len rp ++ zlen (pt_padding p) :: replicate n 0)
    (rp_padding_nb_frames rp ++ pt_count p :: replicate n 0).

(** [fs] are the frames, which are found in [buf] or where the caller keeps them. *)
Record collects (buf : list Z) (rp : OpusRepacketizer) (fs : list (list Z)) : Prop := {
  co_count : rp_nb_frames rp = zlen fs;
  co_len : rp_len rp = sizes_of fs;
  co_frames : Forall2 (fun s f => load buf s (zlen f) = Some f) (rp_frames rp) fs;
  co_fit : fs <> [] -> frames_fit (rp_toc rp) fs /\ 6 * rp_framesize rp = frame_samples (rp_toc rp);
  co_paddings : length (rp_paddings rp) = length fs /\ length (rp_padding_len rp) = length fs /\ length (rp_padding_nb_frames rp) = length fs
}.

(** A packet goes with the frames before it: the same configuration, and no more than 120 ms. *)
Definition goes_with (rp : OpusRepacketizer) (p : packet) : Prop :=
  (rp_nb_frames rp = 0 \/ config (rp_toc rp) = config (pt_toc p)) /\ frame_samples (pt_toc p) * (rp_nb_frames rp + pt_count p) <= 5760.

#[export] Instance goes_with_dec rp p : Decision (goes_with rp p).
Proof. unfold goes_with. apply _. Defined.

Lemma config_samples t1 t2 : is_byte t1 -> is_byte t2 -> config t1 = config t2 -> frame_samples t1 = frame_samples t2.
Proof. intros H1 H2 E. destruct (config_low t1 0 H1 ltac:(lia)) as (_ & _ & <-). destruct (config_low t2 0 H2 ltac:(lia)) as (_ & _ & <-). by rewrite E. Qed.

Lemma length_frame_pointers o ns : length (frame_pointers o ns).1 = length ns.
Proof. revert o. induction ns as [|n ns IH]; intros o; [done|]. cbn [frame_pointers]. specialize (IH (o + n)). destruct (frame_pointers (o + n) ns). cbn [fst length] in *. by rewrite IH. Qed.

Section cat.
Context (buf mem : list Z) (at_ : Z -> src) (Hat : forall o n x, slice mem o n = Some x -> load buf (at_ o) n = Some x).
Context (rp : OpusRepacketizer) (fs : list (list Z)) (Hco : collects buf rp fs).
Context (data : Z) (self_delimited : bool).

Lemma empty_first : rp_nb_frames rp = 0 <-> fs = [].
Proof. rewrite (co_count _ _ _ Hco). destruct fs; cbn [length]; [done|]. split; [lia|done]. Qed.

Lemma config_same toc : is_byte toc -> rp_nb_frames rp = 0 \/ config (rp_toc rp) = config toc -> 6 * (if decide (rp_nb_frames rp = 0) then frame_samples toc / 6 else rp_framesize rp) = frame_samples toc.
Proof.
  intros Ht Hc. destruct (decide (rp_nb_frames rp = 0)) as [E|E].
  - destruct (samples_8000 [toc] 0 toc []) as (s & _ & Hs); [exists [], []; done|done|]. zlia.
  - destruct (co_fit _ _ _ Hco) as [Hf ->]; [by rewrite <- empty_first|]. apply config_samples; [apply Hf|done|]. by destruct Hc.
Qed.

Lemma cat_packet p rest :
  packet_ok p -> (self_delimited = false -> rest = []) -> bytes_at mem data (packet_bytes self_delimited p ++ rest) ->
  opus_repacketizer_cat_impl rp mem at_ data (zlen (packet_bytes self_delimited p ++ rest)) self_delimited =
  Some (if decide (goes_with rp p) then (OPUS_OK, joined rp at_ data self_delimited p)
        else (OPUS_INVALID_PACKET, if decide (rp_nb_frames rp = 0) then with_toc rp (pt_toc p) (frame_samples (pt_toc p) / 6) else rp)).
Proof.
  intros Hp Hrest H. unfold opus_repacketizer_cat_impl. destruct (header_first p) as [t Et]. pose proof (po_toc p Hp) as Ht. pose proof (packet_count p Hp) as [Hk Hc].
  assert (exists t', packet_bytes self_delimited p ++ rest = pt_toc p :: t') as [t' Et'] by (unfold packet_bytes; rewrite Et; by eexists).
  rewrite decide_False by (rewrite Et'; cbn [length]; lia). pose proof H as H0. rewrite Et' in H0. rewrite (bytes_at_ld8 _ _ _ _ H0 Ht). mred. destruct (samples_8000 _ _ _ _ H0 Ht) as (s & -> & Hs). mred.
  rewrite (nb_frames_spec _ _ _ _ _ Hp H), (parse_complete _ _ _ _ _ Hp Hrest H). mred. fold (config (rp_toc rp)). fold (config (pt_toc p)).
  assert (frame_samples (pt_toc p) / 6 = s) as -> by zlia. pose proof (config_same (pt_toc p) Ht) as Hsame.
  rewrite (decide_ext (goes_with rp p) (~ (rp_nb_frames rp <> 0 /\ config (rp_toc rp) <> config (pt_toc p)) /\ ~ (pt_count p + rp_nb_frames rp) * (if decide (rp_nb_frames rp = 0) then s else rp_framesize rp) > 960)).
  2: { unfold goes_with. destruct (decide (rp_nb_frames rp = 0)), (decide (config (rp_toc rp) = config (pt_toc p))); split; intros [? ?]; split; try tauto; nia. }
  assert (zlen (packet_sizes p) = pt_count p) as Hsz by (unfold packet_sizes, pt_count; by rewrite length_fmap).
  assert (Z.to_nat (pt_count p) = length (pt_frames p)) as Hn by (unfold pt_count; lia).
  assert (frame_samples (pt_toc p) / 6 = s) as Es by zlia. pose proof (frame_samples_range _ Ht) as Hr. pose proof (co_count _ _ _ Hco) as Hcount.
  assert (take (length (pt_frames p)) (frame_pointers (frames_at self_delimited p data) (packet_sizes p)).1 = (frame_pointers (frames_at self_delimited p data) (packet_sizes p)).1) as Hf1 by (apply take_ge; rewrite length_frame_pointers; lia).
  assert (take (length (pt_frames p)) (packet_sizes p) = packet_sizes p) as Hf2 by (apply take_ge; lia). pose proof (Hsame : _ -> _) as Hsm.
  destruct (decide (rp_nb_frames rp = 0)) as [E|E]; [rewrite (bool_decide_true (rp_nb_frames rp = 0)) by done|rewrite (bool_decide_false (rp_nb_frames rp = 0)) by done; rewrite bool_decide_decide; destruct (decide (config (rp_toc rp) <> config (pt_toc p))) as [Ec|Ec]].
  all: cbn [negb andb with_toc rp_nb_frames rp_framesize rp_toc].
  2: { by rewrite decide_False by tauto. }
  all: rewrite (decide_False (P := pt_count p < 1)) by lia; case_decide as Et1; [by rewrite decide_False by tauto|].
  all: unfold parsed_of at 1; rewrite decide_False by lia; rewrite decide_False by nia; rewrite decide_True by tauto; unfold joined.
  all: cbn [pk_frames pk_size pk_padding pk_padding_len rp_toc rp_nb_frames rp_frames rp_len rp_framesize rp_paddings rp_padding_len rp_padding_nb_frames]; rewrite Hn, Hf1, Hf2.
  - by rewrite !(decide_True (P := rp_nb_frames rp = 0)), Es by done.
  - by rewrite !(decide_False (P := rp_nb_frames rp = 0)) by done.
Qed.

(** Where the frames of a packet are. *)
Lemma frames_found p rest :
  bytes_at mem data (packet_bytes self_delimited p ++ rest) ->
  bytes_at mem (frames_at self_delimited p data) (concat (pt_frames p)) /\
  bytes_at mem (frames_at self_delimited p data + zlen (concat (pt_frames p))) (pt_padding p).
Proof.
  intros H. unfold packet_bytes in H. rewrite <- !(assoc_L (++)) in H. apply bytes_at_app in H as [_ H]. apply bytes_at_app in H as [_ H]. apply bytes_at_app in H as [H1 H2]. apply bytes_at_app in H2 as [H2 _].
  unfold frames_at. destruct self_delimited; [done|]. cbn [length] in *. rewrite Z.add_0_r. replace (Z.of_nat 0) with 0 in * by lia. rewrite Z.add_0_r in *. done.
Qed.

Lemma joined_collects p rest :
  packet_ok p -> goes_with rp p -> bytes_at mem data (packet_bytes self_delimited p ++ rest) ->
  collects buf (joined rp at_ data self_delimited p) (fs ++ pt_frames p).
Proof.
  intros Hp [Hg Ht] H. pose proof (packet_count p Hp) as [Hk Hc]. destruct (frames_found p rest H) as [Hfr _]. pose proof (config_same (pt_toc p) (po_toc p Hp) Hg) as Hsame. pose proof (co_count _ _ _ Hco) as Hn. pose proof empty_first as He.
  assert (pt_frames p <> []) as Hne by (unfold pt_count in Hc; intros E; rewrite E in Hc; cbn in Hc; lia).
  split; unfold joined; cbn [rp_toc rp_nb_frames rp_frames rp_len rp_framesize rp_paddings rp_padding_len rp_padding_nb_frames].
  - rewrite length_app. unfold pt_count. lia.
  - rewrite (co_len _ _ _ Hco). unfold sizes_of, packet_sizes. by rewrite fmap_app.
  - apply Forall2_app; [apply Hco|]. apply Forall2_fmap_l. destruct (frame_pointers_spec _ _ _ Hfr) as [_ Hp2]. eapply Forall2_impl; [|exact Hp2]. intros o f. apply Hat.
  - intros _. assert (frame_samples (if decide (rp_nb_frames rp = 0) then pt_toc p else rp_toc rp) = frame_samples (pt_toc p)) as Es.
    { case_decide as E; [done|]. destruct (co_fit _ _ _ Hco) as [Hf _]; [by rewrite <- He|]. apply config_samples; [apply Hf|apply Hp|]. by destruct Hg. }
    rewrite Es. split; [|done]. split; [case_decide as E; [apply Hp|apply (co_fit _ _ _ Hco); by rewrite <- He]|by destruct fs| |].
    + apply Forall_app. split; [|apply Hp]. destruct (decide (fs = [])) as [->|E]; [done|]. apply (co_fit _ _ _ Hco E).
    + rewrite Es, length_app. unfold pt_count in *. lia.
  - destruct (co_paddings _ _ _ Hco) as (H1 & H2 & H3). rewrite !length_app. cbn [length]. rewrite !length_replicate. unfold pt_count in Hc. lia.
Qed.

Lemma with_toc_collects toc framesize : rp_nb_frames rp = 0 -> collects buf (with_toc rp toc framesize) fs.
Proof. intros E. destruct Hco as [H1 H2 H3 _ H5]. split; try done. intros Hne. by apply empty_first in E. Qed.

(** Bytes that are not a packet are refused. *)
Lemma cat_refused l :
  bytes_at mem data l -> is_bytes l -> ~ (exists p rest, packet_ok p /\ (self_delimited = false -> rest = []) /\ l = packet_bytes self_delimited p ++ rest) ->
  exists rp', opus_repacketizer_cat_impl rp mem at_ data (zlen l) self_delimited = Some (OPUS_INVALID_PACKET, rp') /\ collects buf rp' fs.
Proof.
  intros H Hb Hno. unfold opus_repacketizer_cat_impl. case_decide as E0; [by exists rp|]. destruct l as [|toc l]; [cbn in E0; lia|]. inversion Hb as [|? ? Ht Hb']; subst. rewrite (bytes_at_ld8 _ _ _ _ H Ht). mred.
  destruct (samples_8000 _ _ _ _ H Ht) as (s & -> & Hs). mred. destruct (negb _ && _); [by exists rp|].
  assert (exists n, opus_packet_get_nb_frames mem data (zlen (toc :: l)) = Some n) as [n ->].
  { unfold opus_packet_get_nb_frames. rewrite decide_False by done. rewrite (bytes_at_ld8 _ _ _ _ H Ht). mred. repeat case_decide; try by eexists. apply bytes_at_tail in H. destruct l as [|ch l]; [cbn in *; lia|].
    inversion Hb' as [|? ? Hch _]; subst. rewrite (bytes_at_ld8 _ _ _ _ H Hch). by eexists. }
  mred. set (rp1 := if bool_decide (rp_nb_frames rp = 0) then _ else rp). assert (collects buf rp1 fs) as H1 by (unfold rp1; case_bool_decide; [by apply with_toc_collects|done]).
  case_decide; [by exists rp1|]. case_decide; [by exists rp1|]. destruct (parse_sound mem data (toc :: l) self_delimited H Hb) as ([e|[c k]] & -> & Hr); [|done]. mred. exists rp1. by rewrite Hr.
Qed.

(** A packet is added if it goes with the frames before it, and nothing else is. *)
Lemma cat_spec l :
  bytes_at mem data l -> is_bytes l ->
  exists r rp', opus_repacketizer_cat_impl rp mem at_ data (zlen l) self_delimited = Some (r, rp') /\
    if decide (r = OPUS_OK) then exists p rest, packet_ok p /\ (self_delimited = false -> rest = []) /\ l = packet_bytes self_delimited p ++ rest /\ goes_with rp p /\
      rp' = joined rp at_ data self_delimited p /\ collects buf rp' (fs ++ pt_frames p)
    else r = OPUS_INVALID_PACKET /\ collects buf rp' fs /\
      ~ exists p rest, packet_ok p /\ (self_delimited = false -> rest = []) /\ l = packet_bytes self_delimited p ++ rest /\ goes_with rp p.
Proof.
  intros H Hb. destruct (parse_sound mem data l self_delimited H Hb) as (r & E & Hr). destruct r as [e|[c k]].
  - destruct (cat_refused l H Hb) as (rp' & -> & Hc).
    { intros (p & rest & Hp & Hrest & El). rewrite El in H, E. by rewrite (parse_complete mem data self_delimited p rest Hp Hrest H) in E. }
    eexists _, _. split; [done|]. rewrite decide_False by done. split; [done|]. split; [done|]. intros (p & rest & Hp & Hrest & El & _). rewrite El in H, E. by rewrite (parse_complete mem data self_delimited p rest Hp Hrest H) in E.
  - destruct Hr as (p & rest & Hp & Hrest & El). rewrite El in H. rewrite El, (cat_packet p rest Hp Hrest H). case_decide as Hg.
    + eexists _, _. split; [done|]. rewrite decide_True by done. exists p, rest. split_and!; try done. by apply (joined_collects p rest).
    + eexists _, _. split; [done|]. rewrite decide_False by done. split; [done|]. split; [case_decide; [by apply with_toc_collects|done]|].
      intros (p2 & rest2 & Hp2 & Hrest2 & El2 & Hg2). pose proof (cat_packet p2 rest2 Hp2 Hrest2) as E2. rewrite <- El2, (cat_packet p rest Hp Hrest H) in E2. rewrite (decide_False (P := goes_with rp p)), (decide_True (P := goes_with rp p2)) in E2 by done. by specialize (E2 H).
Qed.

End cat.

(** * The repacketizer as its callers see it

    Collected frames are written as packets that the parser takes apart again; padding and
    unpadding keep the frames, in place; a packet of several streams is unpadded stream by
    stream. *)

(** ** No extensions *)

Definition quiet_paddings (buf : list Z) (rp : OpusRepacketizer) : Prop :=
  forall i, (i < length (rp_paddings rp))%nat -> exists d nf s, padding_of buf rp i = Some d /\ rp_padding_nb_frames rp !! i = Some nf /\ rp_paddings rp !! i = Some s /\ quiet d nf.

Lemma count_quiet buf rp n i total : quiet_paddings buf rp -> (i + n <= length (rp_paddings rp))%nat -> count_extensions n i buf rp total = Some total.
Proof.
  intros Hq. revert i. induction n as [|n IH]; intros i Hi; [done|]. cbn [count_extensions]. destruct (Hq i) as (d & nf & s & -> & -> & _ & [Hc _]); [lia|]. mred. rewrite Hc. mred. rewrite decide_False by lia. apply IH. lia.
Qed.

Lemma gather_quiet buf rp n i begin : quiet_paddings buf rp -> (i + n <= length (rp_paddings rp))%nat -> gather_extensions n i begin buf rp 0 [] = Some (Some []).
Proof.
  intros Hq. revert i. induction n as [|n IH]; intros i Hi; [done|]. cbn [gather_extensions]. destruct (Hq i) as (d & nf & s & -> & -> & -> & [_ Hp]); [lia|]. mred. cbn [length]. change (0 - Z.of_nat 0) with 0. rewrite Hp. mred. rewrite decide_False by lia. apply IH. lia.
Qed.

Lemma lookup_padding {A} (l : list A) (x : A) n i (k : nat) y : k = length l -> (i < k + S n)%nat ->
  (l ++ x :: replicate n y) !! i = if decide (i < k)%nat then l !! i else if decide (i = k) then Some x else Some y.
Proof.
  intros -> Hi. case_decide as E; [by apply lookup_app_l|]. rewrite lookup_app_r by lia. case_decide as E2; [by rewrite E2, Nat.sub_diag|]. destruct (i - length l)%nat as [|j] eqn:Ej; [lia|]. cbn. apply lookup_replicate_2. lia.
Qed.

Lemma joined_quiet buf rp fs at_ data self_delimited p :
  collects buf rp fs -> packet_ok p -> quiet_paddings buf rp -> quiet (pt_padding p) (pt_count p) ->
  load buf (at_ (frames_at self_delimited p data + zlen (concat (pt_frames p)))) (zlen (pt_padding p)) = Some (pt_padding p) ->
  quiet_paddings buf (joined rp at_ data self_delimited p).
Proof.
  intros Hco Hp Hq Hqp Hl i. unfold joined, padding_of. cbn [rp_paddings rp_padding_len rp_padding_nb_frames]. rewrite length_app. cbn [length]. rewrite length_replicate. intros Hi.
  destruct (co_paddings _ _ _ Hco) as (H1 & H2 & H3). rewrite (lookup_padding (rp_paddings rp) _ _ _ (length (rp_paddings rp))) by (done || lia). rewrite !(lookup_padding _ _ _ _ (length (rp_paddings rp))) by lia.
  destruct (decide (i < length (rp_paddings rp))%nat) as [E|E]; [by destruct (Hq i E) as (d & nf & s & H); exists d, nf, s|]. destruct (decide (i = length (rp_paddings rp))) as [E2|E2].
  - mred. eexists _, _, _. split_and!; try done.
  - mred. eexists _, _, _. split_and!; try done.
Qed.

(** Without paddings there are no extensions. *)
Lemma discard_quiet buf rp fs : collects buf rp fs -> Forall (fun n => 0 <= n <= 48) (rp_padding_nb_frames rp) -> quiet_paddings buf (discard_paddings rp).
Proof.
  intros Hco Hn i. unfold discard_paddings, padding_of. cbn [rp_paddings rp_padding_len rp_padding_nb_frames]. rewrite length_fmap. intros Hi. destruct (co_paddings _ _ _ Hco) as (H1 & H2 & H3). rewrite !list_lookup_fmap.
  destruct (lookup_lt_is_Some_2 (rp_paddings rp) i) as [s ->]; [lia|]. destruct (lookup_lt_is_Some_2 (rp_padding_len rp) i) as [n ->]; [lia|]. destruct (lookup_lt_is_Some_2 (rp_padding_nb_frames rp) i) as [nf Enf]; [lia|]. rewrite Enf. mred.
  eexists _, _, _. split_and!; try done. apply (zeros_quiet 0). rewrite Forall_lookup in Hn. by apply (Hn i).
Qed.

Lemma discard_collects buf rp fs : collects buf rp fs -> collects buf (discard_paddings rp) fs.
Proof. intros [H1 H2 H3 H4 (H5 & H6 & H7)]. split; try done. unfold discard_paddings. cbn [rp_paddings rp_padding_len rp_padding_nb_frames]. by rewrite !length_fmap. Qed.

Lemma init_collects buf rp : collects buf (opus_repacketizer_init rp) [].
Proof. by split. Qed.

Lemma init_quiet buf rp : quiet_paddings buf (opus_repacketizer_init rp).
Proof. intros i Hi. cbn in Hi. lia. Qed.

(** ** A range of the frames *)

Definition sub {A} (begin end_ : Z) (l : list A) : list A := take (Z.to_nat (end_ - begin)) (drop (Z.to_nat begin) l).

Lemma length_sub {A} begin end_ (l : list A) : 0 <= begin <= end_ -> end_ <= zlen l -> zlen (sub begin end_ l) = end_ - begin.
Proof. intros H1 H2. unfold sub. rewrite length_take, length_drop. lia. Qed.

Lemma sub_fit toc fs begin end_ : frames_fit toc fs -> 0 <= begin < end_ -> end_ <= zlen fs -> frames_fit toc (sub begin end_ fs).
Proof.
  intros [H1 H2 H3 H4] Hb He. pose proof (length_sub begin end_ fs ltac:(lia) He) as Hl. pose proof (frame_samples_range toc H1). split; [done| |by apply Forall_take, Forall_drop|nia].
  intros E. rewrite E in Hl. cbn in Hl. lia.
Qed.

(** The frames that are kept elsewhere can be written anywhere. *)
Lemma sourced_away whole ptr frames fs :
  Forall2 (fun s f => load whole s (zlen f) = Some f) frames fs -> Forall (fun s => exists b o, s = There b o) frames -> sourced whole ptr frames fs.
Proof. intros H. revert ptr. induction H as [|s f frames fs Hl _ IH]; intros ptr Ha; [done|]. inversion Ha as [|? ? (b & o & ->) Ha']; subst. split; [done|]. split; [done|]. by apply IH. Qed.

(** Frames that follow each other in the buffer can be moved to the left. *)
Lemma sourced_here whole ptr o fs : bytes_at whole o (concat fs) -> ptr <= o -> sourced whole ptr (Here <$> (frame_pointers o (sizes_of fs)).1) fs.
Proof.
  revert ptr o. induction fs as [|f fs IH]; intros ptr o H Hp; [done|]. cbn [concat] in H. apply bytes_at_app in H as [H1 H2]. cbn [sizes_of fmap list_fmap frame_pointers].
  pose proof (IH (ptr + zlen f) (o + zlen f) H2 ltac:(lia)) as Hs. unfold sizes_of in Hs. destruct (frame_pointers (o + zlen f) _) as [ps e]. cbn [fst fmap list_fmap sourced load] in *. split; [by apply bytes_at_slice|]. by split.
Qed.

(** ** The shortest packet *)

Lemma packet_fit p : packet_ok p -> frames_fit (pt_toc p) (pt_frames p).
Proof.
  intros Hp. pose proof (packet_count p Hp) as [_ Hc]. pose proof (frame_samples_range _ (po_toc p Hp)). pose proof (po_code0 p Hp). pose proof (po_code1 p Hp). pose proof (po_code2 p Hp). pose proof (po_code3 p Hp).
  unfold pt_code, pt_count in *. split; [apply Hp|intros E; rewrite E in Hc; cbn in Hc; lia|apply Hp|]. destruct (land3_cases (pt_toc p)) as [E|[E|[E|E]]]; intuition nia.
Qed.

(** No packet with the same frames has a shorter header. *)
Lemma shortest_least p toc : packet_ok p -> frames_fit toc (pt_frames p) -> zlen (header_bytes (shortest toc (pt_frames p))) <= zlen (header_bytes p).
Proof.
  intros Hp Hf. pose proof (po_code0 p Hp) as H0. pose proof (po_code1 p Hp) as H1. pose proof (po_code2 p Hp) as H2. pose proof (po_code3 p Hp) as H3. destruct (header_first p) as [t Et].
  pose proof (ff_toc _ _ Hf) as Ht. pose proof (ff_some _ _ Hf) as Hne. unfold pt_code, pt_count, packet_sizes in *. fold (sizes_of (pt_frames p)) in *.
  destruct (decide (Z.land (pt_toc p) 3 = 3)) as [E|E].
  - destruct (H3 E) as (_ & _ & Hv). assert (zlen (header_bytes (code3_packet toc None (pt_frames p))) <= zlen (header_bytes p)) as Hle.
    { rewrite header_code3 by done. unfold header_bytes. rewrite header_of_code3 by done. cbn [length pad_bytes app]. rewrite length_app. destruct (differ (sizes_of (pt_frames p))) eqn:Ed; [|cbn; lia].
      destruct (pt_vbr p) eqn:Ev; [unfold packet_sizes, sizes_of; lia|]. apply differ_spec in Hv; [|done]. by rewrite Hv in Ed. }
    destruct (decide (zlen (pt_frames p) <= 2)); [pose proof (few_header toc _ Hf false None)|rewrite (many_shortest toc _ Hf)]; lia.
  - rewrite plain_header; [|done|destruct (land3_cases (pt_toc p)) as [E'|[E'|[E'|E']]]; intuition lia|done]. destruct (differ (sizes_of (pt_frames p))) eqn:Ed; [|rewrite Et; cbn [length]; lia].
    destruct (land3_cases (pt_toc p)) as [E'|[E'|[E'|E']]]; [| | |done].
    + specialize (H0 E'). destruct (pt_frames p) as [|f [|? ?]]; cbn [length] in H0; [lia|done|lia].
    + destruct (H1 E') as [_ Hs]. apply differ_spec in Hs. by rewrite Hs in Ed.
    + unfold header_bytes, header_of. rewrite decide_False by lia. rewrite decide_True by lia. unfold packet_sizes, sizes_of. cbn [length]. lia.
Qed.

Lemma shortest_bytes_least self_delimited p toc : packet_ok p -> frames_fit toc (pt_frames p) -> zlen (packet_bytes self_delimited (shortest toc (pt_frames p))) <= zlen (packet_bytes self_delimited p).
Proof.
  intros Hp Hf. pose proof (shortest_least p toc Hp Hf). destruct (shortest_ok toc _ Hf) as (_ & Hfr & Hpd). rewrite !packet_length, Hfr, Hpd. cbn [length].
  assert (sd_bytes self_delimited (shortest toc (pt_frames p)) = sd_bytes self_delimited p) as -> by (unfold sd_bytes, last_size_bytes, packet_sizes; by rewrite Hfr). lia.
Qed.

(** ** Writing what was collected *)

Lemma collects_selected rp fs pre old data maxlen self_delimited pad begin end_ :
  let buf := pre ++ old in let p := written self_delimited pad (rp_toc rp) (sub begin end_ fs) maxlen in
  collects buf rp fs -> quiet_paddings buf rp -> 0 <= begin < end_ -> end_ <= zlen fs ->
  (zlen (packet_bytes self_delimited (shortest (rp_toc rp) (sub begin end_ fs))) <= maxlen ->
    sourced buf (data + zlen (header_bytes p) + zlen (sd_bytes self_delimited p)) (sub begin end_ (rp_frames rp)) (sub begin end_ fs)) ->
  selected (rp_toc rp) (sub begin end_ fs) rp pre old data maxlen self_delimited pad begin end_ (sub begin end_ (rp_frames rp)).
Proof.
  intros buf p Hco Hq Hb He Hs. pose proof (length_sub begin end_ fs ltac:(lia) He) as Hl. destruct (co_paddings _ _ _ Hco) as (H1 & _). split; try done.
  - rewrite (co_count _ _ _ Hco). lia.
  - rewrite (co_len _ _ _ Hco). unfold sizes_of, sub. by rewrite fmap_take, fmap_drop.
  - apply count_quiet; [done|lia].
  - apply gather_quiet; [done|lia].
Qed.

Lemma here_placed buf o n x : slice buf o n = Some x -> load buf (Here o) n = Some x.
Proof. done. Qed.

Lemma there_placed buf mem o n x : slice mem o n = Some x -> load buf (There mem o) n = Some x.
Proof. done. Qed.

Lemma first_goes rp0 p : packet_ok p -> goes_with (opus_repacketizer_init rp0) p.
Proof. intros Hp. split; [by left|]. cbn [rp_nb_frames opus_repacketizer_init]. pose proof (ff_time _ _ (packet_fit p Hp)). unfold pt_count. lia. Qed.

Lemma whole_sub {A} (l : list A) n : n = zlen l -> sub 0 n l = l.
Proof. intros ->. unfold sub. rewrite Z.sub_0_r, Nat2Z.id, drop_0. by apply take_ge. Qed.

(** A packet in place: [gap] is what earlier packets have left free. *)
Section unpad.
Context (pre gap rest : list Z) (p : packet) (Hp : packet_ok p) (self_delimited : bool) (maxlen : Z).
Local Abbreviation old := (gap ++ packet_bytes self_delimited p ++ rest).
Local Abbreviation q := (shortest (pt_toc p) (pt_frames p)).
Local Abbreviation data := (zlen pre + zlen gap).
Local Abbreviation rp := (joined (opus_repacketizer_init no_repacketizer) Here data self_delimited p).
Context (Hroom : zlen (packet_bytes self_delimited p) <= maxlen <= zlen old).

Lemma packet_found : bytes_at (pre ++ old) data (packet_bytes self_delimited p ++ []).
Proof. rewrite app_nil_r. exists (pre ++ gap), rest. rewrite <- (assoc_L (++)), length_app. split; [done|lia]. Qed.

Lemma cat_in_place : opus_repacketizer_cat_impl (opus_repacketizer_init no_repacketizer) (pre ++ old) Here data (zlen (packet_bytes self_delimited p)) self_delimited = Some (OPUS_OK, rp).
Proof.
  pose proof (cat_packet (pre ++ old) (pre ++ old) Here (opus_repacketizer_init no_repacketizer) [] (init_collects _ _) data self_delimited p [] Hp ltac:(done) packet_found) as E.
  rewrite app_nil_r, decide_True in E by (by apply first_goes). exact E.
Qed.

Lemma unpadded_collects : collects (pre ++ old) (discard_paddings rp) (pt_frames p) /\ quiet_paddings (pre ++ old) (discard_paddings rp).
Proof.
  pose proof (joined_collects (pre ++ old) (pre ++ old) Here (here_placed _) _ [] (init_collects _ no_repacketizer) data self_delimited p [] Hp (first_goes _ p Hp) packet_found) as Hco. cbn [app] in Hco.
  split; [by apply discard_collects|]. apply (discard_quiet _ _ _ Hco). unfold joined. cbn [opus_repacketizer_init rp_padding_nb_frames app]. pose proof (frames_fit_count _ _ (packet_fit p Hp)). constructor; [unfold pt_count; lia|].
  apply Forall_replicate. lia.
Qed.

Lemma unpad_in_place :
  outcome (opus_repacketizer_out_range_impl (discard_paddings rp) 0 (rp_nb_frames rp) (pre ++ old) (zlen pre) maxlen self_delimited false []) =
  Some (zlen (packet_bytes self_delimited q), filled pre (packet_bytes self_delimited q) old).
Proof.
  destruct unpadded_collects as [Hco Hq]. pose proof (packet_fit p Hp) as Hf. pose proof (frames_fit_count _ _ Hf) as Hc. pose proof (shortest_bytes_least self_delimited p (pt_toc p) Hp Hf) as Hle.
  assert (rp_nb_frames rp = zlen (pt_frames p)) as -> by done. assert (rp_toc (discard_paddings rp) = pt_toc p) as Ht by done.
  assert (sd_bytes self_delimited q = sd_bytes self_delimited p) as Esd by (unfold sd_bytes, last_size_bytes, packet_sizes; destruct (shortest_ok _ _ Hf) as (_ & -> & _); done).
  assert (sourced (pre ++ old) (zlen pre + zlen (header_bytes q) + zlen (sd_bytes self_delimited q)) (sub 0 (zlen (pt_frames p)) (rp_frames (discard_paddings rp))) (pt_frames p)) as Hs.
  { rewrite whole_sub; [|unfold discard_paddings, joined; cbn [rp_frames opus_repacketizer_init app]; rewrite length_fmap, length_frame_pointers; unfold packet_sizes; by rewrite length_fmap].
    unfold discard_paddings, joined. cbn [rp_frames opus_repacketizer_init app]. apply sourced_here; [apply (frames_found _ data self_delimited p [] packet_found)|]. pose proof (shortest_least p (pt_toc p) Hp Hf). rewrite Esd. unfold frames_at, sd_bytes. destruct self_delimited; cbn [length]; lia. }
  pose proof (collects_selected (discard_paddings rp) (pt_frames p) pre old (zlen pre) maxlen self_delimited false 0 (zlen (pt_frames p))) as Hsel. rewrite Ht, !(whole_sub (pt_frames p)) in Hsel by done.
  rewrite (out_range_spec (pt_toc p) (pt_frames p) Hf (discard_paddings rp) Ht pre old (zlen pre) maxlen eq_refl ltac:(lia) self_delimited false 0 (zlen (pt_frames p)) _ (Hsel Hco Hq ltac:(lia) ltac:(lia) (fun _ => Hs))).
  by rewrite decide_False by lia.
Qed.
End unpad.
