(* ===== verification/RepackPad.v ===== *)
(** * What the repacketizer promises

    The contract of the functions of [src/repacketizer.c]: packets that are put together and taken
    apart, padding, and unpadding of packets and of packets of several streams. *)

From S2P Require Import Prelude OpusPacket OpusPacketFacts OpusExt OpusExtWrite Repacketizer RepackOut RepackCat.

(** C9 Unpadding keeps the frames and writes the shortest packet over the old one.  On any
    bytes [opus_packet_unpad] returns without an access outside the buffer: a packet becomes
    the shortest packet with its frames, which is not longer, and nothing behind it changes;
    what is not a packet is refused and left as it was. *)
Theorem opus_packet_unpad_exact pre l post :
  is_bytes l ->
  exists r buf, opus_packet_unpad (pre ++ l ++ post) (zlen pre) (zlen l) = Some (r, buf) /\
    ((exists p, packet_ok p /\ l = packet_bytes false p /\
        let q := shortest (pt_toc p) (pt_frames p) in
        packet_ok q /\ pt_frames q = pt_frames p /\ pt_padding q = [] /\ r = zlen (packet_bytes false q) /\ 0 < r <= zlen l /\
        buf = pre ++ packet_bytes false q ++ drop (Z.to_nat r) l ++ post) \/
     (~ exists p, packet_ok p /\ l = packet_bytes false p) /\ r < 0 /\ buf = pre ++ l ++ post).
Proof.
  intros Hb. unfold opus_packet_unpad. case_decide as E0.
  { eexists _, _. split; [done|]. right. split; [|done]. intros (p & Hp & ->). rewrite packet_length in E0. destruct (header_first p) as [t Et]. rewrite Et in E0. cbn [length] in E0. lia. }
  assert (bytes_at (pre ++ l ++ post) (zlen pre) l) as H by (by exists pre, post).
  destruct (cat_spec (pre ++ l ++ post) (pre ++ l ++ post) Here (here_placed _) (opus_repacketizer_init no_repacketizer) [] (init_collects _ _) (zlen pre) false l H Hb) as (r & rp & E & Hr).
  rewrite E. mred. destruct (decide (r = OPUS_OK)) as [->|Hne].
  - destruct Hr as (p & rest & Hp & Hrest & El & _ & Erp & _). rewrite (Hrest eq_refl), app_nil_r in El. rewrite decide_False by done. pose proof (packet_fit p Hp) as Hf. destruct (shortest_ok _ _ Hf) as (Hq1 & Hq2 & Hq3).
    pose proof (shortest_bytes_least false p (pt_toc p) Hp Hf) as Hle. destruct (header_first (shortest (pt_toc p) (pt_frames p))) as [t Et].
    assert (0 < zlen (packet_bytes false (shortest (pt_toc p) (pt_frames p)))) as Hpos by (rewrite packet_length, Et; cbn [length]; lia).
    pose proof (unpad_in_place pre [] post p Hp false (zlen l)) as Hout. rewrite <- El in *. cbn [app length] in Hout. rewrite Z.add_0_r in Hout. rewrite length_app in Hout. rewrite Erp, Hout by lia. mred. rewrite bool_decide_true by lia. cbn [celt_assert]. mred.
    eexists _, _. split; [done|]. left. exists p. split; [done|]. split; [done|]. split; [done|]. split; [done|]. split; [done|]. split; [done|]. split; [lia|]. rewrite filled_as_app, Nat2Z.id. do 2 f_equal. apply drop_app_le. lia.
  - destruct Hr as (-> & _ & Hno). rewrite decide_True by done. eexists _, _. split; [done|]. right. split; [|done]. intros (p & Hp & El). apply Hno. exists p, []. rewrite app_nil_r. split_and!; try done. by apply first_goes.
Qed.

(** ** Packets of several streams *)

(** All packets but the last tell their length. *)
Fixpoint stream_bytes (ps : list packet) : list Z :=
  match ps with
  | [] => []
  | [p] => packet_bytes false p
  | p :: ps => packet_bytes true p ++ stream_bytes ps
  end.

Definition unpadded (p : packet) : packet := shortest (pt_toc p) (pt_frames p).

Definition followed (ps : list packet) : bool := match ps with [] => false | _ => true end.

Lemma stream_cons p ps : stream_bytes (p :: ps) = packet_bytes (followed ps) p ++ stream_bytes ps.
Proof. destruct ps; [by rewrite app_nil_r|done]. Qed.

Lemma stream_least ps : Forall packet_ok ps -> zlen (stream_bytes (unpadded <$> ps)) <= zlen (stream_bytes ps).
Proof.
  induction 1 as [|p ps Hp _ IH]; [done|]. cbn [fmap list_fmap]. rewrite !stream_cons, !length_app. assert (followed (unpadded <$> ps) = followed ps) as -> by (by destruct ps).
  pose proof (shortest_bytes_least (followed ps) p (pt_toc p) Hp (packet_fit p Hp)). unfold unpadded at 1. lia.
Qed.

Definition more (n : nat) : bool := match n with O => false | S _ => true end.

(** The round of one packet, with [gap] bytes left free by the packets before. *)
Lemma unpad_step n pre gap p rest post dst_len :
  packet_ok p -> (more n = false -> rest = []) ->
  let P := packet_bytes (more n) p in let q := packet_bytes (more n) (unpadded p) in
  let pre' := pre ++ q in let gap' := drop (length q) (gap ++ P) in
  unpad_loop (S n) (pre ++ gap ++ (P ++ rest) ++ post) (zlen pre) dst_len (zlen pre + zlen gap) (zlen (P ++ rest)) =
  unpad_loop n (pre' ++ gap' ++ rest ++ post) (zlen pre') (dst_len + zlen q) (zlen pre' + zlen gap') (zlen rest).
Proof.
  intros Hp Hrest P q pre' gap'. subst P. cbn [unpad_loop]. fold (more n). destruct (header_first p) as [t Et]. pose proof (packet_length (more n) p) as Hpl. rewrite Et in Hpl. cbn [length] in Hpl. rewrite decide_False by (rewrite length_app; lia).
  assert (bytes_at (pre ++ gap ++ (packet_bytes (more n) p ++ rest) ++ post) (zlen pre + zlen gap) (packet_bytes (more n) p ++ rest)) as H.
  { exists (pre ++ gap), post. rewrite <- !(assoc_L (++)), length_app. split; [done|lia]. }
  rewrite (parse_complete _ _ (more n) p rest Hp Hrest H). mred. unfold parsed_of. cbn [pk_packet_offset].
  rewrite <- (assoc_L (++) (packet_bytes (more n) p)). rewrite (cat_in_place pre gap (rest ++ post) p Hp (more n)). mred. rewrite decide_False by done.
  rewrite (unpad_in_place pre gap (rest ++ post) p Hp (more n)) by (rewrite !length_app; lia). mred. rewrite decide_False by lia.
  pose proof (shortest_bytes_least (more n) p (pt_toc p) Hp (packet_fit p Hp)) as Hle. fold (unpadded p) in *. fold q in Hle |- *.
  assert (filled pre q (gap ++ packet_bytes (more n) p ++ rest ++ post) = pre' ++ gap' ++ rest ++ post) as ->.
  { unfold filled, pre', gap'. f_equal. rewrite (assoc_L (++) gap). rewrite drop_app_le by (rewrite length_app; lia). done. }
  assert (zlen pre' = zlen pre + zlen q) as -> by (unfold pre'; rewrite length_app; lia). assert (zlen gap' = zlen gap + zlen (packet_bytes (more n) p) - zlen q) as -> by (unfold gap'; rewrite length_drop, length_app; lia).
  rewrite (length_app (packet_bytes (more n) p)). f_equal; lia.
Qed.

Lemma more_followed (ps : list packet) : more (length ps) = followed ps.
Proof. by destruct ps. Qed.

Lemma unpad_loop_complete ps pre gap post dst_len :
  Forall packet_ok ps ->
  unpad_loop (length ps) (pre ++ gap ++ stream_bytes ps ++ post) (zlen pre) dst_len (zlen pre + zlen gap) (zlen (stream_bytes ps)) =
  Some (dst_len + zlen (stream_bytes (unpadded <$> ps)), filled pre (stream_bytes (unpadded <$> ps)) (gap ++ stream_bytes ps ++ post)).
Proof.
  intros Hps. revert pre gap dst_len. induction Hps as [|p ps Hp Hps IH]; intros pre gap dst_len.
  - cbn [length unpad_loop fmap list_fmap stream_bytes app]. rewrite filled_nil. do 2 f_equal. lia.
  - cbn [length fmap list_fmap]. rewrite !stream_cons. assert (followed (unpadded <$> ps) = followed ps) as -> by (by destruct ps). rewrite <- more_followed.
    rewrite unpad_step; [|done|rewrite more_followed; by destruct ps]. rewrite IH. f_equal. f_equal; [rewrite length_app; lia|]. rewrite <- (assoc_L (++) (packet_bytes _ p)).
    pose proof (shortest_bytes_least (more (length ps)) p (pt_toc p) Hp (packet_fit p Hp)) as Hle. fold (unpadded p) in *. rewrite (assoc_L (++) gap). rewrite <- drop_app_le by (rewrite length_app; lia).
    unfold filled. rewrite drop_drop, length_app, !(assoc_L (++)). done.
Qed.

(** Whatever the bytes are, the loop returns; when it succeeds they were packets. *)
Lemma unpad_loop_sound n pre gap l post dst_len :
  is_bytes l -> 0 <= dst_len ->
  exists r buf, unpad_loop n (pre ++ gap ++ l ++ post) (zlen pre) dst_len (zlen pre + zlen gap) (zlen l) = Some (r, buf) /\ length buf = length (pre ++ gap ++ l ++ post) /\
    (r = OPUS_INVALID_PACKET \/ exists ps, length ps = n /\ Forall packet_ok ps /\ (n <> O -> l = stream_bytes ps)).
Proof.
  revert pre gap l dst_len. induction n as [|n IH]; intros pre gap l dst_len Hb Hd.
  - eexists _, _. split; [done|]. split; [done|]. right. by exists [].
  - assert (bytes_at (pre ++ gap ++ l ++ post) (zlen pre + zlen gap) l) as H by (exists (pre ++ gap), post; rewrite <- !(assoc_L (++)), length_app; split; [done|lia]).
    destruct (parse_sound _ _ l (more n) H Hb) as (r & E & Hr). destruct r as [e|k]; [subst e|].
    + eexists _, _. cbn [unpad_loop]. fold (more n). case_decide; [split; [done|]; split; [done|]; by left|]. rewrite E. mred. split; [done|]. split; [done|]. by left.
    + destruct Hr as (p & rest & Hp & Hrest & ->). rewrite unpad_step by done. apply Forall_app in Hb as [_ Hb].
      set (q := packet_bytes (more n) (unpadded p)). pose proof (shortest_bytes_least (more n) p (pt_toc p) Hp (packet_fit p Hp)) as Hle. fold (unpadded p) in Hle. fold q in Hle.
      destruct (IH (pre ++ q) (drop (length q) (gap ++ packet_bytes (more n) p)) rest (dst_len + zlen q) Hb ltac:(lia)) as (r & buf & -> & Hlen & Hr). eexists _, _. split; [done|]. split.
      * rewrite Hlen, !length_app, length_drop, length_app. lia.
      * destruct Hr as [->|(ps & <- & Hps & Hl)]; [by left|]. right. exists (p :: ps). split; [done|]. split; [by constructor|]. intros _. rewrite stream_cons, more_followed. f_equal. destruct ps as [|p2 ps]; [|by apply Hl]. by apply Hrest.
Qed.

(** C7 The packets of all streams are unpadded in place.  On any bytes
    [opus_multistream_packet_unpad] returns without an access outside the buffer and keeps its
    size; if the bytes are a packet for each stream, these become the shortest packets with
    their frames, one after the other, and nothing behind the old packets changes; otherwise
    an error is returned. *)
Theorem opus_multistream_packet_unpad_exact pre l post nb_streams :
  is_bytes l -> 1 <= nb_streams ->
  exists r buf, opus_multistream_packet_unpad (pre ++ l ++ post) (zlen pre) (zlen l) nb_streams = Some (r, buf) /\ length buf = length (pre ++ l ++ post) /\
    ((exists ps, zlen ps = nb_streams /\ Forall packet_ok ps /\ l = stream_bytes ps /\
        Forall2 (fun p q => packet_ok q /\ pt_frames q = pt_frames p /\ pt_padding q = []) ps (unpadded <$> ps) /\
        r = zlen (stream_bytes (unpadded <$> ps)) /\ r <= zlen l /\ buf = pre ++ stream_bytes (unpadded <$> ps) ++ drop (Z.to_nat r) l ++ post) \/
     r < 0 /\ ~ exists ps, zlen ps = nb_streams /\ Forall packet_ok ps /\ l = stream_bytes ps).
Proof.
  intros Hb Hn. unfold opus_multistream_packet_unpad. case_decide as E0.
  { eexists _, _. split; [done|]. split; [done|]. right. split; [done|]. intros (ps & Hl & Hps & ->). destruct Hps as [|p ps Hp Hps]; [cbn in Hl; lia|]. rewrite stream_cons, length_app in E0.
    pose proof (packet_length (followed ps) p) as Hpl. destruct (header_first p) as [t Et]. rewrite Et in Hpl. cbn [length] in Hpl. lia. }
  pose proof (unpad_loop_sound (Z.to_nat nb_streams) pre [] l post 0 Hb ltac:(lia)) as (r & buf & E & Hlen & Hr). cbn [app length] in E, Hlen. rewrite Z.add_0_r in E. rewrite E. exists r, buf. split; [done|]. split; [done|].
  assert (forall ps, zlen ps = nb_streams -> Forall packet_ok ps -> l = stream_bytes ps -> r = zlen (stream_bytes (unpadded <$> ps)) /\ buf = filled pre (stream_bytes (unpadded <$> ps)) (l ++ post)) as Hps.
  { intros ps Hl Hps ->. pose proof (unpad_loop_complete ps pre [] post 0 Hps) as E2. cbn [app length] in E2. rewrite Z.add_0_r in E2. replace (Z.to_nat nb_streams) with (length ps) in E by lia. rewrite E in E2. by injection E2. }
  destruct Hr as [->|(ps & Hl & Hok & El)].
  - right. split; [done|]. intros (ps & Hl & Hok & El). destruct (Hps ps Hl Hok El) as [H _]. unfold OPUS_INVALID_PACKET in H. lia.
  - left. exists ps. destruct (Hps ps ltac:(lia) Hok (El ltac:(lia))) as [Hrr Hbuf]. pose proof (stream_least ps Hok) as Hle. rewrite <- (El ltac:(lia)) in Hle. split_and!; try done; [lia|by apply El; lia| |lia|].
    + apply Forall2_fmap_r. apply Forall_Forall2_diag. eapply Forall_impl; [|exact Hok]. intros p Hp. apply (shortest_ok _ _ (packet_fit p Hp)).
    + rewrite Hbuf, filled_as_app, Hrr, Nat2Z.id. do 2 f_equal. apply drop_app_le. lia.
Qed.

(** ** Padding *)

Lemma config_again toc c : is_byte toc -> 0 <= c < 4 -> config (Z.lor (config toc) c) = config toc.
Proof.
  intros Ht Hc. set (P := fun c t => config (Z.lor (config t) c) =? config t). assert (P c toc = true) as HP; [|unfold P in HP; lia].
  apply (checkZ_spec 256); [|exact Ht]. assert (c = 0 \/ c = 1 \/ c = 2 \/ c = 3) as [->|[->|[->| ->]]] by lia; by vm_compute.
Qed.

Lemma shortest_config t1 t2 fs : config t1 = config t2 -> shortest t1 fs = shortest t2 fs.
Proof. intros E. unfold shortest, code3_packet. by rewrite E. Qed.

Lemma shortest_toc toc fs : is_byte toc -> config (pt_toc (shortest toc fs)) = config toc.
Proof.
  intros Ht. assert (forall c, 0 <= c < 4 -> config (Z.lor (config toc) c) = config toc) as H by (intros; by apply config_again). pose proof (H 0 ltac:(lia)) as H0. rewrite Z.lor_0_r in H0.
  unfold shortest. destruct fs as [|f [|g [|? ?]]]; cbn [pt_toc code3_packet]; try (by apply H); [done|]. case_decide; by apply H.
Qed.

Lemma written_toc self_delimited pad toc fs maxlen : is_byte toc -> config (pt_toc (written self_delimited pad toc fs maxlen)) = config toc.
Proof. intros Ht. unfold written. destruct (pad && _); [by apply config_again|by apply shortest_toc]. Qed.

(** Frames that are kept elsewhere. *)
Definition away (rp : OpusRepacketizer) : Prop := Forall (fun s => exists b o, s = There b o) (rp_frames rp).

Lemma joined_away rp mem data self_delimited p : away rp -> away (joined rp (There mem) data self_delimited p).
Proof. intros H. unfold away, joined. cbn [rp_frames]. apply Forall_app. split; [done|]. apply Forall_fmap, Forall_true. intros o. by exists mem, o. Qed.

(** A range of frames that are kept elsewhere is written to any place. *)
Lemma out_range_away rp fs pre old maxlen pad begin end_ :
  let buf := pre ++ old in let q := written false pad (rp_toc rp) (sub begin end_ fs) maxlen in
  collects buf rp fs -> quiet_paddings buf rp -> away rp -> 0 <= begin < end_ -> end_ <= zlen fs -> maxlen <= zlen old ->
  outcome (opus_repacketizer_out_range_impl rp begin end_ buf (zlen pre) maxlen false pad []) =
  if decide (zlen (packet_bytes false (shortest (rp_toc rp) (sub begin end_ fs))) > maxlen) then Some (OPUS_BUFFER_TOO_SMALL, buf)
  else Some (zlen (packet_bytes false q), filled pre (packet_bytes false q) old).
Proof.
  intros buf q Hco Hq Ha Hb He Hm. assert (fs <> []) as Hne by (intros ->; cbn in He; lia). destruct (co_fit _ _ _ Hco Hne) as [Hf _]. pose proof (sub_fit _ _ _ _ Hf Hb He) as Hfs.
  apply (out_range_spec _ _ Hfs rp eq_refl pre old (zlen pre) maxlen eq_refl Hm false pad begin end_ (sub begin end_ (rp_frames rp))).
  apply collects_selected; try done. intros _. apply sourced_away.
  - unfold sub. apply Forall2_take, Forall2_drop, Hco.
  - unfold sub. by apply Forall_take, Forall_drop.
Qed.

(** C8 A packet is padded in place to the length that was asked for.  When [new_len] is more
    than the length of the packet and its padding carries no extensions, [opus_packet_pad]
    writes a packet of [new_len] bytes with the same configuration and frames and a padding of
    zeros, changes nothing behind it, and what it wrote unpads to what the packet unpads to.
    Bytes that are not a packet, and lengths that are too small, are refused and left as they
    were. *)
Theorem opus_packet_pad_exact pre l post new_len :
  is_bytes l -> new_len <= zlen (l ++ post) -> (forall p, packet_ok p -> l = packet_bytes false p -> quiet (pt_padding p) (pt_count p)) ->
  exists r buf, opus_packet_pad (pre ++ l ++ post) (zlen pre) (zlen l) new_len = Some (r, buf) /\
    if decide (1 <= zlen l < new_len) then
      (exists p q, packet_ok p /\ l = packet_bytes false p /\ packet_ok q /\ pt_frames q = pt_frames p /\ pt_padding q = replicate (length (pt_padding q)) 0 /\
         unpadded q = unpadded p /\ zlen (packet_bytes false q) = new_len /\ r = OPUS_OK /\ buf = pre ++ packet_bytes false q ++ drop (Z.to_nat new_len) (l ++ post)) \/
      (~ exists p, packet_ok p /\ l = packet_bytes false p) /\ r = OPUS_INVALID_PACKET /\ buf = pre ++ l ++ post
    else r = (if decide (1 <= zlen l /\ zlen l = new_len) then OPUS_OK else OPUS_BAD_ARG) /\ buf = pre ++ l ++ post.
Proof.
  intros Hb Hroom Hquiet. unfold opus_packet_pad, opus_packet_pad_impl. destruct (decide (zlen l < 1)); [mred; eexists _, _; split; [done|]; rewrite (decide_False (P := 1 <= zlen l < new_len)) by lia; by rewrite (decide_False (P := 1 <= zlen l /\ zlen l = new_len)) by lia|].
  destruct (decide (zlen l = new_len)); [mred; eexists _, _; split; [done|]; rewrite !(decide_False (P := 1 <= zlen l < new_len)) by lia; by rewrite (decide_True (P := 1 <= zlen l /\ zlen l = new_len)) by lia|].
  destruct (decide (zlen l > new_len)); [mred; eexists _, _; split; [done|]; rewrite (decide_False (P := 1 <= zlen l < new_len)) by lia; by rewrite (decide_False (P := 1 <= zlen l /\ zlen l = new_len)) by lia|].
  assert (1 <= zlen l < new_len) as Hd by lia. rewrite slice_app by done. mred. unfold opus_repacketizer_cat.
  assert (bytes_at l 0 l) as H by (exists [], []; by rewrite app_nil_r).
  destruct (cat_spec (pre ++ l ++ post) l (There l) (there_placed _ l) (opus_repacketizer_init no_repacketizer) [] (init_collects _ _) 0 false l H Hb) as (r & rp & E & Hr). rewrite E. mred. destruct (decide (r = OPUS_OK)) as [->|Hne].
  - destruct Hr as (p & rest & Hp & Hrest & El & _ & Erp & Hco). rewrite (Hrest eq_refl), app_nil_r in El. pose proof (packet_fit p Hp) as Hf. pose proof (frames_fit_count _ _ Hf) as Hc. cbn [app] in Hco.
    assert (rp_toc rp = pt_toc p) as Ht by (rewrite Erp; done). assert (rp_nb_frames rp = zlen (pt_frames p)) as Hn by apply Hco.
    assert (quiet_paddings (pre ++ l ++ post) rp) as Hq.
    { rewrite Erp. apply (joined_quiet _ _ [] (There l) 0 false p (init_collects _ _) Hp (init_quiet _ _) (Hquiet p Hp El)). cbn [load]. apply bytes_at_slice. apply (frames_found l 0 false p []). by rewrite app_nil_r, <- El. }
    assert (away rp) as Ha by (rewrite Erp; apply joined_away; constructor).
    pose proof (out_range_away rp (pt_frames p) pre (l ++ post) new_len true 0 (rp_nb_frames rp) Hco Hq Ha ltac:(lia) ltac:(lia) ltac:(lia)) as Hout. rewrite Ht, (whole_sub _ _ Hn) in Hout.
    pose proof (shortest_bytes_least false p (pt_toc p) Hp Hf) as Hle. rewrite <- El in Hle. rewrite decide_False in Hout by lia.
    rewrite (decide_False (P := OPUS_OK <> OPUS_OK)) by tauto. rewrite Hout. mred. set (q := written false true (pt_toc p) (pt_frames p) new_len) in *.
    assert (zlen (packet_bytes false q) = new_len) as Hlen by (apply (written_size _ _ Hf new_len false true); lia). rewrite Hlen, decide_True by lia. eexists _, _. split; [done|]. rewrite decide_True by done. left. exists p, q.
    split; [done|]. split; [done|]. split; [by apply written_ok; [|lia]|]. split; [by apply written_frames|]. split; [by apply written_padding|]. split.
    + unfold unpadded, q. rewrite (written_frames _ _ Hf). apply shortest_config, written_toc, Hp.
    + split; [done|]. split; [done|]. rewrite filled_as_app. by rewrite <- Hlen, Nat2Z.id.
  - destruct Hr as (-> & _ & Hno). rewrite decide_True by done. mred. eexists _, _. split; [done|]. rewrite decide_True by done. right. split; [|done]. intros (p & Hp & El). apply Hno. exists p, []. rewrite app_nil_r. split_and!; try done. by apply first_goes.
Qed.

(** ** Putting packets together *)

(** The packets are added one after the other, each from a memory of its own. *)
Fixpoint cat_all (rp : OpusRepacketizer) (ls : list (list Z)) : option OpusRepacketizer :=
  match ls with
  | [] => Some rp
  | l :: ls => '(r, rp) ← opus_repacketizer_cat rp l 0 (zlen l); if decide (r = OPUS_OK) then cat_all rp ls else None
  end.

(** What a structure that can still grow keeps to. *)
Record grown (rp : OpusRepacketizer) (toc : Z) (fs : list (list Z)) : Prop := {
  gr_collects : forall buf, collects buf rp fs;
  gr_quiet : forall buf, quiet_paddings buf rp;
  gr_away : away rp;
  gr_toc : rp_nb_frames rp = 0 \/ config (rp_toc rp) = config toc
}.

Lemma grown_step rp toc fs p :
  grown rp toc fs -> packet_ok p -> config (pt_toc p) = config toc -> quiet (pt_padding p) (pt_count p) -> frame_samples (pt_toc p) * (zlen fs + pt_count p) <= 5760 ->
  exists rp', opus_repacketizer_cat rp (packet_bytes false p) 0 (zlen (packet_bytes false p)) = Some (OPUS_OK, rp') /\ grown rp' toc (fs ++ pt_frames p) /\
    rp_toc rp' = (if decide (rp_nb_frames rp = 0) then pt_toc p else rp_toc rp).
Proof.
  intros [Hco Hq Ha Ht] Hp Hc Hqp Htime. set (l := packet_bytes false p). assert (bytes_at l 0 (packet_bytes false p ++ [])) as H by (exists [], []; by rewrite !app_nil_r).
  assert (goes_with rp p) as Hg by (split; [rewrite Hc; done|by rewrite (co_count _ _ _ (Hco []))]).
  exists (joined rp (There l) 0 false p). split.
  - unfold opus_repacketizer_cat. pose proof (cat_packet [] l (There l) rp fs (Hco []) 0 false p [] Hp ltac:(done) H) as E. rewrite app_nil_r in E. fold l in E. rewrite E. by rewrite decide_True.
  - split; [|done]. split.
    + intros buf. apply (joined_collects buf l (There l) (there_placed buf l) rp fs (Hco buf) 0 false p [] Hp Hg H).
    + intros buf. apply (joined_quiet buf rp fs); try done. cbn [load]. apply bytes_at_slice. by apply (frames_found l 0 false p []).
    + by apply joined_away.
    + right. cbn [joined rp_toc]. case_decide; [done|]. by destruct Ht.
Qed.

Lemma cat_all_spec ps rp toc fs :
  grown rp toc fs -> Forall packet_ok ps -> Forall (fun p => config (pt_toc p) = config toc) ps -> Forall (fun p => quiet (pt_padding p) (pt_count p)) ps ->
  is_byte toc -> frame_samples toc * zlen (fs ++ concat (pt_frames <$> ps)) <= 5760 ->
  exists rp', cat_all rp (packet_bytes false <$> ps) = Some rp' /\ grown rp' toc (fs ++ concat (pt_frames <$> ps)).
Proof.
  intros Hg Hok Hc Hq Ht. revert rp fs Hg. induction ps as [|p ps IH]; intros rp fs Hg Htime; cbn [fmap list_fmap concat cat_all] in *; [exists rp; by rewrite app_nil_r|].
  inversion Hok as [|? ? Hp Hok']; subst. inversion Hc as [|? ? Hcp Hc']; subst. inversion Hq as [|? ? Hqp Hq']; subst. rewrite !length_app in Htime. pose proof (frame_samples_range _ Ht).
  assert (frame_samples (pt_toc p) = frame_samples toc) as Es by (apply config_samples; [apply Hp|done|done]).
  destruct (grown_step rp toc fs p Hg Hp Hcp Hqp) as (rp' & E & Hg' & _); [rewrite Es; unfold pt_count; nia|]. rewrite E. mred. rewrite decide_True by done.
  destruct (IH Hok' Hc' Hq' rp' (fs ++ pt_frames p) Hg') as (rp2 & E2 & Hg2); [rewrite !length_app; lia|]. exists rp2. split; [done|]. by rewrite (assoc_L (++)).
Qed.

(** C6 Packets that are put together come out with their frames.  Packets of one configuration,
    together at most 120 ms long and without extensions, are all accepted; then
    [opus_repacketizer_out_range] writes any range of their frames as a packet, which is the
    shortest one with these frames, or reports that there is no room for it and writes
    nothing. *)
Theorem repacketizer_roundtrip p ps rp0 :
  let fs := concat (pt_frames <$> p :: ps) in
  Forall packet_ok (p :: ps) -> Forall (fun q => config (pt_toc q) = config (pt_toc p)) ps -> Forall (fun q => quiet (pt_padding q) (pt_count q)) (p :: ps) -> frame_samples (pt_toc p) * zlen fs <= 5760 ->
  exists rp, cat_all (opus_repacketizer_init rp0) (packet_bytes false <$> p :: ps) = Some rp /\ opus_repacketizer_get_nb_frames rp = zlen fs /\
    forall begin end_ pre old maxlen, 0 <= begin < end_ -> end_ <= zlen fs -> maxlen <= zlen old ->
      exists q, packet_ok q /\ pt_frames q = sub begin end_ fs /\ config (pt_toc q) = config (pt_toc p) /\
        (forall q', packet_ok q' -> pt_frames q' = pt_frames q -> zlen (packet_bytes false q) <= zlen (packet_bytes false q')) /\
        opus_repacketizer_out_range rp begin end_ (pre ++ old) (zlen pre) maxlen =
          if decide (zlen (packet_bytes false q) <= maxlen) then Some (zlen (packet_bytes false q), pre ++ packet_bytes false q ++ drop (length (packet_bytes false q)) old)
          else Some (OPUS_BUFFER_TOO_SMALL, pre ++ old).
Proof.
  intros fs Hok Hc Hq Ht. inversion Hok as [|? ? Hp _]; subst.
  assert (grown (opus_repacketizer_init rp0) (pt_toc p) []) as Hg by (split; [intros; apply init_collects|intros; apply init_quiet|constructor|by left]).
  destruct (cat_all_spec (p :: ps) _ _ _ Hg Hok) as (rp & E & [Hco Hqq Ha Htoc]); [by constructor|done|apply Hp|done|]. cbn [app] in Hco. fold fs in Hco. exists rp. split; [done|]. split; [apply (Hco [])|].
  intros begin end_ pre old maxlen Hb He Hm. pose proof (length_sub begin end_ fs ltac:(lia) He) as Hl. pose proof (co_count _ _ _ (Hco [])) as Hn. assert (fs <> []) as Hne by (intros Ef; rewrite Ef in He; cbn in He; lia).
  destruct (co_fit _ _ _ (Hco []) Hne) as [Hf _]. pose proof (sub_fit _ _ _ _ Hf Hb He) as Hfs. destruct (shortest_ok _ _ Hfs) as (Hq1 & Hq2 & _). exists (shortest (rp_toc rp) (sub begin end_ fs)).
  split; [done|]. split; [done|]. split; [rewrite shortest_toc by apply Hf; destruct Htoc as [Htoc|]; [lia|done]|]. split.
  - intros q' Hq' Hfr. rewrite Hq2 in Hfr. rewrite <- Hfr in Hfs |- *. by apply shortest_bytes_least.
  - unfold opus_repacketizer_out_range. rewrite (out_range_away rp fs pre old maxlen false begin end_ (Hco _) (Hqq _) Ha Hb He Hm). change (written false false (rp_toc rp) (sub begin end_ fs) maxlen) with (shortest (rp_toc rp) (sub begin end_ fs)).
    rewrite filled_as_app. repeat case_decide; (done || lia).
Qed.

(** ** Examples *)

(** A frame of two bytes; two frames, of two bytes and of three, with three bytes of padding. *)
Definition small_packet : packet := mk_packet 0x08 false None [[1; 2]] [].
Definition large_packet : packet := mk_packet 0x0B true (Some (0%nat, 3)) [[1; 2]; [3; 4; 5]] [0; 0; 0].

Lemma small_packet_ok : packet_ok small_packet.
Proof. split; cbn; try done; try lia; repeat constructor; try (unfold is_byte; lia); cbn; lia. Qed.

Lemma large_packet_ok : packet_ok large_packet.
Proof. split; cbn; try done; try lia; repeat constructor; try (unfold is_byte; lia); cbn; lia. Qed.

Example example_out_range :
  match cat_all (opus_repacketizer_init no_repacketizer) [packet_bytes false small_packet; packet_bytes false large_packet] with
  | Some rp => opus_repacketizer_out_range rp 0 2 (replicate 8 9) 1 7 = Some (5, [9; 0x09; 1; 2; 1; 2; 9; 9])
  | None => False
  end.
Proof. vm_compute. reflexivity. Qed.

Lemma repacketizer_roundtrip_witness :
  packet_ok small_packet /\ packet_ok large_packet /\ exists rp, cat_all (opus_repacketizer_init no_repacketizer) (packet_bytes false <$> [small_packet; large_packet]) = Some rp /\ opus_repacketizer_get_nb_frames rp = 3.
Proof.
  split; [exact small_packet_ok|]. split; [exact large_packet_ok|].
  destruct (repacketizer_roundtrip small_packet [large_packet] no_repacketizer) as (rp & E & Hn & _).
  - exact (Forall_cons_2 _ _ _ small_packet_ok (Forall_cons_2 _ _ _ large_packet_ok (Forall_nil_2 _))).
  - apply (bool_decide_unpack _). vm_compute. exact I.
  - apply (bool_decide_unpack _). vm_compute. exact I.
  - apply (bool_decide_unpack _). vm_compute. exact I.
  - exact (ex_intro _ rp (conj E Hn)).
Defined.

Lemma packet_parsed p : packet_ok p -> opus_packet_parse_impl (packet_bytes false p) 0 (zlen (packet_bytes false p)) false = Some (inr (parsed_of false p 0)).
Proof.
  intros Hp. assert (bytes_at (packet_bytes false p) 0 (packet_bytes false p ++ [])) as H by (exists [], []; by rewrite !app_nil_r).
  pose proof (parse_complete (packet_bytes false p) 0 false p [] Hp ltac:(done) H) as E. by rewrite app_nil_r in E.
Qed.

Lemma example_quiet p : packet_ok p -> [0x08; 1; 2] = packet_bytes false p -> quiet (pt_padding p) (pt_count p).
Proof.
  intros Hp El. pose proof (packet_parsed p Hp) as E. rewrite <- El in E. assert (opus_packet_parse_impl [0x08; 1; 2] 0 3 false = Some (inr (1, mk_parsed 8 [1] [2] 1 3 3 0))) as E2 by (by vm_compute).
  change (zlen [0x08; 1; 2]) with 3 in E. rewrite E2 in E. unfold parsed_of in E. injection E as <- _ _ _ _ _ _ H2. destruct (pt_padding p); [by apply (zeros_quiet 0)|cbn in H2; lia].
Qed.

Lemma opus_packet_pad_exact_witness :
  is_bytes [0x08; 1; 2] /\ exists r buf, opus_packet_pad [7; 0x08; 1; 2; 9; 9; 9; 9] 1 3 6 = Some (r, buf) /\ (r, buf) = (OPUS_OK, [7; 0x0B; 0x41; 1; 1; 2; 0; 9]).
Proof.
  assert (is_bytes [0x08; 1; 2]) as Hb by (apply (bool_decide_unpack _); vm_compute; exact I). split; [exact Hb|].
  destruct (opus_packet_pad_exact [7] [0x08; 1; 2] [9; 9; 9; 9] 6 Hb ltac:(apply (bool_decide_unpack _); vm_compute; exact I) example_quiet) as (r & buf & E & _).
  exists r, buf. split; [exact E|]. vm_compute in E. injection E as <- <-. reflexivity.
Defined.

Lemma opus_packet_unpad_exact_witness :
  is_bytes (packet_bytes false large_packet) /\ exists r buf, opus_packet_unpad (7 :: packet_bytes false large_packet) 1 12 = Some (r, buf) /\ (r, buf) = (7, [7; 0x0A; 2; 1; 2; 3; 4; 5; 4; 5; 0; 0; 0]).
Proof.
  assert (is_bytes (packet_bytes false large_packet)) as Hb by (apply (bool_decide_unpack _); vm_compute; exact I). split; [exact Hb|].
  destruct (opus_packet_unpad_exact [7] (packet_bytes false large_packet) [] Hb) as (r & buf & E & _).
  exists r, buf. rewrite app_nil_r in E. split; [exact E|]. vm_compute in E. injection E as <- <-. reflexivity.
Defined.

Lemma opus_multistream_packet_unpad_exact_witness :
  is_bytes (stream_bytes [large_packet; small_packet]) /\ exists r buf, opus_multistream_packet_unpad (stream_bytes [large_packet; small_packet]) 0 16 2 = Some (r, buf) /\
    (r, buf) = (11, [0x0A; 2; 3; 1; 2; 3; 4; 5; 0x08; 1; 2; 0; 0; 0x08; 1; 2]).
Proof.
  assert (is_bytes (stream_bytes [large_packet; small_packet])) as Hb by (apply (bool_decide_unpack _); vm_compute; exact I). split; [exact Hb|].
  destruct (opus_multistream_packet_unpad_exact [] (stream_bytes [large_packet; small_packet]) [] 2 Hb ltac:(lia)) as (r & buf & E & _).
  exists r, buf. rewrite app_nil_r in E. cbn [app] in E. split; [exact E|]. vm_compute in E. injection E as <- <-. reflexivity.
Defined.

(** What the contract leaves out: bytes of padding that do not read as extensions are refused with
    an internal error, an extension of a frame outside the range makes the range fail after the
    first bytes are written, and a range that starts behind the first frame of a packet loses
    the extensions of its frames. *)
Definition odd_packet : packet := mk_packet 3 false (Some (0%nat, 1)) [[9]] [0x43].
Definition later_extension : packet := mk_packet 3 false (Some (0%nat, 3)) [[9]; [8]] [2; 7; 5].

Example example_odd_padding : opus_packet_pad (packet_bytes false odd_packet ++ [0; 0; 0]) 0 5 8 = Some (OPUS_INTERNAL_ERROR, packet_bytes false odd_packet ++ [0; 0; 0]).
Proof. vm_compute. reflexivity. Qed.

Example example_later_extension :
  opus_packet_extensions_parse [2; 7; 5] 4 2 = Some (0, [mk_ext 3 1 2 1]) /\
  match cat_all (opus_repacketizer_init no_repacketizer) [packet_bytes false later_extension] with
  | Some rp => opus_repacketizer_out_range rp 0 1 (replicate 4 0) 0 4 = Some (OPUS_BAD_ARG, [3; 1; 0; 0]) /\ opus_repacketizer_out_range rp 1 2 (replicate 4 0) 0 4 = Some (2, [0; 8; 0; 0])
  | None => False
  end.
Proof. vm_compute. repeat split. Qed.
