(* ===== verification/Oauth.v ===== *)
(** * Third-party authorization tokens: the oAuth part of [client/ns_turn_msg.c]

    Key conversion, token encryption and decryption.  OpenSSL's AES-GCM is the
    operation of the class [GcmOps], with the stage at which it fails; the class
    [GcmLaws] states what an authenticated cipher promises. *)

From S2P Require Import Prelude CString Integrity.

Inductive ENC_ALG := ENC_ALG_ERROR | A256GCM | A128GCM | ENC_ALG_NUM.

#[export] Instance ENC_ALG_eq_dec : EqDecision ENC_ALG.
Proof. solve_decision. Defined.

Definition OAUTH_KID_SIZE : Z := 128.
Definition OAUTH_ALG_SIZE : Z := 64.
Definition OAUTH_KEY_SIZE : Z := 256.
Definition OAUTH_GCM_NONCE_SIZE : Z := 12.
Definition OAUTH_MAX_NONCE_SIZE : Z := 256.
Definition OAUTH_GCM_TAG_SIZE : Z := 16.
Definition OAUTH_DEFAULT_LIFETIME : Z := 0.
Definition MAX_ENCODED_OAUTH_TOKEN_SIZE : Z := 1024.

Record oauth_key_data := mk_oauth_key_data {
  okd_kid : list Z; okd_ikm_key : list Z; okd_ikm_key_size : Z;
  okd_timestamp : Z; okd_lifetime : Z; okd_as_rs_alg : list Z
}.

Record oauth_key := mk_oauth_key {
  kid : list Z; ikm_key : list Z; ikm_key_size : Z; timestamp : Z; lifetime : Z;
  as_rs_alg : ENC_ALG; as_rs_key : list Z; as_rs_key_size : Z; auth_key : list Z; auth_key_size : Z
}.

Record oauth_encrypted_block := mk_oauth_encrypted_block {
  nonce_length : Z; eb_nonce : list Z; key_length : Z; mac_key : list Z; eb_timestamp : Z; eb_lifetime : Z
}.

Record encoded_oauth_token := mk_encoded_oauth_token { token_bytes : list Z; token_size : Z }.

(** ** Strings *)

(** The number of leading spaces, and the word before a space or the terminator. *)
Fixpoint leading_spaces (s : list Z) : option nat :=
  match s with
  | [] => None
  | c :: s => if decide (c = 32) then S <$> leading_spaces s else Some O
  end.

Fixpoint word (s : list Z) : option (list Z) :=
  match s with
  | [] => None
  | c :: s => if decide (c = 0 \/ c = 32) then Some [] else cons c <$> word s
  end.

Definition remove_spaces (s : list Z) : option (list Z) :=
  n ← leading_spaces s;
  let sfns := drop n s in
  c ← sfns !! O;
  if decide (c = 0) then Some s else
  w ← word sfns;
  if decide (n <> O) then Some (w ++ 0 :: drop (S (length w)) s)
  else e ← s !! length w; Some (if decide (e = 32) then <[length w := 0]> s else s).

(** [char] is signed: bytes of 128 and more are outside the range of letters. *)
Fixpoint normalize_algorithm (s : list Z) : option (list Z) :=
  match s with
  | [] => None
  | c :: s =>
    if decide (c = 0) then Some (c :: s) else
    cons (if decide (c = 95) then 45 else if decide (97 <= c <= 122) then c - 97 + 65 else c)
      <$> normalize_algorithm s
  end.

(** ** Keys *)

Definition calculate_enc_key_length (a : ENC_ALG) : Z :=
  match a with A128GCM => 16 | _ => 32 end.

Definition calculate_auth_key_length (a : ENC_ALG) : Z := 0.

Definition calculate_key (key new_key : list Z) (new_key_size : Z) : option (list Z) :=
  k ← slice key 0 new_key_size; splice new_key 0 k.

(** [STRCPY] to an array of [n] characters. *)
Definition STRCPY (n : nat) (src : list Z) : option (list Z) :=
  s ← strncpy n src; Some (<[(n - 1)%nat := 0]> s).

(** The result and the key written, [None] when the function returns before it is
    complete: the caller then drops it.  [turn_time] is the clock.  An empty key is
    only reported in the error message. *)
Definition convert_oauth_key_data (oakd : oauth_key_data) (turn_time : Z) : option (bool * option oauth_key) :=
  kid ← remove_spaces (okd_kid oakd);
  alg ← remove_spaces (okd_as_rs_alg oakd);
  alg ← normalize_algorithm alg;
  k0 ← kid !! O;
  if decide (k0 = 0) then Some (false, None) else
  kid ← STRCPY (Z.to_nat (OAUTH_KID_SIZE + 1)) kid;
  ikm ← slice (okd_ikm_key oakd) 0 (OAUTH_KEY_SIZE + 1);
  let ts := if decide (okd_timestamp oakd = 0) then turn_time else okd_timestamp oakd in
  let lt := if decide (okd_lifetime oakd = 0) then OAUTH_DEFAULT_LIFETIME else okd_lifetime oakd in
  is128 ← strcmp_eq alg (cstr "A128GCM");
  is256 ← strcmp_eq alg (cstr "A256GCM");
  let zeros := replicate (Z.to_nat (OAUTH_KEY_SIZE + 1)) 0 in
  let enc_alg := if (is128 : bool) then Some A128GCM else if (is256 : bool) then Some A256GCM else None in
  match enc_alg with
  | None => Some (false, None)
  | Some a =>
    rs_key ← calculate_key ikm zeros (calculate_enc_key_length a);
    Some (true, Some (mk_oauth_key kid ikm (okd_ikm_key_size oakd) ts lt a rs_key
                        (calculate_enc_key_length a) zeros (calculate_auth_key_length a)))
  end.

(** ** The cipher *)

Inductive gcm_result :=
  | GcmOk (ciphertext tag : list Z)
  | GcmInitFails      (* [EVP_EncryptInit_ex] with the cipher *)
  | GcmSetupFails     (* the nonce length, the key or the server name *)
  | GcmUpdateFails.   (* the text *)

Class GcmOps := {
  gcm_encrypt : ENC_ALG -> list Z -> list Z -> list Z -> list Z -> gcm_result;
  gcm_decrypt : ENC_ALG -> list Z -> list Z -> list Z -> list Z -> list Z -> option (list Z)
}.

(** Arguments: algorithm, key, nonce, associated data, text (and tag).  Decryption
    recomputes the tag: it succeeds exactly on what encryption gives. *)
Class GcmLaws `{GcmOps} : Prop := {
  gcm_length a k n aad pt ct tag : gcm_encrypt a k n aad pt = GcmOk ct tag ->
    length ct = length pt /\ zlen tag = OAUTH_GCM_TAG_SIZE;
  gcm_decrypt_spec a k n aad ct tag pt :
    gcm_decrypt a k n aad ct tag = Some pt <-> gcm_encrypt a k n aad pt = GcmOk ct tag
}.

(** [get_cipher_type]: the ciphers that exist. *)
Definition get_cipher_type (a : ENC_ALG) : option ENC_ALG :=
  match a with A128GCM => Some A128GCM | A256GCM => Some A256GCM | _ => None end.

Section token.
Context `{GcmOps}.

(** The cipher reads as many bytes of the key array as it needs. *)
Definition cipher_key (key : oauth_key) : option (list Z) :=
  slice (as_rs_key key) 0 (calculate_enc_key_length (as_rs_alg key)).

(** [nonce0] may be null; [rnd] is then the random nonce.  [return -1] is [true]. *)
Definition encode_oauth_token_gcm (server_name : list Z) (etoken : encoded_oauth_token) (key : oauth_key)
    (dtoken : oauth_encrypted_block) (nonce0 : option (list Z)) (rnd : list Z)
    : option (bool * encoded_oauth_token) :=
  if decide (key_length dtoken <= MAXSHASIZE) then
    let orig := replicate (Z.to_nat MAX_ENCODED_OAUTH_TOKEN_SIZE) 0 in
    nonce ← match nonce0 with Some n => slice n 0 OAUTH_GCM_NONCE_SIZE | None => Some rnd end;
    orig ← st16 orig 0 (nswap16 OAUTH_GCM_NONCE_SIZE);
    orig ← splice orig 2 nonce;
    let len := 2 + OAUTH_GCM_NONCE_SIZE in
    orig ← st16 orig len (nswap16 (key_length dtoken));
    let len := len + 2 in
    mac ← slice (mac_key dtoken) 0 (key_length dtoken);
    orig ← splice orig len mac;
    let len := len + key_length dtoken in
    orig ← st64 orig len (nswap64 (eb_timestamp dtoken));
    let len := len + 8 in
    orig ← st32 orig len (nswap32 (eb_lifetime dtoken));
    let len := len + 4 in
    match get_cipher_type (as_rs_alg key) with
    | None => Some (false, etoken)
    | Some cipher =>
      k ← cipher_key key;
      sn_len ← strlen server_name;
      aad ← slice server_name 0 sn_len;
      head ← slice orig 0 (OAUTH_GCM_NONCE_SIZE + 2);
      pt ← slice orig (OAUTH_GCM_NONCE_SIZE + 2) (len - (OAUTH_GCM_NONCE_SIZE + 2));
      match gcm_encrypt cipher k nonce aad pt with
      | GcmInitFails => Some (true, etoken)
      | GcmSetupFails => Some (false, etoken)
      | GcmUpdateFails =>
        tok ← splice (token_bytes etoken) 0 head;
        Some (true, mk_encoded_oauth_token tok (token_size etoken))
      | GcmOk ct tag =>
        tok ← splice (token_bytes etoken) 0 head;
        tok ← splice tok (OAUTH_GCM_NONCE_SIZE + 2) ct;
        let outl := zlen ct in
        tok ← splice tok (OAUTH_GCM_NONCE_SIZE + 2 + outl) tag;
        let outl := outl + OAUTH_GCM_TAG_SIZE in
        Some (true, mk_encoded_oauth_token tok (2 + OAUTH_GCM_NONCE_SIZE + outl))
      end
    end
  else Some (false, etoken).

(** The bytes of [decoded_field] that the cipher did not write are not initialised:
    reading them is undefined. *)
Definition decode_oauth_token_gcm (server_name : list Z) (etoken : encoded_oauth_token) (key : oauth_key)
    (dtoken : oauth_encrypted_block) : option (bool * oauth_encrypted_block) :=
  snl ← ld16 (token_bytes etoken) 0;
  let nonce_len := nswap16 snl in
  let dtoken := mk_oauth_encrypted_block nonce_len (eb_nonce dtoken) (key_length dtoken) (mac_key dtoken)
                  (eb_timestamp dtoken) (eb_lifetime dtoken) in
  let min_encoded_field_size := 2 + 4 + 8 + nonce_len + 2 + OAUTH_GCM_TAG_SIZE + 1 in
  if decide (token_size etoken < min_encoded_field_size) then Some (false, dtoken) else
  let encoded_field_size := u32 (u32 (token_size etoken) - nonce_len - 2 - OAUTH_GCM_TAG_SIZE) in
  n ← slice (token_bytes etoken) 2 nonce_len;
  nonce' ← splice (eb_nonce dtoken) 0 n;
  let dtoken := mk_oauth_encrypted_block nonce_len nonce' (key_length dtoken) (mac_key dtoken)
                  (eb_timestamp dtoken) (eb_lifetime dtoken) in
  tag ← slice (token_bytes etoken) (nonce_len + 2 + encoded_field_size) OAUTH_GCM_TAG_SIZE;
  match get_cipher_type (as_rs_alg key) with
  | None => Some (false, dtoken)
  | Some cipher =>
    k ← cipher_key key;
    sn_len ← strlen server_name;
    aad ← slice server_name 0 sn_len;
    encoded_field ← slice (token_bytes etoken) (nonce_len + 2) encoded_field_size;
    match gcm_decrypt cipher k n aad encoded_field tag with
    | None => Some (false, dtoken)
    | Some decoded_field =>
      kl ← ld16 decoded_field 0;
      let kl := nswap16 kl in
      mac ← slice decoded_field 2 kl;
      mac_key' ← splice (mac_key dtoken) 0 mac;
      ts ← ld64 decoded_field (2 + kl);
      lt ← ld32 decoded_field (2 + kl + 8);
      Some (true, mk_oauth_encrypted_block nonce_len nonce' kl mac_key' (nswap64 ts) (nswap32 lt))
    end
  end.

Definition encode_oauth_token (server_name : list Z) (etoken : encoded_oauth_token) (key : oauth_key)
    (dtoken : oauth_encrypted_block) (nonce0 : option (list Z)) (rnd : list Z)
    : option (bool * encoded_oauth_token) :=
  match as_rs_alg key with
  | A256GCM | A128GCM => encode_oauth_token_gcm server_name etoken key dtoken nonce0 rnd
  | _ => Some (false, etoken)
  end.

Definition decode_oauth_token (server_name : list Z) (etoken : encoded_oauth_token) (key : oauth_key)
    (dtoken : oauth_encrypted_block) : option (bool * oauth_encrypted_block) :=
  match as_rs_alg key with
  | A256GCM | A128GCM => decode_oauth_token_gcm server_name etoken key dtoken
  | _ => Some (false, dtoken)
  end.

(** ** Layout of a token *)

(** The text that is encrypted. *)
Definition plain_token (kl : Z) (mac : list Z) (ts lt : Z) : list Z :=
  be_bytes 2 kl ++ mac ++ be_bytes 8 ts ++ be_bytes 4 lt.

(** The token on the wire. *)
Definition wire_token (n ct tag : list Z) : list Z :=
  (be_bytes 2 (zlen n) ++ n) ++ ct ++ tag.

Lemma length_plain_token mac ts lt : zlen (plain_token (zlen mac) mac ts lt) = 14 + zlen mac.
Proof. unfold plain_token. autorewrite with lens. lia. Qed.

Definition block_ok (d : oauth_encrypted_block) : Prop :=
  0 <= key_length d <= MAXSHASIZE /\ key_length d <= zlen (mac_key d) /\ is_bytes (mac_key d) /\
  0 <= eb_timestamp d < 2 ^ 64 /\ 0 <= eb_lifetime d < 2 ^ 32.

(** The key bytes and the text of a block. *)
Definition block_mac (d : oauth_encrypted_block) : list Z := take (Z.to_nat (key_length d)) (mac_key d).
Definition block_text (d : oauth_encrypted_block) : list Z :=
  plain_token (key_length d) (block_mac d) (eb_timestamp d) (eb_lifetime d).

Definition key_bytes (key : oauth_key) : list Z :=
  take (Z.to_nat (calculate_enc_key_length (as_rs_alg key))) (as_rs_key key).

Definition key_ok (key : oauth_key) : Prop :=
  (as_rs_alg key = A256GCM \/ as_rs_alg key = A128GCM) /\ 32 <= zlen (as_rs_key key).

Lemma cipher_key_ok key : key_ok key -> cipher_key key = Some (key_bytes key).
Proof.
  intros [Ha Hk]. unfold cipher_key, key_bytes.
  assert (0 <= calculate_enc_key_length (as_rs_alg key) <= 32) by (destruct (as_rs_alg key); cbn; lia).
  by rewrite slice_val, drop_0 by lia.
Qed.

Lemma cipher_ok key : key_ok key -> get_cipher_type (as_rs_alg key) = Some (as_rs_alg key).
Proof. by intros [[->| ->] _]. Qed.

Lemma encode_value sn rest et key d n rnd ct tag :
  Forall (fun c => c <> 0) sn -> key_ok key -> block_ok d -> length n = 12%nat ->
  zlen (token_bytes et) = MAX_ENCODED_OAUTH_TOKEN_SIZE -> length ct = length (block_text d) ->
  zlen tag = OAUTH_GCM_TAG_SIZE ->
  gcm_encrypt (as_rs_alg key) (key_bytes key) n sn (block_text d) = GcmOk ct tag ->
  encode_oauth_token_gcm (sn ++ 0 :: rest) et key d (Some n) rnd
    = Some (true, mk_encoded_oauth_token
                    (wire_token n ct tag ++ drop (length (wire_token n ct tag)) (token_bytes et))
                    (14 + zlen ct + OAUTH_GCM_TAG_SIZE)).
Proof.
  intros Hsn Hk (Hkl & Hml & Hmb & _) Hn Hcap Hct Htag E. unfold MAXSHASIZE in Hkl.
  assert (zlen (block_mac d) = key_length d) as Hm by (unfold block_mac; rewrite length_take; lia).
  unfold encode_oauth_token_gcm. rewrite decide_True by (unfold MAXSHASIZE; lia).
  unfold OAUTH_GCM_NONCE_SIZE in *. unfold OAUTH_GCM_TAG_SIZE in Htag.
  rewrite (slice_app_end [] n) by (done || lia). mred.
  assert (length (replicate (Z.to_nat MAX_ENCODED_OAUTH_TOKEN_SIZE) 0) = 1024%nat) as H0
    by (by rewrite length_replicate).
  generalize dependent (replicate (Z.to_nat MAX_ENCODED_OAUTH_TOKEN_SIZE) 0). intros z Hz.
  rewrite !st_nswap, splice_prefix by len_lia. mred. rewrite splice_next by len_lia. mred.
  rewrite st_nswap, splice_next by len_lia. mred.
  rewrite (slice_val (mac_key d)), drop_0 by lia. mred. fold (block_mac d).
  rewrite splice_next by len_lia. mred. rewrite st_nswap, splice_next by len_lia. mred.
  rewrite st_nswap, splice_next by len_lia. mred. rewrite !drop_drop.
  rewrite cipher_ok, cipher_key_ok by done. mred. rewrite strlen_app by done. mred.
  rewrite (slice_prefix sn) by done. mred. rewrite <- !(assoc_L (++)).
  change (?a ++ ?b ++ be_bytes 2 ?c ++ ?e ++ be_bytes 8 ?f ++ be_bytes 4 ?g ++ ?r)
    with (a ++ b ++ be_bytes 2 c ++ e ++ be_bytes 8 f ++ be_bytes 4 g ++ r).
  rewrite (assoc_L (++) (be_bytes 2 12) n). rewrite slice_prefix by len_lia. mred.
  set (r := drop _ z).
  replace (be_bytes 2 (key_length d) ++ block_mac d ++ be_bytes 8 (eb_timestamp d) ++
           be_bytes 4 (eb_lifetime d) ++ r) with (block_text d ++ r)
    by (unfold block_text, plain_token; by rewrite <- !(assoc_L (++))).
  assert (zlen (block_text d) = 14 + key_length d) as Hl
    by (unfold block_text; rewrite <- Hm at 1; rewrite length_plain_token; lia).
  rewrite slice_app by len_lia. mred. rewrite E. mred.
  unfold MAX_ENCODED_OAUTH_TOKEN_SIZE in Hcap.
  rewrite splice_prefix by len_lia. mred. rewrite splice_next by len_lia. mred.
  rewrite splice_next by len_lia. mred. rewrite !drop_drop.
  do 3 f_equal; [|unfold OAUTH_GCM_TAG_SIZE; lia].
  unfold wire_token. assert (zlen n = 12) as -> by lia. rewrite <- !(assoc_L (++)). do 4 f_equal.
  f_equal. len_lia.
Qed.

Context `{!GcmLaws}.

(** The block a decoder starts from. *)
Definition arrays_ok (d : oauth_encrypted_block) : Prop :=
  zlen (eb_nonce d) = OAUTH_MAX_NONCE_SIZE /\ zlen (mac_key d) = MAXSHASIZE.

Lemma decode_value sn rest tr key d0 n ct tag kl mac ts lt :
  Forall (fun c => c <> 0) sn -> key_ok key -> arrays_ok d0 -> length n = 12%nat ->
  zlen tag = OAUTH_GCM_TAG_SIZE -> length ct = length (plain_token kl mac ts lt) ->
  zlen mac = kl -> 1 <= kl <= MAXSHASIZE -> 0 <= ts < 2 ^ 64 -> 0 <= lt < 2 ^ 32 ->
  gcm_decrypt (as_rs_alg key) (key_bytes key) n sn ct tag = Some (plain_token kl mac ts lt) ->
  decode_oauth_token_gcm (sn ++ 0 :: rest)
    (mk_encoded_oauth_token (wire_token n ct tag ++ tr) (14 + zlen ct + OAUTH_GCM_TAG_SIZE)) key d0
    = Some (true, mk_oauth_encrypted_block 12 (n ++ drop 12 (eb_nonce d0)) kl
                    (mac ++ drop (length mac) (mac_key d0)) ts lt).
Proof.
  intros Hsn Hk [Hdn Hdm] Hn Htag Hct Hm Hkl Hts Hlt E.
  unfold MAXSHASIZE, OAUTH_MAX_NONCE_SIZE, OAUTH_GCM_TAG_SIZE in *.
  assert (zlen (plain_token kl mac ts lt) = 14 + kl) as Hpl by (unfold plain_token; len_lia).
  unfold decode_oauth_token_gcm. cbn [token_bytes token_size].
  unfold wire_token. assert (zlen n = 12) as -> by lia. rewrite <- !(assoc_L (++)).
  rewrite (ld_be 2 _ _ 12) by (by apply (slice_prefix (be_bytes 2 12))). mred.
  rewrite nswap_involutive by lia. unfold OAUTH_GCM_TAG_SIZE.
  rewrite decide_False by lia. rewrite (wrap_small 32 (14 + zlen ct + 16)) by lia.
  rewrite (wrap_small 32) by lia.
  replace (14 + zlen ct + 16 - 12 - 2 - 16) with (zlen ct) by lia.
  rewrite (slice_app (be_bytes 2 12) n _ 2 12) by len_lia. mred.
  cbn [eb_nonce mac_key]. rewrite (splice_prefix (eb_nonce d0)) by lia. mred.
  rewrite Hn. rewrite !(assoc_L (++)). rewrite <- (assoc_L (++) _ tag).
  rewrite (slice_app _ tag _ (12 + 2 + zlen ct) 16) by len_lia. mred.
  rewrite cipher_ok, cipher_key_ok by done. mred. rewrite strlen_app by done. mred.
  rewrite (slice_prefix sn) by done. mred.
  rewrite <- (assoc_L (++) _ ct). rewrite (slice_app _ ct _ (12 + 2) (zlen ct)) by len_lia. mred. rewrite E.
  unfold plain_token.
  rewrite (ld_be 2 _ _ kl) by (by apply (slice_prefix (be_bytes 2 kl))). mred.
  rewrite (nswap_involutive 2) by lia.
  rewrite (slice_app (be_bytes 2 kl) mac) by (rewrite ?length_be_bytes; (done || lia)). mred.
  rewrite (splice_prefix (mac_key d0)) by lia. mred.
  rewrite (ld_be 8 _ _ ts) by (rewrite (assoc_L (++) (be_bytes 2 kl)); apply slice_app; len_lia). mred.
  rewrite (ld_be 4 _ _ lt)
    by (rewrite !(assoc_L (++)); apply slice_app_end; len_lia). mred.
  by rewrite !nswap_involutive by lia.
Qed.

(** C34 A token encoded for a server is decoded by a server of the same name with the
    same key: the decoder gets the MAC key, its length, the time stamp and the
    lifetime that were encoded, and the nonce; the MAC key must not be empty. *)
Theorem oauth_token_roundtrip sn rest et key d d0 n rnd :
  Forall (fun c => c <> 0) sn -> key_ok key -> block_ok d -> 1 <= key_length d -> arrays_ok d0 ->
  length n = 12%nat -> zlen (token_bytes et) = MAX_ENCODED_OAUTH_TOKEN_SIZE ->
  (exists ct tag, gcm_encrypt (as_rs_alg key) (key_bytes key) n sn (block_text d) = GcmOk ct tag) ->
  exists et' d', encode_oauth_token (sn ++ 0 :: rest) et key d (Some n) rnd = Some (true, et') /\
    token_size et' = 44 + key_length d /\
    decode_oauth_token (sn ++ 0 :: rest) et' key d0 = Some (true, d') /\
    key_length d' = key_length d /\ block_mac d' = block_mac d /\
    eb_timestamp d' = eb_timestamp d /\ eb_lifetime d' = eb_lifetime d /\
    nonce_length d' = 12 /\ take 12 (eb_nonce d') = n.
Proof.
  intros Hsn Hk Hd H1 Hd0 Hn Hcap (ct & tag & E). destruct (gcm_length _ _ _ _ _ _ _ E) as [Hct Htag].
  pose proof Hd as (Hkl & Hml & _ & Hts & Hlt).
  assert (zlen (block_mac d) = key_length d) as Hm by (unfold block_mac; rewrite length_take; lia).
  pose proof (encode_value sn rest et key d n rnd ct tag Hsn Hk Hd Hn Hcap Hct Htag E) as Ee.
  pose proof (proj2 (gcm_decrypt_spec _ _ _ _ _ _ _) E) as Ed.
  pose proof (decode_value sn rest (drop (length (wire_token n ct tag)) (token_bytes et)) key d0 n ct tag
    (key_length d) (block_mac d) (eb_timestamp d) (eb_lifetime d) Hsn Hk Hd0 Hn Htag Hct Hm (conj H1 (proj2 Hkl)) Hts Hlt Ed)
    as Ev.
  eexists _, _. split; [|split; [|split]].
  - unfold encode_oauth_token. destruct Hk as [[-> | ->] _]; exact Ee.
  - cbn [token_size]. unfold OAUTH_GCM_TAG_SIZE. rewrite Hct. unfold block_text. rewrite <- Hm at 1.
    rewrite length_plain_token. lia.
  - unfold decode_oauth_token. destruct Hk as [[-> | ->] _]; exact Ev.
  - cbn. split_and!; try done.
    + unfold block_mac at 1. cbn [mac_key key_length]. rewrite take_app_le by lia.
      by rewrite take_ge by lia.
    + rewrite <- Hn. by rewrite take_app_length.
Qed.

(** C35 A token is accepted only when it is what the encryption gives, under the
    server's key and name and the nonce it carries, for the text that is decoded:
    a token for another server name, or a changed one, is rejected. *)
Theorem oauth_token_sound sn rest et key d0 d :
  Forall (fun c => c <> 0) sn -> key_ok key -> is_bytes (token_bytes et) ->
  decode_oauth_token (sn ++ 0 :: rest) et key d0 = Some (true, d) ->
  exists n ct tag pt tr, token_bytes et = wire_token n ct tag ++ tr /\ nonce_length d = zlen n /\
    gcm_encrypt (as_rs_alg key) (key_bytes key) n sn pt = GcmOk ct tag /\
    (exists v, ld16 pt 0 = Some v /\ key_length d = nswap16 v) /\
    slice pt 2 (key_length d) = Some (block_mac d).
Proof.
  intros Hsn Hk Hb E.
  assert (decode_oauth_token_gcm (sn ++ 0 :: rest) et key d0 = Some (true, d)) as Eg
    by (unfold decode_oauth_token in E; destruct Hk as [[Ea|Ea] _]; by rewrite Ea in E).
  clear E. unfold decode_oauth_token_gcm in Eg.
  destruct (ld16 (token_bytes et) 0) as [snl|] eqn:Enl; [|done]. cbn [mbind option_bind] in Eg.
  set (nl := nswap16 snl) in *. case_decide as Hsz; [done|].
  destruct (slice (token_bytes et) 2 nl) as [n|] eqn:En; [|done]. cbn [mbind option_bind] in Eg.
  destruct (splice _ 0 n) as [nonce'|]; [|done]. cbn [mbind option_bind] in Eg.
  set (efs := u32 _) in *.
  destruct (slice (token_bytes et) (nl + 2 + efs) OAUTH_GCM_TAG_SIZE) as [tag|] eqn:Etag; [|done].
  cbn [mbind option_bind] in Eg. rewrite cipher_ok, cipher_key_ok in Eg by done.
  cbn [mbind option_bind] in Eg. rewrite strlen_app in Eg by done. cbn [mbind option_bind] in Eg.
  rewrite slice_prefix in Eg by done. cbn [mbind option_bind] in Eg.
  destruct (slice (token_bytes et) (nl + 2) efs) as [ct|] eqn:Ect; [|done]. cbn [mbind option_bind] in Eg.
  destruct (gcm_decrypt _ _ _ _ _ _) as [pt|] eqn:Edec; [|done].
  destruct (ld16 pt 0) as [kl|] eqn:Ekl; [|done]. cbn [mbind option_bind] in Eg.
  destruct (slice pt 2 (nswap16 kl)) as [mac|] eqn:Emac; [|done]. cbn [mbind option_bind] in Eg.
  destruct (splice (mac_key _) 0 mac) as [mac'|] eqn:Esp; [|done]. cbn [mbind option_bind] in Eg.
  destruct (ld64 pt _) as [ts|]; [|done]. cbn [mbind option_bind] in Eg.
  destruct (ld32 pt _) as [lt|]; [|done]. cbn [mbind option_bind] in Eg. injection Eg as <-.
  apply gcm_decrypt_spec in Edec. pose proof (slice_length _ _ _ _ En) as Hnl.
  unfold ld in Enl. destruct (slice (token_bytes et) 0 (Z.of_nat 2)) as [m|] eqn:Em; [|done].
  injection Enl as <-. assert (is_bytes m) as Hmb by (by eapply slice_bytes).
  assert (length m = 2%nat) as Hm2 by (apply slice_length in Em; lia).
  assert (m = be_bytes 2 (zlen n)) as Hm.
  { rewrite Hnl. unfold nl. rewrite <- Hm2 at 2. rewrite nswap_le_val by done.
    rewrite <- Hm2. by rewrite be_bytes_be_val. }
  pose proof (slice_concat _ _ _ _ _ _ Em En) as H1.
  rewrite (Z.add_comm nl 2) in Ect, Etag.
  pose proof (slice_concat _ _ _ _ _ _ H1 Ect) as H2. pose proof (slice_concat _ _ _ _ _ _ H2 Etag) as H3.
  destruct (slice_at_0 _ _ _ H3) as [tr Htr].
  exists n, ct, tag, pt, tr. cbn [nonce_length key_length]. split_and!; try done.
  - rewrite Htr, Hm. unfold wire_token. by rewrite <- !(assoc_L (++)).
  - by exists kl.
  - rewrite Emac. f_equal. unfold block_mac. cbn [mac_key key_length].
    pose proof (slice_length _ _ _ _ Emac) as Hml.
    destruct (splice_split _ _ _ _ Esp) as (pre & mid & post & _ & -> & Hpre & _).
    destruct pre; [|cbn in Hpre; lia]. cbn [app]. rewrite take_app_le by lia. by rewrite take_ge by lia.
Qed.

(** A token whose nonce length is above 256 makes the decoder write past the end
    of the nonce array, before anything is authenticated: the announced length is only
    compared with the size of the token, which can be up to 1024. *)
Theorem oauth_nonce_overflow sn et key d0 snl :
  ld16 (token_bytes et) 0 = Some snl -> arrays_ok d0 -> OAUTH_MAX_NONCE_SIZE < nswap16 snl ->
  33 + nswap16 snl <= token_size et -> decode_oauth_token_gcm sn et key d0 = None.
Proof.
  intros Hl [Hd _] Hn Hs. unfold decode_oauth_token_gcm. rewrite Hl. mred.
  unfold OAUTH_GCM_TAG_SIZE. rewrite decide_False by lia.
  destruct (slice (token_bytes et) 2 (nswap16 snl)) as [n|] eqn:En; [|done]. mred. cbn [eb_nonce].
  apply slice_length in En. unfold splice. rewrite decide_False; [done|]. intros [_ H2]. lia.
Qed.

End token.

(** ** A concrete instance

    An exclusive or with the first key byte, and a constant tag, in place of GCM. *)

Definition toy_text (k pt : list Z) : list Z := (fun b => Z.lxor b (default 0 (k !! O))) <$> pt.

Definition toy_gcm : GcmOps := {|
  gcm_encrypt a k n aad pt := GcmOk (toy_text k pt) (replicate 16 7);
  gcm_decrypt a k n aad ct tag := if decide (tag = replicate 16 7) then Some (toy_text k ct) else None
|}.

Lemma toy_text_involutive k pt : toy_text k (toy_text k pt) = pt.
Proof.
  unfold toy_text. rewrite <- list_fmap_compose. induction pt as [|b pt IH]; [done|].
  cbn. rewrite lxor_cancel_r. f_equal. exact IH.
Qed.

Lemma toy_gcm_laws : @GcmLaws toy_gcm.
Proof.
  split; cbn [gcm_encrypt gcm_decrypt toy_gcm].
  - intros a k n aad pt ct tag [= <- <-]. split; [apply length_fmap|done].
  - intros a k n aad ct tag pt. split.
    + case_decide; [|done]. intros [= <-]. subst. by rewrite toy_text_involutive.
    + intros [= <- <-]. by rewrite decide_True, toy_text_involutive.
Qed.

Definition a_key : oauth_key :=
  mk_oauth_key [107; 0] (replicate 257 3) 16 1 1 A128GCM (replicate 257 3) 16 (replicate 257 0) 0.
Definition a_block : oauth_encrypted_block :=
  mk_oauth_encrypted_block 0 (replicate 256 0) 3 (replicate 128 9) 1234567 600.

Lemma a_key_ok : key_ok a_key.
Proof. split; [by right|]. vm_compute. discriminate. Qed.

Lemma a_block_ok : block_ok a_block /\ arrays_ok a_block.
Proof.
  unfold block_ok, arrays_ok. cbn [a_block key_length mac_key eb_timestamp eb_lifetime eb_nonce].
  rewrite !length_replicate. unfold MAXSHASIZE, OAUTH_MAX_NONCE_SIZE. split_and!; try lia.
  by apply Forall_replicate.
Qed.

Lemma oauth_token_roundtrip_witness :
  exists et' d', @encode_oauth_token toy_gcm [115; 0] (mk_encoded_oauth_token (replicate 1024 0) 0) a_key a_block
      (Some (replicate 12 5)) [] = Some (true, et') /\
    @decode_oauth_token toy_gcm [115; 0] et' a_key a_block = Some (true, d') /\ eb_lifetime d' = 600.
Proof.
  destruct (@oauth_token_roundtrip toy_gcm toy_gcm_laws [115] [] (mk_encoded_oauth_token (replicate 1024 0) 0)
    a_key a_block a_block (replicate 12 5) []) as (et' & d' & H1 & _ & H2 & _ & _ & _ & H3 & _).
  - by repeat constructor.
  - exact a_key_ok.
  - exact (proj1 a_block_ok).
  - cbn. lia.
  - exact (proj2 a_block_ok).
  - reflexivity.
  - reflexivity.
  - eexists _, _. reflexivity.
  - exists et', d'. split; [exact H1|]. split; [exact H2|exact H3].
Defined.

Lemma oauth_nonce_overflow_witness :
  @decode_oauth_token_gcm toy_gcm [115; 0] (mk_encoded_oauth_token (1 :: 44 :: replicate 1022 0) 1024)
    a_key a_block = None.
Proof.
  apply (@oauth_nonce_overflow toy_gcm [115; 0] _ a_key a_block (le_val [1; 44])).
  - reflexivity.
  - exact (proj2 a_block_ok).
  - reflexivity.
  - vm_compute. discriminate.
Defined.

Lemma oauth_token_sound_witness :
  let et := mk_encoded_oauth_token
    (wire_token (replicate 12 5) (toy_text (replicate 16 3) (block_text a_block)) (replicate 16 7)
     ++ replicate 977 0) 47 in
  exists d (n : list Z), @decode_oauth_token toy_gcm [115; 0] et a_key a_block = Some (true, d) /\
    key_length d = 3 /\ nonce_length d = zlen n.
Proof.
  intros et. destruct (@decode_oauth_token toy_gcm [115; 0] et a_key a_block) as [[ok d]|] eqn:E;
    vm_compute in E; [|discriminate].
  injection E as <- <-. eexists.
  destruct (@oauth_token_sound toy_gcm toy_gcm_laws [115] [] et a_key a_block
    (mk_oauth_encrypted_block 12 (replicate 12 5 ++ replicate 244 0) 3 (replicate 128 9) 1234567 600))
    as (n & _ & _ & _ & _ & _ & H & _).
  - by repeat constructor.
  - exact a_key_ok.
  - apply (bool_decide_unpack _). vm_compute. exact I.
  - vm_compute. reflexivity.
  - exists n. split; [reflexivity|]. split; [reflexivity|exact H].
Defined.
