(* ===== verification/Password.v ===== *)
(** * Passwords: [SASLprep] and the encrypted passwords of [client/ns_turn_msg.c]

    The SHA-256 digest is a parameter; it is 32 bytes long. *)

From S2P Require Import Prelude CString.

(** ** SASLprep, in place *)

(** The characters kept so far ([strout] behind [strin]): the result is the flag and
    the characters written. *)
Fixpoint sasl_chars (s : list Z) : option (option (list Z)) :=
  match s with
  | [] => None
  | c :: s =>
    if decide (c = 0) then Some (Some [])
    else if decide (c = 0xAD) then sasl_chars s
    else if decide (c = 0xA0 \/ c = 0x20) then option_map (option_map (cons 0x20)) (sasl_chars s)
    else if decide (c = 0x7F) then Some None
    else if decide (c < 0x1F) then Some None
    else if decide (c >= 0x80 /\ c <= 0x9F) then Some None
    else option_map (option_map (cons c)) (sasl_chars s)
  end.

(** The flag and the array; a string that is rejected is left partly rewritten, and
    its callers give up on it: the array is then not described. *)
Definition SASLprep (s : option (list Z)) : option (bool * option (list Z)) :=
  match s with
  | None => Some (true, None)
  | Some s =>
    r ← sasl_chars s;
    match r with
    | Some out => Some (true, Some (out ++ 0 :: drop (S (length out)) s))
    | None => Some (false, None)
    end
  end.

(** ** Encrypted passwords *)

Definition PWD_SALT_SIZE : Z := 8.

(** ["%02x"] *)
Definition hex_digit (d : Z) : Z := if decide (d < 10) then 48 + d else 97 + (d - 10).
Definition hex2 (b : Z) : list Z := [hex_digit (b / 16); hex_digit (b mod 16)].

(** The characters written, without the terminator. *)
Definition readable_string (orig : list Z) : list Z := orig ≫= hex2.

(** The salt bytes read from the 16 digits. *)
Fixpoint salt_bytes (n : nat) (pin : list Z) : option (list Z) :=
  match n with
  | O => Some []
  | S n =>
    c0 ← pin !! O;
    c1 ← pin !! 1%nat;
    v ← strtoul16 [c0; c1; 0];
    rest ← salt_bytes n (drop 2 pin);
    Some (u8 v :: rest)
  end.

(** The salt, when the string is an encrypted password. *)
Definition encrypted_password (pin : list Z) : option (option (list Z)) :=
  let min_len := 3 + PWD_SALT_SIZE + PWD_SALT_SIZE + 1 + 32 in
  n ← strlen pin;
  if decide (n >= min_len) then
    p0 ← pin !! 0%nat; p1 ← pin !! 1%nat; p2 ← pin !! 2%nat;
    p19 ← pin !! Z.to_nat (3 + PWD_SALT_SIZE + PWD_SALT_SIZE);
    if decide (p0 = 36 /\ p1 = 53 /\ p2 = 36 /\ p19 = 36) then
      salt ← salt_bytes (Z.to_nat PWD_SALT_SIZE) (drop 3 pin);
      Some (Some salt)
    else Some None
  else Some None.

Section password.
Context (SHA256 : list Z -> list Z).

(** The string written to [result], with its terminator; [rnd] is the random salt. *)
Definition generate_enc_password (pwd : list Z) (orig_salt : option (list Z)) (rnd : list Z)
    : option (list Z) :=
  salt ← match orig_salt with Some s => slice s 0 PWD_SALT_SIZE | None => Some rnd end;
  plen ← strlen pwd;
  p ← slice pwd 0 plen;
  Some ([36; 53; 36] ++ readable_string salt ++ [36] ++ readable_string (SHA256 (salt ++ p)) ++ [0]).

Definition generate_new_enc_password (pwd rnd : list Z) : option (list Z) :=
  generate_enc_password pwd None rnd.

(** The array [enc_pin] has room for the result. *)
Definition check_password_equal (pin pwd : list Z) : option bool :=
  salt ← encrypted_password pwd;
  match salt with
  | None => strcmp_eq pin pwd
  | Some salt =>
    enc_pin ← generate_enc_password pin (Some salt) [];
    if decide (zlen enc_pin > 257) then None else strcmp_eq enc_pin pwd
  end.

(** ** Laws *)

Context (SHA256_length : forall d, length (SHA256 d) = 32%nat) (SHA256_bytes : forall d, is_bytes (SHA256 d)).

Definition nonzero_str (s : list Z) : Prop := Forall (fun c => c <> 0) s.

Lemma hex_roundtrip b :
  is_byte b -> exists v, strtoul16 (hex2 b ++ [0]) = Some v /\ u8 v = b.
Proof.
  intros Hb. assert (checkZ 256 (fun b => match strtoul16 (hex2 b ++ [0]) with
    | Some v => u8 v =? b | None => false end) = true) as Hc by (vm_compute; reflexivity).
  pose proof (checkZ_spec _ _ b Hc Hb) as H. cbv beta in H.
  destruct (strtoul16 (hex2 b ++ [0])) as [v|]; [|done]. exists v. split; [done|]. by apply Z.eqb_eq.
Qed.

Lemma hex2_nonzero b : is_byte b -> nonzero_str (hex2 b) /\ is_bytes (hex2 b).
Proof.
  intros Hb. assert (checkZ 256 (fun b => bool_decide (nonzero_str (hex2 b) /\ is_bytes (hex2 b))) = true)
    as Hc by (vm_compute; reflexivity).
  pose proof (checkZ_spec _ _ b Hc Hb) as H. by apply bool_decide_eq_true in H.
Qed.

Lemma hex2_inj a b : is_byte a -> is_byte b -> hex2 a = hex2 b -> a = b.
Proof.
  intros Ha Hb E. destruct (hex_roundtrip a Ha) as (v & H1 & <-).
  destruct (hex_roundtrip b Hb) as (w & H2 & <-). rewrite E in H1. congruence.
Qed.

Lemma readable_nonzero l : is_bytes l -> nonzero_str (readable_string l).
Proof.
  induction 1 as [|b l Hb _ IH]; [constructor|]. unfold readable_string. cbn [mbind list_bind].
  apply Forall_app_2; [by apply hex2_nonzero|exact IH].
Qed.

Lemma length_readable l : length (readable_string l) = (2 * length l)%nat.
Proof.
  induction l as [|b l IH]; [done|].
  change (readable_string (b :: l)) with (hex2 b ++ readable_string l). rewrite length_app, IH. cbn. lia.
Qed.

Lemma readable_inj a b :
  length a = length b -> is_bytes a -> is_bytes b -> readable_string a = readable_string b -> a = b.
Proof.
  intros Hl Ha; revert b Hl; induction Ha as [|x a Hx _ IH]; intros [|y b] Hl Hb E; try done.
  inversion_clear Hb as [|?? Hy Hb']. unfold readable_string in E. cbn [mbind list_bind] in E.
  apply app_inj_1 in E as [E1 E2]; [|done]. f_equal; [by apply hex2_inj|].
  apply IH; [by injection Hl|done|done].
Qed.

Lemma salt_read salt rest :
  is_bytes salt -> salt_bytes (length salt) (readable_string salt ++ rest) = Some salt.
Proof.
  induction 1 as [|b salt Hb _ IH]; [done|]. cbn [length salt_bytes].
  destruct (hex_roundtrip b Hb) as (v & Hv & Hu).
  change (readable_string (b :: salt)) with (hex2 b ++ readable_string salt).
  unfold hex2 in *. cbn [app lookup list_lookup mbind option_bind] in *.
  rewrite Hv. mred. change (drop 2 (?x :: ?y :: ?l)) with l.
  rewrite IH. mred. by rewrite Hu.
Qed.

(** The encrypted form of a password. *)
Definition enc_form (salt p : list Z) : list Z :=
  [36; 53; 36] ++ readable_string salt ++ [36] ++ readable_string (SHA256 (salt ++ p)).

Lemma generate_value p rest salt r :
  nonzero_str p -> length salt = 8%nat ->
  generate_enc_password (p ++ 0 :: rest) (Some salt) r = Some (enc_form salt p ++ [0]) /\
  generate_enc_password (p ++ 0 :: rest) None salt = Some (enc_form salt p ++ [0]).
Proof.
  intros Hp Hs. unfold generate_enc_password, enc_form.
  rewrite (slice_app_end [] salt) by (unfold PWD_SALT_SIZE; done || lia). mred.
  rewrite strlen_app by done. mred. rewrite (slice_prefix p) by done. mred.
  split; f_equal; by rewrite <- !(assoc_L (++)).
Qed.

Lemma enc_form_nonzero salt p : is_bytes salt -> nonzero_str (enc_form salt p).
Proof.
  intros Hs. unfold enc_form. repeat apply Forall_app_2; try (by repeat constructor).
  - by apply readable_nonzero.
  - apply readable_nonzero, SHA256_bytes.
Qed.

Lemma encrypted_form salt p rest :
  is_bytes salt -> length salt = 8%nat ->
  encrypted_password (enc_form salt p ++ 0 :: rest) = Some (Some salt).
Proof.
  intros Hb Hs. unfold encrypted_password. rewrite strlen_app by by apply enc_form_nonzero. mred.
  assert (length (enc_form salt p) = 84%nat) as Hl.
  { unfold enc_form. rewrite !length_app, !length_readable, SHA256_length, Hs. done. }
  rewrite Hl. unfold PWD_SALT_SIZE. rewrite decide_True by lia.
  unfold enc_form. rewrite <- !(assoc_L (++)). cbn [app lookup list_lookup mbind option_bind].
  change (Z.to_nat (3 + 8 + 8)) with (3 + 16)%nat.
  assert ((36 :: 53 :: 36 :: readable_string salt ++ 36 :: readable_string (SHA256 (salt ++ p)) ++ 0 :: rest)
    !! (3 + 16)%nat = Some 36) as ->.
  { apply (list_lookup_middle ([36; 53; 36] ++ readable_string salt)).
    by rewrite length_app, length_readable, Hs. }
  mred. rewrite decide_True by done. change (Z.to_nat 8) with 8%nat. rewrite <- Hs at 1.
  change (drop 3 (?a :: ?b :: ?c :: ?l)) with l. by rewrite salt_read.
Qed.

(** A password is accepted against its encrypted form, whatever the salt; another
    password is accepted exactly when it has the same salted digest. *)
Theorem check_password_equal_encrypted pin prest p rest salt rnd :
  nonzero_str pin -> nonzero_str p -> is_bytes salt -> length salt = 8%nat ->
  exists enc, generate_enc_password (p ++ 0 :: rest) None salt = Some enc /\
    generate_enc_password (p ++ 0 :: rest) (Some salt) rnd = Some enc /\
    check_password_equal (pin ++ 0 :: prest) enc
      = Some (bool_decide (SHA256 (salt ++ pin) = SHA256 (salt ++ p))) /\
    check_password_equal (p ++ 0 :: rest) enc = Some true.
Proof.
  intros Hpin Hp Hb Hs. exists (enc_form salt p ++ [0]).
  assert (forall q qrest, nonzero_str q -> check_password_equal (q ++ 0 :: qrest) (enc_form salt p ++ [0])
    = Some (bool_decide (SHA256 (salt ++ q) = SHA256 (salt ++ p)))) as Hcheck.
  { intros q qrest Hq. unfold check_password_equal. rewrite encrypted_form by done. mred.
    destruct (generate_value q qrest salt [] Hq Hs) as [-> _]. mred.
    rewrite decide_False.
    - rewrite (strcmp_eq_spec _ _ (enc_form salt q) (enc_form salt p))
        by (apply cstring_app; by apply enc_form_nonzero).
      f_equal. apply bool_decide_ext. unfold enc_form. split; [|by intros ->].
      intros E%(inj (app _))%(inj (app _))%(inj (app _)). apply readable_inj in E; try done.
      by rewrite !SHA256_length.
    - unfold enc_form. rewrite !length_app, !length_readable, SHA256_length, Hs. cbn. lia. }
  destruct (generate_value p rest salt rnd Hp Hs) as [H1 H2]. split_and!; try done; [by apply Hcheck|].
  rewrite Hcheck by done. by rewrite bool_decide_true.
Qed.

End password.

Lemma check_password_equal_encrypted_witness :
  exists enc, generate_enc_password (fun d => le_bytes 32 (le_val d)) [112; 119; 0] None [1; 2; 3; 4; 5; 6; 7; 8]
      = Some enc /\
    check_password_equal (fun d => le_bytes 32 (le_val d)) [112; 119; 0] enc = Some true.
Proof.
  destruct (check_password_equal_encrypted (fun d => le_bytes 32 (le_val d))
    (fun d => length_le_bytes 32 _) (fun d => le_bytes_bytes 32 _) [112; 119] [] [112; 119] []
    [1; 2; 3; 4; 5; 6; 7; 8] []) as (enc & H1 & _ & _ & H2);
    [by repeat constructor..|reflexivity|].
  exists enc. split; [exact H1|exact H2].
Defined.
