(* ===== verification/TurnPorts.v ===== *)
(** * The relay port allocator: [apps/relay/turn_ports.c]

    A pool hands out the ports of a range.  The free ports wait in a ring of 65536
    cells between two positions, [low] and [high], which only grow; [status] holds,
    for each port, the position it waits at, or a mark above all positions.  A port
    taken out of turn leaves its cell behind: the cell is stale and is skipped when
    [low] reaches it.  The pool is proved to be a queue of free ports; what the stale
    cells can do to it is stated too.  A pool is kept per address and transport. *)

From stdpp Require Import functions.
From S2P Require Import Prelude IoAddr Buckets AddrMap.

(** ** The pool *)

Definition PORTS_SIZE : Z := 0xFFFF + 1.
Definition TPS_OUT_OF_RANGE : Z := u32 (-1).
Definition TPS_TAKEN_SINGLE : Z := u32 (-2).
Definition TPS_TAKEN_EVEN : Z := u32 (-3).
Definition TPS_TAKEN_ODD : Z := u32 (-4).

(** The arrays have [PORTS_SIZE] cells; except where it is tested, they are indexed by
    16-bit numbers.  An array is the function from indices to cells. *)
Record turnports := mk_turnports {
  status : Z -> Z;
  low : Z;
  high : Z;
  range_start : Z;
  range_stop : Z;
  ports : Z -> Z
}.

Definition is_taken (st : Z) : bool :=
  (st =? TPS_TAKEN_SINGLE) || (st =? TPS_TAKEN_EVEN) || (st =? TPS_TAKEN_ODD).

Definition set_status (tp : turnports) (port st : Z) : turnports :=
  mk_turnports (<[port := st]> (status tp)) (low tp) (high tp) (range_start tp) (range_stop tp) (ports tp).

Definition set_low (tp : turnports) (l : Z) : turnports :=
  mk_turnports (status tp) l (high tp) (range_start tp) (range_stop tp) (ports tp).

(** One cycle of [turnports_randomize], on two random numbers.  The positions index the
    array of ports without a test. *)
Definition randomize_cycle (tp : turnports) (size : Z) (rnd : Z * Z) : option turnports :=
  let port1 := u16 (low tp + u16 (u64 rnd.1 mod size)) in
  let port2 := u16 (low tp + u16 (u64 rnd.2 mod size)) in
  if decide (port1 = port2) then Some tp else
  let pos1 := status tp port1 in
  let pos2 := status tp port2 in
  if decide (pos1 < PORTS_SIZE /\ pos2 < PORTS_SIZE) then
    Some (mk_turnports (<[port2 := status tp port1]> (<[port1 := status tp port2]> (status tp)))
            (low tp) (high tp) (range_start tp) (range_stop tp)
            (<[pos2 := u16 (ports tp pos1)]> (<[pos1 := ports tp pos2]> (ports tp))))
  else None.

Fixpoint randomize_loop (cycles : nat) (tp : turnports) (size : Z) (rnd : nat -> Z * Z) : option turnports :=
  match cycles with
  | O => Some tp
  | S cycles => tp ← randomize_cycle tp size (rnd cycles); randomize_loop cycles tp size rnd
  end.

Definition turnports_randomize (tp : turnports) (rnd : nat -> Z * Z) : option turnports :=
  let size := u32 (high tp - low tp) in
  randomize_loop (Z.to_nat (u32 (size * 10))) tp size rnd.

Definition turnports_init (start stop : Z) (rnd : nat -> Z * Z) : option turnports :=
  turnports_randomize
    (mk_turnports (fun i => if decide (start <= i <= stop) then i else TPS_OUT_OF_RANGE)
       start (stop + 1) start stop (fun i => u16 i)) rnd.

(** The inner [None] is the null pointer.  The memory region ends the process or grows. *)
Definition turnports_create (start stop : Z) (rnd : nat -> Z * Z) : option (option turnports) :=
  if decide (start > stop) then Some None else tp ← turnports_init start stop rnd; Some (Some tp).

Definition turnports_size (tp : turnports) : Z := u16 (high tp - low tp).

(** The loop adds one to [low] as long as it goes on, up to [high]: the fuel is their
    distance, and running out of it is the outer [None]. *)
Fixpoint allocate_loop (fuel : nat) (tp : turnports) : option (Z * turnports) :=
  if high tp <=? low tp then Some (-1, tp) else
  match fuel with
  | O => None
  | S fuel =>
    let position := u16 (Z.land (low tp) 0xFFFF) in
    let port := ports tp position in
    if (port <? range_start tp) || (range_stop tp <? port) then Some (-1, tp)
    else if is_taken (status tp port) then allocate_loop fuel (set_low tp (u32 (low tp + 1)))
    else if negb (status tp port =? low tp) then allocate_loop fuel (set_low tp (u32 (low tp + 1)))
    else Some (port, set_low (set_status tp port TPS_TAKEN_SINGLE) (u32 (low tp + 1)))
  end.

Definition turnports_allocate (tp : turnports) : option (Z * turnports) :=
  allocate_loop (Z.to_nat (high tp - low tp)) tp.

Definition turnports_release (tp : turnports) (port : Z) : turnports :=
  if (range_start tp <=? port) && (port <=? range_stop tp) then
    let position := u16 (Z.land (high tp) 0xFFFF) in
    if is_taken (status tp port) then
      mk_turnports (<[port := high tp]> (status tp)) (low tp) (u32 (high tp + 1))
        (range_start tp) (range_stop tp) (<[position := port]> (ports tp))
    else tp
  else tp.

Definition turnports_is_allocated (tp : turnports) (port : Z) : bool := is_taken (status tp port).

Definition turnports_is_available (tp : turnports) (port : Z) : bool :=
  let st := status tp port in
  if negb (st =? TPS_OUT_OF_RANGE) && negb (is_taken st) then
    ports tp (u16 (Z.land st 0xFFFF)) =? port
  else false.

(** The 64-bit reservation token: two cells of the ring and a random number [rtok]. *)
Definition reservation_token_of (tp : turnports) (rtok : Z) : Z :=
  ports tp (u16 (Z.land (low tp) 0xFFFF))
  + Z.shiftl (ports tp (u16 (Z.land (high tp) 0xFFFF))) 16
  + Z.shiftl (u32 rtok) 32.

(** The answer is the port and the token written through the pointer, which is null
    when [want_token] is false. *)
Fixpoint even_loop (n : nat) (tp : turnports) (want_token : bool) (rtok : Z)
    : option (Z * option Z * turnports) :=
  match n with
  | O => Some (-1, None, tp)
  | S n =>
    '(port, tp) ← turnports_allocate tp;
    if negb (Z.land port 1 =? 0) then even_loop n (turnports_release tp (u16 port)) want_token rtok
    else
      let rtcp_port := port + 1 in
      if range_stop tp <? rtcp_port then even_loop n (turnports_release tp (u16 port)) want_token rtok
      else if negb (turnports_is_available tp (u16 rtcp_port)) then
        even_loop n (turnports_release tp (u16 port)) want_token rtok
      else
        let tp := set_status (set_status tp port TPS_TAKEN_EVEN) rtcp_port TPS_TAKEN_ODD in
        Some (port, if want_token then Some (reservation_token_of tp rtok) else None, tp)
  end.

Definition turnports_allocate_even (tp : turnports) (want_token : bool) (rtok : Z)
    : option (Z * option Z * turnports) :=
  let size := turnports_size tp in
  if 1 <? size then even_loop (Z.to_nat size) tp want_token rtok else Some (-1, None, tp).

(** ** The invariant *)

(** The ring cell of a position, and whether its port still waits there. *)
Definition cell (tp : turnports) (pos : Z) : Z := ports tp (pos mod 65536).
Definition waits (tp : turnports) (pos : Z) : Prop := status tp (cell tp pos) = pos.
#[export] Instance waits_dec tp pos : Decision (waits tp pos).
Proof. unfold waits. apply _. Defined.

Definition in_window (tp : turnports) (pos : Z) : Prop := low tp <= pos < high tp.
Definition in_range (tp : turnports) (p : Z) : Prop := range_start tp <= p <= range_stop tp.
Definition range_size (tp : turnports) : Z := range_stop tp - range_start tp + 1.

(** A stale cell is one of an odd port that was taken out of turn together with the
    port before it; that port is still taken or waits behind the stale cell, so a port
    has at most one stale cell. *)
Record tp_ok (tp : turnports) : Prop := {
  ok_start : 0 <= range_start tp;
  ok_bounds : range_start tp <= range_stop tp < 65536;
  ok_ring : range_size tp + range_size tp / 2 < 65536;
  ok_low : 0 <= low tp <= high tp;
  ok_high : high tp <= TPS_TAKEN_ODD;
  ok_out p : ~ in_range tp p -> status tp p = TPS_OUT_OF_RANGE;
  ok_free p : in_range tp p -> is_taken (status tp p) = false ->
    in_window tp (status tp p) /\ cell tp (status tp p) = p;
  ok_cell pos : in_window tp pos -> in_range tp (cell tp pos);
  ok_stale pos : in_window tp pos -> ~ waits tp pos ->
    Z.Odd (cell tp pos) /\ range_start tp < cell tp pos /\
    (is_taken (status tp (cell tp pos - 1)) = true \/ pos < status tp (cell tp pos - 1));
  ok_stale_inj pos1 pos2 : in_window tp pos1 -> in_window tp pos2 ->
    ~ waits tp pos1 -> ~ waits tp pos2 -> cell tp pos1 = cell tp pos2 -> pos1 = pos2
}.

(** The free ports in the order in which they will be handed out. *)
Definition queue (tp : turnports) : list Z :=
  cell tp <$> filter (waits tp) (seqZ (low tp) (high tp - low tp)).

Lemma ring_index x : u16 (Z.land x 0xFFFF) = x mod 65536.
Proof.
  change 0xFFFF with (Z.ones 16). rewrite Z.land_ones by lia. unfold wrap.
  change (2 ^ 16) with 65536. apply Z.mod_small. by apply Z.mod_pos_bound.
Qed.

Lemma taken_iff st : is_taken st = true <-> st = 0xFFFFFFFE \/ st = 0xFFFFFFFD \/ st = 0xFFFFFFFC.
Proof.
  unfold is_taken. change TPS_TAKEN_SINGLE with 0xFFFFFFFE. change TPS_TAKEN_EVEN with 0xFFFFFFFD.
  change TPS_TAKEN_ODD with 0xFFFFFFFC. rewrite !orb_true_iff, !Z.eqb_eq. tauto.
Qed.

Lemma not_taken st : is_taken st = false <-> st <> 0xFFFFFFFE /\ st <> 0xFFFFFFFD /\ st <> 0xFFFFFFFC.
Proof. rewrite <- not_true_iff_false, taken_iff. tauto. Qed.

Lemma queue_elem tp q : q ∈ queue tp <-> in_window tp (status tp q) /\ cell tp (status tp q) = q.
Proof.
  unfold queue. rewrite list_elem_of_fmap. split.
  - intros (pos & -> & [Hw Hp]%list_elem_of_filter). apply elem_of_seqZ in Hp.
    unfold waits in Hw. unfold in_window. rewrite Hw. split; [lia|done].
  - intros [Hw Hc]. exists (status tp q). split; [done|]. apply list_elem_of_filter.
    unfold waits. rewrite Hc. split; [done|]. apply elem_of_seqZ. unfold in_window in Hw. lia.
Qed.

Lemma queue_NoDup tp : NoDup (queue tp).
Proof.
  unfold queue. apply NoDup_fmap_2_strong; [|apply NoDup_filter, NoDup_seqZ].
  intros x y [Hx _]%list_elem_of_filter [Hy _]%list_elem_of_filter E.
  unfold waits in *. congruence.
Qed.

(** In the range, the free ports are those that are not taken. *)
Lemma queue_free tp q : tp_ok tp -> in_range tp q -> (q ∈ queue tp <-> is_taken (status tp q) = false).
Proof.
  intros Hok Hq. rewrite queue_elem. split; [|by apply ok_free].
  intros [Hw _]. apply not_taken. pose proof (ok_high _ Hok) as H. change TPS_TAKEN_ODD with 0xFFFFFFFC in H.
  unfold in_window in Hw. lia.
Qed.

Lemma queue_range tp q : tp_ok tp -> q ∈ queue tp -> in_range tp q.
Proof. intros Hok [Hw <-]%queue_elem. by apply ok_cell. Qed.

(** Skipping the first position and giving a port a mark change the queue as expected. *)
Lemma queue_low tp :
  low tp < high tp ->
  queue tp = (if decide (waits tp (low tp)) then [cell tp (low tp)] else []) ++ queue (set_low tp (low tp + 1)).
Proof.
  intros H. unfold queue at 1. rewrite seqZ_cons, filter_cons by lia.
  assert (cell tp <$> filter (waits tp) (seqZ (Z.succ (low tp)) (Z.pred (high tp - low tp)))
          = queue (set_low tp (low tp + 1))) as <-.
  { unfold queue. cbn [low high set_low]. by replace (high tp - (low tp + 1)) with (Z.pred (high tp - low tp)) by lia. }
  by case_decide.
Qed.

Lemma queue_mark tp p st :
  high tp <= st -> queue (set_status tp p st) = filter (fun q => q <> p) (queue tp).
Proof.
  intros Hst. unfold queue. cbn [low high set_status].
  assert (forall pos, cell (set_status tp p st) pos = cell tp pos) as Ec by done.
  assert (forall l, Forall (fun pos => pos < high tp) l ->
    cell (set_status tp p st) <$> filter (waits (set_status tp p st)) l
    = filter (fun q => q <> p) (cell tp <$> filter (waits tp) l)) as H.
  { induction 1 as [|pos l Hp _ IH]; [done|].
    assert (waits (set_status tp p st) pos <-> waits tp pos /\ cell tp pos <> p) as Hw.
    { unfold waits. rewrite Ec. cbn [status set_status]. unfold insert, fn_insert.
      case_decide; [subst; lia|]. intuition congruence. }
    rewrite !filter_cons.
    destruct (decide (waits (set_status tp p st) pos)) as [A|A]; destruct (decide (waits tp pos)) as [B|B];
      rewrite ?fmap_cons, ?filter_cons, ?IH; try tauto.
    - by rewrite decide_True by tauto.
    - by rewrite decide_False by tauto. }
  apply H, Forall_forall. intros pos Hp%elem_of_seqZ. lia.
Qed.

(** ** Marking a port and moving [low] *)

Lemma filter_keep {A} (P : A -> Prop) `{forall x, Decision (P x)} (l : list A) :
  (forall x, x ∈ l -> P x) -> filter P l = l.
Proof.
  induction l as [|x l IH]; intros Hl; [done|]. rewrite filter_cons, decide_True by set_solver.
  f_equal. apply IH. set_solver.
Qed.

Lemma taken_above st tp pos : tp_ok tp -> is_taken st = true -> in_window tp pos -> pos < st.
Proof.
  intros Hok H%taken_iff [_ Hp]. pose proof (ok_high _ Hok). change TPS_TAKEN_ODD with 0xFFFFFFFC in *. lia.
Qed.

Lemma mark_low_ok tp p st l :
  tp_ok tp -> in_range tp p -> is_taken st = true -> low tp <= l <= high tp ->
  (forall q, in_range tp q -> q <> p -> is_taken (status tp q) = false -> l <= status tp q) ->
  (forall pos, l <= pos < high tp -> cell tp pos = p ->
    Z.Odd p /\ range_start tp < p /\
    (is_taken (status tp (p - 1)) = true \/ pos < status tp (p - 1)) /\
    (forall pos', l <= pos' < high tp -> cell tp pos' = p -> pos' = pos)) ->
  tp_ok (set_low (set_status tp p st) l).
Proof.
  intros Hok Hp Hst Hl Hfree Hcell. set (tp' := set_low (set_status tp p st) l).
  assert (forall pos, in_window tp' pos -> in_window tp pos /\ l <= pos < high tp) as Hw
    by (unfold in_window; cbn; lia).
  assert (forall q, status tp' q = if decide (p = q) then st else status tp q) as Es by done.
  assert (forall pos, in_window tp' pos -> ~ waits tp' pos -> cell tp pos = p \/ cell tp pos <> p /\ ~ waits tp pos)
    as Hstale.
  { intros pos _ Hn. unfold waits in *. change (cell tp' pos) with (cell tp pos) in Hn. rewrite Es in Hn.
    case_decide; [by left|]. right. split; [congruence|done]. }
  destruct Hok as [o1 o2 o3 o4 o5 o6 o7 o8 o9 o10] eqn:Eok; clear Eok.
  split; try done.
  - cbn. lia.
  - intros q Hq. rewrite Es. rewrite decide_False; [by apply o6|]. intros ->. by apply Hq.
  - intros q Hq. rewrite Es. case_decide as E; [congruence|]. intros Hn.
    destruct (o7 q Hq Hn) as [Hv Hc]. split; [|done]. unfold in_window in *. cbn.
    pose proof (Hfree q Hq (not_eq_sym E) Hn). lia.
  - intros pos [H _]%Hw. by apply o8.
  - intros pos Hpos Hn. destruct (Hw _ Hpos) as [Hwin Hl'].
    change (cell tp' pos) with (cell tp pos). change (range_start tp') with (range_start tp).
    assert (forall q, is_taken (status tp q) = true \/ pos < status tp q ->
                      is_taken (status tp' q) = true \/ pos < status tp' q) as Hup.
    { intros q H. rewrite Es. case_decide; [by left|done]. }
    destruct (Hstale pos Hpos Hn) as [E|[E Hn']].
    + rewrite E. destruct (Hcell pos Hl' E) as (? & ? & ? & _). auto.
    + destruct (o9 pos Hwin Hn') as (? & ? & ?). auto.
  - intros pos1 pos2 H1 H2 Hn1 Hn2 E. change (cell tp pos1 = cell tp pos2) in E.
    destruct (Hw _ H1) as [W1 L1], (Hw _ H2) as [W2 L2].
    destruct (Hstale pos1 H1 Hn1) as [E1|[E1 N1]], (Hstale pos2 H2 Hn2) as [E2|[E2 N2]]; try congruence.
    + destruct (Hcell pos2 L2 E2) as (_ & _ & _ & Hu). by apply Hu.
    + by apply o10.
Qed.

Lemma skip_ok tp : tp_ok tp -> low tp < high tp -> ~ waits tp (low tp) -> tp_ok (set_low tp (low tp + 1)).
Proof.
  intros Hok Hlt Hn. set (tp' := set_low tp (low tp + 1)).
  assert (forall pos, in_window tp' pos -> in_window tp pos) as Hw by (unfold in_window; cbn; lia).
  destruct Hok as [o1 o2 o3 o4 o5 o6 o7 o8 o9 o10]. split; try done.
  - cbn. lia.
  - intros q Hq Ht. destruct (o7 q Hq Ht) as [Hv Hc]. split; [|done].
    assert (status tp q <> low tp) as Hne by (intros E; apply Hn; unfold waits; rewrite <- E, Hc; congruence).
    unfold in_window in *. cbn. lia.
  - intros pos H%Hw. by apply o8.
  - intros pos H%Hw. by apply o9.
  - intros pos1 pos2 H1%Hw H2%Hw. by apply o10.
Qed.

(** Taking the port that waits at [low]. *)
Lemma pop_ok tp st :
  tp_ok tp -> low tp < high tp -> waits tp (low tp) -> is_taken st = true ->
  tp_ok (set_low (set_status tp (cell tp (low tp)) st) (low tp + 1)) /\
  queue tp = cell tp (low tp) :: queue (set_low (set_status tp (cell tp (low tp)) st) (low tp + 1)).
Proof.
  intros Hok Hlt Hwt Hst. set (p := cell tp (low tp)).
  assert (in_window tp (low tp)) as Hwin by (split; lia).
  assert (in_range tp p) as Hp by by apply ok_cell.
  split.
  - apply mark_low_ok; try done; [lia| |].
    + intros q Hq Hne Ht. destruct (ok_free _ Hok q Hq Ht) as [[Hv _] Hc].
      assert (status tp q <> low tp); [|lia]. intros E. apply Hne. by rewrite <- Hc, E.
    + intros pos Hpos E. assert (in_window tp pos) as Hw by (unfold in_window; lia).
      assert (forall pos', low tp + 1 <= pos' < high tp -> cell tp pos' = p -> ~ waits tp pos') as Hns.
      { intros pos' H' E' Hw'. unfold waits in Hw', Hwt. fold p in Hwt. rewrite E' in Hw'. lia. }
      destruct (ok_stale _ Hok pos Hw (Hns pos Hpos E)) as (? & ? & ?). rewrite E in *.
      split_and!; [done..|]. intros pos' H' E'.
      apply (ok_stale_inj _ Hok); [unfold in_window; lia|done|by apply Hns..|congruence].
  - pose proof (queue_NoDup tp) as Hnd.
    assert (queue (set_status tp p st) = queue (set_low (set_status tp p st) (low tp + 1))) as <-.
    { rewrite (queue_low (set_status tp p st)) by done.
      rewrite decide_False; [done|]. unfold waits. cbn [low set_status status].
      change (cell (set_status tp p st) (low tp)) with p. rewrite fn_lookup_insert.
      pose proof (taken_above st tp (low tp) Hok Hst Hwin). lia. }
    rewrite queue_mark by (apply taken_iff in Hst; pose proof (ok_high _ Hok);
      change TPS_TAKEN_ODD with 0xFFFFFFFC in *; lia).
    rewrite (queue_low tp Hlt) in Hnd |- *. rewrite decide_True in Hnd |- * by done.
    fold p in Hnd |- *. cbn [app] in *. apply NoDup_cons in Hnd as [Hni _].
    rewrite filter_cons, decide_False by tauto. f_equal.
    symmetry. apply filter_keep. intros x Hx ->. contradiction.
Qed.

(** ** The ring never overflows

    Waiting cells have distinct ports, and so have stale ones, whose ports are odd. *)

Definition cell_number (tp : turnports) (pos : Z) : Z :=
  if decide (waits tp pos) then cell tp pos - range_start tp
  else range_size tp + (cell tp pos - range_start tp - 1) / 2.

Lemma window_bound tp : tp_ok tp -> high tp - low tp <= range_size tp + range_size tp / 2.
Proof.
  intros Hok. pose proof (ok_low _ Hok) as Hlow. pose proof (ok_bounds _ Hok) as Hb.
  set (b := range_size tp + range_size tp / 2).
  assert (0 <= b) as Hb0 by (subst b; unfold range_size; zlia).
  assert (length (cell_number tp <$> seqZ (low tp) (high tp - low tp)) <= length (seqZ 0 b))%nat as H.
  2: { rewrite length_fmap, !length_seqZ in H. lia. }
  apply submseteq_length, NoDup_submseteq.
  - apply NoDup_fmap_2_strong; [|apply NoDup_seqZ].
    intros x y Hx%elem_of_seqZ Hy%elem_of_seqZ. unfold cell_number.
    assert (in_window tp x /\ in_window tp y) as [Wx Wy] by (unfold in_window; lia).
    pose proof (ok_cell _ Hok _ Wx) as Rx. pose proof (ok_cell _ Hok _ Wy) as Ry.
    pose proof (ok_stale _ Hok _ Wx) as Sx. pose proof (ok_stale _ Hok _ Wy) as Sy.
    pose proof (ok_stale_inj _ Hok x y Wx Wy) as Hinj.
    unfold in_range, range_size in *.
    case_decide as Dx; case_decide as Dy; intros E.
    + unfold waits in Dx, Dy. rewrite <- Dx, <- Dy. f_equal. lia.
    + destruct (Sy Dy) as (_ & ? & _). zlia.
    + destruct (Sx Dx) as (_ & ? & _). zlia.
    + destruct (Sx Dx) as ([a Ha] & ? & _), (Sy Dy) as ([c Hc] & ? & _).
      apply Hinj; [done..|]. zlia.
  - intros n (pos & -> & Hpos%elem_of_seqZ)%list_elem_of_fmap. apply elem_of_seqZ.
    assert (in_window tp pos) as W by (unfold in_window; lia).
    pose proof (ok_cell _ Hok _ W) as R. pose proof (ok_stale _ Hok _ W) as S.
    unfold cell_number, in_range, range_size in *. subst b. unfold range_size.
    case_decide as D; [zlia|]. destruct (S D) as (_ & ? & _). zlia.
Qed.

Lemma queue_length tp : tp_ok tp -> (Z.of_nat (length (queue tp)) <= high tp - low tp).
Proof.
  intros Hok. pose proof (ok_low _ Hok). unfold queue. rewrite length_fmap.
  pose proof (length_filter (waits tp) (seqZ (low tp) (high tp - low tp))) as H1.
  rewrite length_seqZ in H1. lia.
Qed.

(** ** Releasing a port *)

Definition push (tp : turnports) (p : Z) : turnports :=
  mk_turnports (<[p := high tp]> (status tp)) (low tp) (high tp + 1) (range_start tp) (range_stop tp)
    (<[high tp mod 65536 := p]> (ports tp)).

Lemma push_cell tp p pos :
  tp_ok tp -> low tp <= pos <= high tp ->
  cell (push tp p) pos = if decide (pos = high tp) then p else cell tp pos.
Proof.
  intros Hok Hpos. unfold cell. cbn [ports push]. unfold insert, fn_insert.
  pose proof (window_bound tp Hok). pose proof (ok_ring tp Hok).
  case_decide as E1; case_decide as E2; try congruence. zlia.
Qed.

Lemma push_ok tp p :
  tp_ok tp -> in_range tp p -> is_taken (status tp p) = true -> high tp < TPS_TAKEN_ODD ->
  tp_ok (push tp p) /\ queue (push tp p) = queue tp ++ [p].
Proof.
  intros Hok Hp Ht Hh. pose proof (fun pos => push_cell tp p pos Hok) as Ec.
  assert (forall q, status (push tp p) q = if decide (p = q) then high tp else status tp q) as Es by done.
  assert (forall pos, in_window tp pos -> cell (push tp p) pos = cell tp pos) as Ec'.
  { intros pos W. rewrite Ec by (unfold in_window in W; lia). rewrite decide_False; [done|].
    unfold in_window in W. lia. }
  assert (low tp <= high tp) as Hlh by (pose proof (ok_low _ Hok); lia).
  assert (cell (push tp p) (high tp) = p) as Eh by (rewrite Ec by lia; by rewrite decide_True).
  assert (forall pos, in_window tp pos -> (waits (push tp p) pos <-> waits tp pos)) as Hwt.
  { intros pos W. unfold waits. rewrite (Ec' pos W), Es. case_decide as E; [|done].
    pose proof (taken_above _ _ _ Hok Ht W) as Hlt. rewrite <- E. unfold in_window in W. lia. }
  assert (forall pos, in_window (push tp p) pos -> pos = high tp \/ in_window tp pos) as Hw
    by (unfold in_window; cbn; lia).
  assert (waits (push tp p) (high tp)) as Hwh.
  { unfold waits. rewrite Eh, Es. by rewrite decide_True. }
  split.
  - destruct Hok as [o1 o2 o3 o4 o5 o6 o7 o8 o9 o10] eqn:X. split; try done.
    + cbn. lia.
    + cbn. lia.
    + intros q Hq. rewrite Es. rewrite decide_False; [by apply o6|]. intros ->. by apply Hq.
    + intros q Hq. rewrite Es. case_decide as E.
      * intros _. subst q. split; [unfold in_window; cbn; lia|done].
      * intros Hn. destruct (o7 q Hq Hn) as [Hv Hc]. split; [unfold in_window in *; cbn; lia|].
        by rewrite Ec'.
    + intros pos [->|W]%Hw; [by rewrite Eh|]. rewrite Ec' by done. by apply o8.
    + intros pos [->|W]%Hw; [tauto|]. rewrite (Hwt pos W), (Ec' pos W). intros Hn.
      destruct (o9 pos W Hn) as (H1 & H2 & H3). split; [done|]. split; [done|]. rewrite Es.
      case_decide; [|done]. right. unfold in_window in W. lia.
    + intros pos1 pos2 [->|W1]%Hw [->|W2]%Hw; try tauto.
      rewrite (Hwt _ W1), (Hwt _ W2), (Ec' _ W1), (Ec' _ W2). by apply o10.
  - unfold queue. cbn [low high push].
    replace (high tp + 1 - low tp) with ((high tp - low tp) + 1) by lia.
    rewrite seqZ_app by lia. replace (low tp + (high tp - low tp)) with (high tp) by lia.
    rewrite filter_app, fmap_app. f_equal.
    + assert (forall l, Forall (in_window tp) l ->
        cell (push tp p) <$> filter (waits (push tp p)) l = cell tp <$> filter (waits tp) l) as H.
      { induction 1 as [|pos l W _ IH]; [done|]. rewrite !filter_cons.
        pose proof (Hwt pos W) as Hiff.
        destruct (decide (waits (push tp p) pos)), (decide (waits tp pos)); try tauto.
        rewrite !fmap_cons, IH. by rewrite (Ec' pos W). }
      apply H, Forall_forall. intros pos W%elem_of_seqZ. unfold in_window. lia.
    + rewrite (seqZ_cons (high tp) 1), (seqZ_nil _ (Z.pred 1)) by lia. rewrite filter_cons, decide_True, filter_nil by done. by rewrite fmap_cons, Eh.
Qed.

Lemma release_push tp p :
  tp_ok tp -> in_range tp p -> is_taken (status tp p) = true -> high tp < TPS_TAKEN_ODD ->
  turnports_release tp p = push tp p.
Proof.
  intros Hok [H1 H2] Ht Hh. unfold turnports_release.
  rewrite (proj2 (Z.leb_le _ _) H1), (proj2 (Z.leb_le _ _) H2), Ht. cbn [andb].
  rewrite ring_index. unfold push. f_equal. unfold wrap. apply Z.mod_small.
  pose proof (ok_low _ Hok). change TPS_TAKEN_ODD with 0xFFFFFFFC in Hh. lia.
Qed.

Lemma release_same tp p :
  tp_ok tp -> ~ in_range tp p \/ is_taken (status tp p) = false -> turnports_release tp p = tp.
Proof.
  intros Hok H. unfold turnports_release.
  destruct ((range_start tp <=? p) && (p <=? range_stop tp)) eqn:E; [|done].
  apply andb_true_iff in E as [E1%Z.leb_le E2%Z.leb_le].
  destruct H as [H| ->]; [|done]. exfalso. by apply H.
Qed.

(** ** Allocating a port *)

Definition same_range (tp tp' : turnports) : Prop :=
  range_start tp' = range_start tp /\ range_stop tp' = range_stop tp.

(** No cell of [x] is stale. *)
Definition fresh (tp : turnports) (x : Z) : Prop :=
  forall pos, in_window tp pos -> cell tp pos = x -> waits tp pos.

Lemma u32_low tp : tp_ok tp -> low tp < high tp -> u32 (low tp + 1) = low tp + 1.
Proof.
  intros Hok H. unfold wrap. apply Z.mod_small. pose proof (ok_low _ Hok). pose proof (ok_high _ Hok).
  change TPS_TAKEN_ODD with 0xFFFFFFFC in *. lia.
Qed.

(** The port after the one that waits at [low] has no stale cell. *)
Lemma pop_fresh tp st :
  tp_ok tp -> low tp < high tp -> waits tp (low tp) -> is_taken st = true ->
  fresh (set_low (set_status tp (cell tp (low tp)) st) (low tp + 1)) (cell tp (low tp) + 1).
Proof.
  intros Hok Hlt Hw Hst pos Hpos E. set (p := cell tp (low tp)) in *.
  change (cell tp pos = p + 1) in E.
  assert (in_window tp pos) as W by (unfold in_window in *; cbn in Hpos; lia).
  unfold waits.
  change (status (set_low (set_status tp p st) (low tp + 1)) (cell tp pos) = pos).
  cbn [status set_low set_status]. rewrite fn_lookup_insert_ne by lia.
  destruct (decide (waits tp pos)) as [Hp|Hp]; [done|]. exfalso.
  destruct (ok_stale _ Hok pos W Hp) as (_ & _ & H). rewrite E in H.
  replace (p + 1 - 1) with p in H by lia. unfold waits in Hw. fold p in Hw. rewrite Hw in H.
  assert (in_window tp (low tp)) as Wl by (split; lia).
  destruct H as [H|H]; [|unfold in_window in *; cbn in Hpos; lia].
  pose proof (taken_above _ _ _ Hok H Wl). lia.
Qed.

Lemma allocate_loop_spec fuel tp :
  tp_ok tp -> fuel = Z.to_nat (high tp - low tp) ->
  exists tp', allocate_loop fuel tp = Some (default (-1) (head (queue tp)), tp') /\
    tp_ok tp' /\ queue tp' = tail (queue tp) /\ high tp' = high tp /\ same_range tp tp' /\
    (forall x, head (queue tp) = Some x -> fresh tp' (x + 1)).
Proof.
  revert tp. induction fuel as [|fuel IH]; intros tp Hok Hf; cbn [allocate_loop];
    (destruct (high tp <=? low tp) eqn:E; [apply Z.leb_le in E|apply Z.leb_gt in E]); try lia.
  { assert (queue tp = []) as Q by (unfold queue; by rewrite seqZ_nil by lia).
    exists tp. rewrite Q. by split_and!. }
  pose proof (queue_low tp E) as Hq. rewrite ring_index.
  change (ports tp (low tp mod 65536)) with (cell tp (low tp)). set (p := cell tp (low tp)) in *.
  assert (in_window tp (low tp)) as W by (split; lia).
  pose proof (ok_cell _ Hok _ W) as [R1 R2]. fold p in R1, R2.
  rewrite (proj2 (Z.ltb_ge _ _) R1), (proj2 (Z.ltb_ge _ _) R2), (u32_low tp Hok E). cbn [orb].
  destruct (decide (waits tp (low tp))) as [Hw|Hw].
  - destruct (pop_ok tp TPS_TAKEN_SINGLE Hok E Hw eq_refl) as [Hok' Hq'].
    assert (status tp p = low tp) as Es by apply Hw. rewrite Es, Z.eqb_refl. cbn [negb].
    replace (is_taken (low tp)) with false.
    + eexists. split; [by rewrite Hq'|]. split; [exact Hok'|]. split; [by rewrite Hq'|].
      split_and!; [done..|]. intros x. rewrite Hq'. intros [= <-]. by apply pop_fresh.
    + symmetry. apply not_true_iff_false. intros H. pose proof (taken_above _ _ _ Hok H W). lia.
  - assert (negb (status tp p =? low tp) = true) as -> by (rewrite negb_true_iff; by apply Z.eqb_neq).
    destruct (IH (set_low tp (low tp + 1))) as (tp' & H & H1 & H2 & H3 & H4 & H5);
      [by apply skip_ok|cbn; lia|].
    cbn [app] in Hq. rewrite Hq.
    exists tp'. split; [by destruct (is_taken _)|]. split_and!; done.
Qed.

Lemma allocate_spec tp :
  tp_ok tp ->
  exists tp', turnports_allocate tp = Some (default (-1) (head (queue tp)), tp') /\
    tp_ok tp' /\ queue tp' = tail (queue tp) /\ high tp' = high tp /\ same_range tp tp' /\
    (forall x, head (queue tp) = Some x -> fresh tp' (x + 1)).
Proof. intros Hok. by apply allocate_loop_spec. Qed.

(** ** Availability, and taking a port out of turn *)

Lemma available_spec tp p :
  tp_ok tp -> turnports_is_available tp p = bool_decide (p ∈ queue tp).
Proof.
  intros Hok. unfold turnports_is_available. rewrite ring_index.
  change (ports tp (status tp p mod 65536)) with (cell tp (status tp p)).
  destruct (decide (in_range tp p)) as [Hp|Hp].
  - rewrite (bool_decide_ext _ _ (queue_free tp p Hok Hp)).
    destruct (is_taken (status tp p)) eqn:E; cbn [negb].
    + rewrite andb_false_r. symmetry. by apply bool_decide_eq_false.
    + destruct (ok_free _ Hok p Hp E) as [W ->]. rewrite Z.eqb_refl, bool_decide_eq_true_2 by done.
      rewrite (proj2 (Z.eqb_neq _ _)); [done|]. pose proof (ok_high _ Hok).
      unfold in_window in W. change TPS_TAKEN_ODD with 0xFFFFFFFC in *.
      change TPS_OUT_OF_RANGE with 0xFFFFFFFF. lia.
  - rewrite (ok_out _ Hok p Hp), Z.eqb_refl. cbn [negb andb]. symmetry.
    apply bool_decide_eq_false. intros H. by apply Hp, queue_range.
Qed.

Lemma allocated_spec tp p :
  tp_ok tp -> turnports_is_allocated tp p = bool_decide (in_range tp p /\ p ∉ queue tp).
Proof.
  intros Hok. unfold turnports_is_allocated. apply eq_bool_prop_intro. rewrite bool_decide_spec.
  rewrite Is_true_true. destruct (decide (in_range tp p)) as [Hp|Hp].
  - rewrite (queue_free tp p Hok Hp), not_false_iff_true. tauto.
  - rewrite (ok_out _ Hok p Hp). split; [done|tauto].
Qed.

(** An even port [x] has just been taken; its successor is taken with it. *)
Lemma take_pair_ok tp x :
  tp_ok tp -> in_range tp x -> is_taken (status tp x) = true -> Z.Even x -> fresh tp (x + 1) ->
  x + 1 ∈ queue tp ->
  let tp' := set_status (set_status tp x TPS_TAKEN_EVEN) (x + 1) TPS_TAKEN_ODD in
  tp_ok tp' /\ queue tp' = filter (fun q => q <> x + 1) (queue tp).
Proof.
  intros Hok Hx Ht [a Ha] Hf Hq tp'. pose proof (ok_low _ Hok) as Hl.
  pose proof (ok_high _ Hok) as Hh.
  assert (forall q, in_range tp q -> is_taken (status tp q) = false -> low tp <= status tp q) as Hge.
  { intros q Hq' Hn. destruct (ok_free _ Hok q Hq' Hn) as [[? ?] _]. lia. }
  assert (tp_ok (set_status tp x TPS_TAKEN_EVEN)) as Hok1.
  { apply (mark_low_ok tp x TPS_TAKEN_EVEN (low tp)); try done; [lia|by auto|].
    intros pos Hpos E.
    assert (forall pos, low tp <= pos < high tp -> cell tp pos = x -> ~ waits tp pos) as Hs.
    { intros pos' W E' Hw. unfold waits in Hw. rewrite E' in Hw. rewrite <- Hw in W.
      pose proof (taken_above _ _ _ Hok Ht W). lia. }
    destruct (ok_stale _ Hok pos Hpos (Hs _ Hpos E)) as ([c Hc] & _). lia. }
  assert (queue (set_status tp x TPS_TAKEN_EVEN) = queue tp) as Eq.
  { rewrite queue_mark by (change TPS_TAKEN_EVEN with 0xFFFFFFFD; change TPS_TAKEN_ODD with 0xFFFFFFFC in Hh; lia).
    apply filter_keep. intros q H ->. apply queue_free in H; [congruence|done..]. }
  split.
  - apply (mark_low_ok (set_status tp x TPS_TAKEN_EVEN) (x + 1) TPS_TAKEN_ODD (low tp)); try done.
    + by apply (queue_range tp).
    + cbn. lia.
    + intros q H _ Hn. destruct (ok_free _ Hok1 q H Hn) as [[? ?] _]. done.
    + intros pos Hpos E. change (cell tp pos = x + 1) in E. split_and!.
      * exists a. lia.
      * unfold in_range in Hx. cbn. lia.
      * left. replace (x + 1 - 1) with x by lia. cbn [status set_status]. by rewrite fn_lookup_insert.
      * intros pos' Hpos' E'. change (cell tp pos' = x + 1) in E'.
        pose proof (Hf pos Hpos E) as W1. pose proof (Hf pos' Hpos' E') as W2.
        unfold waits in W1, W2. congruence.
  - rewrite <- Eq. apply (queue_mark (set_status tp x TPS_TAKEN_EVEN)). exact Hh.
Qed.

Lemma release_spec tp p :
  tp_ok tp -> high tp < TPS_TAKEN_ODD ->
  tp_ok (turnports_release tp p) /\
  queue (turnports_release tp p) = (if decide (in_range tp p /\ p ∉ queue tp) then queue tp ++ [p] else queue tp) /\
  high (turnports_release tp p) <= high tp + 1 /\ same_range tp (turnports_release tp p).
Proof.
  intros Hok Hh. case_decide as D.
  - destruct D as [Hp Hn]. rewrite queue_free, not_false_iff_true in Hn by done.
    rewrite release_push by done. destruct (push_ok tp p Hok Hp Hn Hh) as [H1 H2].
    split_and!; [done..|cbn; lia|done].
  - rewrite release_same; [split_and!; [done..|lia|done]|done|].
    destruct (decide (in_range tp p)) as [Hp|]; [|by left]. right.
    apply queue_free; [done..|]. destruct (decide (p ∈ queue tp)); [done|tauto].
Qed.

(** ** Allocating an even port with its successor *)

(** The search of [turnports_allocate_even] on the queue.  When no port is left, the
    loop releases the port 65535, as -1 is odd. *)
Fixpoint even_search (stop : Z) (n : nat) (Q : list Z) : Z * list Z :=
  match n with
  | O => (-1, Q)
  | S n =>
    match Q with
    | [] => even_search stop n (if decide (stop = 65535) then [65535] else [])
    | x :: Q' =>
      if Z.even x && bool_decide (x + 1 ∈ Q') then (x, filter (fun q => q <> x + 1) Q')
      else even_search stop n (Q' ++ [x])
    end
  end.

Lemma land_1_odd x : negb (Z.land x 1 =? 0) = Z.odd x.
Proof.
  change 1 with (Z.ones 1). rewrite Z.land_ones by lia. change (2 ^ 1) with 2.
  rewrite Zmod_odd. by destruct (Z.odd x).
Qed.

(** The port just taken goes to the end of the queue. *)
Lemma requeue tp tp1 x Q :
  tp_ok tp -> tp_ok tp1 -> queue tp = x :: Q -> queue tp1 = Q -> same_range tp tp1 ->
  high tp1 < TPS_TAKEN_ODD ->
  let tp2 := turnports_release tp1 (u16 x) in
  tp_ok tp2 /\ queue tp2 = Q ++ [x] /\ high tp2 <= high tp1 + 1 /\ same_range tp tp2.
Proof.
  intros Hok Hok1 Hq Hq1 [Hs1 Hs2] Hh. cbv zeta.
  assert (in_range tp x) as Hx by (apply queue_range; [done|]; rewrite Hq; by left).
  assert (u16 x = x) as ->.
  { unfold wrap. apply Z.mod_small. unfold in_range in Hx. pose proof (ok_start _ Hok).
    pose proof (ok_bounds _ Hok). change (2 ^ 16) with 65536. lia. }
  destruct (release_spec tp1 x Hok1 Hh) as (H1 & H2 & H3 & H4 & H5).
  rewrite decide_True in H2.
  - rewrite Hq1 in H2. split_and!; [done..|]. split; congruence.
  - split; [unfold in_range in *; congruence|]. rewrite Hq1. pose proof (queue_NoDup tp) as H.
    rewrite Hq in H. by apply NoDup_cons in H as [? _].
Qed.

Lemma even_loop_spec n tp want rtok :
  tp_ok tp -> high tp + Z.of_nat n <= TPS_TAKEN_ODD ->
  exists tok tp', even_loop n tp want rtok = Some ((even_search (range_stop tp) n (queue tp)).1, tok, tp') /\
    tp_ok tp' /\ queue tp' = (even_search (range_stop tp) n (queue tp)).2 /\
    high tp' <= high tp + Z.of_nat n /\ same_range tp tp'.
Proof.
  revert tp. induction n as [|n IH]; intros tp Hok Hh; cbn [even_loop even_search].
  { exists None, tp. split_and!; [done..|lia|done]. }
  destruct (allocate_spec tp Hok) as (tp1 & -> & Hok1 & Hq1 & Hh1 & Hr1 & Hf). mred.
  pose proof Hr1 as [Hs1 Hs2]. rewrite land_1_odd.
  assert (high tp1 < TPS_TAKEN_ODD) as Hlt by lia.
  destruct (queue tp) as [|x Q] eqn:Hq; cbn [head default from_option id tail] in *.
  - change (Z.odd (-1)) with true. cbv iota. change (u16 (-1)) with 65535.
    destruct (release_spec tp1 65535 Hok1 Hlt) as (H1 & H2 & H3 & H4 & H5).
    destruct (IH (turnports_release tp1 65535)) as (tok & tp' & E & ? & Eq & ? & ? & ?); [done|lia|].
    assert (range_stop (turnports_release tp1 65535) = range_stop tp) as Es by congruence.
    rewrite Es in E, Eq.
    assert (queue (turnports_release tp1 65535) = if decide (range_stop tp = 65535) then [65535] else []) as E2.
    { rewrite H2, Hq1. clear H2. pose proof (ok_bounds _ Hok). unfold in_range. rewrite Hs1, Hs2.
      case_decide as D1; case_decide as D2; try done; exfalso; [lia|].
      apply D1. split; [lia|]. apply not_elem_of_nil. }
    rewrite E2 in E, Eq.
    exists tok, tp'. split_and!; [done..|lia|]. split; congruence.
  - destruct (requeue tp tp1 x Q Hok Hok1 Hq Hq1 Hr1 Hlt) as (H1 & H2 & H3 & H4 & H5).
    assert (in_range tp x) as Hx by (apply queue_range; [done|]; rewrite Hq; by left).
    assert (exists tok tp', even_loop n (turnports_release tp1 (u16 x)) want rtok
              = Some ((even_search (range_stop tp) n (Q ++ [x])).1, tok, tp') /\
              tp_ok tp' /\ queue tp' = (even_search (range_stop tp) n (Q ++ [x])).2 /\
              high tp' <= high tp + Z.of_nat (S n) /\ same_range tp tp') as Hgo.
    { destruct (IH (turnports_release tp1 (u16 x))) as (tok & tp' & E & ? & Eq & ? & ? & ?); [done|lia|].
      rewrite H5, H2 in E, Eq. exists tok, tp'. split_and!; [done..|lia|]. split; congruence. }
    rewrite <- Z.negb_even. destruct (Z.even x) eqn:Ev; cbn [negb andb]; [|exact Hgo].
    rewrite Hs2. case_bool_decide as Hin.
    + assert (in_range tp (x + 1)) as Hx1 by (apply queue_range; [done|]; rewrite Hq; by right).
      pose proof (ok_bounds _ Hok) as Hb. pose proof (ok_start _ Hok) as H0.
      rewrite (proj2 (Z.ltb_ge _ _)) by (unfold in_range in Hx1; lia).
      assert (u16 (x + 1) = x + 1) as ->.
      { unfold wrap. apply Z.mod_small. change (2 ^ 16) with 65536. unfold in_range in Hx1. lia. }
      rewrite available_spec, Hq1, bool_decide_eq_true_2 by done. cbn [negb].
      destruct (take_pair_ok tp1 x Hok1) as [Hok2 Hq2].
      * unfold in_range in *. congruence.
      * apply not_false_iff_true. rewrite <- queue_free, Hq1; [|done|unfold in_range in *; congruence].
        pose proof (queue_NoDup tp) as H. rewrite Hq in H. by apply NoDup_cons in H as [? _].
      * by apply Z.even_spec.
      * by apply Hf.
      * by rewrite Hq1.
      * eexists _, _. split; [reflexivity|]. split; [exact Hok2|]. split; [by rewrite Hq2, Hq1|].
        cbn [high set_status]. split; [lia|done].
    + destruct (range_stop tp <? x + 1) eqn:Es; [exact Hgo|]. apply Z.ltb_ge in Es.
      pose proof (ok_bounds _ Hok) as Hb. pose proof (ok_start _ Hok) as H0.
      assert (u16 (x + 1) = x + 1) as ->.
      { unfold wrap. apply Z.mod_small. change (2 ^ 16) with 65536. unfold in_range in Hx. lia. }
      rewrite available_spec, Hq1, bool_decide_eq_false_2 by done. exact Hgo.
Qed.

Lemma remove_perm (l : list Z) y : NoDup l -> y ∈ l -> l ≡ₚ y :: filter (fun q => q <> y) l.
Proof.
  intros Hn Hy. apply NoDup_Permutation; [done| |].
  - constructor; [|by apply NoDup_filter]. intros [H _]%list_elem_of_filter. done.
  - intros x. rewrite elem_of_cons, list_elem_of_filter. destruct (decide (x = y)) as [->|]; tauto.
Qed.

Lemma even_search_sound stop n Q :
  NoDup Q -> Q <> [] ->
  (even_search stop n Q).1 = -1 /\ (even_search stop n Q).2 ≡ₚ Q \/
  Z.Even (even_search stop n Q).1 /\
  Q ≡ₚ (even_search stop n Q).1 :: ((even_search stop n Q).1 + 1) :: (even_search stop n Q).2.
Proof.
  revert Q. induction n as [|n IH]; intros Q Hn Hne; cbn [even_search]; [by left|].
  destruct Q as [|x Q]; [done|].
  destruct (Z.even x && bool_decide (x + 1 ∈ Q)) eqn:E.
  - right. apply andb_true_iff in E as [Hx%Z.even_spec Hin%bool_decide_eq_true].
    cbn [fst snd]. split; [done|]. apply NoDup_cons in Hn as [_ Hn].
    by rewrite <- remove_perm.
  - assert (Q ++ [x] ≡ₚ x :: Q) as Hp by (by rewrite Permutation_app_comm).
    destruct (IH (Q ++ [x])) as [[H1 H2]|[H1 H2]]; [by rewrite Hp|by destruct Q| |].
    + left. by rewrite H2.
    + right. split; [done|]. by rewrite <- Hp.
Qed.

Lemma even_search_complete stop n Q1 x Q2 :
  (length Q1 < n)%nat -> Forall (fun q => 0 <= q) (Q1 ++ x :: Q2) ->
  Z.Even x -> x + 1 ∈ Q1 ++ x :: Q2 -> (even_search stop n (Q1 ++ x :: Q2)).1 <> -1.
Proof.
  revert n Q2. induction Q1 as [|y Q1 IH]; intros [|n] Q2 Hn Hp Hx Hin; cbn [length app even_search] in *; try lia.
  - apply Forall_cons in Hp as [Hp _]. apply elem_of_cons in Hin as [?|Hin]; [lia|].
    rewrite (proj2 (Z.even_spec x) Hx), bool_decide_eq_true_2 by done. cbn. lia.
  - pose proof Hp as Hp'. apply Forall_cons in Hp as [Hy Hp].
    destruct (Z.even y && bool_decide (y + 1 ∈ Q1 ++ x :: Q2)); [cbn; lia|].
    rewrite <- app_assoc. cbn [app]. apply IH; [lia| |done|].
    + change (x :: Q2 ++ [y]) with ((x :: Q2) ++ [y]). rewrite app_assoc, Permutation_app_comm. done.
    + set_solver.
Qed.

Lemma even_search_nil stop n :
  even_search stop n [] = (-1, if decide (stop = 65535 /\ n <> O) then [65535] else []).
Proof.
  assert (forall m, even_search stop m [65535] = (-1, [65535])) as H by (induction m; done).
  induction n as [|n IH]; cbn [even_search]; [by rewrite decide_False by tauto|].
  destruct (decide (stop = 65535)) as [->|]; [by rewrite H|].
  rewrite IH, !decide_False by tauto. done.
Qed.

(** What [turnports_allocate_even] answers: a free even port whose successor is free as
    well, or -1 when there is none. *)
Definition no_pair (Q : list Z) : Prop := forall x, x ∈ Q -> Z.Even x -> x + 1 ∉ Q.

Lemma size_spec tp : tp_ok tp -> turnports_size tp = high tp - low tp.
Proof.
  intros Hok. unfold turnports_size, wrap. apply Z.mod_small. change (2 ^ 16) with 65536.
  pose proof (window_bound tp Hok). pose proof (ok_ring tp Hok). pose proof (ok_low tp Hok). lia.
Qed.

Lemma allocate_even_spec tp want rtok :
  tp_ok tp -> high tp + 65535 <= TPS_TAKEN_ODD ->
  exists port tok tp', turnports_allocate_even tp want rtok = Some (port, tok, tp') /\
    tp_ok tp' /\ high tp' <= high tp + 65535 /\ same_range tp tp' /\
    ((Z.Even port /\ queue tp ≡ₚ port :: (port + 1) :: queue tp') \/
     (port = -1 /\ no_pair (queue tp) /\ queue tp' ≡ₚ queue tp) \/
     (port = -1 /\ queue tp = [] /\ range_stop tp = 65535 /\ queue tp' = [65535] /\ 1 < high tp - low tp)).
Proof.
  intros Hok Hh. unfold turnports_allocate_even. rewrite (size_spec tp Hok).
  pose proof (queue_length tp Hok) as Hlen. pose proof (ok_low tp Hok) as Hlo.
  pose proof (window_bound tp Hok) as Hwb. pose proof (ok_ring tp Hok) as Hri.
  destruct (1 <? high tp - low tp) eqn:E; [apply Z.ltb_lt in E|apply Z.ltb_ge in E].
  2: { exists (-1), None, tp. split_and!; [done..|lia|done|]. right. left. split_and!; [done| |done].
       intros x Hx _ Hx1. destruct (queue tp) as [|a [|b Q]]; cbn [length] in Hlen; [set_solver|set_solver by lia|lia]. }
  destruct (even_loop_spec (Z.to_nat (high tp - low tp)) tp want rtok Hok) as (tok & tp' & Ho & H1 & H2 & H3 & H4);
    [lia|].
  eexists _, tok, tp'. split; [exact Ho|]. split; [done|]. split; [lia|]. split; [done|]. rewrite H2. clear Ho H2.
  pose proof (queue_NoDup tp) as Hnd.
  assert (Forall (fun q => 0 <= q) (queue tp)) as Hpos.
  { apply Forall_forall. intros q Hq. pose proof (queue_range tp q Hok Hq) as R. unfold in_range in R.
    pose proof (ok_start tp Hok). lia. }
  destruct (decide (queue tp = [])) as [Eq|Hne].
  - rewrite Eq, even_search_nil. cbn [fst snd]. right. case_decide as D.
    + right. destruct D. by split_and!.
    + left. split_and!; [done| |done]. intros x Hx. by apply not_elem_of_nil in Hx.
  - destruct (even_search_sound (range_stop tp) (Z.to_nat (high tp - low tp)) (queue tp) Hnd Hne) as [[Ha Hb]|Hf].
    + right. left. split; [done|]. split; [|done]. intros x Hx He Hx1.
      pose proof Hx as (Q1 & Q2 & Eq)%list_elem_of_split.
      rewrite Eq in Ha, Hpos, Hx1, Hlen. rewrite length_app in Hlen. cbn [length] in Hlen.
      apply (even_search_complete (range_stop tp) (Z.to_nat (high tp - low tp)) Q1 x Q2); [lia|done..].
    + by left.
Qed.

(** ** Creation: the shuffle keeps a permutation of the range *)

Record shuffled (start stop : Z) (tp : turnports) : Prop := {
  sh_low : low tp = start;
  sh_high : high tp = stop + 1;
  sh_start : range_start tp = start;
  sh_stop : range_stop tp = stop;
  sh_out p : ~ start <= p <= stop -> status tp p = TPS_OUT_OF_RANGE;
  sh_status p : start <= p <= stop -> start <= status tp p <= stop /\ ports tp (status tp p) = p;
  sh_ports pos : start <= pos <= stop -> start <= ports tp pos <= stop /\ status tp (ports tp pos) = pos
}.

Lemma u16_id x : 0 <= x < 65536 -> u16 x = x.
Proof. intros H. unfold wrap. by apply Z.mod_small. Qed.

Section create.
Context (start stop : Z) (Hstart : 0 <= start <= stop) (Hstop : stop < 65536)
        (Hring : (stop - start + 1) + (stop - start + 1) / 2 < 65536).

Lemma cycle_shuffled tp rnd :
  shuffled start stop tp ->
  exists tp', randomize_cycle tp (stop - start + 1) rnd = Some tp' /\ shuffled start stop tp'.
Proof using Hstart Hstop Hring.
  intros [s1 s2 s3 s4 s5 s6 s7]. unfold randomize_cycle. rewrite s1.
  assert (forall r, exists p, u16 (start + u16 (u64 r mod (stop - start + 1))) = p /\ start <= p <= stop) as Hp.
  { intros r. pose proof (Z.mod_pos_bound (u64 r) (stop - start + 1)) as B.
    assert (stop - start + 1 < 65536) as B' by zlia.
    set (m := u64 r mod (stop - start + 1)) in *.
    rewrite (u16_id m) by lia. rewrite u16_id by lia. eexists. split; [done|lia]. }
  destruct (Hp rnd.1) as (p1 & -> & H1), (Hp rnd.2) as (p2 & -> & H2).
  case_decide as Hne; [by exists tp|].
  destruct (s6 p1 H1) as [B1 E1], (s6 p2 H2) as [B2 E2].
  rewrite decide_True by (unfold PORTS_SIZE; lia).
  eexists. split; [reflexivity|]. rewrite E1, E2, u16_id by lia.
  split; cbn [low high range_start range_stop status ports]; try done; unfold insert, fn_insert.
  - intros p Hp'. rewrite !decide_False by (intros ->; tauto). by apply s5.
  - intros p Hp'. destruct (s6 p Hp') as [B E].
    repeat case_decide; subst; try (split; [lia|congruence]); try congruence.
  - intros pos Hp'. destruct (s7 pos Hp') as [B E].
    repeat case_decide; subst; try (split; [lia|congruence]); try congruence.
Qed.

Lemma loop_shuffled n tp rnd :
  shuffled start stop tp ->
  exists tp', randomize_loop n tp (stop - start + 1) rnd = Some tp' /\ shuffled start stop tp'.
Proof using Hstart Hstop Hring.
  revert tp. induction n as [|n IH]; intros tp H; cbn [randomize_loop]; [by exists tp|].
  destruct (cycle_shuffled tp (rnd n) H) as (tp1 & -> & H1). mred. by apply IH.
Qed.

Lemma shuffled_ok tp : shuffled start stop tp -> tp_ok tp /\ queue tp ≡ₚ seqZ start (stop - start + 1).
Proof using Hstart Hstop Hring.
  intros [s1 s2 s3 s4 s5 s6 s7].
  assert (forall pos, in_window tp pos -> start <= pos <= stop) as Hw by (unfold in_window; rewrite s1, s2; lia).
  assert (forall pos, in_window tp pos -> cell tp pos = ports tp pos) as Hc.
  { intros pos W%Hw. unfold cell. by rewrite Z.mod_small by lia. }
  assert (forall pos, in_window tp pos -> waits tp pos) as Hwt.
  { intros pos W. unfold waits. rewrite Hc by done. by apply s7, Hw. }
  assert (tp_ok tp) as Hok.
  { split; unfold range_size, in_range; rewrite ?s1, ?s2, ?s3, ?s4; try lia; try done.
    - change TPS_TAKEN_ODD with 0xFFFFFFFC. lia.
    - intros p Hp _. destruct (s6 p Hp) as [B E].
      assert (in_window tp (status tp p)) as W by (unfold in_window; rewrite s1, s2; lia).
      split; [done|]. by rewrite Hc.
    - intros pos W. rewrite (Hc pos W). by apply s7, Hw.
    - intros pos W Hn. by apply Hwt in W.
    - intros pos1 pos2 W _ Hn. by apply Hwt in W. }
  split; [done|]. apply NoDup_Permutation; [apply queue_NoDup|apply NoDup_seqZ|].
  intros p. rewrite elem_of_seqZ. split.
  - intros H%(queue_range tp p Hok). unfold in_range in H. lia.
  - intros H. apply queue_free; [done|unfold in_range; lia|].
    destruct (s6 p) as [B _]; [lia|]. apply not_taken. lia.
Qed.

Lemma create_spec rnd :
  exists tp, turnports_create start stop rnd = Some (Some tp) /\ tp_ok tp /\
    queue tp ≡ₚ seqZ start (stop - start + 1) /\ high tp = stop + 1 /\
    range_start tp = start /\ range_stop tp = stop.
Proof using Hstart Hstop Hring.
  unfold turnports_create, turnports_init, turnports_randomize. rewrite decide_False by lia. cbn [low high].
  assert (u32 (stop + 1 - start) = stop - start + 1) as ->.
  { unfold wrap. change (2 ^ 32) with 4294967296. rewrite Z.mod_small by lia. lia. }
  edestruct loop_shuffled as (tp & -> & H).
  - split; cbn [low high range_start range_stop status ports]; try done.
    + intros p Hp. by rewrite decide_False.
    + intros p Hp. rewrite decide_True by done. split; [done|]. apply u16_id. lia.
    + intros p Hp. rewrite u16_id by lia. split; [done|]. by rewrite decide_True.
  - mred. destruct (shuffled_ok tp H) as [Hok Hq]. exists tp. destruct H. by split_and!.
Qed.
End create.

(** ** Sequences of operations

    The specification of a pool is a step relation on the queue of its free ports. *)

Inductive tp_op :=
  | TpAllocate
  | TpAllocateEven (want_token : bool) (rtok : Z)
  | TpRelease (port : Z)
  | TpIsAllocated (port : Z)
  | TpIsAvailable (port : Z).

Definition tp_step (tp : turnports) (op : tp_op) : option (Z * turnports) :=
  match op with
  | TpAllocate => turnports_allocate tp
  | TpAllocateEven want rtok => '(port, _, tp) ← turnports_allocate_even tp want rtok; Some (port, tp)
  | TpRelease port => Some (0, turnports_release tp port)
  | TpIsAllocated port => Some (Z.b2z (turnports_is_allocated tp port), tp)
  | TpIsAvailable port => Some (Z.b2z (turnports_is_available tp port), tp)
  end.

Section pool.
Context (start stop : Z).

Inductive pool_step : list Z -> tp_op -> Z -> list Z -> Prop :=
  | pool_none : pool_step [] TpAllocate (-1) []
  | pool_allocate x Q : pool_step (x :: Q) TpAllocate x Q
  | pool_even x Q Q' want rtok :
      Z.Even x -> Q ≡ₚ x :: x + 1 :: Q' -> pool_step Q (TpAllocateEven want rtok) x Q'
  | pool_no_even Q Q' want rtok :
      no_pair Q -> Q' ≡ₚ Q -> pool_step Q (TpAllocateEven want rtok) (-1) Q'
  | pool_even_frees want rtok :
      stop = 65535 -> pool_step [] (TpAllocateEven want rtok) (-1) [65535]
  | pool_release Q p :
      start <= p <= stop -> p ∉ Q -> pool_step Q (TpRelease p) 0 (Q ++ [p])
  | pool_release_no Q p :
      p < start \/ stop < p \/ p ∈ Q -> pool_step Q (TpRelease p) 0 Q
  | pool_allocated Q p b :
      b = bool_decide (start <= p <= stop /\ p ∉ Q) -> pool_step Q (TpIsAllocated p) (Z.b2z b) Q
  | pool_available Q p b :
      b = bool_decide (p ∈ Q) -> pool_step Q (TpIsAvailable p) (Z.b2z b) Q.

Inductive pool_steps : list Z -> list tp_op -> list Z -> list Z -> Prop :=
  | pool_done Q : pool_steps Q [] [] Q
  | pool_more Q op r Q1 ops rs Q2 :
      pool_step Q op r Q1 -> pool_steps Q1 ops rs Q2 -> pool_steps Q (op :: ops) (r :: rs) Q2.
End pool.

(** How far an operation can move the end of the ring. *)
Definition op_room (op : tp_op) : Z :=
  match op with TpAllocateEven _ _ => 65535 | TpRelease _ => 1 | _ => 0 end.

Definition ops_room (ops : list tp_op) : Z := foldr (fun op r => op_room op + r) 0 ops.

Lemma ops_room_nonneg ops : 0 <= ops_room ops.
Proof. induction ops as [|op ops IH]; cbn [ops_room foldr]; [lia|]. fold (ops_room ops). destruct op; cbn; lia. Qed.

Lemma tp_step_simulates tp op :
  tp_ok tp -> high tp + op_room op <= TPS_TAKEN_ODD ->
  exists r tp', tp_step tp op = Some (r, tp') /\ tp_ok tp' /\ high tp' <= high tp + op_room op /\
    same_range tp tp' /\ pool_step (range_start tp) (range_stop tp) (queue tp) op r (queue tp').
Proof.
  intros Hok Hh. destruct op as [|want rtok|p|p|p]; cbn [tp_step op_room] in *.
  - destruct (allocate_spec tp Hok) as (tp' & -> & H1 & H2 & H3 & H4 & _).
    eexists _, tp'. split_and!; [done..|lia|done|]. rewrite H2. destruct (queue tp); constructor.
  - destruct (allocate_even_spec tp want rtok Hok Hh) as (port & tok & tp' & -> & H1 & H2 & H3 & H4).
    mred. exists port, tp'. split_and!; [done..|].
    destruct H4 as [[? ?]|[(-> & ? & ?)|(-> & -> & ? & -> & _)]]; by constructor.
  - destruct (release_spec tp p Hok) as (H1 & H2 & H3 & H4); [lia|].
    exists 0, (turnports_release tp p). split_and!; [done..|]. rewrite H2. clear H2.
    unfold in_range. case_decide as D; [destruct D; by constructor|].
    apply pool_release_no. destruct (decide (p ∈ queue tp)); [tauto|].
    destruct (Z.lt_ge_cases p (range_start tp)); [tauto|]. right. left.
    apply Z.nle_gt. intros ?. apply D. by split_and!.
  - eexists _, tp. split_and!; [done..|lia|done|]. constructor. by apply allocated_spec.
  - eexists _, tp. split_and!; [done..|lia|done|]. constructor. by apply available_spec.
Qed.

Lemma tp_run_simulates tp ops :
  tp_ok tp -> high tp + ops_room ops <= TPS_TAKEN_ODD ->
  exists rs tp', run tp_step tp ops = Some (rs, tp') /\ tp_ok tp' /\
    pool_steps (range_start tp) (range_stop tp) (queue tp) ops rs (queue tp').
Proof.
  revert tp. induction ops as [|op ops IH]; intros tp Hok Hh; cbn [run ops_room foldr] in *.
  - exists [], tp. split_and!; [done..|constructor].
  - fold (ops_room ops) in Hh. pose proof (ops_room_nonneg ops) as Hn.
    destruct (tp_step_simulates tp op Hok) as (r & tp1 & -> & Hok1 & Hh1 & [E1 E2] & Hs); [lia|].
    mred. destruct (IH tp1 Hok1) as (rs & tp2 & -> & Hok2 & Hs2); [lia|]. mred.
    rewrite E1, E2 in Hs2. eexists _, tp2. split_and!; [done..|by econstructor].
Qed.

(** C40 A pool created for a range, whatever the random numbers of the shuffle, is a queue
    of its free ports: in every sequence of operations, a port is handed out only when it
    is free, the longest waiting first; a port is released only when it is taken; an even
    port is found together with its successor exactly when such a pair is free; and the
    queries answer from the queue.  The one exception is part of the specification: when
    no port is free, [turnports_allocate_even] may release the port 65535.  The range has
    at most 43690 ports, for which the ring never overflows, and the operations do not
    bring the 32-bit position counter to its end. *)
Theorem turnports_refines_pool start stop rnd ops :
  0 <= start <= stop -> stop < 65536 -> stop - start + 1 <= 43690 ->
  stop + 1 + ops_room ops <= TPS_TAKEN_ODD ->
  exists tp Q rs tp' Q', turnports_create start stop rnd = Some (Some tp) /\
    Q ≡ₚ seqZ start (stop - start + 1) /\
    run tp_step tp ops = Some (rs, tp') /\ pool_steps start stop Q ops rs Q'.
Proof.
  intros H1 H2 H3 Hr.
  destruct (create_spec start stop H1 H2 ltac:(zlia) rnd) as (tp & Hc & Hok & Hq & Hh & <- & <-).
  destruct (tp_run_simulates tp ops Hok) as (rs & tp' & Hrun & _ & Hs); [lia|].
  exists tp, (queue tp), rs, tp', (queue tp'). by split_and!.
Qed.

Lemma turnports_refines_pool_witness :
  exists tp Q rs tp' Q',
    turnports_create 49152 65535 (fun n => (Z.of_nat n, Z.of_nat n * Z.of_nat n)) = Some (Some tp) /\
    Q ≡ₚ seqZ 49152 16384 /\
    run tp_step tp [TpAllocate; TpAllocateEven true 7; TpRelease 50000; TpIsAllocated 50000] = Some (rs, tp') /\
    pool_steps 49152 65535 Q [TpAllocate; TpAllocateEven true 7; TpRelease 50000; TpIsAllocated 50000] rs Q'.
Proof.
  apply (turnports_refines_pool 49152 65535
    (fun n => (Z.of_nat n, Z.of_nat n * Z.of_nat n))
    [TpAllocate; TpAllocateEven true 7; TpRelease 50000; TpIsAllocated 50000]);
    vm_compute; try split; congruence.
Defined.

(** The exception happens: in a pool of four ports, the pairs 65532 and 65534 are
    handed out; a third request finds no pair, answers -1 and releases the port 65535,
    which nobody has released; the next request is given that port although the second
    client still holds it. *)
Theorem turnports_even_frees_held_port :
  exists rnd, (tp ← turnports_create 65532 65535 rnd; tp ← tp;
     '(rs, _) ← run tp_step tp [TpAllocateEven false 0; TpAllocateEven false 0; TpIsAllocated 65535;
                                TpAllocateEven false 0; TpIsAllocated 65535; TpAllocate];
     Some rs) = Some [65532; 65534; 1; -1; 0; 65535].
Proof. exists (fun n => if decide (n = O) then (1, 2) else (0, 0)). vm_compute. reflexivity. Qed.
