(* ===== verification/TurnIpPorts.v ===== *)
(** * Ports per relay address: the [turnipports] half of [apps/relay/turn_ports.c]

    Two address maps, one per transport, lead from a relay address to its pool; a pool
    is made when an address is first used.  The pools live in memory that is never
    freed, the list [ip_heap]: the pointer to a pool is its place in it, from 1. *)

From S2P Require Import Prelude IoAddr Buckets AddrMap TurnPorts.

Definition STUN_ATTRIBUTE_TRANSPORT_TCP_VALUE : Z := 6.
Definition STUN_ATTRIBUTE_TRANSPORT_UDP_VALUE : Z := 17.

Record turnipports := mk_turnipports {
  ip_start : Z;
  ip_end : Z;
  ip_to_turnports_udp : ur_addr_map;
  ip_to_turnports_tcp : ur_addr_map;
  ip_heap : list turnports
}.

Definition is_tcp (transport : Z) : bool := transport =? STUN_ATTRIBUTE_TRANSPORT_TCP_VALUE.

Definition get_map (tp : turnipports) (transport : Z) : ur_addr_map :=
  if is_tcp transport then ip_to_turnports_tcp tp else ip_to_turnports_udp tp.

(** The caller's pointer into the object is a write of the whole map. *)
Definition set_map (tp : turnipports) (transport : Z) (m : ur_addr_map) : turnipports :=
  if is_tcp transport
  then mk_turnipports (ip_start tp) (ip_end tp) (ip_to_turnports_udp tp) m (ip_heap tp)
  else mk_turnipports (ip_start tp) (ip_end tp) m (ip_to_turnports_tcp tp) (ip_heap tp).

Definition set_heap (tp : turnipports) (h : list turnports) : turnipports :=
  mk_turnipports (ip_start tp) (ip_end tp) (ip_to_turnports_udp tp) (ip_to_turnports_tcp tp) h.

Definition turnipports_create (start stop : Z) : turnipports :=
  mk_turnipports start stop ur_addr_map_init ur_addr_map_init [].

(** Reading and writing through a pointer to a pool; 0 is null. *)
Definition heap_index (t : Z) : nat := Z.to_nat (t - 1).

Definition load_pool (tp : turnipports) (t : Z) : option turnports :=
  if decide (t = 0) then None else ip_heap tp !! heap_index t.

Definition store_pool (tp : turnipports) (t : Z) (p : turnports) : turnipports :=
  set_heap tp (<[heap_index t := p]> (ip_heap tp)).

(** The pointer to the pool of an address. *)
Definition turnipports_add (tp : turnipports) (transport : Z) (backend_addr : ioa_addr)
    (rnd : nat -> Z * Z) : option (Z * turnipports) :=
  let ba := addr_set_port backend_addr 0 in
  found ← ur_addr_map_get (get_map tp transport) ba;
  match found with
  | Some t => Some (t, tp)
  | None =>
    created ← turnports_create (ip_start tp) (ip_end tp) rnd;
    let '(t, tp) := match created with
                    | None => (0, tp)
                    | Some p => (Z.of_nat (length (ip_heap tp)) + 1, set_heap tp (ip_heap tp ++ [p]))
                    end in
    '(_, m) ← ur_addr_map_put (get_map tp transport) ba t;
    Some (t, set_map tp transport m)
  end.

(** It works on the only object there is, when it has been created. *)
Definition turnipports_add_ip (singleton : option turnipports) (transport : Z) (backend_addr : ioa_addr)
    (rnd : nat -> Z * Z) : option (option turnipports) :=
  match singleton with
  | None => Some None
  | Some tp => '(_, tp) ← turnipports_add tp transport backend_addr rnd; Some (Some tp)
  end.

Definition turnipports_allocate (tp : turnipports) (transport : Z) (backend_addr : ioa_addr)
    (rnd : nat -> Z * Z) : option (Z * turnipports) :=
  '(t, tp) ← turnipports_add tp transport backend_addr rnd;
  p ← load_pool tp t;
  '(port, p) ← turnports_allocate p;
  Some (port, store_pool tp t p).

Definition turnipports_allocate_even (tp : turnipports) (backend_addr : ioa_addr) (want_token : bool)
    (rtok : Z) (rnd : nat -> Z * Z) : option (Z * option Z * turnipports) :=
  '(t, tp) ← turnipports_add tp STUN_ATTRIBUTE_TRANSPORT_UDP_VALUE backend_addr rnd;
  p ← load_pool tp t;
  '(port, tok, p) ← turnports_allocate_even p want_token rtok;
  Some (port, tok, store_pool tp t p).

Definition turnipports_release (tp : turnipports) (transport : Z) (socket_addr : ioa_addr)
    : option turnipports :=
  let ba := addr_set_port socket_addr 0 in
  found ← ur_addr_map_get (get_map tp transport) ba;
  match found with
  | Some t => p ← load_pool tp t;
              Some (store_pool tp t (turnports_release p (addr_get_port (Some socket_addr))))
  | None => Some tp
  end.

Definition turnipports_is_allocated (tp : turnipports) (transport : Z) (backend_addr : ioa_addr) (port : Z)
    : option bool :=
  let ba := addr_set_port backend_addr 0 in
  found ← ur_addr_map_get (get_map tp transport) ba;
  match found with
  | Some t => p ← load_pool tp t; Some (turnports_is_allocated p port)
  | None => Some false
  end.

Definition turnipports_is_available (tp : turnipports) (transport : Z) (backend_addr : ioa_addr) (port : Z)
    : option bool :=
  let ba := addr_set_port backend_addr 0 in
  found ← ur_addr_map_get (get_map tp transport) ba;
  match found with
  | Some t => p ← load_pool tp t; Some (turnports_is_available p port)
  | None => Some true
  end.

(** ** The invariant

    Every pointer in the maps leads to a good pool over the configured range, and no
    pool is shared by two addresses or transports. *)

Definition pool_key (a : ioa_addr) : ioa_addr := addr_set_port a 0.

Definition pool_ptr (tp : turnipports) (tcp : bool) (k : ioa_addr) : option Z :=
  view (if tcp then ip_to_turnports_tcp tp else ip_to_turnports_udp tp) k.

Definition pool_at (tp : turnipports) (tcp : bool) (k : ioa_addr) : option turnports :=
  t ← pool_ptr tp tcp k; load_pool tp t.

Record ip_ok (tp : turnipports) : Prop := {
  ok_udp : addr_ok (ip_to_turnports_udp tp);
  ok_tcp : addr_ok (ip_to_turnports_tcp tp);
  ok_pools : Forall (fun p => tp_ok p /\ range_start p = ip_start tp /\ range_stop p = ip_end tp) (ip_heap tp);
  ok_ptr tcp k t : pool_ptr tp tcp k = Some t -> 1 <= t <= zlen (ip_heap tp);
  ok_ptr_inj tcp k tcp' k' t : pool_ptr tp tcp k = Some t -> pool_ptr tp tcp' k' = Some t ->
    tcp = tcp' /\ addr_eqv k k'
}.

Lemma pool_ptr_get tp transport k :
  ip_ok tp -> ur_addr_map_get (get_map tp transport) k = Some (pool_ptr tp (is_tcp transport) k).
Proof.
  intros Hok. unfold pool_ptr, get_map.
  assert (addr_ok (if is_tcp transport then ip_to_turnports_tcp tp else ip_to_turnports_udp tp)) as Ha
    by (destruct (is_tcp transport); apply Hok).
  destruct (addr_bucket _ k Ha) as (b & Hb & _). destruct (view_bucket _ k b Ha Hb) as [-> ->]. done.
Qed.

Lemma load_ptr tp tcp k t :
  ip_ok tp -> pool_ptr tp tcp k = Some t ->
  exists p, load_pool tp t = Some p /\ pool_at tp tcp k = Some p /\
    tp_ok p /\ range_start p = ip_start tp /\ range_stop p = ip_end tp.
Proof.
  intros Hok Hp. pose proof (ok_ptr _ Hok _ _ _ Hp) as Ht.
  destruct (lookup_lt_is_Some_2 (ip_heap tp) (heap_index t)) as [p Hl]; [unfold heap_index; lia|].
  assert (load_pool tp t = Some p) as E by (unfold load_pool; rewrite decide_False by lia; done).
  exists p. split; [done|]. split; [unfold pool_at; by rewrite Hp|].
  apply (Forall_elem _ _ p (ok_pools _ Hok)). by eapply list_elem_of_lookup_2.
Qed.

(** A pool other than the one of [k]. *)
Definition other_pool (tcp : bool) (k : ioa_addr) (tcp' : bool) (k' : ioa_addr) : Prop :=
  ~ (tcp' = tcp /\ addr_eqv k k').

Lemma store_spec tp tcp k t p :
  ip_ok tp -> pool_ptr tp tcp k = Some t ->
  tp_ok p -> range_start p = ip_start tp -> range_stop p = ip_end tp ->
  ip_ok (store_pool tp t p) /\ pool_at (store_pool tp t p) tcp k = Some p /\
  (forall tcp' k', other_pool tcp k tcp' k' -> pool_at (store_pool tp t p) tcp' k' = pool_at tp tcp' k').
Proof.
  intros Hok Hp H1 H2 H3. pose proof (ok_ptr _ Hok _ _ _ Hp) as Ht.
  assert (forall tcp k, pool_ptr (store_pool tp t p) tcp k = pool_ptr tp tcp k) as Ep by done.
  split; [|split].
  - destruct Hok as [o1 o2 o3 o4 o5]. split; try done.
    + cbn [ip_heap store_pool set_heap]. by apply Forall_insert.
    + intros tcp' k' t' H. cbn [ip_heap store_pool set_heap]. rewrite length_insert. by apply (o4 tcp' k').
  - unfold pool_at. rewrite Ep, Hp. mred. unfold load_pool. rewrite decide_False by lia.
    cbn [ip_heap store_pool set_heap]. apply list_lookup_insert_eq. unfold heap_index. lia.
  - intros tcp' k' Ho. unfold pool_at. rewrite Ep.
    destruct (pool_ptr tp tcp' k') as [t'|] eqn:E; [|done]. mred. unfold load_pool.
    pose proof (ok_ptr _ Hok _ _ _ E) as Ht'. rewrite !decide_False by lia.
    cbn [ip_heap store_pool set_heap]. apply list_lookup_insert_ne. intros Heq. apply Ho.
    assert (t' = t) as -> by (unfold heap_index in Heq; lia).
    by destruct (ok_ptr_inj _ Hok _ _ _ _ _ Hp E) as [-> ?].
Qed.

Section config.
Context (start stop : Z) (Hstart : 0 <= start <= stop) (Hstop : stop < 65536)
        (Hsize : stop - start + 1 <= 43690).

Definition configured (tp : turnipports) : Prop := ip_start tp = start /\ ip_end tp = stop.

(** The pool of a new address. *)
Lemma add_pool_ok tp transport k p m :
  ip_ok tp -> configured tp -> pool_ptr tp (is_tcp transport) k = None ->
  tp_ok p -> range_start p = start -> range_stop p = stop -> addr_ok m -> addr_eqv k k ->
  let t := zlen (ip_heap tp) + 1 in
  (forall k', view m k' = if decide (addr_eqv k k') then Some t else pool_ptr tp (is_tcp transport) k') ->
  let tp' := set_map (set_heap tp (ip_heap tp ++ [p])) transport m in
  ip_ok tp' /\ pool_ptr tp' (is_tcp transport) k = Some t /\ load_pool tp' t = Some p /\
  (forall tcp' k', other_pool (is_tcp transport) k tcp' k' -> pool_at tp' tcp' k' = pool_at tp tcp' k').
Proof using Hstart Hstop Hsize.
  intros Hok [Hs He] Hnone Hp1 Hp2 Hp3 Hm Hk t Hv tp'.
  assert (ip_heap tp' = ip_heap tp ++ [p]) as Eh by (unfold tp', set_map; by destruct (is_tcp transport)).
  assert (ip_start tp' = start /\ ip_end tp' = stop) as [Es Ee]
    by (unfold tp', set_map; by destruct (is_tcp transport)).
  assert (forall tcp' k', pool_ptr tp' tcp' k' =
            if decide (tcp' = is_tcp transport /\ addr_eqv k k') then Some t else pool_ptr tp tcp' k') as Ep.
  { intros tcp' k'. unfold tp', set_map, pool_ptr at 1. destruct (decide (tcp' = is_tcp transport)) as [->|Hne].
    - destruct (is_tcp transport); cbn [ip_to_turnports_tcp ip_to_turnports_udp]; rewrite Hv;
        case_decide as D1; case_decide as D2; tauto.
    - rewrite decide_False by tauto. by destruct tcp', (is_tcp transport). }
  destruct Hok as [o1 o2 o3 o4 o5] eqn:X; clear X.
  assert (load_pool tp' t = Some p) as El.
  { unfold load_pool. rewrite decide_False by (unfold t; lia). rewrite Eh. apply list_lookup_middle.
    unfold heap_index, t. lia. }
  split; [|split; [|split; [done|]]].
  - split.
    + unfold tp', set_map. by destruct (is_tcp transport).
    + unfold tp', set_map. by destruct (is_tcp transport).
    + rewrite Eh, Es, Ee. apply Forall_app. split; [by rewrite <- Hs, <- He|].
      constructor; [done|constructor].
    + intros tcp' k' t'. rewrite Ep, Eh, length_app. cbn [length]. case_decide.
      * intros [= <-]. unfold t. lia.
      * intros X%o4. lia.
    + intros tcp1 k1 tcp2 k2 t'. rewrite !Ep. case_decide as D1; case_decide as D2.
      * intros _ _. destruct D1 as [-> D1], D2 as [-> D2]. split; [done|]. by rewrite <- D1.
      * intros [= <-] X%o4. unfold t in X. lia.
      * intros X%o4 [= <-]. unfold t in X. lia.
      * apply o5.
  - rewrite Ep. by rewrite decide_True.
  - intros tcp' k' Ho. unfold pool_at. rewrite Ep. unfold other_pool in Ho. rewrite decide_False by done.
    destruct (pool_ptr tp tcp' k') as [t'|] eqn:E; [|done]. mred. apply o4 in E.
    unfold load_pool. rewrite !decide_False by lia. rewrite Eh. apply lookup_app_l. unfold heap_index. lia.
Qed.

Lemma add_spec tp transport a rnd :
  ip_ok tp -> configured tp -> inet_addr a ->
  exists t p tp', turnipports_add tp transport a rnd = Some (t, tp') /\
    ip_ok tp' /\ configured tp' /\ pool_ptr tp' (is_tcp transport) (pool_key a) = Some t /\
    load_pool tp' t = Some p /\
    (pool_at tp (is_tcp transport) (pool_key a) = Some p \/
     pool_at tp (is_tcp transport) (pool_key a) = None /\
     queue p ≡ₚ seqZ start (stop - start + 1) /\ high p = stop + 1) /\
    (forall tcp' k', other_pool (is_tcp transport) (pool_key a) tcp' k' ->
       pool_at tp' tcp' k' = pool_at tp tcp' k').
Proof using Hstart Hstop Hsize.
  intros Hok Hc Ha. unfold turnipports_add. fold (pool_key a). rewrite pool_ptr_get by done. mred.
  destruct (pool_ptr tp (is_tcp transport) (pool_key a)) as [t|] eqn:E.
  - destruct (load_ptr _ _ _ _ Hok E) as (p & H1 & H2 & _). exists t, p, tp. split_and!; auto.
  - pose proof Hc as [Hs He]. rewrite Hs, He.
    destruct (create_spec start stop Hstart Hstop ltac:(zlia) rnd) as (p & -> & Hp & Hq & Hh & H1 & H2). mred.
    assert (inet_addr (pool_key a)) as Hk.
    { unfold pool_key, addr_set_port. by rewrite decide_True. }
    assert (addr_ok (get_map tp transport)) as Hm by (unfold get_map; destruct (is_tcp transport); apply Hok).
    destruct (addr_map_put_spec (get_map tp transport) (pool_key a) (zlen (ip_heap tp) + 1) Hm Hk)
      as (m & Hput & Hm' & Hv & _).
    change (get_map (set_heap tp (ip_heap tp ++ [p])) transport) with (get_map tp transport).
    rewrite Hput. mred.
    destruct (add_pool_ok tp transport (pool_key a) p m Hok Hc E Hp H1 H2 Hm') as (G1 & G2 & G3 & G4).
    + by apply addr_eqv_refl.
    + intros k'. rewrite Hv. rewrite (decide_False (P := zlen (ip_heap tp) + 1 = 0)) by lia.
      case_decide; [done|]. unfold pool_ptr, get_map. by destruct (is_tcp transport).
    + eexists _, p, _. split; [reflexivity|]. split; [exact G1|]. split.
      { unfold configured, set_map. by destruct (is_tcp transport). }
      split; [exact G2|]. split; [exact G3|]. split; [|exact G4].
      right. split; [|done]. unfold pool_at. by rewrite E.
Qed.

(** ** One operation on one address *)

(** The operations of the layer on an address; ports of other addresses are released
    through the socket address, which carries the port. *)
Definition ip_step (tp : turnipports) (transport : Z) (a : ioa_addr) (rnd : nat -> Z * Z) (op : tp_op)
    : option (Z * turnipports) :=
  match op with
  | TpAllocate => turnipports_allocate tp transport a rnd
  | TpAllocateEven want rtok =>
    '(port, _, tp) ← turnipports_allocate_even tp a want rtok rnd; Some (port, tp)
  | TpRelease port => tp ← turnipports_release tp transport (addr_set_port a port); Some (0, tp)
  | TpIsAllocated port => b ← turnipports_is_allocated tp transport a port; Some (Z.b2z b, tp)
  | TpIsAvailable port => b ← turnipports_is_available tp transport a port; Some (Z.b2z b, tp)
  end.

(** Even ports are for UDP; a port is a 16-bit number and is looked up in the range. *)
Definition ip_op_ok (transport : Z) (op : tp_op) : Prop :=
  match op with
  | TpAllocate => True
  | TpAllocateEven _ _ => transport = STUN_ATTRIBUTE_TRANSPORT_UDP_VALUE
  | TpRelease port => 0 <= port < 65536
  | TpIsAllocated port => True
  | TpIsAvailable port => start <= port <= stop
  end.

(** The free ports of an address: all of them while it has no pool. *)
Definition free_ports (tp : turnipports) (tcp : bool) (k : ioa_addr) (Q : list Z) : Prop :=
  match pool_at tp tcp k with
  | Some p => Q = queue p
  | None => Q ≡ₚ seqZ start (stop - start + 1)
  end.

Definition room (tp : turnipports) (tcp : bool) (k : ioa_addr) (op : tp_op) : Prop :=
  match pool_at tp tcp k with Some p => high p + op_room op <= TPS_TAKEN_ODD | None => True end.

(** An operation on the pool of a transport and an address: a step of its queue of free
    ports, which leaves every other pool as it was. *)
Definition pool_transition (tp : turnipports) (tcp : bool) (k : ioa_addr) (op : tp_op) (r : Z)
    (tp' : turnipports) : Prop :=
  ip_ok tp' /\ configured tp' /\
  (exists Q Q', free_ports tp tcp k Q /\ free_ports tp' tcp k Q' /\ pool_step start stop Q op r Q') /\
  (forall tcp' k', other_pool tcp k tcp' k' -> pool_at tp' tcp' k' = pool_at tp tcp' k').

(** An operation of the pool run through the pointer of the address. *)
Lemma pool_op_spec tp tcp k t p op :
  ip_ok tp -> configured tp -> pool_ptr tp tcp k = Some t -> load_pool tp t = Some p ->
  high p + op_room op <= TPS_TAKEN_ODD ->
  exists r p', tp_step p op = Some (r, p') /\ ip_ok (store_pool tp t p') /\
    configured (store_pool tp t p') /\ free_ports (store_pool tp t p') tcp k (queue p') /\
    pool_step start stop (queue p) op r (queue p') /\
    (forall tcp' k', other_pool tcp k tcp' k' -> pool_at (store_pool tp t p') tcp' k' = pool_at tp tcp' k').
Proof using Hstart Hstop Hsize.
  intros Hok Hc Hp Hl Hh. pose proof Hc as [Hs He].
  destruct (load_ptr _ _ _ _ Hok Hp) as (q & Hq & _ & Htp & H1 & H2).
  assert (q = p) as -> by congruence.
  destruct (tp_step_simulates p op Htp Hh) as (r & p' & Hst & Hok' & _ & [R1 R2] & Hps).
  destruct (store_spec tp tcp k t p' Hok Hp Hok') as (S1 & S2 & S3); [congruence..|].
  exists r, p'. split_and!; try done.
  - unfold free_ports. by rewrite S2.
  - by rewrite H1, H2, Hs, He in Hps.
Qed.

(** Room for an operation on the pool that [turnipports_add] answers. *)
Lemma add_room tp tcp k p op :
  room tp tcp k op ->
  (pool_at tp tcp k = Some p \/
   pool_at tp tcp k = None /\ queue p ≡ₚ seqZ start (stop - start + 1) /\ high p = stop + 1) ->
  high p + op_room op <= TPS_TAKEN_ODD /\ free_ports tp tcp k (queue p).
Proof using Hstart Hstop Hsize.
  unfold room, free_ports. intros Hr [E|(E & Hq & Hh)]; rewrite E in Hr |- *; [done|].
  split; [|done]. rewrite Hh. change TPS_TAKEN_ODD with 0xFFFFFFFC. destruct op; cbn; lia.
Qed.

(** An operation that creates the pool when it is missing. *)
Lemma creating_spec tp transport a rnd op :
  ip_ok tp -> configured tp -> inet_addr a ->
  room tp (is_tcp transport) (pool_key a) op ->
  exists t p tp1 r p', turnipports_add tp transport a rnd = Some (t, tp1) /\ load_pool tp1 t = Some p /\
    tp_step p op = Some (r, p') /\
    pool_transition tp (is_tcp transport) (pool_key a) op r (store_pool tp1 t p').
Proof using Hstart Hstop Hsize.
  intros Hok Hc Ha Hr.
  destruct (add_spec tp transport a rnd Hok Hc Ha) as (t & p & tp1 & Hadd & Hok1 & Hc1 & Hp & Hl & Hq & Ho).
  destruct (add_room tp _ _ p op Hr Hq) as [Hh Hf].
  destruct (pool_op_spec tp1 _ _ t p op Hok1 Hc1 Hp Hl Hh) as (r & p' & Hs & G1 & G2 & G3 & G4 & G5).
  exists t, p, tp1, r, p'. unfold pool_transition. split_and!; try done.
  - by exists (queue p), (queue p').
  - intros tcp' k' H. by rewrite G5, Ho.
Qed.

(** One that needs the pool to be there. *)
Lemma existing_spec tp tcp k op :
  ip_ok tp -> configured tp -> room tp tcp k op ->
  match pool_ptr tp tcp k with
  | Some t => exists p r p', load_pool tp t = Some p /\ tp_step p op = Some (r, p') /\
      pool_transition tp tcp k op r (store_pool tp t p')
  | None => forall r, pool_step start stop (seqZ start (stop - start + 1)) op r (seqZ start (stop - start + 1)) ->
      pool_transition tp tcp k op r tp
  end.
Proof using Hstart Hstop Hsize.
  intros Hok Hc Hr. destruct (pool_ptr tp tcp k) as [t|] eqn:E.
  - destruct (load_ptr _ _ _ _ Hok E) as (p & Hl & Hp & _). unfold room in Hr. rewrite Hp in Hr.
    destruct (pool_op_spec tp _ _ t p op Hok Hc E Hl Hr) as (r & p' & Hs & G1 & G2 & G3 & G4 & G5).
    exists p, r, p'. unfold pool_transition. split_and!; try done. exists (queue p), (queue p'). split; [|done].
    unfold free_ports. by rewrite Hp.
  - intros r Hs. unfold pool_transition. split_and!; try done. eexists _, _. split; [|split; [|exact Hs]].
    all: unfold free_ports, pool_at; rewrite E; mred; reflexivity.
Qed.

Lemma store_same tp t p : load_pool tp t = Some p -> store_pool tp t p = tp.
Proof using Type.
  unfold load_pool, store_pool, set_heap. case_decide; [done|]. intros Hl.
  rewrite list_insert_id by done. by destruct tp.
Qed.

Lemma pool_key_set_port a p : pool_key (addr_set_port a p) = pool_key a.
Proof using Type. unfold pool_key, addr_set_port. repeat case_decide; done. Qed.

(** Every operation on a relay address is an operation of that address's own pool of
    ports, which starts with the whole configured range free; the pools of all other
    addresses, and of the other transport, stay as they are. *)
Theorem turnipports_pools_separate tp transport a rnd op :
  ip_ok tp -> configured tp -> inet_addr a -> ip_op_ok transport op ->
  room tp (is_tcp transport) (pool_key a) op ->
  exists r tp', ip_step tp transport a rnd op = Some (r, tp') /\
    pool_transition tp (is_tcp transport) (pool_key a) op r tp'.
Proof using Hstart Hstop Hsize.
  intros Hok Hc Ha Hop Hr. pose proof (existing_spec tp _ _ op Hok Hc Hr) as Hex.
  destruct op as [|want rtok|p|p|p]; cbn [ip_step ip_op_ok tp_step] in *.
  - destruct (creating_spec tp transport a rnd _ Hok Hc Ha Hr) as (t & p & tp1 & r & p' & Hadd & Hl & Hs & G).
    cbn [tp_step] in Hs. unfold turnipports_allocate. rewrite Hadd. mred. rewrite Hl. mred. rewrite Hs. mred.
    eexists _, _. by split.
  - subst transport.
    destruct (creating_spec tp _ a rnd _ Hok Hc Ha Hr) as (t & p & tp1 & r & p' & Hadd & Hl & Hs & G).
    cbn [tp_step] in Hs. unfold turnipports_allocate_even. rewrite Hadd. mred. rewrite Hl. mred.
    destruct (turnports_allocate_even p want rtok) as [[[port tok] p1]|]; [|discriminate].
    revert Hs. mred. intros [= -> ->]. eexists _, _. by split.
  - unfold turnipports_release. fold (pool_key (addr_set_port a p)).
    rewrite pool_key_set_port, pool_ptr_get by done. mred.
    rewrite (addr_get_set_port a p Ha), Z.mod_small by (change (2 ^ 16) with 65536; lia).
    destruct (pool_ptr tp (is_tcp transport) (pool_key a)) as [t|].
    + destruct Hex as (q & r & p' & Hl & [= <- <-] & G). rewrite Hl. mred. eexists _, _. by split.
    + mred. eexists _, _. split; [done|]. apply Hex, pool_release_no. rewrite elem_of_seqZ. lia.
  - unfold turnipports_is_allocated. fold (pool_key a). rewrite pool_ptr_get by done. mred.
    destruct (pool_ptr tp (is_tcp transport) (pool_key a)) as [t|].
    + destruct Hex as (q & r & p' & Hl & [= <- <-] & G). rewrite Hl. mred.
      eexists _, _. split; [done|]. by rewrite (store_same _ _ _ Hl) in G.
    + mred. eexists _, _. split; [done|]. apply Hex, (pool_allocated _ _ _ p false).
      symmetry. apply bool_decide_eq_false. rewrite elem_of_seqZ. lia.
  - unfold turnipports_is_available. fold (pool_key a). rewrite pool_ptr_get by done. mred.
    destruct (pool_ptr tp (is_tcp transport) (pool_key a)) as [t|].
    + destruct Hex as (q & r & p' & Hl & [= <- <-] & G). rewrite Hl. mred.
      eexists _, _. split; [done|]. by rewrite (store_same _ _ _ Hl) in G.
    + mred. eexists _, _. split; [done|]. apply Hex, (pool_available _ _ _ p true).
      symmetry. apply bool_decide_eq_true. rewrite elem_of_seqZ. lia.
Qed.
End config.

Lemma create_ok start stop : ip_ok (turnipports_create start stop).
Proof.
  split; [apply addr_map_init_ok..|constructor| |]; intros tcp k; unfold pool_ptr;
    cbn [ip_to_turnports_tcp ip_to_turnports_udp turnipports_create].
  - intros t. destruct tcp; by rewrite view_init.
  - intros tcp' k' t. destruct tcp; by rewrite view_init.
Qed.

Lemma turnipports_pools_separate_witness :
  exists r tp',
    ip_step (turnipports_create 49152 65535) STUN_ATTRIBUTE_TRANSPORT_UDP_VALUE (v4 10 0 0 1 0)
      (fun _ => (5, 9)) TpAllocate = Some (r, tp') /\
    pool_at tp' false (pool_key (v4 10 0 0 2 0)) = None.
Proof.
  assert (forall k, pool_at (turnipports_create 49152 65535) false k = None) as Hnone.
  { intros k. unfold pool_at, pool_ptr. cbn [turnipports_create ip_to_turnports_udp]. by rewrite view_init. }
  destruct (turnipports_pools_separate 49152 65535 ltac:(lia) ltac:(lia) ltac:(lia)
    (turnipports_create 49152 65535) STUN_ATTRIBUTE_TRANSPORT_UDP_VALUE (v4 10 0 0 1 0)
    (fun _ => (5, 9)) TpAllocate) as (r & tp' & H1 & _ & _ & _ & H4).
  - apply create_ok.
  - by split.
  - by left.
  - done.
  - unfold room. change (is_tcp STUN_ATTRIBUTE_TRANSPORT_UDP_VALUE) with false. by rewrite Hnone.
  - exists r, tp'. split; [exact H1|].
    rewrite (H4 false (pool_key (v4 10 0 0 2 0))); [apply Hnone|].
    intros [_ H]. vm_compute in H. discriminate.
Defined.
