(* ===== verification/EntCode.v ===== *)
(** * The entropy coder of Opus: what encoder and decoder share

    [opus-main/celt/entcode.h], [entcode.c], [ecintrin.h] and [mfrngcod.h]: the state, the
    integer logarithm and the bit counters.  Counters of bits are [Z]; 32-bit words wrap. *)

From S2P Require Import Prelude.

Definition EC_SYM_BITS : Z := 8.
Definition EC_CODE_BITS : Z := 32.
Definition EC_SYM_MAX : Z := Z.shiftl 1 EC_SYM_BITS - 1.
Definition EC_CODE_SHIFT : Z := EC_CODE_BITS - EC_SYM_BITS - 1.
Definition EC_CODE_TOP : Z := u32 (Z.shiftl 1 (EC_CODE_BITS - 1)).
Definition EC_CODE_BOT : Z := Z.shiftr EC_CODE_TOP EC_SYM_BITS.
Definition EC_CODE_EXTRA : Z := (EC_CODE_BITS - 2) mod EC_SYM_BITS + 1.
Definition EC_WINDOW_SIZE : Z := 32.
Definition EC_UINT_BITS : Z := 8.
Definition BITRES : Z := 3.

Record ec_ctx := mk_ec_ctx {
  buf : list Z;
  storage : Z;
  end_offs : Z;
  end_window : Z;
  nend_bits : Z;
  nbits_total : Z;
  offs : Z;
  rng : Z;
  val : Z;
  ext : Z;
  rem : Z;
  error : Z
}.

(** Assignments to the fields. *)
Definition set_buf (e : ec_ctx) (x : list Z) : ec_ctx :=
  mk_ec_ctx x (storage e) (end_offs e) (end_window e) (nend_bits e) (nbits_total e) (offs e) (rng e) (val e) (ext e) (rem e) (error e).
Definition set_storage (e : ec_ctx) (x : Z) : ec_ctx :=
  mk_ec_ctx (buf e) x (end_offs e) (end_window e) (nend_bits e) (nbits_total e) (offs e) (rng e) (val e) (ext e) (rem e) (error e).
Definition set_end_offs (e : ec_ctx) (x : Z) : ec_ctx :=
  mk_ec_ctx (buf e) (storage e) x (end_window e) (nend_bits e) (nbits_total e) (offs e) (rng e) (val e) (ext e) (rem e) (error e).
Definition set_end (e : ec_ctx) (window bits : Z) : ec_ctx :=
  mk_ec_ctx (buf e) (storage e) (end_offs e) window bits (nbits_total e) (offs e) (rng e) (val e) (ext e) (rem e) (error e).
Definition set_nbits_total (e : ec_ctx) (x : Z) : ec_ctx :=
  mk_ec_ctx (buf e) (storage e) (end_offs e) (end_window e) (nend_bits e) x (offs e) (rng e) (val e) (ext e) (rem e) (error e).
Definition set_offs (e : ec_ctx) (x : Z) : ec_ctx :=
  mk_ec_ctx (buf e) (storage e) (end_offs e) (end_window e) (nend_bits e) (nbits_total e) x (rng e) (val e) (ext e) (rem e) (error e).
Definition set_range (e : ec_ctx) (r v : Z) : ec_ctx :=
  mk_ec_ctx (buf e) (storage e) (end_offs e) (end_window e) (nend_bits e) (nbits_total e) (offs e) r v (ext e) (rem e) (error e).
Definition set_ext (e : ec_ctx) (x : Z) : ec_ctx :=
  mk_ec_ctx (buf e) (storage e) (end_offs e) (end_window e) (nend_bits e) (nbits_total e) (offs e) (rng e) (val e) x (rem e) (error e).
Definition set_rem (e : ec_ctx) (x : Z) : ec_ctx :=
  mk_ec_ctx (buf e) (storage e) (end_offs e) (end_window e) (nend_bits e) (nbits_total e) (offs e) (rng e) (val e) (ext e) x (error e).
Definition set_error (e : ec_ctx) (x : Z) : ec_ctx :=
  mk_ec_ctx (buf e) (storage e) (end_offs e) (end_window e) (nend_bits e) (nbits_total e) (offs e) (rng e) (val e) (ext e) (rem e) x.

(** Writing one cell of an array; [None] outside it. *)
Definition put_byte (b : list Z) (i v : Z) : option (list Z) :=
  if decide (0 <= i < zlen b) then Some (<[Z.to_nat i := u8 v]> b) else None.

Definition celt_udiv (n d : Z) : option Z := if decide (d = 0) then None else Some (n / d).

Definition IMUL32 (a b : Z) : Z := u32 (a * b).

(** The minimum without a branch, on 32-bit unsigned numbers. *)
Definition EC_MINI (a b : Z) : Z := u32 (a + Z.land (u32 (b - a)) (u32 (- (if decide (b < a) then 1 else 0)))).

Definition ec_range_bytes (e : ec_ctx) : Z := offs e.
Definition ec_get_buffer (e : ec_ctx) : list Z := buf e.
Definition ec_get_error (e : ec_ctx) : Z := error e.

(** [!!x] *)
Definition nonzero (x : Z) : Z := if decide (x = 0) then 0 else 1.

Definition ec_ilog (v : Z) : Z :=
  let ret := nonzero v in
  let m := Z.shiftl (nonzero (Z.land v 0xFFFF0000)) 4 in
  let v := Z.shiftr v m in
  let ret := Z.lor ret m in
  let m := Z.shiftl (nonzero (Z.land v 0xFF00)) 3 in
  let v := Z.shiftr v m in
  let ret := Z.lor ret m in
  let m := Z.shiftl (nonzero (Z.land v 0xF0)) 2 in
  let v := Z.shiftr v m in
  let ret := Z.lor ret m in
  let m := Z.shiftl (nonzero (Z.land v 0xC)) 1 in
  let v := Z.shiftr v m in
  let ret := Z.lor ret m in
  ret + nonzero (Z.land v 0x2).

Definition ec_tell (e : ec_ctx) : Z := nbits_total e - ec_ilog (rng e).

Definition correction : list Z := [35733; 38967; 42495; 46340; 50535; 55109; 60097; 65535].

Definition ec_tell_frac (e : ec_ctx) : option Z :=
  let nbits := u32 (Z.shiftl (nbits_total e) BITRES) in
  let l := ec_ilog (rng e) in
  let r := Z.shiftr (rng e) (l - 16) in
  let b := Z.shiftr r 12 - 8 in
  c ← (if decide (0 <= b) then correction !! Z.to_nat b else None);
  let b := b + (if decide (r > c) then 1 else 0) in
  let l := Z.shiftl l 3 + b in
  Some (u32 (nbits - l)).

(** The variant of the same function that the sources keep as its definition. *)
Fixpoint tell_frac_loop (i : nat) (r l : Z) : Z :=
  match i with
  | O => l
  | S i =>
    let r := Z.shiftr (u32 (r * r)) 15 in
    let b := Z.shiftr r 16 in
    tell_frac_loop i (Z.shiftr r b) (Z.lor (Z.shiftl l 1) b)
  end.

Definition ec_tell_frac_ref (e : ec_ctx) : Z :=
  let nbits := u32 (Z.shiftl (nbits_total e) BITRES) in
  let l := ec_ilog (rng e) in
  let r := Z.shiftr (rng e) (l - 16) in
  u32 (nbits - tell_frac_loop (Z.to_nat BITRES) r l).

(** ** The integer logarithm *)

Lemma nonzero_high v k :
  0 <= k -> 0 <= v < 2 ^ (2 * k) ->
  nonzero (Z.land v (Z.shiftl (Z.ones k) k)) = if decide (2 ^ k <= v) then 1 else 0.
Proof.
  intros Hk Hv.
  assert (Z.land v (Z.shiftl (Z.ones k) k) = Z.shiftl (Z.shiftr v k) k) as ->.
  { apply Z.bits_inj'. intros n Hn. rewrite Z.land_spec, !Z.shiftl_spec by lia.
    destruct (Z.lt_ge_cases n k).
    - rewrite !(Z.testbit_neg_r _ (n - k)) by lia. by rewrite andb_false_r.
    - rewrite Z.shiftr_spec by lia. replace (n - k + k) with n by lia. rewrite Z.testbit_ones_nonneg by lia.
      destruct (Z.ltb_spec (n - k) k); [by rewrite andb_true_r|].
      rewrite andb_false_r. symmetry. rewrite <- (Z.mod_small v (2 ^ (2 * k))) by done.
      apply Z.mod_pow2_bits_high. lia. }
  rewrite Z.shiftl_mul_pow2, Z.shiftr_div_pow2 by lia. unfold nonzero.
  assert (0 < 2 ^ k) by lia.
  pose proof (Z.div_mod v (2 ^ k)). pose proof (Z.mod_pos_bound v (2 ^ k)).
  case_decide as E; case_decide; try done.
  - assert (v / 2 ^ k = 0) by nia. nia.
  - exfalso. apply E. rewrite Z.div_small by lia. lia.
Qed.

(** One step of the binary search: the logarithm is at least [k], or below. *)
Lemma ilog_step v k :
  0 <= k -> 1 <= v < 2 ^ (2 * k) ->
  let m := Z.shiftl (nonzero (Z.land v (Z.shiftl (Z.ones k) k))) (Z.log2 k) in
  k = 2 ^ Z.log2 k ->
  (m = 0 \/ m = k) /\ 1 <= Z.shiftr v m < 2 ^ k /\ Z.log2 v = Z.log2 (Z.shiftr v m) + m.
Proof.
  intros Hk Hv m Hlog. unfold m. rewrite nonzero_high by lia.
  pose proof (Z.log2_nonneg k).
  assert (2 ^ (2 * k) = 2 ^ k * 2 ^ k) as Hsq by (rewrite <- Z.pow_add_r by lia; f_equal; lia).
  case_decide as E.
  - rewrite Z.shiftl_mul_pow2, Z.mul_1_l, <- Hlog by lia. split; [by right|].
    rewrite Z.shiftr_div_pow2 by lia.
    assert (1 <= v / 2 ^ k < 2 ^ k) as Hq.
    { split; [apply Z.div_le_lower_bound; lia|apply Z.div_lt_upper_bound; lia]. }
    split; [done|]. rewrite <- Z.shiftr_div_pow2, Z.log2_shiftr by lia.
    assert (k <= Z.log2 v); [|lia]. apply Z.log2_le_pow2; lia.
  - rewrite Z.shiftl_0_l, Z.shiftr_0_r. split; [by left|]. split; [lia|lia].
Qed.

Lemma lor_pow2 (a k n : Z) : 0 <= n -> 0 <= a < 2 ^ n -> Z.lor (k * 2 ^ n) a = k * 2 ^ n + a.
Proof.
  intros Hn Ha. rewrite <- Z.lxor_lor.
  - symmetry. apply Z.add_nocarry_lxor. apply Z.bits_inj'. intros i Hi.
    rewrite Z.land_spec, Z.bits_0. destruct (Z.lt_ge_cases i n).
    + by rewrite Z.mul_pow2_bits_low.
    + rewrite <- (Z.mod_small a (2 ^ n)) by done. by rewrite Z.mod_pow2_bits_high, andb_false_r by lia.
  - apply Z.bits_inj'. intros i Hi.
    rewrite Z.land_spec, Z.bits_0. destruct (Z.lt_ge_cases i n).
    + by rewrite Z.mul_pow2_bits_low.
    + rewrite <- (Z.mod_small a (2 ^ n)) by done. by rewrite Z.mod_pow2_bits_high, andb_false_r by lia.
Qed.

Lemma ec_ilog_log2 v : 1 <= v < 2 ^ 32 -> ec_ilog v = Z.log2 v + 1.
Proof.
  intros Hv. unfold ec_ilog. cbv zeta.
  change 0xFFFF0000 with (Z.shiftl (Z.ones 16) 16). change 0xFF00 with (Z.shiftl (Z.ones 8) 8).
  change 0xF0 with (Z.shiftl (Z.ones 4) 4). change 0xC with (Z.shiftl (Z.ones 2) 2).
  assert (nonzero v = 1) as -> by (unfold nonzero; by rewrite decide_False by lia).
  destruct (ilog_step v 16) as (Hm1 & Hv1 & L1); [lia..|done|].
  change (Z.log2 16) with 4 in *. set (m1 := Z.shiftl (nonzero _) 4) in *. set (v1 := Z.shiftr v m1) in *.
  destruct (ilog_step v1 8) as (Hm2 & Hv2 & L2); [lia..|done|].
  change (Z.log2 8) with 3 in *. set (m2 := Z.shiftl (nonzero _) 3) in *. set (v2 := Z.shiftr v1 m2) in *.
  destruct (ilog_step v2 4) as (Hm3 & Hv3 & L3); [lia..|done|].
  change (Z.log2 4) with 2 in *. set (m3 := Z.shiftl (nonzero _) 2) in *. set (v3 := Z.shiftr v2 m3) in *.
  destruct (ilog_step v3 2) as (Hm4 & Hv4 & L4); [lia..|done|].
  change (Z.log2 2) with 1 in *. set (m4 := Z.shiftl (nonzero _) 1) in *. set (v4 := Z.shiftr v3 m4) in *.
  assert (Z.lor (Z.lor (Z.lor (Z.lor 1 m1) m2) m3) m4 = 1 + m1 + m2 + m3 + m4) as ->.
  { destruct Hm1 as [-> | ->], Hm2 as [-> | ->], Hm3 as [-> | ->], Hm4 as [-> | ->]; reflexivity. }
  change (nonzero (Z.land v4 2)) with (nonzero (Z.land v4 (Z.shiftl (Z.ones 1) 1))).
  rewrite nonzero_high by (change (2 ^ (2 * 1)) with 4; lia).
  assert (Z.log2 v4 = if decide (2 ^ 1 <= v4) then 1 else 0).
  { change (2 ^ 2) with 4 in Hv4.
    assert (v4 = 1 \/ v4 = 2 \/ v4 = 3) as [-> |[-> | ->]] by lia; reflexivity. }
  lia.
Qed.

(** ** The two definitions of the fractional bit count

    Each round of the reference loop doubles the logarithm of [r], so its answer grows
    with [r]; it is enough to compare the two at the thresholds of the table. *)

Definition frac_bit (r : Z) : Z := r * r / 2 ^ 31.
Definition frac_next (r : Z) : Z := r * r / 2 ^ 15 / 2 ^ frac_bit r.

Fixpoint frac_value (i : nat) (r : Z) : Z :=
  match i with
  | O => 0
  | S i => frac_bit r * 2 ^ Z.of_nat i + frac_value i (frac_next r)
  end.

Definition frac_ok (r : Z) : Prop := 32768 <= r < 65536.

Lemma frac_bit_cases r :
  frac_ok r -> frac_bit r = 0 /\ frac_next r = r * r / 2 ^ 15 \/ frac_bit r = 1 /\ frac_next r = r * r / 2 ^ 16.
Proof.
  intros Hr. unfold frac_ok in Hr.
  assert (frac_bit r = 0 \/ frac_bit r = 1) as [E|E].
  { unfold frac_bit. change (2 ^ 31) with 2147483648. assert (0 <= r * r < 65536 * 65536) by nia. zlia. }
  - left. split; [done|]. unfold frac_next. rewrite E. change (2 ^ 0) with 1. by rewrite Z.div_1_r.
  - right. split; [done|]. unfold frac_next. rewrite E, Z.div_div by lia. f_equal.
Qed.

Lemma frac_next_ok r : frac_ok r -> frac_ok (frac_next r).
Proof.
  intros Hr. pose proof (frac_bit_cases r Hr) as Hc. unfold frac_ok in *. unfold frac_bit in Hc.
  change (2 ^ 31) with 2147483648 in Hc. change (2 ^ 15) with 32768 in Hc. change (2 ^ 16) with 65536 in Hc.
  assert (32768 * 32768 <= r * r <= 65535 * 65535) by nia.
  destruct Hc as [[E ->]|[E ->]]; zlia.
Qed.

Lemma frac_value_range i r : frac_ok r -> 0 <= frac_value i r < 2 ^ Z.of_nat i.
Proof.
  revert r. induction i as [|i IH]; intros r Hr; cbn [frac_value]; [lia|].
  pose proof (IH _ (frac_next_ok r Hr)). rewrite Nat2Z.inj_succ, Z.pow_succ_r by lia.
  destruct (frac_bit_cases r Hr) as [[-> _]|[-> _]]; lia.
Qed.

Lemma frac_value_mono i r s : frac_ok r -> frac_ok s -> r <= s -> frac_value i r <= frac_value i s.
Proof.
  revert r s. induction i as [|i IH]; intros r s Hr Hs Hle; cbn [frac_value]; [lia|].
  assert (r * r <= s * s) as Hsq by (unfold frac_ok in *; nia).
  assert (frac_bit r <= frac_bit s) as Hb by (unfold frac_bit; apply Z.div_le_mono; lia).
  pose proof (frac_value_range i _ (frac_next_ok r Hr)). pose proof (frac_value_range i _ (frac_next_ok s Hs)).
  destruct (decide (frac_bit r = frac_bit s)) as [E|E].
  - rewrite E. assert (frac_next r <= frac_next s); [|pose proof (IH _ _ (frac_next_ok r Hr) (frac_next_ok s Hs)); lia].
    unfold frac_next. rewrite E. apply Z.div_le_mono; [|apply Z.div_le_mono; lia].
    destruct (frac_bit_cases s Hs) as [[-> _]|[-> _]]; lia.
  - destruct (frac_bit_cases r Hr) as [[Er _]|[Er _]], (frac_bit_cases s Hs) as [[Es _]|[Es _]]; nia.
Qed.

Lemma tell_frac_loop_value i r l :
  frac_ok r -> 0 <= l -> tell_frac_loop i r l = l * 2 ^ Z.of_nat i + frac_value i r.
Proof.
  revert r l. induction i as [|i IH]; intros r l Hr Hl; cbn [tell_frac_loop frac_value]; [lia|].
  assert (u32 (r * r) = r * r) as ->.
  { apply wrap_small. unfold frac_ok in Hr. change (2 ^ 32) with (65536 * 65536). nia. }
  rewrite (Z.shiftr_div_pow2 (r * r) 15), (Z.shiftr_div_pow2 (r * r / 2 ^ 15) 16) by lia.
  assert (r * r / 2 ^ 15 / 2 ^ 16 = frac_bit r) as -> by (rewrite Z.div_div by lia; done).
  assert (Z.lor (Z.shiftl l 1) (frac_bit r) = l * 2 ^ 1 + frac_bit r) as Hlor.
  { rewrite Z.shiftl_mul_pow2 by lia. apply lor_pow2; [lia|].
    destruct (frac_bit_cases r Hr) as [[-> _]|[-> _]]; lia. }
  assert (0 <= frac_bit r) by (destruct (frac_bit_cases r Hr) as [[-> _]|[-> _]]; lia).
  rewrite Hlor, Z.shiftr_div_pow2 by lia. fold (frac_next r).
  rewrite IH; [|by apply frac_next_ok|lia].
  rewrite Nat2Z.inj_succ, Z.pow_succ_r by lia. lia.
Qed.

(** Between two thresholds the value is known. *)
Lemma frac_value_between r lo hi v :
  frac_ok lo -> frac_ok hi -> lo <= r <= hi -> frac_value 3 lo = v -> frac_value 3 hi = v ->
  frac_value 3 r = v.
Proof.
  intros Hlo Hhi Hr E1 E2. assert (frac_ok r) as Hr' by (unfold frac_ok in *; lia).
  pose proof (frac_value_mono 3 lo r Hlo Hr'). pose proof (frac_value_mono 3 r hi Hr' Hhi). lia.
Qed.

(** The last threshold up to which the value is [v], and the first for which it is. *)
Definition frac_lo (v : Z) : Z := if decide (v = 0) then 32768 else default 0 (correction !! Z.to_nat (v - 1)) + 1.
Definition frac_hi (v : Z) : Z := default 0 (correction !! Z.to_nat v).

Ltac eval_frac :=
  repeat match goal with
  | |- context [frac_lo ?v] => let x := eval vm_compute in (frac_lo v) in change (frac_lo v) with x
  | |- context [frac_hi ?v] => let x := eval vm_compute in (frac_hi v) in change (frac_hi v) with x
  end.

Lemma frac_at v r : 0 <= v < 8 -> frac_lo v <= r <= frac_hi v -> frac_value 3 r = v.
Proof.
  intros Hv Hr.
  assert (v = 0 \/ v = 1 \/ v = 2 \/ v = 3 \/ v = 4 \/ v = 5 \/ v = 6 \/ v = 7) as Hc by lia.
  destruct Hc as [-> |[-> |[-> |[-> |[-> |[-> |[-> | ->]]]]]]];
    (eapply frac_value_between; [| |exact Hr|reflexivity|reflexivity]; unfold frac_ok; eval_frac; lia).
Qed.

Lemma frac_table r :
  frac_ok r ->
  exists c, 0 <= Z.shiftr r 12 - 8 /\ correction !! Z.to_nat (Z.shiftr r 12 - 8) = Some c /\
    Z.shiftr r 12 - 8 + (if decide (r > c) then 1 else 0) = frac_value 3 r.
Proof.
  intros [H1 H2]. rewrite Z.shiftr_div_pow2 by lia. change (2 ^ 12) with 4096.
  set (b := r / 4096 - 8). assert (4096 * (b + 8) <= r < 4096 * (b + 9) /\ 0 <= b < 8) as [Hb Hb8] by (subst b; zlia).
  clearbody b.
  assert (b = 0 \/ b = 1 \/ b = 2 \/ b = 3 \/ b = 4 \/ b = 5 \/ b = 6 \/ b = 7) as Hc by lia.
  destruct Hc as [-> |[-> |[-> |[-> |[-> |[-> |[-> | ->]]]]]]];
    (eexists; split; [lia|]; split; [reflexivity|]; case_decide; symmetry; apply frac_at; eval_frac; lia).
Qed.

(** The table-driven bit count is the one of the reference loop, for every range the
    coder can be in. *)
Lemma tell_frac_equal e :
  EC_CODE_BOT < rng e <= EC_CODE_TOP -> ec_tell_frac e = Some (ec_tell_frac_ref e).
Proof.
  intros Hr. change EC_CODE_BOT with (2 ^ 23) in Hr. change EC_CODE_TOP with (2 ^ 31) in Hr.
  unfold ec_tell_frac, ec_tell_frac_ref. cbv zeta.
  rewrite ec_ilog_log2 by lia. set (l := Z.log2 (rng e)).
  assert (23 <= l <= 31) as Hl.
  { split; [apply Z.log2_le_pow2; lia|]. apply Z.lt_succ_r, Z.log2_lt_pow2; lia. }
  assert (frac_ok (Z.shiftr (rng e) (l + 1 - 16))) as Hok.
  { pose proof (Z.log2_spec (rng e)) as Hs. fold l in Hs. rewrite Z.shiftr_div_pow2 by lia.
    assert (2 ^ l = 32768 * 2 ^ (l + 1 - 16)) as E1.
    { change 32768 with (2 ^ 15). rewrite <- Z.pow_add_r by lia. f_equal. lia. }
    assert (2 ^ Z.succ l = 65536 * 2 ^ (l + 1 - 16)) as E2.
    { change 65536 with (2 ^ 16). rewrite <- Z.pow_add_r by lia. f_equal. lia. }
    split; [apply Z.div_le_lower_bound; lia|apply Z.div_lt_upper_bound; lia]. }
  destruct (frac_table _ Hok) as (c & Hb & Hc & Hv).
  rewrite decide_True, Hc by lia. mred. rewrite Hv, tell_frac_loop_value by (done || lia).
  rewrite Z.shiftl_mul_pow2 by (change BITRES with 3; lia).
  rewrite Z.shiftl_mul_pow2 by lia. done.
Qed.
