(* ===== verification/EntEnc.v ===== *)
(** * The range encoder of Opus: [opus-main/celt/entenc.c]

    A function that can write outside its buffer, divide by zero or loop for ever is
    [None] there.  The calls to [celt_assert] are compiled out. *)

From S2P Require Import Prelude EntCode.

Definition ec_write_byte (e : ec_ctx) (value : Z) : option (Z * ec_ctx) :=
  if storage e <=? u32 (offs e + end_offs e) then Some (-1, e) else
  b ← put_byte (buf e) (offs e) value;
  Some (0, set_offs (set_buf e b) (u32 (offs e + 1))).

Definition ec_write_byte_at_end (e : ec_ctx) (value : Z) : option (Z * ec_ctx) :=
  if storage e <=? u32 (offs e + end_offs e) then Some (-1, e) else
  b ← put_byte (buf e) (u32 (storage e - u32 (end_offs e + 1))) value;
  Some (0, set_end_offs (set_buf e b) (u32 (end_offs e + 1))).

(** [_this->error|=...] *)
Definition out_byte (e : ec_ctx) (value : Z) : option ec_ctx :=
  '(r, e) ← ec_write_byte e value; Some (set_error e (Z.lor (error e) r)).
Definition out_byte_at_end (e : ec_ctx) (value : Z) : option ec_ctx :=
  '(r, e) ← ec_write_byte_at_end e value; Some (set_error e (Z.lor (error e) r)).

(** The loop that writes the buffered symbols; it runs [ext] times. *)
Fixpoint carry_loop (fuel : nat) (e : ec_ctx) (sym : Z) : option ec_ctx :=
  match fuel with
  | O => None
  | S fuel =>
    e ← out_byte e sym;
    let e := set_ext e (u32 (ext e - 1)) in
    if 0 <? ext e then carry_loop fuel e sym else Some e
  end.

Definition ec_enc_carry_out (e : ec_ctx) (c : Z) : option ec_ctx :=
  if negb (c =? EC_SYM_MAX) then
    let carry := Z.shiftr c EC_SYM_BITS in
    e ← (if 0 <=? rem e then out_byte e (rem e + carry) else Some e);
    e ← (if 0 <? ext e then
           carry_loop (Z.to_nat (ext e)) e (Z.land (EC_SYM_MAX + carry) EC_SYM_MAX)
         else Some e);
    Some (set_rem e (Z.land c EC_SYM_MAX))
  else Some (set_ext e (u32 (ext e + 1))).

(** Three rounds bring a positive range above [EC_CODE_BOT]; the range 0 would never
    leave the loop. *)
Fixpoint enc_normalize_loop (fuel : nat) (e : ec_ctx) : option ec_ctx :=
  if rng e <=? EC_CODE_BOT then
    match fuel with
    | O => None
    | S fuel =>
      e ← ec_enc_carry_out e (Z.shiftr (val e) EC_CODE_SHIFT);
      let e := set_range e (u32 (Z.shiftl (rng e) EC_SYM_BITS))
                 (Z.land (u32 (Z.shiftl (val e) EC_SYM_BITS)) (EC_CODE_TOP - 1)) in
      enc_normalize_loop fuel (set_nbits_total e (nbits_total e + EC_SYM_BITS))
    end
  else Some e.
Definition ec_enc_normalize (e : ec_ctx) : option ec_ctx := enc_normalize_loop 3 e.

Definition ec_enc_init (b : list Z) (size : Z) : ec_ctx :=
  mk_ec_ctx b size 0 0 0 (EC_CODE_BITS + 1) 0 EC_CODE_TOP 0 0 (-1) 0.

Definition ec_encode (e : ec_ctx) (fl fh ft : Z) : option ec_ctx :=
  r ← celt_udiv (rng e) ft;
  ec_enc_normalize
    (if 0 <? fl then
       set_range e (IMUL32 r (u32 (fh - fl))) (u32 (val e + u32 (rng e - IMUL32 r (u32 (ft - fl)))))
     else set_range e (u32 (rng e - IMUL32 r (u32 (ft - fh)))) (val e)).

Definition ec_encode_bin (e : ec_ctx) (fl fh bits : Z) : option ec_ctx :=
  let r := Z.shiftr (rng e) bits in
  ec_enc_normalize
    (if 0 <? fl then
       set_range e (IMUL32 r (u32 (fh - fl)))
         (u32 (val e + u32 (rng e - IMUL32 r (u32 (u32 (Z.shiftl 1 bits) - fl)))))
     else set_range e (u32 (rng e - IMUL32 r (u32 (u32 (Z.shiftl 1 bits) - fh)))) (val e)).

Definition ec_enc_bit_logp (e : ec_ctx) (v logp : Z) : option ec_ctx :=
  let r := rng e in
  let l := val e in
  let s := Z.shiftr r logp in
  let r := u32 (r - s) in
  ec_enc_normalize
    (if decide (v = 0) then set_range e r l else set_range e s (u32 (l + r))).

Definition ec_enc_icdf (e : ec_ctx) (s : Z) (icdf : list Z) (ftb : Z) : option ec_ctx :=
  let r := Z.shiftr (rng e) ftb in
  b ← (if decide (0 <= s) then icdf !! Z.to_nat s else None);
  if 0 <? s then
    a ← icdf !! Z.to_nat (s - 1);
    ec_enc_normalize (set_range e (IMUL32 r (u32 (a - b))) (u32 (val e + u32 (rng e - IMUL32 r a))))
  else ec_enc_normalize (set_range e (u32 (rng e - IMUL32 r b)) (val e)).

(** The same code on a table of 16-bit numbers. *)
Definition ec_enc_icdf16 (e : ec_ctx) (s : Z) (icdf : list Z) (ftb : Z) : option ec_ctx :=
  ec_enc_icdf e s icdf ftb.

(** [do ... while (used >= EC_SYM_BITS)]: the window has four bytes. *)
Fixpoint flush_loop (fuel : nat) (e : ec_ctx) (window used : Z) : option (ec_ctx * Z * Z) :=
  match fuel with
  | O => None
  | S fuel =>
    e ← out_byte_at_end e (Z.land window EC_SYM_MAX);
    let window := Z.shiftr window EC_SYM_BITS in
    let used := used - EC_SYM_BITS in
    if EC_SYM_BITS <=? used then flush_loop fuel e window used else Some (e, window, used)
  end.

Definition ec_enc_bits (e : ec_ctx) (fl bits : Z) : option ec_ctx :=
  '(e, window, used) ←
    (if EC_WINDOW_SIZE <? nend_bits e + bits then flush_loop 5 e (end_window e) (nend_bits e)
     else Some (e, end_window e, nend_bits e));
  let window := Z.lor window (u32 (Z.shiftl fl used)) in
  let e := set_end e window (used + bits) in
  Some (set_nbits_total e (nbits_total e + bits)).

Definition ec_enc_uint (e : ec_ctx) (fl ft : Z) : option ec_ctx :=
  let ft := u32 (ft - 1) in
  let ftb := ec_ilog ft in
  if EC_UINT_BITS <? ftb then
    let ftb := ftb - EC_UINT_BITS in
    let ft' := u32 (Z.shiftr ft ftb + 1) in
    let fl' := Z.shiftr fl ftb in
    e ← ec_encode e fl' (u32 (fl' + 1)) ft';
    ec_enc_bits e (Z.land fl (u32 (Z.shiftl 1 ftb) - 1)) ftb
  else ec_encode e fl (u32 (fl + 1)) (u32 (ft + 1)).

Definition ec_enc_patch_initial_bits (e : ec_ctx) (v nbits : Z) : option ec_ctx :=
  let shift := EC_SYM_BITS - nbits in
  let mask := Z.shiftl (Z.shiftl 1 nbits - 1) shift in
  if 0 <? offs e then
    b0 ← buf e !! 0%nat;
    b ← put_byte (buf e) 0 (Z.lor (Z.land b0 (Z.lnot mask)) (Z.shiftl v shift));
    Some (set_buf e b)
  else if 0 <=? rem e then
    Some (set_rem e (Z.lor (Z.land (rem e) (Z.lnot mask)) (Z.shiftl v shift)))
  else if rng e <=? Z.shiftr EC_CODE_TOP nbits then
    Some (set_range e (rng e)
            (Z.lor (Z.land (val e) (Z.lnot (u32 (Z.shiftl mask EC_CODE_SHIFT))))
                   (u32 (Z.shiftl v (EC_CODE_SHIFT + shift)))))
  else Some (set_error e (-1)).

(** The bytes at the end move to the end of the smaller buffer. *)
Definition ec_enc_shrink (e : ec_ctx) (size : Z) : option ec_ctx :=
  bytes ← slice (buf e) (storage e - end_offs e) (end_offs e);
  b ← splice (buf e) (size - end_offs e) bytes;
  Some (set_storage (set_buf e b) size).

(** The loop over the final bits of the range coder; at most nine of them. *)
Fixpoint done_loop (fuel : nat) (e : ec_ctx) (fin l : Z) : option (ec_ctx * Z) :=
  if 0 <? l then
    match fuel with
    | O => None
    | S fuel =>
      e ← ec_enc_carry_out e (Z.shiftr fin EC_CODE_SHIFT);
      done_loop fuel e (Z.land (u32 (Z.shiftl fin EC_SYM_BITS)) (EC_CODE_TOP - 1)) (l - EC_SYM_BITS)
    end
  else Some (e, l).

(** The number of bits that are enough, and the point of the interval they name. *)
Definition done_point (e : ec_ctx) : Z * Z :=
  let l := EC_CODE_BITS - ec_ilog (rng e) in
  let msk := Z.shiftr (EC_CODE_TOP - 1) l in
  let fin := Z.land (u32 (val e + msk)) (u32 (Z.lnot msk)) in
  if u32 (val e + rng e) <=? Z.lor fin msk then
    let l := l + 1 in
    let msk := Z.shiftr msk 1 in
    (l, Z.land (u32 (val e + msk)) (u32 (Z.lnot msk)))
  else (l, fin).

(** The free bytes are cleared, and the last raw bits put before the raw bytes; [l] is
    the loop's count of bits, which is not positive here. *)
Definition done_tail (e : ec_ctx) (l window used : Z) : option ec_ctx :=
  b ← splice (buf e) (offs e) (replicate (Z.to_nat (storage e - offs e - end_offs e)) 0);
  let e := set_buf e b in
  if 0 <? used then
    if storage e <=? end_offs e then Some (set_error e (-1)) else
    let l := - l in
    let '(window, e) :=
      if (storage e <=? u32 (offs e + end_offs e)) && (l <? used)
      then (Z.land window (Z.shiftl 1 l - 1), set_error e (-1)) else (window, e) in
    let i := storage e - end_offs e - 1 in
    x ← buf e !! Z.to_nat i;
    b ← put_byte (buf e) i (Z.lor x (u8 window));
    Some (set_buf e b)
  else Some e.

Definition ec_enc_done (e : ec_ctx) : option ec_ctx :=
  let '(l, fin) := done_point e in
  '(e, l) ← done_loop 2 e fin l;
  e ← (if (0 <=? rem e) || (0 <? ext e) then ec_enc_carry_out e 0 else Some e);
  '(e, window, used) ←
    (if EC_SYM_BITS <=? nend_bits e then flush_loop 4 e (end_window e) (nend_bits e)
     else Some (e, end_window e, nend_bits e));
  if decide (error e = 0) then done_tail e l window used else Some e.
