(* ===== verification/EntDec.v ===== *)
(** * The range decoder of Opus: [opus-main/celt/entdec.c]

    A division by zero, a read outside a table or a loop that never ends is [None]. *)

From S2P Require Import Prelude EntCode.

Definition ec_read_byte (e : ec_ctx) : option (Z * ec_ctx) :=
  if offs e <? storage e then
    x ← buf e !! Z.to_nat (offs e);
    Some (x, set_offs e (u32 (offs e + 1)))
  else Some (0, e).

Definition ec_read_byte_from_end (e : ec_ctx) : option (Z * ec_ctx) :=
  if end_offs e <? storage e then
    x ← buf e !! Z.to_nat (storage e - (end_offs e + 1));
    Some (x, set_end_offs e (u32 (end_offs e + 1)))
  else Some (0, e).

(** Three rounds are enough for a positive range. *)
Fixpoint dec_normalize_loop (fuel : nat) (e : ec_ctx) : option ec_ctx :=
  if rng e <=? EC_CODE_BOT then
    match fuel with
    | O => None
    | S fuel =>
      let e := set_nbits_total e (nbits_total e + EC_SYM_BITS) in
      let sym := rem e in
      '(x, e) ← ec_read_byte e;
      let e := set_rem e x in
      let sym := Z.shiftr (Z.lor (Z.shiftl sym EC_SYM_BITS) (rem e)) (EC_SYM_BITS - EC_CODE_EXTRA) in
      dec_normalize_loop fuel
        (set_range e (u32 (Z.shiftl (rng e) EC_SYM_BITS))
           (Z.land (u32 (u32 (Z.shiftl (val e) EC_SYM_BITS) + Z.land EC_SYM_MAX (Z.lnot sym))) (EC_CODE_TOP - 1)))
    end
  else Some e.
Definition ec_dec_normalize (e : ec_ctx) : option ec_ctx := dec_normalize_loop 3 e.

(** The field [ext] is not set; it is 0 here. *)
Definition ec_dec_init (b : list Z) (size : Z) : option ec_ctx :=
  let e := mk_ec_ctx b size 0 0 0
             (EC_CODE_BITS + 1 - (EC_CODE_BITS - EC_CODE_EXTRA) / EC_SYM_BITS * EC_SYM_BITS)
             0 (Z.shiftl 1 EC_CODE_EXTRA) 0 0 0 0 in
  '(x, e) ← ec_read_byte e;
  let e := set_rem e x in
  ec_dec_normalize
    (set_range e (rng e) (u32 (rng e - 1 - Z.shiftr (rem e) (EC_SYM_BITS - EC_CODE_EXTRA)))).

Definition ec_decode (e : ec_ctx) (ft : Z) : option (Z * ec_ctx) :=
  x ← celt_udiv (rng e) ft;
  let e := set_ext e x in
  s ← celt_udiv (val e) (ext e);
  Some (u32 (ft - EC_MINI (u32 (s + 1)) ft), e).

Definition ec_decode_bin (e : ec_ctx) (bits : Z) : option (Z * ec_ctx) :=
  let e := set_ext e (Z.shiftr (rng e) bits) in
  s ← celt_udiv (val e) (ext e);
  Some (u32 (u32 (Z.shiftl 1 bits) - EC_MINI (u32 (s + 1)) (u32 (Z.shiftl 1 bits))), e).

Definition ec_dec_update (e : ec_ctx) (fl fh ft : Z) : option ec_ctx :=
  let s := IMUL32 (ext e) (u32 (ft - fh)) in
  ec_dec_normalize
    (set_range e (if 0 <? fl then IMUL32 (ext e) (u32 (fh - fl)) else u32 (rng e - s)) (u32 (val e - s))).

Definition ec_dec_bit_logp (e : ec_ctx) (logp : Z) : option (Z * ec_ctx) :=
  let r := rng e in
  let d := val e in
  let s := Z.shiftr r logp in
  let ret := d <? s in
  e ← ec_dec_normalize (set_range e (if ret then s else u32 (r - s)) (if ret then d else u32 (d - s)));
  Some (Z.b2z ret, e).

(** The search reads the table from [ret], with [s] the bound that was passed last; it
    answers the index and the last two bounds. *)
Fixpoint icdf_search (r d s : Z) (ret : Z) (icdf : list Z) : option (Z * Z * Z) :=
  match icdf with
  | [] => None
  | x :: icdf =>
    let t := s in
    let s := IMUL32 r x in
    if d <? s then icdf_search r d s (ret + 1) icdf else Some (ret, t, s)
  end.

Definition ec_dec_icdf (e : ec_ctx) (icdf : list Z) (ftb : Z) : option (Z * ec_ctx) :=
  let r := Z.shiftr (rng e) ftb in
  '(ret, t, s) ← icdf_search r (val e) (rng e) 0 icdf;
  e ← ec_dec_normalize (set_range e (u32 (t - s)) (u32 (val e - s)));
  Some (ret, e).

(** The same code on a table of 16-bit numbers. *)
Definition ec_dec_icdf16 (e : ec_ctx) (icdf : list Z) (ftb : Z) : option (Z * ec_ctx) :=
  ec_dec_icdf e icdf ftb.

(** [do ... while (available <= EC_WINDOW_SIZE - EC_SYM_BITS)]: four rounds fill the
    window. *)
Fixpoint fill_loop (fuel : nat) (e : ec_ctx) (window available : Z) : option (ec_ctx * Z * Z) :=
  match fuel with
  | O => None
  | S fuel =>
    '(x, e) ← ec_read_byte_from_end e;
    let window := Z.lor window (u32 (Z.shiftl x available)) in
    let available := available + EC_SYM_BITS in
    if available <=? EC_WINDOW_SIZE - EC_SYM_BITS then fill_loop fuel e window available
    else Some (e, window, available)
  end.

Definition ec_dec_bits (e : ec_ctx) (bits : Z) : option (Z * ec_ctx) :=
  '(e, window, available) ←
    (if nend_bits e <? bits then fill_loop 4 e (end_window e) (nend_bits e)
     else Some (e, end_window e, nend_bits e));
  let ret := Z.land window (u32 (Z.shiftl 1 bits) - 1) in
  let e := set_end e (Z.shiftr window bits) (available - bits) in
  Some (ret, set_nbits_total e (nbits_total e + bits)).

Definition ec_dec_uint (e : ec_ctx) (ft : Z) : option (Z * ec_ctx) :=
  let ft := u32 (ft - 1) in
  let ftb := ec_ilog ft in
  if EC_UINT_BITS <? ftb then
    let ftb := ftb - EC_UINT_BITS in
    let ft' := u32 (Z.shiftr ft ftb + 1) in
    '(s, e) ← ec_decode e ft';
    e ← ec_dec_update e s (u32 (s + 1)) ft';
    '(x, e) ← ec_dec_bits e ftb;
    let t := Z.lor (u32 (Z.shiftl s ftb)) x in
    if t <=? ft then Some (t, e) else Some (ft, set_error e 1)
  else
    let ft := u32 (ft + 1) in
    '(s, e) ← ec_decode e ft;
    e ← ec_dec_update e s (u32 (s + 1)) ft;
    Some (s, e).
