(* ===== verification/Laplace.v ===== *)
(** * Laplace-distributed integers: [opus-main/celt/laplace.c]

    The frequencies of a Laplace distribution with a floor, searched the same way by the
    encoder and the decoder.  [0] is the first cell; the cell of magnitude [k] has one
    interval for [-k] and one for [k]; behind the last cell with a positive frequency
    all intervals have length one. *)

From S2P Require Import Prelude EntCode EntEnc EntDec.

Definition LAPLACE_LOG_MINP : Z := 0.
Definition LAPLACE_MINP : Z := Z.shiftl 1 LAPLACE_LOG_MINP.
Definition LAPLACE_NMIN : Z := 16.

(** Conversion to a 32-bit [int]. *)
Definition i32 (x : Z) : Z := (x + 2 ^ 31) mod 2 ^ 32 - 2 ^ 31.

Definition ec_laplace_get_freq1 (fs0 decay : Z) : Z :=
  let ft := u32 (32768 - LAPLACE_MINP * (2 * LAPLACE_NMIN) - fs0) in
  Z.shiftr (u32 (ft * (16384 - decay))) 15.

(** The search of the encoder; it makes fewer than [val] rounds. *)
Fixpoint laplace_enc_loop (fuel : nat) (decay val fs fl i : Z) : option (Z * Z * Z) :=
  if (0 <? fs) && (i <? val) then
    match fuel with
    | O => None
    | S fuel =>
      let fs := u32 (fs * 2) in
      let fl := u32 (fl + u32 (fs + 2 * LAPLACE_MINP)) in
      laplace_enc_loop fuel decay val (Z.shiftr (u32 (fs * decay)) 15) fl (i + 1)
    end
  else Some (fs, fl, i).

(** The interval and the value it stands for, which is nearer to 0 when the table has no
    place for the argument. *)
Definition laplace_interval (value fs decay : Z) : option (Z * Z * Z) :=
  if decide (value = 0) then Some (0, fs, value) else
  let s := - (if decide (value < 0) then 1 else 0) in
  v ← int_chk (value + s);
  let val := Z.lxor v s in
  '(fs, fl, i) ← laplace_enc_loop (Z.to_nat (val - 1)) decay val (ec_laplace_get_freq1 fs decay) fs 1;
  if decide (fs = 0) then
    let ndi_max := i32 (Z.shiftr (u32 (32768 - fl + LAPLACE_MINP - 1)) LAPLACE_LOG_MINP) in
    let ndi_max := Z.shiftr (ndi_max - s) 1 in
    let di := Z.min (val - i) (ndi_max - 1) in
    let fl := u32 (fl + u32 ((2 * di + 1 + s) * LAPLACE_MINP)) in
    Some (fl, Z.min LAPLACE_MINP (u32 (32768 - fl)), Z.lxor (i + di + s) s)
  else
    let fs := u32 (fs + LAPLACE_MINP) in
    Some (u32 (fl + Z.land fs (u32 (Z.lnot s))), fs, value).

(** The new value of [*value] comes first. *)
Definition ec_laplace_encode (e : ec_ctx) (value fs decay : Z) : option (Z * ec_ctx) :=
  '(fl, fs, value) ← laplace_interval value fs decay;
  e ← ec_encode_bin e fl (u32 (fl + fs)) 15;
  Some (value, e).

(** The search of the decoder; each round brings [fl] nearer to [fm]. *)
Fixpoint laplace_dec_loop (fuel : nat) (decay fm fs fl val : Z) : option (Z * Z * Z) :=
  if (LAPLACE_MINP <? fs) && (u32 (fl + u32 (2 * fs)) <=? fm) then
    match fuel with
    | O => None
    | S fuel =>
      let fs := u32 (fs * 2) in
      let fl := u32 (fl + fs) in
      let fs := Z.shiftr (u32 (u32 (fs - 2 * LAPLACE_MINP) * decay)) 15 in
      laplace_dec_loop fuel decay fm (u32 (fs + LAPLACE_MINP)) fl (val + 1)
    end
  else Some (fs, fl, val).

(** The interval around [fm] and its value. *)
Definition laplace_find (fm fs decay : Z) : option (Z * Z * Z) :=
  if fs <=? fm then
    '(fs, fl, val) ← laplace_dec_loop (Z.to_nat fm) decay fm
                       (u32 (ec_laplace_get_freq1 fs decay + LAPLACE_MINP)) fs 1;
    let '(fl, val) :=
      if fs <=? LAPLACE_MINP then
        let di := i32 (Z.shiftr (u32 (fm - fl)) (LAPLACE_LOG_MINP + 1)) in
        (u32 (fl + u32 (2 * di * LAPLACE_MINP)), val + di)
      else (fl, val) in
    if fm <? u32 (fl + fs) then Some (fl, fs, - val) else Some (u32 (fl + fs), fs, val)
  else Some (0, fs, 0).

Definition ec_laplace_decode (d : ec_ctx) (fs decay : Z) : option (Z * ec_ctx) :=
  '(fm, d) ← ec_decode_bin d 15;
  '(fl, fs, val) ← laplace_find fm fs decay;
  d ← ec_dec_update d fl (Z.min (u32 (fl + fs)) 32768) 32768;
  Some (val, d).

(** ** The variant with a symbol for the sign *)

Definition sign_icdf (p0 : Z) : list Z :=
  let a := u16 (32768 - p0) in [a; a / 2; 0].

(** Six more entries from the one before; the product is an [int]. *)
Fixpoint decay_entries (n : nat) (i prev decay : Z) : option (list Z) :=
  match n with
  | O => Some []
  | S n =>
    m ← int_chk (prev * decay);
    let x := u16 (Z.max (7 - i) (Z.shiftr m 15)) in
    l ← decay_entries n (i + 1) x decay;
    Some (x :: l)
  end.

Definition decay_icdf (decay : Z) : option (list Z) :=
  let a := u16 (Z.max 7 decay) in
  l ← decay_entries 6 1 a decay;
  Some ((a :: l) ++ [0]).

(** [do ... while (value >= 0)] *)
Fixpoint p0_enc_loop (fuel : nat) (e : ec_ctx) (value : Z) (icdf : list Z) : option ec_ctx :=
  match fuel with
  | O => None
  | S fuel =>
    e ← ec_enc_icdf16 e (Z.min value 7) icdf 15;
    if 0 <=? value - 7 then p0_enc_loop fuel e (value - 7) icdf else Some e
  end.

Definition ec_laplace_encode_p0 (e : ec_ctx) (value p0 decay : Z) : option ec_ctx :=
  let s := if decide (value = 0) then 0 else if decide (value > 0) then 1 else 2 in
  e ← ec_enc_icdf16 e s (sign_icdf p0) 15;
  value ← int_chk (Z.abs value);
  if decide (value = 0) then Some e else
  icdf ← decay_icdf decay;
  p0_enc_loop (Z.to_nat value) e (value - 1) icdf.

(** [do ... while (v == 7)]; the number of rounds depends on the data alone. *)
Fixpoint p0_dec_loop (fuel : nat) (d : ec_ctx) (value : Z) (icdf : list Z) : option (Z * ec_ctx) :=
  match fuel with
  | O => None
  | S fuel =>
    '(v, d) ← ec_dec_icdf16 d icdf 15;
    value ← int_chk (value + v);
    if decide (v = 7) then p0_dec_loop fuel d value icdf else Some (value, d)
  end.

(** [fuel] bounds the rounds, which the code does not do. *)
Definition ec_laplace_decode_p0 (fuel : nat) (d : ec_ctx) (p0 decay : Z) : option (Z * ec_ctx) :=
  '(s, d) ← ec_dec_icdf16 d (sign_icdf p0) 15;
  let s := if decide (s = 2) then -1 else s in
  if decide (s = 0) then Some (0, d) else
  icdf ← decay_icdf decay;
  '(value, d) ← p0_dec_loop fuel d 1 icdf;
  Some (s * value, d).

(** * The cells of the Laplace coder

    Encoder and decoder search the same sequence of cells: the interval the encoder
    picks is the one the decoder finds from any point of it. *)

(** The cells from one with frequency [f] that starts at [fl] fit 15 bits, and end after
    fewer than [n] cells. *)
Fixpoint laplace_fits (n : nat) (f fl decay : Z) : bool :=
  (fl + 2 * (f + 1) <=? 32768) &&
  ((f =? 0) || match n with O => false | S n => laplace_fits n (Z.shiftr (2 * f * decay) 15) (fl + 2 * f + 2) decay end).

(** A probability of 0 and a decay for which the coder works. *)
Definition laplace_ok (fs decay : Z) : bool :=
  (0 <? fs) && (fs <=? 32736) && (0 <=? decay) && (decay <=? 16384) &&
  laplace_fits 64 (ec_laplace_get_freq1 fs decay) fs decay.

Lemma get_freq1_small fs decay :
  0 <= fs <= 32736 -> 0 <= decay <= 16384 ->
  ec_laplace_get_freq1 fs decay = (32736 - fs) * (16384 - decay) / 32768 /\ 0 <= ec_laplace_get_freq1 fs decay <= 16368.
Proof.
  intros Hf Hd. unfold ec_laplace_get_freq1. change (32768 - LAPLACE_MINP * (2 * LAPLACE_NMIN)) with 32736.
  rewrite (wrap_small 32 (32736 - fs)) by (change (2 ^ 32) with 4294967296; lia).
  assert (0 <= (32736 - fs) * (16384 - decay) <= 32736 * 16384) by nia.
  rewrite wrap_small by (change (2 ^ 32) with 4294967296; lia). rewrite Z.shiftr_div_pow2 by lia.
  change (2 ^ 15) with 32768. split; [done|]. zlia.
Qed.

Lemma next_freq f decay :
  0 <= f <= 16383 -> 0 <= decay <= 16384 -> u32 (2 * f * decay) = 2 * f * decay /\ 0 <= Z.shiftr (2 * f * decay) 15 <= f.
Proof.
  intros Hf Hd. assert (0 <= f * decay <= f * 16384) by nia.
  split; [apply wrap_small; change (2 ^ 32) with 4294967296; lia|].
  rewrite Z.shiftr_div_pow2 by lia. change (2 ^ 15) with 32768. zlia.
Qed.

(** The decay leaves room for [LAPLACE_NMIN] intervals of length one on either side. *)
Definition laplace_mass (decay f fl i f' fl' i' : Z) : Prop :=
  let room := 32736 * (16384 - decay) in
  (fl - 2 * (i - 1)) * (16384 - decay) + 32768 * f <= room ->
  (fl' - 2 * (i' - 1)) * (16384 - decay) + 32768 * f' <= room.

Lemma laplace_mass_refl decay f fl i : laplace_mass decay f fl i f fl i.
Proof. by unfold laplace_mass. Qed.

(** Both searches stop at the same cell. *)
Lemma laplace_search n f fl decay i val :
  laplace_fits n f fl decay = true -> 0 <= f -> 0 <= fl -> 0 <= decay <= 16384 -> i <= val ->
  exists f' fl' i', laplace_enc_loop (Z.to_nat (val - i)) decay val f fl i = Some (f', fl', i') /\
    i <= i' <= val /\ laplace_mass decay f fl i f' fl' i' /\ 0 <= f' /\ fl + 2 * (i' - i) <= fl' /\ fl' + 2 * (f' + 1) <= 32768 /\ (f' = 0 \/ 0 < f' /\ i' = val) /\
    forall fuel fm w, fl' <= fm < 32768 -> (f' = 0 \/ fm < fl' + 2 * (f' + 1)) -> fm - fl <= Z.of_nat fuel ->
      laplace_dec_loop fuel decay fm (f + 1) fl w = Some (f' + 1, fl', w + (i' - i)).
Proof.
  revert f fl i. induction n as [|n IH]; intros f fl i Hfit Hf Hfl Hd Hi; cbn [laplace_fits] in Hfit;
    apply andb_true_iff in Hfit as [Hle%Z.leb_le Hfit].
  - rewrite orb_false_r in Hfit. apply Z.eqb_eq in Hfit as ->.
    exists 0, fl, i. split_and!; (done || apply laplace_mass_refl || lia || auto || idtac).
    + destruct (Z.to_nat (val - i)); done.
    + intros fuel fm w Hfm _ _. rewrite Z.sub_diag, Z.add_0_r. by destruct fuel.
  - destruct (f =? 0) eqn:E; [apply Z.eqb_eq in E as ->|apply Z.eqb_neq in E].
    { exists 0, fl, i. split_and!; (done || apply laplace_mass_refl || lia || auto || idtac).
      + destruct (Z.to_nat (val - i)); done.
      + intros fuel fm w Hfm _ _. rewrite Z.sub_diag, Z.add_0_r. by destruct fuel. }
    cbn [orb] in Hfit. destruct (next_freq f decay) as [Hu Hnext]; [lia|lia|].
    destruct (decide (i = val)) as [->|Hne].
    + exists f, fl, val. split_and!; try (done || apply laplace_mass_refl || lia).
      * rewrite Z.sub_diag. change (Z.to_nat 0) with 0%nat. cbn [laplace_enc_loop]. by rewrite (Z.ltb_irrefl val), andb_false_r.
      * intros fuel fm w Hfm [?|Hlt] _; [lia|]. rewrite Z.sub_diag, Z.add_0_r.
        assert ((LAPLACE_MINP <? f + 1) && (u32 (fl + u32 (2 * (f + 1))) <=? fm) = false) as Hc.
        { rewrite (wrap_small 32 (2 * _)), wrap_small by (change (2 ^ 32) with 4294967296; lia).
          rewrite (proj2 (Z.leb_gt _ _)) by lia. apply andb_false_r. }
        destruct fuel; cbn [laplace_dec_loop]; by rewrite Hc.
    + destruct (IH _ _ (i + 1) Hfit) as (f' & fl' & i' & Hrun & H1 & Hmass & H2 & H3 & H4 & H5 & Hdec); [lia..|].
      exists f', fl', i'. split_and!; try (done || lia).
      * replace (Z.to_nat (val - i)) with (S (Z.to_nat (val - (i + 1)))) by lia. cbn [laplace_enc_loop].
        rewrite (proj2 (Z.ltb_lt 0 f)), (proj2 (Z.ltb_lt i val)) by lia. cbn [andb]. change (2 * LAPLACE_MINP) with 2.
        rewrite (wrap_small 32 (f * 2)), (wrap_small 32 (f * 2 + 2)), (wrap_small 32 (fl + _)) by (change (2 ^ 32) with 4294967296; lia).
        rewrite (Z.mul_comm f 2), Hu. by rewrite Z.add_assoc.
      * intros Hm. apply Hmass. rewrite Z.shiftr_div_pow2 by lia. change (2 ^ 15) with 32768.
        pose proof (Z.mul_div_le (2 * f * decay) 32768 ltac:(lia)). lia.
      * intros fuel fm w Hfm Hstop Hfuel. destruct fuel as [|fuel]; [lia|]. cbn [laplace_dec_loop].
        change LAPLACE_MINP with 1. rewrite (Z.mul_comm (f + 1) 2).
        rewrite (proj2 (Z.ltb_lt 1 (f + 1))) by lia. cbn [andb].
        rewrite (wrap_small 32 (2 * (f + 1))), (wrap_small 32 (fl + _)) by (change (2 ^ 32) with 4294967296; lia).
        rewrite (proj2 (Z.leb_le _ fm)) by lia.
        rewrite (wrap_small 32 (2 * (f + 1) - _)) by (change (2 ^ 32) with 4294967296; lia).
        replace (2 * (f + 1) - 2 * 1) with (2 * f) by lia. rewrite Hu.
        rewrite (wrap_small 32 (_ + 1)) by (change (2 ^ 32) with 4294967296; lia).
        replace (fl + 2 * (f + 1)) with (fl + 2 * f + 2) by lia.
        rewrite Hdec; (done || lia || idtac). do 2 f_equal. lia.
Qed.

Lemma i32_small x : - 2 ^ 31 <= x < 2 ^ 31 -> i32 x = x.
Proof. intros H. unfold i32. change (2 ^ 31) with 2147483648 in *. change (2 ^ 32) with 4294967296. zlia. Qed.

(** The interval of a magnitude in the tail, where both coders count pairs of cells. *)
Lemma laplace_tail_find fl i fm di neg :
  0 <= fl -> 0 <= di -> 1 <= i < 2 ^ 30 -> fm = fl + 2 * di + (if neg : bool then 0 else 1) -> fm < 32768 ->
  (let '(fl, val) :=
     if 1 <=? LAPLACE_MINP then
       let di := i32 (Z.shiftr (u32 (fm - fl)) (LAPLACE_LOG_MINP + 1)) in
       (u32 (fl + u32 (2 * di * LAPLACE_MINP)), i + di)
     else (fl, i) in
   if fm <? u32 (fl + 1) then Some (fl, 1, - val) else Some (u32 (fl + 1), 1, val))
  = Some (fm, 1, if neg then - (i + di) else i + di).
Proof.
  intros Hfl Hdi Hi Hfm Hlt.
  assert (fl + 2 * di <= fm <= fl + 2 * di + 1) as Hb by (destruct neg; cbn in Hfm; lia).
  change (2 ^ 30) with 1073741824 in *. change (1 <=? LAPLACE_MINP) with true. cbv beta iota zeta.
  change LAPLACE_MINP with 1. change (LAPLACE_LOG_MINP + 1) with 1.
  rewrite Z.shiftr_div_pow2 by lia. change (2 ^ 1) with 2.
  rewrite (wrap_small 32 (fm - fl)) by (change (2 ^ 32) with 4294967296; lia).
  assert ((fm - fl) / 2 = di) as -> by zlia.
  rewrite i32_small by (change (2 ^ 31) with 2147483648; lia). rewrite Z.mul_1_r.
  rewrite (wrap_small 32 (2 * di)), (wrap_small 32 (fl + _)), (wrap_small 32 (_ + 1)) by (change (2 ^ 32) with 4294967296; lia).
  destruct neg.
  - rewrite (proj2 (Z.ltb_lt _ _)) by lia. do 3 f_equal; lia.
  - rewrite (proj2 (Z.ltb_ge _ _)) by lia. do 3 f_equal; lia.
Qed.

Definition sign_of (value : Z) : Z := - (if decide (value < 0) then 1 else 0).

Lemma lxor_sign v value : Z.lxor (v + sign_of value) (sign_of value) = if decide (value < 0) then - v else v.
Proof.
  unfold sign_of. case_decide; cbn [Z.opp].
  - rewrite Z.lxor_m1_r. unfold Z.lnot. lia.
  - by rewrite Z.lxor_0_r, Z.add_0_r.
Qed.

(** What the decoder finds behind the search. *)
Lemma laplace_find_search fm fs f fl decay v :
  fs <= fm < 32768 -> 0 <= fs -> 0 <= f < 32768 -> 0 <= ec_laplace_get_freq1 fs decay < 32768 ->
  laplace_dec_loop (Z.to_nat fm) decay fm (ec_laplace_get_freq1 fs decay + 1) fs 1 = Some (f + 1, fl, v) ->
  laplace_find fm fs decay
  = (let '(fl, val) :=
       if f + 1 <=? LAPLACE_MINP then
         let di := i32 (Z.shiftr (u32 (fm - fl)) (LAPLACE_LOG_MINP + 1)) in
         (u32 (fl + u32 (2 * di * LAPLACE_MINP)), v + di)
       else (fl, v) in
     if fm <? u32 (fl + (f + 1)) then Some (fl, f + 1, - val) else Some (u32 (fl + (f + 1)), f + 1, val)).
Proof.
  intros Hfm Hfs Hf Hq Hrun. unfold laplace_find. rewrite (proj2 (Z.leb_le _ _)) by lia.
  rewrite wrap_small by (change LAPLACE_MINP with 1; change (2 ^ 32) with 4294967296; lia).
  change (ec_laplace_get_freq1 fs decay + LAPLACE_MINP) with (ec_laplace_get_freq1 fs decay + 1).
  by rewrite Hrun.
Qed.

(** The interval of a value and what is found from its points. *)
Definition laplace_at (value fs decay fl len v : Z) : Prop :=
  laplace_interval value fs decay = Some (fl, len, v) /\ 0 <= fl /\ 1 <= len /\ fl + len <= 32768 /\
  forall fm, fl <= fm < fl + len -> laplace_find fm fs decay = Some (fl, len, v).

(** A cell of the decaying part: two intervals of length [f + 1]. *)
Lemma laplace_cell fs decay f fl i value fm :
  0 <= fs -> fs <= fl -> 0 < f -> fl + 2 * (f + 1) <= 32768 -> 0 <= ec_laplace_get_freq1 fs decay < 32768 ->
  let s := sign_of value in
  let fl' := fl + (if decide (value < 0) then 0 else f + 1) in
  u32 (fl + Z.land (u32 (f + LAPLACE_MINP)) (u32 (Z.lnot s))) = fl' /\ u32 (f + LAPLACE_MINP) = f + 1 /\
  (fl' <= fm < fl' + (f + 1) ->
   laplace_dec_loop (Z.to_nat fm) decay fm (ec_laplace_get_freq1 fs decay + 1) fs 1 = Some (f + 1, fl, i) ->
   laplace_find fm fs decay = Some (fl', f + 1, if decide (value < 0) then - i else i)).
Proof.
  intros Hfs Hfl Hf Hend Hq s fl'. change LAPLACE_MINP with 1.
  assert (u32 (f + 1) = f + 1) as Hu by (apply wrap_small; change (2 ^ 32) with 4294967296; lia).
  rewrite Hu. split; [|split; [done|]].
  - unfold fl', s, sign_of. case_decide; cbn [Z.opp].
    + change (u32 (Z.lnot (-1))) with 0. rewrite Z.land_0_r. apply wrap_small. change (2 ^ 32) with 4294967296. lia.
    + assert (u32 (Z.lnot (- 0)) = Z.ones 32) as -> by done. rewrite Z.land_ones by lia. fold (u32 (f + 1)). rewrite Hu.
      apply wrap_small. change (2 ^ 32) with 4294967296. lia.
  - intros Hfm Hrun.
    assert (fs <= fm < 32768) as Hfm' by (unfold fl' in Hfm; case_decide; lia).
    rewrite (laplace_find_search fm fs f fl decay i Hfm' Hfs ltac:(lia) Hq Hrun).
    rewrite (proj2 (Z.leb_gt (f + 1) _)) by (change LAPLACE_MINP with 1; lia).
    rewrite wrap_small by (change (2 ^ 32) with 4294967296; lia). unfold fl' in *. case_decide.
    + rewrite (proj2 (Z.ltb_lt _ _)) by lia. by rewrite Z.add_0_r.
    + by rewrite (proj2 (Z.ltb_ge _ _)) by lia.
Qed.

(** A cell behind: intervals of length one, as far as there is room. *)
Lemma laplace_tail fs decay fl i val value :
  0 <= fs -> fs <= fl -> fl + 2 <= 32768 -> 1 <= i <= val -> i < 2 ^ 30 -> val < 2 ^ 31 ->
  0 <= ec_laplace_get_freq1 fs decay < 32768 ->
  let s := sign_of value in
  let ndi_max := i32 (Z.shiftr (u32 (32768 - fl + LAPLACE_MINP - 1)) LAPLACE_LOG_MINP) in
  let di := Z.min (val - i) (Z.shiftr (ndi_max - s) 1 - 1) in
  let fl' := u32 (fl + u32 ((2 * di + 1 + s) * LAPLACE_MINP)) in
  fs <= fl' < 32768 /\ Z.min LAPLACE_MINP (u32 (32768 - fl')) = 1 /\
  ((forall fm, fl <= fm < 32768 -> laplace_dec_loop (Z.to_nat fm) decay fm (ec_laplace_get_freq1 fs decay + 1) fs 1 = Some (0 + 1, fl, i)) ->
   laplace_find fl' fs decay = Some (fl', 1, Z.lxor (i + di + s) s)).
Proof.
  intros Hfs Hfl Hend Hi Hi30 Hval Hq s ndi_max di fl'. change (2 ^ 30) with 1073741824 in *. change (2 ^ 31) with 2147483648 in *.
  assert (ndi_max = 32768 - fl) as Hn.
  { unfold ndi_max. change LAPLACE_MINP with 1. change LAPLACE_LOG_MINP with 0.
    rewrite Z.shiftr_0_r, wrap_small by (change (2 ^ 32) with 4294967296; lia).
    rewrite i32_small by (change (2 ^ 31) with 2147483648; lia). lia. }
  assert (-1 <= s <= 0) as Hs by (unfold s, sign_of; case_decide; lia).
  assert (0 <= di /\ fl + (2 * di + 1 + s) < 32768) as [Hdi Hdl].
  { unfold di. rewrite Hn, Z.shiftr_div_pow2 by lia. change (2 ^ 1) with 2. zlia. }
  assert (fl' = fl + (2 * di + 1 + s)) as Hfl'.
  { unfold fl'. change LAPLACE_MINP with 1. rewrite Z.mul_1_r.
    by rewrite (wrap_small 32 (2 * di + 1 + s)), wrap_small by (change (2 ^ 32) with 4294967296; lia). }
  clearbody fl'. subst fl'. split; [lia|]. split.
  { change LAPLACE_MINP with 1. rewrite wrap_small by (change (2 ^ 32) with 4294967296; lia). lia. }
  intros Hrun. rewrite (laplace_find_search _ fs 0 fl decay i) by (done || lia || (apply Hrun; lia)).
  change (0 + 1) with 1. rewrite (laplace_tail_find fl i _ di (bool_decide (value < 0))) by
    (done || lia || (unfold s, sign_of; case_decide; case_bool_decide; lia)).
  do 2 f_equal. unfold s. rewrite lxor_sign. case_decide; case_bool_decide; (done || lia).
Qed.

Lemma laplace_interval_spec value fs decay :
  laplace_ok fs decay = true -> - 2 ^ 31 < value < 2 ^ 31 -> exists fl len v, laplace_at value fs decay fl len v.
Proof.
  unfold laplace_ok. rewrite !andb_true_iff, Z.ltb_lt, !Z.leb_le. intros ((((Hf0 & Hf1) & Hd0) & Hd1) & Hfit) Hv.
  unfold laplace_at, laplace_interval. fold (sign_of value). case_decide as E.
  { exists 0, fs, value. split; [done|]. split; [done|]. split; [lia|]. split; [lia|]. intros fm Hfm. unfold laplace_find.
    rewrite (proj2 (Z.leb_gt _ _)) by lia. by rewrite E. }
  rewrite int_chk_ok by (unfold sign_of; case_decide; lia). mred. cbv zeta. rewrite !lxor_sign.
  set (val := if decide (value < 0) then - value else value).
  assert (1 <= val < 2 ^ 31) as Hval by (unfold val; case_decide; lia).
  destruct (get_freq1_small fs decay) as [_ Hfq]; [lia|lia|].
  destruct (laplace_search 64 _ fs decay 1 val Hfit) as (f & fl & i & -> & Hi & _ & Hf & Hfl & Hend & Hcase & Hdec); [lia..|]. mred.
  case_decide as Ef.
  - subst f. clear Hcase.
    destruct (laplace_tail fs decay fl i val value) as ([H1 H2] & H3 & H4); [lia..|]. rewrite H3.
    eexists _, _, _. split; [reflexivity|]. split; [lia|]. split; [done|]. split; [lia|]. intros fm Hfm.
    match goal with |- laplace_find _ _ _ = Some (?x, _, _) => assert (fm = x) as -> by lia end.
    apply H4. intros fm' Hfm'. rewrite Hdec by (auto || lia). do 2 f_equal. lia.
  - destruct Hcase as [?|[Hf' ->]]; [done|].
    destruct (laplace_cell fs decay f fl val value 0) as (H1 & H2 & _); [lia..|]. rewrite H1, H2.
    eexists _, _, _. split; [reflexivity|]. split; [case_decide; lia|]. split; [lia|]. split; [case_decide; lia|]. intros fm Hfm.
    destruct (laplace_cell fs decay f fl val value fm) as (_ & _ & Hfind); [lia..|]. rewrite Hfind; [|done|].
    + do 2 f_equal. unfold val. case_decide; lia.
    + rewrite Hdec by (case_decide; lia). do 2 f_equal. lia.
Qed.

(** Values up to [LAPLACE_NMIN] are never changed. *)
Lemma laplace_interval_exact value fs decay fl len v :
  laplace_ok fs decay = true -> decay < 16384 -> Z.abs value <= LAPLACE_NMIN ->
  laplace_interval value fs decay = Some (fl, len, v) -> v = value.
Proof.
  unfold laplace_ok. rewrite !andb_true_iff, Z.ltb_lt, !Z.leb_le. intros ((((Hf0 & Hf1) & Hd0) & Hd1) & Hfit) Hd Hv.
  change LAPLACE_NMIN with 16 in Hv. unfold laplace_interval. fold (sign_of value). case_decide as E; [by intros [= _ _ ->]|].
  rewrite int_chk_ok by (change (2 ^ 31) with 2147483648; unfold sign_of; case_decide; lia). mred. cbv zeta. rewrite !lxor_sign.
  set (val := if decide (value < 0) then - value else value).
  assert (1 <= val <= 16) as Hval by (unfold val; case_decide; lia).
  destruct (get_freq1_small fs decay) as [Hq Hfq]; [lia|lia|].
  destruct (laplace_search 64 _ fs decay 1 val Hfit) as (f & cl & i & -> & Hi & Hmass & Hf & Hfl & Hend & Hcase & _); [lia..|]. mred.
  case_decide as Ef; [|by intros [= _ _ ->]]. subst f. intros [= _ _ <-].
  assert (cl <= 32736 + 2 * (i - 1)) as Hcl.
  { unfold laplace_mass in Hmass. rewrite Hq in Hmass.
    pose proof (Z.mul_div_le ((32736 - fs) * (16384 - decay)) 32768 ltac:(lia)). nia. }
  assert (i32 (Z.shiftr (u32 (32768 - cl + LAPLACE_MINP - 1)) LAPLACE_LOG_MINP) = 32768 - cl) as ->.
  { change LAPLACE_MINP with 1. change LAPLACE_LOG_MINP with 0.
    rewrite Z.shiftr_0_r, wrap_small by (change (2 ^ 32) with 4294967296; lia).
    rewrite i32_small by (change (2 ^ 31) with 2147483648; lia). lia. }
  assert (-1 <= sign_of value <= 0) as Hs by (unfold sign_of; case_decide; lia).
  rewrite Z.min_l by (rewrite Z.shiftr_div_pow2 by lia; change (2 ^ 1) with 2; zlia).
  replace (i + (val - i)) with val by lia. rewrite lxor_sign. unfold val. case_decide; lia.
Qed.
