(* ===== verification/EntEncFacts.v ===== *)
(** * What the range encoder computes

    The bytes written, the byte that waits for a carry and the run of 255 behind it are
    the digits of a number; with [val] below them they give the low end of an interval
    of length [rng], which every symbol narrows. *)

From S2P Require Import Prelude EntCode EntEnc Laplace.

(** ** The buffer: range bytes, free cells, raw bytes *)

Definition layout (e : ec_ctx) (W mid T : list Z) : Prop :=
  buf e = W ++ mid ++ T /\ offs e = zlen W /\ end_offs e = zlen T /\
  storage e = zlen (buf e) /\ storage e < 2 ^ 32 /\ is_bytes (buf e).

(** What writing a byte leaves alone. *)
Definition same_regs (e e' : ec_ctx) : Prop :=
  rng e' = rng e /\ val e' = val e /\ nbits_total e' = nbits_total e /\
  end_window e' = end_window e /\ nend_bits e' = nend_bits e /\ storage e' = storage e.

#[export] Instance same_regs_preorder : RelationClasses.PreOrder same_regs.
Proof. split; [by intros e|]. unfold same_regs. intros a b c H1 H2. intuition congruence. Qed.

Lemma u8_byte v : is_byte (u8 v).
Proof. apply Z.mod_pos_bound. lia. Qed.

Lemma lor_error e : Z.lor e (-1) = 0 -> False.
Proof. by rewrite Z.lor_m1_r. Qed.

Lemma put_byte_app W m mid v :
  put_byte (W ++ m :: mid) (zlen W) v = Some (W ++ u8 v :: mid).
Proof.
  unfold put_byte. rewrite decide_True by (rewrite length_app; cbn; lia).
  rewrite Nat2Z.id, insert_app_r_alt, Nat.sub_diag by lia. done.
Qed.

Lemma bytes_replace W m mid v : is_bytes (W ++ m :: mid) -> is_bytes (W ++ u8 v :: mid).
Proof.
  intros [H1 H2]%Forall_app. apply Forall_cons_1 in H2 as [_ H2].
  apply Forall_app. split; [done|]. constructor; [apply u8_byte|done].
Qed.

Lemma layout_full e W mid T :
  layout e W mid T -> u32 (offs e + end_offs e) = zlen W + zlen T /\ storage e = zlen W + zlen mid + zlen T.
Proof.
  intros (Hb & -> & -> & Hs & Hlt & _). rewrite Hb, !length_app in Hs.
  split; [apply wrap_small; lia|lia].
Qed.

Lemma out_byte_spec e W mid T v :
  layout e W mid T ->
  exists e' W' mid', out_byte e v = Some e' /\ layout e' W' mid' T /\ same_regs e e' /\
    ext e' = ext e /\ rem e' = rem e /\
    (error e' = 0 -> error e = 0 /\ W' = W ++ [u8 v]) /\
    (zlen W + 1 + zlen T <= storage e -> error e' = error e).
Proof.
  intros Hl. pose proof (layout_full _ _ _ _ Hl) as [Hsum Hst]. pose proof Hl as (Hb & Ho & He & Hs & Hlt & Hby).
  unfold out_byte, ec_write_byte. rewrite Hsum. destruct mid as [|m mid].
  - rewrite (proj2 (Z.leb_le _ _)) by (cbn in Hst; lia). mred.
    eexists _, W, []. split; [reflexivity|]. split_and!; try done; [by intros ?%lor_error|cbn in Hst; lia].
  - rewrite (proj2 (Z.leb_gt _ _)) by (cbn [length] in Hst; lia).
    rewrite Hb, Ho. cbn [app]. rewrite put_byte_app. mred.
    eexists _, (W ++ [u8 v]), mid. split; [reflexivity|]. split_and!; try done.
    + unfold layout. cbn [buf offs end_offs storage error set_error set_offs set_buf].
      rewrite <- app_assoc. cbn [app]. split_and!; try done.
      * rewrite Hb, !length_app in Hs. cbn [length] in Hs.
        rewrite wrap_small, length_app by lia. cbn [length]. lia.
      * rewrite Hs, Hb. by repeat (rewrite length_app; cbn [length app]).
      * rewrite Hb in Hby. by apply (bytes_replace _ m).
    + cbn [error set_error set_offs set_buf]. rewrite Z.lor_0_r. done.
    + intros _. apply Z.lor_0_r.
Qed.

Lemma carry_loop_spec fuel e W mid T sym :
  layout e W mid T -> 0 < ext e < 2 ^ 32 -> fuel = Z.to_nat (ext e) ->
  exists e' W' mid', carry_loop fuel e sym = Some e' /\ layout e' W' mid' T /\ same_regs e e' /\
    ext e' = 0 /\ rem e' = rem e /\
    (error e' = 0 -> error e = 0 /\ W' = W ++ replicate (Z.to_nat (ext e)) (u8 sym)) /\
    (error e = 0 -> zlen W + ext e + zlen T <= storage e -> error e' = 0).
Proof.
  revert e W mid. induction fuel as [|fuel IH]; intros e W mid Hl Hx Hf; cbn [carry_loop]; [lia|].
  destruct (out_byte_spec e W mid T sym Hl) as (e1 & W1 & mid1 & -> & Hl1 & Hs1 & Hx1 & Hr1 & He1 & Hq1). mred.
  cbv zeta. rewrite Hx1, (wrap_small 32 (ext e - 1)) by lia. cbn [ext set_ext].
  destruct (0 <? ext e - 1) eqn:E; [apply Z.ltb_lt in E|apply Z.ltb_ge in E].
  - destruct (IH (set_ext e1 (ext e - 1)) W1 mid1) as (e' & W' & mid' & -> & Hl' & Hs' & Hx' & Hr' & He' & Hq');
      [done|cbn; lia|cbn; lia|].
    exists e', W', mid'. split; [done|]. split; [done|]. split; [by rewrite Hs1, <- Hs'|].
    split; [done|]. split; [by rewrite Hr', <- Hr1|]. split.
    + intros H. destruct (He' H) as [H1 ->].
      destruct (He1 H1) as [H2 ->]. split; [done|]. cbn [ext set_ext].
      replace (Z.to_nat (ext e)) with (S (Z.to_nat (ext e - 1))) by lia.
      by rewrite <- app_assoc.
    + intros H Hroom. pose proof (Hq1 ltac:(lia)) as H1. rewrite H in H1. destruct (He1 H1) as [_ E1].
      apply Hq'; [done|]. cbn [ext set_ext storage]. destruct Hs1 as (_ & _ & _ & _ & _ & ->).
      rewrite E1, length_app. cbn [length]. lia.
  - exists (set_ext e1 (ext e - 1)), W1, mid1. split; [done|]. split_and!; try done; [apply Hs1..|cbn; lia| |].
    + cbn [error set_ext]. intros H. destruct (He1 H) as [H1 ->]. split; [done|].
      by replace (Z.to_nat (ext e)) with 1%nat by lia.
    + cbn [error set_ext]. intros <- ?. apply Hq1. lia.
Qed.

(** ** The number written so far *)

Definition pending (e : ec_ctx) : list Z :=
  (if 0 <=? rem e then [rem e] else []) ++ replicate (Z.to_nat (ext e)) 255.

(** The digits are [W] and what is pending. *)
Definition digits (e : ec_ctx) (W : list Z) : list Z := W ++ pending e.

Lemma digits_length e W :
  zlen (digits e W) = zlen W + (if 0 <=? rem e then 1 else 0) + Z.of_nat (Z.to_nat (ext e)).
Proof.
  unfold digits, pending. rewrite !length_app, length_replicate. destruct (0 <=? rem e); cbn [length]; lia.
Qed.

Definition regs_ok (e : ec_ctx) : Prop := -1 <= rem e <= 255 /\ 0 <= ext e < 2 ^ 32.

Lemma be_val_snoc l x : be_val (l ++ [x]) = be_val l * 256 + x.
Proof. rewrite be_val_app, be_val_single. done. Qed.

(** A carry turns the run of 255 into zeros. *)
Lemma be_val_carry W r n :
  be_val (W ++ [r + 1] ++ replicate n 0) = be_val (W ++ [r] ++ replicate n 255) + 1.
Proof.
  rewrite !app_assoc, !(be_val_app _ (replicate n _)), !be_val_snoc, !length_replicate.
  assert (forall x, be_val (replicate n x) * 255 = x * (2 ^ (8 * Z.of_nat n) - 1)) as H.
  { intros x. induction n as [|n IH]; [cbn; lia|].
    rewrite replicate_S_end, be_val_snoc. rewrite Nat2Z.inj_succ.
    replace (8 * Z.succ (Z.of_nat n)) with (8 * Z.of_nat n + 8) by lia. rewrite Z.pow_add_r by lia.
    change (2 ^ 8) with 256. lia. }
  pose proof (H 0). pose proof (H 255). nia.
Qed.

Lemma land_255 x : Z.land x 255 = x mod 256.
Proof. by apply (Z.land_ones x 8). Qed.

(** A symbol other than 255 decides the carry: everything pending is written. *)
Lemma carry_out_flush e W mid T c :
  layout e W mid T -> regs_ok e -> 0 <= c < 512 -> c <> 255 ->
  exists e' W' mid', ec_enc_carry_out e c = Some e' /\ layout e' W' mid' T /\ same_regs e e' /\
    ext e' = 0 /\ rem e' = c mod 256 /\
    (error e' = 0 -> error e = 0 /\
       W' = W ++ (if 0 <=? rem e then [u8 (rem e + c / 256)] else [])
              ++ replicate (Z.to_nat (ext e)) (if decide (c < 256) then 255 else 0)) /\
    (error e = 0 -> zlen (digits e W) + zlen T <= storage e -> error e' = 0).
Proof.
  intros Hl [Hr Hx] Hc Hne. unfold ec_enc_carry_out. change EC_SYM_MAX with 255. change EC_SYM_BITS with 8.
  rewrite (proj2 (Z.eqb_neq _ _)) by done. cbn [negb].
  rewrite Z.shiftr_div_pow2 by lia. change (2 ^ 8) with 256.
  rewrite !land_255.
  assert (u8 ((255 + c / 256) mod 256) = if decide (c < 256) then 255 else 0) as Hsym.
  { case_decide.
    - by replace (c / 256) with 0 by zlia.
    - by replace (c / 256) with 1 by zlia. }
  (* the waiting byte *)
  assert (exists e1 W1 mid1,
    (if 0 <=? rem e then out_byte e (rem e + c / 256) else Some e) = Some e1 /\ layout e1 W1 mid1 T /\
    same_regs e e1 /\ ext e1 = ext e /\ rem e1 = rem e /\
    (error e1 = 0 -> error e = 0 /\ W1 = W ++ (if 0 <=? rem e then [u8 (rem e + c / 256)] else [])) /\
    (zlen (digits e W) + zlen T <= storage e -> error e1 = error e))
    as (e1 & W1 & mid1 & -> & Hl1 & Hs1 & Hx1 & Hr1 & He1 & Hq1).
  { rewrite digits_length. destruct (0 <=? rem e).
    - destruct (out_byte_spec e W mid T (rem e + c / 256) Hl) as (e1 & W1 & mid1 & H & G1 & G2 & G3 & G4 & G5 & G6).
      exists e1, W1, mid1. split_and!; try done. intros. apply G6. lia.
    - exists e, W, mid. rewrite app_nil_r. by split_and!. }
  mred. rewrite Hx1.
  destruct (0 <? ext e) eqn:E; [apply Z.ltb_lt in E|apply Z.ltb_ge in E].
  - destruct (carry_loop_spec (Z.to_nat (ext e)) e1 W1 mid1 T ((255 + c / 256) mod 256))
      as (e2 & W2 & mid2 & -> & Hl2 & Hs2 & Hx2 & Hr2 & He2 & Hq2); [done|lia|by rewrite Hx1|].
    mred. eexists _, W2, mid2. split; [reflexivity|]. split; [done|]. split; [by rewrite Hs1, Hs2|].
    split; [done|]. split; [done|]. cbn [error set_rem]. split; intros H.
    + destruct (He2 H) as [H1 ->]. destruct (He1 H1) as [H2 ->]. split; [done|].
      by rewrite Hx1, Hsym, <- app_assoc.
    + intros Hroom. pose proof (Hq1 Hroom) as H1. rewrite H in H1. destruct (He1 H1) as [_ E1].
      apply Hq2; [done|]. destruct Hs1 as (_ & _ & _ & _ & _ & ->). rewrite digits_length in Hroom.
      rewrite Hx1, E1, length_app. destruct (0 <=? rem e); cbn [length] in *; lia.
  - mred. eexists _, W1, mid1. split; [reflexivity|]. split; [done|]. split; [by rewrite Hs1|].
    split; [cbn; lia|]. split; [done|]. cbn [error set_rem]. split.
    + intros H. destruct (He1 H) as [H1 ->].
      split; [done|]. replace (Z.to_nat (ext e)) with 0%nat by lia. by rewrite app_nil_r.
    + intros <- ?. by apply Hq1.
Qed.

Lemma u8_id x : 0 <= x < 256 -> u8 x = x.
Proof. intros. by apply wrap_small. Qed.

(** Emitting a symbol appends a digit, or a digit and a carry. *)
Lemma carry_out_spec e W mid T c :
  layout e W mid T -> regs_ok e -> ext e + 1 < 2 ^ 32 -> 0 <= c < 512 ->
  exists e' W' mid', ec_enc_carry_out e c = Some e' /\ layout e' W' mid' T /\ same_regs e e' /\
    regs_ok e' /\ ext e' <= ext e + 1 /\
    (rem e' = -1 -> c = 255 /\ rem e = -1) /\ (rem e' = 255 -> c = 511 \/ c = 255 /\ rem e = 255) /\
    (error e' = 0 -> error e = 0 /\
      (c < 256 \/ 0 <= rem e <= 254 ->
       be_val (digits e' W') = be_val (digits e W) * 256 + c /\ zlen (digits e' W') = zlen (digits e W) + 1)) /\
    (error e = 0 -> zlen (digits e W) + zlen T <= storage e -> error e' = 0).
Proof.
  intros Hl Hok Hx Hc. destruct (decide (c = 255)) as [->|Hne].
  - exists (set_ext e (u32 (ext e + 1))), W, mid. destruct Hok as [Hr Hx0].
    split; [done|]. split; [done|]. split; [done|].
    assert (u32 (ext e + 1) = ext e + 1) as -> by (apply wrap_small; lia).
    split; [split; cbn; lia|]. split; [cbn; lia|]. split; [done|]. split; [by right|]. split; [|done].
    intros He. split; [done|]. intros _.
    assert (digits (set_ext e (ext e + 1)) W = digits e W ++ [255]) as ->.
    { unfold digits, pending. cbn [rem ext set_ext]. replace (Z.to_nat (ext e + 1)) with (S (Z.to_nat (ext e))) by lia.
      by rewrite replicate_S_end, <- !app_assoc. }
    rewrite be_val_snoc, length_app. cbn [length]. split; lia.
  - destruct (carry_out_flush e W mid T c Hl Hok Hc Hne) as (e' & W' & mid' & Ho & Hl' & Hs' & Hx' & Hr' & He' & Hq').
    pose proof Hok as [Hr Hx0].
    exists e', W', mid'. split; [done|]. split; [done|]. split; [done|].
    assert (0 <= c mod 256 < 256) as Hm by (apply Z.mod_pos_bound; lia).
    split; [split; lia|]. split; [lia|]. split; [rewrite Hr'; lia|]. split; [rewrite Hr'; intros; zlia|].
    split; [|done].
    intros H. destruct (He' H) as [H1 ->]. split; [done|]. intros Hcarry.
    assert (pending e' = [c mod 256]) as Hp.
    { unfold pending. rewrite Hr', Hx'. by rewrite (proj2 (Z.leb_le _ _)) by lia. }
    unfold digits at 1 3. rewrite Hp. unfold digits, pending.
    case_decide as Hlt.
    + assert (c / 256 = 0) as -> by zlia. assert (c mod 256 = c) as -> by zlia. rewrite Z.add_0_r.
      assert ((if 0 <=? rem e then [u8 (rem e)] else []) = (if 0 <=? rem e then [rem e] else [])) as ->.
      { destruct (0 <=? rem e) eqn:E; [|done]. apply Z.leb_le in E. by rewrite u8_id by lia. }
      rewrite be_val_snoc. split; [done|]. rewrite (length_app _ [c]). cbn [length]. lia.
    + assert (c / 256 = 1) as -> by zlia. assert (c mod 256 = c - 256) as -> by zlia.
      destruct Hcarry as [?|Hrem]; [lia|].
      rewrite !(proj2 (Z.leb_le 0 (rem e))) by lia. rewrite u8_id by lia.
      rewrite be_val_snoc, be_val_carry. split; [lia|].
      rewrite !length_app. cbn [length]. rewrite !length_replicate. lia.
Qed.

(** ** The interval *)

Record enc_ok (e : ec_ctx) (W mid T : list Z) : Prop := {
  eo_layout : layout e W mid T;
  eo_regs : regs_ok e;
  eo_rng : 1 <= rng e <= 2 ^ 31;
  eo_val : 0 <= val e;
  eo_top : val e + rng e <= 2 ^ 32 - 256;
  eo_carry : rem e = -1 \/ rem e = 255 -> val e + rng e <= 2 ^ 31;
  eo_window : 0 <= nend_bits e <= 32 /\ 0 <= end_window e < 2 ^ nend_bits e
}.

Definition low (e : ec_ctx) (W : list Z) : Z := be_val (digits e W) * 2 ^ 31 + val e.
Definition count (e : ec_ctx) (W : list Z) : Z := zlen (digits e W).

(** The rounds of a normalisation. *)
Definition rounds (r : Z) : nat :=
  if decide (2 ^ 23 < r) then 0 else if decide (2 ^ 15 < r) then 1 else if decide (2 ^ 7 < r) then 2 else 3.

Lemma rounds_le r : (rounds r <= 3)%nat.
Proof. unfold rounds. repeat case_decide; lia. Qed.

Lemma rounds_0 r : rounds r = 0%nat <-> 2 ^ 23 < r.
Proof. unfold rounds. repeat case_decide; lia. Qed.

Lemma rounds_S r : 1 <= r <= 2 ^ 23 -> rounds r = S (rounds (256 * r)).
Proof.
  intros H. unfold rounds. change (2 ^ 23) with 8388608 in *. change (2 ^ 15) with 32768.
  change (2 ^ 7) with 128. repeat case_decide; lia.
Qed.

(** The registers a symbol does not use. *)
Definition same_window (e e' : ec_ctx) : Prop :=
  end_window e' = end_window e /\ nend_bits e' = nend_bits e /\ storage e' = storage e.

Definition normalized (e : ec_ctx) (W : list Z) (e' : ec_ctx) (W' : list Z) : Prop :=
  let k := Z.of_nat (rounds (rng e)) in
  rng e' = 256 ^ k * rng e /\ nbits_total e' = nbits_total e + 8 * k /\ same_window e e' /\
  (error e' = 0 -> error e = 0 /\ low e' W' = 256 ^ k * low e W /\ count e' W' = count e W + k).

Lemma shift_val v : 0 <= v < 2 ^ 32 -> Z.land (u32 (Z.shiftl v 8)) (EC_CODE_TOP - 1) = (v mod 2 ^ 23) * 256.
Proof.
  intros Hv. change (EC_CODE_TOP - 1) with (Z.ones 31). rewrite Z.land_ones, Z.shiftl_mul_pow2 by lia.
  unfold wrap. change (2 ^ 31) with 2147483648. change (2 ^ 32) with 4294967296.
  change (2 ^ 8) with 256. change (2 ^ 23) with 8388608. zlia.
Qed.

(** A carry finds a digit it can increase. *)
Lemma carry_possible e v r :
  regs_ok e -> 0 <= v -> 1 <= r -> (rem e = -1 \/ rem e = 255 -> v + r <= 2147483648) ->
  v / 8388608 < 256 \/ 0 <= rem e <= 254.
Proof.
  intros [Hr _] Hv Hr' Hcar. destruct (decide (rem e = -1 \/ rem e = 255)) as [Hc|Hc]; [|lia].
  left. pose proof (Hcar Hc). zlia.
Qed.

Lemma normalize_loop_spec fuel e W mid T :
  enc_ok e W mid T -> (rounds (rng e) <= fuel)%nat -> ext e + Z.of_nat fuel < 2 ^ 32 ->
  exists e' W' mid', enc_normalize_loop fuel e = Some e' /\ enc_ok e' W' mid' T /\
    2 ^ 23 < rng e' /\ ext e' <= ext e + Z.of_nat fuel /\ normalized e W e' W' /\
    (error e = 0 -> count e W + Z.of_nat (rounds (rng e)) + zlen T <= storage e -> error e' = 0).
Proof.
  revert e W mid. induction fuel as [|fuel IH]; intros e W mid Hok Hf Hx; cbn [enc_normalize_loop];
    change EC_CODE_BOT with (2 ^ 23);
    (destruct (rng e <=? 2 ^ 23) eqn:E; [apply Z.leb_le in E|apply Z.leb_gt in E]).
  2,4: exists e, W, mid; split_and!; try done; try lia;
       unfold normalized; rewrite (proj2 (rounds_0 _) E), !Z.mul_1_l; split_and!; try done; lia.
  { destruct Hok as [_ _ [Hr _] _ _ _ _]. rewrite (rounds_S (rng e)) in Hf by lia. lia. }
  destruct Hok as [Hl Hreg Hrng Hval Htop Hcar Hwin].
  change EC_CODE_SHIFT with 23. change EC_SYM_BITS with 8. rewrite Z.shiftr_div_pow2 by lia.
  change (2 ^ 23) with 8388608 in *. change (2 ^ 31) with 2147483648 in *. change (2 ^ 32) with 4294967296 in *.
  destruct (carry_out_spec e W mid T (val e / 8388608) Hl Hreg) as
    (e1 & W1 & mid1 & -> & Hl1 & Hs1 & Hreg1 & Hx1 & Hm1 & H255 & He1 & Hq1);
    [change (2 ^ 32) with 4294967296; lia|zlia|]. mred. cbv zeta.
  destruct Hs1 as (Hr1 & Hv1 & Hn1 & Hew1 & Hnb1 & Hst1).
  rewrite Hr1, Hv1, shift_val by (change (2 ^ 32) with 4294967296; lia).
  assert (u32 (Z.shiftl (rng e) 8) = 256 * rng e) as ->.
  { rewrite Z.shiftl_mul_pow2 by lia. change (2 ^ 8) with 256. rewrite wrap_small; [lia|].
    change (2 ^ 32) with 4294967296. lia. }
  change (2 ^ 23) with 8388608.
  set (e2 := set_nbits_total (set_range e1 (256 * rng e) (val e mod 8388608 * 256)) (nbits_total e1 + 8)).
  assert (enc_ok e2 W1 mid1 T) as Hok2.
  { split; try done; cbn [rng val rem end_window nend_bits e2 set_nbits_total set_range].
    - change (2 ^ 31) with 2147483648. lia.
    - zlia.
    - change (2 ^ 32) with 4294967296. zlia.
    - change (2 ^ 31) with 2147483648. intros [H|H].
      + destruct (Hm1 H) as [Hc Hrem]. pose proof (Hcar (or_introl Hrem)). zlia.
      + destruct (H255 H) as [Hc|[Hc Hrem]]; [zlia|]. pose proof (Hcar (or_intror Hrem)). zlia.
    - by rewrite Hew1, Hnb1. }
  rewrite (rounds_S (rng e)) in Hf by (change (2 ^ 23) with 8388608; lia).
  destruct (IH e2 W1 mid1 Hok2) as (e' & W' & mid' & Hrun & Hok' & Hrng' & Hx' & Hn' & Hq');
    [cbn [rng e2 set_nbits_total set_range]; lia|cbn [ext e2 set_nbits_total set_range];
     change (2 ^ 32) with 4294967296; lia|].
  match goal with |- context [enc_normalize_loop fuel ?x] => change x with e2 end.
  rewrite Hrun. exists e', W', mid'. split; [done|]. split; [done|]. split; [done|].
  split; [cbn [ext e2 set_nbits_total set_range] in Hx'; lia|].
  apply and_comm. split.
  { rewrite (rounds_S (rng e)) by (change (2 ^ 23) with 8388608; lia). unfold count. intros H Hroom.
    pose proof (Hq1 H ltac:(lia)) as H1. destruct (He1 H1) as [_ Hdig].
    destruct Hdig as [_ Hd2]; [apply (carry_possible e (val e) (rng e)); (done || lia)|].
    apply Hq'; [done|]. cbn [rng storage e2 set_nbits_total set_range].
    unfold count. change (digits e2 W1) with (digits e1 W1). lia. }
  destruct Hn' as (N1 & N2 & (N3 & N4 & N5) & N6). cbn [rng e2 set_nbits_total set_range] in N1, N2, N6.
  cbn [end_window nend_bits storage nbits_total e2 set_nbits_total set_range] in N2, N3, N4, N5.
  unfold normalized. rewrite (rounds_S (rng e)), Nat2Z.inj_succ, Z.pow_succ_r by (change (2 ^ 23) with 8388608; lia).
  split; [lia|]. split; [lia|]. split; [unfold same_window; split_and!; congruence|].
  intros He'. destruct (N6 He') as (He2 & Hlow & Hcnt). destruct (He1 He2) as [He Hdig].
  destruct Hdig as [Hd1 Hd2]; [apply (carry_possible e (val e) (rng e)); (done || lia)|].
  split; [done|]. split.
  - rewrite Hlow. unfold low. change (digits e2 W1) with (digits e1 W1). rewrite Hd1.
    cbn [val e2 set_nbits_total set_range]. change (2 ^ 31) with 2147483648.
    assert (forall x, (x * 256 + val e / 8388608) * 2147483648 + val e mod 8388608 * 256
              = 256 * (x * 2147483648 + val e)) as -> by (intros x; zlia).
    ring.
  - rewrite Hcnt. unfold count. change (digits e2 W1) with (digits e1 W1). lia.
Qed.

Lemma narrow e W mid T d r :
  enc_ok e W mid T -> 0 <= d -> 1 <= r -> d + r <= rng e -> ext e + 3 < 2 ^ 32 ->
  exists e' W' mid', ec_enc_normalize (set_range e r (u32 (val e + d))) = Some e' /\ enc_ok e' W' mid' T /\
    2 ^ 23 < rng e' /\ ext e' <= ext e + 3 /\ normalized (set_range e r (val e + d)) W e' W' /\
    (error e = 0 -> count e W + Z.of_nat (rounds r) + zlen T <= storage e -> error e' = 0).
Proof.
  intros [Hl Hreg Hrng Hval Htop Hcar Hwin] Hd Hr Hdr Hx.
  rewrite (wrap_small 32) by lia.
  apply (normalize_loop_spec 3 (set_range e r (val e + d)) W mid T); [|apply rounds_le|done].
  split; try done; cbn [rng val rem end_window nend_bits set_range]; try lia.
Qed.

(** ** The symbols *)

Inductive sym :=
  | SEncode (fl fh ft : Z)
  | SBin (fl fh bits : Z)
  | SBit (v logp : Z)
  | SIcdf (s : Z) (icdf : list Z) (ftb : Z)
  | SUint (v ft : Z)
  | SBits (v bits : Z)
  | SLaplace (v fs decay : Z)
  | SLaplaceP0 (v p0 decay : Z).

Definition enc_sym (e : ec_ctx) (s : sym) : option ec_ctx :=
  match s with
  | SEncode fl fh ft => ec_encode e fl fh ft
  | SBin fl fh bits => ec_encode_bin e fl fh bits
  | SBit v logp => ec_enc_bit_logp e v logp
  | SIcdf s icdf ftb => ec_enc_icdf e s icdf ftb
  | SUint v ft => ec_enc_uint e v ft
  | SBits v bits => ec_enc_bits e v bits
  | SLaplace v fs decay => snd <$> ec_laplace_encode e v fs decay
  | SLaplaceP0 v p0 decay => ec_laplace_encode_p0 e v p0 decay
  end.

(** A table of inverse cumulative frequencies decreases from at most [2^ftb]. *)
Definition icdf_at (icdf : list Z) (ftb s : Z) : option Z :=
  if decide (s = -1) then Some (2 ^ ftb) else icdf !! Z.to_nat s.

Definition icdf_ok (icdf : list Z) (ftb s : Z) : Prop :=
  exists a b, 0 <= s /\ icdf_at icdf ftb (s - 1) = Some a /\ icdf !! Z.to_nat s = Some b /\
    0 <= b < a /\ a <= 2 ^ ftb /\
    Forall (fun x => a <= x <= 2 ^ ftb) (take (Z.to_nat s) icdf).

(** What the callers of the coder guarantee. *)
Definition sym_ok (s : sym) : Prop :=
  match s with
  | SEncode fl fh ft => 0 <= fl < fh /\ fh <= ft <= 65536
  | SBin fl fh bits => 0 <= fl < fh /\ fh <= 2 ^ bits /\ 0 <= bits <= 16
  | SBit v logp => 1 <= logp <= 16
  | SIcdf s icdf ftb => 0 <= ftb <= 16 /\ icdf_ok icdf ftb s
  | SUint v ft => 0 <= v < ft /\ 2 <= ft < 2 ^ 32
  | SBits v bits => 0 <= v < 2 ^ bits /\ 1 <= bits <= 25
  | SLaplace v fs decay => laplace_ok fs decay = true /\ - 2 ^ 31 < v < 2 ^ 31
  | SLaplaceP0 v p0 decay => 1 <= p0 <= 32766 /\ 0 <= decay <= 32767 /\ - 2 ^ 31 < v < 2 ^ 31
  end.

(** The part of a range that a symbol gets: [r] is the length of one unit, [a] and [b]
    count the units from the top; the first symbol also gets what the division left. *)
Definition part (R r : Z) (a : option Z) (b : Z) : Z * Z :=
  match a with
  | Some a => (R - r * a, r * (a - b))
  | None => (0, R - r * b)
  end.

Definition part_ok (R r : Z) (a : option Z) (b : Z) : Prop :=
  1 <= r /\ 0 <= b /\ match a with Some a => b < a /\ r * a <= R | None => r * b < R end.

Lemma part_range R r a b :
  part_ok R r a b ->
  0 <= (part R r a b).1 /\ 1 <= (part R r a b).2 /\ (part R r a b).1 + (part R r a b).2 = R - r * b.
Proof. unfold part_ok, part. intros (? & ? & ?). destruct a; cbn [fst snd]; nia. Qed.

(** The code of all encoders computes such a part. *)
Lemma set_part_some e r a b :
  part_ok (rng e) r (Some a) b -> rng e < 2 ^ 32 ->
  set_range e (IMUL32 r (u32 (a - b))) (u32 (val e + u32 (rng e - IMUL32 r (u32 a))))
  = set_range e (part (rng e) r (Some a) b).2 (u32 (val e + (part (rng e) r (Some a) b).1)).
Proof.
  intros (Hr & Hb & Hab & Ha) HR. unfold part. cbn [fst snd]. unfold IMUL32.
  assert (a < 2 ^ 32) by nia.
  rewrite (wrap_small 32 (a - b)), (wrap_small 32 a) by nia.
  rewrite (wrap_small 32 (r * (a - b))), (wrap_small 32 (r * a)) by nia.
  by rewrite (wrap_small 32 (rng e - r * a)) by nia.
Qed.

Lemma set_part_none e r b :
  part_ok (rng e) r None b -> rng e < 2 ^ 32 -> 0 <= val e < 2 ^ 32 ->
  set_range e (u32 (rng e - IMUL32 r (u32 b))) (val e)
  = set_range e (part (rng e) r None b).2 (u32 (val e + (part (rng e) r None b).1)).
Proof.
  intros (Hr & Hb & Ha) HR Hv. unfold part. cbn [fst snd]. unfold IMUL32.
  assert (b < 2 ^ 32) by nia.
  rewrite (wrap_small 32 b), (wrap_small 32 (r * b)), (wrap_small 32 (rng e - r * b)) by nia.
  by rewrite Z.add_0_r, (wrap_small 32 (val e)).
Qed.

(** The part of each symbol of the range coder. *)
Definition sym_part (R : Z) (s : sym) : Z * option Z * Z :=
  match s with
  | SEncode fl fh ft => (R / ft, if 0 <? fl then Some (ft - fl) else None, ft - fh)
  | SBin fl fh bits => (Z.shiftr R bits, if 0 <? fl then Some (2 ^ bits - fl) else None, 2 ^ bits - fh)
  | SBit v logp => (Z.shiftr R logp, if decide (v = 0) then None else Some 1, if decide (v = 0) then 1 else 0)
  | SIcdf s icdf ftb => (Z.shiftr R ftb, if 0 <? s then icdf_at icdf ftb (s - 1) else None,
                         default 0 (icdf !! Z.to_nat s))
  | _ => (1, None, 0)
  end.

Definition is_range_sym (s : sym) : Prop :=
  match s with SEncode _ _ _ | SBin _ _ _ | SBit _ _ | SIcdf _ _ _ => True | _ => False end.

(** [ft] units of length [R / ft] fit. *)
Lemma units_fit R ft : 2 ^ 23 < R -> 1 <= ft <= 65536 -> 1 <= R / ft /\ R / ft * ft <= R.
Proof.
  intros HR Hft. change (2 ^ 23) with 8388608 in HR. split.
  - apply Z.div_le_lower_bound; lia.
  - rewrite Z.mul_comm. apply Z.mul_div_le. lia.
Qed.

Lemma sym_part_ok R s :
  2 ^ 23 < R -> sym_ok s -> is_range_sym s ->
  part_ok R (sym_part R s).1.1 (sym_part R s).1.2 (sym_part R s).2.
Proof.
  intros HR Hok Hs. destruct s as [fl fh ft|fl fh bits|v logp|s icdf ftb| | | |]; cbn [sym_ok] in Hok; try done;
    cbn [sym_part fst snd]; unfold part_ok; rewrite ?Z.shiftr_div_pow2 by lia.
  - destruct (units_fit R ft HR) as [H1 H2]; [lia|]. split; [done|]. split; [lia|].
    destruct (0 <? fl) eqn:E; [apply Z.ltb_lt in E|apply Z.ltb_ge in E]; nia.
  - assert (2 ^ bits <= 2 ^ 16) as Hp by (apply Z.pow_le_mono_r; lia).
    change (2 ^ 16) with 65536 in Hp.
    destruct (units_fit R (2 ^ bits) HR) as [H1 H2]; [lia|]. split; [done|]. split; [lia|].
    destruct (0 <? fl) eqn:E; [apply Z.ltb_lt in E|apply Z.ltb_ge in E]; nia.
  - assert (2 ^ 1 <= 2 ^ logp <= 2 ^ 16) as Hp by (split; apply Z.pow_le_mono_r; lia).
    change (2 ^ 16) with 65536 in Hp. change (2 ^ 1) with 2 in Hp.
    destruct (units_fit R (2 ^ logp) HR) as [H1 H2]; [lia|]. split; [done|]. case_decide; nia.
  - destruct Hok as (Hf & a & b & H0 & Ha & Hb & Hab & Hap & _).
    assert (1 <= 2 ^ ftb <= 2 ^ 16) as Hp by (split; [lia|apply Z.pow_le_mono_r; lia]).
    change (2 ^ 16) with 65536 in Hp.
    destruct (units_fit R (2 ^ ftb) HR) as [H1 H2]; [lia|]. split; [done|]. rewrite Hb. cbn [default].
    split; [cbn; lia|]. rewrite Ha. destruct (0 <? s) eqn:E; [cbn [from_option id]; nia|].
    cbn [from_option id]. nia.
Qed.

Lemma enc_sym_part e s :
  2 ^ 23 < rng e < 2 ^ 32 -> 0 <= val e < 2 ^ 32 -> sym_ok s -> is_range_sym s ->
  let '(r, a, b) := sym_part (rng e) s in
  enc_sym e s = ec_enc_normalize (set_range e (part (rng e) r a b).2 (u32 (val e + (part (rng e) r a b).1))).
Proof.
  intros HR Hv Hok Hs. pose proof (sym_part_ok (rng e) s ltac:(lia) Hok Hs) as Hp.
  destruct s as [fl fh ft|fl fh bits|v logp|s icdf ftb| | | |]; cbn [sym_ok] in Hok; try done;
    cbn [sym_part enc_sym fst snd] in *.
  - unfold ec_encode, celt_udiv. rewrite decide_False by lia. mred. f_equal.
    destruct (0 <? fl).
    + rewrite <- set_part_some by (done || lia). by replace (ft - fl - (ft - fh)) with (fh - fl) by lia.
    + by rewrite <- set_part_none by (done || lia).
  - unfold ec_encode_bin.
    assert (u32 (Z.shiftl 1 bits) = 2 ^ bits) as ->.
    { rewrite Z.shiftl_mul_pow2, Z.mul_1_l by lia. apply wrap_small.
      split; [lia|]. apply Z.pow_lt_mono_r; lia. }
    f_equal. destruct (0 <? fl).
    + rewrite <- set_part_some by (done || lia). by replace (2 ^ bits - fl - (2 ^ bits - fh)) with (fh - fl) by lia.
    + by rewrite <- set_part_none by (done || lia).
  - unfold ec_enc_bit_logp. f_equal. case_decide as E; destruct Hp as (H1 & _ & H2); unfold part; cbn [fst snd].
    + rewrite Z.add_0_r, (wrap_small 32 (val e)), Z.mul_1_r, (wrap_small 32) by lia. done.
    + rewrite (wrap_small 32 (rng e - _)) by lia. by rewrite Z.sub_0_r, Z.mul_1_r.
  - destruct Hok as (Hf & a & b & H0 & Ha & Hb & Hab & Hap & _). unfold ec_enc_icdf.
    rewrite decide_True, Hb by done. mred. cbn [default from_option id].
    rewrite Hb in Hp. cbn [default from_option id] in Hp. rewrite Ha in Hp |- *.
    assert (2 ^ ftb <= 2 ^ 16) as Hpow by (apply Z.pow_le_mono_r; lia).
    destruct (0 <? s) eqn:E; [apply Z.ltb_lt in E|apply Z.ltb_ge in E].
    + unfold icdf_at in Ha. rewrite decide_False in Ha by lia. rewrite Ha. mred.
      rewrite <- set_part_some by (done || lia). by rewrite (wrap_small 32 a) by lia.
    + rewrite <- set_part_none by (done || lia). by rewrite (wrap_small 32 b) by lia.
Qed.

(** ** Raw bits *)

Lemma out_byte_at_end_spec e W mid T v :
  layout e W mid T ->
  exists e' mid' T', out_byte_at_end e v = Some e' /\ layout e' W mid' T' /\ same_regs e e' /\
    ext e' = ext e /\ rem e' = rem e /\ offs e' = offs e /\
    (error e' = 0 -> error e = 0 /\ T' = u8 v :: T) /\
    (zlen W + 1 + zlen T <= storage e -> error e' = error e).
Proof.
  intros Hl. pose proof (layout_full _ _ _ _ Hl) as [Hsum Hst]. pose proof Hl as (Hb & Ho & He & Hs & Hlt & Hby).
  unfold out_byte_at_end, ec_write_byte_at_end. rewrite Hsum. destruct mid as [|m mid _] using rev_ind.
  - rewrite (proj2 (Z.leb_le _ _)) by (cbn in Hst; lia). mred.
    eexists _, [], T. split; [reflexivity|]. split_and!; try done; [by intros ?%lor_error|cbn in Hst; lia].
  - rewrite length_app in Hst. cbn [length] in Hst.
    rewrite (proj2 (Z.leb_gt _ _)) by lia.
    rewrite (wrap_small 32 (end_offs e + 1)), (wrap_small 32 (storage e - _)) by lia.
    assert (buf e = (W ++ mid) ++ m :: T) as Hb' by (rewrite Hb, <- !app_assoc; done).
    replace (storage e - (end_offs e + 1)) with (zlen (W ++ mid)) by (rewrite length_app; lia).
    rewrite Hb', put_byte_app. mred.
    eexists _, mid, (u8 v :: T). split; [reflexivity|]. split_and!; try done.
    + unfold layout. cbn [buf offs end_offs storage error set_error set_end_offs set_buf].
      rewrite <- app_assoc. split_and!; try done.
      * cbn [length]. lia.
      * rewrite Hst, !length_app. cbn [length]. lia.
      * rewrite Hb' in Hby. rewrite <- app_assoc in Hby. rewrite app_assoc in Hby |- *.
        by apply (bytes_replace _ m).
    + cbn [error set_error set_end_offs set_buf]. rewrite Z.lor_0_r. done.
    + intros _. apply Z.lor_0_r.
Qed.

(** The raw bits as a number: the bytes at the end, the last one first, then the
    window. *)
Definition raw (T : list Z) (window : Z) : Z := be_val T + window * 2 ^ (8 * zlen T).

Lemma raw_push T w : 0 <= w -> raw (u8 w :: T) (Z.shiftr w 8) = raw T w.
Proof.
  intros Hw. unfold raw. change (u8 w :: T) with ([u8 w] ++ T). rewrite be_val_app, be_val_single, length_app.
  cbn [length]. replace (8 * Z.of_nat (1 + length T)) with (8 + 8 * zlen T) by lia.
  rewrite Z.pow_add_r, Z.shiftr_div_pow2 by lia. unfold wrap. change (2 ^ 8) with 256.
  pose proof (Z.div_mod w 256). nia.
Qed.

Lemma flush_loop_spec fuel e W mid T w used :
  layout e W mid T -> 8 <= used <= 8 * Z.of_nat fuel -> 0 <= w < 2 ^ used ->
  exists e' w' used' mid' T', flush_loop fuel e w used = Some (e', w', used') /\ layout e' W mid' T' /\
    same_regs e e' /\ ext e' = ext e /\ rem e' = rem e /\ offs e' = offs e /\
    0 <= used' < 8 /\ 0 <= w' < 2 ^ used' /\
    (error e' = 0 -> error e = 0 /\ raw T' w' = raw T w /\ 8 * zlen T' + used' = 8 * zlen T + used) /\
    (error e = 0 -> 8 * zlen W + 8 * zlen T + used <= 8 * storage e + 7 -> error e' = 0).
Proof.
  revert e mid T w used. induction fuel as [|fuel IH]; intros e mid T w used Hl Hu Hw; [lia|].
  cbn [flush_loop]. change EC_SYM_MAX with 255. change EC_SYM_BITS with 8. rewrite land_255.
  destruct (out_byte_at_end_spec e W mid T (w mod 256) Hl)
    as (e1 & mid1 & T1 & -> & Hl1 & Hs1 & Hx1 & Hr1 & Ho1 & He1 & Hq1). mred. cbv zeta.
  assert (u8 (w mod 256) = u8 w) as Hu8 by (unfold wrap; change (2 ^ 8) with 256; apply Z.mod_mod; lia).
  assert (0 <= Z.shiftr w 8 < 2 ^ (used - 8)) as Hw'.
  { rewrite Z.shiftr_div_pow2 by lia. split; [apply Z.div_pos; lia|].
    apply Z.div_lt_upper_bound; [lia|]. rewrite <- Z.pow_add_r by lia. replace (8 + (used - 8)) with used by lia. lia. }
  destruct (8 <=? used - 8) eqn:E; [apply Z.leb_le in E|apply Z.leb_gt in E].
  - destruct (IH e1 mid1 T1 (Z.shiftr w 8) (used - 8) Hl1) as
      (e' & w' & used' & mid' & T' & -> & Hl' & Hs' & Hx' & Hr' & Ho' & Hu' & Hww & He' & Hq'); [lia|done|].
    exists e', w', used', mid', T'. split_and!; try done; try congruence; try lia.
    + by rewrite Hs1.
    + intros H. destruct (He' H) as (H1 & H2 & H3). destruct (He1 H1) as [H4 ->].
      rewrite Hu8 in H2, H3. rewrite raw_push in H2 by lia. cbn [length] in H3. split_and!; [done..|lia].
    + intros H Hroom. pose proof (Hq1 ltac:(lia)) as H1. rewrite H in H1. destruct (He1 H1) as [_ E1].
      apply Hq'; [done|]. destruct Hs1 as (_ & _ & _ & _ & _ & ->). rewrite E1. cbn [length]. lia.
  - eexists e1, _, _, mid1, T1. split; [reflexivity|]. split_and!; try done; try lia.
    + intros H. destruct (He1 H) as [H4 ->]. rewrite Hu8, raw_push by lia. cbn [length]. split_and!; [done..|lia].
Qed.

Lemma enc_bits_spec e W mid T v bits :
  enc_ok e W mid T -> 0 <= v < 2 ^ bits -> 1 <= bits <= 25 ->
  exists e' mid' T', ec_enc_bits e v bits = Some e' /\ enc_ok e' W mid' T' /\
    rng e' = rng e /\ val e' = val e /\ rem e' = rem e /\ ext e' = ext e /\
    nbits_total e' = nbits_total e + bits /\ storage e' = storage e /\
    (error e' = 0 -> error e = 0 /\
      raw T' (end_window e') = raw T (end_window e) + v * 2 ^ (8 * zlen T + nend_bits e) /\
      8 * zlen T' + nend_bits e' = 8 * zlen T + nend_bits e + bits) /\
    (error e = 0 -> 8 * zlen W + 8 * zlen T + nend_bits e <= 8 * storage e -> error e' = 0).
Proof.
  intros [Hl Hreg Hrng Hval Htop Hcar [Hnb Hwin]] Hv Hb. unfold ec_enc_bits. change EC_WINDOW_SIZE with 32.
  assert (exists e1 w1 used1 mid1 T1,
    (if 32 <? nend_bits e + bits then flush_loop 5 e (end_window e) (nend_bits e)
     else Some (e, end_window e, nend_bits e)) = Some (e1, w1, used1) /\ layout e1 W mid1 T1 /\
    same_regs e e1 /\ ext e1 = ext e /\ rem e1 = rem e /\
    0 <= used1 /\ used1 + bits <= 32 /\ 0 <= w1 < 2 ^ used1 /\
    (error e1 = 0 -> error e = 0 /\ raw T1 w1 = raw T (end_window e) /\
       8 * zlen T1 + used1 = 8 * zlen T + nend_bits e) /\
    (error e = 0 -> 8 * zlen W + 8 * zlen T + nend_bits e <= 8 * storage e -> error e1 = 0))
    as (e1 & w1 & used1 & mid1 & T1 & -> & Hl1 & Hs1 & Hx1 & Hr1 & Hu1 & Hu2 & Hw1 & He1 & Hq1).
  { destruct (32 <? nend_bits e + bits) eqn:E; [apply Z.ltb_lt in E|apply Z.ltb_ge in E].
    - destruct (flush_loop_spec 5 e W mid T (end_window e) (nend_bits e) Hl) as
        (e' & w' & used' & mid' & T' & Hf & G1 & G2 & G3 & G4 & _ & G5 & G6 & G7 & G8); [lia|done|].
      exists e', w', used', mid', T'. split_and!; try done; try lia.
    - exists e, (end_window e), (nend_bits e), mid, T. split_and!; try done; lia. }
  mred. destruct Hs1 as (S1 & S2 & S3 & S4 & S5 & S6).
  assert (v * 2 ^ used1 < 2 ^ (used1 + bits)) as Hlt.
  { rewrite Z.add_comm, Z.pow_add_r by lia. nia. }
  assert (2 ^ (used1 + bits) <= 2 ^ 32) by (apply Z.pow_le_mono_r; lia).
  assert (Z.lor w1 (u32 (Z.shiftl v used1)) = v * 2 ^ used1 + w1) as ->.
  { rewrite Z.shiftl_mul_pow2 by lia. rewrite (wrap_small 32) by nia.
    rewrite Z.lor_comm. apply lor_pow2; lia. }
  eexists _, mid1, T1. split; [reflexivity|].
  split; [split|]; cbn [rng val rem ext nbits_total nend_bits end_window error storage set_nbits_total set_end];
    rewrite ?S1, ?S2, ?S3, ?S6, ?Hr1, ?Hx1; try done.
  - destruct Hreg. split; cbn; congruence.
  - split; [lia|]. rewrite (Z.add_comm used1 bits), Z.pow_add_r by lia. nia.
  - split_and!; try done. intros Herr. destruct (He1 Herr) as (E1 & E2 & E3). split; [done|].
    rewrite <- E2, <- E3. unfold raw. rewrite Z.pow_add_r by lia. split; [ring|lia].
Qed.
