(* ===== verification/EntDecFacts.v ===== *)
(** * What the range decoder computes

    The buffer read from the front is a binary fraction, and so is the buffer read
    from the end; the decoder keeps the distance of the first one from the top of the
    current interval in [val], and a window of the second one. *)

From S2P Require Import Prelude EntCode EntDec EntEncFacts.

(** ** The two readings of a buffer *)

Definition byte_at (b : list Z) (i : nat) : Z := default 0 (b !! i).

(** The first [n] bytes, with zeros behind the end. *)
Fixpoint stream (b : list Z) (n : nat) : Z :=
  match n with
  | O => 0
  | S n => stream b n * 256 + byte_at b n
  end.

Lemma byte_at_byte b i : is_bytes b -> 0 <= byte_at b i < 256.
Proof.
  intros Hb. unfold byte_at. destruct (b !! i) as [x|] eqn:E; [|done].
  by apply (Forall_lookup_1 _ _ _ _ Hb E).
Qed.

Lemma stream_nonneg b n : is_bytes b -> 0 <= stream b n.
Proof.
  intros Hb. induction n as [|n IH]; cbn [stream]; [lia|]. pose proof (byte_at_byte b n Hb). lia.
Qed.

(** Reading on only adds digits. *)
Lemma stream_add b n k : is_bytes b -> stream b (n + k) / 256 ^ Z.of_nat k = stream b n.
Proof.
  intros Hb. induction k as [|k IH].
  - by rewrite Nat.add_0_r, Z.div_1_r.
  - rewrite Nat.add_succ_r, Nat2Z.inj_succ, Z.pow_succ_r, <- Z.div_div by lia. cbn [stream].
    pose proof (byte_at_byte b (n + k) Hb). rewrite <- IH. f_equal. zlia.
Qed.

Lemma stream_prefix b c n : (n <= length b)%nat -> stream (b ++ c) n = stream b n.
Proof.
  induction n as [|n IH]; intros Hn; cbn [stream]; [done|].
  rewrite IH by lia. unfold byte_at. by rewrite lookup_app_l by lia.
Qed.

Lemma stream_be b : stream b (length b) = be_val b.
Proof.
  induction b as [|x b IH] using rev_ind; [done|].
  rewrite length_app, Nat.add_1_r. cbn [stream]. rewrite stream_prefix, IH, be_val_snoc by lia.
  unfold byte_at. by rewrite lookup_app_r, Nat.sub_diag by lia.
Qed.

(** Byte [r] from the end, as a digit of the whole buffer. *)
Lemma be_val_digit b r :
  is_bytes b -> 0 <= r ->
  be_val b / 2 ^ (8 * r) mod 256 = if decide (r < zlen b) then byte_at b (Z.to_nat (zlen b - (r + 1))) else 0.
Proof.
  intros Hb Hr. case_decide as E.
  - rewrite <- (take_drop_middle b (Z.to_nat (zlen b - (r + 1))) (byte_at b (Z.to_nat (zlen b - (r + 1))))) at 1.
    2: { unfold byte_at. destruct (lookup_lt_is_Some_2 b (Z.to_nat (zlen b - (r + 1)))) as [x ->]; [lia|done]. }
    set (p := take _ b). set (x := byte_at b _). set (t := drop _ b).
    assert (zlen t = r) as Ht by (subst t; rewrite length_drop; lia).
    change (x :: t) with ([x] ++ t). rewrite app_assoc, be_val_app, be_val_snoc, Ht.
    pose proof (be_val_range t ltac:(by apply Forall_drop)) as Hbt. rewrite Ht in Hbt.
    rewrite Z.div_add_l, (Z.div_small (be_val t)) by lia.
    pose proof (byte_at_byte b (Z.to_nat (zlen b - (r + 1))) Hb). fold x in H. zlia.
  - rewrite Z.div_small; [done|]. pose proof (be_val_range b Hb).
    assert (2 ^ (8 * zlen b) <= 2 ^ (8 * r)) by (apply Z.pow_le_mono_r; lia). lia.
Qed.

(** ** The state of the decoder

    It has read [n] bytes from the front, the interval starts at [lw], and [m] raw bits
    have been taken. *)

Definition raw_at (b : list Z) (d : ec_ctx) (m : Z) : Prop :=
  0 <= m /\ 0 <= nend_bits d <= 32 /\ end_window d = be_val b / 2 ^ m mod 2 ^ nend_bits d /\
  exists r, 0 <= r /\ end_offs d = Z.min r (zlen b) /\ m + nend_bits d = 8 * r.

Record dec_at (b : list Z) (d : ec_ctx) (n : nat) (lw m : Z) : Prop := {
  da_buf : buf d = b;
  da_storage : storage d = zlen b;
  da_small : zlen b < 2 ^ 32;
  da_bytes : is_bytes b;
  da_offs : offs d = Z.min (Z.of_nat n) (zlen b);
  da_rem : exists n', n = S n' /\ rem d = byte_at b n';
  da_rng : 1 <= rng d <= 2 ^ 31;
  da_val : val d = lw + rng d - 1 - stream b n / 2;
  da_in : 0 <= val d < rng d;
  da_raw : raw_at b d m
}.

Lemma read_byte_spec b d n :
  buf d = b -> storage d = zlen b -> zlen b < 2 ^ 32 -> offs d = Z.min (Z.of_nat n) (zlen b) ->
  ec_read_byte d = Some (byte_at b n, set_offs d (Z.min (Z.of_nat (S n)) (zlen b))).
Proof.
  intros Hb Hs Hlt Ho. unfold ec_read_byte. rewrite Hs, Ho.
  destruct (Z.min (Z.of_nat n) (zlen b) <? zlen b) eqn:E; [apply Z.ltb_lt in E|apply Z.ltb_ge in E].
  - replace (Z.min (Z.of_nat n) (zlen b)) with (Z.of_nat n) by lia.
    destruct (lookup_lt_is_Some_2 b n) as [x Hx]; [lia|].
    rewrite Nat2Z.id, Hb, Hx. mred. unfold byte_at. rewrite Hx. do 3 f_equal.
    rewrite wrap_small by lia. lia.
  - unfold byte_at. rewrite (lookup_ge_None_2 b n) by lia. do 2 f_equal.
    destruct d; cbn in *; subst. unfold set_offs. cbn. f_equal. lia.
Qed.

Lemma read_end_spec b d r :
  is_bytes b -> buf d = b -> storage d = zlen b -> zlen b < 2 ^ 32 -> 0 <= r -> end_offs d = Z.min r (zlen b) ->
  ec_read_byte_from_end d = Some (be_val b / 2 ^ (8 * r) mod 256, set_end_offs d (Z.min (r + 1) (zlen b))).
Proof.
  intros Hby Hb Hs Hlt Hr Ho. unfold ec_read_byte_from_end. rewrite Hs, Ho, be_val_digit by done.
  destruct (Z.min r (zlen b) <? zlen b) eqn:E; [apply Z.ltb_lt in E|apply Z.ltb_ge in E].
  - replace (Z.min r (zlen b)) with r by lia. rewrite decide_True, Hb by lia.
    destruct (lookup_lt_is_Some_2 b (Z.to_nat (zlen b - (r + 1)))) as [x Hx]; [lia|].
    rewrite Hx. mred. unfold byte_at. rewrite Hx. do 3 f_equal. rewrite wrap_small by lia. lia.
  - rewrite decide_False by lia. do 2 f_equal. destruct d; cbn in *; subst. unfold set_end_offs. cbn. f_equal. lia.
Qed.

(** ** Normalisation *)

Lemma land_lnot_255 s : Z.land 255 (Z.lnot s) = 255 - s mod 256.
Proof. rewrite Z.land_comm, land_255. unfold Z.lnot. zlia. Qed.

Lemma dec_normalize_loop_spec fuel b d n lw m :
  dec_at b d n lw m -> (rounds (rng d) <= fuel)%nat ->
  exists d', dec_normalize_loop fuel d = Some d' /\ 2 ^ 23 < rng d' /\
    let k := rounds (rng d) in
    dec_at b d' (n + k) (256 ^ Z.of_nat k * lw) m /\
    rng d' = 256 ^ Z.of_nat k * rng d /\ nbits_total d' = nbits_total d + 8 * Z.of_nat k /\
    ext d' = ext d /\ error d' = error d.
Proof.
  revert d n lw. induction fuel as [|fuel IH]; intros d n lw Hd Hf; cbn [dec_normalize_loop];
    change EC_CODE_BOT with (2 ^ 23);
    (destruct (rng d <=? 2 ^ 23) eqn:E; [apply Z.leb_le in E|apply Z.leb_gt in E]).
  2,4: exists d; rewrite (proj2 (rounds_0 _) E), Nat.add_0_r, !Z.mul_1_l; split_and!; (done || lia).
  { destruct Hd as [_ _ _ _ _ _ [Hr _] _ _ _]. rewrite (rounds_S (rng d)) in Hf by lia. lia. }
  destruct Hd as [Hb Hs Hlt Hby Ho (n' & Hn & Hrem) Hrng Hval Hin Hraw].
  change (2 ^ 23) with 8388608 in *. change (2 ^ 31) with 2147483648 in *. change (2 ^ 32) with 4294967296 in *.
  rewrite (rounds_S (rng d)) by (change (2 ^ 23) with 8388608; lia). cbv zeta.
  change EC_SYM_BITS with 8. change EC_CODE_EXTRA with 7. change EC_SYM_MAX with 255. change (8 - 7) with 1.
  rewrite (read_byte_spec b (set_nbits_total d (nbits_total d + 8)) n) by done. mred.
  cbn [rem rng val set_rem set_offs set_nbits_total].
  pose proof (byte_at_byte b n Hby) as Hx. pose proof (byte_at_byte b n' Hby) as Hy.
  rewrite Hrem. rewrite (Z.shiftl_mul_pow2 (byte_at b n')), lor_pow2 by lia.
  rewrite land_lnot_255, (Z.shiftr_div_pow2 _ 1), !Z.shiftl_mul_pow2 by lia.
  change (2 ^ 8) with 256. change (2 ^ 1) with 2. set (s := (byte_at b n' * 256 + byte_at b n) / 2 mod 256).
  assert (0 <= s < 256) as Hs256 by (apply Z.mod_pos_bound; lia).
  assert (stream b (S n) / 2 = stream b n / 2 * 256 + s) as Hstream.
  { subst n s. cbn [stream]. zlia. }
  assert (Z.land (u32 (u32 (val d * 256) + (255 - s))) (EC_CODE_TOP - 1) = val d * 256 + (255 - s)) as ->.
  { rewrite (wrap_small 32 (val d * 256)) by (change (2 ^ 32) with 4294967296; lia).
    rewrite wrap_small by (change (2 ^ 32) with 4294967296; lia).
    change (EC_CODE_TOP - 1) with (Z.ones 31). rewrite Z.land_ones by lia. apply Z.mod_small.
    change (2 ^ 31) with 2147483648. lia. }
  rewrite (wrap_small 32 (rng d * 256)) by (change (2 ^ 32) with 4294967296; lia).
  match goal with |- context [dec_normalize_loop fuel ?x] => set (d2 := x) end.
  destruct (IH d2 (S n) (256 * lw)) as (d' & -> & Hr' & Hd' & Hrd & Hnb & Hx' & He').
  - split; try done; cbn [rng val rem d2 set_range set_rem set_offs set_nbits_total].
    + by exists n.
    + change (2 ^ 31) with 2147483648. lia.
    + rewrite Hstream. lia.
    + lia.
  - cbn [rng d2 set_range]. rewrite (rounds_S (rng d)) in Hf by (change (2 ^ 23) with 8388608; lia).
    rewrite Z.mul_comm. lia.
  - cbn [rng nbits_total ext error d2 set_range set_rem set_offs set_nbits_total] in Hd', Hrd, Hnb, Hx', He'.
    rewrite (Z.mul_comm (rng d)) in Hd', Hrd, Hnb.
    exists d'. split; [done|]. split; [done|]. rewrite Nat2Z.inj_succ, Z.pow_succ_r by lia.
    split_and!; try done; try lia.
    replace (n + S (rounds (256 * rng d)))%nat with (S n + rounds (256 * rng d))%nat by lia.
    by replace (256 * 256 ^ Z.of_nat (rounds (256 * rng d)) * lw) with (256 ^ Z.of_nat (rounds (256 * rng d)) * (256 * lw)) by lia.
Qed.

Lemma dec_init_spec b :
  is_bytes b -> zlen b < 2 ^ 32 ->
  exists d, ec_dec_init b (zlen b) = Some d /\ dec_at b d 4 0 0 /\ rng d = 2 ^ 31 /\ nbits_total d = 33 /\ error d = 0.
Proof.
  intros Hb Hlt. unfold ec_dec_init.
  rewrite (read_byte_spec b _ 0) by (done || cbn; lia). mred.
  set (d1 := set_range _ _ _).
  assert (stream b 1 = byte_at b 0) as Hs by done. pose proof (byte_at_byte b 0 Hb) as Hx.
  assert (val d1 = 127 - byte_at b 0 / 2) as Hv.
  { cbn [val d1 set_range set_rem rem rng set_offs]. change (Z.shiftl 1 EC_CODE_EXTRA) with 128.
    change (EC_SYM_BITS - EC_CODE_EXTRA) with 1. rewrite Z.shiftr_div_pow2 by lia. change (2 ^ 1) with 2.
    rewrite wrap_small; [lia|]. change (2 ^ 32) with 4294967296. zlia. }
  destruct (dec_normalize_loop_spec 3 b d1 1 0 0) as (d & Hrun & _ & Hd & Hr & Hn & _ & He).
  - split; try done; try (rewrite Hv; change (rng d1) with 128; rewrite ?Hs; zlia).
    + by exists 0%nat.
    + split; [lia|]. change (nend_bits d1) with 0. split; [lia|]. rewrite Z.mod_1_r. split; [done|].
      exists 0. split; [lia|]. split; [cbn; lia|lia].
  - apply rounds_le.
  - change (rounds (rng d1)) with 3%nat in *. exists d. split; [exact Hrun|]. rewrite Z.mul_0_r in Hd.
    split; [done|]. by rewrite Hr, Hn, He.
Qed.

(** Narrowing the interval to a part that holds the fraction. *)
Lemma dec_narrow b d n lw m d0 r x :
  dec_at b d n lw m -> 0 <= d0 -> 1 <= r -> d0 + r <= rng d ->
  lw + d0 <= stream b n / 2 < lw + d0 + r ->
  exists d', ec_dec_normalize (set_range (set_ext d x) r (val d - (rng d - d0 - r))) = Some d' /\
    let k := rounds r in
    dec_at b d' (n + k) (256 ^ Z.of_nat k * (lw + d0)) m /\
    rng d' = 256 ^ Z.of_nat k * r /\ nbits_total d' = nbits_total d + 8 * Z.of_nat k /\ error d' = error d.
Proof.
  intros [Hb Hs Hlt Hby Ho Hrem Hrng Hval Hin Hraw] Hd0 Hr Hdr HX.
  destruct (dec_normalize_loop_spec 3 b (set_range (set_ext d x) r (val d - (rng d - d0 - r))) n (lw + d0) m)
    as (d' & Hrun & _ & Hd & Hrd & Hn & _ & He).
  - split; try done; cbn [rng val rem set_range set_ext]; lia.
  - apply rounds_le.
  - by exists d'.
Qed.

(** ** Raw bits *)

Lemma mod_pow2_add x a c : 0 <= a -> 0 <= c -> x mod 2 ^ (a + c) = x mod 2 ^ a + 2 ^ a * ((x / 2 ^ a) mod 2 ^ c).
Proof. intros. rewrite Z.pow_add_r by lia. apply Z.rem_mul_r; lia. Qed.

Lemma fill_loop_spec fuel b d m w avail r :
  is_bytes b -> buf d = b -> storage d = zlen b -> zlen b < 2 ^ 32 -> end_offs d = Z.min r (zlen b) ->
  0 <= m -> 0 <= avail <= 24 -> m + avail = 8 * r -> w = be_val b / 2 ^ m mod 2 ^ avail ->
  25 <= avail + 8 * Z.of_nat fuel ->
  exists avail' r', 25 <= avail' <= 32 /\ m + avail' = 8 * r' /\ 0 <= r' /\
    fill_loop fuel d w avail
    = Some (set_end_offs d (Z.min r' (zlen b)), be_val b / 2 ^ m mod 2 ^ avail', avail').
Proof.
  revert d w avail r. induction fuel as [|fuel IH]; intros d w avail r Hby Hb Hs Hlt Ho Hm Ha Hr Hw Hf; [lia|].
  cbn [fill_loop]. rewrite (read_end_spec b d r) by (done || lia). mred. cbv zeta.
  change (EC_WINDOW_SIZE - EC_SYM_BITS) with 24. change EC_SYM_BITS with 8.
  assert (be_val b / 2 ^ (8 * r) = be_val b / 2 ^ m / 2 ^ avail) as Hdiv.
  { rewrite Z.div_div, <- Z.pow_add_r by lia. by rewrite Hr. }
  assert (0 <= w < 2 ^ avail) as Hwr by (rewrite Hw; apply Z.mod_pos_bound; lia).
  assert (Z.lor w (u32 (Z.shiftl (be_val b / 2 ^ (8 * r) mod 256) avail)) = be_val b / 2 ^ m mod 2 ^ (avail + 8)) as ->.
  { rewrite mod_pow2_add, <- Hdiv, <- Hw, Z.shiftl_mul_pow2 by lia. change (2 ^ 8) with 256.
    set (x := be_val b / 2 ^ (8 * r) mod 256). assert (0 <= x < 256) by (apply Z.mod_pos_bound; lia).
    assert (2 ^ avail <= 2 ^ 24) by (apply Z.pow_le_mono_r; lia).
    change (2 ^ 24) with 16777216 in *. rewrite wrap_small by (change (2 ^ 32) with 4294967296; nia).
    rewrite Z.lor_comm, lor_pow2 by lia. lia. }
  destruct (avail + 8 <=? 24) eqn:E; [apply Z.leb_le in E|apply Z.leb_gt in E].
  - destruct (IH (set_end_offs d (Z.min (r + 1) (zlen b))) (be_val b / 2 ^ m mod 2 ^ (avail + 8)) (avail + 8) (r + 1))
      as (avail' & r' & H1 & H2 & H3 & ->); try done; try lia.
    by exists avail', r'.
  - exists (avail + 8), (r + 1). split; [lia|]. split; [lia|]. split; [lia|]. done.
Qed.

Lemma raw_take b d m w avail bits r :
  0 <= m -> 0 <= bits <= avail -> avail <= 32 -> m + avail = 8 * r -> 0 <= r ->
  w = be_val b / 2 ^ m mod 2 ^ avail -> end_offs d = Z.min r (zlen b) ->
  raw_at b (set_end d (Z.shiftr w bits) (avail - bits)) (m + bits).
Proof.
  intros Hm Hbits Ha Hr Hr0 -> He. split; [lia|]. cbn [nend_bits end_window end_offs set_end].
  split; [lia|]. split; [|exists r; split_and!; (done || lia)].
  rewrite Z.shiftr_div_pow2, Z.pow_add_r, <- Z.div_div by lia.
  replace avail with (bits + (avail - bits)) at 1 by lia.
  rewrite mod_pow2_add, Z.mul_comm, Z.div_add, Z.div_small by (lia || apply Z.mod_pos_bound; lia). lia.
Qed.

Lemma dec_bits_spec b d n lw m bits :
  dec_at b d n lw m -> 1 <= bits <= 25 ->
  exists d', ec_dec_bits d bits = Some (be_val b / 2 ^ m mod 2 ^ bits, d') /\
    dec_at b d' n lw (m + bits) /\
    rng d' = rng d /\ nbits_total d' = nbits_total d + bits /\ error d' = error d.
Proof.
  intros [Hb Hs Hlt Hby Ho Hrem Hrng Hval Hin (Hm & Hnb & Hw & r & Hr0 & Heo & Hr)] Hbits. unfold ec_dec_bits.
  assert (exists avail' r', bits <= avail' <= 32 /\ m + avail' = 8 * r' /\ 0 <= r' /\
    (if nend_bits d <? bits then fill_loop 4 d (end_window d) (nend_bits d)
     else Some (d, end_window d, nend_bits d))
    = Some (set_end_offs d (Z.min r' (zlen b)), be_val b / 2 ^ m mod 2 ^ avail', avail'))
    as (avail & r' & Ha & Hr' & Hr0' & ->).
  { destruct (nend_bits d <? bits) eqn:E; [apply Z.ltb_lt in E|apply Z.ltb_ge in E].
    - destruct (fill_loop_spec 4 b d m (end_window d) (nend_bits d) r) as (avail & r' & H1 & H2 & H3 & ->); try done; try lia.
      exists avail, r'. split_and!; (done || lia).
    - exists (nend_bits d), r. split_and!; try (done || lia). rewrite <- Hw.
      rewrite <- Heo. by destruct d. }
  mred. eexists. split.
  - do 2 f_equal.
    assert (2 ^ bits <= 2 ^ 25) by (apply Z.pow_le_mono_r; lia). change (2 ^ 25) with 33554432 in *.
    rewrite Z.shiftl_mul_pow2, Z.mul_1_l by lia. rewrite wrap_small by (change (2 ^ 32) with 4294967296; lia).
    replace (2 ^ bits - 1) with (Z.ones bits) by (rewrite Z.ones_equiv; lia). rewrite Z.land_ones by lia.
    replace avail with (bits + (avail - bits)) by lia. rewrite mod_pow2_add, Z.mul_comm, Z_mod_plus_full by lia.
    apply Z.mod_mod. lia.
  - split; [|by split_and!]. split; try done.
    apply (raw_take b (set_end_offs d (Z.min r' (zlen b))) m _ avail bits r'); (done || lia).
Qed.
