(* ===== verification/EntCoder.v ===== *)
(** * The decoder follows the encoder

    Each symbol the encoder emits narrows the interval in the way the decoder expects,
    so a buffer whose fraction lies in the encoder's last interval is decoded to the
    symbols that were encoded. *)

From S2P Require Import Prelude EntCode EntEnc EntDec Laplace EntEncFacts EntDecFacts.

(** ** The client of the decoder

    It knows which kind of symbol comes next, with the frequencies; after [ec_decode] it
    looks up the symbol whose frequencies enclose the value, and there must be one. *)

Definition dec_sym (d : ec_ctx) (s : sym) : option (Z * ec_ctx) :=
  match s with
  | SEncode fl fh ft =>
    '(v, d) ← ec_decode d ft;
    if decide (fl <= v < fh) then d ← ec_dec_update d fl fh ft; Some (v, d) else None
  | SBin fl fh bits =>
    '(v, d) ← ec_decode_bin d bits;
    if decide (fl <= v < fh) then d ← ec_dec_update d fl fh (2 ^ bits); Some (v, d) else None
  | SBit _ logp => ec_dec_bit_logp d logp
  | SIcdf _ icdf ftb => ec_dec_icdf d icdf ftb
  | SUint _ ft => ec_dec_uint d ft
  | SBits _ bits => ec_dec_bits d bits
  | SLaplace _ fs decay => ec_laplace_decode d fs decay
  | SLaplaceP0 v p0 decay => ec_laplace_decode_p0 (Z.to_nat (Z.abs v)) d p0 decay
  end.

(** The value the client sees.  For a Laplace symbol it is the one the encoder left in
    its argument. *)
Definition decoded (s : sym) (v : Z) : Prop :=
  match s with
  | SEncode fl fh _ | SBin fl fh _ => fl <= v < fh
  | SBit x _ => v = nonzero x
  | SIcdf x _ _ | SUint x _ | SBits x _ | SLaplaceP0 x _ _ => v = x
  | SLaplace x fs decay => exists fl len, laplace_interval x fs decay = Some (fl, len, v)
  end.

Fixpoint enc_all (e : ec_ctx) (ss : list sym) : option ec_ctx :=
  match ss with
  | [] => Some e
  | s :: ss => e ← enc_sym e s; enc_all e ss
  end.

Fixpoint dec_all (d : ec_ctx) (ss : list sym) : option (list Z * ec_ctx) :=
  match ss with
  | [] => Some ([], d)
  | s :: ss => '(v, d) ← dec_sym d s; '(vs, d) ← dec_all d ss; Some (v :: vs, d)
  end.

(** ** One symbol of the range coder *)

Lemma EC_MINI_min a b : 0 <= a < 2 ^ 32 -> 0 <= b < 2 ^ 32 -> EC_MINI a b = Z.min a b.
Proof.
  intros Ha Hb. unfold EC_MINI. case_decide as E.
  - change (u32 (- (1))) with (Z.ones 32). rewrite Z.land_ones by lia. rewrite Z.min_r by lia.
    rewrite (Z.mod_small (u32 _)) by (apply wrap_range; lia). unfold wrap.
    rewrite Zplus_mod_idemp_r. replace (a + (b - a)) with b by lia. by apply Z.mod_small.
  - change (u32 (- 0)) with 0. rewrite Z.land_0_r, Z.add_0_r, Z.min_l by lia. by apply wrap_small.
Qed.

(** The quotient names the unit, counted from the top. *)
Lemma decode_unit r v fl fh ft :
  1 <= r -> 0 <= v < 2 ^ 31 -> 0 <= fl < fh -> fh <= ft < 2 ^ 31 ->
  r * (ft - fh) <= v -> (0 < fl -> v < r * (ft - fl)) ->
  fl <= u32 (ft - EC_MINI (u32 (v / r + 1)) ft) < fh.
Proof.
  intros Hr Hv Hfl Hfh Hlo Hhi. change (2 ^ 31) with 2147483648 in *.
  assert (ft - fh <= v / r) as H1 by (apply Z.div_le_lower_bound; lia).
  assert (0 <= v / r <= v) as H2.
  { split; [apply Z.div_pos; lia|]. apply Z.div_le_upper_bound; nia. }
  assert (0 < fl -> v / r < ft - fl) as H3 by (intros; apply Z.div_lt_upper_bound; [lia|auto]).
  rewrite (wrap_small 32 (v / r + 1)), EC_MINI_min, wrap_small by (change (2 ^ 32) with 4294967296; lia). lia.
Qed.

Lemma icdf_search_spec r d t (icdf : list Z) (n : nat) (i bound b : Z) :
  icdf !! n = Some b -> Forall (fun x => 0 <= x <= bound /\ d < r * x) (take n icdf) -> r * b <= d ->
  0 <= r -> 0 <= b <= bound -> r * bound < 2 ^ 32 ->
  icdf_search r d t i icdf
  = Some (i + Z.of_nat n,
          match n with O => t | S m => r * default 0 (icdf !! m) end, r * b).
Proof.
  intros Hn Hall Hb Hr Hbb Hbound. revert n i t Hn Hall. induction icdf as [|x icdf IH]; intros n i t Hn Hall; [done|].
  cbn [icdf_search]. unfold IMUL32. destruct n as [|n]; cbn [lookup list_lookup take] in *.
  - injection Hn as ->. rewrite wrap_small by nia. rewrite (proj2 (Z.ltb_ge _ _)) by lia. do 3 f_equal. lia.
  - apply Forall_cons_1 in Hall as [[Hx Hdx] Hall]. rewrite (wrap_small 32) by nia.
    rewrite (proj2 (Z.ltb_lt _ _)) by lia. rewrite (IH n) by done.
    replace (i + 1 + Z.of_nat n) with (i + Z.of_nat (S n)) by lia. by destruct n.
Qed.

Lemma set_ext_id d : set_ext d (ext d) = d.
Proof. by destruct d. Qed.

(** [ec_dec_update] keeps the part that was named. *)
Lemma dec_update_part d r fl fh ft :
  let a := if 0 <? fl then Some (ft - fl) else None in
  part_ok (rng d) r a (ft - fh) -> 0 <= fl < fh -> fh <= ft < 2 ^ 31 -> rng d <= 2 ^ 31 ->
  r * (ft - fh) <= val d < 2 ^ 31 ->
  ec_dec_update (set_ext d r) fl fh ft
  = ec_dec_normalize (set_range (set_ext d r) (part (rng d) r a (ft - fh)).2 (val d - r * (ft - fh))).
Proof.
  intros a Hp Hfl Hfh HR Hv. unfold ec_dec_update, IMUL32. cbn [ext rng val set_ext].
  change (2 ^ 31) with 2147483648 in *. destruct Hp as (Hr & Hb & Hp).
  rewrite (wrap_small 32 (ft - fh)) by (change (2 ^ 32) with 4294967296; lia).
  assert (0 <= r * (ft - fh)) by nia.
  rewrite (wrap_small 32 (r * (ft - fh))) by (change (2 ^ 32) with 4294967296; lia).
  rewrite (wrap_small 32 (val d - _)) by (change (2 ^ 32) with 4294967296; lia).
  f_equal. f_equal. subst a. destruct (0 <? fl) eqn:E; cbn [part snd].
  - apply Z.ltb_lt in E. rewrite (wrap_small 32 (fh - fl)) by (change (2 ^ 32) with 4294967296; lia).
    rewrite wrap_small by (change (2 ^ 32) with 4294967296; nia). f_equal. lia.
  - rewrite wrap_small by (change (2 ^ 32) with 4294967296; nia). done.
Qed.

(** What [dec_sym] does when the value is in the part of the symbol. *)
Definition decodes_part (d : ec_ctx) (s : sym) (r b : Z) (len : Z) : Prop :=
  exists v x, decoded s v /\
    dec_sym d s = (d' ← ec_dec_normalize (set_range (set_ext d x) len (val d - r * b)); Some (v, d')).

Lemma decodes_freq d s r fl fh ft :
  let a := if 0 <? fl then Some (ft - fl) else None in
  (forall v, decoded s v <-> fl <= v < fh) ->
  dec_sym d s = (let v := u32 (ft - EC_MINI (u32 (val d / r + 1)) ft) in
                 if decide (fl <= v < fh) then d ← ec_dec_update (set_ext d r) fl fh ft; Some (v, d) else None) ->
  part_ok (rng d) r a (ft - fh) -> 0 <= fl < fh -> fh <= ft < 2 ^ 31 -> rng d <= 2 ^ 31 -> 0 <= val d < rng d ->
  r * (ft - fh) <= val d < rng d - (part (rng d) r a (ft - fh)).1 ->
  decodes_part d s r (ft - fh) (part (rng d) r a (ft - fh)).2.
Proof.
  intros a Hdec Heq Hp Hfl Hfh HR Hv Hin. pose proof Hp as (Hr & _ & Hp').
  assert (fl <= u32 (ft - EC_MINI (u32 (val d / r + 1)) ft) < fh) as Hval.
  { apply decode_unit; try done; try lia. intros E. subst a. rewrite (proj2 (Z.ltb_lt _ _) E) in Hin.
    cbn [part fst] in Hin. lia. }
  eexists _, r. split; [by apply Hdec|]. rewrite Heq. cbv zeta. rewrite decide_True by done.
  rewrite dec_update_part; (done || lia).
Qed.

Lemma dec_sym_part d s :
  2 ^ 23 < rng d <= 2 ^ 31 -> 0 <= val d < rng d -> sym_ok s -> is_range_sym s ->
  let '(r, a, b) := sym_part (rng d) s in
  r * b <= val d < rng d - (part (rng d) r a b).1 -> decodes_part d s r b (part (rng d) r a b).2.
Proof.
  intros HR Hv Hok Hs. pose proof (sym_part_ok (rng d) s ltac:(lia) Hok Hs) as Hp.
  destruct s as [fl fh ft|fl fh bits|v logp|s icdf ftb| | | |]; cbn [sym_ok] in Hok; try done;
    cbn [sym_part fst snd] in *; intros Hin.
  - apply decodes_freq; try done; try lia. cbn [dec_sym]. unfold ec_decode, celt_udiv. rewrite decide_False by lia.
    mred. cbn [ext val set_ext]. destruct Hp as (Hr & _). rewrite decide_False by lia. done.
  - assert (2 ^ bits <= 2 ^ 16) as Hp16 by (apply Z.pow_le_mono_r; lia). change (2 ^ 16) with 65536 in Hp16.
    apply decodes_freq; try done; try lia. cbn [dec_sym]. unfold ec_decode_bin, celt_udiv. cbn [ext val set_ext].
    destruct Hp as (Hr & _). rewrite decide_False by lia. mred. rewrite Z.shiftl_mul_pow2, Z.mul_1_l by lia.
    by rewrite (wrap_small 32 (2 ^ bits)) by (change (2 ^ 32) with 4294967296; lia).
  - destruct Hp as (Hr & _ & Hp). exists (nonzero v), (ext d). split; [done|]. rewrite set_ext_id.
    cbn [dec_sym]. unfold ec_dec_bit_logp, nonzero. set (u := Z.shiftr (rng d) logp) in *.
    case_decide as E; cbn [part fst snd] in *.
    + rewrite (proj2 (Z.ltb_ge _ _)) by lia. rewrite !wrap_small by lia. by rewrite !Z.mul_1_r.
    + rewrite (proj2 (Z.ltb_lt _ _)) by lia. by rewrite Z.sub_0_r, Z.mul_1_r, Z.mul_0_r, Z.sub_0_r.
  - destruct Hok as (Hf & a & b & H0 & Ha & Hb & Hab & Hap & Hall). rewrite Hb, Ha in *. cbn [default from_option id] in *.
    destruct (units_fit (rng d) (2 ^ ftb)) as [H1 H2]; [lia|split; [lia|apply Z.pow_le_mono_r with (c := 16); lia]|].
    rewrite <- Z.shiftr_div_pow2 in H1, H2 by lia. set (u := Z.shiftr (rng d) ftb) in *.
    exists s, (ext d). split; [done|]. rewrite set_ext_id. cbn [dec_sym]. unfold ec_dec_icdf. fold u.
    rewrite (icdf_search_spec u (val d) (rng d) icdf (Z.to_nat s) 0 (2 ^ ftb) b); try done; try lia.
    2: { destruct (0 <? s) eqn:E; [apply Z.ltb_lt in E|apply Z.ltb_ge in E].
         - cbn [part fst] in Hin. eapply Forall_impl; [|exact Hall]. cbn. intros x Hx. split; [lia|]. nia.
         - replace (Z.to_nat s) with 0%nat by lia. constructor. }
    mred. rewrite Z.add_0_l, Z2Nat.id by lia. unfold decodes_part.
    destruct (0 <? s) eqn:E; [apply Z.ltb_lt in E|apply Z.ltb_ge in E]; cbn [part fst snd] in *.
    + destruct (Z.to_nat s) as [|m] eqn:Em; [lia|]. unfold icdf_at in Ha. rewrite decide_False in Ha by lia.
      replace (Z.to_nat (s - 1)) with m in Ha by lia. rewrite Ha. cbn [default from_option id].
      rewrite !wrap_small by nia. by rewrite Z.mul_sub_distr_l.
    + replace (Z.to_nat s) with 0%nat by lia. by rewrite !wrap_small by nia.
Qed.

(** ** Encoder and decoder in step *)

Definition taken (e : ec_ctx) (T : list Z) : Z := 8 * zlen T + nend_bits e.
Definition position (e : ec_ctx) (W : list Z) : nat := length (digits e W) + 4.

(** The finished buffer [b] continues what the encoder has in state [e]. *)
Definition agrees (b : list Z) (e : ec_ctx) (W T : list Z) : Prop :=
  is_bytes b /\ low e W <= stream b (position e W) / 2 < low e W + rng e /\
  be_val b mod 2 ^ taken e T = raw T (end_window e).

Definition linked (b : list Z) (e : ec_ctx) (W T : list Z) (d : ec_ctx) : Prop :=
  dec_at b d (position e W) (low e W) (taken e T) /\ rng d = rng e /\ nbits_total d = nbits_total e.

(** The bits the encoder accounts for are those it holds. *)
Definition counted (e : ec_ctx) (W T : list Z) : Prop := nbits_total e = 33 + 8 * count e W + taken e T.

(** From [e] to [e'] the encoder has emitted what [dec] reads. *)
Definition emits {A} (e : ec_ctx) (W T : list Z) (e' : ec_ctx) (W' T' : list Z)
    (dec : ec_ctx -> option (A * ec_ctx)) (ok : A -> Prop) : Prop :=
  (error e' = 0 -> error e = 0 /\ (counted e W T -> counted e' W' T') /\
     forall b, agrees b e' W' T' -> agrees b e W T /\
       forall d, linked b e W T d -> exists x d', dec d = Some (x, d') /\ ok x /\ linked b e' W' T' d') /\
  (error e = 0 -> counted e W T -> nbits_total e' - 33 <= 8 * storage e -> error e' = 0) /\
  nbits_total e <= nbits_total e' /\ storage e' = storage e.

Lemma emits_bind {A B} e W T e1 W1 T1 e2 W2 T2
    (dec1 : ec_ctx -> option (A * ec_ctx)) (dec2 : ec_ctx -> option (B * ec_ctx)) ok1 ok2 :
  emits e W T e1 W1 T1 dec1 ok1 -> emits e1 W1 T1 e2 W2 T2 dec2 ok2 ->
  emits e W T e2 W2 T2 (fun d => '(x, d) ← dec1 d; '(y, d) ← dec2 d; Some ((x, y), d))
    (fun p => ok1 p.1 /\ ok2 p.2).
Proof.
  intros (H1 & Q1 & N1 & S1) (H2 & Q2 & N2 & S2). split; [|split; [|split; [lia|congruence]]].
  - intros He2. destruct (H2 He2) as (He1 & C2 & D2). destruct (H1 He1) as (He & C1 & D1).
    split; [done|]. split; [auto|]. intros b Hb. destruct (D2 b Hb) as [Hb1 L2]. destruct (D1 b Hb1) as [Hb0 L1].
    split; [done|]. intros d Hd. destruct (L1 d Hd) as (x & d1 & -> & Hx & Hd1).
    destruct (L2 d1 Hd1) as (y & d2 & Hrun & Hy & Hd2). mred. rewrite Hrun. mred. by exists (x, y), d2.
  - intros He Hc Hn. pose proof (Q1 He Hc ltac:(lia)) as He1. destruct (H1 He1) as (_ & C1 & _).
    apply Q2; auto. rewrite S1. lia.
Qed.

Lemma emits_weaken_linked {A B} e W T e' W' T' (dec : ec_ctx -> option (A * ec_ctx)) (dec' : ec_ctx -> option (B * ec_ctx))
    (f : A -> B) (ok : A -> Prop) (ok' : B -> Prop) :
  emits e W T e' W' T' dec ok ->
  (forall b d x d', linked b e W T d -> dec d = Some (x, d') -> ok x -> dec' d = Some (f x, d') /\ ok' (f x)) ->
  emits e W T e' W' T' dec' ok'.
Proof.
  intros (H & Q & N & S) Hf. split; [|by split_and!]. intros He'. destruct (H He') as (He & C & D).
  split; [done|]. split; [done|]. intros b Hb. destruct (D b Hb) as [Hb0 L]. split; [done|].
  intros d Hd. destruct (L d Hd) as (x & d' & Hrun & Hx & Hd'). destruct (Hf b d x d' Hd Hrun Hx). by exists (f x), d'.
Qed.

Lemma emits_weaken {A B} e W T e' W' T' (dec : ec_ctx -> option (A * ec_ctx)) (dec' : ec_ctx -> option (B * ec_ctx))
    (f : A -> B) (ok : A -> Prop) (ok' : B -> Prop) :
  emits e W T e' W' T' dec ok ->
  (forall d x d', dec d = Some (x, d') -> ok x -> dec' d = Some (f x, d') /\ ok' (f x)) ->
  emits e W T e' W' T' dec' ok'.
Proof. intros H Hf. eapply emits_weaken_linked; [exact H|]. intros b d x d' _. apply Hf. Qed.

Lemma emits_refl {A} (x : A) e W T : emits e W T e W T (fun d => Some (x, d)) (fun y => y = x).
Proof.
  split; [|split_and!; (done || lia)]. intros He. split; [done|]. split; [done|]. intros b Hb. split; [done|].
  intros d Hd. by exists x, d.
Qed.

(** ** A single step

    A symbol of the range coder takes the part from [d0] on of length [r]; raw bits take
    the whole interval and [bits] bits of value [v]. *)

Definition steps (e : ec_ctx) (W T : list Z) (e' : ec_ctx) (W' T' : list Z) (d0 r v bits : Z) : Prop :=
  let k := Z.of_nat (rounds r) in
  rng e' = 256 ^ k * r /\ nbits_total e' = nbits_total e + 8 * k + bits /\ storage e' = storage e /\
  (error e' = 0 -> error e = 0 /\ low e' W' = 256 ^ k * (low e W + d0) /\ count e' W' = count e W + k /\
     raw T' (end_window e') = raw T (end_window e) + v * 2 ^ taken e T /\ taken e' T' = taken e T + bits) /\
  (error e = 0 -> 8 * (count e W + k) + taken e T <= 8 * storage e -> error e' = 0).

Lemma raw_range e W mid T : enc_ok e W mid T -> 0 <= raw T (end_window e) < 2 ^ taken e T.
Proof.
  intros [(Hb & _ & _ & _ & _ & Hby) _ _ _ _ _ [Hn Hw]]. unfold raw, taken.
  rewrite Hb in Hby. apply Forall_app in Hby as [_ Hby]. apply Forall_app in Hby as [_ Hby].
  pose proof (be_val_range T Hby). rewrite Z.pow_add_r by lia. nia.
Qed.

Lemma steps_agrees b e W mid T e' W' T' d0 r v bits :
  enc_ok e W mid T -> steps e W T e' W' T' d0 r v bits -> error e' = 0 ->
  0 <= d0 -> d0 + r <= rng e -> 0 <= v < 2 ^ bits -> 0 <= bits ->
  agrees b e' W' T' ->
  agrees b e W T /\ low e W + d0 <= stream b (position e W) / 2 < low e W + d0 + r /\
  be_val b / 2 ^ taken e T mod 2 ^ bits = v.
Proof.
  intros Hok (Hr & _ & _ & He & _) He' Hd0 Hdr Hv Hbits (Hby & HX & Hraw).
  destruct (He He') as (_ & Hlow & Hcnt & Hraw' & Htak). set (k := rounds r) in *.
  assert (position e' W' = position e W + k)%nat as Hpos by (unfold position, count in *; lia).
  rewrite Hpos, Hlow, Hr in HX.
  assert (stream b (position e W) / 2 = stream b (position e W + k) / 2 / 256 ^ Z.of_nat k) as HXk.
  { rewrite Z.div_div, Z.mul_comm, <- Z.div_div by lia. by rewrite stream_add. }
  assert (low e W + d0 <= stream b (position e W) / 2 < low e W + d0 + r) as HX0.
  { rewrite HXk. split; [apply Z.div_le_lower_bound; lia|apply Z.div_lt_upper_bound; lia]. }
  pose proof (raw_range e W mid T Hok) as Hrr.
  assert (0 <= taken e T) by (unfold taken; destruct Hok as [_ _ _ _ _ _ [? _]]; lia).
  rewrite Htak, mod_pow2_add, Hraw' in Hraw by lia.
  set (M := 2 ^ taken e T) in *. assert (0 < M) by lia.
  pose proof (Z.mod_pos_bound (be_val b) M ltac:(lia)).
  pose proof (Z.mod_pos_bound (be_val b / M) (2 ^ bits) ltac:(lia)).
  assert (be_val b / M mod 2 ^ bits = v) as E by nia. rewrite E in Hraw.
  split; [|by split]. unfold agrees. fold M. split_and!; (done || lia).
Qed.

Lemma steps_emits e W mid T e' W' T' d0 r v bits (dec : ec_ctx -> option (Z * ec_ctx)) ok :
  enc_ok e W mid T -> steps e W T e' W' T' d0 r v bits ->
  0 <= d0 -> d0 + r <= rng e -> 0 <= v < 2 ^ bits -> 0 <= bits ->
  (forall b d, linked b e W T d -> low e W + d0 <= stream b (position e W) / 2 < low e W + d0 + r ->
     be_val b / 2 ^ taken e T mod 2 ^ bits = v ->
     exists x d', dec d = Some (x, d') /\ ok x /\
       let k := rounds r in
       dec_at b d' (position e W + k) (256 ^ Z.of_nat k * (low e W + d0)) (taken e T + bits) /\
       rng d' = 256 ^ Z.of_nat k * r /\ nbits_total d' = nbits_total d + 8 * Z.of_nat k + bits) ->
  emits e W T e' W' T' dec ok.
Proof.
  intros Hok Hst Hd0 Hdr Hv Hbits Hdec. pose proof Hst as (Hr & Hn & Hs & He & Hq).
  split; [|split; [|split; [lia|done]]].
  - intros He'. destruct (He He') as (He0 & Hlow & Hcnt & _ & Htak). split; [done|].
    split; [unfold counted; lia|]. intros b Hb.
    destruct (steps_agrees b e W mid T e' W' T' d0 r v bits) as (Hb0 & HX & Hval); try done.
    split; [done|]. intros d Hd. destruct (Hdec b d Hd HX Hval) as (x & d' & Hrun & Hx & Hd' & Hrd & Hnd).
    exists x, d'. split; [done|]. split; [done|]. destruct Hd as (_ & _ & Hnb).
    unfold linked. rewrite Hrd, Hnd, Hr, Hn, Hnb, Hlow, Htak.
    replace (position e' W') with (position e W + rounds r)%nat by (unfold position, count in *; lia).
    by split_and!.
  - unfold counted. intros He0 Hc Hle. apply Hq; [done|]. lia.
Qed.

Lemma narrow_steps e W T e' W' d r :
  normalized (set_range e r (val e + d)) W e' W' ->
  (error e = 0 -> count e W + Z.of_nat (rounds r) + zlen T <= storage e -> error e' = 0) -> 0 <= nend_bits e ->
  steps e W T e' W' T d r 0 0.
Proof.
  intros (H1 & H2 & (H3 & H4 & H5) & H6) Hq Hnb. cbn [rng nbits_total end_window nend_bits storage error set_range] in *.
  unfold steps. split; [done|]. split; [lia|]. split; [done|]. split.
  - intros He. destruct (H6 He) as (E1 & E2 & E3). split; [done|].
    split; [rewrite E2; unfold low; cbn [val set_range]; change (digits (set_range _ _ _) W) with (digits e W); lia|].
    split; [by rewrite E3|]. unfold taken. rewrite H3, H4. split; lia.
  - unfold taken. intros He Hle. apply Hq; [done|]. lia.
Qed.

(** An encoder ready for the next symbol. *)
Definition ready (e : ec_ctx) (W mid T : list Z) : Prop := enc_ok e W mid T /\ 2 ^ 23 < rng e.

Lemma emits_range e W mid T s :
  ready e W mid T -> sym_ok s -> is_range_sym s -> ext e + 3 < 2 ^ 32 ->
  exists e' W' mid', enc_sym e s = Some e' /\ ready e' W' mid' T /\ ext e' <= ext e + 3 /\
    emits e W T e' W' T (fun d => dec_sym d s) (decoded s).
Proof.
  intros [Hok Hrng] Hs Hrs Hx. pose proof Hok as [_ _ [_ HR] Hv Htop _ [Hnb _]].
  pose proof (sym_part_ok (rng e) s Hrng Hs Hrs) as Hp. pose proof (enc_sym_part e s) as Henc.
  destruct (sym_part (rng e) s) as [[r a] b] eqn:Epart. cbn [fst snd] in Hp.
  destruct (part_range _ _ _ _ Hp) as (P1 & P2 & P3). set (d0 := (part (rng e) r a b).1) in *. set (len := (part (rng e) r a b).2) in *.
  rewrite Henc by (done || lia).
  assert (0 <= r * b) by (destruct Hp as (? & ? & _); nia).
  destruct (narrow e W mid T d0 len Hok) as (e' & W' & mid' & Hrun & Hok' & Hr' & Hx' & Hn & Hq); try lia.
  exists e', W', mid'. split; [done|]. split; [done|]. split; [done|].
  apply (steps_emits e W mid T e' W' T d0 len 0 0); [done|apply narrow_steps; (done || lia)|lia|lia|done|done|].
  intros B d (Hd & Hrd & Hnd) HX _. pose proof (da_val _ _ _ _ _ Hd) as Hvd. pose proof (da_in _ _ _ _ _ Hd) as Hin.
  pose proof (dec_sym_part d s) as Hdec. rewrite Hrd, Epart in Hdec. fold d0 len in Hdec.
  destruct Hdec as (v & x & Hv' & Heq); try (done || lia).
  destruct (dec_narrow B d _ _ _ d0 len x Hd) as (d' & Hrund & Hd' & Hrd' & Hnd' & _); try lia.
  rewrite Hrd in Hrund. replace (rng e - d0 - len) with (r * b) in Hrund by lia.
  rewrite Hrund in Heq. exists v, d'. split; [exact Heq|]. split; [done|]. cbv zeta. rewrite !Z.add_0_r. by split_and!.
Qed.

Lemma emits_bits e W mid T v bits :
  ready e W mid T -> sym_ok (SBits v bits) ->
  exists e' mid' T', enc_sym e (SBits v bits) = Some e' /\ ready e' W mid' T' /\ ext e' = ext e /\
    emits e W T e' W T' (fun d => dec_sym d (SBits v bits)) (decoded (SBits v bits)).
Proof.
  intros [Hok Hrng] [Hv Hbits]. cbn [enc_sym].
  destruct (enc_bits_spec e W mid T v bits Hok Hv Hbits) as
    (e' & mid' & T' & Hrun & Hok' & Hr & Hvv & Hrem & Hx & Hn & Hs & He & Hq).
  assert (digits e' W = digits e W) as Hdig by (unfold digits, pending; by rewrite Hrem, Hx).
  assert (low e' W = low e W) as Hlow by (unfold low; by rewrite Hdig, Hvv).
  assert (count e' W = count e W) as Hcnt by (unfold count; by rewrite Hdig).
  exists e', mid', T'. split; [done|]. split; [split; [done|by rewrite Hr]|]. split; [done|].
  apply (steps_emits e W mid T e' W T' 0 (rng e) v bits); try done; try lia.
  - unfold steps. rewrite (proj2 (rounds_0 _) Hrng), Hr, Hn, Hlow, Hcnt, !Z.mul_1_l. cbn [Z.of_nat].
    split; [done|]. split; [lia|]. split; [done|]. split.
    + intros H0. destruct (He H0) as (E1 & E2 & E3). split_and!; try done; lia.
    + intros H0 Hle. apply Hq; [done|]. unfold taken, count in Hle.
      rewrite digits_length in Hle. destruct (0 <=? rem e); lia.
  - intros b d (Hd & Hrd & Hnd) _ Hval. destruct (dec_bits_spec b d _ _ _ bits Hd Hbits) as (d' & Hrund & Hd' & Hrd' & Hnd' & _).
    rewrite Hval in Hrund. exists v, d'. split; [done|]. split; [done|].
    cbv zeta. rewrite (proj2 (rounds_0 _) Hrng), Nat.add_0_r, !Z.mul_1_l, !Z.add_0_r.
    split_and!; [done|congruence|lia].
Qed.

(** ** Uniform integers: a symbol and raw bits *)

Lemma uint_split v ft :
  0 <= v < ft -> 2 <= ft < 2 ^ 32 ->
  let sh := ec_ilog (u32 (ft - 1)) - 8 in
  sh <= 24 /\ u32 (ft - 1) = ft - 1 /\
  (0 < sh -> 0 <= v / 2 ^ sh <= (ft - 1) / 2 ^ sh /\ (ft - 1) / 2 ^ sh <= 255) /\ (sh <= 0 -> ft <= 256).
Proof.
  intros Hv Hft sh. assert (u32 (ft - 1) = ft - 1) as Hu by (apply wrap_small; lia).
  subst sh. rewrite Hu, ec_ilog_log2 by lia.
  pose proof (Z.log2_spec (ft - 1) ltac:(lia)) as [_ Hl]. pose proof (Z.log2_nonneg (ft - 1)) as H0.
  assert (Z.log2 (ft - 1) < 32) by (apply Z.log2_lt_pow2; lia).
  set (l := Z.log2 (ft - 1)) in *. split; [lia|]. split; [done|]. split.
  - intros E. split; [split; [apply Z.div_pos; lia|apply Z.div_le_mono; lia]|].
    apply Z.lt_succ_r. apply Z.div_lt_upper_bound; [lia|].
    change (Z.succ 255) with (2 ^ 8). rewrite <- Z.pow_add_r by lia.
    replace (l + 1 - 8 + 8) with (Z.succ l) by lia. lia.
  - intros. assert (2 ^ Z.succ l <= 2 ^ 8) by (apply Z.pow_le_mono_r; lia). change (2 ^ 8) with 256 in *. lia.
Qed.

Lemma mask_mod v sh : 1 <= sh <= 24 -> Z.land v (u32 (Z.shiftl 1 sh) - 1) = v mod 2 ^ sh.
Proof.
  intros Hsh. assert (2 ^ sh <= 2 ^ 24) by (apply Z.pow_le_mono_r; lia).
  rewrite Z.shiftl_mul_pow2, Z.mul_1_l by lia. rewrite wrap_small by (change (2 ^ 24) with 16777216 in *; lia).
  replace (2 ^ sh - 1) with (Z.ones sh) by (rewrite Z.ones_equiv; lia). apply Z.land_ones. lia.
Qed.

(** The decoder's part of [ec_dec_uint] when the number needs raw bits. *)
Lemma dec_uint_large d v ft x y d2 :
  0 <= v < ft -> 2 <= ft < 2 ^ 32 ->
  let sh := ec_ilog (u32 (ft - 1)) - 8 in
  0 < sh ->
  ('(x, d) ← dec_sym d (SEncode (v / 2 ^ sh) (v / 2 ^ sh + 1) ((ft - 1) / 2 ^ sh + 1));
   '(y, d) ← dec_sym d (SBits (v mod 2 ^ sh) sh); Some ((x, y), d)) = Some ((x, y), d2) ->
  x = v / 2 ^ sh -> y = v mod 2 ^ sh -> ec_dec_uint d ft = Some (v, d2).
Proof.
  intros Hv Hft sh Hsh Hrun -> ->. destruct (uint_split v ft Hv Hft) as (H24 & Hu & Hlarge & _).
  fold sh in H24, Hlarge. destruct (Hlarge Hsh) as [[Ha1 Ha2] Ha3].
  assert (ec_ilog (ft - 1) = sh + 8) as Hi by (subst sh; rewrite Hu; lia). clearbody sh.
  unfold ec_dec_uint. rewrite Hu, Hi. change EC_UINT_BITS with 8. replace (sh + 8 - 8) with sh by lia.
  rewrite (proj2 (Z.ltb_lt _ _)) by lia. rewrite Z.shiftr_div_pow2 by lia.
  rewrite (wrap_small 32 (_ + 1)) by lia. cbn [dec_sym] in Hrun.
  destruct (ec_decode d _) as [[a d1]|]; [|done]. revert Hrun. mred. case_decide as E; [|done].
  assert (a = v / 2 ^ sh) as -> by lia.
  rewrite (wrap_small 32 (v / 2 ^ sh + 1)) by lia. destruct (ec_dec_update d1 _ _ _) as [d3|]; [|done]. mred.
  destruct (ec_dec_bits d3 sh) as [[z d4]|]; [|done]. mred. intros [= -> ->].
  pose proof (Z.div_mod v (2 ^ sh) ltac:(lia)). pose proof (Z.mod_pos_bound v (2 ^ sh) ltac:(lia)).
  rewrite Z.shiftl_mul_pow2 by lia. rewrite (wrap_small 32 (_ * _)), lor_pow2 by lia.
  rewrite (proj2 (Z.leb_le _ _)) by lia. do 2 f_equal. lia.
Qed.

Lemma emits_uint e W mid T v ft :
  ready e W mid T -> sym_ok (SUint v ft) -> ext e + 3 < 2 ^ 32 ->
  exists e' W' mid' T', enc_sym e (SUint v ft) = Some e' /\ ready e' W' mid' T' /\ ext e' <= ext e + 3 /\
    emits e W T e' W' T' (fun d => dec_sym d (SUint v ft)) (decoded (SUint v ft)).
Proof.
  intros Hready [Hv Hft] Hx. destruct (uint_split v ft Hv Hft) as (H24 & Hu & Hlarge & Hsmall).
  cbn [enc_sym]. unfold ec_enc_uint. change EC_UINT_BITS with 8.
  pose proof (fun d x y d2 => dec_uint_large d v ft x y d2 Hv Hft) as Hdec. cbv zeta in Hdec.
  set (sh := ec_ilog (u32 (ft - 1)) - 8) in *. rewrite Hu.
  assert (ec_ilog (ft - 1) = sh + 8) as Hi by (subst sh; rewrite Hu; lia). rewrite Hi. clearbody sh.
  replace (sh + 8 - 8) with sh by lia.
  destruct (8 <? sh + 8) eqn:E; [apply Z.ltb_lt in E|apply Z.ltb_ge in E].
  - destruct (Hlarge ltac:(lia)) as [[Ha1 Ha2] Ha3]. pose proof (Z.mod_pos_bound v (2 ^ sh) ltac:(lia)).
    rewrite !Z.shiftr_div_pow2 by lia. rewrite (wrap_small 32 ((ft - 1) / _ + 1)), (wrap_small 32 (v / _ + 1)), mask_mod by lia.
    destruct (emits_range e W mid T (SEncode (v / 2 ^ sh) (v / 2 ^ sh + 1) ((ft - 1) / 2 ^ sh + 1)) Hready)
      as (e1 & W1 & mid1 & Hrun1 & Hr1 & Hx1 & H1); [cbn; lia|done|done|]. cbn [enc_sym] in Hrun1. rewrite Hrun1. mred.
    destruct (emits_bits e1 W1 mid1 T (v mod 2 ^ sh) sh Hr1) as (e2 & mid2 & T2 & Hrun2 & Hr2 & Hx2 & H2); [cbn; lia|].
    exists e2, W1, mid2, T2. split; [exact Hrun2|]. split; [done|]. split; [lia|].
    eapply (emits_weaken _ _ _ _ _ _ _ _ (fun _ => v)); [exact (emits_bind _ _ _ _ _ _ _ _ _ _ _ _ _ H1 H2)|].
    intros d [x y] d' Hrun [Hx' Hy']. cbn [fst snd decoded] in Hx', Hy'. split; [|done].
    apply (Hdec d x y d'); (done || lia).
  - specialize (Hsmall ltac:(lia)). replace (u32 (ft - 1 + 1)) with ft by (rewrite wrap_small; lia).
    rewrite wrap_small by lia.
    destruct (emits_range e W mid T (SEncode v (v + 1) ft) Hready) as (e1 & W1 & mid1 & Hrun1 & Hr1 & Hx1 & H1);
      [cbn; lia|done|done|].
    exists e1, W1, mid1, T. split; [exact Hrun1|]. split; [done|]. split; [done|].
    eapply (emits_weaken _ _ _ _ _ _ _ _ (fun _ => v)); [exact H1|]. intros d x d' Hrun Hd. cbn [decoded] in Hd.
    split; [|done]. cbn [dec_sym] in *. unfold ec_dec_uint. rewrite Hu, Hi. change EC_UINT_BITS with 8.
    rewrite (proj2 (Z.ltb_ge _ _)) by lia. replace (u32 (ft - 1 + 1)) with ft by (rewrite wrap_small; lia).
    destruct (ec_decode d ft) as [[a d1]|]; [|done]. revert Hrun. mred. case_decide as Ea; [|done].
    assert (a = v) as -> by lia. rewrite wrap_small by lia. destruct (ec_dec_update d1 _ _ _) as [d3|]; [|done].
    mred. by intros [= _ ->].
Qed.
