(* ===== verification/EntDone.v ===== *)
(** * Sequences of symbols

    The coders of [laplace.c] are sequences of symbols of the range coder; any sequence
    of symbols is emitted by the encoder in step with the decoder. *)

From S2P Require Import Prelude EntCode EntEnc EntDec Laplace EntEncFacts EntDecFacts EntCoder.

(** ** Laplace symbols *)

Lemma emits_laplace e W mid T v fs decay :
  ready e W mid T -> sym_ok (SLaplace v fs decay) -> ext e + 3 < 2 ^ 32 ->
  exists e' W' mid', enc_sym e (SLaplace v fs decay) = Some e' /\ ready e' W' mid' T /\ ext e' <= ext e + 3 /\
    emits e W T e' W' T (fun d => dec_sym d (SLaplace v fs decay)) (decoded (SLaplace v fs decay)).
Proof.
  intros Hr [Hok Hv] Hx. destruct (laplace_interval_spec v fs decay Hok Hv) as (fl & len & x & Hint & Hfl & Hlen & Hend & Hfind).
  destruct (emits_range e W mid T (SBin fl (fl + len) 15) Hr) as (e' & W' & mid' & Hrun & Hr' & Hx' & Hem);
    [cbn; change (2 ^ 15) with 32768; lia|done|done|].
  assert (u32 (fl + len) = fl + len) as Hu by (apply wrap_small; change (2 ^ 32) with 4294967296; lia).
  exists e', W', mid'. cbn [enc_sym] in *. unfold ec_laplace_encode. rewrite Hint. mred. rewrite Hu, Hrun. mred.
  split; [done|]. split; [done|]. split; [done|].
  eapply (emits_weaken _ _ _ _ _ _ _ _ (fun _ => x)); [exact Hem|]. intros d y d' Hdec Hy. cbn [decoded] in *.
  split; [|by exists fl, len]. cbn [dec_sym] in *. unfold ec_laplace_decode.
  destruct (ec_decode_bin d 15) as [[a d1]|]; [|done]. revert Hdec. mred. case_decide as E; [|done].
  rewrite (Hfind a E). mred. rewrite Hu, Z.min_l by lia. change (2 ^ 15) with 32768.
  destruct (ec_dec_update d1 fl (fl + len) 32768) as [d2|]; [|done]. mred. by intros [= _ ->].
Qed.

(** ** Lists of symbols *)

(** A bound on the symbols of the range coder that a symbol takes. *)
Definition sym_cost (s : sym) : Z :=
  match s with SLaplaceP0 v _ _ => Z.abs v / 7 + 2 | _ => 1 end.
Definition cost (ss : list sym) : Z := foldr (fun s n => sym_cost s + n) 0 ss.

Lemma sym_cost_pos s : 1 <= sym_cost s.
Proof. destruct s; cbn; try lia. assert (0 <= Z.abs v / 7) by (apply Z.div_pos; lia). lia. Qed.

Lemma cost_nonneg ss : 0 <= cost ss.
Proof. induction ss as [|s ss IH]; cbn [cost foldr]; [lia|]. pose proof (sym_cost_pos s). unfold cost in IH. lia. Qed.

Lemma cost_cons s ss : cost (s :: ss) = sym_cost s + cost ss.
Proof. done. Qed.

Lemma cost_app l k : cost (l ++ k) = cost l + cost k.
Proof. induction l as [|s l IH]; cbn [app]; [done|]. rewrite !cost_cons, IH. lia. Qed.

(** [enc] emits what [dec] reads, from every state with enough room in [ext]. *)
Definition step_ok {A} (n : Z) (enc : ec_ctx -> option ec_ctx) (dec : ec_ctx -> option (A * ec_ctx)) (ok : A -> Prop) : Prop :=
  forall e W mid T, ready e W mid T -> ext e + 3 * n < 2 ^ 32 ->
  exists e' W' mid' T', enc e = Some e' /\ ready e' W' mid' T' /\ ext e' <= ext e + 3 * n /\
    emits e W T e' W' T' dec ok.

Definition sym_step (s : sym) : Prop :=
  step_ok (sym_cost s) (fun e => enc_sym e s) (fun d => dec_sym d s) (decoded s).

Lemma list_step ss :
  Forall sym_step ss -> step_ok (cost ss) (fun e => enc_all e ss) (fun d => dec_all d ss) (Forall2 decoded ss).
Proof.
  induction 1 as [|s ss Hs Hss IH]; intros e W mid T Hr Hx; cbn [enc_all].
  - exists e, W, mid, T. split; [done|]. split; [done|]. split; [cbn; lia|].
    eapply (emits_weaken _ _ _ _ _ _ _ _ id); [apply (emits_refl [])|]. intros d x d' [= <- <-] _. by split.
  - rewrite cost_cons in *. pose proof (cost_nonneg ss). pose proof (sym_cost_pos s).
    destruct (Hs e W mid T Hr) as (e1 & W1 & mid1 & T1 & -> & Hr1 & Hx1 & H1); [lia|]. mred.
    destruct (IH e1 W1 mid1 T1 Hr1) as (e2 & W2 & mid2 & T2 & Hrun & Hr2 & Hx2 & H2); [lia|].
    exists e2, W2, mid2, T2. split; [done|]. split; [done|]. split; [lia|].
    eapply (emits_weaken _ _ _ _ _ _ _ _ (fun p => p.1 :: p.2)); [exact (emits_bind _ _ _ _ _ _ _ _ _ _ _ _ _ H1 H2)|].
    intros d [x y] d' Hrun' [Hx' Hy']. split; [|by constructor]. cbn [dec_all].
    destruct (dec_sym d s) as [[a d1]|]; [|done]. revert Hrun'. mred.
    destruct (dec_all d1 ss) as [[b d2]|]; [|done]. mred. by intros [= -> -> ->].
Qed.

Lemma range_step s : sym_ok s -> is_range_sym s -> sym_step s.
Proof.
  intros Hs Hrs e W mid T Hr Hx. assert (sym_cost s = 1) as Hc by by destruct s. rewrite Hc in *.
  destruct (emits_range e W mid T s Hr Hs Hrs) as (e' & W' & mid' & ? & ? & ? & ?); [lia|]. by exists e', W', mid', T.
Qed.

(** ** The variant with a sign symbol *)

Fixpoint p0_pieces (fuel : nat) (value : Z) (icdf : list Z) : list sym :=
  match fuel with
  | O => []
  | S fuel => SIcdf (Z.min value 7) icdf 15 :: (if 0 <=? value - 7 then p0_pieces fuel (value - 7) icdf else [])
  end.

Lemma p0_enc_pieces fuel e value icdf :
  0 <= value < 7 * Z.of_nat fuel -> p0_enc_loop fuel e value icdf = enc_all e (p0_pieces fuel value icdf).
Proof.
  revert e value. induction fuel as [|fuel IH]; intros e value Hv; [lia|]. cbn [p0_enc_loop p0_pieces enc_all enc_sym].
  unfold ec_enc_icdf16. destruct (ec_enc_icdf e (Z.min value 7) icdf 15) as [e1|]; [|done]. mred.
  destruct (0 <=? value - 7) eqn:E; [apply Z.leb_le in E|done]. apply IH. lia.
Qed.

Lemma p0_pieces_cost fuel value icdf :
  0 <= value < 7 * Z.of_nat fuel -> cost (p0_pieces fuel value icdf) = value / 7 + 1.
Proof.
  revert value. induction fuel as [|fuel IH]; intros value Hv; [lia|]. cbn [p0_pieces]. rewrite cost_cons. cbn [sym_cost].
  destruct (0 <=? value - 7) eqn:E; [apply Z.leb_le in E; rewrite IH by lia|apply Z.leb_gt in E; cbn]; zlia.
Qed.

Lemma p0_dec_pieces fuel d value w icdf vs d' :
  0 <= value < 7 * Z.of_nat fuel -> 0 <= w -> w + value < 2 ^ 31 -> dec_all d (p0_pieces fuel value icdf) = Some (vs, d') ->
  Forall2 decoded (p0_pieces fuel value icdf) vs -> p0_dec_loop fuel d w icdf = Some (w + value, d').
Proof.
  revert d value w vs. induction fuel as [|fuel IH]; intros d value w vs Hv Hw Hlt Hrun Hvs; [lia|].
  cbn [p0_pieces p0_dec_loop dec_all dec_sym] in *. unfold ec_dec_icdf16.
  destruct (ec_dec_icdf d icdf 15) as [[x d1]|]; [|done]. revert Hrun. mred.
  destruct (dec_all d1 _) as [[ys d2]|] eqn:Hrest; [|done]. mred. intros [= <- <-].
  apply Forall2_cons_1 in Hvs as [Hx Hys]. cbn [decoded] in Hx. subst x.
  rewrite int_chk_ok by lia. mred.
  destruct (0 <=? value - 7) eqn:E; [apply Z.leb_le in E|apply Z.leb_gt in E].
  - rewrite decide_True by lia. rewrite (IH d1 (value - 7) (w + Z.min value 7) ys); try (done || lia).
    do 2 f_equal. lia.
  - rewrite decide_False by lia. cbn [dec_all] in Hrest. injection Hrest as <- <-. do 2 f_equal. lia.
Qed.

(** Strictly decreasing tables are tables of inverse cumulative frequencies. *)
Fixpoint decreasing (hi : Z) (l : list Z) : Prop :=
  match l with
  | [] => True
  | x :: l => 0 <= x < hi /\ decreasing x l
  end.

Lemma decreasing_at l hi n :
  decreasing hi l -> (n < length l)%nat ->
  exists a b, match n with O => a = hi | S m => l !! m = Some a end /\ l !! n = Some b /\ 0 <= b < a /\ a <= hi /\
    Forall (fun x => a <= x <= hi) (take n l).
Proof.
  revert hi n. induction l as [|x l IH]; intros hi n Hdl Hn; [cbn in Hn; lia|]. destruct Hdl as [Hx Hl], n as [|n].
  - exists hi, x. split_and!; (done || lia || constructor).
  - cbn [length] in Hn. destruct (IH x n Hl) as (a & b & Ha & Hb & Hab & Hax & Hall); [lia|]. exists a, b.
    split; [destruct n; [by subst a|done]|]. split; [done|]. split; [done|]. split; [lia|]. cbn [take].
    constructor; [lia|]. eapply Forall_impl; [|exact Hall]. cbn. lia.
Qed.

Lemma decreasing_icdf l ftb s :
  decreasing (2 ^ ftb) l -> 0 <= s < zlen l -> icdf_ok l ftb s.
Proof.
  intros Hl Hs. destruct (decreasing_at l (2 ^ ftb) (Z.to_nat s) Hl) as (a & b & Ha & Hb & Hab & Hle & Hall); [lia|].
  exists a, b. split; [lia|]. split; [|exact (conj Hb (conj Hab (conj Hle Hall)))]. unfold icdf_at. case_decide as E.
  - replace (Z.to_nat s) with 0%nat in Ha by lia. by rewrite Ha.
  - destruct (Z.to_nat s) as [|m] eqn:Em; [lia|]. by replace (Z.to_nat (s - 1)) with m by lia.
Qed.

Lemma sign_icdf_ok p0 : 1 <= p0 <= 32766 -> decreasing (2 ^ 15) (sign_icdf p0).
Proof.
  intros Hp. unfold sign_icdf. cbv zeta. rewrite wrap_small by (change (2 ^ 16) with 65536; lia).
  change (2 ^ 15) with 32768. cbn [decreasing]. split_and!; try done; zlia.
Qed.

Lemma decay_entries_ok n i prev decay :
  0 <= decay < 32768 -> Z.of_nat n = 7 - i -> 1 <= i -> 8 - i <= prev < 32768 ->
  exists l, decay_entries n i prev decay = Some l /\ length l = n /\ decreasing prev (l ++ [0]).
Proof.
  intros Hd. revert i prev. induction n as [|n IH]; intros i prev Hn Hi Hp; cbn [decay_entries].
  - exists []. cbn; split_and!; (done || lia).
  - assert (0 <= prev * decay <= 32767 * 32767) by nia.
    rewrite int_chk_ok by (change (2 ^ 31) with 2147483648; lia). mred. rewrite Z.shiftr_div_pow2 by lia. change (2 ^ 15) with 32768.
    assert (0 <= prev * decay / 32768 < prev) as Hq by (split; [apply Z.div_pos; lia|apply Z.div_lt_upper_bound; nia]).
    rewrite wrap_small by (change (2 ^ 16) with 65536; lia).
    destruct (IH (i + 1) (Z.max (7 - i) (prev * decay / 32768))) as (l & -> & Hl & Hdec); [lia..|]. mred.
    eexists. split; [reflexivity|]. split; [by cbn; rewrite Hl|]. cbn [app decreasing]. split; [lia|done].
Qed.

Lemma decay_icdf_ok decay :
  0 <= decay < 32768 -> exists icdf, decay_icdf decay = Some icdf /\ length icdf = 8%nat /\ decreasing (2 ^ 15) icdf.
Proof.
  intros Hd. unfold decay_icdf. rewrite wrap_small by (change (2 ^ 16) with 65536; lia).
  destruct (decay_entries_ok 6 1 (Z.max 7 decay) decay) as (l & -> & Hl & Hdec); [lia..|]. mred.
  eexists. split; [reflexivity|]. split; [cbn; rewrite length_app, Hl; done|]. change (2 ^ 15) with 32768.
  cbn [app decreasing]. split; [lia|done].
Qed.

Lemma p0_pieces_ok fuel value icdf :
  length icdf = 8%nat -> decreasing (2 ^ 15) icdf -> 0 <= value -> Forall sym_step (p0_pieces fuel value icdf).
Proof.
  intros Hlen Hdec. revert value. induction fuel as [|fuel IH]; intros value Hv; cbn [p0_pieces]; [constructor|]. constructor.
  - apply range_step; [|done]. split; [lia|]. apply decreasing_icdf; [done|lia].
  - destruct (0 <=? value - 7) eqn:E; [apply Z.leb_le in E; apply IH; lia|constructor].
Qed.

Definition p0_sign (v : Z) : Z := if decide (v = 0) then 0 else if decide (v > 0) then 1 else 2.

Lemma p0_step v p0 decay : sym_ok (SLaplaceP0 v p0 decay) -> sym_step (SLaplaceP0 v p0 decay).
Proof.
  intros (Hp & Hd & Hv) e W mid T Hr Hx. destruct (decay_icdf_ok decay) as (icdf & Hicdf & Hlen & Hdec); [lia|].
  set (rest := if decide (v = 0) then [] else p0_pieces (Z.to_nat (Z.abs v)) (Z.abs v - 1) icdf).
  set (ss := SIcdf (p0_sign v) (sign_icdf p0) 15 :: rest).
  assert (0 <= p0_sign v < 3) as Hsg by (unfold p0_sign; repeat case_decide; lia).
  assert (Forall sym_step ss) as Hss.
  { constructor.
    - apply range_step; [|done]. split; [lia|]. apply decreasing_icdf; [by apply sign_icdf_ok|done].
    - unfold rest. case_decide; [constructor|]. apply p0_pieces_ok; (done || lia). }
  assert (cost ss <= sym_cost (SLaplaceP0 v p0 decay)) as Hcost.
  { unfold ss. rewrite cost_cons. cbn [sym_cost]. unfold rest. case_decide as E; [rewrite E; done|].
    rewrite p0_pieces_cost by lia. zlia. }
  destruct (list_step ss Hss e W mid T Hr) as (e' & W' & mid' & T' & Hrun & Hr' & Hx' & Hem); [lia|].
  exists e', W', mid', T'. split; [|split; [done|split; [lia|]]].
  - cbn [enc_sym]. unfold ec_laplace_encode_p0, ec_enc_icdf16. fold (p0_sign v). unfold ss in Hrun. cbn [enc_all enc_sym] in Hrun.
    destruct (ec_enc_icdf e _ _ _) as [e1|]; [|done]. revert Hrun. mred. rewrite int_chk_ok by lia. mred. unfold rest.
    destruct (decide (v = 0)) as [->|E]; [done|]. rewrite decide_False, Hicdf by lia. mred. by rewrite p0_enc_pieces by lia.
  - eapply (emits_weaken _ _ _ _ _ _ _ _ (fun _ => v)); [exact Hem|]. intros d vs d' Hrund Hvs. split; [|done].
    cbn [dec_sym]. unfold ec_laplace_decode_p0, ec_dec_icdf16. unfold ss in Hrund, Hvs. cbn [dec_all dec_sym] in Hrund.
    destruct (ec_dec_icdf d _ _) as [[x d1]|]; [|done]. revert Hrund. mred.
    destruct (dec_all d1 rest) as [[ys d2]|] eqn:Hrest; [|done]. mred. intros [= <- <-].
    apply Forall2_cons_1 in Hvs as [Hsx Hys]. cbn [decoded] in Hsx. subst x.
    unfold rest in Hrest, Hys. destruct (decide (v = 0)) as [->|E].
    { cbn. cbn in Hrest. by injection Hrest as _ <-. }
    rewrite (decide_False (P := _ = 0)) by (unfold p0_sign; repeat case_decide; lia).
    rewrite Hicdf. mred. rewrite (p0_dec_pieces _ d1 (Z.abs v - 1) 1 icdf ys d2) by (done || lia). mred.
    do 2 f_equal. unfold p0_sign. repeat case_decide; lia.
Qed.

(** ** All symbols *)

Lemma emits_sym s : sym_ok s -> sym_step s.
Proof.
  intros Hs. destruct s as [| | | |v ft|v bits|v fs decay|v p0 decay]; try (by apply range_step); [| | |by apply p0_step];
    intros e W mid T Hr Hx.
  - apply (emits_uint e W mid T v ft Hr Hs Hx).
  - destruct (emits_bits e W mid T v bits Hr Hs) as (e' & mid' & T' & ? & ? & Hx' & ?).
    exists e', W, mid', T'. split_and!; try done. cbn. lia.
  - destruct (emits_laplace e W mid T v fs decay Hr Hs Hx) as (e' & W' & mid' & ? & ? & ? & ?). by exists e', W', mid', T.
Qed.

Lemma emits_all ss :
  Forall sym_ok ss -> step_ok (cost ss) (fun e => enc_all e ss) (fun d => dec_all d ss) (Forall2 decoded ss).
Proof. intros Hss. apply list_step. eapply Forall_impl; [exact emits_sym|exact Hss]. Qed.

Lemma ready_init b : is_bytes b -> zlen b < 2 ^ 32 -> ready (ec_enc_init b (zlen b)) [] b [].
Proof.
  intros Hb Hlt. split; [|done]. split; try done; cbn [ec_enc_init rng val rem nend_bits end_window]; try (done || lia).
  unfold layout. cbn. rewrite app_nil_r. split_and!; done.
Qed.

(** * Finishing a range coder stream

    [ec_enc_done] writes the fewest bits that name a point of the last interval,
    whatever follows them, and puts the last raw bits next to them. *)

(** ** The point *)

Lemma round_up v q :
  0 <= q <= 31 -> 0 <= v -> v + 2 ^ q <= 2 ^ 32 ->
  let fin := Z.land (u32 (v + (2 ^ q - 1))) (u32 (Z.lnot (2 ^ q - 1))) in
  v <= fin < v + 2 ^ q /\ (2 ^ q | fin) /\ Z.lor fin (2 ^ q - 1) = fin + (2 ^ q - 1).
Proof.
  intros Hq Hv Hle fin. assert (0 < 2 ^ q) by lia.
  assert (fin = (v + (2 ^ q - 1)) / 2 ^ q * 2 ^ q) as Hfin.
  { subst fin. rewrite (wrap_small 32 (v + _)) by lia. set (x := v + (2 ^ q - 1)).
    unfold wrap. rewrite <- Z.land_ones, (Z.land_comm (Z.lnot _)), Z.land_assoc, (Z.land_ones x) by lia.
    rewrite (Z.mod_small x) by lia. replace (2 ^ q - 1) with (Z.ones q) by (rewrite Z.ones_equiv; lia).
    rewrite <- Z.ldiff_land, Z.ldiff_ones_r by lia. by rewrite Z.shiftr_div_pow2, Z.shiftl_mul_pow2 by lia. }
  rewrite Hfin. split; [|split; [by apply Z.divide_factor_r|by apply lor_pow2; lia]].
  pose proof (Z.div_mod (v + (2 ^ q - 1)) (2 ^ q) ltac:(lia)).
  pose proof (Z.mod_pos_bound (v + (2 ^ q - 1)) (2 ^ q) ltac:(lia)). lia.
Qed.

Lemma done_point_spec e :
  2 ^ 23 < rng e <= 2 ^ 31 -> 0 <= val e -> val e + rng e <= 2 ^ 32 - 256 ->
  exists l fin, done_point e = (l, fin) /\ 0 <= l <= 9 /\ l <= EC_CODE_BITS - ec_ilog (rng e) + 1 /\
    val e <= fin /\ fin + 2 ^ (31 - l) <= val e + rng e /\ (2 ^ (31 - l) | fin).
Proof.
  intros HR Hv Htop. unfold done_point. rewrite ec_ilog_log2 by lia. change EC_CODE_BITS with 32.
  pose proof (Z.log2_spec (rng e) ltac:(lia)) as [Hlo Hhi]. set (q := Z.log2 (rng e)) in *.
  assert (23 <= q <= 31) as Hq.
  { split; [apply Z.log2_le_pow2; lia|]. apply Z.lt_succ_r, Z.log2_lt_pow2; lia. }
  replace (32 - (q + 1)) with (31 - q) by lia. cbv zeta.
  assert (forall k, 0 <= k <= 31 -> Z.shiftr (EC_CODE_TOP - 1) k = 2 ^ (31 - k) - 1) as Hmsk.
  { intros k Hk. change (EC_CODE_TOP - 1) with (Z.ones 31). rewrite Z.shiftr_div_pow2, Z.ones_div_pow2, Z.ones_equiv by lia. lia. }
  rewrite Hmsk by lia. replace (31 - (31 - q)) with q by lia.
  destruct (round_up (val e) q ltac:(lia) Hv ltac:(lia)) as ([H1 H2] & H3 & ->).
  rewrite (wrap_small 32 (val e + rng e)) by lia.
  destruct (val e + rng e <=? _) eqn:E; [apply Z.leb_le in E|apply Z.leb_gt in E].
  - assert (2 ^ q = 2 * 2 ^ (q - 1)) as Hhalf by (rewrite <- Z.pow_succ_r by lia; f_equal; lia).
    assert (Z.shiftr (2 ^ q - 1) 1 = 2 ^ (q - 1) - 1) as ->.
    { rewrite Z.shiftr_div_pow2 by lia. change (2 ^ 1) with 2. zlia. }
    destruct (round_up (val e) (q - 1) ltac:(lia) Hv ltac:(lia)) as ([G1 G2] & G3 & _).
    eexists _, _. split; [reflexivity|]. replace (31 - (31 - q + 1)) with (q - 1) by lia. split_and!; (done || lia).
  - eexists _, _. split; [reflexivity|]. replace (31 - (31 - q)) with q by lia. split_and!; (done || lia).
Qed.

(** ** Its digits *)

Lemma done_loop_spec fuel e W mid T fin l :
  layout e W mid T -> regs_ok e -> ext e + Z.of_nat fuel < 2 ^ 32 -> 0 <= fin <= 2 ^ 32 - 256 ->
  (rem e = -1 \/ rem e = 255 -> fin < 2 ^ 31) -> -8 < l <= 8 * Z.of_nat fuel -> l <= 31 ->
  (l <= 0 -> fin = 0) -> (2 ^ (31 - l) | fin) ->
  exists e' W' mid' j, done_loop fuel e fin l = Some (e', l - 8 * Z.of_nat j) /\
    layout e' W' mid' T /\ same_regs e e' /\ regs_ok e' /\ -8 < l - 8 * Z.of_nat j <= 0 /\
    (error e' = 0 -> error e = 0 /\ length (digits e' W') = (length (digits e W) + j)%nat /\
       be_val (digits e' W') * 2 ^ 31 = 256 ^ Z.of_nat j * (be_val (digits e W) * 2 ^ 31 + fin)) /\
    (error e = 0 -> zlen (digits e W) + Z.of_nat j + zlen T <= storage e -> error e' = 0).
Proof.
  revert e W mid fin l. induction fuel as [|fuel IH]; intros e W mid fin l Hl Hreg Hx Hfin Hcar Hlb Hl31 H0 Hdiv;
    cbn [done_loop]; (destruct (0 <? l) eqn:E; [apply Z.ltb_lt in E|apply Z.ltb_ge in E]); [lia| | |].
  1,3: exists e, W, mid, 0%nat; rewrite H0 by lia; cbn [Z.of_nat]; rewrite Z.sub_0_r, Nat.add_0_r, Z.mul_1_l, Z.add_0_r;
       split_and!; try done; lia.
  change EC_CODE_SHIFT with 23. change EC_SYM_BITS with 8. rewrite shift_val, Z.shiftr_div_pow2 by lia.
  change (2 ^ 23) with 8388608 in *. change (2 ^ 31) with 2147483648 in *. change (2 ^ 32) with 4294967296 in *.
  destruct (carry_out_spec e W mid T (fin / 8388608) Hl Hreg) as
    (e1 & W1 & mid1 & -> & Hl1 & Hs1 & Hreg1 & Hx1 & Hm1 & H255 & He1 & Hq1);
    [change (2 ^ 32) with 4294967296; lia|zlia|]. mred.
  assert ((2 ^ (31 - (l - 8)) | fin mod 8388608 * 256)) as Hdiv'.
  { replace (31 - (l - 8)) with (31 - l + 8) by lia. rewrite Z.pow_add_r by lia. apply Z.mul_divide_mono_r.
    destruct (Z.le_gt_cases l 8).
    - assert (fin mod 8388608 = 0) as ->; [|by exists 0]. apply Z.mod_divide; [lia|].
      etransitivity; [|exact Hdiv]. exists (2 ^ (31 - l - 23)). change 8388608 with (2 ^ 23). rewrite <- Z.pow_add_r by lia. f_equal. lia.
    - apply Z.divide_add_cancel_r with (8388608 * (fin / 8388608)).
      + apply Z.divide_mul_l. exists (2 ^ (23 - (31 - l))). change 8388608 with (2 ^ 23).
        rewrite <- Z.pow_add_r by lia. f_equal. lia.
      + by rewrite <- Z.div_mod by lia. }
  assert (0 <= fin mod 8388608 * 256 <= 2147483648 - 256) as Hb by zlia.
  destruct (IH e1 W1 mid1 (fin mod 8388608 * 256) (l - 8)) as
    (e' & W' & mid' & j & Hrun & Hl' & Hs' & Hreg' & Hj & He' & Hq'); try done; try lia.
  { intros Hle. destruct Hdiv' as [x Hx']. assert (2 ^ 31 <= 2 ^ (31 - (l - 8))) by (apply Z.pow_le_mono_r; lia).
    change (2 ^ 31) with 2147483648 in *. rewrite Hx' in Hb |- *.
    assert (x = 0) as -> by nia. done. }
  assert (fin / 8388608 < 256 \/ 0 <= rem e <= 254) as Hcar'.
  { destruct (decide (rem e = -1 \/ rem e = 255)) as [Hc|Hc]; [left; pose proof (Hcar Hc); zlia|].
    destruct Hreg as [? _]. lia. }
  exists e', W', mid', (S j). rewrite Hrun. split; [do 2 f_equal; lia|]. split; [done|].
  split; [by rewrite Hs1|]. split; [done|]. split; [lia|]. split.
  - intros H. destruct (He' H) as (H1 & H2 & H3). destruct (He1 H1) as (H4 & H5). destruct (H5 Hcar') as [H6 H7].
    split; [done|]. split; [lia|]. change (2 ^ 31) with 2147483648 in H3. rewrite H3, H6, Nat2Z.inj_succ, Z.pow_succ_r by lia.
    assert (forall x, (x * 256 + fin / 8388608) * 2147483648 + fin mod 8388608 * 256
              = 256 * (x * 2147483648 + fin)) as -> by (intros x; zlia). ring.
  - intros H Hroom. pose proof (Hq1 H ltac:(lia)) as H1. destruct (He1 H1) as (_ & H5). destruct (H5 Hcar') as [_ H7].
    apply Hq'; [done|]. destruct Hs1 as (_ & _ & _ & _ & _ & ->). lia.
Qed.

(** ** The last byte *)

Lemma tail_raw P c T w used :
  is_bytes T -> 0 <= used <= 8 -> c mod 2 ^ used = w ->
  be_val (P ++ c :: T) mod 2 ^ (8 * zlen T + used) = raw T w.
Proof.
  intros HT Hu Hc. change (c :: T) with ([c] ++ T). rewrite app_assoc, be_val_app, be_val_snoc.
  pose proof (be_val_range T HT). rewrite mod_pow2_add, Z.div_add_l, (Z.div_small (be_val T)), Z.add_0_r by lia.
  rewrite (Z.add_comm _ (be_val T)), Z_mod_plus_full, (Z.mod_small (be_val T)) by lia.
  assert (256 = 2 ^ (8 - used) * 2 ^ used) as E.
  { rewrite <- Z.pow_add_r by lia. by replace (8 - used + used) with 8 by lia. }
  rewrite E, Z.mul_assoc, (Z.add_comm _ c), Z_mod_plus_full, Hc. unfold raw. lia.
Qed.

(** What [done_tail] promises about the buffer it leaves. *)
Definition finished (e' : ec_ctx) (W T : list Z) (l w used : Z) : Prop :=
  exists B rest d, buf e' = B ++ rest /\ length B = length W /\ be_val B = be_val W + d /\ 0 <= d < 2 ^ (- l) /\
    be_val (buf e') mod 2 ^ (8 * zlen T + used) = raw T w.

Definition same_buffer (e e' : ec_ctx) : Prop :=
  storage e' = storage e /\ zlen (buf e') = storage e /\ is_bytes (buf e').

Lemma tail_free e W k T l w used :
  buf e = W ++ replicate k 0 ++ T -> is_bytes (buf e) -> 0 < used < 8 -> 0 <= w < 2 ^ used ->
  (0 < k)%nat -> l <= 0 -> storage e = zlen (buf e) -> end_offs e = zlen T ->
  exists b, (let i := storage e - end_offs e - 1 in
             x ← buf e !! Z.to_nat i; put_byte (buf e) i (Z.lor x (u8 w))) = Some b /\
    zlen b = storage e /\ is_bytes b /\ finished (set_buf e b) W T l w used.
Proof.
  intros Hb Hby Hu Hw Hk Hl Hs He. destruct k as [|k]; [lia|]. rewrite replicate_S_end in Hb.
  assert (w < 256) as Hw8.
  { assert (2 ^ used <= 2 ^ 8) by (apply Z.pow_le_mono_r; lia). change (2 ^ 8) with 256 in *. lia. }
  assert (buf e = (W ++ replicate k 0) ++ 0 :: T) as Hb' by (rewrite Hb, <- !app_assoc; done).
  cbv zeta. assert (storage e - end_offs e - 1 = zlen (W ++ replicate k 0)) as ->.
  { rewrite Hs, He, Hb'. rewrite (length_app _ (0 :: T)). cbn [length]. lia. }
  rewrite Nat2Z.id, Hb', list_lookup_middle by done. mred. rewrite put_byte_app.
  rewrite Hb' in Hby. apply Forall_app in Hby as [Hby1 Hby2]. apply Forall_cons_1 in Hby2 as [_ HT].
  rewrite Z.lor_0_l, !(u8_id w) by lia. eexists. split; [reflexivity|]. split; [|split].
  - rewrite Hs, Hb', !(length_app _ (_ :: T)). done.
  - apply Forall_app. split; [done|]. constructor; [|done]. unfold is_byte. lia.
  - exists W, (replicate k 0 ++ w :: T), 0. cbn [buf set_buf]. rewrite <- app_assoc. split_and!; try done; try lia.
    rewrite app_assoc. apply tail_raw; [done|lia|]. apply Z.mod_small. lia.
Qed.

Lemma tail_shared e W x T l w used :
  buf e = (W ++ [x]) ++ T -> is_bytes (buf e) -> 0 < used <= - l -> - l < 8 -> 0 <= w < 2 ^ used ->
  storage e = zlen (buf e) -> end_offs e = zlen T -> (2 ^ (- l) | be_val (W ++ [x])) ->
  exists b, (let i := storage e - end_offs e - 1 in
             x ← buf e !! Z.to_nat i; put_byte (buf e) i (Z.lor x (u8 w))) = Some b /\
    zlen b = storage e /\ is_bytes b /\ finished (set_buf e b) (W ++ [x]) T l w used.
Proof.
  intros Hb Hby Hu Hl Hw Hs He Hdiv. rewrite <- app_assoc in Hb. cbn [app] in Hb.
  assert (2 ^ used <= 2 ^ (- l)) as Hw8 by (apply Z.pow_le_mono_r; lia).
  assert (256 = 2 ^ (8 + l) * 2 ^ (- l)) as E256.
  { rewrite <- Z.pow_add_r by lia. by replace (8 + l + - l) with 8 by lia. }
  rewrite be_val_snoc in Hdiv. apply Z.divide_add_cancel_r in Hdiv as [y Hy];
    [|rewrite E256, Z.mul_assoc; apply Z.divide_factor_r].
  rewrite Hb in Hby. apply Forall_app in Hby as [Hby1 Hby2]. apply Forall_cons_1 in Hby2 as [Hx HT]. unfold is_byte in Hx.
  assert (x + 2 ^ (- l) <= 256) as Hxl.
  { assert (0 < 2 ^ (- l)) by lia. set (P := 2 ^ (- l)) in *. set (Q := 2 ^ (8 + l)) in *.
    assert (y + 1 <= Q) by nia. nia. }
  cbv zeta. assert (storage e - end_offs e - 1 = zlen W) as ->.
  { rewrite Hs, He, Hb. rewrite (length_app _ (x :: T)). cbn [length]. lia. }
  rewrite Nat2Z.id, Hb, list_lookup_middle by done. mred. rewrite put_byte_app.
  rewrite (u8_id w) by lia.
  assert (Z.lor x w = x + w) as -> by (rewrite Hy; apply lor_pow2; lia).
  rewrite u8_id by lia. eexists. split; [reflexivity|]. split; [|split].
  - rewrite Hs, Hb, !(length_app _ (_ :: T)). done.
  - apply Forall_app. split; [done|]. constructor; [|done]. unfold is_byte. lia.
  - exists (W ++ [x + w]), T, w. cbn [buf set_buf]. rewrite <- app_assoc. split_and!; try done; try lia.
    + by rewrite !length_app.
    + rewrite !be_val_snoc. lia.
    + cbn [app]. apply tail_raw; [done|lia|].
      rewrite Hy. replace (- l) with (- l - used + used) by lia. rewrite Z.pow_add_r, Z.mul_assoc, Z.add_comm, Z_mod_plus_full by lia.
      apply Z.mod_small. lia.
Qed.

Lemma bind_then {A B C} (m : option A) (f : A -> option B) (g : B -> C) y :
  (x ← m; f x) = Some y -> (x ← m; z ← f x; Some (g z)) = Some (g y).
Proof. destruct m as [x|]; [|done]. mred. by intros ->. Qed.

Lemma or_byte_defined b i w :
  is_bytes b -> 0 <= i < zlen b ->
  exists b', (x ← b !! Z.to_nat i; put_byte b i (Z.lor x w)) = Some b' /\ zlen b' = zlen b /\ is_bytes b'.
Proof.
  intros Hb Hi. destruct (lookup_lt_is_Some_2 b (Z.to_nat i)) as [x ->]; [lia|]. mred.
  unfold put_byte. rewrite decide_True by done. eexists. split; [reflexivity|]. rewrite length_insert.
  split; [done|]. apply Forall_insert; [done|apply u8_byte].
Qed.

Lemma done_tail_spec e W mid T l w used :
  layout e W mid T -> error e = 0 -> 0 <= used < 8 -> 0 <= w < 2 ^ used -> -8 < l <= 0 ->
  (2 ^ (- l) | be_val W) -> (W = [] -> l = 0) ->
  exists e', done_tail e l w used = Some e' /\ same_buffer e e' /\
    (error e' = 0 -> finished e' W T l w used) /\
    (8 * zlen W + 8 * zlen T + used <= 8 * storage e - l -> error e' = 0).
Proof.
  intros Hl He Hu Hw Hll Hdiv HW. pose proof (layout_full _ _ _ _ Hl) as [Hsum Hst].
  pose proof Hl as (Hb & Ho & Heo & Hs & Hlt & Hby). unfold done_tail.
  replace (Z.to_nat (storage e - offs e - end_offs e)) with (length mid) by lia.
  rewrite Hb, splice_app by (rewrite ?length_replicate; done). mred.
  assert (is_bytes (W ++ replicate (length mid) 0 ++ T)) as Hby'.
  { rewrite Hb in Hby. apply Forall_app in Hby as [H1 H2]. apply Forall_app in H2 as [_ H2].
    apply Forall_app. split; [done|]. apply Forall_app. split; [by apply Forall_replicate|done]. }
  assert (zlen (W ++ replicate (length mid) 0 ++ T) = storage e) as Hlen.
  { rewrite !length_app, length_replicate. lia. }
  set (e1 := set_buf e (W ++ replicate (length mid) 0 ++ T)).
  destruct (0 <? used) eqn:E; [apply Z.ltb_lt in E|apply Z.ltb_ge in E].
  2: { exists e1. split; [done|]. split; [done|]. split; [|done]. intros _.
       assert (used = 0) as -> by lia. assert (w = 0) as -> by (change (2 ^ 0) with 1 in Hw; lia).
       exists W, (replicate (length mid) 0 ++ T), 0. cbn [buf e1 set_buf]. split_and!; (done || lia || idtac).
       pose proof (be_val_range T ltac:(by repeat (apply Forall_app in Hby' as [_ Hby']))) as HT.
       rewrite app_assoc, be_val_app, Z.add_0_r, Z.add_comm, Z_mod_plus_full. unfold raw. rewrite Z.mod_small; lia. }
  change (storage e1) with (storage e). change (end_offs e1) with (end_offs e). change (offs e1) with (offs e).
  rewrite Hsum.
  destruct (storage e <=? end_offs e) eqn:E1; [apply Z.leb_le in E1|apply Z.leb_gt in E1].
  { exists (set_error e1 (-1)). split; [done|]. split; [done|]. split; [done|]. intros. exfalso.
    assert (W = []) by (destruct W; [done|cbn [length] in *; lia]). specialize (HW H0). lia. }
  destruct (decide (mid = [])) as [->|Hm].
  - (* the byte is shared *)
    destruct W as [|x W _] using rev_ind; [cbn [length] in *; lia|].
    cbn [length replicate app] in *. rewrite (proj2 (Z.leb_le (storage e) _)) by lia. cbn [andb].
    destruct (- l <? used) eqn:E2; [apply Z.ltb_lt in E2|apply Z.ltb_ge in E2].
    + destruct (or_byte_defined (buf e1) (storage e - end_offs e - 1) (u8 (Z.land w (Z.shiftl 1 (- l) - 1))))
        as (b & Hrun & Hlb & Hbb); [done|change (buf e1) with ((W ++ [x]) ++ T); lia|].
      exists (set_buf (set_error e1 (-1)) b). split; [exact (bind_then _ _ _ _ Hrun)|]. split; [split; [done|split; [|done]]|].
      * change (zlen b = storage e). rewrite Hlb. exact Hlen.
      * split; [done|]. intros. exfalso. lia.
    + destruct (tail_shared e1 W x T l w used) as (b & Hrun & Hlb & Hbb & Hfin); try done; [lia..|].
      exists (set_buf e1 b). split; [exact (bind_then _ _ (set_buf e1) _ Hrun)|]. by split_and!.
  - assert (0 < length mid)%nat as Hmid by (destruct mid; [done|cbn; lia]).
    rewrite (proj2 (Z.leb_gt (storage e) _)) by lia. cbn [andb].
    destruct (tail_free e1 W (length mid) T l w used) as (b & Hrun & Hlb & Hbb & Hfin); try done; try lia.
    exists (set_buf e1 b). split; [exact (bind_then _ _ (set_buf e1) _ Hrun)|]. by split_and!.
Qed.

(** ** The whole function *)

Lemma final_flush e W mid T :
  layout e W mid T -> regs_ok e ->
  exists e' W' mid', (if (0 <=? rem e) || (0 <? ext e) then ec_enc_carry_out e 0 else Some e) = Some e' /\
    layout e' W' mid' T /\ same_regs e e' /\
    (error e' = 0 -> error e = 0 /\ W' = digits e W) /\
    (error e = 0 -> zlen (digits e W) + zlen T <= storage e -> error e' = 0).
Proof.
  intros Hl Hreg. destruct ((0 <=? rem e) || (0 <? ext e)) eqn:E.
  - destruct (carry_out_flush e W mid T 0 Hl Hreg) as (e' & W' & mid' & Hrun & Hl' & Hs' & _ & _ & He' & Hq'); [lia|lia|].
    exists e', W', mid'. split_and!; try done. intros H. destruct (He' H) as [H0 ->]. split; [done|].
    unfold digits, pending. f_equal. f_equal. destruct (0 <=? rem e) eqn:Er; [|done]. apply Z.leb_le in Er.
    rewrite Z.add_0_r, u8_id; [done|]. destruct Hreg. lia.
  - apply orb_false_iff in E as [Er Ex]. apply Z.ltb_ge in Ex. exists e, W, mid. split_and!; try done. intros H.
    split; [done|]. unfold digits, pending. rewrite Er. replace (Z.to_nat (ext e)) with 0%nat by lia. by rewrite app_nil_r.
Qed.

Lemma final_raw e W mid T :
  layout e W mid T -> 0 <= nend_bits e <= 32 /\ 0 <= end_window e < 2 ^ nend_bits e ->
  exists e' w used mid' T',
    (if EC_SYM_BITS <=? nend_bits e then flush_loop 4 e (end_window e) (nend_bits e)
     else Some (e, end_window e, nend_bits e)) = Some (e', w, used) /\
    layout e' W mid' T' /\ same_regs e e' /\ 0 <= used < 8 /\ 0 <= w < 2 ^ used /\
    (error e' = 0 -> error e = 0 /\ raw T' w = raw T (end_window e) /\ 8 * zlen T' + used = taken e T) /\
    (error e = 0 -> 8 * zlen W + taken e T <= 8 * storage e + 7 -> error e' = 0).
Proof.
  intros Hl [Hn Hw]. change EC_SYM_BITS with 8. unfold taken.
  destruct (8 <=? nend_bits e) eqn:E; [apply Z.leb_le in E|apply Z.leb_gt in E].
  - destruct (flush_loop_spec 4 e W mid T (end_window e) (nend_bits e) Hl) as
      (e' & w & used & mid' & T' & Hrun & Hl' & Hs' & _ & _ & _ & Hu & Hww & He' & Hq'); [lia|done|].
    exists e', w, used, mid', T'. split_and!; (done || lia).
  - exists e, (end_window e), (nend_bits e), mid, T. split_and!; (done || lia).
Qed.

(** Bytes that extend the digits of the point name a number of the interval. *)
Lemma point_stream b B V d F (p j : nat) l :
  is_bytes b -> (exists rest, b = B ++ rest) -> length B = (p + j)%nat -> (j <= 2)%nat -> 0 <= l <= 9 -> l <= 8 * Z.of_nat j ->
  be_val B = V + d -> 0 <= d < 2 ^ (- (l - 8 * Z.of_nat j)) -> V * 2 ^ 31 = 256 ^ Z.of_nat j * F ->
  F <= stream b (p + 4) / 2 < F + 2 ^ (31 - l).
Proof.
  intros Hb [rest ->] HB Hj Hl Hlj HV Hd HF.
  pose proof (stream_add (B ++ rest) (p + j) (4 - j) Hb) as Hs.
  replace (p + j + (4 - j))%nat with (p + 4)%nat in Hs by lia.
  rewrite <- HB, (stream_prefix B rest (length B)), stream_be, HV in Hs by lia. set (S := stream (B ++ rest) (p + 4)) in *.
  assert (256 ^ Z.of_nat (4 - j) = 2 ^ (32 - 8 * Z.of_nat j)) as E4.
  { change 256 with (2 ^ 8). rewrite <- Z.pow_mul_r by lia. f_equal. lia. }
  assert (256 ^ Z.of_nat j = 2 ^ (8 * Z.of_nat j)) as Ej.
  { change 256 with (2 ^ 8). by rewrite <- Z.pow_mul_r by lia. }
  assert (2 ^ (32 - 8 * Z.of_nat j) = 2 * 2 ^ (31 - 8 * Z.of_nat j)) as E5.
  { rewrite <- Z.pow_succ_r by lia. f_equal. lia. }
  assert (2 ^ 31 = 2 ^ (8 * Z.of_nat j) * 2 ^ (31 - 8 * Z.of_nat j)) as E31.
  { rewrite <- Z.pow_add_r by lia. f_equal. lia. }
  assert (2 ^ (31 - l) = 2 ^ (- (l - 8 * Z.of_nat j)) * 2 ^ (31 - 8 * Z.of_nat j)) as El.
  { rewrite <- Z.pow_add_r by lia. f_equal. lia. }
  assert (V * 2 ^ (31 - 8 * Z.of_nat j) = F) as HF'.
  { assert (0 < 2 ^ (8 * Z.of_nat j)) by lia. rewrite E31, Ej in HF. nia. }
  rewrite E4, E5 in Hs. rewrite El. set (P := 2 ^ (31 - 8 * Z.of_nat j)) in *. assert (0 < P) by lia.
  pose proof (Z.div_mod S (2 * P) ltac:(lia)) as HS. rewrite Hs in HS.
  pose proof (Z.mod_pos_bound S (2 * P) ltac:(lia)) as HSm. set (Q := 2 ^ (- (l - 8 * Z.of_nat j))) in *.
  assert (2 * F <= S < 2 * (F + Q * P)) by nia.
  split; [apply Z.div_le_lower_bound; lia|apply Z.div_lt_upper_bound; lia].
Qed.

Lemma point_divides V D fin (j : nat) l :
  V * 2 ^ 31 = 256 ^ Z.of_nat j * (D * 2 ^ 31 + fin) -> (2 ^ (31 - l) | fin) -> 0 <= l <= 9 -> l <= 8 * Z.of_nat j ->
  (2 ^ (- (l - 8 * Z.of_nat j)) | V).
Proof.
  intros HV [c ->] Hl Hlj. exists (D * 2 ^ l + c).
  assert (256 ^ Z.of_nat j = 2 ^ (- (l - 8 * Z.of_nat j)) * 2 ^ l) as Ej.
  { change 256 with (2 ^ 8). rewrite <- Z.pow_mul_r, <- Z.pow_add_r by lia. f_equal. lia. }
  assert (2 ^ 31 = 2 ^ l * 2 ^ (31 - l)) as E31 by (rewrite <- Z.pow_add_r by lia; f_equal; lia).
  rewrite Ej, E31 in HV. assert (0 < 2 ^ l) by lia. assert (0 < 2 ^ (31 - l)) by lia.
  set (A := 2 ^ l) in *. set (B := 2 ^ (31 - l)) in *. set (C := 2 ^ (- (l - 8 * Z.of_nat j))) in *.
  assert (0 < A * B) by nia. nia.
Qed.

Lemma ec_enc_done_spec e W mid T :
  ready e W mid T -> ext e + 2 < 2 ^ 32 ->
  exists ef, ec_enc_done e = Some ef /\ same_buffer e ef /\
    (error ef = 0 -> error e = 0 /\ agrees (buf ef) e W T) /\
    (error e = 0 -> counted e W T -> ec_tell e <= 8 * storage e -> error ef = 0).
Proof.
  intros [[Hl Hreg [_ HR] Hv Htop Hcar Hwin] Hrng] Hx. unfold ec_enc_done.
  destruct (done_point_spec e) as (l & fin & -> & Hl9 & Htell & H1 & H2 & Hdiv); [done..|].
  assert (0 < 2 ^ (31 - l)) as HP by lia.
  destruct (done_loop_spec 2 e W mid T fin l) as (e1 & W1 & mid1 & j & -> & Hl1 & Hs1 & Hreg1 & Hj & He1 & Hq1);
    try done; try lia.
  { intros H. assert (l = 0) as -> by lia. destruct Hdiv as [c ->]. change (31 - 0) with 31 in *.
    change (2 ^ 31) with 2147483648 in *. change (2 ^ 32) with 4294967296 in *. assert (c = 0) by lia. lia. }
  mred. destruct (final_flush e1 W1 mid1 T Hl1 Hreg1) as (e2 & W2 & mid2 & -> & Hl2 & Hs2 & He2 & Hq2). mred.
  assert (same_regs e e2) as Hs12 by (by rewrite Hs1). destruct Hs12 as (_ & _ & _ & Sw & Sn & Sst).
  rewrite <- Sw, <- Sn in Hwin.
  destruct (final_raw e2 W2 mid2 T Hl2 Hwin) as (e3 & w & used & mid3 & T3 & -> & Hl3 & Hs3 & Hu & Hw & He3 & Hq3). mred.
  assert (taken e2 T = taken e T) as Htk by (unfold taken; by rewrite Sn).
  assert (storage e1 = storage e) as Sst1 by apply Hs1. assert (storage e3 = storage e) as Sst3 by (rewrite <- Sst; apply Hs3).
  (* without an error, the digits are those of the point *)
  assert (error e3 = 0 -> error e = 0 /\ length W2 = (length (digits e W) + j)%nat /\
            be_val W2 * 2 ^ 31 = 256 ^ Z.of_nat j * (be_val (digits e W) * 2 ^ 31 + fin)) as Hdig.
  { intros H. destruct (He3 H) as (E2 & _). destruct (He2 E2) as (E1 & ->). by apply He1. }
  assert (error e = 0 -> counted e W T -> ec_tell e <= 8 * storage e ->
            error e3 = 0 /\ 8 * count e W + taken e T + l <= 8 * storage e) as Hroom.
  { unfold ec_tell, counted, count. change EC_CODE_BITS with 32 in Htell. intros E0 Hc Ht.
    assert (0 <= nend_bits e) by lia. unfold taken in *. split; [|lia].
    pose proof (Hq1 E0 ltac:(lia)) as E1. destruct (He1 E1) as (_ & Hlen1 & _).
    pose proof (Hq2 E1 ltac:(lia)) as E2. destruct (He2 E2) as (_ & E2').
    apply Hq3; [done|]. rewrite E2'. lia. }
  case_decide as Herr.
  2: { exists e3. split; [done|]. split; [split; [done|]|split; [done|]].
       - destruct Hl3 as (_ & _ & _ & <- & _ & ?). by split.
       - intros E0 Hc Ht. by apply Hroom. }
  destruct (Hdig Herr) as (E0 & Hlen & HV). destruct (He3 Herr) as (_ & Hraw & Htk3).
  destruct (done_tail_spec e3 W2 mid3 T3 (l - 8 * Z.of_nat j) w used) as (ef & -> & (Hsb1 & Hsb2 & Hsb3) & Hfin & Hok); try done.
  { apply (point_divides _ (be_val (digits e W)) fin); (done || lia). }
  { intros ->. cbn [length] in Hlen. lia. }
  exists ef. split; [done|]. split; [unfold same_buffer; split_and!; congruence|]. split.
  - intros Hef. split; [done|]. destruct (Hfin Hef) as (B & rest & d & Hbuf & HB & HBV & Hd & Hrawf).
    split; [done|]. unfold low, position. split; [|by rewrite <- Htk, <- Htk3, Hrawf, Hraw, Sw].
    clear - Hsb3 Hbuf HB HBV Hd HV H1 H2 Hl9 Hj Hlen.
    assert (be_val (digits e W) * 2 ^ 31 + fin <= stream (buf ef) (length (digits e W) + 4) / 2
              < be_val (digits e W) * 2 ^ 31 + fin + 2 ^ (31 - l)); [|lia].
    apply (point_stream (buf ef) B (be_val W2) d _ (length (digits e W)) j l); try (done || lia). by exists rest.
  - intros _ Hc Ht. destruct (Hroom E0 Hc Ht) as [_ Hle]. apply Hok. rewrite Hlen, Sst3. unfold count in Hle. lia.
Qed.
