(* ===== verification/RangeCoder.v ===== *)
(** * The range coder of Opus: encoder and decoder together

    The contract of [opus-main/celt/entenc.c] and [entdec.c]: what is encoded within the
    budget of the buffer is decoded, both sides account for the same number of bits after
    every symbol, and nothing is read or written outside the buffer. *)

From S2P Require Import Prelude EntCode EntEnc EntDec EntEncFacts Laplace EntDecFacts EntCoder EntDone.

(** A decoder that starts on the finished buffer is linked to a fresh encoder. *)
Lemma linked_init b0 bf :
  zlen bf = zlen b0 -> zlen b0 < 2 ^ 32 -> is_bytes bf -> exists d, ec_dec_init bf (zlen bf) = Some d /\
    linked bf (ec_enc_init b0 (zlen b0)) [] [] d.
Proof.
  intros Hlen Hlt Hb. destruct (dec_init_spec bf Hb ltac:(lia)) as (d & Hrun & Hd & Hr & Hn & _).
  exists d. split; [done|]. by split_and!.
Qed.

Lemma counted_init b0 : counted (ec_enc_init b0 (zlen b0)) [] [].
Proof. done. Qed.

Lemma enc_all_app e ss1 ss2 : enc_all e (ss1 ++ ss2) = (e ← enc_all e ss1; enc_all e ss2).
Proof.
  revert e. induction ss1 as [|s ss1 IH]; intros e; cbn [enc_all app]; [by mred|].
  destruct (enc_sym e s) as [e1|]; [|done]. mred. apply IH.
Qed.

(** A whole run of the encoder on a fresh buffer. *)
Lemma enc_run b ss :
  is_bytes b -> zlen b < 2 ^ 32 -> Forall sym_ok ss -> 3 * cost ss + 2 < 2 ^ 32 ->
  exists e W mid T ef, enc_all (ec_enc_init b (zlen b)) ss = Some e /\ ec_enc_done e = Some ef /\
    ready e W mid T /\ zlen (buf ef) = zlen b /\ is_bytes (buf ef) /\
    emits (ec_enc_init b (zlen b)) [] [] e W T (fun d => dec_all d ss) (Forall2 decoded ss) /\
    (error ef = 0 -> error e = 0 /\ agrees (buf ef) e W T) /\
    (error e = 0 -> counted e W T -> ec_tell e <= 8 * storage e -> error ef = 0).
Proof.
  intros Hb Hlt Hss Hn. pose proof (ready_init b Hb Hlt) as Hr.
  destruct (emits_all ss Hss _ [] b [] Hr) as (e & W & mid & T & Hrun & Hr' & Hx' & Hem); [cbn; lia|].
  change (ext (ec_enc_init b (zlen b))) with 0 in Hx'.
  destruct (ec_enc_done_spec e W mid T Hr') as (ef & Hdone & (Hs1 & Hs2 & Hs3) & Hag & Hq); [lia|].
  exists e, W, mid, T, ef. pose proof Hem as (_ & _ & _ & Hst). split_and!; try done.
  rewrite Hs2, Hst. done.
Qed.

(** C24 Round trip of the range coder: for every buffer and every sequence of symbols of
    the eight kinds (with the Laplace coders of [laplace.c]) within the limits of the interface, the encoder and [ec_enc_done]
    terminate without an access outside the buffer, and when no error is reported the
    decoder, started on the finished buffer, reads the same symbols back and ends with
    the same range and the same count of bits. *)
Theorem range_coder_roundtrip b ss :
  is_bytes b -> zlen b < 2 ^ 32 -> Forall sym_ok ss -> 3 * cost ss + 2 < 2 ^ 32 ->
  exists e ef, enc_all (ec_enc_init b (zlen b)) ss = Some e /\ ec_enc_done e = Some ef /\
    zlen (buf ef) = zlen b /\
    (error ef = 0 ->
     exists d0 vs d, ec_dec_init (buf ef) (zlen (buf ef)) = Some d0 /\ dec_all d0 ss = Some (vs, d) /\
       Forall2 decoded ss vs /\ rng d = rng e /\ ec_tell d = ec_tell e).
Proof.
  intros Hb Hlt Hss Hn.
  destruct (enc_run b ss Hb Hlt Hss Hn) as (e & W & mid & T & ef & H1 & H2 & _ & Hlen & Hby & (Hem & _) & Hag & _).
  exists e, ef. split_and!; try done. intros Herr. destruct (Hag Herr) as [He Hagr].
  destruct (Hem He) as (_ & _ & Hdec). destruct (Hdec _ Hagr) as [_ Hlink].
  destruct (linked_init b (buf ef) Hlen Hlt Hby) as (d0 & Hini & Hl0).
  destruct (Hlink d0 Hl0) as (vs & d & Hrun & Hvs & (_ & Hr & Hnb)).
  exists d0, vs, d. split_and!; try done. unfold ec_tell. by rewrite Hr, Hnb.
Qed.

(** C25 The encoder keeps its budget: if the bits it accounts for after the last symbol
    fit the buffer, neither the symbols nor [ec_enc_done] ran out of space. *)
Theorem range_encoder_budget b ss :
  is_bytes b -> zlen b < 2 ^ 32 -> Forall sym_ok ss -> 3 * cost ss + 2 < 2 ^ 32 ->
  exists e ef, enc_all (ec_enc_init b (zlen b)) ss = Some e /\ ec_enc_done e = Some ef /\
    (ec_tell e <= 8 * zlen b -> ec_get_error e = 0 /\ ec_get_error ef = 0).
Proof.
  intros Hb Hlt Hss Hn.
  destruct (enc_run b ss Hb Hlt Hss Hn) as (e & W & mid & T & ef & H1 & H2 & [Hok Hr] & _ & _ & (Hem & Hq & _ & Hst) & _ & Hq').
  exists e, ef. split_and!; try done. unfold ec_tell. intros Ht.
  change (storage (ec_enc_init b (zlen b))) with (zlen b) in *.
  assert (ec_ilog (rng e) <= 32) as Hil.
  { destruct Hok as [_ _ [_ HR] _ _ _ _]. rewrite ec_ilog_log2 by lia.
    assert (Z.log2 (rng e) < 32); [apply Z.log2_lt_pow2|]; lia. }
  assert (error e = 0) as He by (apply Hq; [done|apply counted_init|lia]).
  destruct (Hem He) as (_ & Hc & _). split; [done|]. apply Hq'; [done|apply Hc, counted_init|].
  unfold ec_tell. lia.
Qed.

(** Encoder and decoder stay synchronised: after any prefix of the symbols the
    decoder of the finished buffer has the range and the bit counts, whole and
    fractional, which the encoder had there; decisions both sides take from the bits
    used so far agree. *)
Theorem range_coder_lockstep b ss1 ss2 :
  is_bytes b -> zlen b < 2 ^ 32 -> Forall sym_ok (ss1 ++ ss2) -> 3 * cost (ss1 ++ ss2) + 2 < 2 ^ 32 ->
  exists e1 e2 ef, enc_all (ec_enc_init b (zlen b)) ss1 = Some e1 /\ enc_all e1 ss2 = Some e2 /\
    ec_enc_done e2 = Some ef /\
    (error ef = 0 ->
     exists d0 vs d, ec_dec_init (buf ef) (zlen (buf ef)) = Some d0 /\ dec_all d0 ss1 = Some (vs, d) /\
       rng d = rng e1 /\ ec_tell d = ec_tell e1 /\ ec_tell_frac d = ec_tell_frac e1).
Proof.
  intros Hb Hlt [Hs1 Hs2]%Forall_app. rewrite cost_app. intros Hn. pose proof (ready_init b Hb Hlt) as Hr.
  pose proof (cost_nonneg ss1). pose proof (cost_nonneg ss2).
  destruct (emits_all ss1 Hs1 _ [] b [] Hr) as (e1 & W1 & mid1 & T1 & Hrun1 & Hr1 & Hx1 & (Hem1 & _ & _ & Hst1)); [cbn; lia|].
  change (ext (ec_enc_init b (zlen b))) with 0 in Hx1.
  destruct (emits_all ss2 Hs2 e1 W1 mid1 T1 Hr1) as (e2 & W2 & mid2 & T2 & Hrun2 & Hr2 & Hx2 & (Hem2 & _ & _ & Hst2)); [lia|].
  destruct (ec_enc_done_spec e2 W2 mid2 T2 Hr2) as (ef & Hdone & (Hf1 & Hf2 & Hf3) & Hag & _); [lia|].
  exists e1, e2, ef. split_and!; try done. intros Herr. destruct (Hag Herr) as [E2 Hagr].
  destruct (Hem2 E2) as (E1 & _ & Hdec2). destruct (Hdec2 _ Hagr) as [Hagr1 _].
  destruct (Hem1 E1) as (_ & _ & Hdec1). destruct (Hdec1 _ Hagr1) as [_ Hlink].
  destruct (linked_init b (buf ef)) as (d0 & Hini & Hl0); [rewrite Hf2, Hst2, Hst1; done|done|done|].
  destruct (Hlink d0 Hl0) as (vs & d & Hrund & Hvs & (_ & Hrd & Hnb)).
  exists d0, vs, d. split_and!; try done; unfold ec_tell, ec_tell_frac; by rewrite Hrd, Hnb.
Qed.

(** The state invariant of the encoder: after any sequence of symbols the range is
    normalised, the top of the interval does not overflow the 32-bit register, the two
    ends of the buffer have not met, and the raw bits fit their window. *)
Theorem range_encoder_invariant b ss e :
  is_bytes b -> zlen b < 2 ^ 32 -> Forall sym_ok ss -> 3 * cost ss + 2 < 2 ^ 32 ->
  enc_all (ec_enc_init b (zlen b)) ss = Some e ->
  EC_CODE_BOT < rng e <= EC_CODE_TOP /\ 0 <= val e /\ val e + rng e < 2 ^ 32 /\
  offs e + end_offs e <= storage e /\ storage e = zlen b /\ zlen (buf e) = zlen b /\ is_bytes (buf e) /\
  -1 <= rem e <= EC_SYM_MAX /\ 0 <= nend_bits e <= EC_WINDOW_SIZE /\ 0 <= end_window e < 2 ^ nend_bits e.
Proof.
  intros Hb Hlt Hss Hn Hrun.
  destruct (enc_run b ss Hb Hlt Hss Hn) as (e' & W & mid & T & ef & H1 & _ & [Hok Hr] & _ & _ & (_ & _ & _ & Hst) & _).
  rewrite Hrun in H1. injection H1 as <-. destruct Hok as [Hl [Hrem _] [_ HR] Hv Htop _ [Hnb Hw]].
  destruct (layout_full _ _ _ _ Hl) as [_ Hs]. destruct Hl as (_ & Ho & He & Hsz & _ & Hby).
  change (storage (ec_enc_init b (zlen b))) with (zlen b) in Hst.
  change EC_CODE_BOT with (2 ^ 23). change EC_CODE_TOP with (2 ^ 31). change EC_SYM_MAX with 255.
  change EC_WINDOW_SIZE with 32. split_and!; (done || lia).
Qed.

(** The table-driven count of bits in units of 1/8 equals the squaring loop that the
    sources keep as its definition, for every state of an encoder. *)
Theorem tell_frac_equivalence b ss e :
  is_bytes b -> zlen b < 2 ^ 32 -> Forall sym_ok ss -> 3 * cost ss + 2 < 2 ^ 32 ->
  enc_all (ec_enc_init b (zlen b)) ss = Some e ->
  ec_tell_frac e = Some (ec_tell_frac_ref e).
Proof.
  intros Hb Hlt Hss Hn Hrun. apply tell_frac_equal.
  destruct (enc_run b ss Hb Hlt Hss Hn) as (e' & W & mid & T & ef & H1 & _ & [Hok Hr] & _).
  rewrite Hrun in H1. injection H1 as <-. destruct Hok as [_ _ [_ HR] _ _ _ _].
  change EC_CODE_BOT with (2 ^ 23). by change EC_CODE_TOP with (2 ^ 31).
Qed.

(** ** Concrete runs *)

Definition example_symbols : list sym :=
  [SEncode 3 5 11; SIcdf 1 [200; 120; 30; 0] 8; SBits 9 5; SUint 70000 1000000; SBit 1 3; SBin 0 7 4;
   SIcdf 0 [64; 0] 7; SBits 3 2; SUint 5 6; SLaplace (-3) (72 * 128) (127 * 64);
   SLaplaceP0 9 16000 16000; SEncode 0 1 2].

Lemma example_icdf_ok : sym_ok (SIcdf 1 [200; 120; 30; 0] 8) /\ sym_ok (SIcdf 0 [64; 0] 7).
Proof.
  split; (split; [lia|]).
  - exists 200, 120. split_and!; try (done || lia). repeat constructor; lia.
  - exists 128, 64. split_and!; (done || lia || constructor).
Qed.

Lemma example_symbols_ok : Forall sym_ok example_symbols.
Proof.
  repeat (constructor; [first [exact (proj1 example_icdf_ok)|exact (proj2 example_icdf_ok)|cbn; lia|split; [vm_compute; reflexivity|lia]]|]). constructor.
Qed.

Definition example_buffer : list Z := replicate 16 0.

Lemma example_buffer_ok : is_bytes example_buffer.
Proof. by apply Forall_replicate. Qed.

Ltac example_premises :=
  first [exact example_buffer_ok|exact example_symbols_ok|vm_compute; reflexivity|vm_compute; congruence].

Lemma range_coder_roundtrip_witness :
  exists e ef, enc_all (ec_enc_init example_buffer 16) example_symbols = Some e /\ ec_enc_done e = Some ef /\
    ec_get_error ef = 0 /\ ec_tell e = 57 /\
    exists d0 vs d, ec_dec_init (buf ef) (zlen (buf ef)) = Some d0 /\ dec_all d0 example_symbols = Some (vs, d) /\
      Forall2 decoded example_symbols vs /\ ec_tell d = 57.
Proof.
  destruct (range_coder_roundtrip example_buffer example_symbols) as (e & ef & H1 & H2 & _ & H4);
    [example_premises..|].
  exists e, ef. vm_compute in H1. injection H1 as <-. vm_compute in H2. injection H2 as <-.
  split; [vm_compute; reflexivity|]. split; [vm_compute; reflexivity|]. split; [reflexivity|]. split; [reflexivity|].
  destruct (H4 eq_refl) as (d0 & vs & d & G1 & G2 & G3 & _ & G5).
  exists d0, vs, d. exact (conj G1 (conj G2 (conj G3 G5))).
Defined.

Lemma range_encoder_budget_witness :
  exists e ef, enc_all (ec_enc_init example_buffer 16) example_symbols = Some e /\ ec_enc_done e = Some ef /\
    ec_get_error ef = 0.
Proof.
  destruct (range_encoder_budget example_buffer example_symbols) as (e & ef & H1 & H2 & H3); [example_premises..|].
  exists e, ef. split; [exact H1|]. split; [exact H2|]. vm_compute in H1. injection H1 as <-.
  apply H3. vm_compute. congruence.
Defined.

Lemma range_coder_lockstep_witness :
  exists e1 ef d0 vs d, enc_all (ec_enc_init example_buffer 16) (take 4 example_symbols) = Some e1 /\
    ec_dec_init (buf ef) (zlen (buf ef)) = Some d0 /\ dec_all d0 (take 4 example_symbols) = Some (vs, d) /\
    ec_tell_frac d = ec_tell_frac e1.
Proof.
  destruct (range_coder_lockstep example_buffer (take 4 example_symbols) (drop 4 example_symbols))
    as (e1 & e2 & ef & H1 & H2 & H3 & H4); [example_premises..|].
  pose proof H1 as H1'. vm_compute in H1'. injection H1' as E1. rewrite <- E1 in H2. vm_compute in H2. injection H2 as E2.
  rewrite <- E2 in H3. vm_compute in H3. injection H3 as E3. destruct H4 as (d0 & vs & d & G1 & G2 & _ & _ & G3); [by rewrite <- E3|].
  exists e1, ef, d0, vs, d. split; [exact H1|]. split; [exact G1|]. split; [exact G2|exact G3].
Defined.

Lemma range_encoder_invariant_witness :
  exists e, enc_all (ec_enc_init example_buffer 16) example_symbols = Some e /\ offs e + end_offs e <= 16.
Proof.
  eexists. split; [vm_compute; reflexivity|].
  eapply (range_encoder_invariant example_buffer example_symbols); [example_premises..|vm_compute; reflexivity].
Defined.

Lemma tell_frac_equivalence_witness :
  exists e, enc_all (ec_enc_init example_buffer 16) example_symbols = Some e /\ ec_tell_frac e = Some (ec_tell_frac_ref e).
Proof.
  eexists. split; [vm_compute; reflexivity|].
  eapply (tell_frac_equivalence example_buffer example_symbols); [example_premises..|vm_compute; reflexivity].
Defined.
