(* ===== verification/CoarseEnergy.v ===== *)
(** * Coding the coarse energy: the entropy coding of [opus-main/celt/quant_bands.c]

    [quant_coarse_energy_impl] and [unquant_coarse_energy] choose the code of each band
    energy from the bits that are left, so encoder and decoder must agree on [ec_tell].
    The signal arithmetic that proposes an energy is an argument: any function of the
    energies quantised before. *)

From S2P Require Import Prelude EntCode EntEnc EntDec Laplace.

Definition e_prob_model : list (list (list Z)) :=
  [
   [[72; 127; 65; 129; 66; 128; 65; 128; 64; 128; 62; 128; 64; 128; 64; 128; 92; 78; 92; 79; 92; 78; 90; 79; 116;
      41; 115; 40; 114; 40; 132; 26; 132; 26; 145; 17; 161; 12; 176; 10; 177; 11];
    [24; 179; 48; 138; 54; 135; 54; 132; 53; 134; 56; 133; 55; 132; 55; 132; 61; 114; 70; 96; 74; 88; 75; 88; 87;
      74; 89; 66; 91; 67; 100; 59; 108; 50; 120; 40; 122; 37; 97; 43; 78; 50]];
   [[83; 78; 84; 81; 88; 75; 86; 74; 87; 71; 90; 73; 93; 74; 93; 74; 109; 40; 114; 36; 117; 34; 117; 34; 143; 17;
      145; 18; 146; 19; 162; 12; 165; 10; 178; 7; 189; 6; 190; 8; 177; 9];
    [23; 178; 54; 115; 63; 102; 66; 98; 69; 99; 74; 89; 71; 91; 73; 91; 78; 89; 86; 80; 92; 66; 93; 64; 102; 59;
      103; 60; 104; 60; 117; 52; 123; 44; 138; 35; 133; 31; 97; 38; 77; 45]];
   [[61; 90; 93; 60; 105; 42; 107; 41; 110; 45; 116; 38; 113; 38; 112; 38; 124; 26; 132; 27; 136; 19; 140; 20; 155;
      14; 159; 16; 158; 18; 170; 13; 177; 10; 187; 8; 192; 6; 175; 9; 159; 10];
    [21; 178; 59; 110; 71; 86; 75; 85; 84; 83; 91; 66; 88; 73; 87; 72; 92; 75; 98; 72; 105; 58; 107; 54; 115; 52;
      114; 55; 112; 56; 129; 51; 132; 40; 150; 33; 140; 29; 98; 35; 77; 42]];
   [[42; 121; 96; 66; 108; 43; 111; 40; 117; 44; 123; 32; 120; 36; 119; 33; 127; 33; 134; 34; 139; 21; 147; 23; 152;
      20; 158; 25; 154; 26; 166; 21; 173; 16; 184; 13; 184; 10; 150; 13; 139; 15];
    [22; 178; 63; 114; 74; 82; 84; 83; 92; 82; 103; 62; 96; 72; 96; 67; 101; 73; 107; 72; 113; 55; 118; 52; 125; 52;
      118; 52; 117; 55; 135; 49; 137; 39; 157; 32; 145; 29; 97; 33; 77; 40]]
  ].

Definition small_energy_icdf : list Z := [2; 1; 0].

(** The two entries of band [i]: [prob_model[pi]<<7] and [prob_model[pi+1]<<6]. *)
Definition band_model (prob_model : list Z) (i : Z) : option (Z * Z) :=
  let pi := 2 * Z.min i 20 in
  p ← prob_model !! Z.to_nat pi;
  q ← prob_model !! Z.to_nat (pi + 1);
  Some (Z.shiftl p 7, Z.shiftl q 6).

(** The limits put on a proposed energy when few bits are left. *)
Definition limit_qi (bits_left start i qi : Z) (lfe : bool) : Z :=
  let qi :=
    if negb (i =? start) && (bits_left <? 30) then
      let qi := if bits_left <? 24 then Z.min 1 qi else qi in
      if bits_left <? 16 then Z.max (-1) qi else qi
    else qi in
  if lfe && (2 <=? i) then Z.min qi 0 else qi.

(** The energy that is coded comes first. *)
Definition encode_qi (e : ec_ctx) (budget : Z) (prob_model : list Z) (i qi : Z) : option (Z * ec_ctx) :=
  let tell := ec_tell e in
  if 15 <=? budget - tell then
    '(fs, decay) ← band_model prob_model i;
    ec_laplace_encode e qi fs decay
  else if 2 <=? budget - tell then
    let qi := Z.max (-1) (Z.min qi 1) in
    e ← ec_enc_icdf e (Z.lxor (2 * qi) (- (if decide (qi < 0) then 1 else 0))) small_energy_icdf 2;
    Some (qi, e)
  else if 1 <=? budget - tell then
    let qi := Z.min 0 qi in
    e ← ec_enc_bit_logp e (- qi) 1;
    Some (qi, e)
  else Some (-1, e).

Definition decode_qi (d : ec_ctx) (budget : Z) (prob_model : list Z) (i : Z) : option (Z * ec_ctx) :=
  let tell := ec_tell d in
  if 15 <=? budget - tell then
    '(fs, decay) ← band_model prob_model i;
    ec_laplace_decode d fs decay
  else if 2 <=? budget - tell then
    '(qi, d) ← ec_dec_icdf d small_energy_icdf 2;
    Some (Z.lxor (Z.shiftr qi 1) (- Z.land qi 1), d)
  else if 1 <=? budget - tell then
    '(b, d) ← ec_dec_bit_logp d 1;
    Some (- b, d)
  else Some (-1, d).

(** The bands of the two nested loops, each once per channel. *)
Definition bands (start : Z) (n C : nat) : list Z :=
  flat_map (fun k => replicate C (start + Z.of_nat k)) (seq 0 n).

(** [want] proposes an energy from those quantised so far, the last one first. *)
Fixpoint coarse_enc_loop (e : ec_ctx) (budget start last C : Z) (prob_model : list Z) (lfe : bool)
    (want : list Z -> Z) (bs hist : list Z) : option (list Z * ec_ctx) :=
  match bs with
  | [] => Some ([], e)
  | i :: bs =>
    let bits_left := budget - ec_tell e - 3 * C * (last - i) in
    '(qi, e) ← encode_qi e budget prob_model i (limit_qi bits_left start i (want hist) lfe);
    '(qs, e) ← coarse_enc_loop e budget start last C prob_model lfe want bs (qi :: hist);
    Some (qi :: qs, e)
  end.

Definition quant_coarse_energy_impl (e : ec_ctx) (budget tell start : Z) (n C : nat) (prob_model : list Z) (intra : Z)
    (lfe : bool) (want : list Z -> Z) : option (list Z * ec_ctx) :=
  e ← (if tell + 3 <=? budget then ec_enc_bit_logp e intra 3 else Some e);
  coarse_enc_loop e budget start (start + Z.of_nat n) (Z.of_nat C) prob_model lfe want (bands start n C) [].

Fixpoint coarse_dec_loop (d : ec_ctx) (budget : Z) (prob_model : list Z) (bs : list Z) : option (list Z * ec_ctx) :=
  match bs with
  | [] => Some ([], d)
  | i :: bs =>
    '(qi, d) ← decode_qi d budget prob_model i;
    '(qs, d) ← coarse_dec_loop d budget prob_model bs;
    Some (qi :: qs, d)
  end.

Definition unquant_coarse_energy (d : ec_ctx) (start : Z) (n C : nat) (LM intra : Z) : option (list Z * ec_ctx) :=
  m ← e_prob_model !! Z.to_nat LM;
  prob_model ← m !! Z.to_nat intra;
  coarse_dec_loop d (storage d * 8) prob_model (bands start n C).

(** The flag is read by the frame decoder before. *)
Definition decode_intra (d : ec_ctx) : option (Z * ec_ctx) :=
  if ec_tell d + 3 <=? storage d * 8 then ec_dec_bit_logp d 3 else Some (0, d).
