(* ===== verification/CoarseFacts.v ===== *)
(** * The coarse energies are decoded as they were coded

    Encoder and decoder see the same number of bits before every band, so they choose
    the same code; the one exception is a band coded with a single bit whose energy was
    not limited. *)

From S2P Require Import Prelude EntCode EntEnc EntDec Laplace EntEncFacts EntDecFacts.
From S2P Require Import EntCoder EntDone RangeCoder CoarseEnergy.

(** ** The table *)

(** A model that has an admissible pair for every band. *)
Definition model_ok (prob_model : list Z) : Prop :=
  forall i, 0 <= i -> exists fs decay, band_model prob_model i = Some (fs, decay) /\ laplace_ok fs decay = true.

Definition pairs_ok (prob_model : list Z) : bool :=
  forallb (fun k => match band_model prob_model (Z.of_nat k) with
                    | Some (fs, decay) => laplace_ok fs decay
                    | None => false
                    end) (seq 0 21).

Lemma pairs_model prob_model : pairs_ok prob_model = true -> model_ok prob_model.
Proof.
  intros H i Hi. unfold pairs_ok in H. rewrite forallb_forall in H.
  specialize (H (Z.to_nat (Z.min i 20))). rewrite Z2Nat.id in H by lia.
  assert (band_model prob_model (Z.min i 20) = band_model prob_model i) as E.
  { unfold band_model. by replace (Z.min (Z.min i 20) 20) with (Z.min i 20) by lia. }
  rewrite E in H. destruct (band_model prob_model i) as [[fs decay]|].
  - exists fs, decay. split; [done|]. apply H, in_seq. lia.
  - discriminate H. apply in_seq. lia.
Qed.

Lemma e_prob_model_ok LM intra m prob_model :
  e_prob_model !! LM = Some m -> m !! intra = Some prob_model -> model_ok prob_model.
Proof.
  intros Hm Hp. apply pairs_model.
  assert (Forall (Forall (fun p => pairs_ok p = true)) e_prob_model) as H by (repeat constructor; vm_compute; reflexivity).
  pose proof (Forall_lookup_1 _ _ _ _ H Hm) as H1. exact (Forall_lookup_1 _ _ _ _ H1 Hp).
Qed.

(** ** One band *)

(** What the decoder may read for an energy [q] of band [i]. *)
Definition reads (start : Z) (iq : Z * Z) (x : Z) : Prop :=
  x = iq.2 \/ iq.1 = start /\ iq.2 < -1 /\ x = -1.

Lemma small_icdf_value qi :
  -1 <= qi <= 1 ->
  let s := Z.lxor (2 * qi) (- (if decide (qi < 0) then 1 else 0)) in
  sym_ok (SIcdf s small_energy_icdf 2) /\ Z.lxor (Z.shiftr s 1) (- Z.land s 1) = qi.
Proof.
  intros Hq. assert (qi = -1 \/ qi = 0 \/ qi = 1) as [-> |[-> | ->]] by lia; cbv zeta;
    (split; [split; [lia|apply decreasing_icdf; [change (2 ^ 2) with 4; cbn; split_and!; (done || lia)|vm_compute; split; [congruence|reflexivity]]]|reflexivity]).
Qed.

Lemma qi_step e W mid T budget prob_model i qi :
  ready e W mid T -> model_ok prob_model -> 0 <= i -> - 2 ^ 31 < qi < 2 ^ 31 -> ext e + 3 < 2 ^ 32 ->
  exists q e' W' mid' T', encode_qi e budget prob_model i qi = Some (q, e') /\ ready e' W' mid' T' /\ ext e' <= ext e + 3 /\
    emits e W T e' W' T' (fun d => decode_qi d budget prob_model i)
      (fun x => x = q \/ budget - ec_tell e = 1 /\ q = Z.min 0 qi /\ q < -1 /\ x = -1).
Proof.
  intros Hr Hm Hi Hqi Hx. destruct (Hm i Hi) as (fs & decay & Hband & Hok). unfold encode_qi.
  assert (forall b d, linked b e W T d -> ec_tell d = ec_tell e) as Htell.
  { intros b d (_ & Hrd & Hn). unfold ec_tell. by rewrite Hrd, Hn. }
  destruct (15 <=? budget - ec_tell e) eqn:E15; [|destruct (2 <=? budget - ec_tell e) eqn:E2;
    [|destruct (1 <=? budget - ec_tell e) eqn:E1]].
  - rewrite Hband. mred.
    destruct (emits_sym (SLaplace qi fs decay) (conj Hok Hqi) e W mid T Hr) as (e' & W' & mid' & T' & Hrun & Hr' & Hx' & Hem); [cbn; lia|].
    cbn [enc_sym] in Hrun. destruct (ec_laplace_encode e qi fs decay) as [[q e1]|] eqn:Henc; [|done]. injection Hrun as ->.
    exists q, e', W', mid', T'. split; [done|]. split; [done|]. split; [cbn in Hx'; lia|].
    eapply (emits_weaken_linked _ _ _ _ _ _ _ _ id); [exact Hem|]. intros b d x d' Hl Hd Hdec.
    unfold decode_qi. rewrite (Htell b d Hl), E15, Hband. split; [exact Hd|]. left.
    destruct Hdec as (fl & len & Hint). unfold ec_laplace_encode in Henc. rewrite Hint in Henc. revert Henc. mred.
    destruct (ec_encode_bin _ _ _ _); [|done]. mred. by intros [= -> _].
  - set (q := Z.max (-1) (Z.min qi 1)). destruct (small_icdf_value q) as [Hs Hback]; [lia|]. cbv zeta in Hs, Hback. set (s := Z.lxor _ _) in *.
    destruct (emits_sym _ Hs e W mid T Hr) as (e' & W' & mid' & T' & Hrun & Hr' & Hx' & Hem); [cbn; lia|].
    cbn [enc_sym] in Hrun. cbv zeta. rewrite Hrun. mred. exists q, e', W', mid', T'. split; [done|]. split; [done|]. split; [cbn in Hx'; lia|].
    eapply (emits_weaken_linked _ _ _ _ _ _ _ _ (fun _ => q)); [exact Hem|]. intros b d x d' Hl Hd Hdec. cbn [dec_sym decoded] in *. subst x.
    unfold decode_qi. rewrite (Htell b d Hl), E15, E2, Hd. mred. rewrite Hback. split; [done|by left].
  - apply Z.leb_le in E1. apply Z.leb_gt in E2. set (q := Z.min 0 qi).
    destruct (emits_sym (SBit (- q) 1) ltac:(cbn; lia) e W mid T Hr) as (e' & W' & mid' & T' & Hrun & Hr' & Hx' & Hem); [cbn; lia|].
    cbn [enc_sym] in Hrun. cbv zeta. rewrite Hrun. mred. exists q, e', W', mid', T'. split; [done|]. split; [done|]. split; [cbn in Hx'; lia|].
    eapply (emits_weaken_linked _ _ _ _ _ _ _ _ (fun x => - x)); [exact Hem|]. intros b d x d' Hl Hd Hdec. cbn [dec_sym decoded] in *.
    unfold decode_qi. rewrite (Htell b d Hl), E15. rewrite (proj2 (Z.leb_gt 2 _)), (proj2 (Z.leb_le 1 _)), Hd by lia. mred.
    split; [done|]. subst x. unfold nonzero. case_decide; lia.
  - exists (-1), e, W, mid, T. split; [done|]. split; [done|]. split; [lia|].
    eapply (emits_weaken_linked _ _ _ _ _ _ _ _ id); [apply (emits_refl (-1))|]. intros b d x d' Hl [= <- <-] _.
    unfold decode_qi. rewrite (Htell b d Hl), E15, E2, E1. split; [done|by left].
Qed.

(** ** All bands *)

Lemma limit_qi_range bits_left start i qi lfe :
  - 2 ^ 31 < qi < 2 ^ 31 ->
  - 2 ^ 31 < limit_qi bits_left start i qi lfe < 2 ^ 31 /\
  (i <> start -> bits_left < 16 -> -1 <= limit_qi bits_left start i qi lfe).
Proof.
  intros Hq. change (2 ^ 31) with 2147483648 in *. unfold limit_qi. cbv zeta.
  destruct (Z.eqb_spec i start); cbn [negb andb];
    destruct (Z.ltb_spec bits_left 30), (Z.ltb_spec bits_left 24), (Z.ltb_spec bits_left 16), lfe, (Z.leb_spec 2 i);
    cbn [andb]; lia.
Qed.

Lemma coarse_loop_step budget start last C prob_model lfe want bs hist e W mid T :
  ready e W mid T -> model_ok prob_model -> 0 <= C -> Forall (fun i => 0 <= i <= last) bs ->
  (forall h, - 2 ^ 31 < want h < 2 ^ 31) -> ext e + 3 * zlen bs < 2 ^ 32 ->
  exists qs e' W' mid' T', coarse_enc_loop e budget start last C prob_model lfe want bs hist = Some (qs, e') /\
    ready e' W' mid' T' /\ ext e' <= ext e + 3 * zlen bs /\ length qs = length bs /\
    emits e W T e' W' T' (fun d => coarse_dec_loop d budget prob_model bs) (Forall2 (reads start) (zip bs qs)).
Proof.
  intros Hr Hm HC Hbs Hwant. revert e W mid T hist Hr. induction Hbs as [|i bs Hi Hbs IH]; intros e W mid T hist Hr Hx; cbn [coarse_enc_loop length].
  - exists [], e, W, mid, T. split; [done|]. split; [done|]. split; [lia|]. split; [done|].
    eapply (emits_weaken _ _ _ _ _ _ _ _ id); [apply (emits_refl [])|]. intros d x d' [= <- <-] _. by repeat constructor.
  - cbn [length] in Hx. cbv zeta. set (bits_left := budget - ec_tell e - 3 * C * (last - i)).
    destruct (limit_qi_range bits_left start i (want hist) lfe (Hwant hist)) as [Hlim Hlow]. set (qi := limit_qi _ _ _ _ _) in *.
    destruct (qi_step e W mid T budget prob_model i qi Hr Hm) as (q & e1 & W1 & mid1 & T1 & -> & Hr1 & Hx1 & H1); [lia|done|lia|]. mred.
    destruct (IH e1 W1 mid1 T1 (q :: hist) Hr1) as (qs & e2 & W2 & mid2 & T2 & -> & Hr2 & Hx2 & Hlen & H2); [lia|]. mred.
    exists (q :: qs), e2, W2, mid2, T2. split; [done|]. split; [done|]. split; [lia|]. split; [cbn; lia|].
    eapply (emits_weaken _ _ _ _ _ _ _ _ (fun p => p.1 :: p.2)); [exact (emits_bind _ _ _ _ _ _ _ _ _ _ _ _ _ H1 H2)|].
    intros d [x xs] d' Hrun [Hxq Hxs]. cbn [fst snd] in *. split.
    + cbn [coarse_dec_loop]. destruct (decode_qi d budget prob_model i) as [[a d1]|]; [|done]. revert Hrun. mred.
      destruct (coarse_dec_loop d1 budget prob_model bs) as [[ys d2]|]; [|done]. mred. by intros [= -> -> ->].
    + constructor; [|done]. destruct Hxq as [->|(Hone & Hq & Hneg & ->)]; [by left|].
      right. cbn [fst snd]. split; [|done]. destruct (decide (i = start)) as [->|Hne]; [done|].
      assert (bits_left < 16) by (unfold bits_left; nia). specialize (Hlow Hne H). lia.
Qed.

Lemma bands_spec start n C :
  0 <= start -> Forall (fun i => 0 <= i <= start + Z.of_nat n) (bands start n C) /\ length (bands start n C) = (n * C)%nat.
Proof.
  intros Hs. unfold bands.
  assert (forall m k, Forall (fun i => 0 <= i <= start + Z.of_nat (k + m)) (flat_map (fun k => replicate C (start + Z.of_nat k)) (seq k m)) /\
            length (flat_map (fun k => replicate C (start + Z.of_nat k)) (seq k m)) = (m * C)%nat) as H.
  { induction m as [|m IH]; intros k; cbn [seq flat_map]; [by split|]. destruct (IH (S k)) as [IH1 IH2].
    rewrite length_app, length_replicate, IH2. split; [|lia]. apply Forall_app. split; [apply Forall_replicate; lia|].
    eapply Forall_impl; [|exact IH1]. cbn. lia. }
  exact (H n 0%nat).
Qed.

Lemma intra_step e W mid T budget intra :
  ready e W mid T -> 0 <= intra <= 1 -> (intra = 1 -> ec_tell e + 3 <= budget) -> ext e + 3 < 2 ^ 32 ->
  exists e' W' mid', (if ec_tell e + 3 <=? budget then ec_enc_bit_logp e intra 3 else Some e) = Some e' /\
    ready e' W' mid' T /\ ext e' <= ext e + 3 /\
    emits e W T e' W' T (fun d => if ec_tell d + 3 <=? budget then ec_dec_bit_logp d 3 else Some (0, d)) (fun x => x = intra).
Proof.
  intros Hr Hi Hroom Hx.
  assert (forall b d, linked b e W T d -> ec_tell d = ec_tell e) as Htell.
  { intros b d (_ & Hrd & Hn). unfold ec_tell. by rewrite Hrd, Hn. }
  destruct (ec_tell e + 3 <=? budget) eqn:E.
  - destruct (emits_range e W mid T (SBit intra 3) Hr) as (e' & W' & mid' & Hrun & Hr' & Hx' & Hem); [cbn; lia|done|done|].
    exists e', W', mid'. split; [exact Hrun|]. split; [done|]. split; [done|].
    eapply (emits_weaken_linked _ _ _ _ _ _ _ _ id); [exact Hem|]. intros b d x d' Hl Hd Hdec. cbn [dec_sym decoded] in *.
    rewrite (Htell b d Hl), E. split; [exact Hd|]. rewrite Hdec. unfold nonzero. cbn [id]. case_decide; lia.
  - apply Z.leb_gt in E. exists e, W, mid. split; [done|]. split; [done|]. split; [lia|].
    eapply (emits_weaken_linked _ _ _ _ _ _ _ _ id); [apply (emits_refl 0)|]. intros b d x d' Hl [= <- <-] _.
    rewrite (Htell b d Hl), (proj2 (Z.leb_gt _ _)) by lia. split; [done|]. cbn [id]. lia.
Qed.

(** C26 The coarse energies survive the coder: in a frame that codes some symbols, then
    the intra flag and the band energies, then more symbols, the decoder reads for every
    band the energy the encoder kept, whatever the energies are and wherever in the
    frame the bits run out.  The exception: in the first band, an energy below -1 coded
    with the last bit is read as -1. *)
Theorem coarse_energy_roundtrip b ss1 ss2 start n C LM intra m prob_model lfe want e1 :
  is_bytes b -> zlen b < 2 ^ 32 -> Forall sym_ok ss1 -> Forall sym_ok ss2 ->
  3 * (cost ss1 + cost ss2 + 1 + Z.of_nat (n * C)) + 2 < 2 ^ 32 ->
  0 <= start -> e_prob_model !! Z.to_nat LM = Some m -> m !! Z.to_nat intra = Some prob_model -> 0 <= intra <= 1 ->
  (forall h, - 2 ^ 31 < want h < 2 ^ 31) ->
  enc_all (ec_enc_init b (zlen b)) ss1 = Some e1 -> (intra = 1 -> ec_tell e1 + 3 <= 8 * zlen b) ->
  exists qs e2 e3 ef,
    quant_coarse_energy_impl e1 (8 * zlen b) (ec_tell e1) start n C prob_model intra lfe want = Some (qs, e2) /\
    enc_all e2 ss2 = Some e3 /\ ec_enc_done e3 = Some ef /\ length qs = (n * C)%nat /\
    (error ef = 0 -> exists d0 vs d1 d2 xs d3,
       ec_dec_init (buf ef) (zlen (buf ef)) = Some d0 /\ dec_all d0 ss1 = Some (vs, d1) /\ decode_intra d1 = Some (intra, d2) /\
       unquant_coarse_energy d2 start n C LM intra = Some (xs, d3) /\ ec_tell d3 = ec_tell e2 /\
       Forall2 (reads start) (zip (bands start n C) qs) xs).
Proof.
  intros Hb Hlt Hs1 Hs2 Hcost Hstart HLM Hm Hintra Hwant Hrun1 Hroom.
  pose proof (cost_nonneg ss1). pose proof (cost_nonneg ss2). destruct (bands_spec start n C Hstart) as [Hbs Hlen].
  destruct (emits_all ss1 Hs1 _ [] b [] (ready_init b Hb Hlt)) as (e1' & W1 & mid1 & T1 & Hrun1' & Hr1 & Hx1 & (Hem1 & _ & _ & Hst1)); [cbn; lia|].
  rewrite Hrun1 in Hrun1'. injection Hrun1' as <-. change (ext (ec_enc_init b (zlen b))) with 0 in Hx1.
  destruct (intra_step e1 W1 mid1 T1 (8 * zlen b) intra Hr1 Hintra Hroom) as (ei & Wi & midi & Hruni & Hri & Hxi & Hemi); [lia|].
  destruct (coarse_loop_step (8 * zlen b) start (start + Z.of_nat n) (Z.of_nat C) prob_model lfe want (bands start n C) [] ei Wi midi T1 Hri)
    as (qs & e2 & W2 & mid2 & T2 & Hrun2 & Hr2 & Hx2 & Hlq & Hem2); [by eapply e_prob_model_ok|lia|done|done|lia|].
  destruct (emits_all ss2 Hs2 e2 W2 mid2 T2 Hr2) as (e3 & W3 & mid3 & T3 & Hrun3 & Hr3 & Hx3 & (Hem3 & _ & _ & Hst3)); [lia|].
  destruct (ec_enc_done_spec e3 W3 mid3 T3 Hr3) as (ef & Hdone & (Hf1 & Hf2 & Hf3) & Hag & _); [lia|].
  destruct Hemi as (Hemi & _ & _ & Hsti). destruct Hem2 as (Hem2 & _ & _ & Hst2).
  assert (zlen (buf ef) = zlen b) as Hlenf by (rewrite Hf2, Hst3, Hst2, Hsti, Hst1; done).
  exists qs, e2, e3, ef. unfold quant_coarse_energy_impl. rewrite Hruni. mred.
  split; [exact Hrun2|]. split; [done|]. split; [done|]. split; [lia|]. intros Herr.
  destruct (Hag Herr) as [E3 A3]. destruct (Hem3 E3) as (E2 & _ & D3). destruct (D3 _ A3) as [A2 _].
  destruct (Hem2 E2) as (Ei & _ & D2). destruct (D2 _ A2) as [Ai L2]. destruct (Hemi Ei) as (E1 & _ & Di).
  destruct (Di _ Ai) as [A1 Li]. destruct (Hem1 E1) as (_ & _ & D1). destruct (D1 _ A1) as [_ L1].
  destruct (linked_init b (buf ef) Hlenf Hlt Hf3) as (d0 & Hini & Hl0).
  destruct (L1 d0 Hl0) as (vs & d1 & G1 & _ & Hl1). destruct (Li d1 Hl1) as (x & d2 & G2 & -> & Hl2).
  destruct (L2 d2 Hl2) as (xs & d3 & G3 & Hxs & (_ & Hrd & Hn)).
  assert (forall e W T d, linked (buf ef) e W T d -> storage d * 8 = 8 * zlen b) as Hbudget.
  { intros e W T d (Hd & _). rewrite (da_storage _ _ _ _ _ Hd). lia. }
  exists d0, vs, d1, d2, xs, d3. split; [done|]. split; [done|]. unfold decode_intra, unquant_coarse_energy.
  rewrite (Hbudget _ _ _ _ Hl1), (Hbudget _ _ _ _ Hl2), HLM. mred. rewrite Hm. mred.
  split; [done|]. split; [done|]. split; [unfold ec_tell; by rewrite Hrd, Hn|done].
Qed.

(** A band coded with the last bit is not always decoded to what the encoder kept:
    the limit for a single bit bounds the energy from above only, so in the first band
    -5 is kept by the encoder, coded like -1 and decoded as -1. *)
Theorem coarse_energy_last_bit :
  exists e1 e2 ef d0 d1 d2 d3,
    enc_all (ec_enc_init [0; 0] 2) [SBits 0 14] = Some e1 /\ ec_tell e1 = 15 /\
    (exists m prob_model, e_prob_model !! 0%nat = Some m /\ m !! 0%nat = Some prob_model /\
       quant_coarse_energy_impl e1 16 15 0 1 1 prob_model 0 false (fun _ => -5) = Some ([-5], e2)) /\
    ec_enc_done e2 = Some ef /\ error ef = 0 /\
    ec_dec_init (buf ef) 2 = Some d0 /\ dec_all d0 [SBits 0 14] = Some ([0], d1) /\ decode_intra d1 = Some (0, d2) /\
    unquant_coarse_energy d2 0 1 1 0 0 = Some ([-1], d3).
Proof.
  eexists _, _, _, _, _, _, _. split; [vm_compute; reflexivity|]. split; [vm_compute; reflexivity|].
  split; [eexists _, _; split; [reflexivity|]; split; [reflexivity|]; vm_compute; reflexivity|].
  split; [vm_compute; reflexivity|]. split; [reflexivity|]. split; [vm_compute; reflexivity|].
  split; [vm_compute; reflexivity|]. split; [vm_compute; reflexivity|]. vm_compute. reflexivity.
Qed.

Definition example_want (hist : list Z) : Z := match hist with [] => 3 | q :: _ => if decide (q < 0) then 2 else -7 end.

Lemma example_want_range h : - 2 ^ 31 < example_want h < 2 ^ 31.
Proof. change (2 ^ 31) with 2147483648. destruct h as [|q h]; cbn [example_want]; [lia|]. case_decide; lia. Qed.

Lemma coarse_energy_roundtrip_witness :
  exists qs e1 e2 ef, enc_all (ec_enc_init (replicate 6 0) 6) [SBit 1 3] = Some e1 /\
    (exists m prob_model, e_prob_model !! 3%nat = Some m /\ m !! 1%nat = Some prob_model /\
       quant_coarse_energy_impl e1 48 (ec_tell e1) 0 3 2 prob_model 1 false example_want = Some (qs, e2)) /\
    ec_enc_done e2 = Some ef /\ length qs = 6%nat.
Proof.
  destruct (enc_all (ec_enc_init (replicate 6 0) 6) [SBit 1 3]) as [e1|] eqn:E1; [|vm_compute in E1; discriminate E1].
  destruct (e_prob_model !! 3%nat) as [m|] eqn:Em; [|discriminate Em].
  destruct (m !! 1%nat) as [prob_model|] eqn:Ep; [|injection Em as <-; discriminate Ep].
  destruct (coarse_energy_roundtrip (replicate 6 0) [SBit 1 3] [] 0 3 2 3 1 m prob_model false example_want e1)
    as (qs & e2 & e3 & ef & H1 & H2 & H3 & H4 & _).
  - by apply Forall_replicate.
  - vm_compute. reflexivity.
  - constructor; [cbn; lia|constructor].
  - constructor.
  - vm_compute. reflexivity.
  - lia.
  - exact Em.
  - exact Ep.
  - lia.
  - exact example_want_range.
  - exact E1.
  - intros _. vm_compute in E1. injection E1 as <-. vm_compute. congruence.
  - exists qs, e1, e2, ef. split; [reflexivity|]. split; [exists m, prob_model; split; [reflexivity|]; split; [exact Ep|exact H1]|].
    injection H2 as ->. split; [exact H3|exact H4].
Defined.
