(* ===== verification/CwrsFacts.v ===== *)
(** * The codebook of pulse vectors

    The numbers U(N,K) of the comment of [cwrs.c], the index of a vector as a sum of them, and
    the proofs that the table holds them and that encoder and decoder compute the index and
    its inverse. *)

From S2P Require Import Prelude OpusPacket EntCode EntEnc EntDec Cwrs.

(** ** The numbers *)

(** U(N,K) by its recurrence; V(N,K) is the number of vectors. *)
Fixpoint U (n : nat) : nat -> Z :=
  match n with
  | O => fun k => match k with O => 1 | S _ => 0 end
  | S n => fix row k := match k with O => 0 | S k => U n (S k) + row k + U n k end
  end.
Definition V (n k : nat) : Z := U n k + U n (S k).

Lemma U_step n k : U (S n) (S k) = U n (S k) + U (S n) k + U n k.
Proof. done. Qed.

Lemma U_next n k : U (S n) (S k) = U (S n) k + V n k.
Proof. rewrite U_step. unfold V. lia. Qed.

Lemma U_nonneg n k : 0 <= U n k.
Proof. revert k. induction n as [|n IHn]; intros k; [by destruct k|]. induction k as [|k IHk]; [done|]. rewrite U_step. pose proof (IHn k). pose proof (IHn (S k)). lia. Qed.

Lemma U_sym n k : U n k = U k n.
Proof.
  revert k. induction n as [|n IHn]; intros k; [by destruct k|]. induction k as [|k IHk]; [done|]. rewrite !U_step, IHk, (IHn k), (IHn (S k)). lia.
Qed.

Lemma V_nonneg n k : 0 <= V n k.
Proof. unfold V. pose proof (U_nonneg n k). pose proof (U_nonneg n (S k)). lia. Qed.

Lemma U_pos n k : 1 <= U (S n) (S k).
Proof.
  revert k. induction n as [|n IHn]; intros k; [|rewrite U_step; pose proof (IHn k); pose proof (U_nonneg (S (S n)) k); pose proof (U_nonneg (S n) k); lia].
  induction k as [|k IHk]; [done|]. rewrite U_step. pose proof (U_nonneg 0 (S (S k))). pose proof (U_nonneg 0 (S k)). lia.
Qed.

Lemma V_pos n k : 1 <= V (S n) k.
Proof. unfold V. pose proof (U_nonneg (S n) k). pose proof (U_pos n k). lia. Qed.

Lemma U_mono n k k' : (k <= k')%nat -> U (S n) k <= U (S n) k'.
Proof. induction 1 as [|k' _ IH]; [lia|]. rewrite U_next. pose proof (V_nonneg n k'). lia. Qed.

Lemma U_1 k : U 1 (S k) = 1.
Proof. induction k as [|k IH]; [done|]. rewrite U_step, IH. done. Qed.

Lemma U_2 k : U 2 (S k) = 2 * Z.of_nat k + 1.
Proof. induction k as [|k IH]; [done|]. rewrite U_step, IH, !U_1. lia. Qed.

(** ** The table holds them *)

(** A row from the one before it. *)
Fixpoint next_entries (prev : list Z) (cur : Z) : list Z :=
  match prev with
  | a :: (b :: _) as rest => let x := b + cur + a in x :: next_entries rest x
  | _ => []
  end.
Fixpoint row_entries (n m : nat) : list Z :=
  match n with O => 1 :: replicate m 0 | S n => 0 :: next_entries (row_entries n m) 0 end.

Lemma next_entries_spec n k m : next_entries (U n <$> seq k (S m)) (U (S n) k) = U (S n) <$> seq (S k) m.
Proof.
  revert k. induction m as [|m IH]; intros k; [done|]. change (seq k (S (S m))) with (k :: seq (S k) (S m)). rewrite fmap_cons. cbn [next_entries seq fmap list_fmap].
  rewrite <- (IH (S k)), U_step. done.
Qed.

Lemma row_entries_spec n m : row_entries n m = U n <$> seq 0 (S m).
Proof.
  induction n as [|n IH]; cbn [row_entries].
  - cbn. f_equal. assert (forall k, (0 < k)%nat -> U 0 <$> seq k m = replicate m 0) as H; [|by rewrite H by lia].
    induction m as [|m IH]; intros k Hk; [done|]. cbn. f_equal; [by destruct k; [lia|]|]. apply IH. lia.
  - rewrite IH. change 0 with (U (S n) 0) at 2. rewrite next_entries_spec. done.
Qed.

(** The last entry of each row. *)
Definition row_last (r : nat) : nat := nth r [176; 176; 176; 176; 176; 176; 96; 54; 37; 28; 24; 19; 18; 16; 14]%nat 0%nat.

Lemma table_checked r : (r < 15)%nat -> forall c, (r <= c <= row_last r)%nat -> pvq_row (Z.of_nat r) (Z.of_nat c) = row_entries r (row_last r) !! c.
Proof.
  assert (forallb (fun r => forallb (fun c => bool_decide (pvq_row (Z.of_nat r) (Z.of_nat c) = row_entries r (row_last r) !! c)) (seq r (S (row_last r) - r))) (seq 0 15) = true) as H
    by (vm_compute; reflexivity).
  intros Hr c Hc. rewrite forallb_forall in H. specialize (H r ltac:(apply in_seq; lia)). cbv beta in H. rewrite forallb_forall in H.
  specialize (H c ltac:(apply in_seq; lia)). by apply bool_decide_eq_true in H.
Qed.

Lemma pvq_row_spec r c : (r < 15)%nat -> (r <= c <= row_last r)%nat -> pvq_row (Z.of_nat r) (Z.of_nat c) = Some (U r c).
Proof. intros Hr Hc. rewrite table_checked by done. rewrite row_entries_spec, list_lookup_fmap, lookup_seq_lt by lia. done. Qed.

(** The entries that the table has. *)
Definition covered (n k : nat) : Prop := (Nat.min n k < 15 /\ Nat.max n k <= row_last (Nat.min n k))%nat.

Lemma row_last_mono r r' : (r <= r' < 15)%nat -> (row_last r' <= row_last r)%nat.
Proof.
  intros Hr. assert (forallb (fun r' => forallb (fun r => bool_decide (row_last r' <= row_last r)%nat) (seq 0 (S r'))) (seq 0 15) = true) as H by (vm_compute; reflexivity).
  rewrite forallb_forall in H. specialize (H r' ltac:(apply in_seq; lia)). rewrite forallb_forall in H. specialize (H r ltac:(apply in_seq; lia)). by apply bool_decide_eq_true in H.
Qed.

Lemma covered_le n k n' k' : covered n k -> (n' <= n)%nat -> (k' <= k)%nat -> covered n' k'.
Proof. intros [H1 H2] Hn Hk. pose proof (row_last_mono (Nat.min n' k') (Nat.min n k)). split; lia. Qed.

Lemma covered_row n k : covered n k -> (n <= k)%nat -> pvq_row (Z.of_nat n) (Z.of_nat k) = Some (U n k).
Proof. intros [H1 H2] Hn. apply pvq_row_spec; [lia|]. replace (Nat.min n k) with n in H2 by lia. lia. Qed.

Lemma covered_col n k : covered n k -> (k <= n)%nat -> pvq_row (Z.of_nat k) (Z.of_nat n) = Some (U n k).
Proof. intros [H1 H2] Hn. rewrite U_sym. apply pvq_row_spec; [lia|]. replace (Nat.min n k) with k in H2 by lia. lia. Qed.

Lemma covered_u n k : covered n k -> CELT_PVQ_U (Z.of_nat n) (Z.of_nat k) = Some (U n k).
Proof.
  intros H. unfold CELT_PVQ_U. destruct (decide (n <= k)%nat).
  - rewrite Z.min_l, Z.max_r by lia. by apply covered_row.
  - rewrite Z.min_r, Z.max_l by lia. apply covered_col; [done|lia].
Qed.

Lemma covered_small n k : covered n k -> (n <= 176 /\ k <= 176)%nat.
Proof. intros [H1 H2]. pose proof (row_last_mono 0 (Nat.min n k) ltac:(lia)) as H. change (row_last 0) with 176%nat in H. lia. Qed.

(** ** The index of a vector *)

(** The number of pulses. *)
Fixpoint pulses (y : list Z) : nat := match y with [] => O | v :: y => Z.abs_nat v + pulses y end.

Fixpoint index (y : list Z) : Z :=
  match y with
  | [] => 0
  | v :: y' => index y' + U (length y) (pulses y') + (if decide (v < 0) then U (length y) (S (pulses y)) else 0)
  end.

(** Where the index without the sign lies. *)
Definition unsigned_index (y : list Z) : Z := match y with [] => 0 | _ :: y' => index y' + U (length y) (pulses y') end.

Lemma index_cons v y : index (v :: y) = unsigned_index (v :: y) + (if decide (v < 0) then U (S (length y)) (S (pulses (v :: y))) else 0).
Proof. done. Qed.

Lemma index_bounds y : 0 <= index y < V (length y) (pulses y).
Proof.
  induction y as [|v y IH]; [by vm_compute|]. rewrite index_cons. unfold V. cbn [unsigned_index length]. set (k := pulses (v :: y)). set (n := length y) in *.
  pose proof (U_nonneg (S n) (pulses y)). pose proof (U_nonneg (S n) (S k)). pose proof (U_next n (pulses y)). assert (k = (Z.abs_nat v + pulses y)%nat) as Hk by done. case_decide.
  - pose proof (U_mono n (S (pulses y)) k ltac:(lia)). lia.
  - pose proof (U_mono n (S (pulses y)) (S k) ltac:(lia)). pose proof (U_nonneg (S n) k). lia.
Qed.

(** The unsigned index tells how many pulses are left. *)
Lemma unsigned_bounds v y : U (S (length y)) (pulses y) <= unsigned_index (v :: y) < U (S (length y)) (S (pulses y)).
Proof. cbn [unsigned_index length]. pose proof (index_bounds y). rewrite U_next. lia. Qed.

(** The index tells the sign. *)
Lemma index_sign v y : index (v :: y) >= U (S (length y)) (S (pulses (v :: y))) <-> v < 0.
Proof.
  rewrite index_cons. pose proof (unsigned_bounds v y) as [H1 H2]. pose proof (U_nonneg (S (length y)) (pulses y)). case_decide; [lia|].
  pose proof (U_mono (length y) (S (pulses y)) (S (pulses (v :: y))) ltac:(cbn [pulses]; lia)). lia.
Qed.

Lemma index_tail v y : index y + U (S (length y)) (pulses y) <= index (v :: y).
Proof. rewrite index_cons. cbn [unsigned_index length]. pose proof (U_nonneg (S (length y)) (S (pulses (v :: y)))). case_decide; lia. Qed.

Lemma index_drop j y : index (drop j y) <= index y.
Proof.
  revert j. induction y as [|v y IH]; intros [|j]; try done. cbn [drop]. specialize (IH j). pose proof (index_tail v y). pose proof (U_nonneg (S (length y)) (pulses y)). lia.
Qed.

Lemma pulses_drop j y : (pulses (drop j y) <= pulses y)%nat.
Proof. revert j. induction y as [|v y IH]; intros [|j]; try done. cbn [drop pulses]. specialize (IH j). lia. Qed.

(** A vector that the table and 32 bits are enough for. *)
Record codable (n k : nat) : Prop := {
  cd_table : covered n (S k);
  cd_width : V n k < 2 ^ 32
}.

(** *** The encoder computes it *)

Lemma icwrs_loop_spec j y :
  (j <= length y)%nat -> (1 <= length y)%nat -> codable (length y) (pulses y) ->
  icwrs_loop j (zlen y) y (index (drop j y)) (Z.of_nat (pulses (drop j y))) = Some (index y).
Proof.
  intros Hj Hy [Hc Hw]. induction j as [|j IH]; [done|]. cbn [icwrs_loop]. destruct (lookup_lt_is_Some_2 y j) as [v Ev]; [lia|].
  pose proof (drop_S y v j Ev) as Ed. set (t := drop (S j) y) in *. assert (length (drop j y) = length y - j)%nat as El by apply length_drop. rewrite Ed in El. cbn [length] in El.
  assert (zlen y - Z.of_nat j = Z.of_nat (S (length t))) as -> by lia. pose proof (pulses_drop j y) as Hp. rewrite Ed in Hp. cbn [pulses] in Hp.
  assert (covered (S (length t)) (S (pulses (v :: t)))) as Hcov by (eapply covered_le; [exact Hc|lia|cbn [pulses]; lia]). pose proof (covered_small _ _ Hcov) as [_ Hsmall]. cbn [pulses] in Hsmall.
  rewrite covered_u by (eapply covered_le; [exact Hcov|lia|cbn [pulses]; lia]). mred. rewrite Ev. mred. rewrite int_chk_ok by lia. mred.
  pose proof (index_drop j y) as Hi. rewrite Ed in Hi. pose proof (index_bounds y). pose proof (index_bounds t). pose proof (index_tail v t). pose proof (U_nonneg (S (length t)) (pulses t)).
  rewrite (wrap_small 32 (index t + _)) by lia. replace (Z.of_nat (pulses t) + Z.abs v) with (Z.of_nat (pulses (drop j y))) by (rewrite Ed; cbn [pulses]; lia).
  specialize (IH ltac:(lia)). rewrite Ed in IH |- *. rewrite index_cons in IH, Hi. cbn [unsigned_index length] in IH, Hi. destruct (decide (v < 0)).
  - replace (Z.of_nat (pulses (v :: t)) + 1) with (Z.of_nat (S (pulses (v :: t)))) by lia. rewrite (covered_u _ _ Hcov). mred.
    pose proof (U_nonneg (S (length t)) (S (pulses (v :: t)))). rewrite wrap_small by lia. exact IH.
  - mred. rewrite Z.add_0_r in IH. exact IH.
Qed.

Lemma icwrs_spec y : (2 <= length y)%nat -> codable (length y) (pulses y) -> icwrs (zlen y) y = Some (index y).
Proof.
  intros Hy Hc. unfold icwrs, celt_assert. rewrite bool_decide_true by lia. mred. replace (Z.to_nat (zlen y - 1)) with (length y - 1)%nat by lia.
  destruct (lookup_lt_is_Some_2 y (length y - 1)) as [v Ev]; [lia|]. rewrite Ev. mred. pose proof (drop_S y v _ Ev) as Ed. replace (S (length y - 1)) with (length y) in Ed by lia. rewrite drop_all in Ed.
  rewrite <- (icwrs_loop_spec (length y - 1) y ltac:(lia) ltac:(lia) Hc), Ed. f_equal; [|cbn [pulses]; lia]. cbn [index pulses length]. rewrite U_1. case_decide; cbn; lia.
Qed.

Lemma V_spec n k : codable n k -> CELT_PVQ_V (Z.of_nat n) (Z.of_nat k) = Some (V n k).
Proof.
  intros [Hc Hw]. unfold CELT_PVQ_V. rewrite covered_u by (eapply covered_le; [exact Hc|lia|lia]). mred. replace (Z.of_nat k + 1) with (Z.of_nat (S k)) by lia.
  rewrite covered_u by done. mred. rewrite wrap_small; [done|]. split; [apply V_nonneg|done].
Qed.

(** *** The decoder inverts it *)

(** The sum of the squares. *)
Fixpoint squares (y : list Z) : Z := match y with [] => 0 | v :: y => v * v + squares y end.

Lemma squares_bound y : 0 <= squares y <= Z.of_nat (pulses y) * Z.of_nat (pulses y).
Proof. induction y as [|v y IH]; cbn [squares pulses]; [lia|]. assert (v * v = Z.abs v * Z.abs v) by (destruct (Z.abs_spec v) as [[_ ->]|[_ ->]]; lia). nia. Qed.

Lemma col_loop_spec fuel n k k1 i :
  covered n k -> (k <= n)%nat -> (k1 < k)%nat -> (k - k1 <= fuel)%nat ->
  (forall j, (k1 < j < k)%nat -> i < U n j) -> U n k1 <= i -> col_loop fuel (Z.of_nat n) (Z.of_nat k) i = Some (Z.of_nat k1, U n k1).
Proof.
  revert k. induction fuel as [|fuel IH]; intros k Hc Hk Hlt Hf Hj Hi; [lia|]. cbn [col_loop]. replace (Z.of_nat k - 1) with (Z.of_nat (k - 1)) by lia.
  rewrite (covered_col n (k - 1)) by (lia || (eapply covered_le; [exact Hc|lia|lia])). mred. destruct (decide (k - 1 = k1)%nat) as [->|Hne].
  - by rewrite decide_False by lia.
  - specialize (Hj (k - 1)%nat ltac:(lia)) as Hj'. rewrite decide_True by lia. apply IH; try done; try lia; [eapply covered_le; [exact Hc|lia|lia]|]. intros j H. apply Hj. lia.
Qed.

Lemma row_loop_spec fuel n k k1 i :
  covered n k -> (n <= k1)%nat -> (k1 <= k)%nat -> (k - k1 < fuel)%nat ->
  (forall j, (k1 < j <= k)%nat -> i < U n j) -> U n k1 <= i -> row_loop fuel (Z.of_nat n) (Z.of_nat k) i = Some (Z.of_nat k1, U n k1).
Proof.
  revert k. induction fuel as [|fuel IH]; intros k Hc Hk Hlt Hf Hj Hi; [lia|]. cbn [row_loop]. rewrite (covered_row n k) by (done || lia). mred. destruct (decide (k = k1)) as [->|Hne].
  - by rewrite decide_False by lia.
  - specialize (Hj k ltac:(lia)) as Hj'. rewrite decide_True by lia. replace (Z.of_nat k - 1) with (Z.of_nat (k - 1)) by lia.
    apply IH; try lia; [eapply covered_le; [exact Hc|lia|lia]|]. intros j H. apply Hj. lia.
Qed.

Lemma less_step i p (b : bool) : 0 <= p -> 0 <= i < 2 ^ 32 -> p < 2 ^ 32 -> (b = true -> p <= i) -> less i p (if b then -1 else 0) = i - if b then p else 0.
Proof.
  intros Hp Hi Hp' Hb. unfold less. destruct b.
  - change (u32 (-1)) with (Z.ones 32). rewrite Z.land_ones by lia. rewrite (Z.mod_small p) by lia. specialize (Hb eq_refl). apply wrap_small. lia.
  - change (u32 0) with 0. rewrite Z.land_0_r. apply wrap_small. lia.
Qed.

Lemma pulse_spec k k1 v : (k = Z.abs_nat v + k1)%nat -> Z.of_nat k <= 32767 -> pulse (Z.of_nat k) (Z.of_nat k1) (if decide (v < 0) then -1 else 0) = v.
Proof.
  intros -> Hk. unfold pulse, i16. case_decide.
  - rewrite Z.lxor_m1_r. unfold Z.lnot, Z.pred. rewrite Z.mod_small by lia. lia.
  - rewrite Z.lxor_0_r. rewrite Z.mod_small by lia. lia.
Qed.

Section step.
Context (v : Z) (y : list Z).
Local Abbreviation n := (S (length y)).
Local Abbreviation k := (pulses (v :: y)).
Context (Hw : V n k < 2 ^ 32).

Lemma signed_part :
  sign_of (index (v :: y)) (U n (S k)) = (if decide (v < 0) then -1 else 0) /\
  less (index (v :: y)) (U n (S k)) (if decide (v < 0) then -1 else 0) = unsigned_index (v :: y).
Proof.
  pose proof (index_bounds (v :: y)) as Hb. pose proof (index_sign v y) as Hs. unfold V in Hw, Hb. cbn [length] in Hb. pose proof (U_nonneg n (S k)). pose proof (U_nonneg n k). split.
  - unfold sign_of. repeat case_decide; tauto.
  - pose proof (index_cons v y) as Hi. destruct (decide (v < 0)).
    + etransitivity; [apply (less_step _ _ true); lia|lia].
    + etransitivity; [apply (less_step _ _ false); done || lia|lia].
Qed.

Lemma left_small : 0 <= index y < 2 ^ 32 /\ u32 (unsigned_index (v :: y) - U n (pulses y)) = index y.
Proof.
  pose proof (index_bounds (v :: y)) as Hb. cbn [length] in Hb. pose proof (index_bounds y). pose proof (index_tail v y). pose proof (U_nonneg n (pulses y)).
  cbn [unsigned_index length]. split; [lia|]. rewrite wrap_small by lia. lia.
Qed.

(** Fewer pulses have a smaller number. *)
Lemma above j : (pulses y < j)%nat -> unsigned_index (v :: y) < U n j.
Proof. intros Hj. pose proof (unsigned_bounds v y). pose proof (U_mono (length y) (S (pulses y)) j ltac:(lia)). lia. Qed.

Lemma below j : (j <= pulses y)%nat -> U n j <= unsigned_index (v :: y).
Proof. intros Hj. pose proof (unsigned_bounds v y). pose proof (U_mono (length y) j (pulses y) ltac:(lia)). lia. Qed.

Lemma lots_of_pulses_spec :
  covered n (S k) -> (1 <= length y)%nat -> (n <= k)%nat -> lots_of_pulses (Z.of_nat n) (Z.of_nat k) (index (v :: y)) = Some (v, Z.of_nat (pulses y), index y).
Proof.
  intros Hcov Hy Hk. destruct signed_part as [Hs Hl]. destruct left_small as [_ Hleft]. pose proof (covered_small _ _ Hcov) as [_ Hsmall].
  assert (k = Z.abs_nat v + pulses y)%nat as Ek by done. unfold lots_of_pulses. replace (Z.of_nat k + 1) with (Z.of_nat (S k)) by lia.
  rewrite (covered_row n (S k)) by (done || lia). mred. rewrite Hs, Hl. rewrite (covered_row n n) by (lia || (eapply covered_le; [exact Hcov|lia|lia])). mred.
  destruct (decide (U n n > unsigned_index (v :: y))) as [Hq|Hq].
  - assert (pulses y < n)%nat as Hlt. { destruct (decide (pulses y < n)%nat) as [?|Hnot]; [done|]. pose proof (below n ltac:(lia)). lia. }
    unfold celt_assert. rewrite bool_decide_true by (destruct (length y) as [|m]; [lia|]; rewrite U_next; pose proof (V_pos m k); pose proof (U_mono (S m) (S (S m)) k Hk); lia).
    mred. rewrite Nat2Z.id. rewrite (col_loop_spec n n n (pulses y)); [|eapply covered_le; [exact Hcov|lia|lia]|lia|lia|lia|intros j Hj; apply above; lia|apply below; lia].
    mred. rewrite pulse_spec by lia. by rewrite Hleft.
  - assert (n <= pulses y)%nat as Hle. { destruct (decide (n <= pulses y)%nat) as [?|Hnot]; [done|]. pose proof (above n ltac:(lia)). lia. }
    mred. rewrite Nat2Z.id. rewrite (row_loop_spec (S k) n k (pulses y)); [|eapply covered_le; [exact Hcov|lia|lia]|lia|lia|lia|intros j Hj; apply above; lia|apply below; lia].
    mred. rewrite pulse_spec by lia. by rewrite Hleft.
Qed.

Lemma lots_of_dimensions_spec :
  covered n (S k) -> (k < n)%nat -> lots_of_dimensions (Z.of_nat n) (Z.of_nat k) (index (v :: y)) = Some (v, Z.of_nat (pulses y), index y).
Proof.
  intros Hcov Hk. destruct signed_part as [Hs Hl]. destruct left_small as [_ Hleft]. pose proof (covered_small _ _ Hcov) as [_ Hsmall].
  assert (k = Z.abs_nat v + pulses y)%nat as Ek by done. unfold lots_of_dimensions.
  rewrite (covered_col n k) by (lia || (eapply covered_le; [exact Hcov|lia|lia])). mred. replace (Z.of_nat k + 1) with (Z.of_nat (S k)) by lia.
  rewrite (covered_col n (S k)) by (done || lia). mred. pose proof (index_sign v y) as Hsign. pose proof (index_cons v y) as Hi. pose proof (below k) as Hb. pose proof (above k) as Ha.
  destruct (bool_decide (U n k <= index (v :: y)) && bool_decide (index (v :: y) < U n (S k))) eqn:E.
  - apply andb_prop in E as [E1 E2]. apply bool_decide_eq_true in E1, E2. assert (~ v < 0) by (intros H; apply Hsign in H; lia). rewrite decide_False in Hi by done.
    assert (v = 0) as Hv. { destruct (decide (v = 0)) as [?|Hnot]; [done|]. specialize (Ha ltac:(lia)). lia. } assert (k = pulses y) as Ek' by lia. rewrite Z.add_0_r in Hi. rewrite Ek', Hi, Hleft. by rewrite Hv.
  - rewrite Hs, Hl. assert (pulses y < k)%nat as Hlt.
    { destruct (decide (v = 0)) as [Hv|Hnot]; [|lia]. exfalso. apply andb_false_iff in E. rewrite !bool_decide_eq_false in E. rewrite decide_False in Hi by lia. specialize (Hb ltac:(lia)).
      assert (~ index (v :: y) >= U n (S k)) by (rewrite Hsign; lia). lia. }
    rewrite Nat2Z.id. rewrite (col_loop_spec k n k (pulses y)); [|eapply covered_le; [exact Hcov|lia|lia]|lia|lia|lia|intros j Hj; apply above; lia|apply below; lia].
    mred. rewrite pulse_spec by lia. by rewrite Hleft.
Qed.

End step.

Lemma last_two_spec a b : codable 2 (pulses [a; b]) -> last_two (Z.of_nat (pulses [a; b])) (index [a; b]) = (a, b).
Proof.
  intros [Hcov Hw]. destruct (signed_part a [b] Hw) as [Hs Hl]. pose proof (covered_small _ _ Hcov) as [_ Hsmall]. cbn [length] in Hs, Hl. rewrite U_2 in Hs, Hl.
  unfold last_two. rewrite Hs, Hl. set (k := pulses [b]). assert (pulses [a; b] = (Z.abs_nat a + k)%nat) as Ek by done. assert (k = Z.abs_nat b) as Eb by (unfold k; cbn [pulses]; lia).
  assert (unsigned_index [a; b] = (if decide (b < 0) then 1 else 0) + U 2 k) as Ei.
  { cbn [unsigned_index index length]. fold k. rewrite U_1. change (U 1 (pulses [])) with 0. case_decide; lia. }
  assert (u32 (unsigned_index [a; b] + 1) = unsigned_index [a; b] + 1) as Hu.
  { apply wrap_small. rewrite Ei. destruct k as [|k']; [|rewrite U_2]; repeat case_decide; cbn [U]; lia. }
  assert (Z.shiftr (unsigned_index [a; b] + 1) 1 = Z.of_nat k) as Hk.
  { rewrite Z.shiftr_div_pow2 by lia. rewrite Ei. change (2 ^ 1) with 2. destruct k as [|k']; [|rewrite U_2]; repeat case_decide; cbn [U]; try lia; zlia. }
  rewrite Hu, Hk. assert ((if decide (Z.of_nat k = 0) then unsigned_index [a; b] else u32 (unsigned_index [a; b] - (2 * Z.of_nat k - 1))) = if decide (b < 0) then 1 else 0) as ->.
  { rewrite Ei. destruct k as [|k'].
    - rewrite decide_True by lia. cbn [U]. case_decide; lia.
    - rewrite decide_False by lia. rewrite U_2. rewrite wrap_small by (case_decide; lia). lia. }
  rewrite pulse_spec by lia. f_equal. unfold i16. case_decide.
  - change (- (1)) with (-1). rewrite Z.lxor_m1_r. unfold Z.lnot, Z.pred. rewrite Z.mod_small by lia. lia.
  - change (- 0) with 0. rewrite Z.lxor_0_r. rewrite Z.mod_small by lia. lia.
Qed.

Lemma codable_le n k n' k' : codable (S n) k -> (1 <= n')%nat -> (n' <= S n)%nat -> (k' <= k)%nat -> V n' k' <= V (S n) k -> codable n' k'.
Proof. intros [H1 H2] H3 H4 H5 H6. split; [eapply covered_le; [exact H1|lia|lia]|lia]. Qed.

(** A vector without its first value has no larger number. *)
Lemma V_tail n k k' : (k' <= k)%nat -> V n k' <= V (S n) k.
Proof.
  intros Hk. pose proof (U_next n k'). pose proof (U_nonneg (S n) k'). pose proof (U_mono n (S k') (S k) ltac:(lia)). pose proof (U_nonneg (S n) k). unfold V at 2. lia.
Qed.

Lemma cwrsi_loop_spec m y yy :
  length y = S (S m) -> codable (length y) (pulses y) -> 0 <= yy -> yy + squares y < 2 ^ 31 ->
  cwrsi_loop m (Z.of_nat (pulses y)) (index y) yy = Some (y, yy + squares y).
Proof.
  revert y yy. induction m as [|m IH]; intros y yy Hlen Hc Hyy Hsq; (destruct y as [|v y]; [done|]); cbn [cwrsi_loop]; injection Hlen as Hlen.
  - destruct y as [|w [|]]; try done. rewrite last_two_spec by exact Hc. cbn [squares] in *. unfold MAC16_16. rewrite int_chk_ok by nia. mred. rewrite int_chk_ok by nia. mred. do 2 f_equal. lia.
  - replace (Z.of_nat (S m) + 2) with (Z.of_nat (S (length y))) by lia. pose proof (squares_bound y).
    assert ((if decide (Z.of_nat (pulses (v :: y)) >= Z.of_nat (S (length y))) then lots_of_pulses (Z.of_nat (S (length y))) (Z.of_nat (pulses (v :: y))) (index (v :: y))
      else lots_of_dimensions (Z.of_nat (S (length y))) (Z.of_nat (pulses (v :: y))) (index (v :: y))) = Some (v, Z.of_nat (pulses y), index y)) as ->.
    { destruct Hc as [Hcov Hw]. case_decide; [apply lots_of_pulses_spec|apply lots_of_dimensions_spec]; done || lia. }
    mred. cbn [squares] in *. unfold MAC16_16. rewrite int_chk_ok by nia. mred. rewrite IH; [mred; do 2 f_equal; lia|done| |nia|lia].
    apply (codable_le (length y) _ _ _ Hc); [lia|lia|cbn [pulses]; lia|]. apply V_tail. cbn [pulses]. lia.
Qed.

Lemma cwrsi_spec y :
  (2 <= length y)%nat -> (0 < pulses y)%nat -> codable (length y) (pulses y) -> cwrsi (zlen y) (Z.of_nat (pulses y)) (index y) = Some (y, squares y).
Proof.
  intros Hy Hk Hc. unfold cwrsi, celt_assert. rewrite bool_decide_true by lia. mred. rewrite bool_decide_true by lia. mred.
  pose proof (squares_bound y). destruct Hc as [Hcov Hw]. pose proof (covered_small _ _ Hcov) as [_ Hsmall].
  rewrite cwrsi_loop_spec; [done|lia|by split|lia|nia].
Qed.

(** *** Every index belongs to a vector *)

Lemma largest n k x : 0 <= x < U (S n) (S k) -> exists k1, (k1 <= k)%nat /\ U (S n) k1 <= x < U (S n) (S k1).
Proof.
  intros Hx. induction k as [|k IH]; [exists O; split; [lia|]; split; [exact (proj1 Hx)|exact (proj2 Hx)]|]. destruct (decide (x < U (S n) (S k))) as [H|H].
  - destruct IH as (k1 & H1 & H2); [lia|]. exists k1. split; [lia|done].
  - exists (S k). split; [lia|]. lia.
Qed.

Lemma index_onto n k i : 0 <= i < V n k -> exists y, length y = n /\ pulses y = k /\ index y = i.
Proof.
  revert k i. induction n as [|n IH]; intros k i Hi.
  - exists []. unfold V in Hi. destruct k as [|k]; cbn [U] in Hi; [|lia]. split; [done|]. split; [done|]. cbn [index]. lia.
  - unfold V in Hi. set (neg := bool_decide (i >= U (S n) (S k))). set (x := if neg then i - U (S n) (S k) else i).
    assert (exists k1, (k1 <= k)%nat /\ (neg = true -> (k1 < k)%nat) /\ U (S n) k1 <= x < U (S n) (S k1)) as (k1 & H1 & H2 & H3).
    { unfold x, neg. case_bool_decide as E.
      - destruct k as [|k]; [cbn [U] in *; lia|]. destruct (largest n k (i - U (S n) (S (S k)))) as (k1 & ? & ?); [lia|]. exists k1. split; [lia|]. split; [lia|done].
      - destruct (largest n k i) as (k1 & ? & ?); [lia|]. exists k1. split; [lia|]. done. }
    destruct (IH k1 (x - U (S n) k1)) as (y & Hl & Hp & Hi'); [rewrite U_next in H3; lia|].
    exists ((if neg then - (Z.of_nat (k - k1)) else Z.of_nat (k - k1)) :: y). cbn [length]. split; [by rewrite Hl|].
    set (v := if neg then _ else _). assert (pulses (v :: y) = k) as Hk by (cbn [pulses]; unfold v; destruct neg; [specialize (H2 eq_refl)|]; lia).
    split; [done|]. rewrite index_cons, Hk. cbn [unsigned_index length]. rewrite Hl, Hp, Hi'. unfold v, x. clearbody neg. destruct neg; [specialize (H2 eq_refl); rewrite decide_True by lia|rewrite decide_False by lia]; lia.
Qed.
