(* ===== verification/PulseVectors.v ===== *)
(** * Pulse vectors in a frame

    The codebook of a band, and the pulse vectors among the other symbols of the range coder. *)

From S2P Require Import Prelude OpusPacket EntCode EntEnc EntDec Laplace EntEncFacts EntDecFacts EntCoder EntDone RangeCoder Cwrs CwrsFacts.

(** C11 The vectors of [n] integers whose absolute values add up to [k] are numbered without a
    gap: [icwrs] gives each its own number below V(N,K), the size that the table gives, every
    number below it belongs to one of them, and [cwrsi] returns it with the sum of its squares. *)
Theorem pulse_codebook n k :
  (2 <= n)%nat -> (0 < k)%nat -> codable n k ->
  CELT_PVQ_V (Z.of_nat n) (Z.of_nat k) = Some (V n k) /\
  (forall y, length y = n -> pulses y = k ->
    exists i, 0 <= i < V n k /\ icwrs (Z.of_nat n) y = Some i /\ cwrsi (Z.of_nat n) (Z.of_nat k) i = Some (y, squares y)) /\
  (forall i, 0 <= i < V n k ->
    exists y, length y = n /\ pulses y = k /\ icwrs (Z.of_nat n) y = Some i /\ cwrsi (Z.of_nat n) (Z.of_nat k) i = Some (y, squares y)).
Proof.
  intros Hn Hk Hc. split; [by apply V_spec|]. split.
  - intros y <- <-. exists (index y). split; [apply index_bounds|]. by split; [apply icwrs_spec|apply cwrsi_spec].
  - intros i Hi. destruct (index_onto n k i Hi) as (y & <- & <- & <-). exists y. do 2 (split; [done|]). by split; [apply icwrs_spec|apply cwrsi_spec].
Qed.

(** ** Among other symbols *)

Inductive item :=
| Symbol (s : sym)
| Vector (y : list Z).

Definition item_ok (t : item) : Prop :=
  match t with
  | Symbol s => sym_ok s
  | Vector y => (2 <= length y)%nat /\ (0 < pulses y)%nat /\ codable (length y) (pulses y)
  end.

Definition enc_item (e : ec_ctx) (t : item) : option ec_ctx :=
  match t with Symbol s => enc_sym e s | Vector y => encode_pulses y (zlen y) (Z.of_nat (pulses y)) e end.
Fixpoint enc_items (e : ec_ctx) (ts : list item) : option ec_ctx :=
  match ts with [] => Some e | t :: ts => e ← enc_item e t; enc_items e ts end.

(** What is read: the value of a symbol, or the vector with its energy.  The decoder knows the
    kind of an item, and the length and the pulses of a vector. *)
Definition dec_item (d : ec_ctx) (t : item) : option ((Z + list Z * Z) * ec_ctx) :=
  match t with
  | Symbol s => '(v, d) ← dec_sym d s; Some (inl v, d)
  | Vector y => '(y, yy, d) ← decode_pulses (zlen y) (Z.of_nat (pulses y)) d; Some (inr (y, yy), d)
  end.
Fixpoint dec_items (d : ec_ctx) (ts : list item) : option (list (Z + list Z * Z) * ec_ctx) :=
  match ts with [] => Some ([], d) | t :: ts => '(v, d) ← dec_item d t; '(vs, d) ← dec_items d ts; Some (v :: vs, d) end.

Definition item_decoded (t : item) (v : Z + list Z * Z) : Prop :=
  match t, v with
  | Symbol s, inl v => decoded s v
  | Vector y, inr r => r = (y, squares y)
  | _, _ => False
  end.

(** A vector is sent as one symbol. *)
Definition as_symbol (t : item) : sym :=
  match t with Symbol s => s | Vector y => SUint (index y) (V (length y) (pulses y)) end.

Lemma V_two n k : (1 <= n)%nat -> (0 < k)%nat -> 2 <= V n k.
Proof. intros Hn Hk. destruct n as [|n]; [lia|]. destruct k as [|k]; [lia|]. unfold V. pose proof (U_pos n k). pose proof (U_pos n (S k)). lia. Qed.

Lemma as_symbol_ok t : item_ok t -> sym_ok (as_symbol t).
Proof.
  destruct t as [s|y]; [done|]. intros (Hn & Hk & [_ Hw]). cbn. pose proof (index_bounds y). pose proof (V_two (length y) (pulses y) ltac:(lia) Hk). lia.
Qed.

Lemma enc_item_symbol e t : item_ok t -> enc_item e t = enc_sym e (as_symbol t).
Proof.
  destruct t as [s|y]; [done|]. intros (Hn & Hk & Hc). cbn. unfold encode_pulses, celt_assert. rewrite bool_decide_true by lia. mred.
  rewrite icwrs_spec by done. mred. by rewrite V_spec.
Qed.

Lemma enc_items_symbols e ts : Forall item_ok ts -> enc_items e ts = enc_all e (as_symbol <$> ts).
Proof.
  intros H. revert e. induction H as [|t ts Ht _ IH]; intros e; [done|]. cbn [enc_items fmap list_fmap enc_all]. rewrite enc_item_symbol by done.
  destruct (enc_sym e (as_symbol t)); mred; [apply IH|done].
Qed.

Lemma dec_item_symbol d t v d' : item_ok t -> dec_sym d (as_symbol t) = Some (v, d') -> decoded (as_symbol t) v -> exists w, dec_item d t = Some (w, d') /\ item_decoded t w.
Proof.
  destruct t as [s|y]; intros Ht E Hv; cbn [as_symbol dec_item] in *.
  - rewrite E. mred. by exists (inl v).
  - destruct Ht as (Hn & Hk & Hc). cbn in E, Hv. subst v. unfold decode_pulses. rewrite V_spec by done. mred. rewrite E. mred. rewrite cwrsi_spec by done. mred. by exists (inr (y, squares y)).
Qed.

Lemma dec_items_symbols ts d vs d' :
  Forall item_ok ts -> dec_all d (as_symbol <$> ts) = Some (vs, d') -> Forall2 decoded (as_symbol <$> ts) vs ->
  exists ws, dec_items d ts = Some (ws, d') /\ Forall2 item_decoded ts ws.
Proof.
  intros H. revert d vs. induction H as [|t ts Ht _ IH]; intros d vs; cbn [fmap list_fmap dec_all dec_items].
  - intros [= <- <-] _. by exists [].
  - destruct (dec_sym d (as_symbol t)) as [[v d1]|] eqn:E; [|done]. mred. change (list_fmap _ _ as_symbol ts) with (as_symbol <$> ts).
    destruct (dec_all d1 (as_symbol <$> ts)) as [[vs1 d2]|] eqn:E'; [|done]. mred. intros [= <- <-] Hv. apply Forall2_cons_1 in Hv as [Hv Hvs].
    destruct (dec_item_symbol d t v d1 Ht E Hv) as (w & -> & Hw). mred. destruct (IH d1 vs1 E' Hvs) as (ws & -> & Hws). mred. exists (w :: ws). split; [done|]. by constructor.
Qed.

(** C4 The pulse vectors of a frame come back: any sequence of symbols of the range coder and of
    pulse vectors is encoded without an access outside the buffer or a failed assertion, and
    when no error is reported the decoder reads the same symbols and vectors from the finished
    buffer, each vector with the sum of its squares. *)
Theorem pulse_vectors_roundtrip b ts :
  is_bytes b -> zlen b < 2 ^ 32 -> Forall item_ok ts -> 3 * cost (as_symbol <$> ts) + 2 < 2 ^ 32 ->
  exists e ef, enc_items (ec_enc_init b (zlen b)) ts = Some e /\ ec_enc_done e = Some ef /\
    (error ef = 0 ->
     exists d0 vs d, ec_dec_init (buf ef) (zlen (buf ef)) = Some d0 /\ dec_items d0 ts = Some (vs, d) /\ Forall2 item_decoded ts vs).
Proof.
  intros Hb Hlt Hts Hn. assert (Forall sym_ok (as_symbol <$> ts)) as Hss by (apply Forall_fmap; eapply Forall_impl; [|exact Hts]; intros t; apply as_symbol_ok).
  destruct (enc_run b _ Hb Hlt Hss Hn) as (e & W & mid & T & ef & H1 & H2 & _ & Hlen & Hby & (Hem & _) & Hag & _).
  exists e, ef. rewrite enc_items_symbols by done. split; [done|]. split; [done|]. intros Herr. destruct (Hag Herr) as [He Hagr].
  destruct (Hem He) as (_ & _ & Hdec). destruct (Hdec _ Hagr) as [_ Hlink]. destruct (linked_init b (buf ef) Hlen Hlt Hby) as (d0 & Hini & Hl0).
  destruct (Hlink d0 Hl0) as (vs & d & Hrun & Hvs & _). destruct (dec_items_symbols ts d0 vs d Hts Hrun Hvs) as (ws & Hws & Hdw). by exists d0, ws, d.
Qed.

(** ** A frame *)

Definition example_vector : list Z := [2; -1; 0; 3].
Definition example_items : list item := [Symbol (SBit 1 3); Vector example_vector; Vector [0; -1; 0; 0; 0; 0; 0; 1]; Symbol (SUint 70 300)].

Lemma example_codable : codable 4 6 /\ codable 8 2.
Proof. by split; split; [split; cbn; lia|by vm_compute|split; cbn; lia|by vm_compute]. Qed.

Lemma pulse_codebook_witness :
  codable 4 6 /\ exists i, icwrs 4 example_vector = Some i /\ cwrsi 4 6 i = Some (example_vector, 14).
Proof.
  split; [exact (proj1 example_codable)|]. destruct (pulse_codebook 4 6 ltac:(lia) ltac:(lia) (proj1 example_codable)) as (_ & H & _).
  destruct (H example_vector eq_refl eq_refl) as (i & _ & H1 & H2). exists i. split; [exact H1|exact H2].
Defined.

Lemma example_items_ok : Forall item_ok example_items.
Proof.
  destruct example_codable as [H1 H2]. repeat constructor; cbn; try lia; try (by destruct H1); try (by destruct H2).
Qed.

Lemma pulse_vectors_roundtrip_witness :
  exists e ef, enc_items (ec_enc_init example_buffer 16) example_items = Some e /\ ec_enc_done e = Some ef /\ error ef = 0 /\
    exists d0 vs d, ec_dec_init (buf ef) (zlen (buf ef)) = Some d0 /\ dec_items d0 example_items = Some (vs, d) /\ Forall2 item_decoded example_items vs.
Proof.
  destruct (pulse_vectors_roundtrip example_buffer example_items example_buffer_ok ltac:(vm_compute; reflexivity) example_items_ok ltac:(vm_compute; reflexivity)) as (e & ef & H1 & H2 & H3).
  exists e, ef. vm_compute in H1. injection H1 as <-. vm_compute in H2. injection H2 as <-. split; [vm_compute; reflexivity|]. split; [vm_compute; reflexivity|]. split; [reflexivity|]. exact (H3 eq_refl).
Defined.
