(* ===== verification/CwrsSmall.v ===== *)
(** * Pulse vectors in little memory [celt/cwrs.c of opus-main, SMALL_FOOTPRINT]

    The same code of pulse vectors without the table: one row of U(N,K) is kept in an array and
    turned into the next or the previous row in place. *)

From S2P Require Import Prelude OpusPacket EntCode EntEnc EntDec Cwrs CwrsFacts.

(** An element of an array is written. *)
Definition put (u : list Z) (j : nat) (x : Z) : option (list Z) := _ ← u !! j; Some (<[j := x]> u).

(** [UADD32] and [USUB32]. *)
Definition UADD32 (a b : Z) : Z := u32 (a + b).
Definition USUB32 (a b : Z) : Z := u32 (a - b).

(** ** Rows *)

(** The do loop of [unext] and [uprev], which differ in the operation, with [fuel] rounds after
    this one, and the store after it. *)
Fixpoint row_step (op : Z -> Z -> Z) (fuel : nat) (ui : list Z) (j : nat) (ui0 : Z) : option (list Z) :=
  uj ← ui !! j;
  up ← ui !! (j - 1)%nat;
  let ui1 := op (op uj up) ui0 in
  ui ← put ui (j - 1) ui0;
  match fuel with O => put ui j ui1 | S fuel => row_step op fuel ui (j + 1) ui1 end.

Definition unext (ui : list Z) (len : Z) (ui0 : Z) : option (list Z) := row_step UADD32 (Z.to_nat (len - 2)) ui 1 ui0.
Definition uprev (ui : list Z) (n : Z) (ui0 : Z) : option (list Z) := row_step USUB32 (Z.to_nat (n - 2)) ui 1 ui0.

(** [u[k] = (k<<1)-1] from [k] on. *)
Fixpoint odd_loop (fuel : nat) (u : list Z) (k : nat) : option (list Z) :=
  match fuel with O => Some u | S fuel => u ← put u k (u32 (Z.shiftl (Z.of_nat k) 1 - 1)); odd_loop fuel u (k + 1) end.

(** [unext(_u+1,_k+1,1)], repeated. *)
Fixpoint rows_loop (fuel : nat) (u : list Z) (k : Z) : option (list Z) :=
  match fuel with
  | O => Some u
  | S fuel => t ← unext (drop 1 u) (k + 1) 1; rows_loop fuel (take 1 u ++ t) k
  end.

Definition ncwrs_urow (n k : Z) (u : list Z) : option (Z * list Z) :=
  let len := k + 2 in
  _ ← celt_assert (bool_decide (len >= 3));
  u ← put u 0 0;
  u ← put u 1 1;
  _ ← celt_assert (bool_decide (n >= 2));
  _ ← celt_assert (bool_decide (k > 0));
  u ← odd_loop (Z.to_nat (len - 2)) u 2;
  u ← rows_loop (Z.to_nat (n - 2)) u k;
  u0 ← u !! Z.to_nat k;
  u1 ← u !! Z.to_nat (k + 1);
  Some (u32 (u0 + u1), u).

(** ** The bits that a band needs *)

(** The do loop, a round for each value of [frac] down to 0. *)
Fixpoint log2_loop (frac : nat) (val l : Z) : Z * Z :=
  let b := Z.shiftr val 16 in
  let l := l + Z.shiftl b (Z.of_nat frac) in
  let val := Z.shiftr (u32 (val + b)) b in
  let val := Z.shiftr (u32 (u32 (val * val) + 0x7FFF)) 15 in
  match frac with O => (val, l) | S frac => log2_loop frac val l end.

Definition log2_frac (val : Z) (frac : nat) : Z :=
  let l := ec_ilog val in
  if decide (Z.land val (u32 (val - 1)) <> 0) then
    let val := if decide (l > 16) then u32 (Z.shiftr (u32 (val - 1)) (l - 16) + 1) else u32 (Z.shiftl val (16 - l)) in
    let l := Z.shiftl (l - 1) (Z.of_nat frac) in
    let '(val, l) := log2_loop frac val l in
    l + (if decide (val > 0x8000) then 1 else 0)
  else Z.shiftl (l - 1) (Z.of_nat frac).

(** [_bits[k]] for [k] from 1 on, as 16-bit integers. *)
Fixpoint bits_loop (fuel : nat) (u : list Z) (k : nat) (frac : nat) : option (list Z) :=
  match fuel with
  | O => Some []
  | S fuel =>
    u0 ← u !! k;
    u1 ← u !! (k + 1)%nat;
    bits ← bits_loop fuel u (k + 1) frac;
    Some (i16 (log2_frac (u32 (u0 + u1)) frac) :: bits)
  end.

Definition get_required_bits (n maxk : Z) (frac : nat) (u : list Z) : option (list Z) :=
  _ ← celt_assert (bool_decide (maxk > 0));
  if decide (n = 1) then Some (0 :: replicate (Z.to_nat maxk) (i16 (Z.shiftl 1 (Z.of_nat frac))))
  else
    '(_, u) ← ncwrs_urow n maxk u;
    bits ← bits_loop (Z.to_nat maxk) u 1 frac;
    Some (0 :: bits).

(** ** Decoding *)

(** [while(p>_i)p=_u[--_k];] *)
Fixpoint down_loop (fuel : nat) (u : list Z) (k : nat) (p i : Z) : option (nat * Z) :=
  match fuel with
  | O => None
  | S fuel => if decide (p > i) then match k with O => None | S k => p ← u !! k; down_loop fuel u k p i end else Some (k, p)
  end.

(** The rounds of the do loop. *)
Fixpoint cwrsi_rounds (m : nat) (k : nat) (i yy : Z) (u : list Z) : option (list Z * Z) :=
  match m with
  | O => Some ([], yy)
  | S m =>
    p ← u !! (k + 1)%nat;
    let s := sign_of i p in
    let i := less i p s in
    p ← u !! k;
    '(k1, p) ← down_loop (S k) u k p i;
    let val := pulse (Z.of_nat k) (Z.of_nat k1) s in
    yy ← MAC16_16 yy val val;
    u ← uprev u (Z.of_nat k1 + 2) 0;
    '(y, yy) ← cwrsi_rounds m k1 (u32 (i - p)) yy u;
    Some (val :: y, yy)
  end.

Definition cwrsi (n k i : Z) (u : list Z) : option (list Z * Z) :=
  _ ← celt_assert (bool_decide (n > 0));
  cwrsi_rounds (Z.to_nat n) (Z.to_nat k) i 0 u.

(** ** Encoding *)

Definition icwrs1 (y0 : Z) : Z * Z := (if decide (y0 < 0) then 1 else 0, Z.abs y0).

(** What a dimension adds: the index and the number of pulses. *)
Definition icwrs_add (u : list Z) (yj i k : Z) : option (Z * Z) :=
  uk ← u !! Z.to_nat k;
  let i := u32 (i + uk) in
  k ← int_chk (k + Z.abs yj);
  i ← (if decide (yj < 0) then uk ← u !! Z.to_nat (k + 1); Some (u32 (i + uk)) else Some i);
  Some (i, k).

(** The while loop. *)
Fixpoint icwrs_rounds (j : nat) (kk : Z) (y : list Z) (i k : Z) (u : list Z) : option (Z * Z * list Z) :=
  match j with
  | O => Some (i, k, u)
  | S j => u ← unext u (kk + 2) 0; yj ← y !! j; '(i, k) ← icwrs_add u yj i k; icwrs_rounds j kk y i k u
  end.

(** The index and the number of vectors. *)
Definition icwrs (n kk : Z) (y u : list Z) : option (Z * Z) :=
  _ ← celt_assert (bool_decide (n >= 2));
  u ← put u 0 0;
  u ← odd_loop (Z.to_nat (kk + 1)) u 1;
  y0 ← y !! Z.to_nat (n - 1);
  let '(i, k) := icwrs1 y0 in
  yj ← y !! Z.to_nat (n - 2);
  '(i, k) ← icwrs_add u yj i k;
  '(i, k, u) ← icwrs_rounds (Z.to_nat (n - 2)) kk y i k u;
  u0 ← u !! Z.to_nat k;
  u1 ← u !! Z.to_nat (k + 1);
  Some (i, u32 (u0 + u1)).

(** The array holds anything at first. *)
Definition encode_pulses (y : list Z) (n k : Z) (u : list Z) (enc : ec_ctx) : option ec_ctx :=
  _ ← celt_assert (bool_decide (k > 0));
  '(i, nc) ← icwrs n k y u;
  ec_enc_uint enc i nc.

Definition decode_pulses (n k : Z) (u : list Z) (dec : ec_ctx) : option (list Z * Z * ec_ctx) :=
  _ ← celt_assert (bool_decide (k > 0));
  '(v, u) ← ncwrs_urow n k u;
  '(i, dec) ← ec_dec_uint dec v;
  '(y, yy) ← cwrsi n k i u;
  Some (y, yy, dec).
