(* ===== verification/CwrsSmallFacts.v ===== *)
(** * Both builds number the pulse vectors in the same way

    The array of the small build holds a row of U(N,K) at every step, so its encoder and
    decoder compute the index of [CwrsFacts] too. *)

From S2P Require Import Prelude OpusPacket EntCode EntEnc EntDec Cwrs CwrsFacts CwrsSmall.

(** ** Rows in place *)

Lemma put_spec u j x : (j < length u)%nat -> put u j x = Some (<[j := x]> u).
Proof. intros Hj. unfold put. destruct (lookup_lt_is_Some_2 u j Hj) as [y ->]. done. Qed.

(** The first [m] elements of an array. *)
Definition holds (u : list Z) (f : nat -> Z) (m : nat) : Prop := (m <= length u)%nat /\ forall i, (i < m)%nat -> u !! i = Some (f i).

Lemma holds_le u f m m' : holds u f m -> (m' <= m)%nat -> holds u f m'.
Proof. intros [H1 H2] Hm. split; [lia|]. intros i Hi. apply H2. lia. Qed.

Lemma holds_ext u f g m : holds u f m -> (forall i, (i < m)%nat -> f i = g i) -> holds u g m.
Proof. intros [H1 H2] H. split; [done|]. intros i Hi. rewrite H2 by done. by rewrite H. Qed.

(** The row that the loop computes. *)
Fixpoint recur (op : Z -> Z -> Z) (f : nat -> Z) (c : Z) (i : nat) : Z :=
  match i with O => c | S i => op (op (f (S i)) (f i)) (recur op f c i) end.

Lemma row_step_spec op f c fuel u j :
  (j + S fuel < length u)%nat -> (forall i, (i < j)%nat -> u !! i = Some (recur op f c i)) -> (forall i, (j <= i <= j + S fuel)%nat -> u !! i = Some (f i)) ->
  exists u', row_step op fuel u (S j) (recur op f c j) = Some u' /\ length u' = length u /\ (forall i, (i <= j + S fuel)%nat -> u' !! i = Some (recur op f c i)).
Proof.
  revert u j. induction fuel as [|fuel IH]; intros u j Hl Hnew Hold; cbn [row_step]; rewrite Nat.sub_succ, Nat.sub_0_r, !Hold by lia; mred; rewrite put_spec by lia; mred.
  - rewrite put_spec by (rewrite length_insert; lia). eexists. split; [done|]. split; [by rewrite !length_insert|]. intros i Hi.
    destruct (decide (i = S j)) as [->|H1]; [rewrite list_lookup_insert_eq by (rewrite length_insert; lia); done|]. rewrite list_lookup_insert_ne by lia.
    destruct (decide (i = j)) as [->|H2]; [by rewrite list_lookup_insert_eq by lia|]. rewrite list_lookup_insert_ne by lia. apply Hnew. lia.
  - replace (S j + 1)%nat with (S (S j)) by lia. destruct (IH (<[j := recur op f c j]> u) (S j)) as (u' & E & H1 & H2).
    + rewrite length_insert. lia.
    + intros i Hi. destruct (decide (i = j)) as [->|H]; [by rewrite list_lookup_insert_eq by lia|]. rewrite list_lookup_insert_ne by lia. apply Hnew. lia.
    + intros i Hi. rewrite list_lookup_insert_ne by lia. apply Hold. lia.
    + exists u'. split; [exact E|]. rewrite length_insert in H1. split; [done|]. intros i Hi. apply H2. lia.
Qed.

Lemma row_step_holds op f c u len :
  2 <= len -> holds u f (Z.to_nat len) -> exists u', row_step op (Z.to_nat (len - 2)) u 1 c = Some u' /\ holds u' (recur op f c) (Z.to_nat len).
Proof.
  intros Hlen [H1 H2]. destruct (row_step_spec op f c (Z.to_nat (len - 2)) u 0) as (u' & E & H3 & H4); [lia|lia|intros i Hi; apply H2; lia|].
  exists u'. split; [done|]. split; [lia|]. intros i Hi. apply H4. lia.
Qed.

Lemma U_mono_l n n' k : (n <= n')%nat -> U n (S k) <= U n' (S k).
Proof. intros Hn. rewrite (U_sym n), (U_sym n'). by apply U_mono. Qed.

Lemma recur_next n a i : U (S n) (a + i) < 2 ^ 32 -> recur UADD32 (fun i => U n (a + i)) (U (S n) a) i = U (S n) (a + i).
Proof.
  induction i as [|i IH]; cbn [recur]; intros H; [by rewrite Nat.add_0_r|]. rewrite Nat.add_succ_r in H |- *. rewrite U_step in H |- *.
  pose proof (U_nonneg n (S (a + i))). pose proof (U_nonneg n (a + i)). pose proof (U_nonneg (S n) (a + i)). rewrite IH by lia. unfold UADD32. rewrite (wrap_small 32 (U n (S (a + i)) + U n (a + i))) by lia. rewrite wrap_small by lia. lia.
Qed.

Lemma recur_prev n i : U (S (S n)) i < 2 ^ 32 -> recur USUB32 (U (S (S n))) 0 i = U (S n) i.
Proof.
  induction i as [|i IH]; cbn [recur]; intros H; [done|]. rewrite U_step in H |- *.
  pose proof (U_nonneg (S n) (S i)). pose proof (U_nonneg (S n) i). pose proof (U_nonneg (S (S n)) i). rewrite IH by lia. unfold USUB32. rewrite (wrap_small 32 (U (S n) (S i) + _ + _ - _)) by lia. rewrite wrap_small by lia. lia.
Qed.

Lemma odd_loop_spec fuel u k :
  (1 <= k)%nat -> (k + fuel <= length u)%nat -> Z.of_nat (k + fuel) < 2 ^ 31 -> holds u (U 2) k -> exists u', odd_loop fuel u k = Some u' /\ holds u' (U 2) (k + fuel) /\ length u' = length u.
Proof.
  revert u k. induction fuel as [|fuel IH]; intros u k Hk Hl Hlt Hu; cbn [odd_loop]; [exists u; by rewrite Nat.add_0_r|].
  rewrite put_spec by lia. mred. rewrite Z.shiftl_mul_pow2 by lia. destruct (IH (<[k := u32 (Z.of_nat k * 2 ^ 1 - 1)]> u) (k + 1)%nat) as (u' & -> & H & H'); [lia|rewrite length_insert; lia|lia| |].
  - split; [rewrite length_insert; lia|]. intros i Hi. destruct (decide (i = k)) as [->|Hne].
    + rewrite list_lookup_insert_eq by lia. destruct k as [|k]; [lia|]. rewrite U_2. rewrite wrap_small by lia. f_equal. lia.
    + rewrite list_lookup_insert_ne by lia. apply Hu. lia.
  - exists u'. split; [done|]. rewrite length_insert in H'. split; [|done]. by replace (k + S fuel)%nat with (k + 1 + fuel)%nat by lia.
Qed.

(** ** Numbers that fit the types *)

Record fits (n k : nat) : Prop := {
  ft_width : V n k < 2 ^ 32;
  ft_int16 : Z.of_nat k <= 32767
}.

Lemma fits_U n k n' : fits n k -> (n' <= n)%nat -> U n' (S k) < 2 ^ 32.
Proof. intros [H _] Hn. pose proof (U_mono_l n' n k Hn). unfold V in H. pose proof (U_nonneg n k). lia. Qed.

(** ** Encoding *)

Lemma icwrs_add_spec u v y i n k :
  fits n k -> holds u (U (S (length y))) (k + 2) -> (pulses (v :: y) <= k)%nat -> i = index y -> index (v :: y) < 2 ^ 32 ->
  icwrs_add u v i (Z.of_nat (pulses y)) = Some (index (v :: y), Z.of_nat (pulses (v :: y))).
Proof.
  intros [_ Hk] [_ Hu] Hp -> Hi. unfold icwrs_add. cbn [pulses] in *. rewrite Nat2Z.id, Hu by lia. mred. pose proof (index_tail v y) as Ht. pose proof (index_bounds y). pose proof (U_nonneg (S (length y)) (pulses y)).
  rewrite wrap_small by lia. rewrite int_chk_ok by lia. mred. rewrite index_cons in Hi |- *. cbn [unsigned_index length pulses] in *. case_decide.
  - replace (Z.to_nat (Z.of_nat (pulses y) + Z.abs v + 1)) with (S (Z.abs_nat v + pulses y)) by lia. rewrite Hu by lia. mred.
    pose proof (U_nonneg (S (length y)) (S (Z.abs_nat v + pulses y))). rewrite wrap_small by lia. do 2 f_equal. lia.
  - mred. do 2 f_equal; lia.
Qed.

Lemma icwrs_rounds_spec j y u n k :
  n = length y -> fits n k -> k = pulses y -> (S j <= length y)%nat -> holds u (U (length (drop j y))) (k + 2) ->
  exists u', icwrs_rounds j (Z.of_nat k) y (index (drop j y)) (Z.of_nat (pulses (drop j y))) u = Some (index y, Z.of_nat (pulses y), u') /\ holds u' (U (length y)) (k + 2).
Proof.
  intros -> Hf Hk. revert u. induction j as [|j IH]; intros u Hj Hu; [by exists u|]. cbn [icwrs_rounds]. destruct (lookup_lt_is_Some_2 y j) as [v Ev]; [lia|].
  pose proof (drop_S y v j Ev) as Ed. set (t := drop (S j) y) in *. pose proof (length_drop y j) as El. rewrite Ed in El. cbn [length] in El.
  destruct (row_step_holds UADD32 (U (length t)) 0 u (Z.of_nat k + 2)) as (u1 & Eu & Hu1); [lia|by replace (Z.to_nat (Z.of_nat k + 2)) with (k + 2)%nat by lia|].
  unfold unext. rewrite Eu. mred. rewrite Ev. mred. replace (Z.to_nat (Z.of_nat k + 2)) with (k + 2)%nat in Hu1 by lia.
  assert (holds u1 (U (S (length t))) (k + 2)) as Hrow.
  { eapply holds_ext; [exact Hu1|]. intros i Hi. apply (recur_next (length t) 0 i). cbn [Nat.add]. pose proof (fits_U _ _ (S (length t)) Hf ltac:(lia)). pose proof (U_mono (length t) i (S k) ltac:(lia)). lia. }
  pose proof (index_drop j y) as Hi. rewrite Ed in Hi. pose proof (pulses_drop j y) as Hp. rewrite Ed in Hp. pose proof (index_bounds y). destruct Hf as [Hw Hk'].
  rewrite (icwrs_add_spec u1 v t _ (length y) k); [|by split|done|lia|done|rewrite <- Hk in *; lia]. mred. rewrite <- Ed. apply IH; [lia|]. by rewrite Ed.
Qed.

Lemma small_icwrs_spec y u :
  (2 <= length y)%nat -> fits (length y) (pulses y) -> (pulses y + 2 <= length u)%nat ->
  CwrsSmall.icwrs (zlen y) (Z.of_nat (pulses y)) y u = Some (index y, V (length y) (pulses y)).
Proof.
  intros Hy Hf Hu. pose proof Hf as [Hw Hk]. unfold CwrsSmall.icwrs, celt_assert. rewrite bool_decide_true by lia. mred. rewrite put_spec by lia. mred.
  destruct (odd_loop_spec (Z.to_nat (Z.of_nat (pulses y) + 1)) (<[0%nat := 0]> u) 1) as (u1 & -> & Hu1 & _); [lia|rewrite length_insert; lia|lia| |].
  { split; [rewrite length_insert; lia|]. intros i Hi. assert (i = 0%nat) as -> by lia. by rewrite list_lookup_insert_eq by lia. }
  mred. replace (1 + Z.to_nat (Z.of_nat (pulses y) + 1))%nat with (pulses y + 2)%nat in Hu1 by lia. set (n := length y) in *.
  replace (Z.to_nat (Z.of_nat n - 1)) with (S (n - 2)) by lia. replace (Z.to_nat (Z.of_nat n - 2)) with (n - 2)%nat by lia.
  destruct (lookup_lt_is_Some_2 y (S (n - 2))) as [w Ew]; [lia|]. destruct (lookup_lt_is_Some_2 y (n - 2)) as [v Ev]; [lia|]. rewrite Ew. mred. cbn [icwrs1]. rewrite Ev. mred.
  pose proof (drop_S y w _ Ew) as Edw. replace (S (S (n - 2))) with (length y) in Edw by (fold n; lia). rewrite drop_all in Edw. pose proof (drop_S y v _ Ev) as Edv. rewrite Edw in Edv.
  pose proof (index_drop (n - 2) y) as Hi. pose proof (pulses_drop (n - 2) y) as Hp. rewrite Edv in Hi, Hp. pose proof (index_bounds y) as Hb. fold n in Hb.
  pose proof (icwrs_add_spec u1 v [w] (index [w]) n (pulses y) Hf Hu1 Hp eq_refl ltac:(lia)) as Hadd.
  assert (Z.of_nat (pulses [w]) = Z.abs w) as Ek by (cbn [pulses]; lia). assert (index [w] = if decide (w < 0) then 1 else 0) as Ei.
  { cbn [index pulses length]. rewrite U_1. change (U 1 0) with 0. case_decide; lia. }
  rewrite Ek, Ei in Hadd. rewrite Hadd. mred. rewrite <- Edv. destruct (icwrs_rounds_spec (n - 2) y u1 n (pulses y)) as (u2 & -> & Hu2); [done|done|done|lia|by rewrite Edv|].
  mred. destruct Hu2 as [_ Hu2]. rewrite Nat2Z.id, Hu2 by lia. mred. replace (Z.to_nat (Z.of_nat (pulses y) + 1)) with (S (pulses y)) by lia. rewrite Hu2 by lia. mred.
  rewrite wrap_small; [done|]. split; [apply V_nonneg|done].
Qed.

(** ** Decoding *)

Lemma rows_loop_spec fuel u m k n :
  (1 <= m)%nat -> (1 <= k)%nat -> (m + fuel <= n)%nat -> fits n k -> holds u (U m) (k + 2) -> exists u', rows_loop fuel u (Z.of_nat k) = Some u' /\ holds u' (U (m + fuel)) (k + 2).
Proof.
  intros Hm Hk Hn Hf. revert m u Hm Hn. induction fuel as [|fuel IH]; intros m u Hm Hn Hu; cbn [rows_loop]; [exists u; by rewrite Nat.add_0_r|]. destruct Hu as [H1 H2].
  destruct (row_step_holds UADD32 (fun i => U m (1 + i)) (U (S m) 1) (drop 1 u) (Z.of_nat k + 1)) as (t & Et & Ht1 & Ht2); [lia| |].
  { split; [rewrite length_drop; lia|]. intros i Hi. rewrite lookup_drop. apply H2. lia. }
  assert (U (S m) 1 = 1) as E1 by (rewrite U_sym; apply U_1). unfold unext. rewrite E1 in Et, Ht2. rewrite Et. mred. assert (length (take 1 u) = 1%nat) as Hlt by (rewrite length_take; lia).
  destruct (IH (S m) (take 1 u ++ t)) as (u' & -> & Hu'); [lia|lia| |exists u'; split; [done|]; by replace (m + S fuel)%nat with (S m + fuel)%nat by lia].
  split; [rewrite length_app; lia|]. intros [|i] Hi.
  - rewrite lookup_app_l by lia. rewrite lookup_take_lt by lia. rewrite H2 by lia. by destruct m; [lia|].
  - rewrite lookup_app_r by lia. rewrite Hlt. replace (S i - 1)%nat with i by lia. rewrite Ht2 by lia. f_equal. rewrite <- E1. apply (recur_next m 1 i).
    pose proof (fits_U n k (S m) Hf ltac:(lia)). pose proof (U_mono m (1 + i) (S k) ltac:(lia)). lia.
Qed.

Lemma ncwrs_urow_spec n k u :
  (2 <= n)%nat -> (1 <= k)%nat -> fits n k -> (k + 2 <= length u)%nat -> exists u', ncwrs_urow (Z.of_nat n) (Z.of_nat k) u = Some (V n k, u') /\ holds u' (U n) (k + 2).
Proof.
  intros Hn Hk Hf Hu. unfold ncwrs_urow, celt_assert. rewrite bool_decide_true by lia. mred. rewrite put_spec by lia. mred. rewrite put_spec by (rewrite length_insert; lia). mred.
  do 2 (rewrite bool_decide_true by lia; mred). pose proof (ft_int16 _ _ Hf).
  destruct (odd_loop_spec (Z.to_nat (Z.of_nat k + 2 - 2)) (<[1%nat := 1]> (<[0%nat := 0]> u)) 2) as (u1 & -> & Hu1 & _); [lia|rewrite !length_insert; lia|lia| |].
  { split; [rewrite !length_insert; lia|]. intros [|[|i]] Hi; [| |lia].
    - rewrite list_lookup_insert_ne by lia. by rewrite list_lookup_insert_eq by lia.
    - by rewrite list_lookup_insert_eq by (rewrite length_insert; lia). }
  mred. replace (2 + Z.to_nat (Z.of_nat k + 2 - 2))%nat with (k + 2)%nat in Hu1 by lia.
  destruct (rows_loop_spec (Z.to_nat (Z.of_nat n - 2)) u1 2 k n) as (u2 & -> & Hu2); [lia|lia|lia|done|done|]. mred. replace (2 + Z.to_nat (Z.of_nat n - 2))%nat with n in Hu2 by lia.
  pose proof Hu2 as [_ Hl]. rewrite Nat2Z.id. rewrite Hl by lia. mred. replace (Z.to_nat (Z.of_nat k + 1)) with (S k) by lia. rewrite Hl by lia. mred.
  exists u2. rewrite wrap_small; [done|]. split; [apply V_nonneg|apply Hf].
Qed.

Lemma down_loop_spec fuel u f k k1 i :
  holds u f (S k) -> (k1 <= k)%nat -> (k - k1 < fuel)%nat -> (forall j, (k1 < j <= k)%nat -> i < f j) -> f k1 <= i -> down_loop fuel u k (f k) i = Some (k1, f k1).
Proof.
  revert k. induction fuel as [|fuel IH]; intros k Hu Hle Hf Hj Hi; [lia|]. cbn [down_loop]. destruct (decide (k = k1)) as [->|Hne]; [by rewrite decide_False by lia|].
  specialize (Hj k ltac:(lia)) as Hj'. rewrite decide_True by lia. destruct k as [|k]; [lia|]. rewrite (proj2 Hu) by lia. mred. apply IH; [by eapply holds_le; [exact Hu|lia]|lia|lia| |done]. intros j H. apply Hj. lia.
Qed.

Lemma cwrsi_rounds_spec y u yy :
  V (length y) (pulses y) < 2 ^ 32 -> Z.of_nat (pulses y) <= 32767 -> holds u (U (length y)) (pulses y + 2) -> 0 <= yy -> yy + squares y < 2 ^ 31 ->
  cwrsi_rounds (length y) (pulses y) (index y) yy u = Some (y, yy + squares y).
Proof.
  revert u yy. induction y as [|v y IH]; intros u yy Hw Hk Hu Hyy Hsq; [by cbn [length cwrsi_rounds squares]; rewrite Z.add_0_r|]. cbn [length] in *.
  set (k := pulses (v :: y)) in *. assert (k = Z.abs_nat v + pulses y)%nat as Ek by done. destruct (signed_part v y Hw) as [Hs Hl]. destruct (left_small v y Hw) as [_ Hleft]. fold k in Hs, Hl.
  pose proof (squares_bound y). cbn [cwrsi_rounds squares] in *. rewrite (proj2 Hu (k + 1)%nat ltac:(lia)), (proj2 Hu k ltac:(lia)). mred. rewrite Nat.add_1_r, Hs, Hl.
  rewrite (down_loop_spec (S k) u (U (S (length y))) k (pulses y)); [|by eapply holds_le; [exact Hu|lia]|lia|lia|intros j Hj; apply above; lia|apply below; lia].
  mred. rewrite pulse_spec by lia. unfold MAC16_16. rewrite int_chk_ok by nia. mred. rewrite Hleft.
  destruct (row_step_holds USUB32 (U (S (length y))) 0 u (Z.of_nat (pulses y) + 2)) as (u' & Eu & Hu'); [lia|eapply holds_le; [exact Hu|lia]|]. unfold uprev. rewrite Eu. mred.
  destruct y as [|w y'] eqn:Ey; [cbn [length cwrsi_rounds squares]; mred; do 2 f_equal; lia|]. rewrite <- Ey in *.
  rewrite IH; [mred; do 2 f_equal; lia| |lia| |nia|lia].
  - pose proof (V_tail (length y) k (pulses y) ltac:(lia)). lia.
  - eapply holds_ext; [replace (pulses y + 2)%nat with (Z.to_nat (Z.of_nat (pulses y) + 2)) by lia; exact Hu'|]. intros i Hi. assert (length y = S (length y')) as El by by rewrite Ey.
    rewrite El in *. apply recur_prev. pose proof (U_mono (S (length y')) i (S k) ltac:(lia)). pose proof (U_nonneg (S (S (length y'))) k). unfold V in Hw. lia.
Qed.

Lemma small_cwrsi_spec y u :
  (1 <= length y)%nat -> fits (length y) (pulses y) -> holds u (U (length y)) (pulses y + 2) -> CwrsSmall.cwrsi (zlen y) (Z.of_nat (pulses y)) (index y) u = Some (y, squares y).
Proof.
  intros Hy [Hw Hk] Hu. unfold CwrsSmall.cwrsi, celt_assert. rewrite bool_decide_true by lia. mred. rewrite !Nat2Z.id. pose proof (squares_bound y). rewrite cwrsi_rounds_spec; [done|done|done|done|lia|nia].
Qed.

(** ** The two builds *)

(** C12 The build with little memory numbers pulse vectors as the build with the table does: for
    the vectors that the table covers, both encoders do the same to the range coder and both
    decoders read the same vector, whatever the array held. *)
Theorem small_footprint_same n k u :
  (2 <= n)%nat -> (0 < k)%nat -> codable n k -> (k + 2 <= length u)%nat ->
  (forall y enc, length y = n -> pulses y = k ->
    CwrsSmall.encode_pulses y (Z.of_nat n) (Z.of_nat k) u enc = Cwrs.encode_pulses y (Z.of_nat n) (Z.of_nat k) enc) /\
  (forall dec i dec', ec_dec_uint dec (V n k) = Some (i, dec') -> 0 <= i < V n k ->
    CwrsSmall.decode_pulses (Z.of_nat n) (Z.of_nat k) u dec = Cwrs.decode_pulses (Z.of_nat n) (Z.of_nat k) dec).
Proof.
  intros Hn Hk Hc Hu. pose proof Hc as [Hcov Hw]. pose proof (covered_small _ _ Hcov) as [_ Hsmall]. assert (fits n k) as Hf by (split; [done|lia]). split.
  - intros y enc <- <-. unfold CwrsSmall.encode_pulses, Cwrs.encode_pulses, celt_assert. rewrite bool_decide_true by lia. mred.
    rewrite small_icwrs_spec, icwrs_spec by done. mred. by rewrite V_spec.
  - intros dec i dec' E Hi. unfold CwrsSmall.decode_pulses, Cwrs.decode_pulses, celt_assert. rewrite bool_decide_true by lia. mred.
    destruct (ncwrs_urow_spec n k u ltac:(lia) ltac:(lia) Hf Hu) as (u' & -> & Hu'). mred. rewrite V_spec by done. mred. rewrite E. mred.
    destruct (index_onto n k i Hi) as (y & <- & <- & <-). rewrite small_cwrsi_spec, cwrsi_spec by (done || lia). done.
Qed.

Lemma small_footprint_same_witness :
  CwrsSmall.encode_pulses [2; -1; 0; 3] 4 6 (replicate 8 7) (ec_enc_init (replicate 16 0) 16) = Cwrs.encode_pulses [2; -1; 0; 3] 4 6 (ec_enc_init (replicate 16 0) 16).
Proof.
  assert (codable 4 6) as Hc by (split; [split; cbn; lia|vm_compute; reflexivity]).
  apply (proj1 (small_footprint_same 4 6 (replicate 8 7) ltac:(lia) ltac:(lia) Hc ltac:(cbn; lia))); reflexivity.
Defined.

(** * The bits that a band of pulses needs

    [log2_frac] never estimates too little: so many bits, in fractions of a bit, hold every
    index of the codebook. *)

Lemma power_of_two v : 1 <= v -> Z.land v (v - 1) = 0 -> v = 2 ^ Z.log2 v.
Proof.
  intros Hv H. destruct (Z.log2_spec v ltac:(lia)) as [H1 H2]. destruct (decide (v = 2 ^ Z.log2 v)) as [|Hne]; [done|]. exfalso.
  pose proof (Z.log2_nonneg v). assert (0 < 2 ^ Z.log2 v) by lia. assert (Z.log2 (v - 1) = Z.log2 v) as El by (apply Z.log2_unique; lia).
  assert (Z.testbit (Z.land v (v - 1)) (Z.log2 v) = true) as Hb; [|by rewrite H, Z.bits_0 in Hb].
  rewrite Z.land_spec, Z.bit_log2 by lia. rewrite <- El. rewrite Z.bit_log2; [done|]. assert (v <> 1) by (intros ->; by apply Hne). lia.
Qed.

(** The value after the rounds stands for a power of the argument. *)
Lemma log2_loop_spec f P q val :
  0 <= q -> 2 ^ 15 <= val <= 131069 -> 1 <= P -> P * 2 ^ 15 <= 2 ^ q * val ->
  let '(v, l) := log2_loop f val (q * 2 ^ Z.of_nat f) in
  q * 2 ^ Z.of_nat f <= l < (q + 2) * 2 ^ Z.of_nat f /\ P ^ (2 ^ Z.of_nat f) <= 2 ^ (l + if decide (v > 0x8000) then 1 else 0).
Proof.
  revert P q val. induction f as [|f IH]; intros P q val Hq Hv HP Hinv; cbn [log2_loop].
  all: set (b := Z.shiftr val 16); set (val1 := Z.shiftr (u32 (val + b)) b); set (val2 := Z.shiftr (u32 (u32 (val1 * val1) + 0x7FFF)) 15).
  all: assert (b = 0 /\ val < 2 ^ 16 \/ b = 1 /\ 2 ^ 16 <= val) as Hb by (unfold b; rewrite Z.shiftr_div_pow2 by lia; change (2 ^ 16) with 65536; zlia).
  all: assert (2 ^ 15 <= val1 < 2 ^ 16 /\ P * 2 ^ 15 <= 2 ^ (q + b) * val1) as [H1 Hinv1].
  1, 3: unfold val1; destruct Hb as [[-> Hb]|[-> Hb]]; rewrite wrap_small by lia; [rewrite Z.shiftr_0_r, !Z.add_0_r; split; [lia|done]|];
    rewrite Z.shiftr_div_pow2 by lia; change (2 ^ 1) with 2; rewrite Z.pow_add_r by lia; change (2 ^ 1) with 2; assert (val <= 2 * ((val + 1) / 2)) by zlia; split; [zlia|nia].
  all: assert (val1 * val1 <= 2 ^ 15 * val2 /\ 2 ^ 15 <= val2 <= 131069 /\ (val1 = 2 ^ 15 \/ val2 > 0x8000)) as (Hsq & H2 & H3).
  1, 3: unfold val2; rewrite (wrap_small 32 (val1 * val1)) by nia; rewrite wrap_small by nia; rewrite Z.shiftr_div_pow2 by lia; change (2 ^ 15) with 32768 in *; change (2 ^ 16) with 65536 in *;
    assert (val1 * val1 <= 65535 * 65535) by nia; assert (32768 * 32768 <= val1 * val1) by nia; split; [zlia|]; split; [zlia|];
    destruct (decide (val1 = 32768)); [by left|right]; assert (32769 * 32769 <= val1 * val1) by nia; zlia.
  - rewrite Z.shiftl_0_r. change (2 ^ Z.of_nat 0) with 1. rewrite Z.pow_1_r, !Z.mul_1_r. split; [lia|]. assert (0 < 2 ^ (q + b)) by (apply Z.pow_pos_nonneg; lia). case_decide.
    + rewrite Z.pow_add_r by lia. change (2 ^ 15) with 32768 in *. change (2 ^ 16) with 65536 in *. nia.
    + rewrite Z.add_0_r. destruct H3 as [H3|]; [|done]. rewrite H3 in Hinv1. nia.
  - rewrite Z.shiftl_mul_pow2 by lia. rewrite Nat2Z.inj_succ, Z.pow_succ_r by lia. set (p := 2 ^ Z.of_nat f). assert (0 < p) by (apply Z.pow_pos_nonneg; lia).
    replace (q * (2 * p) + b * (2 * p)) with ((2 * (q + b)) * p) by lia. specialize (IH (P * P) (2 * (q + b)) val2 ltac:(lia) H2 ltac:(nia)).
    assert (P * P * 2 ^ 15 <= 2 ^ (2 * (q + b)) * val2) as Hnext.
    { replace (2 * (q + b)) with ((q + b) + (q + b)) by lia. rewrite Z.pow_add_r by lia. set (t := 2 ^ (q + b)) in *. assert (0 < t) by (apply Z.pow_pos_nonneg; lia). change (2 ^ 15) with 32768 in *.
      assert ((P * 32768) * (P * 32768) <= (t * val1) * (t * val1)) by (apply Z.mul_le_mono_nonneg; lia). nia. }
    specialize (IH Hnext). fold p in IH. destruct (log2_loop f val2 _) as [v l]. destruct IH as [IH1 IH2]. split; [nia|]. rewrite Z.pow_mul_r by lia. by rewrite Z.pow_2_r.
Qed.

Lemma log2_frac_spec v f :
  1 <= v < 2 ^ 32 -> v ^ (2 ^ Z.of_nat f) <= 2 ^ log2_frac v f /\ 0 <= log2_frac v f <= 33 * 2 ^ Z.of_nat f.
Proof.
  intros Hv. unfold log2_frac. rewrite ec_ilog_log2 by done. rewrite (wrap_small 32 (v - 1)) by lia. replace (Z.log2 v + 1 - 1) with (Z.log2 v) by lia.
  destruct (Z.log2_spec v ltac:(lia)) as [H1 H2]. rewrite Z.pow_succ_r in H2 by apply Z.log2_nonneg. pose proof (Z.log2_nonneg v) as Hl0. assert (Z.log2 v < 32) as Hl by (apply Z.log2_lt_pow2; lia).
  rewrite !(Z.shiftl_mul_pow2 (Z.log2 v)) by lia. set (p := 2 ^ Z.of_nat f). assert (0 < p) by (apply Z.pow_pos_nonneg; lia). case_decide as Hpow.
  - set (m := Z.log2 v) in *. set (val := if decide (m + 1 > 16) then _ else _).
    assert (2 ^ 15 <= val <= 131069 /\ v * 2 ^ 15 <= 2 ^ m * val) as [Hval Hinv].
    { unfold val. case_decide as E.
      - replace (m + 1 - 16) with (m - 15) by lia. rewrite Z.shiftr_div_pow2 by lia. assert (2 ^ m = 2 ^ (m - 15) * 2 ^ 15) as Em by (rewrite <- Z.pow_add_r by lia; f_equal; lia). rewrite Em in *.
        set (t := 2 ^ (m - 15)) in *. assert (0 < t) by (apply Z.pow_pos_nonneg; lia). change (2 ^ 15) with 32768 in *. pose proof (Z.div_mod (v - 1) t ltac:(lia)) as Hdm. pose proof (Z.mod_pos_bound (v - 1) t ltac:(lia)).
        set (x := (v - 1) / t) in *. assert (0 <= x < 65536) by nia. assert (32767 <= x) by nia. rewrite wrap_small by lia. split; [lia|nia].
      - rewrite Z.shiftl_mul_pow2 by lia. assert (2 ^ 15 = 2 ^ m * 2 ^ (15 - m)) as E15 by (rewrite <- Z.pow_add_r by lia; f_equal; lia). replace (16 - (m + 1)) with (15 - m) by lia.
        set (t := 2 ^ (15 - m)) in *. assert (0 < t) by (apply Z.pow_pos_nonneg; lia). assert (2 ^ 15 <= v * t < 2 ^ 16) by (change (2 ^ 16) with (2 * 2 ^ 15); rewrite E15; nia).
        rewrite wrap_small by lia. split; [lia|]. rewrite E15. nia. }
    pose proof (log2_loop_spec f v m val ltac:(lia) Hval ltac:(lia) Hinv) as Hloop. fold p in Hloop. destruct (log2_loop f val (m * p)) as [v' l]. destruct Hloop as [L1 L2]. split; [done|]. case_decide; nia.
  - assert (v = 2 ^ Z.log2 v) as Ev by (apply power_of_two; [lia|]; destruct (decide (Z.land v (v - 1) = 0)) as [|Hc]; [done|by destruct Hpow]). split; [|nia]. rewrite Ev at 1. rewrite <- Z.pow_mul_r by lia. lia.
Qed.

Lemma V_mono n k k' : (k <= k')%nat -> V (S n) k <= V (S n) k'.
Proof. intros Hk. unfold V. pose proof (U_mono n k k' Hk). pose proof (U_mono n (S k) (S k') ltac:(lia)). lia. Qed.

#[local] Opaque U.

Lemma bits_loop_spec fuel u k f n :
  holds u (U (S n)) (k + fuel + 1) -> (forall j, (j < k + fuel)%nat -> V (S n) j < 2 ^ 32) -> (f <= 9)%nat ->
  exists bits, bits_loop fuel u k f = Some bits /\ length bits = fuel /\
    forall j b, bits !! j = Some b -> V (S n) (k + j) ^ (2 ^ Z.of_nat f) <= 2 ^ b.
Proof.
  intros Hu Hw Hf. revert k Hu Hw. induction fuel as [|fuel IH]; intros k Hu Hw; cbn [bits_loop]; [exists []; by split|].
  rewrite (proj2 Hu k ltac:(lia)), (proj2 Hu (k + 1)%nat ltac:(lia)). mred. destruct (IH (k + 1)%nat) as (bits & -> & Hl & Hb); [by eapply holds_le; [exact Hu|lia]|intros j Hj; apply Hw; lia|]. mred.
  eexists. split; [done|]. split; [by cbn; rewrite Hl|]. intros [|j] b; cbn [lookup list_lookup].
  - intros [= <-]. specialize (Hw k ltac:(lia)). pose proof (V_pos n k). rewrite Nat.add_0_r. replace (U (S n) k + U (S n) (k + 1)) with (V (S n) k) by (by rewrite Nat.add_1_r). rewrite (wrap_small 32 (V (S n) k)) by lia.
    destruct (log2_frac_spec (V (S n) k) f ltac:(lia)) as [H1 H2]. assert (2 ^ Z.of_nat f <= 2 ^ 9) by (apply Z.pow_le_mono_r; lia). change (2 ^ 9) with 512 in *. unfold i16. rewrite Z.mod_small by lia. by replace (_ + 2 ^ 15 - 2 ^ 15) with (log2_frac (V (S n) k) f) by lia.
  - intros Hj. replace (k + S j)%nat with (k + 1 + j)%nat by lia. by apply Hb.
Qed.

(** C15 The table that [get_required_bits] fills has, for every number of pulses, at least the
    binary logarithm of the number of vectors, in units of 2^-frac bits: so many bits hold
    every index of the codebook, and the budget of a band is never too small. *)
Theorem required_bits_enough n maxk f u :
  (1 <= n)%nat -> (1 <= maxk)%nat -> fits n maxk -> (f <= 9)%nat -> (maxk + 2 <= length u)%nat ->
  exists bits, get_required_bits (Z.of_nat n) (Z.of_nat maxk) f u = Some (0 :: bits) /\ length bits = maxk /\
    forall k b, (1 <= k <= maxk)%nat -> (0 :: bits) !! k = Some b -> V n k ^ (2 ^ Z.of_nat f) <= 2 ^ b.
Proof.
  intros Hn Hk Hft Hf Hu. unfold get_required_bits, celt_assert. rewrite bool_decide_true by lia. mred. destruct (decide (Z.of_nat n = 1)) as [E|E].
  - eexists. split; [done|]. split; [rewrite length_replicate; lia|]. intros [|k] b Hk' Hb; [lia|]. cbn in Hb. apply lookup_replicate in Hb as [-> _]. assert (n = 1%nat) as -> by lia.
    assert (V 1 (S k) = 2) as -> by (unfold V; by rewrite !U_1). rewrite Z.shiftl_1_l. assert (1 <= 2 ^ Z.of_nat f <= 2 ^ 9) by (split; [|apply Z.pow_le_mono_r; lia]; assert (0 < 2 ^ Z.of_nat f) by (apply Z.pow_pos_nonneg; lia); lia).
    change (2 ^ 9) with 512 in *. unfold i16. rewrite Z.mod_small by lia. by replace (_ + 2 ^ 15 - 2 ^ 15) with (2 ^ Z.of_nat f) by lia.
  - destruct (ncwrs_urow_spec n maxk u ltac:(lia) Hk Hft Hu) as (u' & -> & Hu'). mred. destruct n as [|n]; [lia|]. rewrite Nat2Z.id.
    destruct (bits_loop_spec maxk u' 1 f n) as (bits & -> & Hl & Hb); [by replace (1 + maxk + 1)%nat with (maxk + 2)%nat by lia| |done|].
    { intros j Hj. pose proof (V_mono n j maxk ltac:(lia)). pose proof (ft_width _ _ Hft). lia. }
    mred. exists bits. split; [done|]. split; [done|]. intros [|k] b Hk' Hkb; [lia|]. exact (Hb k b Hkb).
Qed.

Lemma required_bits_enough_witness :
  exists bits, get_required_bits 4 6 3 (replicate 8 0) = Some (0 :: bits) /\ bits !! 5%nat = Some 74 /\ V 4 6 ^ 8 <= 2 ^ 74.
Proof.
  assert (fits 4 6) as Hf by (split; [vm_compute; reflexivity|lia]).
  destruct (required_bits_enough 4 6 3 (replicate 8 0) ltac:(lia) ltac:(lia) Hf ltac:(lia) ltac:(cbn; lia)) as (bits & H1 & _ & H2).
  exists bits. split; [exact H1|]. assert (bits !! 5%nat = Some 74) as Hb by (vm_compute in H1; injection H1 as <-; reflexivity). split; [exact Hb|].
  exact (H2 6%nat 74 ltac:(lia) Hb).
Defined.
